(* ===== verification/_CoqProject ===== *)
-Q . S2P
Prelude.v
Ring.v
Proto.v
Client.v
StreamClients.v
NodeClient.v
Float.v
FloatFacts.v
DspPlan.v
Dsp.v
ServerIo.v
ServerFft.v
Server.v
FftThread.v
ServerSteps.v
ServerLoop.v
ServerRun.v
RtlStream.v
I2c.v
TunerR82xx.v
TunerR82xxProps.v
TunerFc.v
TunerE4k.v
TunerFc2580.v
Usb.v
UsbRegs.v
Librtlsdr.v
TunerInv.v
LibrtlsdrOpen.v
LibrtlsdrProps.v
LibrtlsdrSettings.v
LibrtlsdrAsync.v
RtlTcp.v
RtlTcpClients.v
Handover.v
RtlAdsb.v
RtlEeprom.v
RtlFm.v
RtlFmProps.v
Convenience.v
Getopt.v
Options.v
RtlFmRun.v
RtlTcpRun.v
RtlTools.v
RtlList.v
Programs.v
Radix2.v
FftCpu.v
FftVk.v
RtlPower.v
RtlPowerProps.v
RtlPowerRun.v
ProgramsProps.v
