(* ===== verification/Prelude.v ===== *)
(** * rtl-sdr: a verification development

    A model of the rtl-sdr repository (library, tuner drivers, stream server, its clients and the
    command line programs) as Rocq definitions that follow the C, C++, Go and JavaScript sources,
    with theorems about them.  Paths are those below [src/].

    ** The program

    A dongle with an RTL2832U and one of five tuners delivers bytes over USB.  [librtlsdr] finds and
    opens it, programs its registers and streams.  The programs set a device up through the library
    and do something with the stream: rtl_sdr records it, rtl_test counts lost bytes, rtl_tcp serves
    it to clients, rtl_fm demodulates it, rtl_adsb decodes aircraft frames, rtl_power logs spectra,
    rtl_stream serves filtered channels and spectra over the RTLSTREAM/2 protocol to the clients of
    [stream_client]; rtl_eeprom, rtl_biast and rtl_list work on the device itself.

    ** Conventions

    A C integer is a [Z] and every conversion is written out ([u8] to [s64] below); [float] and
    [double] are the binary formats of [SpecFloat] ([Float]); arrays are lists with [rd], [wr],
    [slice] and [blit], where an index out of range reads 0 and writes nothing, and theorems that
    need it prove that indices are in range; a function that works in place takes the array and
    returns it.  Stateful code is in the state monad [st]; loops that are not structural have fuel,
    and it is proved that enough fuel ends them.  Code that is not in the repository (libusb, libm,
    the C library, Vulkan, VkFFT, system calls) is a class, a section variable or an environment of
    answers; what the code relies on are the laws of the class or hypotheses, with a concrete
    instance in the witness of each theorem that has them.  Threads are step relations, a critical
    section or a call being one step; what a theorem says holds for all interleavings.  Programs are
    the list of their actions on resources and [perform_all] plays them ([Actions] below).

    ** The files

    Stream server and protocol:
    - [Ring] ([src/rtl_ring.c]): the broadcast ring; [ring_session_prefix], [ring_read_refines].
    - [Proto] ([src/rtl_stream_proto.c]): encoders and decoder; [req_roundtrip].
    - [Client], [StreamClients] and [NodeClient] ([stream_client/c], [cpp], [go], [node]): the
      clients; [client_reads_iq_frame], [stream_clients_read_iq], [node_promises_settle].
    - [DspPlan] and [Dsp] ([src/rtl_dsp.c]): planning and running the channel filter;
      [dsp_process_reference] relates the fused routines to a sample-at-a-time reference.
    - [ServerIo], [ServerFft], [Server], [FftThread] ([src/rtl_stream_server.c]): socket I/O and
      publication, the spectrum, the client handlers, the spectrum thread; [iq_session_end_to_end]
      is about all of them with ring, filter and wire format, [iq_client_receives_all],
      [fft_session_frames] and [fft_thread_stream] complete it.
    - [ServerSteps], [ServerLoop], [ServerRun]: the client table as atomic steps
      ([socket_actions_safe], [clients_own_sockets]), the poll loop as a refinement of them that
      loses no wake-up and returns behind a stop ([server_run_refines], [server_run_returns]),
      set-up and shutdown ([server_setup_no_leak]).
    - [FftCpu], [FftVk] with [Radix2] ([src/fft]): the two transforms; [fft_cpu_reference],
      [vk_plan_life].
    - [RtlStream] ([src/rtl_stream.c]): the program; [stream_main_releases].

    Library and drivers:
    - [I2c], [TunerR82xx], [TunerR82xxProps], [TunerFc], [TunerE4k], [TunerFc2580] ([src/tuner_*.c]):
      the drivers over the interface [I2c]; [r82xx_shadow_coherent], [r82xx_pll_accurate],
      [e4k_tunes]; [TunerInv] has what all of them leave alone.
    - [Usb], [UsbRegs], [Librtlsdr], [LibrtlsdrOpen], [LibrtlsdrProps], [LibrtlsdrSettings],
      [LibrtlsdrAsync] ([src/librtlsdr.c]): registers, the device with its tuner table, opening,
      settings and streaming; [tuner_bus_guarded], [sample_rate_programmed], [tuner_clock_current],
      [stream_ends_safely], [stream_stops], [stream_delivers].

    Programs:
    - [RtlTcp], [RtlTcpClients], [RtlTcpRun] ([src/rtl_tcp.c]): ring and senders, commands and the
      table of clients with the races of its reaper, [main]; [tcp_stream_in_order],
      [tcp_commands_exact], [tcp_clients_never_freed], [tcp_shutdown].
    - [Handover], [RtlAdsb] ([src/rtl_adsb.c]), [RtlFm], [RtlFmProps], [RtlFmRun] ([src/rtl_fm.c]):
      condition variables without a predicate, with wake-ups that no signal caused, the decoder,
      the demodulator with its divisions by zero, options and threads;
      [adsb_frame_shown], [fm_threads_output], [fm_shutdown].
    - [RtlPower], [RtlPowerProps], [RtlPowerRun] ([src/rtl_power.c]): the scan and the log;
      [power_fft_reference], [power_plan], [power_log_schedule].
    - [RtlEeprom], [RtlTools], [RtlList] ([src/rtl_eeprom.c], [src/rtl_sdr.c], [src/rtl_test.c],
      [src/rtl_list.c]); [eeprom_session].
    - [Convenience], [Getopt], [Options] ([src/convenience], [src/getopt]): helpers and command lines;
      [getopt_parses], and [options_in_order] for the loops of the programs.
    - [Programs], [ProgramsProps]: options, settings and [main] of the remaining programs;
      [adsb_threads_shown], [programs_set_up], [programs_release].

    [Prelude] has integers, arrays, the monad, actions and tactics; [FloatFacts] and [Radix2] are
    shared facts.

    ** Bounds

    Three rounds for each magnitude end the search of rtl_adsb; a frame has at most 112 bits and its
    loop 113 rounds.  Planning of rtl_power uses the 1499 and 21 rounds of its own loops.  The loop
    of [getopt] needs one call more than there are options.  All other fuel is the length of a list
    or a count the source has as a limit.  Values of [time] and counters of 64 bits that are only
    counted up are taken not to overflow where a theorem says so.

    ** Not modelled

    - Messages, usage texts and the formatting of the rows of rtl_power as text: output without an
      effect on state.
    - Code for Windows and for platforms other than those the main build has.
    - What a data race leaves: a round of the decoder of rtl_adsb during which a buffer is copied
      shows any frames and leaves any bytes.
    - rtl_fm starts its threads 0.1 s behind the controller; that this is enough for the first
      settings is taken for granted.
    - [net.Dial] of the Go client and the socket of the Node client, which are libraries: the first
      only connects, the events of the second may come in any order.
    - Functions without a caller ([mad], [arbitrary_resample], [is_fvco_valid] and the like).
    - Tests, examples, the script [debian/heatmap.py], build and packaging.

    Numeric constants of the source are abbreviations or definitions with the source's name.  Where
    a loop body or a single case has a definition of its own, the function that contains it stands
    for both in the correspondence with the source. *)

From stdpp Require Export base numbers list option strings.
From stdpp Require Export decidable.
From Stdlib Require Export ZArith Lia.

#[global] Open Scope Z_scope.

(** ** Machine integers

    A C integer of width [w] is a [Z]; every place where the source truncates or
    wraps is written out with one of the functions below.  [uN] is the conversion
    to [uintN_t], [sN] the conversion to [intN_t] (two's complement, as on every
    platform the program is built for). *)

Definition u8 (z : Z) : Z := z mod 2 ^ 8.
Definition u16 (z : Z) : Z := z mod 2 ^ 16.
Definition u32 (z : Z) : Z := z mod 2 ^ 32.
Definition u64 (z : Z) : Z := z mod 2 ^ 64.
Definition s8 (z : Z) : Z := (z + 2 ^ 7) mod 2 ^ 8 - 2 ^ 7.
Definition s16 (z : Z) : Z := (z + 2 ^ 15) mod 2 ^ 16 - 2 ^ 15.
Definition s32 (z : Z) : Z := (z + 2 ^ 31) mod 2 ^ 32 - 2 ^ 31.
Definition s64 (z : Z) : Z := (z + 2 ^ 63) mod 2 ^ 64 - 2 ^ 63.

Definition UINT32_MAX : Z := 2 ^ 32 - 1.
Definition UINT64_MAX : Z := 2 ^ 64 - 1.
Definition SIZE_MAX : Z := 2 ^ 64 - 1.
Definition INT64_MIN : Z := - 2 ^ 63.
Definition INT_MAX : Z := 2 ^ 31 - 1.

(** [0 <= z < 2^w], the values of an unsigned [w]-bit variable. *)
Definition is_u (w z : Z) : Prop := 0 <= z < 2 ^ w.
Definition is_s (w z : Z) : Prop := - 2 ^ (w - 1) <= z < 2 ^ (w - 1).

#[global] Instance is_u_dec w z : Decision (is_u w z).
Proof. unfold is_u. apply _. Defined.
#[global] Instance is_s_dec w z : Decision (is_s w z).
Proof. unfold is_s. apply _. Defined.

(** An array of bytes. *)
Definition bytes (l : list Z) : Prop := Forall (is_u 8) l.

#[global] Instance bytes_dec l : Decision (bytes l).
Proof. unfold bytes. apply _. Defined.

(** C's [int] value of a condition. *)
Definition b2z (b : bool) : Z := if b then 1 else 0.

Declare Scope c_scope.
Delimit Scope c_scope with c.
Notation "x &' y" := (Z.land x y) (at level 40, left associativity) : c_scope.
Notation "x |' y" := (Z.lor x y) (at level 45, left associativity) : c_scope.
Notation "x <<' n" := (Z.shiftl x n) (at level 38, left associativity) : c_scope.
Notation "x >>' n" := (Z.shiftr x n) (at level 38, left associativity) : c_scope.
Notation "~' x" := (Z.lnot x) (at level 30, right associativity) : c_scope.
#[global] Open Scope c_scope.

Create HintDb cint.

Lemma u8_range z : is_u 8 (u8 z).
Proof. apply Z.mod_pos_bound. lia. Qed.
Lemma u16_range z : is_u 16 (u16 z).
Proof. apply Z.mod_pos_bound. lia. Qed.
Lemma u32_range z : is_u 32 (u32 z).
Proof. apply Z.mod_pos_bound. lia. Qed.
Lemma u64_range z : is_u 64 (u64 z).
Proof. apply Z.mod_pos_bound. lia. Qed.
#[export] Hint Resolve u8_range u16_range u32_range u64_range : cint.

Lemma u8_id z : is_u 8 z -> u8 z = z.
Proof. apply Z.mod_small. Qed.
Lemma u16_id z : is_u 16 z -> u16 z = z.
Proof. apply Z.mod_small. Qed.
Lemma u32_id z : is_u 32 z -> u32 z = z.
Proof. apply Z.mod_small. Qed.
Lemma u64_id z : is_u 64 z -> u64 z = z.
Proof. apply Z.mod_small. Qed.

Lemma s16_id z : is_s 16 z -> s16 z = z.
Proof. unfold is_s, s16. intros. rewrite Z.mod_small; lia. Qed.
Lemma s32_id z : is_s 32 z -> s32 z = z.
Proof. unfold is_s, s32. intros. rewrite Z.mod_small; lia. Qed.
Lemma s64_id z : is_s 64 z -> s64 z = z.
Proof. unfold is_s, s64. intros. rewrite Z.mod_small; lia. Qed.
Lemma s16_range z : is_s 16 (s16 z).
Proof. unfold is_s, s16. pose proof (Z.mod_pos_bound (z + 2 ^ 15) (2 ^ 16)). lia. Qed.
Lemma s32_range z : is_s 32 (s32 z).
Proof. unfold is_s, s32. pose proof (Z.mod_pos_bound (z + 2 ^ 31) (2 ^ 32)). lia. Qed.
#[export] Hint Resolve s16_range s32_range : cint.

(** [lia] on the widths: unfold the range predicates and the conversions. *)
Ltac cunfold :=
  unfold is_u, is_s, u8, u16, u32, u64, s8, s16, s32, s64,
    UINT32_MAX, UINT64_MAX, SIZE_MAX, INT64_MIN, INT_MAX in *.
Ltac clia := cunfold; lia.
(** The same with division and modulus by constants. *)
Ltac cdlia := cunfold; Z.div_mod_to_equations; lia.

Lemma lor_shiftl_add a n b : 0 <= n -> 0 <= b < 2 ^ n -> (a <<' n) |' b = a * 2 ^ n + b.
Proof.
  intros Hn Hb. rewrite <- Z.shiftl_mul_pow2 by lia.
  rewrite Z.add_nocarry_lxor, Z.lxor_lor; [done| |].
  all: apply Z.bits_inj'; intros i Hi; rewrite Z.land_spec, Z.bits_0;
    destruct (decide (i < n)); [rewrite Z.shiftl_spec_low by lia; done|];
    replace (Z.testbit b i) with false; [apply andb_false_r|];
    symmetry; rewrite <- (Z.mod_small b (2 ^ n)) by lia; apply Z.mod_pow2_bits_high; lia.
Qed.

(** ** Arrays

    A C array is a list; a read at an index is [rd], a write [wr] and a block copy
    [blit].  All three are total; that the source's indices are in range is a
    theorem of each component that uses them, not an assumption of the model. *)

Definition rd (l : list Z) (i : Z) : Z :=
  if i <? 0 then 0 else default 0 (l !! Z.to_nat i).

Definition wr (l : list Z) (i x : Z) : list Z :=
  if i <? 0 then l else <[Z.to_nat i := x]> l.

Definition slice (l : list Z) (off len : Z) : list Z :=
  take (Z.to_nat len) (drop (Z.to_nat off) l).

Definition blit (dst : list Z) (off : Z) (src : list Z) : list Z :=
  list_inserts (Z.to_nat off) src dst.

Definition zlen {A} (l : list A) : Z := Z.of_nat (length l).

Lemma zlen_nonneg {A} (l : list A) : 0 <= zlen l.
Proof. unfold zlen. lia. Qed.
Lemma nil_length_inv_zlen {A} (l : list A) : zlen l = 0 -> l = [].
Proof. unfold zlen. intros. apply nil_length_inv. lia. Qed.
Lemma zlen_app {A} (l k : list A) : zlen (l ++ k) = zlen l + zlen k.
Proof. unfold zlen. rewrite length_app. lia. Qed.

Lemma length_wr l i x : length (wr l i x) = length l.
Proof. unfold wr. destruct (i <? 0); [done|]. apply length_insert. Qed.
Lemma length_blit l i k : length (blit l i k) = length l.
Proof. apply length_inserts. Qed.
Lemma zlen_wr l i x : zlen (wr l i x) = zlen l.
Proof. unfold zlen. by rewrite length_wr. Qed.
Lemma zlen_blit l i k : zlen (blit l i k) = zlen l.
Proof. unfold zlen. by rewrite length_blit. Qed.

Lemma rd_wr_eq l i x : 0 <= i < zlen l -> rd (wr l i x) i = x.
Proof.
  unfold zlen, rd, wr. intros. destruct (Z.ltb_spec i 0); [lia|].
  rewrite list_lookup_insert_eq; [done|lia].
Qed.
Lemma rd_wr_ne l i j x : 0 <= i -> 0 <= j -> i <> j -> rd (wr l i x) j = rd l j.
Proof.
  unfold rd, wr. intros. destruct (Z.ltb_spec i 0); [lia|].
  destruct (Z.ltb_spec j 0); [lia|]. rewrite list_lookup_insert_ne; [done|lia].
Qed.

Lemma rd_app_low (a b : list Z) i : i < zlen a -> rd (a ++ b) i = rd a i.
Proof.
  unfold rd, zlen. intros. destruct (Z.ltb_spec i 0); [done|]. by rewrite lookup_app_l by lia.
Qed.
Lemma rd_app_high (a b : list Z) i : zlen a <= i -> rd (a ++ b) i = rd b (i - zlen a).
Proof.
  unfold rd, zlen. intros. destruct (Z.ltb_spec i 0), (Z.ltb_spec (i - Z.of_nat (length a)) 0); try lia.
  rewrite lookup_app_r by lia. do 2 f_equal. lia.
Qed.
Lemma rd_app_at (k l : list Z) j : 0 <= j -> rd (k ++ l) (zlen k + j) = rd l j.
Proof. intros Hj. rewrite rd_app_high by lia. f_equal. lia. Qed.
Lemma rd_mid (k : list Z) x l : rd (k ++ x :: l) (zlen k) = x.
Proof. rewrite <- (Z.add_0_r (zlen k)), rd_app_at by lia. done. Qed.
Lemma wr_mid (k : list Z) x y l : wr (k ++ x :: l) (zlen k) y = k ++ y :: l.
Proof.
  unfold wr, zlen. destruct (Z.ltb_spec (Z.of_nat (length k)) 0); [lia|]. rewrite Nat2Z.id.
  by rewrite <- (Nat.add_0_r (length k)), insert_app_r.
Qed.

Lemma length_slice l off len :
  0 <= off -> 0 <= len -> off + len <= zlen l -> length (slice l off len) = Z.to_nat len.
Proof. unfold slice, zlen. intros. rewrite length_take, length_drop. lia. Qed.

Lemma lookup_slice l off len i :
  (i < Z.to_nat len)%nat -> slice l off len !! i = l !! (Z.to_nat off + i)%nat.
Proof. intros. unfold slice. rewrite lookup_take_lt by lia. apply lookup_drop. Qed.

(** A block written with [blit] reads back, and leaves every disjoint block alone. *)
Lemma slice_blit_eq l off k :
  0 <= off -> off + zlen k <= zlen l -> slice (blit l off k) off (zlen k) = k.
Proof.
  unfold zlen, blit. intros. apply list_eq. intros i.
  destruct (decide (i < length k)%nat) as [Hi|Hi].
  - rewrite lookup_slice by lia.
    rewrite list_lookup_inserts by lia. f_equal. lia.
  - rewrite (lookup_ge_None_2 k) by lia. apply lookup_ge_None_2.
    rewrite length_slice; unfold zlen; rewrite ?length_inserts; lia.
Qed.

Lemma slice_blit_ne l off k off' len :
  0 <= off -> 0 <= off' -> 0 <= len ->
  (off' + len <= off \/ off + zlen k <= off') ->
  slice (blit l off k) off' len = slice l off' len.
Proof.
  unfold zlen, blit. intros ? ? ? Hd. apply list_eq. intros i.
  destruct (decide (i < Z.to_nat len)%nat) as [Hi|Hi].
  - rewrite !lookup_slice by lia.
    destruct Hd; [apply list_lookup_inserts_lt|apply list_lookup_inserts_ge]; lia.
  - unfold slice. rewrite !lookup_take_ge by lia. done.
Qed.

Lemma blit_eq l off k :
  0 <= off -> off + zlen k <= zlen l ->
  blit l off k = take (Z.to_nat off) l ++ k ++ drop (Z.to_nat off + length k) l.
Proof.
  unfold zlen, blit. intros.
  rewrite <- (take_drop (Z.to_nat off) l) at 1.
  assert (E : length (take (Z.to_nat off) l) = Z.to_nat off) by (rewrite length_take; lia).
  rewrite <- (Nat.add_0_r (Z.to_nat off)) at 1. rewrite <- E at 1.
  rewrite list_inserts_app_r. f_equal.
  rewrite <- (take_drop (length k) (drop (Z.to_nat off) l)) at 1.
  rewrite list_inserts_0_r by (rewrite length_take, length_drop; lia).
  by rewrite drop_drop.
Qed.

Lemma blit_0 l k : zlen k <= zlen l -> blit l 0 k = k ++ drop (length k) l.
Proof. intros. by rewrite blit_eq by lia. Qed.

Lemma rd_blit l off k i :
  0 <= off -> off + zlen k <= zlen l ->
  rd (blit l off k) i = if (off <=? i) && (i <? off + zlen k) then rd k (i - off) else rd l i.
Proof.
  intros Ho Hl. unfold rd, blit, zlen in *. destruct (Z.ltb_spec i 0).
  { destruct (Z.leb_spec off i); [lia|]. done. }
  destruct (Z.leb_spec off i); cbn [andb].
  - destruct (Z.ltb_spec i (off + Z.of_nat (length k))).
    + destruct (Z.ltb_spec (i - off) 0); [lia|]. rewrite list_lookup_inserts by lia.
      do 2 f_equal. lia.
    + rewrite list_lookup_inserts_ge by lia. done.
  - rewrite list_lookup_inserts_lt by lia. done.
Qed.

(** A prefix of a written block. *)
Lemma slice_prefix l off len n :
  0 <= n <= len -> slice l off n = take (Z.to_nat n) (slice l off len).
Proof. unfold slice. intros. rewrite take_take. f_equal. lia. Qed.

(** ** Effects

    A C function that changes a state [S] and returns an [A] is a [st S A]; the
    notations are stdpp's [x ← m; k].  [chk m k] is the idiom
    [rc = m; if (rc < 0) return rc; k] of the drivers, [chk0] the idiom
    [ret = m; if (ret) return ret; k]. *)

Definition st (S A : Type) : Type := S -> A * S.

#[global] Instance st_ret S : MRet (st S) := fun A x s => (x, s).
#[global] Instance st_bind S : MBind (st S) :=
  fun A B k m s => let '(x, s') := m s in k x s'.

Definition st_get {S} : st S S := fun s => (s, s).
Definition st_put {S} (s : S) : st S unit := fun _ => (tt, s).
Definition st_mod {S} (f : S -> S) : st S unit := fun s => (tt, f s).

Definition chk {S} (m k : st S Z) : st S Z :=
  rc ← m; if rc <? 0 then mret rc else k.
Definition chk0 {S} (m k : st S Z) : st S Z :=
  ret ← m; if ret =? 0 then k else mret ret.

Notation "m ;? k" := (chk m k) (at level 100, k at level 200, right associativity) : c_scope.
Notation "m ;?0 k" := (chk0 m k) (at level 100, k at level 200, right associativity) : c_scope.

Lemma st_bind_eq {S A B} (m : st S A) (k : A -> st S B) s :
  (m ≫= k) s = let '(x, s') := m s in k x s'.
Proof. done. Qed.
Lemma st_ret_eq {S A} (x : A) (s : S) : (mret x : st S A) s = (x, s).
Proof. done. Qed.
Lemma chk_eq {S} (m k : st S Z) s :
  (m ;? k) s = let '(rc, s') := m s in if rc <? 0 then (rc, s') else k s'.
Proof. unfold chk. rewrite st_bind_eq. destruct (m s) as [rc s']. by destruct (rc <? 0). Qed.
Lemma chk0_eq {S} (m k : st S Z) s :
  (m ;?0 k) s = let '(rc, s') := m s in if rc =? 0 then k s' else (rc, s').
Proof. unfold chk0. rewrite st_bind_eq. destruct (m s) as [rc s']. by destruct (rc =? 0). Qed.
Lemma rc_pair {S} (x : Z * S) rc : x.1 = rc -> x = (rc, x.2).
Proof. intros <-. by destruct x. Qed.
Lemma chk0_inv {S} (m k : st S Z) s s' :
  (m ;?0 k) s = (0, s') -> exists s1, m s = (0, s1) /\ k s1 = (0, s').
Proof.
  rewrite chk0_eq. destruct (m s) as [rc s1]. destruct (Z.eqb_spec rc 0) as [->|]; [eauto|].
  intros [= -> _]. done.
Qed.
#[global] Opaque chk chk0.

(** ** Invariants of computations *)

(** [m] keeps [P]. *)
Definition inv {S A} (P : S -> Prop) (m : st S A) : Prop := forall s, P s -> P (m s).2.

Section InvRules.
Context {S : Type} (P : S -> Prop).

Lemma inv_ret {A} (x : A) : inv P (mret x).
Proof. by intros s. Qed.
Lemma inv_get : inv P (@st_get S).
Proof. by intros s. Qed.
Lemma inv_mod f : (forall s, P s -> P (f s)) -> inv P (st_mod f).
Proof. intros Hf s. apply Hf. Qed.
Lemma inv_bind {A B} (m : st S A) (k : A -> st S B) :
  inv P m -> (forall x, inv P (k x)) -> inv P (m ≫= k).
Proof. intros Hm Hk s Hs. rewrite st_bind_eq. specialize (Hm s Hs). destruct (m s) as [x s']. by apply Hk. Qed.
Lemma inv_chk (m k : st S Z) : inv P m -> inv P k -> inv P (m ;? k).
Proof.
  intros Hm Hk s Hs. rewrite chk_eq. specialize (Hm s Hs). destruct (m s) as [x s'].
  destruct (x <? 0); [done|]. by apply Hk.
Qed.
Lemma inv_chk0 (m k : st S Z) : inv P m -> inv P k -> inv P (m ;?0 k).
Proof.
  intros Hm Hk s Hs. rewrite chk0_eq. specialize (Hm s Hs). destruct (m s) as [x s'].
  destruct (x =? 0); [|done]. by apply Hk.
Qed.
End InvRules.

Create HintDb inv discriminated.
#[export] Hint Constants Opaque : inv.
(** Follow the structure of a computation down to calls that have a lemma. *)
Ltac inv_go :=
  repeat (cbv beta zeta; intros;
    lazymatch goal with
    | |- inv _ (mret _) => apply inv_ret
    | |- inv _ st_get => apply inv_get
    | |- inv _ (mbind _ _) => apply inv_bind
    | |- inv _ (chk _ _) => apply inv_chk
    | |- inv _ (chk0 _ _) => apply inv_chk0
    | |- inv _ (match ?x with _ => _ end) => destruct x
    | |- inv _ _ => solve [eauto with inv nocore]
    | _ => fail
    end).

(** Case analysis on the condition of every [if] over integer tests. *)
Ltac case_test :=
  match goal with
  | |- context [if ?b then _ else _] =>
      lazymatch b with
      | context [if _ then _ else _] => fail
      | _ => destruct b eqn:?
      end
  | H : context [if ?b then _ else _] |- _ =>
      lazymatch b with
      | context [if _ then _ else _] => fail
      | _ => destruct b eqn:?
      end
  end.

(** Decide every integer comparison of the goal. *)
Ltac ztests :=
  repeat match goal with
  | |- context [?a <? ?b] => destruct (Z.ltb_spec a b)
  | |- context [?a <=? ?b] => destruct (Z.leb_spec a b)
  | |- context [?a =? ?b] => destruct (Z.eqb_spec a b)
  end; try lia.

(** ** Sequences of actions *)

(** Actions that may be impossible in a state, one after the other. *)
Section Actions.
Context {A T : Type} (perform : A -> T -> option T).

Fixpoint perform_all (l : list A) (s : T) : option T :=
  match l with [] => Some s | a :: l => s ← perform a s; perform_all l s end.
Lemma performs_app l k s : perform_all (l ++ k) s = s ← perform_all l s; perform_all k s.
Proof. revert s. induction l as [|a l IH]; intros s; cbn [perform_all app]; [done|]. destruct (perform a s); [apply IH|done]. Qed.
Lemma performs_step l k s s' t : perform_all l s = Some s' -> perform_all k s' = t -> perform_all (l ++ k) s = t.
Proof. intros Hl <-. by rewrite performs_app, Hl. Qed.
End Actions.
