(* ===== verification/Ring.v ===== *)
(** * The broadcast ring ([src/src/rtl_ring.c], [src/src/rtl_ring.h])

    One producer copies blocks of at most [slot_size] bytes into [slot_count] slots;
    any number of readers, each with a private cursor, copy them out.  Every function
    runs its body under the ring's mutex, so one call is one atomic step.

    [Module Ring] holds the structure and its operations as the C code has them: one
    flat byte array, an array of lengths, 64-bit counters that wrap.  [Module RingSpec]
    is the contract: a bounded log of whole blocks.  The theorems show that every
    operation keeps the structure well formed ([ring_wf]), that it implements the log
    ([ring_log]), and what a reader that races with the producer can observe. *)

From S2P Require Import Prelude.

Module Ring.

(** [enum rtlsdr_ring_result]. *)
Definition RTL_RING_ERROR : Z := -1.
Definition RTL_RING_EMPTY : Z := 0.
Definition RTL_RING_DATA : Z := 1.
Definition RTL_RING_GAP : Z := 2.

(** [struct rtlsdr_ring_cursor]. *)
Record rtlsdr_ring_cursor := mk_cursor {
  cur_next_seq : Z;
  cur_generation : Z;
}.

(** [struct rtlsdr_ring]: [data] has [slot_count * slot_size] bytes. *)
Record rtlsdr_ring := mk_ring {
  data : list Z;
  slot_lens : list Z;
  slot_count : Z;
  slot_size : Z;
  next_seq : Z;
  generation : Z;
  retained : Z;
}.

(** What the allocator answers: whether [calloc] of the structure succeeds, the block
    [malloc] returns for [data] (its bytes are whatever the allocator left there),
    whether [calloc] of the lengths succeeds, and [pthread_mutex_init]'s result. *)
Record ring_alloc := {
  struct_ok : bool;
  data_block : option (list Z);
  lens_ok : bool;
  mutex_init : Z;
}.

Definition sizeof_size_t : Z := 8.

Definition rtlsdr_ring_create (al : ring_alloc) (count size : Z) : option rtlsdr_ring :=
  if (count =? 0) || (size =? 0) || (SIZE_MAX / size <? count)
     || (SIZE_MAX / sizeof_size_t <? count)
  then None
  else if negb (struct_ok al) then None
  else match data_block al with
       | None => None
       | Some d =>
           if negb (lens_ok al) || negb (mutex_init al =? 0) then None
           else Some {| data := d;
                        slot_lens := replicate (Z.to_nat count) 0;
                        slot_count := count;
                        slot_size := size;
                        next_seq := 0;
                        generation := 1;
                        retained := 0 |}
       end.

(** The locked body of [rtlsdr_ring_write_copy]. *)
Definition ring_push (r : rtlsdr_ring) (src : list Z) (len : Z) : rtlsdr_ring :=
  let '(seq, gen, ret) :=
    if next_seq r =? UINT64_MAX then (0, u64 (generation r + 1), 0)
    else (next_seq r, generation r, retained r) in
  let slot := seq mod slot_count r in
  {| data := blit (data r) (slot * slot_size r) (take (Z.to_nat len) src);
     slot_lens := wr (slot_lens r) slot len;
     slot_count := slot_count r;
     slot_size := slot_size r;
     next_seq := u64 (seq + 1);
     generation := gen;
     retained := if ret <? slot_count r then u64 (ret + 1) else ret |}.

(** Pointers are options: [None] is [NULL]. *)
Definition rtlsdr_ring_write_copy (r : option rtlsdr_ring) (src : option (list Z)) (len : Z)
    : Z * option rtlsdr_ring :=
  match r with
  | None => (-1, None)
  | Some r' =>
      if (bool_decide (src = None) && negb (len =? 0)) || (slot_size r' <? len)
      then (-1, r)
      else if len =? 0 then (0, r)
      else (0, Some (ring_push r' (default [] src) len))
  end.

(** The cursor argument is written through its pointer. *)
Definition rtlsdr_ring_cursor_now (r : option rtlsdr_ring) (cursor : option rtlsdr_ring_cursor)
    : Z * option rtlsdr_ring_cursor :=
  match r, cursor with
  | Some r', Some _ =>
      (0, Some {| cur_next_seq := next_seq r'; cur_generation := generation r' |})
  | _, _ => (-1, cursor)
  end.

(** What [rtlsdr_ring_read_copy] leaves behind: its result, the cursor, the [capacity]
    bytes at [dst] and [*len]. *)
Record read_result := mk_read {
  rr_result : Z;
  rr_cursor : rtlsdr_ring_cursor;
  rr_dst : list Z;
  rr_len : Z;
}.

(** The locked body of [rtlsdr_ring_read_copy]. *)
Definition ring_pull (r : rtlsdr_ring) (cur : rtlsdr_ring_cursor) (dst : list Z) (capacity : Z)
    : read_result :=
  if negb (cur_generation cur =? generation r)
     || (cur_next_seq cur <? u64 (next_seq r - retained r))
  then mk_read RTL_RING_GAP cur dst 0
  else if cur_next_seq cur =? next_seq r
  then mk_read RTL_RING_EMPTY cur dst 0
  else if cur_next_seq cur <? next_seq r
  then
    let slot := cur_next_seq cur mod slot_count r in
    let n := rd (slot_lens r) slot in
    if n <=? capacity
    then mk_read RTL_RING_DATA
           {| cur_next_seq := u64 (cur_next_seq cur + 1);
              cur_generation := cur_generation cur |}
           (blit dst 0 (slice (data r) (slot * slot_size r) n)) n
    else mk_read RTL_RING_ERROR cur dst 0
  else mk_read RTL_RING_ERROR cur dst 0.

(** [None] for an argument that is [NULL]; the result is the code's return value with
    the final contents of the objects the arguments point to. *)
Definition rtlsdr_ring_read_copy (r : option rtlsdr_ring) (cursor : option rtlsdr_ring_cursor)
    (dst : option (list Z)) (capacity : Z) (len : option Z)
    : Z * option rtlsdr_ring_cursor * option (list Z) * option Z :=
  match r, cursor, dst, len with
  | Some r', Some cur, Some d, Some _ =>
      let res := ring_pull r' cur d capacity in
      (rr_result res, Some (rr_cursor res), Some (rr_dst res), Some (rr_len res))
  | _, _, _, _ => (RTL_RING_ERROR, cursor, dst, (fun _ => 0) <$> len)
  end.

Definition rtlsdr_ring_mark_gap (r : option rtlsdr_ring) : option rtlsdr_ring :=
  (fun r' => {| data := data r';
                slot_lens := slot_lens r';
                slot_count := slot_count r';
                slot_size := slot_size r';
                next_seq := next_seq r';
                generation := u64 (generation r' + 1);
                retained := 0 |}) <$> r.

(** ** Well-formedness *)

Record ring_wf (r : rtlsdr_ring) : Prop := {
  wf_count : 0 < slot_count r;
  wf_size : 0 < slot_size r;
  wf_total : slot_count r * slot_size r <= SIZE_MAX;
  wf_data : zlen (data r) = slot_count r * slot_size r;
  wf_lens : zlen (slot_lens r) = slot_count r;
  wf_len_le : forall s, 0 <= s < slot_count r -> 0 <= rd (slot_lens r) s <= slot_size r;
  wf_next : is_u 64 (next_seq r);
  wf_gen : is_u 64 (generation r);
  wf_ret : 0 <= retained r <= slot_count r;
  wf_ret_next : retained r <= next_seq r;
}.

(** The block a sequence number denotes while it is retained. *)
Definition ring_block (r : rtlsdr_ring) (seq : Z) : list Z :=
  let slot := seq mod slot_count r in
  slice (data r) (slot * slot_size r) (rd (slot_lens r) slot).

End Ring.

(** ** The contract *)

Module RingSpec.
Import Ring.

(** A log that keeps the newest blocks of one generation: [log_next] is the sequence
    number the next block gets, [log_blocks] the retained blocks, oldest first. *)
Record log := mk_log {
  log_cap : nat;
  log_gen : Z;
  log_next : Z;
  log_blocks : list (list Z);
}.

Definition log_oldest (l : log) : Z := log_next l - zlen (log_blocks l).

(** Keep the last [n] elements. *)
Definition keep_last {A} (n : nat) (l : list A) : list A := drop (length l - n) l.

Definition log_write (b : list Z) (l : log) : log :=
  if log_next l =? UINT64_MAX
  then mk_log (log_cap l) (u64 (log_gen l + 1)) 1 [b]
  else mk_log (log_cap l) (log_gen l) (log_next l + 1) (keep_last (log_cap l) (log_blocks l ++ [b])).

Definition log_mark_gap (l : log) : log :=
  mk_log (log_cap l) (u64 (log_gen l + 1)) (log_next l) [].

Inductive read_outcome := Gap | Empty | Data (b : list Z) | Error.

(** What a reader at [(gen, seq)] gets. *)
Definition log_read (l : log) (gen seq : Z) : read_outcome :=
  if negb (gen =? log_gen l) || (seq <? log_oldest l) then Gap
  else if seq =? log_next l then Empty
  else if seq <? log_next l then
    match log_blocks l !! Z.to_nat (seq - log_oldest l) with
    | Some b => Data b
    | None => Error
    end
  else Error.

(** The log a ring stands for. *)
Definition ring_log (r : rtlsdr_ring) : log :=
  mk_log (Z.to_nat (slot_count r)) (generation r) (next_seq r)
    (ring_block r <$> seqZ (next_seq r - retained r) (retained r)).

End RingSpec.

(** ** Operations keep the ring well formed *)

Module RingFacts.
Import Ring RingSpec.

Lemma mod_slot_range r seq : ring_wf r -> 0 <= seq mod slot_count r < slot_count r.
Proof. intros W. apply Z.mod_pos_bound, W. Qed.

Lemma wf_count_max r : ring_wf r -> slot_count r <= SIZE_MAX.
Proof. intros []. nia. Qed.

Lemma create_wf al count size r :
  (forall d, data_block al = Some d -> zlen d = count * size) ->
  0 <= count -> 0 <= size ->
  rtlsdr_ring_create al count size = Some r -> ring_wf r.
Proof.
  intros Hd Hc Hs. unfold rtlsdr_ring_create.
  destruct (_ || _) eqn:G; [done|]. destruct (struct_ok al); [|done]. simpl.
  destruct (data_block al) as [d|] eqn:Eb; [|done].
  destruct (negb (lens_ok al) || _); [done|]. intros [= <-].
  rewrite !orb_false_iff, !Z.eqb_neq, !Z.ltb_ge in G.
  destruct G as [[[??] G]?].
  assert (count * size <= SIZE_MAX).
  { etransitivity; [apply Z.mul_le_mono_nonneg_r; [lia|exact G]|].
    rewrite Z.mul_comm. apply Z.mul_div_le. lia. }
  split; simpl; try clia; auto.
  - unfold zlen. rewrite length_replicate. lia.
  - intros s Hr. unfold rd. destruct (Z.ltb_spec s 0); [lia|].
    rewrite lookup_replicate_2 by lia. simpl. lia.
Qed.

(** Sequence number, generation and retained count the push works with, after the
    counter reset. *)
Definition push_base (r : rtlsdr_ring) : Z * Z * Z :=
  if next_seq r =? UINT64_MAX then (0, u64 (generation r + 1), 0)
  else (next_seq r, generation r, retained r).

Lemma push_base_bounds r seq gen ret :
  ring_wf r -> push_base r = (seq, gen, ret) ->
  0 <= seq < UINT64_MAX /\ is_u 64 gen /\ 0 <= ret <= slot_count r /\ ret <= seq.
Proof.
  intros [] . unfold push_base. destruct (Z.eqb_spec (next_seq r) UINT64_MAX); intros [= <- <- <-].
  - split_and!; auto with cint; clia.
  - clia.
Qed.

Lemma push_wf r src len :
  ring_wf r -> 0 < len <= slot_size r -> len <= zlen src -> ring_wf (ring_push r src len).
Proof.
  intros W Hl Hs. unfold ring_push. fold (push_base r).
  destruct (push_base r) as [[seq gen] ret] eqn:E.
  destruct (push_base_bounds r seq gen ret W E) as (?&?&?&?).
  pose proof (mod_slot_range r seq W). pose proof (wf_count_max r W).
  destruct W. split; simpl; auto with cint; try clia.
  - by rewrite zlen_blit.
  - by rewrite zlen_wr.
  - intros s Hs'. destruct (decide (s = seq mod slot_count r)) as [->|].
    + rewrite rd_wr_eq by lia. lia.
    + rewrite rd_wr_ne by lia. auto.
  - destruct (Z.ltb_spec ret (slot_count r)); [|lia].
    unfold u64. rewrite Z.mod_small; clia.
  - rewrite (u64_id (seq + 1)) by clia. destruct (Z.ltb_spec ret (slot_count r)); [|lia].
    rewrite u64_id by clia. lia.
Qed.

Lemma mark_gap_wf r r' : ring_wf r -> rtlsdr_ring_mark_gap (Some r) = Some r' -> ring_wf r'.
Proof. intros [] [= <-]. split; simpl; auto with cint; clia. Qed.

(** ** The operations implement the log *)

Lemma drop_seqZ m n k : 0 <= k <= n -> drop (Z.to_nat k) (seqZ m n) = seqZ (m + k) (n - k).
Proof.
  intros. apply list_eq. intros i. rewrite lookup_drop.
  destruct (decide (Z.of_nat i < n - k)).
  - rewrite !lookup_seqZ_lt by lia. f_equal. lia.
  - rewrite !lookup_seqZ_ge by lia. done.
Qed.

Lemma seqZ_snoc m n : 0 <= n -> seqZ m (n + 1) = seqZ m n ++ [m + n].
Proof.
  intros. rewrite seqZ_app by lia. f_equal.
Qed.

(** Two sequence numbers less than a ring apart use different slots. *)
Lemma slot_ne count a b : 0 < count -> 0 < b - a < count -> a mod count <> b mod count.
Proof.
  intros Hc Hab E. assert (Hz : (b - a) mod count = 0).
  { rewrite Zminus_mod, E, Z.sub_diag. apply Z.mod_0_l. lia. }
  rewrite Z.mod_small in Hz; lia.
Qed.

Lemma slot_blocks_disjoint a b size : 0 < size -> a <> b -> a * size + size <= b * size \/ b * size + size <= a * size.
Proof. intros. destruct (decide (a < b)); [left|right]; nia. Qed.

(** Pushing leaves the retained blocks readable and stores the new one. *)
Lemma push_block_new r src len seq gen ret :
  ring_wf r -> push_base r = (seq, gen, ret) ->
  0 < len <= slot_size r -> len <= zlen src ->
  ring_block (ring_push r src len) seq = take (Z.to_nat len) src.
Proof.
  intros W E Hl Hs. unfold ring_push. fold (push_base r). rewrite E.
  pose proof (mod_slot_range r seq W) as Hm. destruct W. unfold ring_block. simpl.
  rewrite rd_wr_eq by lia.
  assert (Hlen : zlen (take (Z.to_nat len) src) = len)
    by (unfold zlen in *; rewrite length_take; lia).
  rewrite <- Hlen at 2. apply slice_blit_eq; [nia|]. rewrite Hlen, wf_data0. nia.
Qed.

Lemma push_block_old r src len seq gen ret s :
  ring_wf r -> push_base r = (seq, gen, ret) ->
  0 < len <= slot_size r -> len <= zlen src ->
  0 < seq - s < slot_count r ->
  ring_block (ring_push r src len) s = ring_block r s.
Proof.
  intros W E Hl Hs Hd. unfold ring_push. fold (push_base r). rewrite E.
  pose proof (mod_slot_range r seq W) as Hm. pose proof (mod_slot_range r s W) as Hm'.
  pose proof (slot_ne (slot_count r) s seq (wf_count _ W) Hd) as Hne.
  unfold ring_block; simpl. rewrite rd_wr_ne by lia.
  pose proof (wf_len_le _ W _ Hm') as Hrd. pose proof (wf_size _ W).
  apply slice_blit_ne; [nia|nia|lia|].
  assert (zlen (take (Z.to_nat len) src) = len) as ->
    by (unfold zlen in *; rewrite length_take; lia).
  destruct (slot_blocks_disjoint _ _ (slot_size r) (wf_size _ W) Hne); [left|right]; lia.
Qed.

Lemma push_fields r src len seq gen ret :
  ring_wf r -> push_base r = (seq, gen, ret) ->
  slot_count (ring_push r src len) = slot_count r /\
  generation (ring_push r src len) = gen /\
  next_seq (ring_push r src len) = seq + 1 /\
  retained (ring_push r src len) = Z.min (ret + 1) (slot_count r).
Proof.
  intros W E. destruct (push_base_bounds r seq gen ret W E) as (?&?&?&?).
  pose proof (wf_count_max r W).
  unfold ring_push. fold (push_base r). rewrite E. simpl.
  rewrite (u64_id (seq + 1)) by clia. split_and!; [done..|].
  destruct (Z.ltb_spec ret (slot_count r)); [rewrite u64_id by clia|]; lia.
Qed.

(** The blocks retained after a push. *)
Lemma push_blocks r src len seq gen ret :
  ring_wf r -> push_base r = (seq, gen, ret) ->
  0 < len <= slot_size r -> len <= zlen src ->
  ring_block (ring_push r src len)
    <$> seqZ (seq + 1 - Z.min (ret + 1) (slot_count r)) (Z.min (ret + 1) (slot_count r))
  = keep_last (Z.to_nat (slot_count r))
      ((ring_block r <$> seqZ (seq - ret) ret) ++ [take (Z.to_nat len) src]).
Proof.
  intros W E Hl Hs. destruct (push_base_bounds r seq gen ret W E) as (Hseq&Hgen&Hret&Hrs).
  pose proof (wf_count _ W). set (k := ret + 1 - Z.min (ret + 1) (slot_count r)).
  assert (Hk : 0 <= k <= 1 /\ k <= ret) by lia.
  unfold keep_last. rewrite length_app, length_fmap, length_seqZ. simpl.
  replace (Z.to_nat ret + 1 - Z.to_nat (slot_count r))%nat with (Z.to_nat k) by lia.
  rewrite drop_app_le by (rewrite length_fmap, length_seqZ; lia).
  rewrite <- fmap_drop, drop_seqZ by lia.
  replace (Z.min (ret + 1) (slot_count r)) with (ret - k + 1) by lia.
  rewrite seqZ_snoc by lia. rewrite fmap_app. simpl.
  replace (seq + 1 - (ret - k + 1)) with (seq - ret + k) by lia. f_equal.
  - apply list_fmap_ext. intros i x Hx. apply lookup_seqZ in Hx.
    eapply push_block_old; eauto. lia.
  - f_equal. replace (seq - ret + k + (ret - k)) with seq by lia.
    eapply push_block_new; eauto.
Qed.

Lemma push_log r src len :
  ring_wf r -> 0 < len <= slot_size r -> len <= zlen src ->
  ring_log (ring_push r src len) = log_write (take (Z.to_nat len) src) (ring_log r).
Proof.
  intros W Hl Hs. destruct (push_base r) as [[seq gen] ret] eqn:E.
  pose proof (wf_count _ W).
  destruct (push_fields r src len seq gen ret W E) as (Hc & Hg & Hn & Hr).
  unfold ring_log at 1. rewrite Hc, Hg, Hn, Hr.
  rewrite (push_blocks r src len seq gen ret) by done.
  unfold log_write, ring_log, push_base in *. simpl.
  destruct (next_seq r =? UINT64_MAX); injection E as <- <- <-; [|done].
  unfold keep_last. simpl. by replace (1 - Z.to_nat (slot_count r))%nat with 0%nat by lia.
Qed.

Lemma mark_gap_log r r' :
  rtlsdr_ring_mark_gap (Some r) = Some r' -> ring_log r' = log_mark_gap (ring_log r).
Proof. by intros [= <-]. Qed.

(** ** Reading *)

Lemma log_oldest_ring r : ring_wf r -> log_oldest (ring_log r) = next_seq r - retained r.
Proof.
  intros []. unfold log_oldest, ring_log, zlen. simpl. rewrite length_fmap, length_seqZ. lia.
Qed.

Lemma ring_block_length r s :
  ring_wf r -> zlen (ring_block r s) = rd (slot_lens r) (s mod slot_count r).
Proof.
  intros W. pose proof (mod_slot_range r s W) as Hm. pose proof (wf_len_le _ W _ Hm).
  destruct W. unfold ring_block, zlen. rewrite length_slice; nia.
Qed.

(** What [ring_pull] does, in terms of the log's answer. *)
Definition pull_of (o : read_outcome) (cur : rtlsdr_ring_cursor) (dst : list Z) (capacity : Z)
    : read_result :=
  match o with
  | Gap => mk_read RTL_RING_GAP cur dst 0
  | Empty => mk_read RTL_RING_EMPTY cur dst 0
  | Error => mk_read RTL_RING_ERROR cur dst 0
  | Data b =>
      if zlen b <=? capacity
      then mk_read RTL_RING_DATA
             (mk_cursor (cur_next_seq cur + 1) (cur_generation cur)) (blit dst 0 b) (zlen b)
      else mk_read RTL_RING_ERROR cur dst 0
  end.

Lemma pull_log r cur dst capacity :
  ring_wf r ->
  ring_pull r cur dst capacity
  = pull_of (log_read (ring_log r) (cur_generation cur) (cur_next_seq cur)) cur dst capacity.
Proof.
  intros W. unfold ring_pull, log_read. rewrite log_oldest_ring by done. simpl.
  pose proof (wf_next _ W). pose proof (wf_ret _ W). pose proof (wf_ret_next _ W).
  rewrite (u64_id (next_seq r - retained r)) by clia.
  destruct (_ || _) eqn:G; [done|].
  rewrite orb_false_iff, negb_false_iff, Z.eqb_eq, Z.ltb_ge in G. destruct G as [Hg Hs].
  destruct (Z.eqb_spec (cur_next_seq cur) (next_seq r)); [done|].
  destruct (Z.ltb_spec (cur_next_seq cur) (next_seq r)); [|done].
  rewrite list_lookup_fmap, lookup_seqZ_lt by lia. simpl.
  rewrite Z2Nat.id by lia.
  replace (next_seq r - retained r + (cur_next_seq cur - (next_seq r - retained r)))
    with (cur_next_seq cur) by lia.
  rewrite ring_block_length by done. rewrite u64_id by clia. done.
Qed.

(** ** Sequences of calls

    One reader that took its cursor with [rtlsdr_ring_cursor_now], and any sequence of
    calls by the producer and the reader, in the order in which they get the mutex. *)

Inductive ring_call :=
| CallWrite (src : list Z)
| CallMarkGap
| CallRead (capacity : Z).

Record session := mk_session {
  ses_ring : rtlsdr_ring;
  ses_cursor : rtlsdr_ring_cursor;
  ses_written : list (list Z);    (* blocks the producer stored since the cursor was taken *)
  ses_read : list (list Z);       (* blocks the reader got *)
  ses_results : list Z;           (* the reader's results, oldest first *)
}.

(** The reader's buffer has [capacity] bytes. *)
Definition session_step (s : session) (c : ring_call) : session :=
  match c with
  | CallWrite src =>
      match rtlsdr_ring_write_copy (Some (ses_ring s)) (Some src) (zlen src) with
      | (rc, Some r') =>
          mk_session r' (ses_cursor s)
            (ses_written s ++ (if (rc =? 0) && negb (zlen src =? 0) then [src] else []))
            (ses_read s) (ses_results s)
      | (_, None) => s
      end
  | CallMarkGap =>
      mk_session (default (ses_ring s) (rtlsdr_ring_mark_gap (Some (ses_ring s))))
        (ses_cursor s) (ses_written s) (ses_read s) (ses_results s)
  | CallRead capacity =>
      let res := ring_pull (ses_ring s) (ses_cursor s)
                   (replicate (Z.to_nat capacity) 0) capacity in
      mk_session (ses_ring s) (rr_cursor res) (ses_written s)
        (ses_read s ++ (if rr_result res =? RTL_RING_DATA
                        then [take (Z.to_nat (rr_len res)) (rr_dst res)] else []))
        (ses_results s ++ [rr_result res])
  end.

Definition session_start (r : rtlsdr_ring) : session :=
  mk_session r (mk_cursor (next_seq r) (generation r)) [] [] [].

Definition session_run (r : rtlsdr_ring) (cs : list ring_call) : session :=
  fold_left session_step cs (session_start r).

(** The invariant of a session started at [r0] after [n] calls.  [k] counts the
    changes of generation: while it is 0 the cursor and the log are in step with what
    was written and read; once it is not, every read is a gap. *)
Record session_inv (r0 : rtlsdr_ring) (n : Z) (k : Z) (s : session) : Prop := {
  si_wf : ring_wf (ses_ring s);
  si_k : 0 <= k <= n;
  si_gen : generation (ses_ring s) = u64 (generation r0 + k);
  si_cgen : cur_generation (ses_cursor s) = generation r0;
  si_prefix : ses_read s `prefix_of` ses_written s;
  si_next : k = 0 -> next_seq (ses_ring s) = next_seq r0 + zlen (ses_written s);
  si_cur : k = 0 -> cur_next_seq (ses_cursor s) = next_seq r0 + zlen (ses_read s);
  si_blocks : k = 0 -> forall i, (i < length (ses_written s))%nat ->
    log_oldest (ring_log (ses_ring s)) <= next_seq r0 + Z.of_nat i ->
    log_blocks (ring_log (ses_ring s))
      !! Z.to_nat (next_seq r0 + Z.of_nat i - log_oldest (ring_log (ses_ring s)))
    = ses_written s !! i;
}.

(** A session whose next read is a gap. *)
Definition gapped (k : Z) (s : session) : Prop :=
  0 < k \/ cur_next_seq (ses_cursor s) < log_oldest (ring_log (ses_ring s)).

Lemma lookup_keep_last {A} n (l : list A) i :
  keep_last n l !! i = l !! (length l - n + i)%nat.
Proof. apply lookup_drop. Qed.

Lemma length_keep_last {A} n (l : list A) : length (keep_last n l) = (length l `min` n)%nat.
Proof. unfold keep_last. rewrite length_drop. lia. Qed.

Lemma session_inv_start r : ring_wf r -> session_inv r 0 0 (session_start r).
Proof.
  intros W. split; simpl; auto; try lia.
  - rewrite Z.add_0_r. symmetry. apply u64_id, W.
  - unfold zlen. simpl. lia.
  - unfold zlen. simpl. lia.
Qed.

Lemma gen_bump g k : u64 (u64 (g + k) + 1) = u64 (g + (k + 1)).
Proof. unfold u64. rewrite Zplus_mod_idemp_l. f_equal. lia. Qed.

Lemma write_copy_cases r src :
  ring_wf r ->
  (rtlsdr_ring_write_copy (Some r) (Some src) (zlen src) = (-1, Some r)
     /\ slot_size r < zlen src) \/
  (rtlsdr_ring_write_copy (Some r) (Some src) (zlen src) = (0, Some r) /\ src = []) \/
  (exists r', rtlsdr_ring_write_copy (Some r) (Some src) (zlen src) = (0, Some r') /\
     0 < zlen src <= slot_size r /\ ring_wf r' /\
     ring_log r' = log_write src (ring_log r)).
Proof.
  intros W. unfold rtlsdr_ring_write_copy. rewrite bool_decide_false by done. simpl.
  destruct (Z.ltb_spec (slot_size r) (zlen src)); [by left|right].
  destruct (Z.eqb_spec (zlen src) 0) as [E|E].
  - left. split; [done|]. apply nil_length_inv. unfold zlen in E. lia.
  - right. eexists. split; [done|].
    assert (0 < zlen src) by (unfold zlen in *; lia).
    split_and!; [lia..|apply push_wf; auto; lia|].
    rewrite push_log by (auto; lia). f_equal. apply take_ge. unfold zlen. lia.
Qed.

(** A write: either nothing is stored, or the log takes the block. *)
Lemma session_inv_write r0 n k s src :
  session_inv r0 n k s -> n + 1 < 2 ^ 64 ->
  exists k', (gapped k s -> gapped k' (session_step s (CallWrite src)))
    /\ (next_seq (ses_ring s) <> UINT64_MAX -> k' = k)
    /\ session_inv r0 (n + 1) k' (session_step s (CallWrite src)).
Proof.
  intros I Hn. pose proof (si_k _ _ _ _ I) as Hk. unfold session_step.
  destruct (write_copy_cases (ses_ring s) src (si_wf _ _ _ _ I))
    as [[E _]|[[E ->]|(r'&E&Hl&W'&Hlog)]]; rewrite E; simpl.
  1,2: exists k; split; [done|]; split; [done|]; rewrite app_nil_r; destruct I; split; simpl; auto; lia.
  destruct (Z.eqb_spec (zlen src) 0); [lia|]. simpl.
  unfold log_write in Hlog. cbn [log_next ring_log] in Hlog.
  destruct (next_seq (ses_ring s) =? UINT64_MAX) eqn:Ew.
  - pose proof (f_equal log_gen Hlog) as Hg. simpl in Hg.
    exists (k + 1). split; [left; lia|]. split; [lia|]. destruct I. split; simpl; auto; try lia.
    + rewrite Hg, si_gen0. apply gen_bump.
    + by apply prefix_app_r.
  - exists k.
    pose proof (f_equal log_gen Hlog) as Hg. pose proof (f_equal log_next Hlog) as Hx.
    pose proof (f_equal log_blocks Hlog) as Hbl.
    cbn [log_next log_gen log_cap] in Hg, Hx, Hbl. simpl in Hg, Hx.
    change (log_blocks (mk_log _ _ _ ?l)) with l in Hbl.
    assert (Hold : log_oldest (ring_log r')
      = log_oldest (ring_log (ses_ring s)) + 1
        + Z.of_nat (length (log_blocks (ring_log (ses_ring s))))
        - Z.of_nat (length (log_blocks (ring_log r')))).
    { unfold log_oldest, zlen. cbn [log_next ring_log]. lia. }
    assert (Hz : log_oldest (ring_log (ses_ring s))
      = next_seq (ses_ring s) - Z.of_nat (length (log_blocks (ring_log (ses_ring s)))))
      by done.
    set (bl := log_blocks (ring_log (ses_ring s))) in *.
    rewrite Hbl in Hold. rewrite length_keep_last, length_app in Hold. simpl in Hold.
    split.
    { intros [?|Hc]; [by left|right]. cbn [ses_ring ses_cursor]. lia. }
    split; [done|].
    destruct I. split; cbn [ses_ring ses_cursor ses_written ses_read ses_results]; auto; try lia.
    + by apply prefix_app_r.
    + intros Hk0. rewrite Hx, si_next0 by done. unfold zlen. rewrite length_app. simpl. lia.
    + intros Hk0 i Hi Hge. rewrite Hbl, lookup_keep_last, length_app. simpl.
      specialize (si_next0 Hk0). rewrite length_app in Hi. simpl in Hi.
      pose proof (wf_count _ si_wf0). unfold zlen in si_next0.
      destruct (decide (i = length (ses_written s))) as [->|Hne].
      * rewrite !list_lookup_middle; [done|lia|]. lia.
      * rewrite (lookup_app_l (ses_written s)) by lia.
        rewrite <- (si_blocks0 Hk0 i) by lia.
        rewrite lookup_app_l by lia. f_equal. lia.
Qed.

Lemma session_inv_gap r0 n k s :
  session_inv r0 n k s -> session_inv r0 (n + 1) (k + 1) (session_step s CallMarkGap).
Proof.
  intros []. simpl. split; simpl; auto; try lia.
  - eapply mark_gap_wf; [exact si_wf0|done].
  - rewrite si_gen0. apply gen_bump.
Qed.

(** With a changed generation a read is a gap. *)
Lemma session_gap r0 n k s capacity :
  session_inv r0 n k s -> is_u 64 (generation r0) -> n < 2 ^ 64 -> 0 < k ->
  session_step s (CallRead capacity)
  = mk_session (ses_ring s) (ses_cursor s) (ses_written s) (ses_read s)
      (ses_results s ++ [RTL_RING_GAP]).
Proof.
  intros [] Hg Hn Hk. simpl. unfold ring_pull.
  replace (cur_generation (ses_cursor s) =? generation (ses_ring s)) with false.
  - simpl. by rewrite app_nil_r.
  - symmetry. apply Z.eqb_neq. rewrite si_cgen0, si_gen0. cdlia.
Qed.

Lemma take_blit_full n b :
  zlen b <= n -> take (Z.to_nat (zlen b)) (blit (replicate (Z.to_nat n) 0) 0 b) = b.
Proof.
  intros. replace (take _ _) with (slice (blit (replicate (Z.to_nat n) 0) 0 b) 0 (zlen b)) by done.
  apply slice_blit_eq; [lia|]. unfold zlen in *. rewrite length_replicate. lia.
Qed.

Lemma session_inv_read r0 n k s capacity :
  session_inv r0 n k s -> is_u 64 (generation r0) -> n + 1 < 2 ^ 64 ->
  session_inv r0 (n + 1) k (session_step s (CallRead capacity)).
Proof.
  intros I Hg Hn. destruct (decide (0 < k)) as [Hk|Hk].
  { rewrite (session_gap r0 n k) by (auto; lia). destruct I. split; simpl; auto; lia. }
  assert (k = 0) as -> by (pose proof (si_k _ _ _ _ I); lia). clear Hk.
  unfold session_step. rewrite pull_log by apply I. unfold log_read.
  cbn [log_next log_gen ring_log].
  assert (Hstay : forall res, session_inv r0 (n + 1) 0
    (mk_session (ses_ring s) (ses_cursor s) (ses_written s) (ses_read s ++ []) res)).
  { intros res. rewrite app_nil_r. destruct I. split; simpl; auto; lia. }
  destruct (_ || _) eqn:G; [apply Hstay|].
  destruct (cur_next_seq (ses_cursor s) =? next_seq (ses_ring s)) eqn:G1; [apply Hstay|].
  destruct (cur_next_seq (ses_cursor s) <? next_seq (ses_ring s)) eqn:G2; [|apply Hstay].
  rewrite orb_false_iff, Z.ltb_ge in G. apply Z.ltb_lt in G2.
  pose proof (si_blocks _ _ _ _ I eq_refl (length (ses_read s))) as Hb.
  pose proof (si_next _ _ _ _ I eq_refl) as Hx. pose proof (si_cur _ _ _ _ I eq_refl) as Hc.
  unfold zlen in Hx, Hc. rewrite <- Hc in Hb. rewrite Hb by lia.
  destruct (lookup_lt_is_Some_2 (ses_written s) (length (ses_read s))) as [b Eb]; [lia|].
  rewrite Eb. unfold pull_of. destruct (Z.leb_spec (zlen b) capacity); [|apply Hstay].
  cbn [rr_result rr_cursor rr_dst rr_len Z.eqb RTL_RING_DATA]. rewrite take_blit_full by done.
  destruct I. split; cbn [ses_ring ses_cursor ses_written ses_read ses_results]; auto; try lia.
  - destruct si_prefix0 as [l El]. rewrite El in Eb.
    rewrite lookup_app_r, Nat.sub_diag in Eb by lia. destruct l as [|b' l]; [done|].
    injection Eb as ->. exists l. rewrite El. by rewrite <- app_assoc.
  - intros _. unfold zlen. rewrite length_app. simpl. lia.
Qed.


Lemma gapped_read r0 n k s capacity :
  session_inv r0 n k s -> is_u 64 (generation r0) -> n < 2 ^ 64 -> gapped k s ->
  session_step s (CallRead capacity)
  = mk_session (ses_ring s) (ses_cursor s) (ses_written s) (ses_read s)
      (ses_results s ++ [RTL_RING_GAP]).
Proof.
  intros I Hg Hn [Hk|Hc]; [by eapply session_gap|].
  unfold session_step. rewrite pull_log by apply I. unfold log_read.
  apply Z.ltb_lt in Hc. rewrite Hc, orb_true_r. simpl. by rewrite app_nil_r.
Qed.

Lemma gap_gapped r0 n k s capacity :
  session_inv r0 n k s -> is_u 64 (generation r0) ->
  rr_result (ring_pull (ses_ring s) (ses_cursor s) (replicate (Z.to_nat capacity) 0) capacity)
    = RTL_RING_GAP ->
  gapped k s.
Proof.
  intros I Hg. rewrite pull_log by apply I. unfold log_read, gapped.
  destruct (_ || _) eqn:G.
  - intros _. apply orb_true_iff in G as [G|G]; [left|right; lia].
    apply negb_true_iff, Z.eqb_neq in G. destruct I. simpl in G.
    destruct (decide (k = 0)) as [->|]; [|lia].
    rewrite si_gen0, si_cgen0, Z.add_0_r, u64_id in G; done.
  - repeat case_match; simpl; try case_match; done.
Qed.

Lemma session_inv_step r0 n k s c :
  session_inv r0 n k s -> is_u 64 (generation r0) -> n + 1 < 2 ^ 64 ->
  exists k', (gapped k s -> gapped k' (session_step s c)) /\
             session_inv r0 (n + 1) k' (session_step s c).
Proof.
  intros I Hg Hn. destruct c.
  - destruct (session_inv_write r0 n k s src I Hn) as (k'&?&_&?). by exists k'.
  - exists (k + 1). split; [|by apply session_inv_gap]. left. pose proof (si_k _ _ _ _ I). lia.
  - exists k. split; [|by apply session_inv_read].
    intros Hgap. by rewrite (gapped_read r0 n k) by (auto; lia).
Qed.

(** Once a read returned a gap the session stays gapped, and so does every later read. *)
Definition sticky (k : Z) (s : session) : Prop :=
  (RTL_RING_GAP ∈ ses_results s -> gapped k s) /\
  forall l l', ses_results s = l ++ RTL_RING_GAP :: l' -> Forall (eq RTL_RING_GAP) l'.

Lemma sticky_step r0 n k s c :
  session_inv r0 n k s -> is_u 64 (generation r0) -> n + 1 < 2 ^ 64 -> sticky k s ->
  exists k', sticky k' (session_step s c) /\ session_inv r0 (n + 1) k' (session_step s c).
Proof.
  intros I Hg Hn [Hs1 Hs2]. destruct (session_inv_step r0 n k s c I Hg Hn) as (k'&Hgap&I').
  exists k'. split; [|done].
  destruct c as [src| |capacity].
  - assert (Hr : ses_results (session_step s (CallWrite src)) = ses_results s)
      by (unfold session_step; destruct (rtlsdr_ring_write_copy _ _ _) as [? [?|]]; done).
    split; rewrite Hr; auto.
  - split; auto.
  - simpl in Hgap |- *. set (res := rr_result _) in *.
    assert (Hnew : res = RTL_RING_GAP -> gapped k s) by (eapply gap_gapped; eauto).
    split; cbn [ses_results].
    + rewrite elem_of_app, list_elem_of_singleton. intros [?|<-]; auto.
    + intros l l' E. destruct l' as [|x l'] using rev_ind; [done|].
      clear IHl'. rewrite app_comm_cons, app_assoc in E. apply app_inj_tail in E as [E <-].
      apply Forall_app. split; [by eapply Hs2|]. constructor; [|done].
      assert (Hgp : gapped k s) by (apply Hs1; rewrite E, elem_of_app, elem_of_cons; auto).
      pose proof (gapped_read r0 n k s capacity I Hg ltac:(lia) Hgp) as Hr.
      apply (f_equal ses_results) in Hr. simpl in Hr. fold res in Hr.
      by apply app_inj_tail in Hr as [_ ->].
Qed.

Lemma session_inv_run r0 cs n k s :
  is_u 64 (generation r0) -> session_inv r0 n k s -> sticky k s -> n + zlen cs < 2 ^ 64 ->
  exists k', sticky k' (fold_left session_step cs s) /\
             session_inv r0 (n + zlen cs) k' (fold_left session_step cs s).
Proof.
  intros Hg. revert n k s.
  induction cs as [|c cs IH]; intros n k s I St Hn; unfold zlen in *; simpl in *.
  { exists k. by rewrite Z.add_0_r. }
  destruct (sticky_step r0 n k s c) as (k'&St'&I'); auto; [lia|].
  destruct (IH _ _ _ I' St') as (k''&?&I''); [lia|]. exists k''. split; [done|].
  by replace (n + Z.of_nat (S (length cs))) with (n + 1 + Z.of_nat (length cs)) by lia.
Qed.

Lemma session_inv_of_start r cs :
  ring_wf r -> zlen cs < 2 ^ 64 ->
  exists k, sticky k (session_run r cs) /\ session_inv r (zlen cs) k (session_run r cs).
Proof.
  intros W Hn. unfold session_run.
  destruct (session_inv_run r cs 0 0 (session_start r)) as (k&?&?); auto.
  - apply W.
  - by apply session_inv_start.
  - split; [inversion 1|]. intros [] ? [=].
  - by exists k.
Qed.

(** ** Writing a burst and reading it back *)

Lemma session_write_ok r0 n s src :
  session_inv r0 n 0 s -> n + 1 < 2 ^ 64 ->
  0 < zlen src <= slot_size (ses_ring s) -> next_seq (ses_ring s) < UINT64_MAX ->
  let s' := session_step s (CallWrite src) in
  session_inv r0 (n + 1) 0 s' /\
  ses_cursor s' = ses_cursor s /\ ses_read s' = ses_read s /\ ses_results s' = ses_results s /\
  ses_written s' = ses_written s ++ [src] /\
  next_seq (ses_ring s') = next_seq (ses_ring s) + 1 /\
  slot_size (ses_ring s') = slot_size (ses_ring s) /\
  slot_count (ses_ring s') = slot_count (ses_ring s) /\
  retained (ses_ring s') = Z.min (retained (ses_ring s) + 1) (slot_count (ses_ring s)).
Proof.
  intros I Hn Hl Hw s'. destruct (session_inv_write r0 n 0 s src I Hn) as (k'&_&Hk&I').
  rewrite Hk in I' by lia. split; [done|]. subst s'. pose proof (si_wf _ _ _ _ I) as W.
  unfold session_step, rtlsdr_ring_write_copy. rewrite bool_decide_false by done. simpl.
  destruct (Z.ltb_spec (slot_size (ses_ring s)) (zlen src)); [lia|].
  destruct (Z.eqb_spec (zlen src) 0); [lia|].
  assert (E : push_base (ses_ring s)
    = (next_seq (ses_ring s), generation (ses_ring s), retained (ses_ring s))).
  { unfold push_base. by destruct (Z.eqb_spec (next_seq (ses_ring s)) UINT64_MAX); [lia|]. }
  destruct (push_fields (ses_ring s) src (zlen src) _ _ _ W E) as (?&?&?&?).
  simpl. split_and!; auto. unfold ring_push. by repeat case_match.
Qed.

Lemma session_writes r0 n bs s :
  session_inv r0 n 0 s -> n + zlen bs < 2 ^ 64 ->
  Forall (fun b => 0 < zlen b <= slot_size (ses_ring s)) bs ->
  next_seq (ses_ring s) + zlen bs <= UINT64_MAX ->
  let s' := fold_left session_step (CallWrite <$> bs) s in
  session_inv r0 (n + zlen bs) 0 s' /\
  ses_cursor s' = ses_cursor s /\ ses_read s' = ses_read s /\ ses_results s' = ses_results s /\
  ses_written s' = ses_written s ++ bs /\
  slot_size (ses_ring s') = slot_size (ses_ring s) /\
  slot_count (ses_ring s') = slot_count (ses_ring s) /\
  Z.min (retained (ses_ring s) + zlen bs) (slot_count (ses_ring s)) <= retained (ses_ring s').
Proof.
  unfold zlen. revert n s. induction bs as [|b bs IH]; intros n s I Hn Hf Hw; simpl in *.
  { rewrite Z.add_0_r, app_nil_r. split_and!; auto. lia. }
  apply Forall_cons_1 in Hf as [Hb Hf].
  destruct (session_write_ok r0 n s b) as (I'&E1&E2&E3&E4&E5&E6&E7&E8); auto; [lia..|].
  set (s1 := session_step s (CallWrite b)) in *. change (fold_left _ _ _) with
    (fold_left session_step (CallWrite <$> bs) s1).
  destruct (IH (n + 1) s1) as (I2&F1&F2&F3&F4&F5&F6&F7); auto; [lia|by rewrite E6|lia|].
  replace (n + Z.of_nat (S (length bs))) with (n + 1 + Z.of_nat (length bs)) by lia.
  rewrite F1, F2, F3, F4, F5, F6. split_and!; auto; [by rewrite E4, <- app_assoc|]. lia.
Qed.

(** What the log answers a reader that is not behind. *)
Lemma session_log_read r0 n s :
  session_inv r0 n 0 s -> is_u 64 (generation r0) ->
  log_oldest (ring_log (ses_ring s)) <= cur_next_seq (ses_cursor s) ->
  log_read (ring_log (ses_ring s)) (cur_generation (ses_cursor s)) (cur_next_seq (ses_cursor s))
  = match ses_written s !! length (ses_read s) with Some b => Data b | None => Empty end.
Proof.
  intros I Hg Ho. unfold log_read. cbn [log_next log_gen ring_log].
  destruct I. specialize (si_next0 eq_refl). specialize (si_cur0 eq_refl).
  rewrite si_gen0, si_cgen0, Z.add_0_r, (u64_id _ Hg), Z.eqb_refl. simpl negb.
  unfold zlen in si_next0, si_cur0.
  replace (cur_next_seq (ses_cursor s) <? _) with false by (symmetry; apply Z.ltb_ge; lia).
  simpl orb. cbv iota. destruct (ses_written s !! length (ses_read s)) as [b|] eqn:Hb.
  - pose proof (lookup_lt_Some _ _ _ Hb) as Hlt.
    replace (cur_next_seq (ses_cursor s) =? _) with false by (symmetry; apply Z.eqb_neq; lia).
    replace (cur_next_seq (ses_cursor s) <? _) with true by (symmetry; apply Z.ltb_lt; lia).
    specialize (si_blocks0 eq_refl _ Hlt). rewrite <- si_cur0 in si_blocks0.
    by rewrite si_blocks0, Hb by lia.
  - apply lookup_ge_None in Hb. apply prefix_length in si_prefix0.
    replace (cur_next_seq (ses_cursor s) =? _) with true by (symmetry; apply Z.eqb_eq; lia). done.
Qed.

(** A reader that is not behind gets the next block it has not read. *)
Lemma session_read_ok r0 n s b capacity :
  session_inv r0 n 0 s ->
  ses_written s !! length (ses_read s) = Some b ->
  log_oldest (ring_log (ses_ring s)) <= cur_next_seq (ses_cursor s) ->
  is_u 64 (generation r0) -> zlen b <= capacity ->
  let s' := session_step s (CallRead capacity) in
  ses_ring s' = ses_ring s /\ ses_written s' = ses_written s /\
  ses_read s' = ses_read s ++ [b] /\ ses_results s' = ses_results s ++ [RTL_RING_DATA] /\
  cur_next_seq (ses_cursor s') = cur_next_seq (ses_cursor s) + 1.
Proof.
  intros I Hb Ho Hg Hcap s'. subst s'. unfold session_step. rewrite pull_log by apply I.
  rewrite (session_log_read r0 n s I Hg Ho), Hb. unfold pull_of.
  rewrite (proj2 (Z.leb_le _ _) Hcap). simpl.
  rewrite take_blit_full by done. done.
Qed.

Lemma session_reads r0 n m s capacity :
  session_inv r0 n 0 s -> n + Z.of_nat m < 2 ^ 64 -> is_u 64 (generation r0) ->
  log_oldest (ring_log (ses_ring s)) <= cur_next_seq (ses_cursor s) ->
  (length (ses_read s) + m <= length (ses_written s))%nat ->
  Forall (fun b => zlen b <= capacity) (ses_written s) ->
  let s' := fold_left session_step (replicate m (CallRead capacity)) s in
  ses_read s' = take (length (ses_read s) + m) (ses_written s) /\
  ses_results s' = ses_results s ++ replicate m RTL_RING_DATA.
Proof.
  revert n s. induction m as [|m IH]; intros n s I Hn Hg Ho Hm Hf; cbn [replicate fold_left].
  { rewrite app_nil_r. split; [|done]. rewrite Nat.add_0_r.
    destruct I. destruct si_prefix0 as [l ->]. by rewrite take_app_length. }
  destruct (lookup_lt_is_Some_2 (ses_written s) (length (ses_read s))) as [b Eb]; [lia|].
  destruct (session_read_ok r0 n s b capacity) as (E1&E2&E3&E4&E5); auto.
  { eapply (Forall_lookup_1 _ _ _ _ Hf), Eb. }
  pose proof (session_inv_read r0 n 0 s capacity I Hg ltac:(lia)) as I'.
  set (s1 := session_step s (CallRead capacity)) in *.
  destruct (IH (n + 1) s1) as [F1 F2]; auto.
  - lia.
  - rewrite E1. lia.
  - rewrite E2, E3, length_app. simpl. lia.
  - rewrite F1, F2, E2, E3, E4, length_app, <- app_assoc. simpl. split; [|done]. f_equal. lia.
Qed.
End RingFacts.

(** ** Properties *)

Module RingProps.
Import Ring RingSpec RingFacts.

(** [rtlsdr_ring_write_copy] on every branch: a block larger than a slot is refused
    and an empty one ignored, both without touching the ring; any other block is stored,
    the ring stays well formed, and the log it stands for is the old one with the block
    appended and the oldest block dropped when all slots were in use (or, at the end of
    the 64-bit sequence space, a fresh generation that starts with the block). *)
Theorem ring_write_refines r src len :
  ring_wf r -> 0 <= len <= zlen src ->
  exists rc r', rtlsdr_ring_write_copy (Some r) (Some src) len = (rc, Some r') /\
    ring_wf r' /\
    (slot_size r < len -> rc = -1 /\ r' = r) /\
    (len = 0 -> rc = 0 /\ r' = r) /\
    (0 < len <= slot_size r ->
       rc = 0 /\ ring_log r' = log_write (take (Z.to_nat len) src) (ring_log r)).
Proof.
  intros W Hl. pose proof (wf_size _ W).
  unfold rtlsdr_ring_write_copy. rewrite bool_decide_false by done. simpl.
  destruct (Z.ltb_spec (slot_size r) len); [exists (-1), r; split_and!; auto; lia|].
  destruct (Z.eqb_spec len 0); [exists 0, r; split_and!; auto; lia|].
  eexists _, _. split; [done|]. split_and!; try lia.
  - apply push_wf; auto; lia.
  - intros. split; [done|]. apply push_log; auto; lia.
Qed.

(** A ring of two slots of three bytes that has taken three blocks. *)
Definition demo_ring : rtlsdr_ring :=
  mk_ring [7; 8; 0; 4; 5; 6] [2; 3] 2 3 3 1 2.

Lemma demo_ring_wf : ring_wf demo_ring.
Proof.
  split; try (vm_compute; split; congruence); try (vm_compute; congruence).
  intros s Hs. assert (s = 0 \/ s = 1) as [-> | ->] by (simpl in Hs; lia); vm_compute; split; congruence.
Defined.

Lemma ring_write_refines_witness :
  exists rc r', rtlsdr_ring_write_copy (Some demo_ring) (Some [9]) 1 = (rc, Some r') /\
    rc = 0 /\ log_blocks (ring_log r') = [[7; 8]; [9]].
Proof.
  destruct (ring_write_refines demo_ring [9] 1 demo_ring_wf) as (rc&r'&E&_&_&_&H);
    [vm_compute; split; congruence|].
  destruct H as [-> Hlog]; [vm_compute; split; congruence|].
  exists 0, r'. split; [done|]. split; [done|]. rewrite Hlog. reflexivity.
Defined.

(** C23.  [rtlsdr_ring_read_copy] answers what the log answers: [GAP] for a cursor of
    another generation or older than the oldest retained block, [EMPTY] at the end,
    [DATA] with exactly the bytes of the block at the cursor (the cursor then moves on by
    one) when it fits the caller's buffer, and [ERROR], with cursor and buffer unchanged
    and a length of 0, when it does not or the cursor is ahead of the producer. *)
Theorem ring_read_refines r cur dst capacity len0 :
  ring_wf r -> zlen dst = capacity ->
  rtlsdr_ring_read_copy (Some r) (Some cur) (Some dst) capacity (Some len0)
  = match log_read (ring_log r) (cur_generation cur) (cur_next_seq cur) with
    | Gap => (RTL_RING_GAP, Some cur, Some dst, Some 0)
    | Empty => (RTL_RING_EMPTY, Some cur, Some dst, Some 0)
    | Error => (RTL_RING_ERROR, Some cur, Some dst, Some 0)
    | Data b =>
        if zlen b <=? capacity
        then (RTL_RING_DATA, Some (mk_cursor (cur_next_seq cur + 1) (cur_generation cur)),
              Some (b ++ drop (length b) dst), Some (zlen b))
        else (RTL_RING_ERROR, Some cur, Some dst, Some 0)
    end.
Proof.
  intros W Hd. unfold rtlsdr_ring_read_copy. rewrite pull_log by done.
  destruct (log_read _ _ _) as [| |b|]; simpl; try done.
  destruct (Z.leb_spec (zlen b) capacity); simpl; [|done].
  by rewrite blit_0 by lia.
Qed.

Lemma ring_read_refines_witness :
  rtlsdr_ring_read_copy (Some demo_ring) (Some (mk_cursor 1 1)) (Some [0; 0; 0; 0]) 4 (Some 99)
  = (RTL_RING_DATA, Some (mk_cursor 2 1), Some [4; 5; 6; 0], Some 3).
Proof.
  rewrite (ring_read_refines demo_ring (mk_cursor 1 1) [0; 0; 0; 0] 4 99 demo_ring_wf eq_refl).
  reflexivity.
Defined.

(** C2.  Whatever the interleaving of the producer's and a reader's calls (fewer than
    2^64 of them, so that the generation counter cannot come round): the ring stays well
    formed, and the blocks the reader got since it took its cursor are, in order and
    byte for byte, a prefix of the blocks stored since then.  A reader never sees a torn,
    reordered, duplicated or skipped block. *)
Theorem ring_session_prefix r cs :
  ring_wf r -> zlen cs < 2 ^ 64 ->
  ring_wf (ses_ring (session_run r cs)) /\
  ses_read (session_run r cs) `prefix_of` ses_written (session_run r cs).
Proof.
  intros W Hn. destruct (session_inv_of_start r cs W Hn) as (k&_&[]). done.
Qed.

Lemma ring_session_prefix_witness :
  let cs := [CallWrite [1]; CallRead 3; CallWrite [2; 2]; CallWrite [3]; CallRead 3] in
  ses_read (session_run demo_ring cs) = [[1]; [2; 2]] /\
  ses_read (session_run demo_ring cs) `prefix_of` ses_written (session_run demo_ring cs).
Proof.
  intros cs. split; [reflexivity|]. apply (ring_session_prefix demo_ring cs demo_ring_wf).
  reflexivity.
Defined.

(** A gap is final: in any interleaving of fewer than 2^64 calls, once a read of a
    cursor returned [GAP] every later read of that cursor returns [GAP], so data from
    before and after an overrun or a retune are never mixed. *)
Theorem ring_gap_sticky r cs before after :
  ring_wf r -> zlen cs < 2 ^ 64 ->
  ses_results (session_run r cs) = before ++ RTL_RING_GAP :: after ->
  Forall (eq RTL_RING_GAP) after.
Proof.
  intros W Hn E. destruct (session_inv_of_start r cs W Hn) as (k&[_ St]&_). by eapply St.
Qed.

Lemma ring_gap_sticky_witness :
  Forall (eq RTL_RING_GAP) [RTL_RING_GAP; RTL_RING_GAP].
Proof.
  apply (ring_gap_sticky demo_ring
           [CallWrite [1]; CallRead 3; CallMarkGap; CallRead 3; CallWrite [2]; CallRead 3; CallRead 3]
           [RTL_RING_DATA] [RTL_RING_GAP; RTL_RING_GAP] demo_ring_wf eq_refl).
  reflexivity.
Defined.

(** No loss within the ring's depth: if after taking its cursor a reader waits while
    the producer stores at most [slot_count] non-empty blocks of at most [slot_size]
    bytes, then reading once per block with a buffer of [slot_size] bytes returns [DATA]
    each time and yields exactly those blocks in order. *)
Theorem ring_write_read_roundtrip r bs :
  ring_wf r ->
  Forall (fun b => 0 < zlen b <= slot_size r) bs ->
  zlen bs <= slot_count r -> zlen bs < 2 ^ 63 -> next_seq r + zlen bs <= UINT64_MAX ->
  let s := session_run r ((CallWrite <$> bs) ++ replicate (length bs) (CallRead (slot_size r))) in
  ses_read s = bs /\ ses_results s = replicate (length bs) RTL_RING_DATA.
Proof.
  intros W Hf Hc Hn Hx s. subst s. unfold session_run. rewrite fold_left_app.
  destruct (session_writes r 0 bs (session_start r)) as (I&E1&E2&E3&E4&E5&E6&E7); auto.
  { by apply session_inv_start. } { lia. }
  set (s1 := fold_left session_step (CallWrite <$> bs) (session_start r)) in *.
  destruct (session_reads r (zlen bs) (length bs) s1 (slot_size r)) as [F1 F2]; auto.
  - unfold zlen in *. lia.
  - apply W.
  - rewrite E1, log_oldest_ring by apply I. simpl. rewrite (si_next _ _ _ _ I eq_refl), E4.
    simpl. simpl in E7. pose proof (wf_ret _ W). lia.
  - rewrite E2, E4. simpl. lia.
  - rewrite E4. simpl. eapply Forall_impl; [|exact Hf]. simpl. lia.
  - rewrite F1, F2, E2, E3, E4. simpl. split; [|done]. by rewrite firstn_all.
Qed.

Lemma ring_write_read_roundtrip_witness :
  ses_read (session_run demo_ring [CallWrite [1]; CallWrite [2; 3]; CallRead 3; CallRead 3])
  = [[1]; [2; 3]].
Proof.
  apply (ring_write_read_roundtrip demo_ring [[1]; [2; 3]] demo_ring_wf);
    [repeat constructor; vm_compute; congruence|vm_compute; congruence..].
Defined.

End RingProps.
