(* ===== verification/Proto.v ===== *)
(** * The RTLSTREAM/2 wire format ([src/src/rtl_stream_proto.c], [src/src/rtl_stream_proto.h])

    Requests, data headers, events and payloads are written into byte buffers in
    big-endian order.  [Module Proto] holds the encoders and the request decoder as the
    code has them, byte store by byte store; [Module Wire] is the format itself, as byte
    strings.  The theorems say that the encoders produce exactly the format within the
    first [N] bytes of the buffer, refuse everything else, and that the decoder inverts
    the encoder. *)

From S2P Require Import Prelude.

Module Proto.

Abbreviation RTLSTREAM_MAGIC_REQ := (0x52543252)%Z (only parsing).
Abbreviation RTLSTREAM_MAGIC_IQ := (0x52543249)%Z (only parsing).
Abbreviation RTLSTREAM_MAGIC_FFT := (0x52543246)%Z (only parsing).
Abbreviation RTLSTREAM_MAGIC_EVT := (0x52543245)%Z (only parsing).

Abbreviation RTLSTREAM_MODE_IQ := (0)%Z (only parsing).
Abbreviation RTLSTREAM_MODE_FFT := (1)%Z (only parsing).

Definition RTLSTREAM_REQ_SIZE : Z := 29.
Abbreviation RTLSTREAM_IQ_HDR_SIZE := (32)%Z (only parsing).
Abbreviation RTLSTREAM_FFT_HDR_SIZE := (32)%Z (only parsing).
Abbreviation RTLSTREAM_EVT_HDR_SIZE := (8)%Z (only parsing).
Abbreviation RTLSTREAM_EVT_FREQ_SIZE := (16)%Z (only parsing).

Abbreviation RTLSTREAM_EVT_FREQ_CHANGE := (1)%Z (only parsing).
Abbreviation RTLSTREAM_EVT_STREAM_END := (2)%Z (only parsing).

Definition RTLSTREAM_MAX_IQ_COMPONENTS : Z := 262144.
Definition RTLSTREAM_MAX_FFT_BINS : Z := 65536.

Record rtlsdr_stream_req := mk_req {
  req_magic : Z;
  req_freq : Z;
  req_rate : Z;
  req_bandwidth : Z;
  req_mode : Z;
}.

(** The I/Q and FFT headers have the same layout; the last field is [nsamples] in the
    former and [bins] in the latter. *)
Record rtlsdr_stream_hdr := mk_hdr {
  hdr_magic : Z;
  hdr_freq : Z;
  hdr_rate : Z;
  hdr_seq : Z;
  hdr_count : Z;
}.

(** [put32 (buf + off) val]. *)
Definition put32 (buf : list Z) (off val : Z) : list Z :=
  let buf := wr buf (off + 0) (u8 (val >>' 24)) in
  let buf := wr buf (off + 1) (u8 (val >>' 16)) in
  let buf := wr buf (off + 2) (u8 (val >>' 8)) in
  wr buf (off + 3) (u8 val).

Definition put64 (buf : list Z) (off val : Z) : list Z :=
  let buf := put32 buf off (u32 (val >>' 32)) in
  put32 buf (off + 4) (u32 val).

(** [get32 (buf + off)]. *)
Definition get32 (buf : list Z) (off : Z) : Z :=
  ((rd buf (off + 0) <<' 24) |' (rd buf (off + 1) <<' 16))
  |' (rd buf (off + 2) <<' 8) |' rd buf (off + 3).

Definition get64 (buf : list Z) (off : Z) : Z :=
  (get32 buf off <<' 32) |' get32 buf (off + 4).

Definition valid_req (req : rtlsdr_stream_req) : bool :=
  (req_magic req =? RTLSTREAM_MAGIC_REQ) &&
  ((req_mode req =? RTLSTREAM_MODE_IQ) ||
   ((req_mode req =? RTLSTREAM_MODE_FFT) && (req_freq req =? 0) &&
    (req_rate req =? 0) && (req_bandwidth req =? 0))).

Definition rtlsdr_stream_encode_req (buf : option (list Z)) (req : option rtlsdr_stream_req)
    : Z * option (list Z) :=
  match buf, req with
  | Some b, Some r =>
      if negb (valid_req r) then (-1, buf)
      else
        let b := put32 b 0 (req_magic r) in
        let b := put64 b 4 (req_freq r) in
        let b := put64 b 12 (req_rate r) in
        let b := put64 b 20 (req_bandwidth r) in
        let b := wr b 28 (req_mode r) in
        (RTLSTREAM_REQ_SIZE, Some b)
  | _, _ => (-1, buf)
  end.

(** The request argument is written through its pointer, also when it turns out invalid. *)
Definition rtlsdr_stream_decode_req (req : option rtlsdr_stream_req) (buf : option (list Z))
    : Z * option rtlsdr_stream_req :=
  match req, buf with
  | Some _, Some b =>
      let r := mk_req (get32 b 0) (get64 b 4) (get64 b 12) (get64 b 20) (rd b 28) in
      (if valid_req r then 0 else -1, Some r)
  | _, _ => (-1, req)
  end.

(** The five stores both header encoders make. *)
Definition put_hdr (b : list Z) (h : rtlsdr_stream_hdr) : list Z :=
  let b := put32 b 0 (hdr_magic h) in
  let b := put64 b 4 (hdr_freq h) in
  let b := put64 b 12 (hdr_rate h) in
  let b := put64 b 20 (hdr_seq h) in
  put32 b 28 (hdr_count h).

Definition rtlsdr_stream_encode_iq_hdr (buf : option (list Z)) (hdr : option rtlsdr_stream_hdr)
    : Z * option (list Z) :=
  match buf, hdr with
  | Some b, Some h =>
      if negb (hdr_magic h =? RTLSTREAM_MAGIC_IQ)
         || (RTLSTREAM_MAX_IQ_COMPONENTS <? hdr_count h)
         || negb (hdr_count h &' 1 =? 0)
      then (-1, buf)
      else (RTLSTREAM_IQ_HDR_SIZE, Some (put_hdr b h))
  | _, _ => (-1, buf)
  end.

Definition rtlsdr_stream_encode_fft_hdr (buf : option (list Z)) (hdr : option rtlsdr_stream_hdr)
    : Z * option (list Z) :=
  match buf, hdr with
  | Some b, Some h =>
      if negb (hdr_magic h =? RTLSTREAM_MAGIC_FFT)
         || (hdr_count h <? 2) || (RTLSTREAM_MAX_FFT_BINS <? hdr_count h)
      then (-1, buf)
      else (RTLSTREAM_FFT_HDR_SIZE, Some (put_hdr b h))
  | _, _ => (-1, buf)
  end.

Definition rtlsdr_stream_encode_evt (buf : option (list Z)) (type freq : Z)
    : Z * option (list Z) :=
  match buf with
  | Some b =>
      if negb (type =? RTLSTREAM_EVT_FREQ_CHANGE) && negb (type =? RTLSTREAM_EVT_STREAM_END)
      then (-1, buf)
      else
        let b := put32 b 0 RTLSTREAM_MAGIC_EVT in
        let b := put32 b 4 type in
        if type =? RTLSTREAM_EVT_FREQ_CHANGE
        then (RTLSTREAM_EVT_FREQ_SIZE, Some (put64 b 8 freq))
        else (RTLSTREAM_EVT_HDR_SIZE, Some b)
  | None => (-1, buf)
  end.

(** The loop [for (i = 0; i < n; i++) body(i)] over a buffer. *)
Definition for_buf (n : Z) (body : Z -> list Z -> list Z) (buf : list Z) : list Z :=
  fold_left (fun b i => body i b) (seqZ 0 n) buf.

Definition iq_store (samples : list Z) (i : Z) (dst : list Z) : list Z :=
  let value := u16 (rd samples i) in
  let dst := wr dst (2 * i) (u8 (value >>' 8)) in
  wr dst (2 * i + 1) (u8 value).

Definition rtlsdr_stream_encode_iq_payload (dst : option (list Z)) (capacity_bytes : Z)
    (samples : option (list Z)) (component_count : Z) : Z * option (list Z) :=
  if (RTLSTREAM_MAX_IQ_COMPONENTS <? component_count)
     || negb (component_count &' 1 =? 0)
     || (capacity_bytes <? component_count * 2)
     || (bool_decide (dst = None) && negb (component_count =? 0))
     || (bool_decide (samples = None) && negb (component_count =? 0))
  then (-1, dst)
  else (0, for_buf component_count (iq_store (default [] samples)) <$> dst).

(** A [float] is its 32-bit representation; the platform checks of the code
    ([sizeof(float)], [FLT_RADIX], ...) pass on IEEE-754 platforms. *)
Definition fft_store (power : list Z) (i : Z) (dst : list Z) : list Z :=
  put32 dst (4 * i) (rd power i).

Definition rtlsdr_stream_encode_fft_payload (dst : option (list Z)) (capacity_bytes : Z)
    (power : option (list Z)) (bin_count : Z) : Z * option (list Z) :=
  match dst, power with
  | Some d, Some p =>
      if (bin_count <? 2) || (RTLSTREAM_MAX_FFT_BINS <? bin_count)
         || (capacity_bytes <? bin_count * 4)
      then (-1, dst)
      else (0, Some (for_buf bin_count (fft_store p) d))
  | _, _ => (-1, dst)
  end.

End Proto.

(** ** The format *)

Module Wire.
Import Proto.

Definition be16 (v : Z) : list Z := [u8 (v >>' 8); u8 v].
Definition be32 (v : Z) : list Z := [u8 (v >>' 24); u8 (v >>' 16); u8 (v >>' 8); u8 v].
Definition be64 (v : Z) : list Z := be32 (u32 (v >>' 32)) ++ be32 (u32 v).

Definition req_wire (r : rtlsdr_stream_req) : list Z :=
  be32 (req_magic r) ++ be64 (req_freq r) ++ be64 (req_rate r) ++ be64 (req_bandwidth r)
  ++ [req_mode r].

Definition hdr_wire (h : rtlsdr_stream_hdr) : list Z :=
  be32 (hdr_magic h) ++ be64 (hdr_freq h) ++ be64 (hdr_rate h) ++ be64 (hdr_seq h)
  ++ be32 (hdr_count h).

Definition evt_wire (type freq : Z) : list Z :=
  be32 RTLSTREAM_MAGIC_EVT ++ be32 type
  ++ (if type =? RTLSTREAM_EVT_FREQ_CHANGE then be64 freq else []).

Definition iq_wire (samples : list Z) : list Z := samples ≫= (fun x => be16 (u16 x)).
Definition fft_wire (power : list Z) : list Z := power ≫= be32.

(** The values the fields of the C structures can have. *)
Definition req_ok (r : rtlsdr_stream_req) : Prop :=
  is_u 32 (req_magic r) /\ is_u 64 (req_freq r) /\ is_u 64 (req_rate r) /\
  is_u 64 (req_bandwidth r) /\ is_u 8 (req_mode r).
Definition hdr_ok (h : rtlsdr_stream_hdr) : Prop :=
  is_u 32 (hdr_magic h) /\ is_u 64 (hdr_freq h) /\ is_u 64 (hdr_rate h) /\
  is_u 64 (hdr_seq h) /\ is_u 32 (hdr_count h).

End Wire.

Module ProtoFacts.
Import Proto Wire.

(** ** Big-endian integers *)

Lemma get32_bytes a b c d :
  is_u 8 a -> is_u 8 b -> is_u 8 c -> is_u 8 d ->
  ((a <<' 24) |' (b <<' 16)) |' (c <<' 8) |' d = a * 2 ^ 24 + b * 2 ^ 16 + c * 2 ^ 8 + d.
Proof.
  intros. rewrite lor_shiftl_add by (rewrite ?Z.shiftl_mul_pow2 by lia; clia).
  rewrite (Z.shiftl_mul_pow2 b) by lia.
  replace (a * 2 ^ 24 + b * 2 ^ 16) with ((a * 2 ^ 8 + b) <<' 16)
    by (rewrite Z.shiftl_mul_pow2; lia).
  rewrite lor_shiftl_add by (rewrite ?Z.shiftl_mul_pow2 by lia; clia).
  rewrite (Z.shiftl_mul_pow2 c) by lia.
  replace ((a * 2 ^ 8 + b) * 2 ^ 16 + c * 2 ^ 8) with (((a * 2 ^ 8 + b) * 2 ^ 8 + c) <<' 8)
    by (rewrite Z.shiftl_mul_pow2; lia).
  rewrite lor_shiftl_add by clia. rewrite ?Z.shiftl_mul_pow2 by lia. lia.
Qed.

Lemma shiftr_div z n : 0 <= n -> z >>' n = z / 2 ^ n.
Proof. apply Z.shiftr_div_pow2. Qed.

Lemma be32_value v : is_u 32 v ->
  u8 (v >>' 24) * 2 ^ 24 + u8 (v >>' 16) * 2 ^ 16 + u8 (v >>' 8) * 2 ^ 8 + u8 v = v.
Proof. intros. rewrite !shiftr_div by lia. cdlia. Qed.

Lemma zlen_be32 v : zlen (be32 v) = 4. Proof. done. Qed.
Lemma zlen_be64 v : zlen (be64 v) = 8. Proof. done. Qed.

Lemma bytes_be32 v : bytes (be32 v).
Proof. repeat constructor; apply u8_range. Qed.
Lemma bytes_be64 v : bytes (be64 v).
Proof. apply Forall_app; split; apply bytes_be32. Qed.
#[export] Hint Resolve bytes_be32 bytes_be64 : cint.

Lemma rd_app_r (l1 l2 : list Z) off i :
  zlen l1 = off -> 0 <= i -> rd (l1 ++ l2) (off + i) = rd l2 i.
Proof.
  unfold zlen, rd. intros. destruct (Z.ltb_spec (off + i) 0), (Z.ltb_spec i 0); try lia.
  rewrite lookup_app_r by lia. do 2 f_equal. lia.
Qed.

Lemma get32_app l1 v l2 off : zlen l1 = off -> is_u 32 v -> get32 (l1 ++ be32 v ++ l2) off = v.
Proof.
  intros. unfold get32. rewrite !(rd_app_r _ _ off) by (done || lia).
  unfold be32, rd. simpl. rewrite get32_bytes by apply u8_range. by apply be32_value.
Qed.

Lemma get32_head v l : is_u 32 v -> get32 (be32 v ++ l) 0 = v.
Proof. by apply (get32_app []). Qed.

Lemma get64_app l1 v l2 off : zlen l1 = off -> is_u 64 v -> get64 (l1 ++ be64 v ++ l2) off = v.
Proof.
  intros Ho Hv. unfold get64, be64. rewrite <- app_assoc, (get32_app _ _ _ off) by auto with cint.
  rewrite app_assoc, get32_app; [|unfold zlen in *; rewrite length_app; simpl; lia|auto with cint].
  rewrite lor_shiftl_add by (try apply u32_range; lia).
  rewrite shiftr_div by lia. cdlia.
Qed.

(** ** The stores as block writes *)

Lemma wr_blit l i x : 0 <= i -> wr l i x = blit l i [x].
Proof. intros. unfold wr, blit. destruct (Z.ltb_spec i 0); [lia|done]. Qed.

Lemma blit_blit l off off' k1 k2 :
  0 <= off -> off' = off + zlen k1 -> blit (blit l off k1) off' k2 = blit l off (k1 ++ k2).
Proof.
  intros ? ->. unfold blit, zlen. rewrite list_inserts_app_l.
  by replace (Z.to_nat (off + Z.of_nat (length k1))) with (length k1 + Z.to_nat off)%nat by lia.
Qed.

(** Join consecutive block writes. *)
Ltac join_blits := rewrite !blit_blit by (lia || (unfold zlen; simpl; lia)).

Lemma put32_blit l off v : 0 <= off -> put32 l off v = blit l off (be32 v).
Proof. intros. unfold put32. rewrite !wr_blit, Z.add_0_r by lia. by join_blits. Qed.

Lemma put64_blit l off v : 0 <= off -> put64 l off v = blit l off (be64 v).
Proof. intros. unfold put64. rewrite !put32_blit by lia. by join_blits. Qed.

Lemma put_hdr_blit l h : put_hdr l h = blit l 0 (hdr_wire h).
Proof. unfold put_hdr. rewrite !put32_blit, !put64_blit by lia. by join_blits. Qed.

Lemma put_req_blit l r :
  wr (put64 (put64 (put64 (put32 l 0 (req_magic r)) 4 (req_freq r)) 12 (req_rate r))
        20 (req_bandwidth r)) 28 (req_mode r)
  = blit l 0 (req_wire r).
Proof. rewrite wr_blit, !put32_blit, !put64_blit by lia. by join_blits. Qed.

(** A loop whose iterations append equal-sized blocks. *)
Lemma for_buf_blocks (n : nat) (size : Z) (f : Z -> list Z) body l :
  (forall i b, 0 <= i < Z.of_nat n -> body i b = blit b (size * i) (f i)) ->
  (forall i, zlen (f i) = size) ->
  for_buf (Z.of_nat n) body l = blit l 0 (seqZ 0 (Z.of_nat n) ≫= f).
Proof.
  intros Hb Hf. assert (Hlen : forall m, zlen (seqZ 0 (Z.of_nat m) ≫= f) = size * Z.of_nat m).
  { intros m. induction m as [|m IH]; [by rewrite Z.mul_0_r|].
    rewrite seqZ_S, bind_app. unfold zlen in *. rewrite length_app.
    simpl. rewrite app_nil_r. specialize (Hf (0 + Z.of_nat m)). unfold zlen in Hf. lia. }
  unfold for_buf. induction n as [|n IH]; [done|].
  rewrite seqZ_S, fold_left_app, bind_app. simpl. rewrite app_nil_r, Z.add_0_l.
  rewrite IH by (intros; apply Hb; lia). rewrite Hb by lia. rewrite <- Hlen.
  rewrite blit_blit by lia. done.
Qed.

Lemma bind_rd_seqZ (l : list Z) (f : Z -> list Z) n :
  (n <= length l)%nat ->
  seqZ 0 (Z.of_nat n) ≫= (fun i => f (rd l i)) = take n l ≫= f.
Proof.
  intros Hn. induction n as [|n IH]; [done|].
  destruct (lookup_lt_is_Some_2 l n) as [x Hx]; [lia|].
  rewrite seqZ_S, bind_app, IH by lia.
  rewrite (take_S_r _ _ _ Hx), bind_app. simpl.
  assert (rd l (0 + Z.of_nat n) = x) as ->; [|done].
  unfold rd. destruct (Z.ltb_spec (0 + Z.of_nat n) 0); [lia|].
  by rewrite Z.add_0_l, Nat2Z.id, Hx.
Qed.

Lemma iq_loop_blit dst samples n :
  0 <= n <= zlen samples ->
  for_buf n (iq_store samples) dst = blit dst 0 (iq_wire (take (Z.to_nat n) samples)).
Proof.
  intros Hn. unfold iq_wire. rewrite <- bind_rd_seqZ by (unfold zlen in *; lia).
  rewrite <- (Z2Nat.id n) at 1 by lia.
  apply (for_buf_blocks _ 2); [|done]. intros i b Hi. unfold iq_store.
  rewrite !wr_blit by lia. by join_blits.
Qed.

Lemma fft_loop_blit dst power n :
  0 <= n <= zlen power ->
  for_buf n (fft_store power) dst = blit dst 0 (fft_wire (take (Z.to_nat n) power)).
Proof.
  intros Hn. unfold fft_wire. rewrite <- bind_rd_seqZ by (unfold zlen in *; lia).
  rewrite <- (Z2Nat.id n) at 1 by lia.
  apply (for_buf_blocks _ 4); [|done]. intros i b Hi. unfold fft_store. by rewrite put32_blit by lia.
Qed.

Lemma zlen_iq_wire s : zlen (iq_wire s) = 2 * zlen s.
Proof. unfold zlen. induction s as [|x s IH]; simpl in *; [done|]. unfold iq_wire in *. simpl. lia. Qed.
Lemma zlen_fft_wire s : zlen (fft_wire s) = 4 * zlen s.
Proof. unfold zlen. induction s as [|x s IH]; simpl in *; [done|]. unfold fft_wire in *. simpl. lia. Qed.

(** ** Fields of an encoded record *)

Lemma decode_wire r l :
  req_ok r ->
  mk_req (get32 (req_wire r ++ l) 0) (get64 (req_wire r ++ l) 4) (get64 (req_wire r ++ l) 12)
    (get64 (req_wire r ++ l) 20) (rd (req_wire r ++ l) 28) = r.
Proof.
  intros (?&?&?&?&?). destruct r as [m f ra bw mo]. unfold req_wire.
  cbn [req_magic req_freq req_rate req_bandwidth req_mode] in *. rewrite <- !app_assoc. f_equal.
  - by apply (get32_app []).
  - by apply (get64_app (be32 _)).
  - rewrite app_assoc. by apply (get64_app (be32 _ ++ be64 _)).
  - rewrite 2!app_assoc. by apply (get64_app ((be32 _ ++ be64 _) ++ be64 _)).
Qed.

Lemma hdr_fields h l :
  hdr_ok h ->
  mk_hdr (get32 (hdr_wire h ++ l) 0) (get64 (hdr_wire h ++ l) 4) (get64 (hdr_wire h ++ l) 12)
    (get64 (hdr_wire h ++ l) 20) (get32 (hdr_wire h ++ l) 28) = h.
Proof.
  intros (?&?&?&?&?). destruct h as [m f ra sq n]. unfold hdr_wire.
  cbn [hdr_magic hdr_freq hdr_rate hdr_seq hdr_count] in *. rewrite <- !app_assoc. f_equal.
  - by apply (get32_app []).
  - by apply (get64_app (be32 _)).
  - rewrite app_assoc. by apply (get64_app (be32 _ ++ be64 _)).
  - rewrite 2!app_assoc. by apply (get64_app ((be32 _ ++ be64 _) ++ be64 _)).
  - rewrite 3!app_assoc. by apply (get32_app (((be32 _ ++ be64 _) ++ be64 _) ++ be64 _)).
Qed.

(** Reading four bytes and writing them again. *)
Lemma be32_get32 b off :
  bytes b -> 0 <= off -> off + 4 <= zlen b -> be32 (get32 b off) = slice b off 4.
Proof.
  intros Hb Ho Hl.
  assert (Hr : forall i, 0 <= i -> off + i < zlen b ->
    b !! Z.to_nat (off + i) = Some (rd b (off + i)) /\ is_u 8 (rd b (off + i))).
  { intros i Hi Hlt. unfold rd, zlen in *. destruct (Z.ltb_spec (off + i) 0); [lia|].
    destruct (lookup_lt_is_Some_2 b (Z.to_nat (off + i))) as [x Hx]; [lia|].
    rewrite Hx. simpl. split; [done|]. by eapply (Forall_lookup_1 _ _ _ _ Hb). }
  destruct (Hr 0), (Hr 1), (Hr 2), (Hr 3); try lia.
  unfold get32. rewrite get32_bytes by done.
  assert (slice b off 4 = [rd b (off + 0); rd b (off + 1); rd b (off + 2); rd b (off + 3)]) as ->.
  { apply list_eq. intros [|[|[|[|i]]]].
    1-4: rewrite lookup_slice by lia; simpl.
    1: replace (Z.to_nat off + 0)%nat with (Z.to_nat (off + 0)) by lia; done.
    1: replace (Z.to_nat off + 1)%nat with (Z.to_nat (off + 1)) by lia; done.
    1: replace (Z.to_nat off + 2)%nat with (Z.to_nat (off + 2)) by lia; done.
    1: replace (Z.to_nat off + 3)%nat with (Z.to_nat (off + 3)) by lia; done.
    simpl. apply lookup_ge_None_2. rewrite length_slice by lia. lia. }
  unfold be32. rewrite !shiftr_div by lia.
  repeat f_equal; cdlia.
Qed.

Lemma slice_app b off off' n m :
  0 <= off -> 0 <= n -> 0 <= m -> off' = off + n ->
  slice b off n ++ slice b off' m = slice b off (n + m).
Proof.
  intros ? ? ? ->. unfold slice. rewrite (Z2Nat.inj_add off n), (Z2Nat.inj_add n m) by lia.
  by rewrite <- drop_drop, take_take_drop.
Qed.

Lemma get32_range b off : bytes b -> 0 <= off -> off + 4 <= zlen b -> is_u 32 (get32 b off).
Proof.
  intros Hb Ho Hl. unfold get32.
  assert (Hr : forall i, is_u 8 (rd b i)).
  { intros i. unfold rd. destruct (i <? 0); [done|].
    destruct (b !! _) eqn:E; simpl; [|done]. by eapply (Forall_lookup_1 _ _ _ _ Hb). }
  rewrite get32_bytes by done. pose proof (Hr (off + 0)). pose proof (Hr (off + 1)).
  pose proof (Hr (off + 2)). pose proof (Hr (off + 3)). clia.
Qed.

Lemma be64_get64 b off :
  bytes b -> 0 <= off -> off + 8 <= zlen b -> be64 (get64 b off) = slice b off 8.
Proof.
  intros Hb Ho Hl. unfold be64, get64.
  pose proof (get32_range b off Hb Ho ltac:(lia)).
  pose proof (get32_range b (off + 4) Hb ltac:(lia) ltac:(lia)).
  rewrite lor_shiftl_add by done.
  rewrite shiftr_div by lia.
  replace (u32 (_ / _)) with (get32 b off) by cdlia.
  replace (u32 (_ + _)) with (get32 b (off + 4)) by cdlia.
  rewrite !be32_get32 by (done || lia). by rewrite slice_app by lia.
Qed.

Lemma slice_1 b off : 0 <= off < zlen b -> [rd b off] = slice b off 1.
Proof.
  intros. unfold slice, rd, zlen in *. destruct (Z.ltb_spec off 0); [lia|].
  destruct (lookup_lt_is_Some_2 b (Z.to_nat off)) as [x Hx]; [lia|].
  by rewrite Hx, (drop_S _ _ _ Hx).
Qed.

Lemma wire_decode b :
  bytes b -> zlen b = 29 ->
  req_wire (mk_req (get32 b 0) (get64 b 4) (get64 b 12) (get64 b 20) (rd b 28)) = b.
Proof.
  intros Hb Hl. unfold req_wire. cbn [req_magic req_freq req_rate req_bandwidth req_mode].
  rewrite be32_get32, !be64_get64, slice_1 by (done || lia).
  rewrite !slice_app by lia.
  unfold slice. rewrite take_ge; [done|]. rewrite length_drop. unfold zlen in Hl. lia.
Qed.

End ProtoFacts.

(** ** Properties *)

Module ProtoProps.
Import Proto Wire ProtoFacts.

(** C15.  A request survives the wire: for every valid request and every buffer of at
    least 29 bytes, [rtlsdr_stream_encode_req] returns 29, writes exactly the format into
    the first 29 bytes and nothing behind them, and [rtlsdr_stream_decode_req] of the
    buffer returns 0 with the same request in every field. *)
Theorem req_roundtrip r r0 buf :
  req_ok r -> valid_req r = true -> 29 <= zlen buf ->
  exists buf', rtlsdr_stream_encode_req (Some buf) (Some r) = (RTLSTREAM_REQ_SIZE, Some buf') /\
    buf' = req_wire r ++ drop 29 buf /\
    rtlsdr_stream_decode_req (Some r0) (Some buf') = (0, Some r).
Proof.
  intros Hr Hv Hl. simpl. rewrite Hv. simpl. rewrite put_req_blit.
  eexists. split; [done|]. rewrite blit_0 by done.
  split; [done|]. rewrite decode_wire by done. by rewrite Hv.
Qed.

Lemma req_roundtrip_witness :
  rtlsdr_stream_decode_req (Some (mk_req 0 0 0 0 0))
    (snd (rtlsdr_stream_encode_req (Some (replicate 29 0))
            (Some (mk_req RTLSTREAM_MAGIC_REQ 433920000 250000 200000 0))))
  = (0, Some (mk_req RTLSTREAM_MAGIC_REQ 433920000 250000 200000 0)).
Proof.
  destruct (req_roundtrip (mk_req RTLSTREAM_MAGIC_REQ 433920000 250000 200000 0)
              (mk_req 0 0 0 0 0) (replicate 29 0)) as (b&E&_&D).
  - unfold req_ok. vm_compute. repeat split; congruence.
  - reflexivity.
  - vm_compute. congruence.
  - rewrite E. exact D.
Defined.

(** The decoder accepts nothing but encoded requests: a 29-byte message it accepts
    is valid (right magic, I/Q mode or FFT mode with all parameters zero) and is byte for
    byte what [rtlsdr_stream_encode_req] produces from the decoded request. *)
Theorem req_decode_canonical b r0 r buf :
  bytes b -> zlen b = 29 -> zlen buf = 29 ->
  rtlsdr_stream_decode_req (Some r0) (Some b) = (0, Some r) ->
  valid_req r = true /\
  rtlsdr_stream_encode_req (Some buf) (Some r) = (RTLSTREAM_REQ_SIZE, Some b).
Proof.
  intros Hb Hl Hl' Hd. unfold rtlsdr_stream_decode_req in Hd.
  destruct (valid_req _) eqn:Hv; [|done]. injection Hd as Hd. rewrite Hd in Hv.
  split; [done|]. simpl. rewrite Hv. simpl. rewrite put_req_blit.
  rewrite <- Hd, wire_decode by done. rewrite blit_0 by lia.
  rewrite (drop_ge buf) by (unfold zlen in *; lia). by rewrite app_nil_r.
Qed.

Lemma req_decode_canonical_witness :
  let b := [0x52; 0x54; 0x32; 0x52] ++ replicate 24 0 ++ [1] in
  rtlsdr_stream_encode_req (Some (replicate 29 7))
    (Some (mk_req RTLSTREAM_MAGIC_REQ 0 0 0 RTLSTREAM_MODE_FFT)) = (29, Some b).
Proof.
  intros b.
  apply (req_decode_canonical b (mk_req 0 0 0 0 0)
           (mk_req RTLSTREAM_MAGIC_REQ 0 0 0 RTLSTREAM_MODE_FFT) (replicate 29 7)).
  - apply (bool_decide_unpack _). vm_compute. exact I.
  - reflexivity.
  - reflexivity.
  - vm_compute. reflexivity.
Defined.

(** The data encoders on every branch.  A header with the right magic and a legal
    count (even and at most 262144 components, 2 to 65536 bins) is written as 32 format
    bytes, an event of a known type as 16 or 8; anything else returns -1 and leaves the
    buffer alone; no byte behind the header is touched. *)
Theorem data_header_encoders buf h type freq :
  32 <= zlen buf ->
  (rtlsdr_stream_encode_iq_hdr (Some buf) (Some h) =
     if (hdr_magic h =? RTLSTREAM_MAGIC_IQ) && (hdr_count h <=? RTLSTREAM_MAX_IQ_COMPONENTS)
        && Z.even (hdr_count h)
     then (32, Some (hdr_wire h ++ drop 32 buf)) else (-1, Some buf)) /\
  (rtlsdr_stream_encode_fft_hdr (Some buf) (Some h) =
     if (hdr_magic h =? RTLSTREAM_MAGIC_FFT) && (2 <=? hdr_count h)
        && (hdr_count h <=? RTLSTREAM_MAX_FFT_BINS)
     then (32, Some (hdr_wire h ++ drop 32 buf)) else (-1, Some buf)) /\
  (rtlsdr_stream_encode_evt (Some buf) type freq =
     if type =? RTLSTREAM_EVT_FREQ_CHANGE then (16, Some (evt_wire type freq ++ drop 16 buf))
     else if type =? RTLSTREAM_EVT_STREAM_END then (8, Some (evt_wire type freq ++ drop 8 buf))
     else (-1, Some buf)).
Proof.
  intros Hl. unfold rtlsdr_stream_encode_iq_hdr, rtlsdr_stream_encode_fft_hdr,
    rtlsdr_stream_encode_evt. rewrite put_hdr_blit, blit_0 by done.
  rewrite (Z.land_ones _ 1), Zmod_even by lia.
  split_and!.
  - destruct (Z.even _); ztests; done.
  - ztests; done.
  - destruct (Z.eqb_spec type RTLSTREAM_EVT_FREQ_CHANGE) as [->|]; simpl.
    + rewrite !put32_blit, put64_blit by lia. join_blits. by rewrite blit_0 by (unfold zlen in *; simpl; lia).
    + destruct (Z.eqb_spec type RTLSTREAM_EVT_STREAM_END) as [->|]; simpl; [|done].
      rewrite !put32_blit by lia. join_blits. by rewrite blit_0 by (unfold zlen in *; simpl; lia).
Qed.

Lemma data_header_encoders_witness :
  rtlsdr_stream_encode_evt (Some (replicate 33 9)) RTLSTREAM_EVT_STREAM_END 5
  = (8, Some ([0x52; 0x54; 0x32; 0x45; 0; 0; 0; 2] ++ replicate 25 9)).
Proof.
  rewrite (proj2 (proj2 (data_header_encoders (replicate 33 9) (mk_hdr 0 0 0 0 0)
                           RTLSTREAM_EVT_STREAM_END 5 ltac:(vm_compute; congruence)))).
  reflexivity.
Defined.

(** The payload encoders: with enough capacity a legal number of samples (or
    power values, as IEEE-754 bit patterns) is written big-endian, two (four) bytes each,
    in order and nowhere else; an illegal count or too small a buffer is refused with the
    buffer unchanged. *)
Theorem payload_encoders dst cap xs n :
  0 <= n <= zlen xs -> cap = zlen dst ->
  (rtlsdr_stream_encode_iq_payload (Some dst) cap (Some xs) n =
     if (n <=? RTLSTREAM_MAX_IQ_COMPONENTS) && Z.even n && (2 * n <=? cap)
     then (0, Some (iq_wire (take (Z.to_nat n) xs) ++ drop (Z.to_nat (2 * n)) dst))
     else (-1, Some dst)) /\
  (rtlsdr_stream_encode_fft_payload (Some dst) cap (Some xs) n =
     if (2 <=? n) && (n <=? RTLSTREAM_MAX_FFT_BINS) && (4 * n <=? cap)
     then (0, Some (fft_wire (take (Z.to_nat n) xs) ++ drop (Z.to_nat (4 * n)) dst))
     else (-1, Some dst)).
Proof.
  intros Hn ->. assert (Ht : zlen (take (Z.to_nat n) xs) = n)
    by (unfold zlen in *; rewrite length_take; lia).
  unfold rtlsdr_stream_encode_iq_payload, rtlsdr_stream_encode_fft_payload.
  rewrite !bool_decide_false by done. simpl. rewrite !orb_false_r.
  rewrite iq_loop_blit, fft_loop_blit by done.
  rewrite (Z.land_ones _ 1), Zmod_even by lia.
  split.
  - destruct (Z.even n); ztests; simpl; try done.
    rewrite blit_0 by (rewrite zlen_iq_wire; lia).
    do 4 f_equal. pose proof (zlen_iq_wire (take (Z.to_nat n) xs)). unfold zlen in *. lia.
  - ztests; simpl; try done.
    rewrite blit_0 by (rewrite zlen_fft_wire; lia).
    do 4 f_equal. pose proof (zlen_fft_wire (take (Z.to_nat n) xs)). unfold zlen in *. lia.
Qed.

Lemma payload_encoders_witness :
  rtlsdr_stream_encode_iq_payload (Some [0; 0; 0; 0; 5]) 5 (Some [-2; 258; 77]) 2
  = (0, Some [0xff; 0xfe; 1; 2; 5]).
Proof.
  rewrite (proj1 (payload_encoders [0; 0; 0; 0; 5] 5 [-2; 258; 77] 2
                    ltac:(vm_compute; split; congruence) eq_refl)).
  reflexivity.
Defined.

End ProtoProps.
