(* ===== verification/Client.v ===== *)
(** * The C client of the stream server ([src/stream_client/c/client.c])

    The client sends one request and then reads frames and events.  The socket is the
    environment: [rx] is the sequence of outcomes the coming [recv] calls meet, [tx] the
    same for [send]; both are arbitrary, so the theorems hold for every segmentation of
    the byte stream, with interrupted calls anywhere.  [rx_bytes] is the stream itself:
    the bytes the peer sent before the connection ended.

    The encoders and decoders of integers are the ones of [Proto]: the client has its own
    copies of [put32], [put64], [get32] and [get64] with the same text. *)

From S2P Require Import Prelude Proto.

Module Client.
Import Proto.

Abbreviation RTLSTREAM_READ_OK := (0)%Z (only parsing).
Abbreviation RTLSTREAM_READ_EVENT := (1)%Z (only parsing).
Abbreviation RTLSTREAM_ERROR := (-1)%Z (only parsing).
Abbreviation RTLSTREAM_ERROR_CAPACITY := (-2)%Z (only parsing).

(** The outcomes of a [recv]: bytes that are there (at most as many as asked for are
    taken, the rest stays), an interrupted call, an error.  [RxData []] and the end of
    the list are the end of the stream, for which [recv] returns 0. *)
Inductive rx_event :=
| RxData (bs : list Z)
| RxIntr
| RxFail.

(** The outcomes of a [send]: [TxAccept n] takes [min n left] bytes, and returns [n]
    itself when [n <= 0].  At the end of the list the socket takes everything. *)
Inductive tx_event :=
| TxAccept (n : Z)
| TxIntr
| TxFail.

Record rtlsdr_stream_event := mk_event {
  ev_type : Z;
  ev_freq : Z;
}.

Record rtlsdr_stream_ctx := mk_ctx {
  fd : Z;
  requested : bool;
  event : rtlsdr_stream_event;
}.

(** The context with the world around it: the socket's future, the bytes sent, and the
    descriptors closed so far, last first. *)
Record cst := mk_cst {
  ctx : rtlsdr_stream_ctx;
  rx : list rx_event;
  tx : list tx_event;
  sent : list Z;
  closed : list Z;
}.

Definition set_ctx (f : rtlsdr_stream_ctx -> rtlsdr_stream_ctx) (s : cst) : cst :=
  mk_cst (f (ctx s)) (rx s) (tx s) (sent s) (closed s).

(** The loop of [recv_all]: its result, the bytes stored at [buf], and what is left. *)
Fixpoint recv_loop (evs : list rx_event) (left : nat) : Z * list Z * list rx_event :=
  match left with
  | O => (0, [], evs)
  | _ =>
      match evs with
      | [] => (-1, [], [])
      | RxIntr :: evs' => recv_loop evs' left
      | RxFail :: evs' => (-1, [], evs')
      | RxData [] :: evs' => (-1, [], evs)
      | RxData bs :: evs' =>
          if (length bs <=? left)%nat then
            let '(rc, got, rest) := recv_loop evs' (left - length bs) in
            (rc, bs ++ got, rest)
          else (0, take left bs, RxData (drop left bs) :: evs')
      end
  end.

(** [recv] on a negative descriptor fails with [EBADF]. *)
Definition recv_all (len : Z) : st cst (Z * list Z) := fun s =>
  if fd (ctx s) <? 0 then (if len =? 0 then 0 else -1, [], s)
  else
    let '(rc, got, rest) := recv_loop (rx s) (Z.to_nat len) in
    (rc, got, mk_cst (ctx s) rest (tx s) (sent s) (closed s)).

Fixpoint send_loop (evs : list tx_event) (p : list Z) : Z * list Z * list tx_event :=
  match p with
  | [] => (0, [], evs)
  | _ =>
      match evs with
      | [] => (0, p, [])
      | TxIntr :: evs' => send_loop evs' p
      | TxFail :: evs' => (-1, [], evs')
      | TxAccept n :: evs' =>
          if n <=? 0 then (-1, [], evs')
          else
            let '(rc, out, rest) := send_loop evs' (drop (Z.to_nat n) p) in
            (rc, take (Z.to_nat n) p ++ out, rest)
      end
  end.

Definition send_all (p : list Z) : st cst Z := fun s =>
  let '(rc, out, rest) := send_loop (tx s) p in
  (rc, mk_cst (ctx s) (rx s) rest (sent s ++ out) (closed s)).

Definition close_fd : st cst unit := fun s =>
  (tt, mk_cst (mk_ctx (-1) (requested (ctx s)) (event (ctx s))) (rx s) (tx s) (sent s)
         (fd (ctx s) :: closed s)).

Definition rtlsdr_stream_request (freq rate bandwidth mode : Z) : st cst Z :=
  s ← st_get;
  if (fd (ctx s) <? 0) || requested (ctx s)
     || (negb (mode =? RTLSTREAM_MODE_IQ) && negb (mode =? RTLSTREAM_MODE_FFT))
     || ((mode =? RTLSTREAM_MODE_FFT)
         && (negb (freq =? 0) || negb (rate =? 0) || negb (bandwidth =? 0)))
  then mret (-1)
  else
    st_mod (set_ctx (fun c => mk_ctx (fd c) true (event c)));;
    let buf := replicate 29 0 in
    let buf := put32 buf 0 RTLSTREAM_MAGIC_REQ in
    let buf := put64 buf 4 freq in
    let buf := put64 buf 12 rate in
    let buf := put64 buf 20 bandwidth in
    let buf := wr buf 28 mode in
    rc ← send_all buf;
    if rc =? 0 then mret 0
    else close_fd;; mret (-1).

Definition fail : st cst Z :=
  s ← st_get;
  if 0 <=? fd (ctx s) then close_fd;; mret RTLSTREAM_ERROR
  else mret RTLSTREAM_ERROR.

Definition set_event (e : rtlsdr_stream_event) : st cst unit :=
  st_mod (set_ctx (fun c => mk_ctx (fd c) (requested c) e)).

(** The result and the caller's 32-byte buffer; [buf] is its contents before. *)
Definition read_header (buf : list Z) (magic : Z) : st cst (Z * list Z) :=
  '(rc, got) ← recv_all 4;
  let buf := blit buf 0 got in
  if rc <? 0 then r ← fail; mret (r, buf)
  else if get32 buf 0 =? RTLSTREAM_MAGIC_EVT then
    '(rc, got) ← recv_all 4;
    let buf := blit buf 4 got in
    if rc <? 0 then r ← fail; mret (r, buf)
    else
      let type := get32 buf 4 in
      if negb (type =? RTLSTREAM_EVT_FREQ_CHANGE) && negb (type =? RTLSTREAM_EVT_STREAM_END)
      then r ← fail; mret (r, buf)
      else
        set_event (mk_event type 0);;
        if type =? RTLSTREAM_EVT_FREQ_CHANGE then
          '(rc, got) ← recv_all 8;
          let buf := blit buf 8 got in
          if rc <? 0 then r ← fail; mret (r, buf)
          else set_event (mk_event type (get64 buf 8));; mret (RTLSTREAM_READ_EVENT, buf)
        else fail;; mret (RTLSTREAM_READ_EVENT, buf)
  else if negb (get32 buf 0 =? magic) then r ← fail; mret (r, buf)
  else
    '(rc, got) ← recv_all 28;
    let buf := blit buf 4 got in
    if rc <? 0 then r ← fail; mret (r, buf)
    else mret (RTLSTREAM_READ_OK, buf).

(** The loop of [drain]; [bytes] decreases by at least one per round, so [fuel = bytes]
    is enough. *)
Fixpoint drain_loop (fuel : nat) (bytes : Z) : st cst Z :=
  match fuel with
  | O => mret RTLSTREAM_ERROR_CAPACITY
  | S fuel' =>
      if bytes =? 0 then mret RTLSTREAM_ERROR_CAPACITY
      else
        let n := if bytes <? 1024 then bytes else 1024 in
        '(rc, _) ← recv_all n;
        if rc <? 0 then fail else drain_loop fuel' (bytes - n)
  end.

Definition drain (bytes : Z) : st cst Z := drain_loop (Z.to_nat bytes) bytes.

Definition hdr_of (buf : list Z) : rtlsdr_stream_hdr :=
  mk_hdr (get32 buf 0) (get64 buf 4) (get64 buf 12) (get64 buf 20) (get32 buf 28).

(** What a read leaves in the caller's objects; [out_payload] is [None] when a receive
    failed halfway through the payload. *)
Record read_out := mk_out {
  out_result : Z;
  out_hdr : rtlsdr_stream_hdr;
  out_payload : option (list Z);
}.

(** The conversion of one sample from its two bytes in place. *)
Definition iq_sample (p : list Z) (i : Z) : Z :=
  let value := (rd p (2 * i) <<' 8) |' rd p (2 * i + 1) in
  s16 (if value <? 32768 then value else value - 65536).

Definition rtlsdr_stream_read_iq (hdr0 : rtlsdr_stream_hdr) (samples : option (list Z))
    (max_components : Z) (buf0 : list Z) : st cst read_out :=
  if (max_components <? 0) || (bool_decide (samples = None) && negb (max_components =? 0))
  then mret (mk_out RTLSTREAM_ERROR hdr0 samples)
  else
    '(result, buf) ← read_header buf0 RTLSTREAM_MAGIC_IQ;
    if negb (result =? RTLSTREAM_READ_OK) then mret (mk_out result hdr0 samples)
    else
      let hdr := hdr_of buf in
      let n := hdr_count hdr in
      if (RTLSTREAM_MAX_IQ_COMPONENTS <? n) || negb (n &' 1 =? 0)
      then r ← fail; mret (mk_out r hdr samples)
      else if u32 max_components <? n
      then r ← drain (n * 2); mret (mk_out r hdr samples)
      else
        '(rc, got) ← recv_all (n * 2);
        if rc <? 0 then r ← fail; mret (mk_out r hdr None)
        else mret (mk_out RTLSTREAM_READ_OK hdr
                     ((fun old => (iq_sample got <$> seqZ 0 n) ++ drop (Z.to_nat n) old) <$> samples)).

(** Power values are IEEE-754 bit patterns. *)
Definition rtlsdr_stream_read_fft (hdr0 : rtlsdr_stream_hdr) (power : option (list Z))
    (max_bins : Z) (buf0 : list Z) : st cst read_out :=
  if (max_bins <? 0) || (bool_decide (power = None) && negb (max_bins =? 0))
  then mret (mk_out RTLSTREAM_ERROR hdr0 power)
  else
    '(result, buf) ← read_header buf0 RTLSTREAM_MAGIC_FFT;
    if negb (result =? RTLSTREAM_READ_OK) then mret (mk_out result hdr0 power)
    else
      let hdr := hdr_of buf in
      let n := hdr_count hdr in
      if (n <? 2) || (RTLSTREAM_MAX_FFT_BINS <? n)
      then r ← fail; mret (mk_out r hdr power)
      else if u32 max_bins <? n
      then r ← drain (n * 4); mret (mk_out r hdr power)
      else
        '(rc, got) ← recv_all (n * 4);
        if rc <? 0 then r ← fail; mret (mk_out r hdr None)
        else mret (mk_out RTLSTREAM_READ_OK hdr
                     ((fun old => ((fun i => get32 got (4 * i)) <$> seqZ 0 n)
                                    ++ drop (Z.to_nat n) old) <$> power)).

(** [rtlsdr_stream_close]; the structure is freed afterwards. *)
Definition rtlsdr_stream_close : st cst unit :=
  s ← st_get;
  if 0 <=? fd (ctx s) then close_fd else mret tt.

(** The loop over the resolved addresses: each is the descriptor [socket] returns for it
    and the result of [connect].  The final [ctx->fd] and the descriptors closed. *)
Fixpoint connect_loop (fd0 : Z) (addresses : list (Z * Z)) (shut : list Z) : Z * list Z :=
  match addresses with
  | [] => (fd0, shut)
  | (sock, conn) :: rest =>
      if sock <? 0 then connect_loop sock rest shut
      else if conn =? 0 then (sock, shut)
      else connect_loop (-1) rest (sock :: shut)
  end.

(** [addresses] is [None] when [getaddrinfo] fails. *)
Definition rtlsdr_stream_connect (host_given : bool) (port : Z) (addresses : option (list (Z * Z)))
    (calloc_ok : bool) : option rtlsdr_stream_ctx * list Z :=
  if negb host_given || (port <? 1) || (65535 <? port) then (None, [])
  else match addresses with
       | None => (None, [])
       | Some l =>
           if negb calloc_ok then (None, [])
           else
             let '(f, shut) := connect_loop (-1) l [] in
             if f <? 0 then (None, shut) else (Some (mk_ctx f false (mk_event 0 0)), shut)
       end.

(** The byte stream the peer sent before the connection ended. *)
Fixpoint rx_bytes (evs : list rx_event) : list Z :=
  match evs with
  | [] => []
  | RxIntr :: evs' => rx_bytes evs'
  | RxFail :: _ => []
  | RxData [] :: _ => []
  | RxData bs :: evs' => bs ++ rx_bytes evs'
  end.

(** A connected context. *)
Definition open (s : cst) : Prop := 0 <= fd (ctx s).

End Client.

Module ClientFacts.
Import Proto Wire ProtoFacts Client.

(** ** The receive and send loops *)

Definition with_rx (s : cst) (r : list rx_event) : cst :=
  mk_cst (ctx s) r (tx s) (sent s) (closed s).

Lemma recv_loop_ok evs left :
  (left <= length (rx_bytes evs))%nat ->
  exists rest, recv_loop evs left = (0, take left (rx_bytes evs), rest)
    /\ rx_bytes rest = drop left (rx_bytes evs).
Proof.
  revert left. induction evs as [|[[|b bs]| |] evs IH]; intros [|n] Hl; simpl in *;
    try (eexists; done); try lia.
  - destruct (Nat.leb_spec (length bs) n) as [Hn|Hn]; simpl.
    + destruct (IH (n - length bs)%nat) as (rest&E&R).
      { rewrite length_app in Hl. lia. }
      rewrite E. eexists. split.
      * f_equal. f_equal. simpl. f_equal. by rewrite take_app, (take_ge bs) by lia.
      * rewrite R, drop_app, (drop_ge bs) by lia. done.
    + eexists. split.
      * simpl. by rewrite take_app_le by lia.
      * simpl. destruct (drop n bs) eqn:Ed.
        { apply (f_equal length) in Ed. rewrite length_drop in Ed. simpl in Ed. lia. }
        rewrite drop_app_le by lia. by rewrite Ed.
  - destruct (IH (S n)) as (rest&E&R); [lia|]. rewrite E. by exists rest.
Qed.

Lemma recv_loop_fail evs left :
  (length (rx_bytes evs) < left)%nat ->
  exists got rest, recv_loop evs left = (-1, got, rest).
Proof.
  revert left. induction evs as [|[[|b bs]| |] evs IH]; intros [|n] Hl; simpl in *;
    try lia; eauto.
  rewrite length_app in Hl.
  destruct (Nat.leb_spec (length bs) n); [|lia].
  destruct (IH (n - length bs)%nat) as (got&rest&E); [lia|]. rewrite E.
  by eexists _, _.
Qed.

(** [recv_all] gets the next bytes of the stream, however they arrive. *)
Lemma recv_all_ok n s :
  open s -> 0 <= n <= zlen (rx_bytes (rx s)) ->
  exists rest, recv_all n s = (0, take (Z.to_nat n) (rx_bytes (rx s)), with_rx s rest)
    /\ rx_bytes rest = drop (Z.to_nat n) (rx_bytes (rx s)).
Proof.
  unfold open, recv_all. intros Ho Hn. destruct (Z.ltb_spec (fd (ctx s)) 0); [lia|].
  destruct (recv_loop_ok (rx s) (Z.to_nat n)) as (rest&E&R).
  { unfold zlen in Hn. lia. }
  exists rest. by rewrite E.
Qed.

(** The same for a stream known to start with [p]. *)
Lemma recv_all_app p q s n :
  open s -> rx_bytes (rx s) = p ++ q -> n = zlen p ->
  exists rest, recv_all n s = (0, p, with_rx s rest) /\ rx_bytes rest = q.
Proof.
  intros Ho Hs ->. destruct (recv_all_ok (zlen p) s) as (rest&E&R); auto.
  { rewrite Hs. unfold zlen. rewrite length_app. lia. }
  exists rest. rewrite E, R, Hs. unfold zlen. rewrite Nat2Z.id.
  by rewrite take_app_length, drop_app_length.
Qed.

Lemma recv_all_short n s :
  zlen (rx_bytes (rx s)) < n -> exists got s', recv_all n s = (-1, got, s')
    /\ ctx s' = ctx s /\ closed s' = closed s.
Proof.
  unfold recv_all. intros Hn. destruct (Z.ltb_spec (fd (ctx s)) 0).
  { destruct (Z.eqb_spec n 0); [unfold zlen in Hn; lia|]. eauto. }
  destruct (recv_loop_fail (rx s) (Z.to_nat n)) as (got&rest&E).
  { unfold zlen in Hn. lia. }
  rewrite E. eauto.
Qed.

(** A send that succeeds has sent everything, one that fails a prefix. *)
Lemma send_loop_spec evs p :
  let '(rc, out, _) := send_loop evs p in
  (rc = 0 /\ out = p) \/ (rc = -1 /\ out `prefix_of` p /\ out <> p).
Proof.
  revert p. induction evs as [|[n| |] evs IH]; intros [|b p]; simpl; auto.
  - destruct (Z.leb_spec n 0); simpl.
    { right. split_and!; auto. apply prefix_nil. }
    specialize (IH (drop (Z.to_nat n) (b :: p))).
    destruct (send_loop evs _) as [[rc out] rest]. simpl.
    destruct IH as [[-> ->]|(->&Hp&Hne)]; [left|right].
    + split; [done|]. apply take_drop.
    + split; [done|]. pose proof (take_drop (Z.to_nat n) (b :: p)) as E. split.
      * rewrite <- E at 2. by apply prefix_app.
      * rewrite <- E at 2. intros E'. by apply app_inv_head in E'.
  - apply (IH (b :: p)).
  - right. split_and!; auto. apply prefix_nil.
Qed.

(** ** Who closes the descriptor

    [fd_ok s s']: the descriptor is as before, or it was open and has been closed once. *)

Definition fd_ok (s s' : cst) : Prop :=
  (fd (ctx s') = fd (ctx s) /\ closed s' = closed s) \/
  (0 <= fd (ctx s) /\ fd (ctx s') = -1 /\ closed s' = fd (ctx s) :: closed s).

Definition keeps_fd {A} (m : st cst A) : Prop := forall s, fd_ok s (snd (m s)).

Lemma fd_ok_trans s1 s2 s3 : fd_ok s1 s2 -> fd_ok s2 s3 -> fd_ok s1 s3.
Proof.
  unfold fd_ok. intros [[-> ->]|(?&Hf&->)]; [auto|]. rewrite Hf. intros [[-> ->]|(?&?&?)]; [auto|lia].
Qed.

Lemma keeps_ret {A} (x : A) : keeps_fd (mret x).
Proof. by left. Qed.
Lemma keeps_bind {A B} (m : st cst A) (k : A -> st cst B) :
  keeps_fd m -> (forall x, keeps_fd (k x)) -> keeps_fd (m ≫= k).
Proof.
  intros Hm Hk s. rewrite st_bind_eq. specialize (Hm s). destruct (m s) as [x s'].
  eapply fd_ok_trans; [exact Hm|apply Hk].
Qed.
Lemma keeps_if {A} (b : bool) (m1 m2 : st cst A) :
  keeps_fd m1 -> keeps_fd m2 -> keeps_fd (if b then m1 else m2).
Proof. by destruct b. Qed.
Lemma keeps_pair {A B C} (p : A * B) (k : A -> B -> st cst C) :
  (forall x y, keeps_fd (k x y)) -> keeps_fd (let '(x, y) := p in k x y).
Proof. by destruct p. Qed.
Lemma keeps_recv n : keeps_fd (recv_all n).
Proof.
  intros s. unfold recv_all. destruct (_ <? _); [by left|].
  destruct (recv_loop _ _) as [[??]?]. by left.
Qed.
Lemma keeps_fail : keeps_fd fail.
Proof.
  intros s. unfold fail. rewrite st_bind_eq. simpl.
  destruct (Z.leb_spec 0 (fd (ctx s))); [right|left]; auto.
Qed.
Lemma keeps_event e : keeps_fd (set_event e).
Proof. by left. Qed.

Create HintDb fdown.
#[export] Hint Resolve keeps_ret keeps_recv keeps_fail keeps_event : fdown.
#[export] Hint Extern 1 (keeps_fd (_ ≫= _)) => apply keeps_bind; [|intros] : fdown.
#[export] Hint Extern 1 (keeps_fd (if _ then _ else _)) => apply keeps_if : fdown.
#[export] Hint Extern 1 (keeps_fd (let '(_, _) := _ in _)) => apply keeps_pair; intros : fdown.

Lemma keeps_header buf magic : keeps_fd (read_header buf magic).
Proof. unfold read_header. auto 30 with fdown. Qed.
Lemma keeps_drain fuel n : keeps_fd (drain_loop fuel n).
Proof. revert n. induction fuel; intros n; simpl; auto 10 with fdown. Qed.
#[export] Hint Resolve keeps_header keeps_drain : fdown.

Lemma keeps_read_iq h p n buf : keeps_fd (rtlsdr_stream_read_iq h p n buf).
Proof. unfold rtlsdr_stream_read_iq, drain. auto 30 with fdown. Qed.
Lemma keeps_read_fft h p n buf : keeps_fd (rtlsdr_stream_read_fft h p n buf).
Proof. unfold rtlsdr_stream_read_fft, drain. auto 30 with fdown. Qed.


(** ** Reading headers, events and payloads *)

Lemma open_with_rx s r : open s -> open (with_rx s r).
Proof. done. Qed.
#[export] Hint Resolve open_with_rx : fdown.

Definition closed_cst (s : cst) : cst :=
  mk_cst (mk_ctx (-1) (requested (ctx s)) (event (ctx s))) (rx s) (tx s) (sent s)
    (fd (ctx s) :: closed s).

Lemma fail_open s : open s -> fail s = (RTLSTREAM_ERROR, closed_cst s).
Proof.
  unfold open, fail. intros Ho. rewrite st_bind_eq. cbv [st_get]. cbv beta iota.
  by destruct (Z.leb_spec 0 (fd (ctx s))); [|lia].
Qed.

Lemma header_data s buf0 h q :
  open s -> zlen buf0 = 32 -> hdr_ok h -> hdr_magic h <> RTLSTREAM_MAGIC_EVT ->
  rx_bytes (rx s) = hdr_wire h ++ q ->
  exists rest, read_header buf0 (hdr_magic h) s = (RTLSTREAM_READ_OK, hdr_wire h, with_rx s rest)
    /\ rx_bytes rest = q.
Proof.
  intros Ho Hb Hh Hm Hs. unfold hdr_wire in Hs. rewrite <- app_assoc in Hs.
  destruct (recv_all_app _ _ _ 4 Ho Hs eq_refl) as (r1&E1&R1).
  unfold read_header. rewrite st_bind_eq, E1. cbv beta iota.
  change (0 <? 0) with false. cbv iota.
  assert (Hg : get32 (blit buf0 0 (be32 (hdr_magic h))) 0 = hdr_magic h).
  { rewrite blit_0 by (rewrite zlen_be32; lia). apply (get32_app []); [done|apply Hh]. }
  rewrite Hg. destruct (Z.eqb_spec (hdr_magic h) RTLSTREAM_MAGIC_EVT); [done|].
  rewrite Z.eqb_refl. cbn [negb andb orb]. cbv iota.
  destruct (recv_all_app _ _ (with_rx s r1) 28 Ho R1) as (r2&E2&R2).
  { unfold zlen. rewrite !length_app. done. }
  rewrite st_bind_eq, E2. change (0 <? 0) with false. cbv beta iota.
  exists r2. split; [|done]. rewrite st_ret_eq. unfold with_rx. simpl. do 2 f_equal.
  rewrite blit_blit by (lia || done). rewrite blit_0.
  2: { unfold zlen. rewrite !length_app. simpl. unfold zlen in Hb. lia. }
  rewrite drop_ge, app_nil_r; [done|]. rewrite !length_app. simpl. unfold zlen in Hb. lia.
Qed.

Lemma header_event s buf0 magic type freq q :
  open s -> zlen buf0 = 32 -> is_u 64 freq ->
  type = RTLSTREAM_EVT_FREQ_CHANGE \/ type = RTLSTREAM_EVT_STREAM_END ->
  rx_bytes (rx s) = evt_wire type freq ++ q ->
  exists rest buf', rx_bytes rest = q /\
    read_header buf0 magic s =
    (RTLSTREAM_READ_EVENT, buf',
     if type =? RTLSTREAM_EVT_FREQ_CHANGE
     then mk_cst (mk_ctx (fd (ctx s)) (requested (ctx s)) (mk_event type freq)) rest
            (tx s) (sent s) (closed s)
     else mk_cst (mk_ctx (-1) (requested (ctx s)) (mk_event type 0)) rest
            (tx s) (sent s) (fd (ctx s) :: closed s)).
Proof.
  intros Ho Hb Hf Ht Hs. unfold evt_wire in Hs. rewrite <- !app_assoc in Hs.
  destruct (recv_all_app _ _ _ 4 Ho Hs eq_refl) as (r1&E1&R1).
  unfold read_header. rewrite st_bind_eq, E1. cbv beta iota. change (0 <? 0) with false. cbv iota.
  rewrite blit_0 by (rewrite zlen_be32; lia).
  rewrite get32_head by done. rewrite Z.eqb_refl.
  destruct (recv_all_app _ _ (with_rx s r1) 4 Ho R1 eq_refl) as (r2&E2&R2).
  rewrite st_bind_eq, E2. change (0 <? 0) with false. cbv beta iota.
  set (buf2 := blit _ 4 _).
  assert (Hb2 : buf2 = be32 RTLSTREAM_MAGIC_EVT ++ be32 type ++ drop 8 buf0).
  { unfold buf2. rewrite <- blit_0 by (rewrite zlen_be32; lia).
    rewrite blit_blit, blit_0 by (done || lia || (unfold zlen in *; simpl; lia)).
    by rewrite <- app_assoc. }
  assert (Hl2 : zlen buf2 = 32) by (unfold buf2; rewrite zlen_blit, <- Hb; unfold zlen;
    rewrite length_app, length_drop; unfold zlen in Hb; simpl; lia).
  assert (Hg : get32 buf2 4 = type).
  { rewrite Hb2. apply (get32_app (be32 _)); [done|]. by destruct Ht as [-> | ->]. }
  clearbody buf2. rewrite Hg. destruct Ht as [-> | ->].
  - change (negb (RTLSTREAM_EVT_FREQ_CHANGE =? RTLSTREAM_EVT_FREQ_CHANGE)) with false.
    change (RTLSTREAM_EVT_FREQ_CHANGE =? RTLSTREAM_EVT_FREQ_CHANGE) with true in *.
    cbn [andb]. cbv iota in *. rewrite st_bind_eq. cbv [set_event st_mod]. cbv beta iota.
    set (s2 := set_ctx _ _).
    destruct (recv_all_app (be64 freq) q s2 8 Ho R2 eq_refl) as (r3&E3&R3).
    rewrite st_bind_eq, E3. change (0 <? 0) with false. cbv beta iota.
    assert (Hv : get64 (blit buf2 8 (be64 freq)) 8 = freq).
    { rewrite blit_eq by (rewrite ?zlen_be64, ?Hl2; lia).
      apply get64_app; [|done]. unfold zlen in *. rewrite length_take. lia. }
    rewrite Hv. by eexists r3, _.
  - change (negb (RTLSTREAM_EVT_STREAM_END =? RTLSTREAM_EVT_FREQ_CHANGE)
            && negb (RTLSTREAM_EVT_STREAM_END =? RTLSTREAM_EVT_STREAM_END)) with false.
    change (RTLSTREAM_EVT_STREAM_END =? RTLSTREAM_EVT_FREQ_CHANGE) with false in *. cbv iota in *.
    eexists r2, buf2. split; [done|]. rewrite st_bind_eq. cbv [set_event st_mod]. cbv beta iota.
    by rewrite st_bind_eq, fail_open.
Qed.

Lemma drain_ok fuel s p q :
  open s -> (length p <= fuel)%nat -> rx_bytes (rx s) = p ++ q ->
  exists rest, drain_loop fuel (zlen p) s = (RTLSTREAM_ERROR_CAPACITY, with_rx s rest)
    /\ rx_bytes rest = q.
Proof.
  revert s p. induction fuel as [|fuel IH]; intros s p Ho Hl Hs.
  { destruct p; [|simpl in Hl; lia]. exists (rx s). by destruct s. }
  simpl. destruct (Z.eqb_spec (zlen p) 0) as [Hz|Hz].
  { destruct p; [|unfold zlen in Hz; simpl in Hz; lia]. exists (rx s). by destruct s. }
  set (n := if zlen p <? 1024 then zlen p else 1024).
  assert (Hn : 0 < n <= zlen p) by (unfold n, zlen in *; ztests).
  rewrite <- (take_drop (Z.to_nat n) p), <- app_assoc in Hs.
  destruct (recv_all_app _ _ s n Ho Hs) as (r1&E1&R1).
  { unfold zlen in *. rewrite length_take. lia. }
  rewrite st_bind_eq, E1. change (0 <? 0) with false. cbv beta iota.
  replace (zlen p - n) with (zlen (drop (Z.to_nat n) p))
    by (unfold zlen in *; rewrite length_drop; lia).
  destruct (IH (with_rx s r1) (drop (Z.to_nat n) p)) as (rest&E&R); auto.
  { rewrite length_drop. unfold zlen in *. lia. }
  exists rest. by rewrite E.
Qed.

(** ** Payload conversion *)

Lemma fmap_seqZ_ext {A} (f : Z -> A) (l : list A) :
  (forall i x, l !! i = Some x -> f (Z.of_nat i) = x) -> f <$> seqZ 0 (zlen l) = l.
Proof.
  intros Hf. apply list_eq. intros i. rewrite list_lookup_fmap. unfold zlen.
  destruct (l !! i) as [x|] eqn:E.
  - pose proof (lookup_lt_Some _ _ _ E). rewrite lookup_seqZ_lt by lia. simpl. f_equal.
    rewrite Z.add_0_l. by apply Hf.
  - apply lookup_ge_None_1 in E. rewrite lookup_seqZ_ge by lia. done.
Qed.

Lemma bind_split {A B} (f : A -> list B) (l : list A) i x :
  l !! i = Some x -> l ≫= f = (take i l ≫= f) ++ f x ++ (drop (S i) l ≫= f).
Proof. intros E. rewrite <- (take_drop_middle _ _ _ E) at 1. by rewrite bind_app. Qed.

Lemma iq_samples_wire xs : Forall (is_s 16) xs -> iq_sample (iq_wire xs) <$> seqZ 0 (zlen xs) = xs.
Proof.
  intros Hx. apply fmap_seqZ_ext. intros i x E.
  assert (Hi : is_s 16 x) by (by eapply (Forall_lookup_1 _ _ _ _ Hx)).
  pose proof (lookup_lt_Some _ _ _ E).
  assert (Hv : (rd (iq_wire xs) (2 * Z.of_nat i) <<' 8) |' rd (iq_wire xs) (2 * Z.of_nat i + 1)
               = u16 x).
  { unfold iq_wire. rewrite (bind_split _ _ _ _ E). fold (iq_wire (take i xs)).
    assert (Hl : zlen (iq_wire (take i xs)) = 2 * Z.of_nat i)
      by (rewrite zlen_iq_wire; unfold zlen; rewrite length_take; lia).
    rewrite <- (Z.add_0_r (2 * Z.of_nat i)) at 1.
    rewrite !(rd_app_r _ _ (2 * Z.of_nat i)) by (done || lia). unfold be16, rd. simpl.
    rewrite lor_shiftl_add by (try apply u8_range; lia).
    pose proof (u16_range x) as Hu. revert Hu. rewrite shiftr_div by lia.
    generalize (u16 x). intros. cdlia. }
  unfold iq_sample. rewrite Hv.
  assert (Hs : (if u16 x <? 32768 then u16 x else u16 x - 65536) = x).
  { assert (u16 x = x \/ u16 x = x + 65536) by cdlia. unfold is_s in Hi.
    pose proof (u16_range x) as Hu. unfold is_u in Hu. ztests. }
  rewrite Hs. by apply s16_id.
Qed.

Lemma fft_values_wire xs :
  Forall (is_u 32) xs -> (fun i => get32 (fft_wire xs) (4 * i)) <$> seqZ 0 (zlen xs) = xs.
Proof.
  intros Hx. apply fmap_seqZ_ext. intros i x E.
  assert (Hi : is_u 32 x) by (by eapply (Forall_lookup_1 _ _ _ _ Hx)).
  pose proof (lookup_lt_Some _ _ _ E).
  unfold fft_wire. rewrite (bind_split _ _ _ _ E). fold (fft_wire (take i xs)).
  apply get32_app; [|done]. rewrite zlen_fft_wire. unfold zlen. rewrite length_take. lia.
Qed.


(** ** Errors close the connection

    [err_closes f m]: when the result [f] reads off [m] is [RTLSTREAM_ERROR], the
    descriptor is closed. *)

Definition err_closes {A} (f : A -> Z) (m : st cst A) : Prop :=
  forall s, f (fst (m s)) = RTLSTREAM_ERROR -> fd (ctx (snd (m s))) < 0.

Lemma err_ret {A} (f : A -> Z) x : f x <> RTLSTREAM_ERROR -> err_closes f (mret x).
Proof. intros H s E. by destruct H. Qed.
Lemma err_bind {A B} (f : B -> Z) (m : st cst A) (k : A -> st cst B) :
  (forall x, err_closes f (k x)) -> err_closes f (m ≫= k).
Proof. intros H s. rewrite st_bind_eq. destruct (m s) as [x s']. apply H. Qed.
Lemma fail_closes s : fd (ctx (snd (fail s))) < 0.
Proof.
  unfold fail. rewrite st_bind_eq. cbv [st_get]. cbv beta iota.
  destruct (Z.leb_spec 0 (fd (ctx s))); [|done]. rewrite st_bind_eq. simpl. lia.
Qed.
Lemma err_fail_ret {A} (f : A -> Z) (g : Z -> A) : err_closes f (r ← fail; mret (g r)).
Proof.
  intros s _. rewrite st_bind_eq. pose proof (fail_closes s). by destruct (fail s).
Qed.
Lemma err_fail f : err_closes f fail.
Proof. intros s _. apply fail_closes. Qed.
Lemma err_if {A} (f : A -> Z) (b : bool) (m1 m2 : st cst A) :
  err_closes f m1 -> err_closes f m2 -> err_closes f (if b then m1 else m2).
Proof. by destruct b. Qed.
Lemma err_pair {A B C} (f : C -> Z) (p : A * B) (k : A -> B -> st cst C) :
  (forall x y, err_closes f (k x y)) -> err_closes f (let '(x, y) := p in k x y).
Proof. by destruct p. Qed.

Create HintDb errdb.
#[export] Hint Resolve err_fail_ret err_fail : errdb.
#[export] Hint Extern 3 (err_closes _ (_ ≫= _)) => apply err_bind; intros : errdb.
#[export] Hint Extern 1 (err_closes _ (if _ then _ else _)) => apply err_if : errdb.
#[export] Hint Extern 1 (err_closes _ (let '(_, _) := _ in _)) => apply err_pair; intros : errdb.
#[export] Hint Extern 2 (err_closes _ (mret _)) => apply err_ret; done : errdb.

Lemma err_header buf magic : err_closes fst (read_header buf magic).
Proof. unfold read_header. auto 40 with errdb. Qed.
Lemma err_drain fuel n : err_closes id (drain_loop fuel n).
Proof. revert n. induction fuel; intros n; simpl; auto 10 with errdb. Qed.

(** A read that fails after its arguments were accepted. *)
Lemma err_drain_ret {A} (f : A -> Z) (g : Z -> A) fuel n :
  (forall r, f (g r) = r) -> err_closes f (r ← drain_loop fuel n; mret (g r)).
Proof.
  intros Hg s. rewrite st_bind_eq. pose proof (err_drain fuel n s) as H.
  destruct (drain_loop fuel n s) as [r s']. rewrite st_ret_eq. simpl. by rewrite Hg.
Qed.

Lemma err_header_bind {A} (f : A -> Z) (g : Z -> A) buf magic (k : list Z -> st cst A) :
  (forall r, f (g r) = r) -> (forall b, err_closes f (k b)) ->
  err_closes f ('(result, b) ← read_header buf magic;
                if negb (result =? RTLSTREAM_READ_OK) then mret (g result) else k b).
Proof.
  intros Hg Hk s. rewrite st_bind_eq. pose proof (err_header buf magic s) as H.
  destruct (read_header buf magic s) as [[r b] s']. simpl in H.
  destruct (negb _); [|apply Hk]. rewrite st_ret_eq. simpl. by rewrite Hg.
Qed.

Lemma err_read_iq h p n buf :
  0 <= n -> p <> None -> err_closes out_result (rtlsdr_stream_read_iq h p n buf).
Proof.
  intros Hn Hp. unfold rtlsdr_stream_read_iq, drain.
  destruct (Z.ltb_spec n 0); [lia|]. rewrite bool_decide_false by done. cbn [andb orb].
  apply (err_header_bind _ (fun r => mk_out r h p)); [done|]. intros b.
  pose proof (fun fuel m => err_drain_ret out_result (fun r => mk_out r (hdr_of b) p) fuel m
                (fun _ => eq_refl)). cbv zeta. auto 10 with errdb.
Qed.
Lemma err_read_fft h p n buf :
  0 <= n -> p <> None -> err_closes out_result (rtlsdr_stream_read_fft h p n buf).
Proof.
  intros Hn Hp. unfold rtlsdr_stream_read_fft, drain.
  destruct (Z.ltb_spec n 0); [lia|]. rewrite bool_decide_false by done. cbn [andb orb].
  apply (err_header_bind _ (fun r => mk_out r h p)); [done|]. intros b.
  pose proof (fun fuel m => err_drain_ret out_result (fun r => mk_out r (hdr_of b) p) fuel m
                (fun _ => eq_refl)). cbv zeta. auto 10 with errdb.
Qed.

(** What the server's encoders can produce. *)
Lemma iq_encoded h xs b1 b2 :
  hdr_count h = zlen xs ->
  rtlsdr_stream_encode_iq_hdr (Some (replicate 32 0)) (Some h) = (32, Some b1) ->
  rtlsdr_stream_encode_iq_payload (Some (replicate (2 * length xs) 0)) (2 * zlen xs)
    (Some xs) (zlen xs) = (0, Some b2) ->
  hdr_magic h = RTLSTREAM_MAGIC_IQ /\ zlen xs <= RTLSTREAM_MAX_IQ_COMPONENTS /\
  Z.even (zlen xs) = true /\ b1 = hdr_wire h /\ b2 = iq_wire xs.
Proof.
  intros Hc E1 E2. unfold rtlsdr_stream_encode_iq_hdr in E1.
  rewrite put_hdr_blit, blit_0, Hc, (Z.land_ones _ 1), Zmod_even in E1 by done.
  destruct (_ || _) eqn:G; [done|]. injection E1 as <-.
  rewrite !orb_false_iff, negb_false_iff, Z.eqb_eq, Z.ltb_ge in G. destruct G as [[? ?] G].
  unfold rtlsdr_stream_encode_iq_payload in E2. rewrite !bool_decide_false in E2 by done.
  destruct (_ || _) eqn:G2; [done|]. injection E2 as <-.
  rewrite iq_loop_blit by (unfold zlen; lia).
  rewrite take_ge by (unfold zlen; lia).
  rewrite blit_0 by (rewrite zlen_iq_wire; unfold zlen; rewrite length_replicate; lia).
  assert (length (iq_wire xs) = 2 * length xs)%nat as E
    by (pose proof (zlen_iq_wire xs); unfold zlen in *; lia).
  rewrite E, drop_ge, app_nil_r by (rewrite length_replicate; lia).
  split_and!; auto. by destruct (Z.even (zlen xs)).
Qed.

Lemma fft_encoded h xs b1 b2 :
  hdr_count h = zlen xs ->
  rtlsdr_stream_encode_fft_hdr (Some (replicate 32 0)) (Some h) = (32, Some b1) ->
  rtlsdr_stream_encode_fft_payload (Some (replicate (4 * length xs) 0)) (4 * zlen xs)
    (Some xs) (zlen xs) = (0, Some b2) ->
  hdr_magic h = RTLSTREAM_MAGIC_FFT /\ 2 <= zlen xs <= RTLSTREAM_MAX_FFT_BINS /\
  b1 = hdr_wire h /\ b2 = fft_wire xs.
Proof.
  intros Hc E1 E2. unfold rtlsdr_stream_encode_fft_hdr in E1.
  rewrite put_hdr_blit, blit_0, Hc in E1 by done.
  destruct (_ || _) eqn:G; [done|]. injection E1 as <-.
  rewrite !orb_false_iff, negb_false_iff, Z.eqb_eq, !Z.ltb_ge in G. destruct G as [[? ?] ?].
  unfold rtlsdr_stream_encode_fft_payload in E2.
  destruct (_ || _) eqn:G2; [done|]. injection E2 as <-.
  rewrite fft_loop_blit by (unfold zlen; lia).
  rewrite take_ge by (unfold zlen; lia).
  rewrite blit_0 by (rewrite zlen_fft_wire; unfold zlen; rewrite length_replicate; lia).
  assert (length (fft_wire xs) = 4 * length xs)%nat as E
    by (pose proof (zlen_fft_wire xs); unfold zlen in *; lia).
  by rewrite E, drop_ge, app_nil_r by (rewrite length_replicate; lia).
Qed.

Lemma evt_encoded type freq n b :
  rtlsdr_stream_encode_evt (Some (replicate 16 0)) type freq = (n, Some b) -> 0 < n ->
  (type = RTLSTREAM_EVT_FREQ_CHANGE \/ type = RTLSTREAM_EVT_STREAM_END) /\
  take (Z.to_nat n) b = evt_wire type freq.
Proof.
  unfold rtlsdr_stream_encode_evt. rewrite put64_blit, !put32_blit by lia.
  rewrite !blit_blit by (lia || done). rewrite !blit_0 by done.
  destruct (Z.eqb_spec type RTLSTREAM_EVT_FREQ_CHANGE) as [->|]; cbn [negb andb].
  { intros [= <- <-] _. split; [by left|]. done. }
  destruct (Z.eqb_spec type RTLSTREAM_EVT_STREAM_END) as [->|]; cbn [negb].
  { intros [= <- <-] _. split; [by right|]. done. }
  intros [= <- <-]. lia.
Qed.

End ClientFacts.

(** ** Properties *)

Module ClientProps.
Import Proto Wire ProtoFacts Client ClientFacts.

(** C16.  The client reads what the server encodes.  Take any header and samples the
    server's encoders accept (their outputs [b1] and [b2]); if these bytes are the next ones
    on the connection, in any segmentation and with any number of interrupted calls, then
    [rtlsdr_stream_read_iq] with enough room returns [READ_OK] with the same header and the
    same samples, touches nothing behind them, keeps the connection open and leaves the
    stream exactly at the next frame. *)
Theorem client_reads_iq_frame s hdr0 dst max buf0 h xs b1 b2 rest :
  open s -> zlen buf0 = 32 -> hdr_ok h -> hdr_count h = zlen xs -> Forall (is_s 16) xs ->
  rtlsdr_stream_encode_iq_hdr (Some (replicate 32 0)) (Some h) = (32, Some b1) ->
  rtlsdr_stream_encode_iq_payload (Some (replicate (2 * length xs) 0)) (2 * zlen xs)
    (Some xs) (zlen xs) = (0, Some b2) ->
  rx_bytes (rx s) = b1 ++ b2 ++ rest ->
  zlen xs <= max <= INT_MAX ->
  exists rx', rx_bytes rx' = rest /\
    rtlsdr_stream_read_iq hdr0 (Some dst) max buf0 s
    = (mk_out RTLSTREAM_READ_OK h (Some (xs ++ drop (length xs) dst)), with_rx s rx').
Proof.
  intros Ho Hb Hh Hc Hx E1 E2 Hs Hm.
  destruct (iq_encoded h xs b1 b2 Hc E1 E2) as (Hmag & Hmax & Heven & -> & ->).
  destruct (header_data s buf0 h (iq_wire xs ++ rest)) as (r1&F1&R1); auto.
  { by rewrite Hmag. }
  unfold rtlsdr_stream_read_iq. rewrite bool_decide_false by done. cbn [andb]. rewrite orb_false_r.
  unfold zlen in Hm. destruct (Z.ltb_spec max 0); [lia|].
  rewrite st_bind_eq, <- Hmag, F1. cbv beta iota zeta. cbn [negb Z.eqb].
  rewrite <- (app_nil_r (hdr_wire h)). unfold hdr_of. rewrite hdr_fields by done.
  rewrite (Z.land_ones _ 1), Zmod_even, Hc by lia. rewrite Heven.
  destruct (Z.ltb_spec RTLSTREAM_MAX_IQ_COMPONENTS (zlen xs)); [lia|]. cbn [negb orb Z.eqb].
  rewrite u32_id by (unfold zlen in *; clia).
  unfold zlen. destruct (Z.ltb_spec max (Z.of_nat (length xs))); [lia|]. fold (zlen xs).
  destruct (recv_all_app (iq_wire xs) rest (with_rx s r1) (zlen xs * 2)) as (r2&F2&R2); auto.
  { rewrite zlen_iq_wire. lia. }
  rewrite st_bind_eq, F2. change (0 <? 0) with false. cbv beta iota. exists r2. split; [done|].
  rewrite st_ret_eq. simpl. rewrite iq_samples_wire by done. unfold zlen. by rewrite Nat2Z.id.
Qed.


(** A client with descriptor 5 and the given segmentation of its incoming stream. *)
Definition demo_client (evs : list rx_event) (txs : list tx_event) : cst :=
  mk_cst (mk_ctx 5 false (mk_event 0 0)) evs txs [] [].

(** A frame of two samples, cut inside the magic and inside a sample, with a byte of the
    next frame behind it. *)
Definition demo_iq_stream : list rx_event :=
  [RxIntr; RxData [0x52; 0x54]; RxData ([0x32; 0x49] ++ replicate 27 0 ++ [2; 0xff]); RxIntr;
   RxData [0xfe; 1; 2; 99]].

Lemma client_reads_iq_frame_witness :
  exists rx', rx_bytes rx' = [99] /\
    rtlsdr_stream_read_iq (mk_hdr 0 0 0 0 0) (Some [0; 0; 0]) 3 (replicate 32 7)
      (demo_client demo_iq_stream [])
    = (mk_out RTLSTREAM_READ_OK (mk_hdr RTLSTREAM_MAGIC_IQ 0 0 0 2) (Some [-2; 258; 0]),
       with_rx (demo_client demo_iq_stream []) rx').
Proof.
  eapply (client_reads_iq_frame _ _ [0; 0; 0] 3 _ (mk_hdr RTLSTREAM_MAGIC_IQ 0 0 0 2) [-2; 258]).
  - vm_compute. congruence.
  - reflexivity.
  - unfold hdr_ok. vm_compute. repeat split; congruence.
  - reflexivity.
  - repeat constructor; vm_compute; congruence.
  - reflexivity.
  - reflexivity.
  - reflexivity.
  - vm_compute. split; congruence.
Defined.

(** The same for spectra: the bins the server encodes (as IEEE-754 bit patterns) are
    the bins [rtlsdr_stream_read_fft] delivers, for every segmentation of the stream. *)
Theorem client_reads_fft_frame s hdr0 dst max buf0 h xs b1 b2 rest :
  open s -> zlen buf0 = 32 -> hdr_ok h -> hdr_count h = zlen xs -> Forall (is_u 32) xs ->
  rtlsdr_stream_encode_fft_hdr (Some (replicate 32 0)) (Some h) = (32, Some b1) ->
  rtlsdr_stream_encode_fft_payload (Some (replicate (4 * length xs) 0)) (4 * zlen xs)
    (Some xs) (zlen xs) = (0, Some b2) ->
  rx_bytes (rx s) = b1 ++ b2 ++ rest ->
  zlen xs <= max <= INT_MAX ->
  exists rx', rx_bytes rx' = rest /\
    rtlsdr_stream_read_fft hdr0 (Some dst) max buf0 s
    = (mk_out RTLSTREAM_READ_OK h (Some (xs ++ drop (length xs) dst)), with_rx s rx').
Proof.
  intros Ho Hb Hh Hc Hx E1 E2 Hs Hm.
  destruct (fft_encoded h xs b1 b2 Hc E1 E2) as (Hmag & Hmax & -> & ->).
  destruct (header_data s buf0 h (fft_wire xs ++ rest)) as (r1&F1&R1); auto.
  { by rewrite Hmag. }
  unfold rtlsdr_stream_read_fft. rewrite bool_decide_false by done. cbn [andb]. rewrite orb_false_r.
  unfold zlen in Hm. destruct (Z.ltb_spec max 0); [lia|].
  rewrite st_bind_eq, <- Hmag, F1. cbv beta iota zeta. cbn [negb Z.eqb].
  rewrite <- (app_nil_r (hdr_wire h)). unfold hdr_of. rewrite hdr_fields by done.
  rewrite Hc. destruct (Z.ltb_spec (zlen xs) 2); [lia|].
  destruct (Z.ltb_spec RTLSTREAM_MAX_FFT_BINS (zlen xs)); [lia|]. cbn [orb].
  rewrite u32_id by (unfold zlen in *; clia).
  unfold zlen. destruct (Z.ltb_spec max (Z.of_nat (length xs))); [lia|]. fold (zlen xs).
  destruct (recv_all_app (fft_wire xs) rest (with_rx s r1) (zlen xs * 4)) as (r2&F2&R2); auto.
  { rewrite zlen_fft_wire. lia. }
  rewrite st_bind_eq, F2. change (0 <? 0) with false. cbv beta iota. exists r2. split; [done|].
  rewrite st_ret_eq. cbn [fmap option_fmap option_map]. rewrite fft_values_wire by done.
  unfold zlen. by rewrite Nat2Z.id.
Qed.

Lemma client_reads_fft_frame_witness :
  exists rx', rx_bytes rx' = [] /\
    rtlsdr_stream_read_fft (mk_hdr 0 0 0 0 0) (Some [0; 0]) 2 (replicate 32 7)
      (demo_client [RxData ([0x52; 0x54; 0x32; 0x46] ++ replicate 27 0 ++ [2; 0x3f; 0x80; 0]);
                    RxData [0; 0xc0]; RxData [0; 0; 0]] [])
    = (mk_out RTLSTREAM_READ_OK (mk_hdr RTLSTREAM_MAGIC_FFT 0 0 0 2)
         (Some [0x3f800000; 0xc0000000]),
       with_rx (demo_client [RxData ([0x52; 0x54; 0x32; 0x46] ++ replicate 27 0 ++ [2; 0x3f; 0x80; 0]);
                    RxData [0; 0xc0]; RxData [0; 0; 0]] []) rx').
Proof.
  eapply (client_reads_fft_frame _ _ [0; 0] 2 _ (mk_hdr RTLSTREAM_MAGIC_FFT 0 0 0 2)
            [0x3f800000; 0xc0000000]).
  - vm_compute. congruence.
  - reflexivity.
  - unfold hdr_ok. vm_compute. repeat split; congruence.
  - reflexivity.
  - repeat constructor; vm_compute; congruence.
  - reflexivity.
  - reflexivity.
  - reflexivity.
  - vm_compute. split; congruence.
Defined.

(** A legal frame that is larger than the caller's buffer is skipped whole: the
    result is [ERROR_CAPACITY], the payload buffer is untouched, the connection stays open
    and the next read starts at the next frame. *)
Theorem client_drains_oversized s hdr0 dst max buf0 h p rest :
  open s -> zlen buf0 = 32 -> hdr_ok h -> 0 <= max < hdr_count h ->
  rx_bytes (rx s) = hdr_wire h ++ p ++ rest ->
  (hdr_magic h = RTLSTREAM_MAGIC_IQ -> Z.even (hdr_count h) = true ->
   hdr_count h <= RTLSTREAM_MAX_IQ_COMPONENTS -> zlen p = 2 * hdr_count h ->
   exists rx', rx_bytes rx' = rest /\
     rtlsdr_stream_read_iq hdr0 (Some dst) max buf0 s
     = (mk_out RTLSTREAM_ERROR_CAPACITY h (Some dst), with_rx s rx')) /\
  (hdr_magic h = RTLSTREAM_MAGIC_FFT ->
   2 <= hdr_count h <= RTLSTREAM_MAX_FFT_BINS -> zlen p = 4 * hdr_count h ->
   exists rx', rx_bytes rx' = rest /\
     rtlsdr_stream_read_fft hdr0 (Some dst) max buf0 s
     = (mk_out RTLSTREAM_ERROR_CAPACITY h (Some dst), with_rx s rx')).
Proof.
  intros Ho Hb Hh Hm Hs.
  assert (Hu : u32 max = max) by (apply u32_id; destruct Hh as (_&_&_&_&?); clia).
  split.
  - intros Hmag Hev Hmax Hp.
    destruct (header_data s buf0 h (p ++ rest)) as (r1&F1&R1); auto; [by rewrite Hmag|].
    destruct (drain_ok (Z.to_nat (zlen p)) (with_rx s r1) p rest) as (r2&F2&R2); auto.
    { unfold zlen. lia. }
    unfold rtlsdr_stream_read_iq. rewrite bool_decide_false by done. cbn [andb]. rewrite orb_false_r.
    destruct (Z.ltb_spec max 0); [lia|].
    rewrite st_bind_eq, <- Hmag, F1. cbv beta iota zeta. cbn [negb Z.eqb].
    rewrite <- (app_nil_r (hdr_wire h)). unfold hdr_of. rewrite hdr_fields by done.
    rewrite (Z.land_ones _ 1), Zmod_even, Hev, Hu by lia. cbn [negb Z.eqb].
    destruct (Z.ltb_spec RTLSTREAM_MAX_IQ_COMPONENTS (hdr_count h)); [lia|]. cbn [orb].
    destruct (Z.ltb_spec max (hdr_count h)); [|lia].
    unfold drain. rewrite st_bind_eq, (Z.mul_comm _ 2), <- Hp, F2. by exists r2.
  - intros Hmag Hmax Hp.
    destruct (header_data s buf0 h (p ++ rest)) as (r1&F1&R1); auto; [by rewrite Hmag|].
    destruct (drain_ok (Z.to_nat (zlen p)) (with_rx s r1) p rest) as (r2&F2&R2); auto.
    { unfold zlen. lia. }
    unfold rtlsdr_stream_read_fft. rewrite bool_decide_false by done. cbn [andb]. rewrite orb_false_r.
    destruct (Z.ltb_spec max 0); [lia|].
    rewrite st_bind_eq, <- Hmag, F1. cbv beta iota zeta. cbn [negb Z.eqb].
    rewrite <- (app_nil_r (hdr_wire h)). unfold hdr_of. rewrite hdr_fields, Hu by done.
    destruct (Z.ltb_spec (hdr_count h) 2); [lia|].
    destruct (Z.ltb_spec RTLSTREAM_MAX_FFT_BINS (hdr_count h)); [lia|]. cbn [orb].
    destruct (Z.ltb_spec max (hdr_count h)); [|lia].
    unfold drain. rewrite st_bind_eq, (Z.mul_comm _ 4), <- Hp, F2. by exists r2.
Qed.

Lemma client_drains_oversized_witness :
  exists rx', rx_bytes rx' = [99] /\
    rtlsdr_stream_read_iq (mk_hdr 0 0 0 0 0) (Some [0]) 1 (replicate 32 7)
      (demo_client demo_iq_stream [])
    = (mk_out RTLSTREAM_ERROR_CAPACITY (mk_hdr RTLSTREAM_MAGIC_IQ 0 0 0 2) (Some [0]),
       with_rx (demo_client demo_iq_stream []) rx').
Proof.
  apply (client_drains_oversized (demo_client demo_iq_stream []) (mk_hdr 0 0 0 0 0) [0] 1
           (replicate 32 7) (mk_hdr RTLSTREAM_MAGIC_IQ 0 0 0 2) [0xff; 0xfe; 1; 2] [99]);
    try reflexivity; try (vm_compute; congruence).
  - unfold hdr_ok. vm_compute. repeat split; congruence.
  - vm_compute. split; congruence.
Defined.

(** Events: a frequency change is reported with its frequency on an open
    connection, the end of the stream closes the connection once; both leave the caller's
    header and payload untouched. *)
Theorem client_reads_event s hdr0 dst max buf0 type freq n b q :
  open s -> zlen buf0 = 32 -> is_u 64 freq -> 0 <= max ->
  rtlsdr_stream_encode_evt (Some (replicate 16 0)) type freq = (n, Some b) -> 0 < n ->
  rx_bytes (rx s) = take (Z.to_nat n) b ++ q ->
  exists s', rtlsdr_stream_read_iq hdr0 (Some dst) max buf0 s
      = (mk_out RTLSTREAM_READ_EVENT hdr0 (Some dst), s') /\
    rx_bytes (rx s') = q /\ ev_type (event (ctx s')) = type /\
    (type = RTLSTREAM_EVT_FREQ_CHANGE ->
       ev_freq (event (ctx s')) = freq /\ fd (ctx s') = fd (ctx s) /\ closed s' = closed s) /\
    (type = RTLSTREAM_EVT_STREAM_END ->
       fd (ctx s') = -1 /\ closed s' = fd (ctx s) :: closed s).
Proof.
  intros Ho Hb Hf Hm He Hn Hs. destruct (evt_encoded _ _ _ _ He Hn) as [Ht Hw].
  rewrite Hw in Hs.
  destruct (header_event s buf0 RTLSTREAM_MAGIC_IQ type freq q) as (r&b'&R&E); auto.
  unfold rtlsdr_stream_read_iq. rewrite bool_decide_false by done. cbn [andb]. rewrite orb_false_r.
  destruct (Z.ltb_spec max 0); [lia|]. rewrite st_bind_eq, E. cbv beta iota zeta.
  change (negb (RTLSTREAM_READ_EVENT =? RTLSTREAM_READ_OK)) with true. cbv iota.
  eexists. split; [done|]. destruct Ht as [-> | ->]; simpl; split_and!; done.
Qed.

Lemma client_reads_event_witness :
  exists s', rtlsdr_stream_read_iq (mk_hdr 0 0 0 0 0) (Some []) 0 (replicate 32 7)
      (demo_client [RxData [0x52; 0x54; 0x32; 0x45; 0; 0; 0; 2]] [])
      = (mk_out RTLSTREAM_READ_EVENT (mk_hdr 0 0 0 0 0) (Some []), s') /\
    fd (ctx s') = -1 /\ closed s' = [5].
Proof.
  destruct (client_reads_event
    (demo_client [RxData [0x52; 0x54; 0x32; 0x45; 0; 0; 0; 2]] []) (mk_hdr 0 0 0 0 0) [] 0
    (replicate 32 7) RTLSTREAM_EVT_STREAM_END 0 8
    ([0x52; 0x54; 0x32; 0x45; 0; 0; 0; 2] ++ replicate 8 0) []) as (s'&E&_&_&_&H).
  - vm_compute. congruence.
  - reflexivity.
  - vm_compute. split; congruence.
  - vm_compute. congruence.
  - vm_compute. reflexivity.
  - reflexivity.
  - reflexivity.
  - exists s'. split; [exact E|]. apply H. reflexivity.
Defined.

(** A request: with valid parameters on a fresh connection, a returned 0 means that
    exactly the 29 bytes of the request are on the wire and the server's decoder accepts
    them as that request; a failed send closes the connection; a second request on the
    same connection is refused without sending anything, whatever the first one did. *)
Theorem client_request_server s freq rate bw mode r0 rc s' :
  open s -> requested (ctx s) = false ->
  is_u 64 freq -> is_u 64 rate -> is_u 64 bw ->
  (mode = RTLSTREAM_MODE_IQ \/ mode = RTLSTREAM_MODE_FFT /\ freq = 0 /\ rate = 0 /\ bw = 0) ->
  rtlsdr_stream_request freq rate bw mode s = (rc, s') ->
  requested (ctx s') = true /\
  ((rc = 0 /\ fd (ctx s') = fd (ctx s) /\
     exists msg, sent s' = sent s ++ msg /\ zlen msg = RTLSTREAM_REQ_SIZE /\
       rtlsdr_stream_decode_req (Some r0) (Some msg)
       = (0, Some (mk_req RTLSTREAM_MAGIC_REQ freq rate bw mode)))
   \/ (rc = -1 /\ fd (ctx s') = -1 /\ closed s' = fd (ctx s) :: closed s)) /\
  (forall f' r' b' m', rtlsdr_stream_request f' r' b' m' s' = (-1, s')).
Proof.
  intros Ho Hq Hf Hr Hb Hm. unfold rtlsdr_stream_request.
  rewrite st_bind_eq. cbv [st_get]. cbv beta iota. rewrite Hq. unfold open in Ho.
  destruct (Z.ltb_spec (fd (ctx s)) 0); [lia|]. cbn [orb].
  replace (_ || _) with false.
  2: { symmetry. destruct Hm as [-> | (-> & -> & -> & ->)]; done. }
  rewrite st_bind_eq. cbv [st_mod]. cbv beta iota zeta. rewrite st_bind_eq. unfold send_all.
  set (r := mk_req RTLSTREAM_MAGIC_REQ freq rate bw mode).
  change (wr _ 28 mode) with (wr (put64 (put64 (put64 (put32 (replicate 29 0) 0 (req_magic r))
    4 (req_freq r)) 12 (req_rate r)) 20 (req_bandwidth r)) 28 (req_mode r)).
  rewrite put_req_blit, blit_0, drop_ge, app_nil_r by done.
  pose proof (send_loop_spec (tx s) (req_wire r)) as Hsend.
  cbn [set_ctx tx]. destruct (send_loop (tx s) (req_wire r)) as [[rc0 out] rest].
  assert (Hagain : forall st f' r' b' m', requested (ctx st) = true ->
    rtlsdr_stream_request f' r' b' m' st = (-1, st)).
  { intros st f' r' b' m' Ht. unfold rtlsdr_stream_request. rewrite st_bind_eq. cbv [st_get].
    cbv beta iota. rewrite Ht, orb_true_r. done. }
  destruct Hsend as [[-> ->]|(->&_)]; cbn [Z.eqb]; rewrite ?st_bind_eq.
  - intros [= <- <-]. split_and!; [done| |intros; by apply Hagain].
    left. split_and!; [done..|]. exists (req_wire r). split_and!; [done..|].
    assert (Hok : req_ok r) by (unfold req_ok; destruct Hm as [-> | (-> & _)]; done).
    assert (Hv : valid_req r = true)
      by (unfold valid_req; destruct Hm as [-> | (-> & -> & -> & ->)]; done).
    rewrite <- (app_nil_r (req_wire r)). unfold rtlsdr_stream_decode_req.
    rewrite decode_wire by done. by rewrite Hv.
  - intros [= <- <-]. split_and!; [done| |intros; by apply Hagain]. right. done.
Qed.

Lemma client_request_server_witness :
  let s := demo_client [] [TxAccept 3; TxIntr; TxAccept 100] in
  exists s', rtlsdr_stream_request 100000000 250000 200000 0 s = (0, s') /\
    (forall f' r' b' m', rtlsdr_stream_request f' r' b' m' s' = (-1, s')).
Proof.
  intros s. exists (snd (rtlsdr_stream_request 100000000 250000 200000 0 s)).
  split; [vm_compute; reflexivity|].
  apply (client_request_server s 100000000 250000 200000 0 (mk_req 0 0 0 0 0) 0).
  - vm_compute. congruence.
  - reflexivity.
  - vm_compute. split; congruence.
  - vm_compute. split; congruence.
  - vm_compute. split; congruence.
  - left. reflexivity.
  - vm_compute. reflexivity.
Defined.

(** Descriptor discipline: a read never closes the descriptor twice or someone
    else's descriptor, and a read that returns [RTLSTREAM_ERROR] (a cut or malformed
    stream, an illegal count, a failing socket) has closed the connection. *)
Theorem client_read_descriptor hdr0 dst max buf0 s :
  0 <= max ->
  let '(o1, s1) := rtlsdr_stream_read_iq hdr0 (Some dst) max buf0 s in
  let '(o2, s2) := rtlsdr_stream_read_fft hdr0 (Some dst) max buf0 s in
  fd_ok s s1 /\ (out_result o1 = RTLSTREAM_ERROR -> fd (ctx s1) < 0) /\
  fd_ok s s2 /\ (out_result o2 = RTLSTREAM_ERROR -> fd (ctx s2) < 0).
Proof.
  intros Hm.
  pose proof (keeps_read_iq hdr0 (Some dst) max buf0 s) as K1.
  pose proof (keeps_read_fft hdr0 (Some dst) max buf0 s) as K2.
  pose proof (err_read_iq hdr0 (Some dst) max buf0 Hm ltac:(done) s) as E1.
  pose proof (err_read_fft hdr0 (Some dst) max buf0 Hm ltac:(done) s) as E2.
  destruct (rtlsdr_stream_read_iq _ _ _ _ s), (rtlsdr_stream_read_fft _ _ _ _ s). done.
Qed.

Lemma client_read_descriptor_witness :
  let s := demo_client [RxData [1; 2; 3]; RxFail] [] in
  out_result (fst (rtlsdr_stream_read_iq (mk_hdr 0 0 0 0 0) (Some []) 0 (replicate 32 0) s))
    = RTLSTREAM_ERROR /\
  fd (ctx (snd (rtlsdr_stream_read_iq (mk_hdr 0 0 0 0 0) (Some []) 0 (replicate 32 0) s))) < 0.
Proof.
  intros s. split; [reflexivity|].
  pose proof (client_read_descriptor (mk_hdr 0 0 0 0 0) [] 0 (replicate 32 0) s ltac:(lia)) as H.
  destruct (rtlsdr_stream_read_iq _ _ _ _ s) as [o1 s1] eqn:E1.
  destruct (rtlsdr_stream_read_fft _ _ _ _ s) as [o2 s2].
  apply H. vm_compute in E1. injection E1 as <- <-. reflexivity.
Defined.

End ClientProps.
