(* ===== verification/StreamClients.v ===== *)
(** * The C++, Go and Node clients of the stream server ([src/stream_client/cpp/client.cpp],
    [src/stream_client/go/rtlstream/client.go], [src/stream_client/node/client.js])

    The sockets of the first two are those of [Client]: arbitrary outcomes of the coming calls.
    Exceptions and errors are the second component of a sum.  The Node client runs in an event
    loop: a frame is read by a coroutine ([prog]) that asks for a number of bytes, and [pump]
    serves it from what has arrived.

    [StreamClientsProps]: all three read what the server encodes. *)

From S2P Require Import Prelude Proto Client.

(** ** C++ *)

Module Cpp.
Import Proto Client.

(** What is thrown. *)
Inductive exn :=
  | StreamEvent (type freq : Z)
  | runtime_error
  | invalid_argument.

(** The members are those of the C context; its event is not used. *)
Abbreviation M A := (st cst (A + exn)).

Definition throw {A} (e : exn) : M A := mret (inr e).
(** A call and what follows it when nothing is thrown. *)
Definition andthen {A B} (m : M A) (k : A -> M B) : M B :=
  r ← m; match r with inl a => k a | inr e => throw e end.
Notation "x <~ m ; k" := (andthen m (fun x => k)) (at level 100, m at level 95, k at level 200, right associativity) : c_scope.

Definition close : st cst unit :=
  s ← st_get;
  if 0 <=? fd (ctx s) then close_fd else mret tt.
Definition fail {A} : M A := _ ← close; throw runtime_error.

Definition recvAll (len : Z) : M (list Z) :=
  '(rc, got) ← recv_all len;
  if rc <? 0 then fail else mret (inl got).
Definition sendAll (p : list Z) : M unit :=
  rc ← send_all p;
  if rc <? 0 then fail else mret (inl tt).

Definition request (freq rate bandwidth mode : Z) : M unit :=
  s ← st_get;
  if (fd (ctx s) <? 0) || requested (ctx s)
     || (negb (mode =? RTLSTREAM_MODE_IQ) && negb (mode =? RTLSTREAM_MODE_FFT))
     || ((mode =? RTLSTREAM_MODE_FFT) && (negb (freq =? 0) || negb (rate =? 0) || negb (bandwidth =? 0)))
  then throw invalid_argument
  else
    _ ← st_mod (set_ctx (fun c => mk_ctx (fd c) true (event c)));
    let buf := put32 (replicate 29 0) 0 RTLSTREAM_MAGIC_REQ in
    let buf := put64 buf 4 freq in
    let buf := put64 buf 12 rate in
    let buf := put64 buf 20 bandwidth in
    sendAll (wr buf 28 mode).

Definition readHeader (buf : list Z) (magic : Z) : M (list Z) :=
  got <~ recvAll 4;
  let buf := blit buf 0 got in
  if get32 buf 0 =? RTLSTREAM_MAGIC_EVT then
    got <~ recvAll 4;
    let buf := blit buf 4 got in
    let type := get32 buf 4 in
    if type =? RTLSTREAM_EVT_FREQ_CHANGE then
      got <~ recvAll 8;
      throw (StreamEvent type (get64 (blit buf 8 got) 8))
    else if type =? RTLSTREAM_EVT_STREAM_END then
      _ ← close; throw (StreamEvent type 0)
    else fail
  else if negb (get32 buf 0 =? magic) then fail
  else
    got <~ recvAll 28;
    mret (inl (blit buf 4 got)).

(** The vector is resized to what is read. *)
Definition readIQ (buf0 : list Z) : M (rtlsdr_stream_hdr * list Z) :=
  hbuf <~ readHeader buf0 RTLSTREAM_MAGIC_IQ;
  let hdr := hdr_of hbuf in
  let n := hdr_count hdr in
  if (RTLSTREAM_MAX_IQ_COMPONENTS <? n) || negb (n &' 1 =? 0) then fail
  else
    got <~ recvAll (n * 2);
    mret (inl (hdr, iq_sample got <$> seqZ 0 n)).
Definition readFFT (buf0 : list Z) : M (rtlsdr_stream_hdr * list Z) :=
  hbuf <~ readHeader buf0 RTLSTREAM_MAGIC_FFT;
  let hdr := hdr_of hbuf in
  let n := hdr_count hdr in
  if (n <? 2) || (RTLSTREAM_MAX_FFT_BINS <? n) then fail
  else
    got <~ recvAll (n * 4);
    mret (inl (hdr, (fun i => get32 got (4 * i)) <$> seqZ 0 n)).

(** The new descriptor and the sockets closed on the way; [None] when something is thrown. *)
Definition connect (port : Z) (addresses : option (list (Z * Z))) : option Z * list Z :=
  if (port <? 1) || (65535 <? port) then (None, [])
  else match addresses with
       | None => (None, [])
       | Some l => let '(f, shut) := connect_loop (-1) l [] in (if f <? 0 then None else Some f, shut)
       end.

End Cpp.

(** ** Go *)

Module Go.
Import Proto Client.

(** The connection: whether it is open, and its future. *)
Record gst := mk_gst {
  g_open : bool;
  g_requested : bool;
  g_rx : list rx_event;
  g_tx : list tx_event;
  g_sent : list Z;
}.

Inductive error :=
  | Event (type freq : Z)
  | ErrCapacity (hdr : rtlsdr_stream_hdr)
  | ErrProtocol
  | ErrRequest
  | ErrIO.

Abbreviation M A := (st gst (A + error)).
Definition err {A} (e : error) : M A := mret (inr e).
Definition andthen {A B} (m : M A) (k : A -> M B) : M B :=
  r ← m; match r with inl a => k a | inr e => err e end.
Notation "x <~ m ; k" := (andthen m (fun x => k)) (at level 100, m at level 95, k at level 200, right associativity) : c_scope.

Definition Close : st gst unit := st_mod (fun s => mk_gst false (g_requested s) (g_rx s) (g_tx s) (g_sent s)).

(** [io.ReadFull] and [io.CopyN]: all bytes or an error; interrupted calls are repeated by the
    runtime. *)
Definition ReadFull (n : Z) : M (list Z) := fun s =>
  if negb (g_open s) && negb (n =? 0) then (inr ErrIO, s)
  else
    let '(rc, got, rest) := recv_loop (g_rx s) (Z.to_nat n) in
    (if rc <? 0 then inr ErrIO else inl got, mk_gst (g_open s) (g_requested s) rest (g_tx s) (g_sent s)).
Definition readFull (n : Z) : M (list Z) :=
  r ← ReadFull n;
  match r with inl got => mret (inl got) | inr e => _ ← Close; err e end.
Definition protocolError {A} : M A := _ ← Close; err ErrProtocol.

Definition Request (freq rate bandwidth mode : Z) : M unit :=
  s ← st_get;
  if g_requested s || (negb (mode =? RTLSTREAM_MODE_IQ) && negb (mode =? RTLSTREAM_MODE_FFT))
     || ((mode =? RTLSTREAM_MODE_FFT) && (negb (freq =? 0) || negb (rate =? 0) || negb (bandwidth =? 0)))
  then err ErrRequest
  else
    let buf := put32 (replicate 29 0) 0 RTLSTREAM_MAGIC_REQ in
    let buf := put64 buf 4 freq in
    let buf := put64 buf 12 rate in
    let buf := put64 buf 20 bandwidth in
    let '(rc, out, rest) := if g_open s then send_loop (g_tx s) (wr buf 28 mode) else (-1, [], g_tx s) in
    _ ← st_put (mk_gst (g_open s) true (g_rx s) rest (g_sent s ++ out));
    if rc <? 0 then _ ← Close; err ErrIO else mret (inl tt).

Definition readHeader (buf : list Z) (magic : Z) : M (list Z) :=
  p <~ readFull 4;
  let buf := blit buf 0 p in
  let got := get32 buf 0 in
  if got =? RTLSTREAM_MAGIC_EVT then
    p <~ readFull 4;
    let buf := blit buf 4 p in
    let type := get32 buf 4 in
    if type =? RTLSTREAM_EVT_FREQ_CHANGE then
      p <~ readFull 8;
      err (Event type (get64 (blit buf 8 p) 8))
    else if type =? RTLSTREAM_EVT_STREAM_END then
      _ ← Close; err (Event type 0)
    else protocolError
  else if negb (got =? magic) then protocolError
  else
    p <~ readFull 28;
    mret (inl (blit buf 4 p)).

(** [samples] is the caller's slice. *)
Definition ReadIQ (samples : list Z) : M (rtlsdr_stream_hdr * list Z) :=
  hbuf <~ readHeader (replicate 32 0) RTLSTREAM_MAGIC_IQ;
  let hdr := hdr_of hbuf in
  let n := hdr_count hdr in
  if (RTLSTREAM_MAX_IQ_COMPONENTS <? n) || negb (n &' 1 =? 0) then protocolError
  else if zlen samples <? n then
    r ← ReadFull (n * 2);
    match r with inl _ => err (ErrCapacity hdr) | inr e => _ ← Close; err e end
  else
    sbuf <~ readFull (n * 2);
    mret (inl (hdr, ((fun i => s16 ((rd sbuf (2 * i) <<' 8) |' rd sbuf (2 * i + 1))) <$> seqZ 0 n) ++ drop (Z.to_nat n) samples)).
Definition ReadFFT : M (rtlsdr_stream_hdr * list Z) :=
  hbuf <~ readHeader (replicate 32 0) RTLSTREAM_MAGIC_FFT;
  let hdr := hdr_of hbuf in
  let n := hdr_count hdr in
  if (n <? 2) || (RTLSTREAM_MAX_FFT_BINS <? n) then protocolError
  else
    fbuf <~ readFull (n * 4);
    mret (inl (hdr, (fun i => get32 fbuf (4 * i)) <$> seqZ 0 n)).

End Go.

(** ** Node *)

Module Node.
Import Proto Client.

(** What a promise of a read is resolved with. *)
Inductive frame :=
  | FData (hdr : rtlsdr_stream_hdr) (payload : list Z)
  | FEvent (type freq : Z).

(** The coroutine of [_readFrame]: [await this._recv(n)], [this.close()], a [throw], a
    [return]. *)
Inductive prog :=
  | PRecv (n : Z) (k : list Z -> prog)
  | PClose (p : prog)
  | PThrow
  | PRet (r : frame).

Definition read_body (magic : Z) (hbuf : list Z) : prog :=
  let hdr := mk_hdr magic (get64 hbuf 0) (get64 hbuf 8) (get64 hbuf 16) (get32 hbuf 24) in
  let count := hdr_count hdr in
  if magic =? RTLSTREAM_MAGIC_IQ then
    if (RTLSTREAM_MAX_IQ_COMPONENTS <? count) || negb (count mod 2 =? 0) then PThrow
    else PRecv (count * 2) (fun data =>
      PRet (FData hdr ((fun i => s16 ((rd data (2 * i) <<' 8) |' rd data (2 * i + 1))) <$> seqZ 0 count)))
  else if (count <? 2) || (RTLSTREAM_MAX_FFT_BINS <? count) then PThrow
  else PRecv (count * 4) (fun data => PRet (FData hdr ((fun i => get32 data (4 * i)) <$> seqZ 0 count))).

Definition readFrame (expected : Z) : prog :=
  PRecv 4 (fun b =>
    let magic := get32 b 0 in
    if magic =? RTLSTREAM_MAGIC_EVT then
      PRecv 4 (fun b =>
        let type := get32 b 0 in
        if type =? RTLSTREAM_EVT_FREQ_CHANGE then PRecv 8 (fun b => PRet (FEvent type (get64 b 0)))
        else if type =? RTLSTREAM_EVT_STREAM_END then PClose (PRet (FEvent type 0))
        else PThrow)
    else if negb (magic =? expected) then PThrow
    else PRecv 28 (read_body magic)).

(** The client with its socket: the bytes that have arrived and are not read, whether the peer
    has ended the stream, [_terminal], [_reading] and [_pending]; and what the promises were
    settled with, [None] for a rejection. *)
Record nst := mk_nst {
  buffer : list Z;
  ended : bool;
  terminal : bool;
  reading : bool;
  pending : option (Z * (list Z -> prog));
  settled : list (option frame);
}.
Definition set_buffer (b : list Z) (s : nst) := mk_nst b (ended s) (terminal s) (reading s) (pending s) (settled s).
Definition set_pending (p : option (Z * (list Z -> prog))) (s : nst) := mk_nst (buffer s) (ended s) (terminal s) (reading s) p (settled s).
(** [close]: nothing is pending while the coroutine runs. *)
Definition closed (s : nst) := mk_nst (buffer s) (ended s) true (reading s) (pending s) (settled s).
Definition settle (r : option frame) (s : nst) := mk_nst (buffer s) (ended s) (terminal s) false (pending s) (settled s ++ [r]).

(** The coroutine runs until it has to wait.  [socket.read(n)] returns nothing as long as fewer
    bytes are there, and what is left when the stream has ended. *)
Fixpoint run (p : prog) (s : nst) : nst :=
  match p with
  | PRecv n k =>
      if n =? 0 then run (k []) s
      else if terminal s then settle None (closed s)
      else if n <=? zlen (buffer s) then run (k (take (Z.to_nat n) (buffer s))) (set_buffer (drop (Z.to_nat n) (buffer s)) s)
      else if ended s && (0 <? zlen (buffer s)) then settle None (closed (set_buffer [] s))
      else set_pending (Some (n, k)) s
  | PClose p => run p (closed s)
  | PThrow => settle None (closed s)
  | PRet r => settle (Some r) s
  end.

Definition pump (s : nst) : nst :=
  match pending s with None => s | Some (n, k) => run (PRecv n k) (set_pending None s) end.

(** [readIQ] and [readFFT]. *)
Definition read (expected : Z) (s : nst) : nst :=
  if reading s then mk_nst (buffer s) (ended s) (terminal s) true (pending s) (settled s ++ [None])
  else run (readFrame expected) (mk_nst (buffer s) (ended s) (terminal s) true (pending s) (settled s)).

(** The events of the socket: bytes arrive, the peer ends the stream, [_finish] for the end of
    what can be read, an error or the close. *)
Definition arrive (c : list Z) (s : nst) : nst := pump (set_buffer (buffer s ++ c) s).
Definition peer_ends (s : nst) : nst := pump (mk_nst (buffer s) true (terminal s) (reading s) (pending s) (settled s)).
Definition finish (s : nst) : nst := pump (closed s).

(** The bytes of [request], or the exception. *)
Definition request (requested : bool) (freq rate bandwidth mode : Z) : option (list Z) :=
  if negb ((0 <=? freq) && (freq <? 2 ^ 64) && (0 <=? rate) && (rate <? 2 ^ 64) && (0 <=? bandwidth) && (bandwidth <? 2 ^ 64))
     || requested || (negb (mode =? RTLSTREAM_MODE_IQ) && negb (mode =? RTLSTREAM_MODE_FFT))
     || ((mode =? RTLSTREAM_MODE_FFT) && (negb (freq =? 0) || negb (rate =? 0) || negb (bandwidth =? 0)))
  then None
  else
    let buf := put32 (replicate 29 0) 0 RTLSTREAM_MAGIC_REQ in
    let buf := put64 buf 4 freq in
    let buf := put64 buf 12 rate in
    let buf := put64 buf 20 bandwidth in
    Some (wr buf 28 mode).

End Node.

Module StreamClientsFacts.
Import Proto Wire ProtoFacts Client ClientFacts.

(** The two ways to convert a sample agree. *)
Lemma iq_sample_s16 p i : iq_sample p i = s16 ((rd p (2 * i) <<' 8) |' rd p (2 * i + 1)).
Proof.
  unfold iq_sample. set (v := _ |' _). destruct (v <? 32768); [done|]. cdlia.
Qed.
Lemma iq_samples_s16 xs : Forall (is_s 16) xs ->
  (fun i => s16 ((rd (iq_wire xs) (2 * i) <<' 8) |' rd (iq_wire xs) (2 * i + 1))) <$> seqZ 0 (zlen xs) = xs.
Proof.
  intros Hx. etransitivity; [|apply (iq_samples_wire xs Hx)]. apply list_fmap_ext. intros _ i _. symmetry. apply iq_sample_s16.
Qed.

(** A header behind its magic. *)
Definition hdr_tail (h : rtlsdr_stream_hdr) : list Z := be64 (hdr_freq h) ++ be64 (hdr_rate h) ++ be64 (hdr_seq h) ++ be32 (hdr_count h).
Lemma hdr_wire_tail h : hdr_wire h = be32 (hdr_magic h) ++ hdr_tail h.
Proof. done. Qed.
Lemma zlen_hdr_tail h : zlen (hdr_tail h) = 28.
Proof. done. Qed.
Lemma hdr_buffer buf h : zlen buf = 32 -> blit (blit buf 0 (be32 (hdr_magic h))) 4 (hdr_tail h) = hdr_wire h.
Proof.
  intros Hb. rewrite blit_blit by (lia || done). rewrite <- hdr_wire_tail, blit_0.
  - rewrite drop_ge, app_nil_r; [done|]. unfold zlen in Hb. change (length (hdr_wire h)) with 32%nat. lia.
  - rewrite Hb. done.
Qed.
Lemma magic_read buf h : zlen buf = 32 -> hdr_ok h -> get32 (blit buf 0 (be32 (hdr_magic h))) 0 = hdr_magic h.
Proof. intros Hb Hh. rewrite blit_0 by (rewrite zlen_be32; lia). apply (get32_app []); [done|apply Hh]. Qed.
Lemma hdr_of_wire h : hdr_ok h -> hdr_of (hdr_wire h) = h.
Proof. intros Hh. pose proof (hdr_fields h [] Hh) as E. by rewrite app_nil_r in E. Qed.

(** ** C++ *)

Lemma cpp_recvAll p q s n : open s -> rx_bytes (rx s) = p ++ q -> n = zlen p ->
  exists rest, Cpp.recvAll n s = (inl p, with_rx s rest) /\ rx_bytes rest = q.
Proof.
  intros Ho Hs Hn. destruct (recv_all_app p q s n Ho Hs Hn) as (rest & E & R). exists rest. split; [|done].
  unfold Cpp.recvAll. by rewrite st_bind_eq, E.
Qed.
Lemma cpp_andthen {A B} (m : st cst (A + Cpp.exn)) (k : A -> st cst (B + Cpp.exn)) s a s' :
  m s = (inl a, s') -> Cpp.andthen m k s = k a s'.
Proof. intros E. unfold Cpp.andthen. by rewrite st_bind_eq, E. Qed.

Lemma cpp_header s buf h q : open s -> zlen buf = 32 -> hdr_ok h -> hdr_magic h <> RTLSTREAM_MAGIC_EVT ->
  rx_bytes (rx s) = hdr_wire h ++ q ->
  exists rest, Cpp.readHeader buf (hdr_magic h) s = (inl (hdr_wire h), with_rx s rest) /\ rx_bytes rest = q.
Proof.
  intros Ho Hb Hh Hm Hs. rewrite hdr_wire_tail, <- app_assoc in Hs.
  destruct (cpp_recvAll _ _ s 4 Ho Hs eq_refl) as (r1 & E1 & R1).
  unfold Cpp.readHeader. rewrite (cpp_andthen _ _ _ _ _ E1). cbv zeta. rewrite magic_read by done.
  destruct (Z.eqb_spec (hdr_magic h) RTLSTREAM_MAGIC_EVT); [done|]. rewrite Z.eqb_refl. cbn [negb].
  destruct (cpp_recvAll _ _ (with_rx s r1) 28 Ho R1 eq_refl) as (r2 & E2 & R2).
  rewrite (cpp_andthen _ _ _ _ _ E2). exists r2. by rewrite hdr_buffer, st_ret_eq.
Qed.

(** ** Go *)

Definition with_grx (s : Go.gst) (r : list rx_event) : Go.gst :=
  Go.mk_gst (Go.g_open s) (Go.g_requested s) r (Go.g_tx s) (Go.g_sent s).

Lemma go_readFull p q s n : Go.g_open s = true -> rx_bytes (Go.g_rx s) = p ++ q -> n = zlen p ->
  exists rest, Go.readFull n s = (inl p, with_grx s rest) /\ rx_bytes rest = q.
Proof.
  intros Ho Hs ->. destruct (recv_loop_ok (Go.g_rx s) (length p)) as (rest & E & R).
  { rewrite Hs, length_app. lia. }
  exists rest. rewrite R, Hs, drop_app_length. split; [|done]. unfold Go.readFull, Go.ReadFull. rewrite st_bind_eq, Ho. cbn [negb andb].
  unfold zlen. rewrite Nat2Z.id, E, Hs, take_app_length. change (0 <? 0) with false. cbn iota. unfold with_grx. by rewrite Ho.
Qed.
Lemma go_andthen {A B} (m : st Go.gst (A + Go.error)) (k : A -> st Go.gst (B + Go.error)) s a s' :
  m s = (inl a, s') -> Go.andthen m k s = k a s'.
Proof. intros E. unfold Go.andthen. by rewrite st_bind_eq, E. Qed.

Lemma go_header s h q : Go.g_open s = true -> hdr_ok h -> hdr_magic h <> RTLSTREAM_MAGIC_EVT ->
  rx_bytes (Go.g_rx s) = hdr_wire h ++ q ->
  exists rest, Go.readHeader (replicate 32 0) (hdr_magic h) s = (inl (hdr_wire h), with_grx s rest) /\ rx_bytes rest = q.
Proof.
  intros Ho Hh Hm Hs. rewrite hdr_wire_tail, <- app_assoc in Hs.
  destruct (go_readFull _ _ s 4 Ho Hs eq_refl) as (r1 & E1 & R1).
  unfold Go.readHeader. rewrite (go_andthen _ _ _ _ _ E1). cbv zeta. rewrite magic_read by done.
  destruct (Z.eqb_spec (hdr_magic h) RTLSTREAM_MAGIC_EVT); [done|]. rewrite Z.eqb_refl. cbn [negb].
  destruct (go_readFull _ _ (with_grx s r1) 28 Ho R1 eq_refl) as (r2 & E2 & R2).
  rewrite (go_andthen _ _ _ _ _ E2). exists r2. by rewrite hdr_buffer, st_ret_eq.
Qed.

(** ** Node *)

(** Bytes that arrive later are as good as bytes that are there. *)
Lemma arrive_run p : forall s c, Node.ended s = false -> Node.pending s = None ->
  Node.arrive c (Node.run p s) = Node.run p (Node.set_buffer (Node.buffer s ++ c) s).
Proof.
  induction p as [n k IH|p IH| |r]; intros s c He Hp; cbn [Node.run].
  - destruct (n =? 0) eqn:En; [by apply IH|]. cbn [Node.terminal Node.buffer Node.ended Node.set_buffer]. destruct (Node.terminal s) eqn:Et.
    { unfold Node.arrive, Node.pump, Node.settle, Node.closed. cbn. by rewrite Hp. }
    rewrite He. cbn [andb]. destruct (Z.leb_spec n (zlen (Node.buffer s))) as [Hn|Hn].
    + destruct (Z.leb_spec n (zlen (Node.buffer s ++ c))) as [_|Hn2]; [|rewrite zlen_app in Hn2; unfold zlen in *; lia].
      rewrite IH by done. cbn [Node.buffer Node.set_buffer]. unfold zlen in Hn.
      rewrite take_app_le, drop_app_le by lia. done.
    + unfold Node.arrive, Node.pump. cbn [Node.set_pending Node.pending Node.set_buffer Node.buffer Node.run].
      rewrite En. cbn [Node.terminal Node.buffer Node.ended Node.set_pending Node.set_buffer].
      rewrite Et, He. cbn [andb]. destruct s. cbn in *. by subst.
  - rewrite IH by done. done.
  - unfold Node.arrive, Node.pump, Node.settle, Node.closed. cbn. by rewrite Hp.
  - unfold Node.arrive, Node.pump, Node.settle. cbn. by rewrite Hp.
Qed.

(** A run that has its bytes. *)
Lemma run_recv n k s p q : Node.terminal s = false -> Node.buffer s = p ++ q -> n = zlen p -> n <> 0 ->
  Node.run (Node.PRecv n k) s = Node.run (k p) (Node.set_buffer q s).
Proof.
  intros Ht Hb -> Hn. cbn [Node.run]. destruct (Z.eqb_spec (zlen p) 0); [done|]. rewrite Ht, Hb.
  destruct (Z.leb_spec (zlen p) (zlen (p ++ q))); [|rewrite zlen_app in *; unfold zlen in *; lia].
  unfold zlen. by rewrite Nat2Z.id, take_app_length, drop_app_length.
Qed.

End StreamClientsFacts.

Module StreamClientsProps.
Import Proto Wire ProtoFacts Client ClientFacts StreamClientsFacts.

Lemma cpp_reads_iq s buf h xs rest : open s -> zlen buf = 32 -> hdr_ok h -> hdr_count h = zlen xs -> Forall (is_s 16) xs ->
  hdr_magic h = RTLSTREAM_MAGIC_IQ -> zlen xs <= RTLSTREAM_MAX_IQ_COMPONENTS -> Z.even (zlen xs) = true ->
  rx_bytes (rx s) = hdr_wire h ++ iq_wire xs ++ rest ->
  exists rx', rx_bytes rx' = rest /\ Cpp.readIQ buf s = (inl (h, xs), with_rx s rx').
Proof.
  intros Ho Hb Hh Hc Hx Hm Hmax Hev Hs.
  destruct (cpp_header s buf h (iq_wire xs ++ rest)) as (r1 & E1 & R1); auto; [by rewrite Hm|].
  unfold Cpp.readIQ. rewrite <- Hm, (cpp_andthen _ _ _ _ _ E1). cbv zeta. rewrite hdr_of_wire, Hc by done.
  rewrite (Z.land_ones _ 1), Zmod_even, Hev by lia. destruct (Z.ltb_spec RTLSTREAM_MAX_IQ_COMPONENTS (zlen xs)); [lia|]. cbn [negb orb Z.eqb].
  destruct (cpp_recvAll (iq_wire xs) rest (with_rx s r1) (zlen xs * 2)) as (r2 & E2 & R2); auto; [rewrite zlen_iq_wire; lia|].
  rewrite (cpp_andthen _ _ _ _ _ E2). exists r2. split; [done|]. by rewrite iq_samples_wire, st_ret_eq.
Qed.

Lemma go_reads_iq s dst h xs rest : Go.g_open s = true -> hdr_ok h -> hdr_count h = zlen xs -> Forall (is_s 16) xs ->
  hdr_magic h = RTLSTREAM_MAGIC_IQ -> zlen xs <= RTLSTREAM_MAX_IQ_COMPONENTS -> Z.even (zlen xs) = true -> zlen xs <= zlen dst ->
  rx_bytes (Go.g_rx s) = hdr_wire h ++ iq_wire xs ++ rest ->
  exists rx', rx_bytes rx' = rest /\ Go.ReadIQ dst s = (inl (h, xs ++ drop (length xs) dst), with_grx s rx').
Proof.
  intros Ho Hh Hc Hx Hm Hmax Hev Hd Hs.
  destruct (go_header s h (iq_wire xs ++ rest)) as (r1 & E1 & R1); auto; [by rewrite Hm|].
  unfold Go.ReadIQ. rewrite <- Hm, (go_andthen _ _ _ _ _ E1). cbv zeta. rewrite hdr_of_wire, Hc by done.
  rewrite (Z.land_ones _ 1), Zmod_even, Hev by lia. destruct (Z.ltb_spec RTLSTREAM_MAX_IQ_COMPONENTS (zlen xs)); [lia|]. cbn [negb orb Z.eqb].
  destruct (Z.ltb_spec (zlen dst) (zlen xs)); [lia|].
  destruct (go_readFull (iq_wire xs) rest (with_grx s r1) (zlen xs * 2)) as (r2 & E2 & R2); auto; [rewrite zlen_iq_wire; lia|].
  rewrite (go_andthen _ _ _ _ _ E2). exists r2. split; [done|]. rewrite iq_samples_s16, st_ret_eq by done. unfold zlen. by rewrite Nat2Z.id.
Qed.

(** The socket of a Node client gets the chunks one after the other. *)
Definition arrivals (cs : list (list Z)) (s : Node.nst) : Node.nst := foldl (fun s c => Node.arrive c s) s cs.

Lemma arrivals_run p cs : forall s, Node.ended s = false -> Node.pending s = None ->
  arrivals cs (Node.run p s) = Node.run p (Node.set_buffer (Node.buffer s ++ concat cs) s).
Proof.
  induction cs as [|c cs IH]; intros s He Hp; cbn [arrivals foldl concat].
  - rewrite app_nil_r. by destruct s.
  - rewrite arrive_run by done. fold (arrivals cs (Node.run p (Node.set_buffer (Node.buffer s ++ c) s))).
    rewrite IH by done. cbn [Node.buffer Node.set_buffer]. by rewrite <- app_assoc.
Qed.

(** A client that is connected and not reading. *)
Definition idle (s : Node.nst) : Prop :=
  Node.ended s = false /\ Node.terminal s = false /\ Node.reading s = false /\ Node.pending s = None.

Lemma node_body h : hdr_ok h ->
  mk_hdr (hdr_magic h) (get64 (hdr_tail h) 0) (get64 (hdr_tail h) 8) (get64 (hdr_tail h) 16) (get32 (hdr_tail h) 24) = h.
Proof.
  intros (?&?&?&?&?). destruct h as [m f ra sq n]. unfold hdr_tail. cbn [hdr_magic hdr_freq hdr_rate hdr_seq hdr_count] in *. f_equal.
  - by apply (get64_app []).
  - by apply (get64_app (be64 _)).
  - rewrite app_assoc. by apply (get64_app (be64 _ ++ be64 _)).
  - rewrite 2!app_assoc, <- (app_nil_r (be32 n)). by apply (get32_app ((be64 _ ++ be64 _) ++ be64 _)).
Qed.

Lemma node_reads_iq s cs h xs rest : idle s -> hdr_ok h -> hdr_count h = zlen xs -> Forall (is_s 16) xs ->
  hdr_magic h = RTLSTREAM_MAGIC_IQ -> zlen xs <= RTLSTREAM_MAX_IQ_COMPONENTS -> Z.even (zlen xs) = true ->
  Node.buffer s ++ concat cs = hdr_wire h ++ iq_wire xs ++ rest ->
  arrivals cs (Node.read RTLSTREAM_MAGIC_IQ s) =
  Node.mk_nst rest false false false None (Node.settled s ++ [Some (Node.FData h xs)]).
Proof.
  intros (He & Ht & Hr & Hp) Hh Hc Hx Hm Hmax Hev Hs. unfold Node.read. rewrite Hr, arrivals_run by done. cbn [Node.buffer].
  rewrite Hs, hdr_wire_tail, <- app_assoc. unfold Node.readFrame.
  erewrite run_recv; [|done|cbn [Node.set_buffer Node.buffer]; reflexivity|done|done].
  assert (Hg : get32 (be32 (hdr_magic h)) 0 = hdr_magic h).
  { rewrite <- (app_nil_r (be32 (hdr_magic h))). apply get32_head. apply Hh. }
  cbv zeta. rewrite Hg, Hm.
  change (RTLSTREAM_MAGIC_IQ =? RTLSTREAM_MAGIC_EVT) with false. cbv iota. rewrite Z.eqb_refl. cbn [negb].
  erewrite run_recv; [|done|cbn [Node.set_buffer Node.buffer]; reflexivity|done|done].
  unfold Node.read_body. rewrite <- Hm, node_body by done. rewrite Hm, Z.eqb_refl, Hc, Zmod_even, Hev. cbv zeta. cbn [negb Z.eqb].
  destruct (Z.ltb_spec RTLSTREAM_MAX_IQ_COMPONENTS (zlen xs)); [lia|]. cbn [orb].
  assert (E : forall k s', Node.terminal s' = false -> Node.buffer s' = iq_wire xs ++ rest ->
                Node.run (Node.PRecv (zlen xs * 2) k) s' = Node.run (k (iq_wire xs)) (Node.set_buffer rest s')).
  { intros k s' Ht' Hb'. destruct (decide (zlen xs = 0)) as [E0|].
    - apply nil_length_inv_zlen in E0 as ->. cbn. destruct s'. cbn in *. by subst.
    - apply run_recv; try done; rewrite ?zlen_iq_wire; lia. }
  rewrite E by done. cbn [Node.run]. unfold Node.settle. cbn. rewrite He, Ht, Hp, iq_samples_s16 by done. done.
Qed.

(** C22.  The C++, Go and Node clients read what the server encodes.  Take any header and samples
    the server's encoders accept; if these bytes come next, in any segmentation, with interrupted
    calls for C++ and Go and in any chunks before or after the call for Node, then a read of an
    I/Q frame gives the same header and the same samples, and the stream is left exactly at the
    next frame. *)
Theorem stream_clients_read_iq h xs b1 b2 rest
  (Hh : hdr_ok h) (Hc : hdr_count h = zlen xs) (Hx : Forall (is_s 16) xs)
  (E1 : rtlsdr_stream_encode_iq_hdr (Some (replicate 32 0)) (Some h) = (32, Some b1))
  (E2 : rtlsdr_stream_encode_iq_payload (Some (replicate (2 * length xs) 0)) (2 * zlen xs) (Some xs) (zlen xs) = (0, Some b2)) :
  (forall s buf, open s -> zlen buf = 32 -> rx_bytes (rx s) = b1 ++ b2 ++ rest ->
     exists rx', rx_bytes rx' = rest /\ Cpp.readIQ buf s = (inl (h, xs), with_rx s rx')) /\
  (forall s dst, Go.g_open s = true -> zlen xs <= zlen dst -> rx_bytes (Go.g_rx s) = b1 ++ b2 ++ rest ->
     exists rx', rx_bytes rx' = rest /\ Go.ReadIQ dst s = (inl (h, xs ++ drop (length xs) dst), with_grx s rx')) /\
  (forall s cs, idle s -> Node.buffer s ++ concat cs = b1 ++ b2 ++ rest ->
     arrivals cs (Node.read RTLSTREAM_MAGIC_IQ s) =
     Node.mk_nst rest false false false None (Node.settled s ++ [Some (Node.FData h xs)])).
Proof.
  destruct (iq_encoded h xs b1 b2 Hc E1 E2) as (Hm & Hmax & Hev & -> & ->). split_and!; intros.
  - by apply cpp_reads_iq.
  - by apply go_reads_iq.
  - by apply node_reads_iq.
Qed.

Lemma stream_clients_read_iq_witness :
  let h := mk_hdr RTLSTREAM_MAGIC_IQ 0 0 0 2 in
  let cs := [[0x52; 0x54]; [0x32; 0x49] ++ replicate 27 0 ++ [2; 0xff]; [0xfe; 1; 2; 99]] in
  arrivals cs (Node.read RTLSTREAM_MAGIC_IQ (Node.mk_nst [] false false false None [])) =
  Node.mk_nst [99] false false false None [Some (Node.FData h [-2; 258])].
Proof.
  cbv zeta. apply (stream_clients_read_iq (mk_hdr RTLSTREAM_MAGIC_IQ 0 0 0 2) [-2; 258]
    (hdr_wire (mk_hdr RTLSTREAM_MAGIC_IQ 0 0 0 2)) (iq_wire [-2; 258]) [99]);
    [apply (bool_decide_unpack _); vm_compute; exact I|reflexivity| |reflexivity|reflexivity|by repeat split|reflexivity].
  repeat constructor; apply (bool_decide_unpack _); vm_compute; exact I.
Defined.

End StreamClientsProps.
