(* ===== verification/NodeClient.v ===== *)
(** * Connections of the Node client ([src/stream_client/node/client.js])

    [Module NodeClient]: the client object with its socket: [connect], [request] with [_send], the
    reads of [StreamClients.Node], [close], and the events of the socket in any order.  Promises
    are recorded as they are settled.

    [NodeClientProps]: every promise is settled exactly once, none waits behind the close of the
    socket, and what is written is one request ([node_promises_settle]). *)

From stdpp Require Import relations.
From S2P Require Import Prelude Proto Client StreamClients.

Module NodeClient.
Import Proto Client.

Inductive promise := P_connect | P_request.
#[global] Instance promise_eq_dec : EqDecision promise.
Proof. solve_decision. Defined.

(** The part that reads; whether there is a socket and whether it was destroyed; [_requested];
    whether the listeners of [connect] and of [_send] are attached, that is their promises wait;
    whether the callback of [write] is to come; the promises as they were settled; and what was
    handed to the socket. *)
Record client := mk_client {
  io : Node.nst; socket : bool; destroyed : bool; requested : bool;
  connecting : bool; sending : bool; writing : bool;
  settled : list (promise * bool); written : list Z;
}.
Definition new : client := mk_client (Node.mk_nst [] false false false None []) false false false false false false [] [].

Definition set_io (n : Node.nst) (c : client) : client :=
  mk_client n (socket c) (destroyed c) (requested c) (connecting c) (sending c) (writing c) (settled c) (written c).
Definition settle (p : promise) (ok : bool) (c : client) : client :=
  mk_client (io c) (socket c) (destroyed c) (requested c) (connecting c) (sending c) (writing c) (settled c ++ [(p, ok)]) (written c).

(** [connect] up to its promise. *)
Definition connect (c : client) : client :=
  if socket c || Node.reading (io c) then settle P_connect false c
  else mk_client (Node.mk_nst [] false false (Node.reading (io c)) (Node.pending (io c)) (Node.settled (io c))) true false false
         true (sending c) (writing c) (settled c) (written c).

Definition finish (c : client) : client := set_io (Node.finish (io c)) c.
Definition close (c : client) : client :=
  let c := finish c in
  mk_client (io c) (socket c) (destroyed c || socket c) (requested c) (connecting c) (sending c) (writing c) (settled c) (written c).

Definition send (buf : list Z) (c : client) : client :=
  if negb (socket c) || Node.terminal (io c) || destroyed c then settle P_request false c
  else mk_client (io c) (socket c) (destroyed c) (requested c) (connecting c) true true (settled c) (written c ++ buf).
Definition request (freq rate bandwidth mode : Z) (c : client) : client :=
  match Node.request (requested c) freq rate bandwidth mode with
  | None => settle P_request false c
  | Some buf => send buf (mk_client (io c) (socket c) (destroyed c) true (connecting c) (sending c) (writing c) (settled c) (written c))
  end.

(** The connection is made: [cleanup] and [resolve]. *)
Definition connected (c : client) : client :=
  mk_client (io c) (socket c) (destroyed c) (requested c) false (sending c) (writing c) (settled c ++ [(P_connect, true)]) (written c).
(** An error or the close of the socket: [_finish], then the listeners that are attached. *)
Definition fails (c : client) : client :=
  let c := finish c in
  mk_client (io c) (socket c) (destroyed c) (requested c) false false (writing c)
    (settled c ++ (if connecting c then [(P_connect, false)] else []) ++ (if sending c then [(P_request, false)] else [])) (written c).
(** The callback of [write]; a promise that was rejected before stays as it is. *)
Definition wrote (err : bool) (c : client) : client :=
  let c' := if err then close c else c in
  mk_client (io c') (socket c') (destroyed c') (requested c') (connecting c') false false
    (settled c' ++ if sending c then [(P_request, negb err)] else []) (written c').

(** The calls of the program and the events, with how many promises a call makes. *)
Inductive node_step : client -> list promise -> client -> Prop :=
  | N_connect c : node_step c [P_connect] (connect c)
  | N_request c f r b m : node_step c [P_request] (request f r b m c)
  | N_read c expected : node_step c [] (set_io (Node.read expected (io c)) c)
  | N_close c : node_step c [] (close c)
  | N_connected c : connecting c = true -> node_step c [] (connected c)
  | N_arrive c bytes : socket c = true -> node_step c [] (set_io (Node.arrive bytes (io c)) c)
  | N_end c : socket c = true -> node_step c [] (set_io (Node.peer_ends (io c)) c)
  | N_finish c : socket c = true -> node_step c [] (finish c)
  | N_fails c : socket c = true -> node_step c [] (fails c)
  | N_wrote c err : writing c = true -> node_step c [] (wrote err c).

Inductive node_run : list promise -> client -> Prop :=
  | run_new : node_run [] new
  | run_step l c p c' : node_run l c -> node_step c p c' -> node_run (l ++ p) c'.
End NodeClient.

Module NodeClientProps.
Import Proto Client NodeClient.

Definition is_promise (p q : promise) : nat :=
  match p, q with P_connect, P_connect | P_request, P_request => 1 | _, _ => 0 end.
(** How many promises of a kind were made, and settled. *)
Definition made (p : promise) (l : list promise) : nat := sum_list_with (is_promise p) l.
Definition answers (p : promise) (l : list (promise * bool)) : nat := sum_list_with (fun x => is_promise p x.1) l.
Definition answered (p : promise) (c : client) : nat := answers p (settled c).

Record ninv (l : list promise) (c : client) : Prop := {
  n_connects : made P_connect l = (answered P_connect c + if connecting c then 1 else 0)%nat;
  n_requests : made P_request l = (answered P_request c + if sending c then 1 else 0)%nat;
  n_socket : socket c = false -> connecting c = false /\ sending c = false /\ written c = [];
  n_requested : requested c = false -> sending c = false /\ written c = [];
  n_written : written c = [] \/ exists f r b m, Node.request false f r b m = Some (written c);
}.

Lemma answers_app p x y : answers p (x ++ y) = (answers p x + answers p y)%nat.
Proof. apply sum_list_with_app. Qed.
Lemma made_app p l k : made p (l ++ k) = (made p l + made p k)%nat.
Proof. apply sum_list_with_app. Qed.

Lemma made_one p q : made p [q] = is_promise p q.
Proof. apply Nat.add_0_r. Qed.
Lemma answers_cons p q ok l : answers p ((q, ok) :: l) = (is_promise p q + answers p l)%nat.
Proof. done. Qed.
Lemma answers_nil p : answers p [] = 0%nat.
Proof. done. Qed.

Ltac count :=
  rewrite ?made_app, ?made_one, ?app_nil_r; unfold answered in *; cbn [settled connecting sending settle fails finish close set_io connected app];
  rewrite ?app_nil_r, ?answers_app, ?answers_cons, ?answers_nil; cbn [is_promise]; rewrite ?Nat.add_0_r in *; lia.

Lemma ninv_settled l c p ok : ninv l c -> ninv (l ++ [p]) (settle p ok c).
Proof. intros [N1 N2 N3 N4 N5]. destruct p; split; try done; count. Qed.

Lemma ninv_step l c p c' : ninv l c -> node_step c p c' -> ninv (l ++ p) c'.
Proof.
  intros I H. destruct H as [c|c f r b m|c e|c|c Hc|c bs Hs|c Hs|c Hs|c Hs|c err Hw].
  - unfold connect. destruct (socket c) eqn:Es; [by apply ninv_settled|]. destruct (Node.reading (io c)); [by apply ninv_settled|].
    destruct I as [N1 N2 N3 N4 N5]. destruct (N3 Es) as (E1 & E2 & E3). rewrite E1, E2 in *. cbn [orb].
    split; cbn [connecting sending socket requested written]; rewrite ?E3; auto; count.
  - unfold request. destruct (requested c) eqn:Er.
    { replace (Node.request true f r b m) with (@None (list Z)); [by apply ninv_settled|]. unfold Node.request. by rewrite orb_true_r. }
    destruct (Node.request false f r b m) as [buf|] eqn:Eb; [|by apply ninv_settled].
    destruct I as [N1 N2 N3 N4 N5]. destruct (N4 Er) as [E1 E2]. unfold send. cbn [socket io destroyed]. rewrite E1 in *.
    destruct (negb (socket c) || _ || _) eqn:Ec.
    + split; cbn [connecting sending settle requested socket written]; rewrite ?E1; try done; count.
    + split; cbn [connecting sending requested socket written]; rewrite ?E2; try done; [count|count| |right; by eauto 10].
      intros Hf. by rewrite Hf in Ec.
  - rewrite app_nil_r. by destruct I.
  - rewrite app_nil_r. destruct I as [N1 N2 N3 N4 N5]. by split.
  - destruct I as [N1 N2 N3 N4 N5]. rewrite Hc in N1. split; try done; [count|count|]. intros Hs. by destruct (N3 Hs) as [? _]; congruence.
  - rewrite app_nil_r. by destruct I.
  - rewrite app_nil_r. by destruct I.
  - rewrite app_nil_r. by destruct I.
  - destruct I as [N1 N2 N3 N4 N5]. split; cbn [fails finish set_io connecting sending socket requested written]; try done.
    + unfold answered. cbn [fails finish set_io settled connecting sending]. destruct (connecting c), (sending c); count.
    + unfold answered. cbn [fails finish set_io settled connecting sending]. destruct (connecting c), (sending c); count.
    + intros Hf. congruence.
    + intros Hr. by destruct (N4 Hr).
  - destruct I as [N1 N2 N3 N4 N5]. unfold wrote. destruct err, (sending c) eqn:Es; split;
      cbn [close finish set_io connecting sending socket requested written negb]; try done; try count.
    all: intros Hf; first [destruct (N3 Hf) as (? & ? & ?)|destruct (N4 Hf) as (? & ?)]; congruence || done.
Qed.

Lemma ninv_run l c : node_run l c -> ninv l c.
Proof. induction 1 as [|l c p c' _ IH H]; [by split; try (left; done)|]. by eapply ninv_step. Qed.

(** A read that waits is rejected by [_finish]. *)
Lemma run_terminal p : forall s, Node.terminal s = true -> Node.pending s = None -> Node.pending (Node.run p s) = None.
Proof.
  induction p as [n k IH|p IH| |r]; intros s Ht Hp; cbn [Node.run]; [|by apply IH|done..].
  destruct (n =? 0); [by apply IH|]. by rewrite Ht.
Qed.
Lemma finish_pending s : Node.pending (Node.finish s) = None.
Proof.
  unfold Node.finish, Node.pump. cbn [Node.closed Node.pending]. destruct (Node.pending s) as [[n k]|] eqn:E; [|done]. by apply run_terminal.
Qed.

(** The promises of the Node client, for every order of calls of the program and events of the
    socket: each promise of [connect] and [request] is settled at most once and the ones that are
    not are those whose listeners are attached; behind an error or the close of the socket none of
    them waits, and no read does; and all that is ever handed to the socket is one request of 29
    bytes. *)
Theorem node_promises_settle l c : node_run l c ->
  made P_connect l = (answered P_connect c + if connecting c then 1 else 0)%nat /\
  made P_request l = (answered P_request c + if sending c then 1 else 0)%nat /\
  connecting (fails c) = false /\ sending (fails c) = false /\ Node.pending (io (fails c)) = None /\
  (written c = [] \/ exists f r b m, Node.request false f r b m = Some (written c)).
Proof. intros [N1 N2 _ _ N5]%ninv_run. split_and!; try done. apply finish_pending. Qed.

(** A client cannot be connected again: [close] leaves [socket] set, for which [connect] rejects
    though it resets [_terminal] and [_requested]. *)
Lemma no_reconnect : settled (connect (fails (close (connect new)))) = [(P_connect, false); (P_connect, false)].
Proof. reflexivity. Qed.
End NodeClientProps.
