(* ===== verification/Float.v ===== *)
(** * IEEE-754 arithmetic

    [float] and [double] are the Standard Library's [spec_float] with the two binary
    formats; the operations round to nearest even after each operation, as C does with
    [FLT_EVAL_METHOD = 0] and without contraction.  What the C library computes only
    approximately ([cos], [sin], [exp], [log10], ...) is the interface [Libm]. *)

From Stdlib Require Export Floats.SpecFloat.
From S2P Require Import Prelude.

Abbreviation flt := spec_float.

(** The two formats. *)
Definition f32_add : flt -> flt -> flt := SFadd 24 128.
Definition f32_sub : flt -> flt -> flt := SFsub 24 128.
Definition f32_mul : flt -> flt -> flt := SFmul 24 128.
Definition f32_div : flt -> flt -> flt := SFdiv 24 128.
Definition f64_add : flt -> flt -> flt := SFadd 53 1024.
Definition f64_sub : flt -> flt -> flt := SFsub 53 1024.
Definition f64_mul : flt -> flt -> flt := SFmul 53 1024.
Definition f64_div : flt -> flt -> flt := SFdiv 53 1024.

Definition f_zero : flt := S754_zero false.

(** Conversions. *)
Definition f32_of_Z (z : Z) : flt := binary_normalize 24 128 z 0 false.
Definition f64_of_Z (z : Z) : flt := binary_normalize 53 1024 z 0 false.

Definition f32_of_f64 (x : flt) : flt :=
  match x with
  | S754_finite s m e => binary_normalize 24 128 (cond_Zopp s (Zpos m)) e s
  | _ => x
  end.

(** Widening is exact: every [float] is a [double]. *)
Definition f64_of_f32 (x : flt) : flt :=
  match x with
  | S754_finite s m e => binary_normalize 53 1024 (cond_Zopp s (Zpos m)) e s
  | _ => x
  end.

(** The integer value of a conversion to an integer type (towards zero); C leaves
    infinities and NaN undefined. *)
Definition f_trunc (x : flt) : Z :=
  match x with
  | S754_finite s m e =>
      cond_Zopp s (if 0 <=? e then Zpos m * 2 ^ e else Zpos m / 2 ^ (- e))
  | _ => 0
  end.

(** [round]: to the nearest integer, ties away from zero. *)
Definition f_round (x : flt) : Z :=
  match x with
  | S754_finite s m e =>
      cond_Zopp s (if 0 <=? e then Zpos m * 2 ^ e
                   else (Zpos m + 2 ^ (- e - 1)) / 2 ^ (- e))
  | _ => 0
  end.

Definition f_lt (x y : flt) : bool := SFltb x y.
Definition f_le (x y : flt) : bool := SFleb x y.

(** The rational constant [n / d] of [double] type, for [n] and [d] that are themselves
    doubles, so that the quotient is rounded once. *)
Definition f64_lit (n d : Z) : flt := f64_div (f64_of_Z n) (f64_of_Z d).
Definition f32_lit (n d : Z) : flt := f32_div (f32_of_Z n) (f32_of_Z d).

(** [M_PI] as a [double]: 0x1.921FB54442D18p+1. *)
Definition M_PI : flt := S754_finite false 7074237752028440 (-51).

(** The mathematical library. *)
Class Libm := {
  cos : flt -> flt;
  sin : flt -> flt;
  exp : flt -> flt;
  log10 : flt -> flt;
}.

(** ** Arrays of floats *)

Definition frd (l : list flt) (i : Z) : flt :=
  if i <? 0 then f_zero else default f_zero (l !! Z.to_nat i).
Definition fwr (l : list flt) (i : Z) (x : flt) : list flt :=
  if i <? 0 then l else <[Z.to_nat i := x]> l.

Lemma length_fwr l i x : length (fwr l i x) = length l.
Proof. unfold fwr. destruct (i <? 0); [done|]. apply length_insert. Qed.
Lemma frd_fwr_eq l i x : 0 <= i < zlen l -> frd (fwr l i x) i = x.
Proof.
  unfold zlen, frd, fwr. intros. destruct (Z.ltb_spec i 0); [lia|].
  rewrite list_lookup_insert_eq; [done|lia].
Qed.
Lemma frd_fwr_ne l i j x : 0 <= i -> 0 <= j -> i <> j -> frd (fwr l i x) j = frd l j.
Proof.
  unfold frd, fwr. intros. destruct (Z.ltb_spec i 0); [lia|].
  destruct (Z.ltb_spec j 0); [lia|]. rewrite list_lookup_insert_ne; [done|lia].
Qed.
Lemma frd_replicate n i : frd (replicate n f_zero) i = f_zero.
Proof.
  unfold frd. destruct (i <? 0); [done|]. destruct (_ !! _) eqn:E; [|done].
  apply lookup_replicate in E as [-> _]. done.
Qed.
