(* ===== verification/FloatFacts.v ===== *)
(** * Exactness of integer computations in double precision

    The library computes divider values in [double] and truncates them.  For operands below
    2^53 the truncated quotient is the integer quotient: the rounding of the division never
    reaches the next integer. *)

From S2P Require Import Prelude Float.

(** Normal mantissas. *)
Definition norm53 (m : Z) : Prop := 2 ^ 52 <= m < 2 ^ 53.

Lemma digits_log2 p : Z.pos (digits2_pos p) = Z.log2 (Z.pos p) + 1.
Proof.
  induction p as [p IH|p IH|]; cbn [digits2_pos]; [| |reflexivity]; rewrite Pos2Z.inj_succ, IH.
  - rewrite Pos2Z.inj_xI, Z.log2_succ_double by lia. lia.
  - rewrite Pos2Z.inj_xO, Z.log2_double by lia. lia.
Qed.
Lemma digits_range p d : 0 < d -> 2 ^ (d - 1) <= Z.pos p < 2 ^ d -> Z.pos (digits2_pos p) = d.
Proof.
  intros Hd Hp. rewrite digits_log2. rewrite (Z.log2_unique (Z.pos p) (d - 1)); [lia|lia|].
  replace (Z.succ (d - 1)) with d by lia. exact Hp.
Qed.

Lemma fexp53 d : -1000 <= d -> fexp 53 1024 d = d - 53.
Proof. intros. unfold fexp, emin. lia. Qed.

(** The value of a finite number between two integers. *)
Lemma trunc_between m e n : -200 <= e ->
  n * 2 ^ 200 <= Z.pos m * 2 ^ (e + 200) < (n + 1) * 2 ^ 200 -> f_trunc (S754_finite false m e) = n.
Proof.
  intros He Hv. unfold f_trunc, cond_Zopp. destruct (Z.leb_spec 0 e).
  - rewrite Z.pow_add_r in Hv by lia. assert (0 < 2 ^ 200) by lia. nia.
  - symmetry. apply Z.div_unique with (Z.pos m - n * 2 ^ (- e)); [|lia]. left.
    replace (2 ^ 200) with (2 ^ (- e) * 2 ^ (e + 200)) in Hv by (rewrite <- Z.pow_add_r by lia; f_equal; lia).
    assert (0 < 2 ^ (e + 200)) by (apply Z.pow_pos_nonneg; lia).
    assert (n * 2 ^ (- e) <= Z.pos m < (n + 1) * 2 ^ (- e)) by nia. lia.
Qed.

(** Rounding of a mantissa that needs none. *)
Lemma shr_none m e l : norm53 (Z.pos m) -> -900 <= e ->
  shr_fexp 53 1024 (Z.pos m) e l = (shr_record_of_loc (Z.pos m) l, e).
Proof.
  intros Hm He. unfold shr_fexp. cbn [Zdigits2]. rewrite (digits_range m 53) by (try exact Hm; lia).
  rewrite fexp53 by lia. replace (53 + e - 53 - e) with 0 by lia. done.
Qed.
Lemma round_exact m e : norm53 (Z.pos m) -> -900 <= e <= 900 ->
  binary_round_aux 53 1024 false (Z.pos m) e loc_Exact = S754_finite false m e.
Proof.
  intros Hm He. unfold binary_round_aux. rewrite shr_none by (try done; lia).
  cbn [shr_record_of_loc shr_m loc_of_shr_record round_nearest_even]. rewrite shr_none by (try done; lia).
  cbn [shr_record_of_loc shr_m]. destruct (Z.leb_spec e (1024 - 53)); [done|lia].
Qed.

(** The second normalisation: a mantissa that rounding carried to 2^53. *)
Lemma renorm sx M e : 2 ^ 52 <= M <= 2 ^ 53 -> -900 <= e <= 900 ->
  exists m' e', (let '(mrs, e2) := shr_fexp 53 1024 M e loc_Exact in
     match shr_m mrs with
     | Z0 => S754_zero sx
     | Z.pos m => if e2 <=? 1024 - 53 then S754_finite sx m e2 else S754_infinity sx
     | _ => S754_nan
     end) = S754_finite sx m' e' /\ norm53 (Z.pos m') /\ e <= e' <= e + 1 /\ Z.pos m' * 2 ^ (e' + 1000) = M * 2 ^ (e + 1000).
Proof.
  intros HM He. destruct (decide (M = 2 ^ 53)) as [->|].
  - exists (2 ^ 52)%positive, (e + 1). unfold shr_fexp.
    change (Zdigits2 (2 ^ 53)) with 54. rewrite fexp53 by lia. replace (54 + e - 53 - e) with 1 by lia.
    cbn [shr shr_record_of_loc]. change (iter_pos shr_1 1 _) with (Build_shr_record (2 ^ 52) false false).
    cbn [shr_m]. destruct (Z.leb_spec (e + 1) (1024 - 53)); [|lia].
    split; [done|]. split; [done|]. split; [lia|]. replace (e + 1 + 1000) with (1 + (e + 1000)) by lia.
    rewrite Z.pow_add_r by lia. lia.
  - destruct M as [|m|m]; [lia| |lia]. exists m, e. rewrite shr_none by (unfold norm53; lia).
    cbn [shr_record_of_loc shr_m]. destruct (Z.leb_spec e (1024 - 53)); [|lia].
    split; [done|]. split; [unfold norm53; lia|]. split; [lia|done].
Qed.

(** Rounding an integer mantissa of 53 or 54 bits moves it by at most one unit up, and down
    only by dropping the last bit. *)
Lemma round_near q e l : 2 ^ 52 <= q < 2 ^ 54 -> -800 <= e <= 800 ->
  exists m' e', binary_round_aux 53 1024 false q e l = S754_finite false m' e' /\ norm53 (Z.pos m') /\ e <= e' <= e + 2 /\
    2 * (q / 2) * 2 ^ (e + 1000) <= Z.pos m' * 2 ^ (e' + 1000) <= (q + 1) * 2 ^ (e + 1000).
Proof.
  intros Hq He. assert (HP : 0 < 2 ^ (e + 1000)) by (apply Z.pow_pos_nonneg; lia).
  unfold binary_round_aux. destruct q as [|p|p]; [lia| |lia].
  destruct (Z.lt_ge_cases (Z.pos p) (2 ^ 53)) as [Hs|Hs].
  - rewrite shr_none by (unfold norm53; lia).
    assert (R : exists M, round_nearest_even (shr_m (shr_record_of_loc (Z.pos p) l))
                  (loc_of_shr_record (shr_record_of_loc (Z.pos p) l)) = M /\ (M = Z.pos p \/ M = Z.pos p + 1)).
    { eexists. split; [reflexivity|]. destruct l as [|[| |]]; cbn [shr_record_of_loc shr_m loc_of_shr_record round_nearest_even];
        try tauto. destruct (Z.even (Z.pos p)); tauto. }
    destruct R as (M & -> & HM). destruct (renorm false M e) as (m' & e' & E & N & Hb & V); [lia|lia|].
    exists m', e'. split; [exact E|]. split; [exact N|]. split; [lia|]. rewrite V.
    pose proof (Z.div_mod (Z.pos p) 2 ltac:(lia)). pose proof (Z.mod_pos_bound (Z.pos p) 2 ltac:(lia)). nia.
  - unfold shr_fexp at 1. cbn [Zdigits2]. rewrite (digits_range p 54) by lia.
    rewrite fexp53 by lia. replace (54 + e - 53 - e) with 1 by lia. cbn [shr iter_pos].
    assert (R : exists h M, round_nearest_even (shr_m (shr_1 (shr_record_of_loc (Z.pos p) l)))
                  (loc_of_shr_record (shr_1 (shr_record_of_loc (Z.pos p) l))) = M /\
                (Z.pos p = 2 * h /\ M = h \/ Z.pos p = 2 * h + 1 /\ (M = h \/ M = h + 1))).
    { destruct p as [p|p|]; [| |lia]; exists (Z.pos p); eexists; (split; [reflexivity|]);
      destruct l as [|[| |]]; cbn [shr_record_of_loc shr_1 shr_m loc_of_shr_record round_nearest_even orb];
        try (destruct (Z.even (Z.pos p))); lia. }
    destruct R as (h & M & -> & HM).
    assert (HM2 : 2 ^ 52 <= M <= 2 ^ 53) by (clear HP; lia). destruct (renorm false M (e + 1) HM2 ltac:(clear HP; lia)) as (m' & e' & E & N & Hb & V).
    exists m', e'. split; [exact E|]. split; [exact N|]. split; [lia|]. rewrite V.
    replace (e + 1 + 1000) with (1 + (e + 1000)) by lia. rewrite (Z.pow_add_r 2 1 (e + 1000)) by lia. change (2 ^ 1) with 2.
    pose proof (Z.div_mod (Z.pos p) 2 ltac:(lia)). pose proof (Z.mod_pos_bound (Z.pos p) 2 ltac:(lia)). nia.
Qed.

Lemma iter_xO p n : Z.pos (Pos.iter xO p n) = Z.pos p * 2 ^ Z.pos n.
Proof.
  induction n as [|n IH] using Pos.peano_ind; [cbn; lia|].
  rewrite Pos.iter_succ, Pos2Z.inj_xO, IH, Pos2Z.inj_succ, Z.pow_succ_r by lia. lia.
Qed.

(** Conversion of an integer below 2^53 is exact. *)
Lemma of_Z_exact a : 0 < a < 2 ^ 53 ->
  exists m s, f64_of_Z a = S754_finite false m (- s) /\ norm53 (Z.pos m) /\ 0 <= s <= 52 /\ Z.pos m = a * 2 ^ s.
Proof.
  intros Ha. destruct a as [|p|p]; [lia| |lia]. unfold f64_of_Z, binary_normalize, binary_round.
  pose proof (Z.log2_spec (Z.pos p) ltac:(lia)) as Hl. pose proof (Z.log2_nonneg (Z.pos p)) as H0.
  assert (Hl2 : Z.log2 (Z.pos p) < 53) by (apply Z.log2_lt_pow2; lia).
  rewrite digits_log2, fexp53 by lia. set (d := Z.log2 (Z.pos p)) in *. clearbody d.
  unfold shl_align. replace (d + 1 + 0 - 53 - 0) with (d - 52) by lia.
  destruct (d - 52) as [|n|n] eqn:En; [| lia |].
  - exists p, 0. replace d with 52 in Hl by lia. rewrite round_exact by (try exact Hl; lia).
    split; [done|]. split; [exact Hl|]. lia.
  - exists (Pos.iter xO p n), (Z.pos n).
    assert (Hn : norm53 (Z.pos (Pos.iter xO p n))).
    { rewrite iter_xO. unfold norm53. replace 52 with (d + Z.pos n) by lia. replace 53 with (Z.succ d + Z.pos n) by lia.
      rewrite !Z.pow_add_r by lia. assert (0 < 2 ^ Z.pos n) by (apply Z.pow_pos_nonneg; lia). nia. }
    rewrite round_exact by (try done; lia). replace (d + 1 + 0 - 53) with (- Z.pos n) by lia.
    split; [done|]. split; [done|]. split; [lia|]. apply iter_xO.
Qed.

(** Multiplication by a power of two, given as a number with a sign, is exact. *)
Lemma mul_pow2 sy m e f : norm53 (Z.pos m) -> -400 <= e <= 400 -> -400 <= f <= 400 ->
  f64_mul (S754_finite false m e) (S754_finite sy (2 ^ 52) f) = S754_finite sy m (e + f + 52).
Proof.
  intros Hm He Hf. unfold f64_mul, SFmul. replace (xorb false sy) with sy by (by destruct sy). rewrite Pos.mul_comm.
  unfold binary_round_aux, shr_fexp at 1.
  assert (Hd : Zdigits2 (Z.pos (2 ^ 52 * m)) = 105).
  { cbn [Zdigits2]. apply digits_range; [lia|]. rewrite Pos2Z.inj_mul. unfold norm53 in Hm. lia. }
  rewrite Hd. rewrite fexp53 by lia. replace (105 + (e + f) - 53 - (e + f)) with 52 by lia.
  cbn [shr]. change (shr_record_of_loc (Z.pos (2 ^ 52 * m)) loc_Exact) with (Build_shr_record (Z.pos (2 ^ 52 * m)) false false).
  change (iter_pos shr_1 52 (Build_shr_record (Z.pos (2 ^ 52 * m)) false false)) with (Build_shr_record (Z.pos m) false false).
  cbn [shr_m loc_of_shr_record round_nearest_even]. rewrite shr_none by (try done; lia).
  cbn [shr_record_of_loc shr_m]. destruct (Z.leb_spec (e + f + 52) (1024 - 53)); [done|lia].
Qed.

(** The quotient: [q] is its integer part in units of 2^-k, and rounding moves it by at most one
    unit up and down only by dropping the last bit. *)
Lemma div_near m1 e1 m2 e2 a b :
  norm53 (Z.pos m1) -> norm53 (Z.pos m2) -> -52 <= e1 <= 0 -> -52 <= e2 <= 0 ->
  Z.pos m1 = a * 2 ^ (- e1) -> Z.pos m2 = b * 2 ^ (- e2) -> 0 < a -> 0 < b ->
  let k := e2 - e1 + 53 in
  exists q m e, f64_div (S754_finite false m1 e1) (S754_finite false m2 e2) = S754_finite false m e /\
    norm53 (Z.pos m) /\ -200 <= e <= 200 /\
    b * q <= a * 2 ^ k < b * (q + 1) /\ b * 2 ^ (- e2) < 2 ^ (- e2) * 2 ^ k /\
    2 * (q / 2) * 2 ^ (1000 - k) <= Z.pos m * 2 ^ (e + 1000) <= (q + 1) * 2 ^ (1000 - k).
Proof.
  intros N1 N2 H1 H2 E1 E2 Ha Hb k. unfold f64_div, SFdiv, SFdiv_core_binary. cbn [Zdigits2 xorb].
  rewrite !(digits_range _ 53) by (try exact N1; try exact N2; lia). rewrite fexp53 by lia.
  replace (Z.min (53 + e1 - (53 + e2) - 53) (e1 - e2)) with (e1 - e2 - 53) by lia.
  replace (e1 - e2 - (e1 - e2 - 53)) with 53 by lia. cbv iota. rewrite Z.shiftl_mul_pow2 by lia.
  pose proof (Z.div_eucl_eq (Z.pos m1 * 2 ^ 53) (Z.pos m2) ltac:(lia)) as Q.
  pose proof (Z.mod_pos_bound (Z.pos m1 * 2 ^ 53) (Z.pos m2) ltac:(lia)) as R.
  unfold Z.modulo in R. destruct (Z.div_eucl (Z.pos m1 * 2 ^ 53) (Z.pos m2)) as [q r].
  unfold norm53 in *.
  assert (Hq : 2 ^ 52 <= q < 2 ^ 54) by nia.
  destruct (round_near q (e1 - e2 - 53) (new_location (Z.pos m2) r) Hq ltac:(lia)) as (m' & e' & -> & N' & Hb' & V).
  exists q, m', e'. split; [done|]. split; [done|]. split; [lia|].
  assert (EA : Z.pos m1 * 2 ^ 53 = a * (2 ^ (- e2) * 2 ^ k)).
  { rewrite E1. rewrite <- Z.mul_assoc, <- !Z.pow_add_r by (unfold k; lia). do 2 f_equal. unfold k. lia. }
  assert (P2 : 0 < 2 ^ (- e2)) by (apply Z.pow_pos_nonneg; lia). split; [|split].
  - rewrite EA, E2 in Q. rewrite E2 in R. nia.
  - rewrite <- E2, <- Z.pow_add_r by (unfold k; lia). apply Z.lt_le_trans with (2 ^ 53); [lia|].
    apply Z.pow_le_mono_r; [lia|]. unfold k. lia.
  - by replace (1000 - k) with (e1 - e2 - 53 + 1000) by (unfold k; lia).
Qed.

Lemma div_trunc_norm m1 e1 m2 e2 a b :
  norm53 (Z.pos m1) -> norm53 (Z.pos m2) -> -52 <= e1 <= 0 -> -52 <= e2 <= 0 ->
  Z.pos m1 = a * 2 ^ (- e1) -> Z.pos m2 = b * 2 ^ (- e2) -> 0 < a -> 0 < b ->
  exists m e, f64_div (S754_finite false m1 e1) (S754_finite false m2 e2) = S754_finite false m e /\
    norm53 (Z.pos m) /\ -200 <= e <= 200 /\ f_trunc (S754_finite false m e) = a / b.
Proof.
  intros N1 N2 H1 H2 E1 E2 Ha Hb.
  destruct (div_near m1 e1 m2 e2 a b) as (q & m & e & -> & N' & He & Hq & HT & V); try done.
  exists m, e. split; [done|]. split; [done|]. split; [done|]. apply trunc_between; [lia|].
  set (k := e2 - e1 + 53) in *. set (n := a / b).
  pose proof (Z.div_mod a b ltac:(lia)) as Dn. pose proof (Z.mod_pos_bound a b ltac:(lia)) as Bn. fold n in Dn.
  assert (P2 : 0 < 2 ^ (- e2)) by (apply Z.pow_pos_nonneg; lia).
  assert (Pk : 2 ^ k = 2 * 2 ^ (k - 1)) by (rewrite <- Z.pow_succ_r by (unfold k; lia); f_equal; lia).
  assert (PK : 0 < 2 ^ (k - 1)) by (apply Z.pow_pos_nonneg; unfold k; lia).
  assert (Hbk : b < 2 ^ k) by nia.
  assert (Lo : n * 2 ^ k <= 2 * (q / 2)).
  { assert (n * 2 ^ k <= q) by nia.
    pose proof (Z.div_mod q 2 ltac:(lia)). pose proof (Z.mod_pos_bound q 2 ltac:(lia)). lia. }
  assert (Hi : q + 1 < (n + 1) * 2 ^ k) by nia.
  revert V. replace (e + 1000) with (e + 200 + 800) by lia. rewrite (Z.pow_add_r 2 (e + 200)) by lia.
  assert (EK : 2 ^ k * 2 ^ (1000 - k) = 2 ^ 200 * 2 ^ 800)
    by (rewrite <- !Z.pow_add_r by (unfold k; lia); f_equal; lia).
  assert (Hu : 0 < 2 ^ (1000 - k)) by (apply Z.pow_pos_nonneg; unfold k; lia).
  assert (Hw : 0 < 2 ^ 800) by (apply Z.pow_pos_nonneg; lia).
  set (w := 2 ^ 800) in *. set (W := 2 ^ 200) in *. set (P := 2 ^ (e + 200)). set (u := 2 ^ (1000 - k)) in *.
  set (K := 2 ^ k) in *. clearbody w W P u K. clear - Lo Hi EK Hu Hw. intros V. split.
  - apply (Z.mul_le_mono_pos_r _ _ w Hw). apply Z.le_trans with (n * K * u); [rewrite <- !Z.mul_assoc, EK; lia|].
    apply Z.le_trans with (2 * (q / 2) * u); [apply Z.mul_le_mono_nonneg_r; lia|lia].
  - apply (Z.mul_lt_mono_pos_r w _ _ Hw). apply Z.le_lt_trans with ((q + 1) * u); [lia|].
    apply Z.lt_le_trans with ((n + 1) * K * u); [apply Z.mul_lt_mono_pos_r; lia|rewrite <- !Z.mul_assoc, EK; lia].
Qed.

(** A quotient of integers below 2^53, computed in double precision and truncated, is the
    integer quotient. *)
Lemma div_trunc a b : 0 <= a < 2 ^ 53 -> 0 < b < 2 ^ 53 ->
  f_trunc (f64_div (f64_of_Z a) (f64_of_Z b)) = a / b.
Proof.
  intros Ha Hb. destruct (of_Z_exact b Hb) as (m2 & s2 & -> & N2 & S2 & E2).
  destruct (decide (a = 0)) as [->|]; [by rewrite Z.div_0_l by lia|].
  destruct (of_Z_exact a ltac:(lia)) as (m1 & s1 & -> & N1 & S1 & E1).
  destruct (div_trunc_norm m1 (- s1) m2 (- s2) a b) as (m & e & -> & _ & _ & T); try done; try lia;
    rewrite Z.opp_involutive; done.
Qed.

(** The same with the numerator scaled by 2^22 in double precision. *)
Lemma scaled_div a b : 0 < a < 2 ^ 31 -> 0 < b < 2 ^ 53 ->
  exists m e, f64_div (f64_mul (f64_of_Z a) (f64_of_Z (1 <<' 22))) (f64_of_Z b) = S754_finite false m e /\
    norm53 (Z.pos m) /\ -200 <= e <= 200 /\ f_trunc (S754_finite false m e) = a * 2 ^ 22 / b.
Proof.
  intros Ha Hb. change (f64_of_Z (1 <<' 22)) with (S754_finite false (2 ^ 52) (-30)).
  destruct (of_Z_exact b Hb) as (m2 & s2 & -> & N2 & S2 & E2).
  destruct (of_Z_exact a ltac:(lia)) as (m1 & s1 & -> & N1 & S1 & E1).
  assert (Hs : 22 <= s1).
  { destruct (Z.le_gt_cases 22 s1) as [|Hlt]; [done|]. exfalso.
    assert (2 ^ s1 <= 2 ^ 21) by (apply Z.pow_le_mono_r; lia). unfold norm53 in N1. rewrite E1 in N1. nia. }
  rewrite mul_pow2 by (try done; lia). apply div_trunc_norm; try done; try lia.
  - rewrite E1. rewrite <- Z.mul_assoc, <- Z.pow_add_r by lia. do 2 f_equal. lia.
  - by rewrite Z.opp_involutive.
Qed.
Lemma scaled_div_trunc a b : 0 <= a < 2 ^ 31 -> 0 < b < 2 ^ 53 ->
  f_trunc (f64_div (f64_mul (f64_of_Z a) (f64_of_Z (1 <<' 22))) (f64_of_Z b)) = a * 2 ^ 22 / b.
Proof.
  intros Ha Hb. destruct (decide (a = 0)) as [->|].
  - destruct (of_Z_exact b Hb) as (m2 & s2 & -> & _). by rewrite Z.mul_0_l, Z.div_0_l by lia.
  - by destruct (scaled_div a b ltac:(lia) Hb) as (m & e & -> & _ & _ & T).
Qed.
(** ... and negated. *)
Lemma scaled_div_neg a b : 0 <= a < 2 ^ 31 -> 0 < b < 2 ^ 53 ->
  f_trunc (f64_mul (f64_div (f64_mul (f64_of_Z a) (f64_of_Z (1 <<' 22))) (f64_of_Z b)) (f64_of_Z (-1)))
  = - (a * 2 ^ 22 / b).
Proof.
  intros Ha Hb. change (f64_of_Z (-1)) with (S754_finite true (2 ^ 52) (-52)).
  destruct (decide (a = 0)) as [->|].
  - destruct (of_Z_exact b Hb) as (m2 & s2 & -> & _). by rewrite Z.mul_0_l, Z.div_0_l by lia.
  - destruct (scaled_div a b ltac:(lia) Hb) as (m & e & -> & N & He & T).
    rewrite mul_pow2 by (try done; lia). replace (e + -52 + 52) with e by lia. rewrite <- T. done.
Qed.

(** ** Comparison *)

(** Normal numbers compare as their values. *)
Lemma le_norm m1 e1 m2 e2 : norm53 (Z.pos m1) -> norm53 (Z.pos m2) -> -900 <= e1 -> -900 <= e2 ->
  f_le (S754_finite false m1 e1) (S754_finite false m2 e2) = (Z.pos m1 * 2 ^ (e1 + 1000) <=? Z.pos m2 * 2 ^ (e2 + 1000)).
Proof.
  intros N1 N2 H1 H2. unfold f_le, SFleb, SFcompare. unfold norm53 in *.
  assert (G : forall m m' e e', 2 ^ 52 <= Z.pos m < 2 ^ 53 -> 2 ^ 52 <= Z.pos m' < 2 ^ 53 -> -900 <= e -> e < e' ->
              Z.pos m * 2 ^ (e + 1000) < Z.pos m' * 2 ^ (e' + 1000)).
  { intros m m' e e' Hm Hm' He Hlt. assert (P : 0 < 2 ^ (e + 1000)) by (apply Z.pow_pos_nonneg; lia).
    apply Z.lt_le_trans with (Z.pos m' * (2 * 2 ^ (e + 1000))); [nia|]. apply Z.mul_le_mono_nonneg_l; [lia|].
    rewrite <- Z.pow_succ_r by lia. apply Z.pow_le_mono_r; lia. }
  destruct (Z.compare_spec e1 e2) as [->|Hlt|Hgt].
  - assert (P : 0 < 2 ^ (e2 + 1000)) by (apply Z.pow_pos_nonneg; lia).
    change (Pos.compare_cont Eq m1 m2) with (m1 ?= m2)%positive.
    destruct (Pos.compare_spec m1 m2) as [->|Hm|Hm]; symmetry.
    + apply Z.leb_refl.
    + apply Z.leb_le. apply Z.mul_le_mono_nonneg_r; lia.
    + apply Z.leb_gt. apply Z.mul_lt_mono_pos_r; lia.
  - symmetry. apply Z.leb_le. apply Z.lt_le_incl. by apply G.
  - symmetry. apply Z.leb_gt. by apply G.
Qed.

(** A quotient of small integers compares with an integer as the exact one; only where they
    are equal the test is left open. *)
Lemma div_le_int a b c : 0 < a < 2 ^ 52 -> 0 < b < 2 ^ 53 -> 0 < c < 2 ^ 53 ->
  (f_le (f64_div (f64_of_Z a) (f64_of_Z b)) (f64_of_Z c) = true -> a <= c * b) /\
  (a < c * b -> f_le (f64_div (f64_of_Z a) (f64_of_Z b)) (f64_of_Z c) = true).
Proof.
  intros Ha Hb Hc. destruct (of_Z_exact b Hb) as (m2 & s2 & -> & N2 & S2 & E2).
  destruct (of_Z_exact a ltac:(lia)) as (m1 & s1 & -> & N1 & S1 & E1).
  destruct (of_Z_exact c Hc) as (m3 & s3 & -> & N3 & S3 & E3).
  destruct (div_near m1 (- s1) m2 (- s2) a b) as (q & m & e & -> & N' & He & Hq & HT & V); try done; try lia;
    try (rewrite Z.opp_involutive; done).
  assert (1 <= s1).
  { destruct (decide (s1 = 0)) as [->|]; [|lia]. unfold norm53 in N1. lia. }
  rewrite le_norm by (done || lia). set (k := - s2 - - s1 + 53) in *. rewrite Z.opp_involutive in HT.
  assert (E3' : Z.pos m3 * 2 ^ (- s3 + 1000) = c * 2 ^ k * 2 ^ (1000 - k)).
  { rewrite E3, <- !Z.mul_assoc, <- !Z.pow_add_r by (unfold k; lia). do 2 f_equal. lia. }
  rewrite E3'. assert (Hu : 0 < 2 ^ (1000 - k)) by (apply Z.pow_pos_nonneg; unfold k; lia).
  assert (Hk : 0 < 2 ^ k) by (apply Z.pow_pos_nonneg; unfold k; lia).
  assert (H2b : 2 * b <= 2 ^ k).
  { assert (P2 : 0 < 2 ^ s2) by (apply Z.pow_pos_nonneg; lia). unfold norm53 in N2. rewrite E2 in N2.
    assert (2 ^ 54 <= 2 ^ s2 * 2 ^ k) by (rewrite <- Z.pow_add_r by (unfold k; lia); apply Z.pow_le_mono_r; unfold k; lia). nia. }
  set (u := 2 ^ (1000 - k)) in *. set (K := 2 ^ k) in *. set (v := Z.pos m * 2 ^ (e + 1000)) in *.
  pose proof (Z.div_mod q 2 ltac:(lia)). pose proof (Z.mod_pos_bound q 2 ltac:(lia)).
  clearbody u K v. split.
  - intros Hle. apply Z.leb_le in Hle. assert (2 * (q / 2) <= c * K) by nia. nia.
  - intros Hlt. apply Z.leb_le. assert (q + 1 <= c * K) by nia. nia.
Qed.
