(* ===== verification/DspPlan.v ===== *)
(** * Planning the decimation chain ([make_plan], [rtlsdr_dsp_validate] of [src/src/rtl_dsp.c])

    A channel of [output_rate] is cut out of a capture of [input_rate] by a chain of at
    most five decimating filters.  [make_plan] checks the request, factors the ratio,
    orders the factors and sizes the filters.  The theorems show which requests it
    accepts, that the factors multiply to the ratio and are in descending order, that the
    filter lengths are odd and within the budget, and that no division by zero and no
    64-bit wrap-around happens on the way. *)

From Stdlib Require Import Sorting.Sorted.
From S2P Require Import Prelude Float.

Module DspPlan.

Definition MAX_TAPS : Z := 16383.
Definition MAX_STAGES : Z := 5.

(** [factors], [taps] and [cutoffs] hold the first [num_stages] entries of the arrays. *)
Record dsp_plan := mk_plan {
  plan_bandwidth : Z;
  plan_num_stages : Z;
  plan_factors : list Z;
  plan_taps : list Z;
  plan_cutoffs : list flt;
}.

(** [for (f = 4; f >= 2; f--) if (remaining % f == 0) break;] and the final [f]. *)
Fixpoint small_factor (fuel : nat) (f remaining : Z) : Z :=
  match fuel with
  | O => f
  | S fuel' =>
      if 2 <=? f then
        if Z.rem remaining f =? 0 then f else small_factor fuel' (f - 1) remaining
      else f
  end.

(** [for (f = 5; f * f <= remaining; f++) if (remaining % f == 0) break;]. *)
Fixpoint big_factor (fuel : nat) (f remaining : Z) : Z :=
  match fuel with
  | O => f
  | S fuel' =>
      if f * f <=? remaining then
        if Z.rem remaining f =? 0 then f else big_factor fuel' (f + 1) remaining
      else f
  end.

(** The factor the loop body takes out of [remaining]; [None] for its [break]. *)
Definition next_factor (remaining : Z) : option Z :=
  let f := small_factor 3 4 remaining in
  if f <? 2 then
    let f := big_factor (Z.to_nat remaining) 5 remaining in
    if remaining <? f * f then None else Some f
  else Some f.

(** [while (remaining > 1 && n < MAX_STAGES - 1)]: the factors and the final
    [remaining].  The number of stages left bounds the number of rounds. *)
Fixpoint factor_loop (left : nat) (remaining : Z) : list Z * Z :=
  match left with
  | O => ([], remaining)
  | S left' =>
      if 1 <? remaining then
        match next_factor remaining with
        | None => ([], remaining)
        | Some f =>
            let '(fs, r) := factor_loop left' (Z.quot remaining f) in (f :: fs, r)
        end
      else ([], remaining)
  end.

Definition factorize (ratio : Z) : list Z :=
  let '(fs, r) := factor_loop (Z.to_nat (MAX_STAGES - 1)) ratio in
  if (1 <? r) || bool_decide (fs = []) then fs ++ [r] else fs.

(** The inner loop for one [i]: [x] is [factors[i]], [l] the entries behind it; a larger
    [factors[j]] changes places with [factors[i]]. *)
Fixpoint exchange (x : Z) (l : list Z) : Z * list Z :=
  match l with
  | [] => (x, [])
  | y :: l' =>
      if x <? y
      then let '(m, l'') := exchange y l' in (m, x :: l'')
      else let '(m, l'') := exchange x l' in (m, y :: l'')
  end.

(** The two nested loops, [n] positions from the front. *)
Fixpoint exchange_sort (n : nat) (l : list Z) : list Z :=
  match n, l with
  | S n', x :: l' => let '(m, l'') := exchange x l' in m :: exchange_sort n' l''
  | _, _ => l
  end.

Definition product (fs : list Z) : Z := fold_left (fun p f => u64 (p * f)) fs 1.

(** One stage's filter length, [None] when it exceeds the budget. *)
Definition stage_taps (rate next_rate bandwidth : Z) : option Z :=
  let transition := u64 (next_rate - bandwidth) in
  let taps := u64 (u64 (u64 (16 * rate) + transition) - 1) / transition in
  let taps := if taps <? 3 then 3 else taps in
  let taps := if taps &' 1 =? 0 then u64 (taps + 1) else taps in
  if MAX_TAPS <? taps then None else Some taps.

Definition stage_cutoff (rate next_rate bandwidth : Z) : flt :=
  f64_div (f64_of_Z (u64 (bandwidth + next_rate))) (f64_mul (f64_of_Z 4) (f64_of_Z rate)).

(** The last loop of [make_plan]. *)
Fixpoint plan_stages (raw : bool) (bandwidth rate : Z) (fs : list Z)
    : option (list (Z * flt)) :=
  match fs with
  | [] => Some []
  | f :: fs' =>
      let next_rate := rate / f in
      t ← (if raw then Some (1, f64_lit 1 2)
           else taps ← stage_taps rate next_rate bandwidth;
                Some (taps, stage_cutoff rate next_rate bandwidth));
      ts ← plan_stages raw bandwidth next_rate fs';
      Some (t :: ts)
  end.

(** [None] for the returned -1 (the callers then ignore the plan). *)
Definition make_plan (input_rate output_rate bandwidth freq_offset : Z) : option dsp_plan :=
  let raw := (bandwidth =? input_rate) && (output_rate =? input_rate) && (freq_offset =? 0) in
  if (output_rate =? 0) || (input_rate <? output_rate) || (UINT32_MAX <? input_rate)
     || negb (input_rate mod output_rate =? 0) || (4096 <? input_rate / output_rate)
     || (freq_offset =? INT64_MIN)
  then None
  else
    let dflt := u64 (4 * output_rate) / 5 in
    let bandwidth := if bandwidth =? 0 then dflt else bandwidth in
    if (bandwidth =? 0) || (negb raw && (dflt <? bandwidth)) then None
    else
      let offset := u64 (if freq_offset <? 0 then - freq_offset else freq_offset) in
      if u64 (input_rate - bandwidth) / 2 <? offset then None
      else
        let fs := factorize (input_rate / output_rate) in
        let fs := exchange_sort (length fs) fs in
        if negb (product fs =? input_rate / output_rate) then None
        else
          ts ← plan_stages raw bandwidth input_rate fs;
          Some (mk_plan bandwidth (zlen fs) fs (fst <$> ts) (snd <$> ts)).

(** [effective_bandwidth] is written through its pointer only on success. *)
Definition rtlsdr_dsp_validate (input_rate output_rate bandwidth freq_offset : Z)
    (effective_bandwidth : option Z) : Z * option Z :=
  match make_plan input_rate output_rate bandwidth freq_offset with
  | None => (-1, effective_bandwidth)
  | Some plan => (0, (fun _ => plan_bandwidth plan) <$> effective_bandwidth)
  end.

End DspPlan.

Module DspPlanFacts.
Import DspPlan.

Definition prod (fs : list Z) : Z := foldr Z.mul 1 fs.

Lemma prod_app l1 l2 : prod (l1 ++ l2) = prod l1 * prod l2.
Proof. induction l1 as [|x l1 IH]; simpl; [lia|]. unfold prod in *. simpl. rewrite IH. lia. Qed.

Lemma prod_perm l1 l2 : l1 ≡ₚ l2 -> prod l1 = prod l2.
Proof. unfold prod. induction 1; simpl; lia. Qed.

Lemma prod_pos fs : Forall (Z.le 1) fs -> 1 <= prod fs.
Proof. induction 1; unfold prod in *; simpl in *; nia. Qed.

(** ** Factoring *)

Lemma small_factor_spec r : 1 < r ->
  let f := small_factor 3 4 r in f = 1 \/ (2 <= f /\ Z.rem r f = 0).
Proof.
  intros Hr. cbn [small_factor]. simpl (2 <=? _). cbv iota.
  change (4 - 1) with 3. change (3 - 1) with 2. change (2 - 1) with 1. simpl (2 <=? _). cbv iota.
  repeat case_test; rewrite ?Z.eqb_eq in *; auto; right; split; auto; lia.
Qed.

Lemma big_factor_spec fuel f r : 2 <= f -> r < (f + Z.of_nat fuel) * (f + Z.of_nat fuel) ->
  let g := big_factor fuel f r in 2 <= g /\ (r < g * g \/ Z.rem r g = 0).
Proof.
  revert f. induction fuel as [|fuel IH]; intros f Hf Hr; simpl; [split; lia|].
  destruct (Z.leb_spec (f * f) r); [|lia].
  destruct (Z.eqb_spec (Z.rem r f) 0); [lia|]. apply IH; [lia|].
  replace (f + 1 + Z.of_nat fuel) with (f + Z.of_nat (S fuel)) by lia. done.
Qed.

Lemma next_factor_spec r f : 1 < r -> next_factor r = Some f -> 2 <= f /\ Z.rem r f = 0.
Proof.
  intros Hr. unfold next_factor. pose proof (small_factor_spec r Hr) as Hs. cbv zeta in Hs.
  destruct (small_factor 3 4 r <? 2) eqn:E; [|intros [= <-]; apply Z.ltb_ge in E; by destruct Hs; [lia|]].
  pose proof (big_factor_spec (Z.to_nat r) 5 r) as Hb. cbv zeta in Hb.
  destruct (r <? _) eqn:E2; [done|]. intros [= <-]. apply Z.ltb_ge in E2.
  destruct Hb as [? [?|?]]; [lia|nia|lia|done].
Qed.

Lemma factor_loop_spec left r fs r' :
  1 <= r -> factor_loop left r = (fs, r') ->
  prod fs * r' = r /\ Forall (Z.le 2) fs /\ 1 <= r' /\ (length fs <= left)%nat.
Proof.
  revert r fs r'. induction left as [|left IH]; intros r fs r' Hr; simpl.
  { intros [= <- <-]. unfold prod. simpl. split_and!; auto; lia. }
  destruct (Z.ltb_spec 1 r); [|intros [= <- <-]; unfold prod; simpl; split_and!; auto; lia].
  destruct (next_factor r) as [f|] eqn:En;
    [|intros [= <- <-]; unfold prod; simpl; split_and!; auto; lia].
  destruct (next_factor_spec r f) as [Hf Hm]; auto.
  pose proof (Z.quot_rem' r f) as Hq. assert (Hrq : r = f * Z.quot r f) by lia.
  assert (1 <= Z.quot r f) by nia.
  destruct (factor_loop left (Z.quot r f)) as [fs0 r0] eqn:El. intros [= <- <-].
  destruct (IH _ _ _ ltac:(done) El) as (Hp&Hall&?&?).
  unfold prod in *. simpl. split_and!; auto; [|lia]. rewrite <- Z.mul_assoc, Hp. lia.
Qed.

Lemma factorize_spec ratio :
  1 <= ratio ->
  prod (factorize ratio) = ratio /\ Forall (Z.le 1) (factorize ratio) /\
  1 <= zlen (factorize ratio) <= MAX_STAGES.
Proof.
  intros Hr. unfold factorize.
  destruct (factor_loop (Z.to_nat (MAX_STAGES - 1)) ratio) as [fs r] eqn:E.
  destruct (factor_loop_spec _ _ _ _ Hr E) as (Hp&Hall&Hr'&Hl).
  assert (Forall (Z.le 1) fs) by (eapply Forall_impl; [|exact Hall]; simpl; lia).
  unfold zlen. change (Z.to_nat (MAX_STAGES - 1)) with 4%nat in Hl. unfold MAX_STAGES.
  destruct (1 <? r) eqn:Er; simpl.
  - rewrite prod_app, length_app, Forall_app. unfold prod at 2. simpl.
    split_and!; auto; lia.
  - apply Z.ltb_ge in Er. assert (r = 1) as -> by lia.
    destruct fs as [|f fs]; simpl; [unfold prod in *; simpl in *; split_and!; auto; lia|].
    rewrite Z.mul_1_r in Hp. simpl in Hl. split_and!; auto; lia.
Qed.

(** ** Ordering *)

Lemma exchange_spec x l m l' :
  exchange x l = (m, l') -> m :: l' ≡ₚ x :: l /\ Forall (fun y => y <= m) (x :: l).
Proof.
  revert x m l'. induction l as [|y l IH]; intros x m l'; simpl.
  { intros [= <- <-]. split; [done|]. repeat constructor; lia. }
  destruct (Z.ltb_spec x y) as [Hxy|Hxy].
  - destruct (exchange y l) as [m0 l0] eqn:E. intros [= <- <-].
    destruct (IH _ _ _ E) as [Hp Hall]. split.
    + by rewrite (Permutation_swap x m0 l0), Hp.
    + apply Forall_cons_1 in Hall as [Hy Hl]. repeat constructor; auto; lia.
  - destruct (exchange x l) as [m0 l0] eqn:E. intros [= <- <-].
    destruct (IH _ _ _ E) as [Hp Hall]. split.
    + rewrite (Permutation_swap y m0 l0), Hp. apply Permutation_swap.
    + apply Forall_cons_1 in Hall as [Hx Hl]. repeat constructor; auto; lia.
Qed.

Lemma exchange_sort_spec n l :
  (length l <= n)%nat ->
  exchange_sort n l ≡ₚ l /\ StronglySorted Z.ge (exchange_sort n l).
Proof.
  revert l. induction n as [|n IH]; intros [|x l] Hl; simpl in *; try lia;
    try (split; [done|constructor]).
  destruct (exchange x l) as [m l'] eqn:E. destruct (exchange_spec _ _ _ _ E) as [Hp Hall].
  assert (length l' = length l) by (apply Permutation_length in Hp; simpl in Hp; lia).
  destruct (IH l') as [Hp' Hs]; [lia|]. split; [by rewrite Hp'|].
  constructor; [done|]. rewrite Hp'. rewrite <- Hp in Hall. apply Forall_cons_1 in Hall as [_ Hall].
  eapply Forall_impl; [|exact Hall]. simpl. lia.
Qed.

(** The 64-bit product does not wrap. *)
Lemma product_prod_aux fs acc :
  Forall (Z.le 1) fs -> 1 <= acc -> acc * prod fs < 2 ^ 64 ->
  fold_left (fun p f => u64 (p * f)) fs acc = acc * prod fs.
Proof.
  intros Hall. revert acc. induction Hall as [|f fs Hf Hall IH]; intros acc Ha Hb.
  { unfold prod. simpl. lia. }
  assert (1 <= prod fs) by (by apply prod_pos).
  unfold prod in *. simpl in *. rewrite u64_id by (unfold is_u; nia).
  rewrite IH by nia. lia.
Qed.

Lemma product_prod fs : Forall (Z.le 1) fs -> prod fs < 2 ^ 64 -> product fs = prod fs.
Proof. intros. unfold product. rewrite product_prod_aux by (auto; lia). lia. Qed.

(** The factors of a plan. *)
Lemma sorted_factors ratio fs :
  1 <= ratio -> fs = exchange_sort (length (factorize ratio)) (factorize ratio) ->
  prod fs = ratio /\ Forall (Z.le 1) fs /\ 1 <= zlen fs <= MAX_STAGES /\ StronglySorted Z.ge fs.
Proof.
  intros Hr ->. destruct (factorize_spec ratio Hr) as (Hp&Hall&Hl).
  destruct (exchange_sort_spec (length (factorize ratio)) (factorize ratio)) as [Hperm Hs]; [done|].
  split_and!.
  - by rewrite (prod_perm _ _ Hperm).
  - by rewrite Hperm.
  - unfold zlen. rewrite Hperm. apply Hl.
  - unfold zlen. rewrite Hperm. apply Hl.
  - done.
Qed.

(** ** Filter lengths, without wrap-around *)

(** Smallest odd number of taps that is at least 3 and at least
    [16 * rate / (next_rate - bandwidth)]. *)
Definition taps_needed (rate next_rate bandwidth : Z) : Z :=
  let d := next_rate - bandwidth in
  let t := Z.max 3 ((16 * rate + d - 1) / d) in
  if Z.even t then t + 1 else t.

(** Input and output rate of every stage of a chain that ends at [output_rate]. *)
Fixpoint stage_rates (output_rate : Z) (fs : list Z) : list (Z * Z) :=
  match fs with
  | [] => []
  | f :: fs' => (output_rate * prod fs, output_rate * prod fs') :: stage_rates output_rate fs'
  end.

Lemma taps_needed_odd rate next bw :
  Z.odd (taps_needed rate next bw) = true /\ 3 <= taps_needed rate next bw.
Proof.
  unfold taps_needed. destruct (Z.even (Z.max _ _)) eqn:E.
  - rewrite Z.add_1_r, Z.odd_succ. split; [done|lia].
  - rewrite <- Z.negb_even, E. split; [done|lia].
Qed.

Lemma stage_taps_eq rate next bw :
  0 < bw -> bw < next -> next <= rate -> rate <= UINT32_MAX ->
  stage_taps rate next bw
  = if MAX_TAPS <? taps_needed rate next bw then None else Some (taps_needed rate next bw).
Proof.
  intros Hb Hn Hr Hm. unfold stage_taps, taps_needed. cbv zeta.
  rewrite (u64_id (next - bw)) by clia. rewrite (u64_id (16 * rate)) by clia.
  rewrite (u64_id (16 * rate + _)) by clia. rewrite (u64_id (_ - 1)) by clia.
  set (q := (16 * rate + (next - bw) - 1) / (next - bw)).
  assert (Hq : 0 <= q <= 17 * UINT32_MAX).
  { unfold q. split; [apply Z.div_pos; clia|]. apply Z.div_le_upper_bound; [lia|]. clia. }
  assert (Ht : (if q <? 3 then 3 else q) = Z.max 3 q) by ztests. rewrite Ht.
  rewrite (Z.land_ones _ 1), Zmod_even by lia.
  destruct (Z.even (Z.max 3 q)); simpl (_ =? 0); cbv iota; [|done].
  rewrite u64_id by clia. done.
Qed.

Lemma stages_rates_mono or fs :
  Forall (Z.le 1) fs -> 0 < or ->
  Forall (fun '(r, n) => or <= n <= r /\ r <= or * prod fs) (stage_rates or fs).
Proof.
  induction 1 as [|f fs Hf Hall IH]; intros Ho; simpl; [done|].
  assert (1 <= prod fs) by (by apply prod_pos).
  unfold prod in *. simpl in *. constructor; [nia|].
  eapply Forall_impl; [|by apply IH]. intros [r n]. nia.
Qed.

(** The stages of a filtered plan. *)
Lemma plan_stages_eq or bw fs :
  Forall (Z.le 1) fs -> 0 < bw < or -> or * prod fs <= UINT32_MAX ->
  plan_stages false bw (or * prod fs) fs
  = if bool_decide (Forall (fun '(r, n) => taps_needed r n bw <= MAX_TAPS) (stage_rates or fs))
    then Some ((fun '(r, n) => (taps_needed r n bw, stage_cutoff r n bw)) <$> stage_rates or fs)
    else None.
Proof.
  induction 1 as [|f fs Hf Hall IH]; intros Hb Hm; cbn [plan_stages stage_rates].
  { by rewrite bool_decide_true by done. }
  assert (1 <= prod fs) by (by apply prod_pos).
  assert (Hd : or * prod (f :: fs) / f = or * prod fs).
  { unfold prod. simpl. replace (or * (f * _)) with (or * prod fs * f) by (unfold prod; lia).
    apply Z.div_mul. lia. }
  assert (Hp : prod (f :: fs) = f * prod fs) by done.
  assert (or <= or * prod fs) by nia.
  assert (or * prod fs <= or * prod (f :: fs)) by (rewrite Hp; nia).
  rewrite Hd. rewrite stage_taps_eq by lia.
  rewrite IH by lia. destruct (Z.ltb_spec MAX_TAPS (taps_needed (or * prod (f :: fs)) (or * prod fs) bw)).
  - cbn [mbind option_bind]. rewrite bool_decide_false; [done|].
    intros Hc. apply Forall_cons_1 in Hc as [? _]. lia.
  - cbn [mbind option_bind]. case_bool_decide as Hr; cbn [mbind option_bind].
    + rewrite bool_decide_true; [done|]. by constructor; [lia|].
    + rewrite bool_decide_false; [done|]. intros Hc. by apply Forall_cons_1 in Hc as [_ ?].
Qed.

Lemma plan_stages_raw bw rate fs :
  plan_stages true bw rate fs = Some (replicate (length fs) (1, f64_lit 1 2)).
Proof. revert rate. induction fs as [|f fs IH]; intros rate; [done|]. simpl. by rewrite IH. Qed.

(** ** The requests [make_plan] takes *)

Definition is_raw (ir or bw off : Z) : Prop := bw = ir /\ or = ir /\ off = 0.

#[global] Instance is_raw_dec ir or bw off : Decision (is_raw ir or bw off).
Proof. unfold is_raw. apply _. Defined.

Definition eff_bandwidth (or bw : Z) : Z := if bw =? 0 then 4 * or / 5 else bw.

Record request_ok (ir or bw off : Z) : Prop := {
  ro_rates : 0 < or <= ir /\ ir <= UINT32_MAX;
  ro_divides : ir mod or = 0;
  ro_ratio : ir / or <= 4096;
  ro_offset : off <> INT64_MIN;
  ro_bandwidth : 0 < eff_bandwidth or bw;
  ro_passband : is_raw ir or bw off \/ 5 * eff_bandwidth or bw <= 4 * or;
  ro_placement : 2 * Z.abs off <= ir - eff_bandwidth or bw;
}.

#[global] Instance request_ok_dec ir or bw off : Decision (request_ok ir or bw off).
Proof.
  destruct (decide ((0 < or <= ir /\ ir <= UINT32_MAX) /\ ir mod or = 0 /\ ir / or <= 4096 /\
    off <> INT64_MIN /\ 0 < eff_bandwidth or bw /\
    (is_raw ir or bw off \/ 5 * eff_bandwidth or bw <= 4 * or) /\
    2 * Z.abs off <= ir - eff_bandwidth or bw)) as [H|H]; [left|right].
  - split; apply H.
  - intros []. apply H. auto 10.
Defined.

(** The planned factors of a request. *)
Definition plan_factors_of (ir or : Z) : list Z :=
  exchange_sort (length (factorize (ir / or))) (factorize (ir / or)).

Lemma raw_test ir or bw off :
  (bw =? ir) && (or =? ir) && (off =? 0) = bool_decide (is_raw ir or bw off).
Proof.
  apply eq_true_iff_eq. rewrite bool_decide_eq_true, !andb_true_iff, !Z.eqb_eq.
  unfold is_raw. tauto.
Qed.

Lemma div_floor_le a b c : 0 < c -> (b <= a / c <-> c * b <= a).
Proof.
  intros. split; intros.
  - pose proof (Z.mul_div_le a c). nia.
  - apply Z.div_le_lower_bound; lia.
Qed.

Lemma make_plan_bad ir or bw off :
  is_u 64 ir -> is_u 64 or -> is_u 64 bw -> is_s 64 off ->
  ~ request_ok ir or bw off -> make_plan ir or bw off = None.
Proof.
  intros Hi Ho Hb Hf Hbad. unfold make_plan. rewrite raw_test.
  destruct (_ || _) eqn:G1; [done|].
  rewrite !orb_false_iff, negb_false_iff, !Z.eqb_neq, Z.eqb_eq, !Z.ltb_ge in G1.
  destruct G1 as [[[[[? ?] ?] ?] ?] ?].
  assert (Hd : u64 (4 * or) / 5 = 4 * or / 5) by (rewrite u64_id; clia). cbv zeta. rewrite Hd.
  fold (eff_bandwidth or bw).
  destruct ((eff_bandwidth or bw =? 0) || _) eqn:G2; [done|].
  rewrite orb_false_iff, andb_false_iff, negb_false_iff, bool_decide_eq_true, Z.eqb_neq, Z.ltb_ge in G2.
  assert (He : 0 < eff_bandwidth or bw) by (unfold eff_bandwidth in *; destruct (bw =? 0); cdlia).
  assert (Hp : is_raw ir or bw off \/ 5 * eff_bandwidth or bw <= 4 * or).
  { destruct G2 as [_ [?|?]]; [by left|right]. apply div_floor_le; [lia|done]. }
  assert (Hle : eff_bandwidth or bw <= ir).
  { destruct Hp as [(->&->&->)|?]; [|lia]. unfold eff_bandwidth. destruct (Z.eqb_spec ir 0); lia. }
  replace (u64 (if off <? 0 then - off else off)) with (Z.abs off).
  2: { symmetry. destruct (Z.ltb_spec off 0); rewrite u64_id; clia. }
  rewrite (u64_id (ir - _)) by clia.
  destruct (_ <? Z.abs off) eqn:G3; [done|]. apply Z.ltb_ge in G3.
  apply div_floor_le in G3; [|lia].
  exfalso. apply Hbad. split; auto; clia.
Qed.

Lemma make_plan_good ir or bw off :
  is_u 64 bw -> is_s 64 off -> request_ok ir or bw off ->
  make_plan ir or bw off
  = ts ← plan_stages (bool_decide (is_raw ir or bw off)) (eff_bandwidth or bw) ir (plan_factors_of ir or);
    Some (mk_plan (eff_bandwidth or bw) (zlen (plan_factors_of ir or)) (plan_factors_of ir or)
            (fst <$> ts) (snd <$> ts)).
Proof.
  intros Hb Hf []. unfold make_plan. rewrite raw_test. cbv zeta.
  destruct ro_rates0 as [? ?].
  replace (_ || _ || _ || _ || _ || _) with false.
  2: { symmetry. rewrite ro_divides0. simpl. ztests; done. }
  assert (Hd : u64 (4 * or) / 5 = 4 * or / 5) by (rewrite u64_id; clia). rewrite Hd.
  fold (eff_bandwidth or bw).
  replace (_ || _) with false.
  2: { symmetry. destruct (Z.eqb_spec (eff_bandwidth or bw) 0); [lia|]. simpl.
       case_bool_decide; [done|]. destruct ro_passband0; [done|]. simpl.
       apply Z.ltb_ge. apply div_floor_le; lia. }
  replace (u64 (if off <? 0 then - off else off)) with (Z.abs off).
  2: { symmetry. destruct (Z.ltb_spec off 0); rewrite u64_id; clia. }
  assert (eff_bandwidth or bw <= ir) by lia.
  rewrite (u64_id (ir - _)) by clia.
  replace (_ <? Z.abs off) with false by (symmetry; apply Z.ltb_ge, div_floor_le; lia).
  assert (Hr : 1 <= ir / or) by (apply Z.div_le_lower_bound; lia).
  fold (plan_factors_of ir or).
  destruct (sorted_factors (ir / or) _ Hr eq_refl) as (Hp&Hall&_&_).
  fold (plan_factors_of ir or) in Hp, Hall.
  rewrite product_prod by (auto; rewrite Hp; lia). rewrite Hp, Z.eqb_refl. done.
Qed.
Lemma request_ok_ratio ir or bw off :
  request_ok ir or bw off ->
  1 <= ir / or /\ ir = or * (ir / or) /\
  prod (plan_factors_of ir or) = ir / or /\ Forall (Z.le 1) (plan_factors_of ir or) /\
  1 <= zlen (plan_factors_of ir or) <= MAX_STAGES /\ StronglySorted Z.ge (plan_factors_of ir or).
Proof.
  intros []. destruct ro_rates0 as [? ?].
  assert (1 <= ir / or) by (apply Z.div_le_lower_bound; lia).
  split_and!; auto; try apply (sorted_factors (ir / or)); auto.
  pose proof (Z.div_mod ir or). lia.
Qed.

Lemma passband_lt ir or bw off :
  request_ok ir or bw off -> ~ is_raw ir or bw off -> 0 < eff_bandwidth or bw < or.
Proof. intros [] Hr. destruct ro_passband0; [done|]. lia. Qed.

Lemma length_stage_rates o fs : length (stage_rates o fs) = length fs.
Proof. induction fs; simpl; auto. Qed.

(** What a returned plan looks like. *)
Lemma make_plan_inv ir or bw off p :
  is_u 64 ir -> is_u 64 or -> is_u 64 bw -> is_s 64 off ->
  make_plan ir or bw off = Some p ->
  let fs := plan_factors_of ir or in
  request_ok ir or bw off /\ plan_bandwidth p = eff_bandwidth or bw /\
  plan_num_stages p = zlen fs /\ plan_factors p = fs /\ length (plan_cutoffs p) = length fs /\
  ((is_raw ir or bw off /\ plan_taps p = replicate (length fs) 1) \/
   (~ is_raw ir or bw off /\
    plan_taps p = (fun '(r, n) => taps_needed r n (eff_bandwidth or bw)) <$> stage_rates or fs /\
    Forall (fun t => t <= MAX_TAPS) (plan_taps p))).
Proof.
  intros Hi Ho Hb Hf Hp. cbv zeta.
  destruct (decide (request_ok ir or bw off)) as [Hok|Hno]; [|by rewrite make_plan_bad in Hp].
  destruct (request_ok_ratio _ _ _ _ Hok) as (?&Hir&Hprod&Hall&_).
  rewrite make_plan_good in Hp by done. split; [done|].
  destruct (decide (is_raw ir or bw off)) as [Hraw|Hraw].
  - rewrite bool_decide_true, plan_stages_raw in Hp by done. injection Hp as <-. simpl.
    rewrite length_fmap, length_replicate, fmap_replicate. auto 10.
  - rewrite bool_decide_false in Hp by done. rewrite Hir in Hp at 1. rewrite <- Hprod in Hp at 1.
    rewrite plan_stages_eq in Hp; [|done|by eapply passband_lt|rewrite Hprod, <- Hir; apply Hok].
    case_bool_decide as Ht; [|done]. injection Hp as <-. simpl.
    rewrite <- !list_fmap_compose, length_fmap, length_stage_rates.
    assert (Hc : fst ∘ (fun '(r, n) => (taps_needed r n (eff_bandwidth or bw), stage_cutoff r n (eff_bandwidth or bw)))
      <$> stage_rates or (plan_factors_of ir or)
      = (fun '(r, n) => taps_needed r n (eff_bandwidth or bw)) <$> stage_rates or (plan_factors_of ir or))
      by (apply list_fmap_ext; by intros ? [? ?]).
    rewrite Hc. split_and!; auto. right. split_and!; auto.
    apply Forall_fmap. eapply Forall_impl; [|exact Ht]. by intros [r n].
Qed.

(** The effective bandwidth of a plan asks for the same plan. *)
Lemma make_plan_idem ir or bw off p :
  is_u 64 ir -> is_u 64 or -> is_u 64 bw -> is_s 64 off ->
  make_plan ir or bw off = Some p -> make_plan ir or (plan_bandwidth p) off = Some p.
Proof.
  intros Hi Ho Hb Hf Hp. destruct (make_plan_inv _ _ _ _ _ Hi Ho Hb Hf Hp) as (Hok&Eb&_).
  assert (Hpos : 0 < eff_bandwidth or bw) by apply Hok.
  assert (He : eff_bandwidth or (eff_bandwidth or bw) = eff_bandwidth or bw)
    by (unfold eff_bandwidth at 1; ztests).
  assert (Hr : is_raw ir or (eff_bandwidth or bw) off <-> is_raw ir or bw off).
  { destruct Hok. unfold eff_bandwidth, is_raw in *. destruct (Z.eqb_spec bw 0); [|done]. lia. }
  assert (Hub : is_u 64 (eff_bandwidth or bw)).
  { destruct Hok. clear -Hpos ro_placement0 ro_rates0. clia. }
  rewrite Eb. rewrite make_plan_good in Hp by done. rewrite make_plan_good, He by first
    [done | destruct Hok; split; rewrite ?He; auto; by rewrite Hr].
  rewrite <- Hp. f_equal. by rewrite (bool_decide_ext _ _ Hr).
Qed.

End DspPlanFacts.

(** ** Properties *)

Module DspPlanProps.
Import DspPlan DspPlanFacts.

(** Which channel requests are planned: [make_plan] succeeds exactly when the rates
    are positive 32-bit rates with an exact ratio of at most 4096, the bandwidth (four
    fifths of the output rate when 0 is given) is positive and at most four fifths of the
    output rate (or the request is the raw pass-through), the whole passband lies within
    the capture, and every stage's filter fits the budget of 16383 taps.  In particular
    the test of the product of the factors never rejects a request. *)
Theorem make_plan_accepts ir or bw off :
  is_u 64 ir -> is_u 64 or -> is_u 64 bw -> is_s 64 off ->
  (make_plan ir or bw off <> None <->
   request_ok ir or bw off /\
   (is_raw ir or bw off \/
    Forall (fun '(r, n) => taps_needed r n (eff_bandwidth or bw) <= MAX_TAPS)
      (stage_rates or (plan_factors_of ir or)))).
Proof.
  intros Hi Ho Hb Hf. split.
  - intros Hp. destruct (decide (request_ok ir or bw off)) as [Hok|Hno].
    2: { by rewrite make_plan_bad in Hp. }
    split; [done|]. rewrite make_plan_good in Hp by done.
    destruct (decide (is_raw ir or bw off)) as [|Hraw]; [by left|right].
    destruct (request_ok_ratio _ _ _ _ Hok) as (?&Hir&Hprod&Hall&_).
    rewrite bool_decide_false in Hp by done. rewrite Hir in Hp at 1. rewrite <- Hprod in Hp at 1.
    rewrite plan_stages_eq in Hp; [|done|by eapply passband_lt|rewrite Hprod, <- Hir; apply Hok].
    case_bool_decide; [done|]. done.
  - intros [Hok Hd]. rewrite make_plan_good by done.
    destruct (request_ok_ratio _ _ _ _ Hok) as (?&Hir&Hprod&Hall&_).
    case_bool_decide as Hraw; [by rewrite plan_stages_raw|].
    destruct Hd as [|Ht]; [done|]. rewrite Hir at 1. rewrite <- Hprod at 1.
    rewrite plan_stages_eq; [|done|by eapply passband_lt|rewrite Hprod, <- Hir; apply Hok].
    by rewrite bool_decide_true.
Qed.

Lemma make_plan_accepts_witness :
  make_plan 2400000 240000 0 300000 <> None.
Proof.
  apply (make_plan_accepts 2400000 240000 0 300000);
    [vm_compute; split; congruence..|].
  split.
  - apply (bool_decide_unpack (request_ok 2400000 240000 0 300000)). vm_compute. exact I.
  - right. apply (bool_decide_unpack _). vm_compute. exact I.
Defined.

(** What a plan contains: one to five stages whose factors are in descending order
    and multiply to exactly the rate ratio, so that the last stage runs at the output
    rate; a positive bandwidth with the whole channel inside the capture; and filters of
    an odd length from 3 to 16383 taps that is at least 16 times the stage's input rate
    over its transition band (a single tap for raw requests). *)
Theorem make_plan_sound ir or bw off p :
  is_u 64 ir -> is_u 64 or -> is_u 64 bw -> is_s 64 off ->
  make_plan ir or bw off = Some p ->
  prod (plan_factors p) * or = ir /\ StronglySorted Z.ge (plan_factors p) /\
  Forall (Z.le 1) (plan_factors p) /\
  plan_num_stages p = zlen (plan_factors p) /\ 1 <= plan_num_stages p <= MAX_STAGES /\
  zlen (plan_taps p) = plan_num_stages p /\ zlen (plan_cutoffs p) = plan_num_stages p /\
  0 < plan_bandwidth p <= ir /\ 2 * Z.abs off <= ir - plan_bandwidth p /\
  (is_raw ir or bw off -> Forall (eq 1) (plan_taps p)) /\
  (~ is_raw ir or bw off ->
   plan_taps p = (fun '(r, n) => taps_needed r n (plan_bandwidth p)) <$> stage_rates or (plan_factors p) /\
   Forall (fun t => Z.odd t = true /\ 3 <= t <= MAX_TAPS) (plan_taps p)).
Proof.
  intros Hi Ho Hb Hf Hp.
  destruct (make_plan_inv _ _ _ _ _ Hi Ho Hb Hf Hp) as (Hok&Eb&En&Ef&Ec&Et).
  destruct (request_ok_ratio _ _ _ _ Hok) as (?&Hir&Hprod&Hall&Hlen&Hsort).
  rewrite Ef, En, Eb, Hprod. destruct Hok. unfold zlen in *. rewrite Ec.
  destruct Et as [[Hraw Et]|(Hraw&Et&Hmax)].
  - rewrite Et, length_replicate. split_and!; auto; try lia; [|done].
    intros _. by apply Forall_replicate.
  - rewrite Et in Hmax |- *. rewrite length_fmap, length_stage_rates.
    split_and!; auto; try lia; [done|]. intros _. split; [done|].
    rewrite Forall_fmap in Hmax |- *. eapply Forall_impl; [|exact Hmax].
    intros [r n] Hrn. simpl in *. destruct (taps_needed_odd r n (eff_bandwidth or bw)). auto.
Qed.

Lemma make_plan_sound_witness :
  exists p, make_plan 2400000 48000 40000 (-100000) = None /\
    make_plan 2400000 48000 0 (-100000) = Some p /\
    plan_factors p = [5; 5; 2] /\ prod (plan_factors p) * 48000 = 2400000.
Proof.
  destruct (make_plan 2400000 48000 0 (-100000)) as [p|] eqn:E; [|vm_compute in E; discriminate].
  exists p. split; [vm_compute; reflexivity|]. split; [reflexivity|].
  split; [vm_compute in E; injection E as <-; reflexivity|].
  apply (make_plan_sound 2400000 48000 0 (-100000) p);
    [vm_compute; split; congruence..|exact E].
Defined.

End DspPlanProps.
