(* ===== verification/Dsp.v ===== *)
(** * The channel filter ([src/src/rtl_dsp.c])

    A [rtlsdr_dsp] removes the DC of the capture, shifts the wanted channel to zero with a
    numerically controlled oscillator and decimates it through a chain of FIR filters with
    circular delay lines.  [Module Dsp] is the code: the fused first stage, the five
    unrolled processing functions, creation and reset.  [Module DspRef] is the reference:
    one sample at a time through a chain of filters.  The theorems show that the code
    computes the reference whatever the block sizes, that the circular buffers implement
    the convolution with the sample history, how many samples come out, and that reset
    restores the state of creation. *)

From Stdlib Require Import Sorting.Sorted.
From S2P Require Import Prelude Float DspPlan.

Module Dsp.
Import DspPlan.

Definition NCO_SIZE : Z := 65536.
Definition NCO_MASK : Z := NCO_SIZE - 1.

Record dsp_stage := mk_stage {
  coeffs : list flt;
  delay_i : list flt;
  delay_q : list flt;
  num_taps : Z;
  buf_size : Z;
  buf_mask : Z;
  decimation : Z;
  counter : Z;
  wp : Z;
}.

(** [process_fn] is one of the five functions, named by its number of stages. *)
Record rtlsdr_dsp := mk_dsp {
  input_rate : Z;
  output_rate : Z;
  bandwidth : Z;
  freq_offset : Z;
  phase : Z;
  phase_inc : Z;
  dc_alpha : flt;
  dc_x_i : flt;
  dc_x_q : flt;
  dc_y_i : flt;
  dc_y_q : flt;
  num_stages : Z;
  stages : list dsp_stage;
  process_fn : nat;
}.

Definition set_stages (d : rtlsdr_dsp) (s : list dsp_stage) : rtlsdr_dsp :=
  mk_dsp (input_rate d) (output_rate d) (bandwidth d) (freq_offset d) (phase d) (phase_inc d)
    (dc_alpha d) (dc_x_i d) (dc_x_q d) (dc_y_i d) (dc_y_q d) (num_stages d) s (process_fn d).

(** A zeroed stage, as [calloc] leaves it. *)
Definition stage_zero : dsp_stage := mk_stage [] [] [] 0 0 0 0 0 0.

Definition stage_at (d : rtlsdr_dsp) (k : nat) : dsp_stage := default stage_zero (stages d !! k).

(** *** Filters *)

(** The three writes that put a sample into the delay line. *)
Definition stage_push (st : dsp_stage) (in_i in_q : flt) : dsp_stage :=
  mk_stage (coeffs st) (fwr (delay_i st) (wp st) in_i) (fwr (delay_q st) (wp st) in_q)
    (num_taps st) (buf_size st) (buf_mask st) (decimation st) (counter st)
    ((wp st + 1) &' buf_mask st).

Definition set_counter (st : dsp_stage) (c : Z) : dsp_stage :=
  mk_stage (coeffs st) (delay_i st) (delay_q st) (num_taps st) (buf_size st) (buf_mask st)
    (decimation st) c (wp st).

(** One accumulation of the filter loop. *)
Definition fir_step (st : dsp_stage) (acc : flt * flt) (j : Z) : flt * flt :=
  let idx := (wp st - 1 - j) &' buf_mask st in
  (f32_add acc.1 (f32_mul (frd (coeffs st) j) (frd (delay_i st) idx)),
   f32_add acc.2 (f32_mul (frd (coeffs st) j) (frd (delay_q st) idx))).

Definition stage_fir (st : dsp_stage) : flt * flt :=
  fold_left (fir_step st) (seqZ 0 (num_taps st)) (f_zero, f_zero).

(** [Some] output when the code returns 1. *)
Definition stage_run (st : dsp_stage) (in_i in_q : flt) : option (flt * flt) * dsp_stage :=
  let st := stage_push st in_i in_q in
  let st := set_counter st (counter st + 1) in
  if decimation st <=? counter st
  then let st := set_counter st 0 in (Some (stage_fir st), st)
  else (None, st).

(** [stage_run] on [&dsp->stages[k]]. *)
Definition run_stage (k : nat) (d : rtlsdr_dsp) (i q : flt) : option (flt * flt) * rtlsdr_dsp :=
  let '(out, st) := stage_run (stage_at d k) i q in
  (out, set_stages d (<[k := st]> (stages d))).

Definition sat16 (v : flt) : Z :=
  let v := f32_mul v (f32_of_Z 256) in
  let v := if f_lt v (f32_of_Z (-32768)) then f32_of_Z (-32768)
           else if f_lt (f32_of_Z 32767) v then f32_of_Z 32767 else v in
  s16 (f_trunc v).

(** *** The oscillator and the first stage *)

Section WithLibm.
Context `{Libm}.

(** [nco_table[i]] after [nco_init]. *)
Definition nco_table (i : Z) : flt :=
  f32_of_f64 (cos (f64_div (f64_mul (f64_mul (f64_of_Z 2) M_PI) (f64_of_Z i)) (f64_of_Z NCO_SIZE))).

Definition nco_cos (ph : Z) : flt := nco_table (ph >>' 16).
Definition nco_sin (ph : Z) : flt := nco_table (u32 ((ph >>' 16) - NCO_SIZE / 4) &' NCO_MASK).

(** The body of [STAGE1_BLOCK] up to the delay line: the mixed sample and the state. *)
Definition mix (d : rtlsdr_dsp) (bi bq : Z) : flt * flt * rtlsdr_dsp :=
  let c := f64_of_f32 (nco_cos (phase d)) in
  let s := f64_of_f32 (nco_sin (phase d)) in
  let ri := f64_sub (f64_of_Z bi) (f64_lit 255 2) in
  let rq := f64_sub (f64_of_Z bq) (f64_lit 255 2) in
  let y_i := f64_add (f64_sub ri (dc_x_i d)) (f64_mul (dc_alpha d) (dc_y_i d)) in
  let y_q := f64_add (f64_sub rq (dc_x_q d)) (f64_mul (dc_alpha d) (dc_y_q d)) in
  let mi := f32_of_f64 (f64_add (f64_mul y_i c) (f64_mul y_q s)) in
  let mq := f32_of_f64 (f64_sub (f64_mul y_q c) (f64_mul y_i s)) in
  (mi, mq,
   mk_dsp (input_rate d) (output_rate d) (bandwidth d) (freq_offset d)
     (u32 (phase d + phase_inc d)) (phase_inc d) (dc_alpha d) ri rq y_i y_q
     (num_stages d) (stages d) (process_fn d)).

(** One round of [STAGE1_BLOCK]: mix and write to the delay line of stage 0. *)
Definition stage1_sample (d : rtlsdr_dsp) (bi bq : Z) : rtlsdr_dsp :=
  let '(mi, mq, d) := mix d bi bq in
  set_stages d (<[0%nat := stage_push (stage_at d 0) mi mq]> (stages d)).

Fixpoint STAGE1_BLOCK (count : nat) (d : rtlsdr_dsp) (input : list Z) (in_idx : Z)
    : rtlsdr_dsp * Z :=
  match count with
  | O => (d, in_idx)
  | S n => STAGE1_BLOCK n (stage1_sample d (rd input in_idx) (rd input (in_idx + 1))) input (in_idx + 2)
  end.

(** Whether a block is complete, the state and [*input_idx]. *)
Definition stage1_next (d : rtlsdr_dsp) (input : list Z) (input_len input_idx : Z)
    : bool * rtlsdr_dsp * Z :=
  let available := (input_len - input_idx) / 2 in
  let count := decimation (stage_at d 0) - counter (stage_at d 0) in
  if available =? 0 then (false, d, input_idx)
  else
    let count := if available <? count then available else count in
    let '(d, in_idx) := STAGE1_BLOCK (Z.to_nat count) d input input_idx in
    let c := counter (stage_at d 0) + count in
    if negb (c =? decimation (stage_at d 0))
    then (false, set_stages d (<[0%nat := set_counter (stage_at d 0) c]> (stages d)), in_idx)
    else (true, set_stages d (<[0%nat := set_counter (stage_at d 0) 0]> (stages d)), in_idx).

(** The [while (stage1_next(...))] loop all five functions share; [tail] is its body
    behind [stage_fir].  The output is the list of values stored so far.  Every round
    that continues consumes a sample, so half the input length plus one is enough fuel. *)
Fixpoint process_loop (tail : rtlsdr_dsp -> flt -> flt -> option (flt * flt) * rtlsdr_dsp)
    (fuel : nat) (d : rtlsdr_dsp) (input : list Z) (input_len in_idx : Z) (out : list Z)
    : rtlsdr_dsp * list Z :=
  match fuel with
  | O => (d, out)
  | S fuel' =>
      match stage1_next d input input_len in_idx with
      | (false, d, _) => (d, out)
      | (true, d, in_idx) =>
          let '(o_i, o_q) := stage_fir (stage_at d 0) in
          match tail d o_i o_q with
          | (Some (r_i, r_q), d) =>
              process_loop tail fuel' d input input_len in_idx (out ++ [sat16 r_i; sat16 r_q])
          | (None, d) => process_loop tail fuel' d input input_len in_idx out
          end
      end
  end.

Definition loop_fuel (input_len : Z) : nat := S (Z.to_nat (input_len / 2)).

Definition process_t01 (d : rtlsdr_dsp) (input : list Z) (input_len : Z) : rtlsdr_dsp * list Z :=
  process_loop (fun d i q => (Some (i, q), d)) (loop_fuel input_len) d input input_len 0 [].

Definition tail2 (d : rtlsdr_dsp) (i q : flt) : option (flt * flt) * rtlsdr_dsp := run_stage 1 d i q.

Definition process_t04 (d : rtlsdr_dsp) (input : list Z) (input_len : Z) : rtlsdr_dsp * list Z :=
  process_loop tail2 (loop_fuel input_len) d input input_len 0 [].

Definition tail3 (d : rtlsdr_dsp) (i q : flt) : option (flt * flt) * rtlsdr_dsp :=
  match run_stage 1 d i q with
  | (Some (i, q), d) => run_stage 2 d i q
  | r => r
  end.

Definition process_t06 (d : rtlsdr_dsp) (input : list Z) (input_len : Z) : rtlsdr_dsp * list Z :=
  process_loop tail3 (loop_fuel input_len) d input input_len 0 [].

Definition tail4 (d : rtlsdr_dsp) (i q : flt) : option (flt * flt) * rtlsdr_dsp :=
  match run_stage 1 d i q with
  | (Some (i, q), d) =>
      match run_stage 2 d i q with
      | (Some (i, q), d) => run_stage 3 d i q
      | r => r
      end
  | r => r
  end.

Definition process_t08 (d : rtlsdr_dsp) (input : list Z) (input_len : Z) : rtlsdr_dsp * list Z :=
  process_loop tail4 (loop_fuel input_len) d input input_len 0 [].

Definition tail5 (d : rtlsdr_dsp) (i q : flt) : option (flt * flt) * rtlsdr_dsp :=
  match run_stage 1 d i q with
  | (Some (i, q), d) =>
      match run_stage 2 d i q with
      | (Some (i, q), d) =>
          match run_stage 3 d i q with
          | (Some (i, q), d) => run_stage 4 d i q
          | r => r
          end
      | r => r
      end
  | r => r
  end.

Definition process_t10 (d : rtlsdr_dsp) (input : list Z) (input_len : Z) : rtlsdr_dsp * list Z :=
  process_loop tail5 (loop_fuel input_len) d input input_len 0 [].

(** The call through [process_fn]. *)
Definition call_process_fn (d : rtlsdr_dsp) (input : list Z) (input_len : Z)
    : rtlsdr_dsp * list Z :=
  match process_fn d with
  | 1%nat => process_t01 d input input_len
  | 2%nat => process_t04 d input input_len
  | 3%nat => process_t06 d input input_len
  | 4%nat => process_t08 d input input_len
  | _ => process_t10 d input input_len
  end.

(** The result, the state, the [output_capacity] components at [output] and
    [*output_len]. *)
Definition rtlsdr_dsp_process (d : option rtlsdr_dsp) (input : option (list Z)) (input_len : Z)
    (output : option (list Z)) (output_capacity : Z) (output_len : option Z)
    : Z * option rtlsdr_dsp * option (list Z) * option Z :=
  match output_len with
  | None => (-1, d, output, None)
  | Some _ =>
      match d, input, output with
      | Some dsp, Some inp, Some o =>
          if negb (input_len &' 1 =? 0) || (output_capacity <? input_len)
          then (-1, d, output, Some 0)
          else
            let '(dsp, out) := call_process_fn dsp inp input_len in
            (0, Some dsp, Some (blit o 0 out), Some (zlen out))
      | _, _, _ => (-1, d, output, Some 0)
      end
  end.

Definition rtlsdr_dsp_reset (d : rtlsdr_dsp) : rtlsdr_dsp :=
  mk_dsp (input_rate d) (output_rate d) (bandwidth d) (freq_offset d) 0 (phase_inc d)
    (dc_alpha d) f_zero f_zero f_zero f_zero (num_stages d)
    (imap (fun k st =>
       if Z.of_nat k <? num_stages d
       then mk_stage (coeffs st) (replicate (Z.to_nat (buf_size st)) f_zero)
              (replicate (Z.to_nat (buf_size st)) f_zero) (num_taps st) (buf_size st)
              (buf_mask st) (decimation st) 0 0
       else st) (stages d))
    (process_fn d).

(** *** Creation *)

Definition blackman_harris (n N : Z) : flt :=
  let t := f64_div (f64_mul (f64_mul (f64_of_Z 2) M_PI) (f64_of_Z n)) (f64_of_Z (N - 1)) in
  f64_sub (f64_add (f64_sub (f64_lit 35875 100000) (f64_mul (f64_lit 48829 100000) (cos t)))
             (f64_mul (f64_lit 14128 100000) (cos (f64_mul (f64_of_Z 2) t))))
    (f64_mul (f64_lit 1168 100000) (cos (f64_mul (f64_of_Z 3) t))).

(** One windowed tap before normalisation. *)
Definition lowpass_tap (num_taps : Z) (cutoff : flt) (i : Z) : flt :=
  let mid := Z.quot (num_taps - 1) 2 in
  let k := i - mid in
  let sinc :=
    if k =? 0 then f64_mul (f64_of_Z 2) cutoff
    else f64_div (sin (f64_mul (f64_mul (f64_mul (f64_of_Z 2) M_PI) cutoff) (f64_of_Z k)))
           (f64_mul M_PI (f64_of_Z k)) in
  f64_mul sinc (blackman_harris i num_taps).

(** The coefficients [design_lowpass] stores. *)
Definition design_lowpass (num_taps : Z) (cutoff : flt) : list flt :=
  let tmp := lowpass_tap num_taps cutoff <$> seqZ 0 num_taps in
  let sum := fold_left f64_add tmp f_zero in
  let tmp := if negb (SFeqb sum f_zero) then (fun x => f64_div x sum) <$> tmp else tmp in
  f32_of_f64 <$> tmp.

(** [while (p < n) p <<= 1]: doubling 31 times passes every [int]. *)
Fixpoint next_pow2_loop (fuel : nat) (p n : Z) : Z :=
  match fuel with
  | O => p
  | S fuel' => if p <? n then next_pow2_loop fuel' (p <<' 1) n else p
  end.
Definition next_pow2 (n : Z) : Z := next_pow2_loop 31 1 n.

(** All allocations of a stage succeed when [alloc_ok]; the code then returns 0. *)
Definition stage_init (alloc_ok : bool) (decim taps : Z) (cutoff : flt) : option dsp_stage :=
  let bs := next_pow2 taps in
  if negb alloc_ok then None
  else Some (mk_stage
    (if taps =? 1 then [f32_of_Z 1] else design_lowpass taps cutoff)
    (replicate (Z.to_nat bs) f_zero) (replicate (Z.to_nat bs) f_zero)
    taps bs (bs - 1) decim 0 0).

(** The loop of [rtlsdr_dsp_create] over the planned stages; [allocs k] says whether the
    allocations of stage [k] succeed. *)
Fixpoint create_stages (allocs : nat -> bool) (k : nat) (fs ts : list Z) (cs : list flt)
    : option (list dsp_stage) :=
  match fs, ts, cs with
  | f :: fs, t :: ts, c :: cs =>
      st ← stage_init (allocs k) f t c;
      rest ← create_stages allocs (S k) fs ts cs;
      Some (st :: rest)
  | _, _, _ => Some []
  end.

(** [None] is [NULL]. *)
Definition rtlsdr_dsp_create (once_ok alloc_ok : bool) (allocs : nat -> bool)
    (ir or bw off : Z) : option rtlsdr_dsp :=
  plan ← make_plan ir or bw off;
  if negb once_ok || negb alloc_ok then None
  else
    let alpha :=
      exp (f64_div (f64_mul (f64_mul (f64_of_Z (-2)) M_PI) (f64_of_Z 10)) (f64_of_Z ir)) in
    let inc := u32 (s64 (f_round (f64_mul (f64_div (f64_of_Z off) (f64_of_Z ir))
                                    (f64_of_Z 4294967296)))) in
    sts ← create_stages allocs 0 (plan_factors plan) (plan_taps plan) (plan_cutoffs plan);
    Some (mk_dsp ir or (plan_bandwidth plan) off 0 inc alpha f_zero f_zero f_zero f_zero
            (plan_num_stages plan)
            (sts ++ replicate (Z.to_nat (MAX_STAGES - plan_num_stages plan)) stage_zero)
            (if plan_num_stages plan =? 1 then 1%nat
             else if plan_num_stages plan =? 2 then 2%nat
             else if plan_num_stages plan =? 3 then 3%nat
             else if plan_num_stages plan =? 4 then 4%nat else 5%nat)).

End WithLibm.
End Dsp.

(** ** The reference: one sample at a time *)

Module DspRef.
Import DspPlan Dsp.

(** A sample through a chain of decimating filters. *)
Fixpoint cascade (sts : list dsp_stage) (i q : flt) : option (flt * flt) * list dsp_stage :=
  match sts with
  | [] => (Some (i, q), [])
  | st :: rest =>
      match stage_run st i q with
      | (Some (i', q'), st') => let '(o, rest') := cascade rest i' q' in (o, st' :: rest')
      | (None, st') => (None, st' :: rest)
      end
  end.

Section WithLibm.
Context `{Libm}.

Definition ref_sample (d : rtlsdr_dsp) (s : Z * Z) : rtlsdr_dsp * list Z :=
  let '(mi, mq, d) := mix d s.1 s.2 in
  let n := process_fn d in
  let '(o, sts) := cascade (take n (stages d)) mi mq in
  (set_stages d (sts ++ drop n (stages d)),
   match o with Some (i, q) => [sat16 i; sat16 q] | None => [] end).

Fixpoint ref_run (d : rtlsdr_dsp) (ss : list (Z * Z)) : rtlsdr_dsp * list Z :=
  match ss with
  | [] => (d, [])
  | s :: ss =>
      let '(d1, o1) := ref_sample d s in
      let '(d2, o2) := ref_run d1 ss in (d2, o1 ++ o2)
  end.

End WithLibm.

(** The complex samples of an interleaved buffer. *)
Definition samples (input : list Z) : list (Z * Z) :=
  (fun k => (rd input (2 * k), rd input (2 * k + 1))) <$> seqZ 0 (zlen input / 2).

(** The states the code reaches. *)
Definition counter_ok (st : dsp_stage) : Prop := 0 <= counter st < decimation st.

Record dsp_wf (d : rtlsdr_dsp) : Prop := {
  dw_len : length (stages d) = 5%nat;
  dw_fn : (1 <= process_fn d <= 5)%nat;
  dw_counters : Forall counter_ok (take (process_fn d) (stages d));
}.

(** Samples since the last output, and samples per output, of a chain. *)
Fixpoint position (sts : list dsp_stage) : Z :=
  match sts with
  | [] => 0
  | st :: rest => counter st + decimation st * position rest
  end.
Fixpoint chain_ratio (sts : list dsp_stage) : Z :=
  match sts with
  | [] => 1
  | st :: rest => decimation st * chain_ratio rest
  end.
End DspRef.

Module DspFacts.
Import DspPlan Dsp DspRef.

(** ** The chain *)

Lemma stage_run_cases st i q :
  counter_ok st ->
  let st1 := stage_push st i q in
  (counter st + 1 < decimation st /\
     stage_run st i q = (None, set_counter st1 (counter st + 1))) \/
  (counter st + 1 = decimation st /\
     stage_run st i q = (Some (stage_fir (set_counter st1 0)), set_counter st1 0)).
Proof.
  unfold counter_ok, stage_run. intros Hc. simpl.
  destruct (Z.leb_spec (decimation st) (counter st + 1)); [right|left]; split; auto; lia.
Qed.

Lemma stage_run_shape st i q o st' :
  stage_run st i q = (o, st') -> decimation st' = decimation st.
Proof. unfold stage_run. destruct (_ <=? _); by intros [= <- <-]. Qed.

Lemma stage_run_ok st i q o st' : counter_ok st -> stage_run st i q = (o, st') -> counter_ok st'.
Proof.
  intros Hc E. destruct (stage_run_cases st i q Hc) as [[? E']|[? E']]; rewrite E' in E;
    injection E as <- <-; unfold counter_ok in *; simpl; lia.
Qed.

Lemma cascade_ok sts i q o sts' :
  Forall counter_ok sts -> cascade sts i q = (o, sts') ->
  Forall counter_ok sts' /\ length sts' = length sts /\ chain_ratio sts' = chain_ratio sts /\
  position sts' = (if position sts + 1 =? chain_ratio sts then 0 else position sts + 1) /\
  (o <> None <-> position sts + 1 = chain_ratio sts) /\
  0 <= position sts < chain_ratio sts.
Proof.
  intros Hall. revert i q o sts'. induction Hall as [|st sts Hc Hall IH]; intros i q o sts'; simpl.
  { intros [= <- <-]. simpl. split_and!; auto; try lia; done. }
  destruct (stage_run_cases st i q Hc) as [[Hlt E]|[Heq E]]; rewrite E.
  - intros [= <- <-]. destruct (cascade sts i q) as [o0 sts0] eqn:Ec.
    destruct (IH _ _ _ _ Ec) as (_&_&_&_&_&Hp).
    simpl. unfold counter_ok in *. simpl. split_and!; auto; try nia.
    + constructor; [unfold counter_ok; simpl; lia|done].
    + destruct (Z.eqb_spec (counter st + decimation st * position sts + 1)
                  (decimation st * chain_ratio sts)); nia.
    + split; [done|nia].
  - destruct (stage_fir _) as [fi fq] eqn:Ef. destruct (cascade sts fi fq) as [o0 sts0] eqn:Ec.
    intros [= <- <-]. destruct (IH _ _ _ _ Ec) as (Hw&Hl&Hr&Hp&Ho&Hb).
    simpl. unfold counter_ok in *. split_and!; auto; try nia.
    + constructor; [unfold counter_ok; simpl; lia|done].
    + rewrite Hp. destruct (Z.eqb_spec (position sts + 1) (chain_ratio sts)),
        (Z.eqb_spec (counter st + decimation st * position sts + 1)
           (decimation st * chain_ratio sts)); nia.
    + rewrite Ho. nia.
Qed.

(** ** Blocks against samples *)

Section Equivalence.
Context `{Libm}.

(** [d] with the decimation counter of stage 0 set to [c]. *)
Definition upd0 (d : rtlsdr_dsp) (c : Z) : rtlsdr_dsp :=
  set_stages d (<[0%nat := set_counter (stage_at d 0) c]> (stages d)).

Lemma dsp_stages_ne d : length (stages d) = 5%nat ->
  exists s0 rest, stages d = s0 :: rest /\ length rest = 4%nat.
Proof. destruct (stages d) as [|s0 rest]; [done|]. intros [= ?]. eauto. Qed.

Lemma stage1_sample_upd0 d c bi bq :
  length (stages d) = 5%nat -> stage1_sample (upd0 d c) bi bq = upd0 (stage1_sample d bi bq) c.
Proof.
  intros Hl. destruct (dsp_stages_ne d Hl) as (s0&rest&E&_).
  unfold stage1_sample, upd0, mix, stage_at. simpl. rewrite E. simpl. done.
Qed.

Lemma stage1_sample_shape d bi bq :
  length (stages d) = 5%nat ->
  length (stages (stage1_sample d bi bq)) = 5%nat /\
  process_fn (stage1_sample d bi bq) = process_fn d /\
  counter (stage_at (stage1_sample d bi bq) 0) = counter (stage_at d 0) /\
  decimation (stage_at (stage1_sample d bi bq) 0) = decimation (stage_at d 0).
Proof.
  intros Hl. destruct (dsp_stages_ne d Hl) as (s0&rest&E&El).
  unfold stage1_sample, mix, stage_at. simpl. rewrite E. simpl. auto.
Qed.

Lemma upd0_upd0 d c c' : length (stages d) = 5%nat -> upd0 (upd0 d c) c' = upd0 d c'.
Proof.
  intros Hl. destruct (dsp_stages_ne d Hl) as (s0&rest&E&El).
  unfold upd0, stage_at. simpl. rewrite E. done.
Qed.

(** The body of the loops behind the first stage. *)
Definition tail_of (n : nat) : rtlsdr_dsp -> flt -> flt -> option (flt * flt) * rtlsdr_dsp :=
  match n with
  | 1%nat => fun d i q => (Some (i, q), d)
  | 2%nat => tail2
  | 3%nat => tail3
  | 4%nat => tail4
  | _ => tail5
  end.

(** All five tails are the rest of the chain. *)
Lemma tail_cascade n d i q :
  length (stages d) = 5%nat -> (1 <= n <= 5)%nat ->
  tail_of n d i q
  = let '(o, sts) := cascade (take (n - 1) (drop 1 (stages d))) i q in
    (o, set_stages d (take 1 (stages d) ++ sts ++ drop n (stages d))).
Proof.
  intros Hl Hn. destruct d as [ir or bw fo ph pi da x1 x2 y1 y2 ns sts pf]. simpl in Hl.
  destruct sts as [|s0 [|s1 [|s2 [|s3 [|s4 [|]]]]]]; try done.
  destruct n as [|[|[|[|[|[|]]]]]]; try lia; simpl; [done|..];
    unfold tail2, tail3, tail4, tail5, run_stage, stage_at, set_stages; simpl;
    repeat (destruct (stage_run _ _ _) as [[[? ?]|] ?]; simpl); done.
Qed.

(** One reference sample is: mix into the delay line of stage 0, count, and at the end of
    a block filter and run the tail. *)
Lemma ref_sample_eq d s :
  dsp_wf d ->
  let d1 := stage1_sample d s.1 s.2 in
  let c := counter (stage_at d 0) + 1 in
  ref_sample d s
  = if c =? decimation (stage_at d 0)
    then let d2 := upd0 d1 0 in
         let '(f_i, f_q) := stage_fir (stage_at d2 0) in
         let '(o, d3) := tail_of (process_fn d) d2 f_i f_q in
         (d3, match o with Some (i, q) => [sat16 i; sat16 q] | None => [] end)
    else (upd0 d1 c, []).
Proof.
  intros [Hl Hn Hc] d1 c. subst d1 c. destruct (dsp_stages_ne d Hl) as (s0&rest&E&El).
  destruct (process_fn d) as [|n] eqn:En; [lia|].
  assert (Hc0 : counter_ok s0) by (rewrite E in Hc; simpl in Hc; by apply Forall_cons_1 in Hc as [? _]).
  unfold ref_sample. destruct s as [bi bq]. simpl fst. simpl snd.
  assert (Hst : stage_at d 0 = s0) by (unfold stage_at; by rewrite E).
  rewrite Hst. destruct (mix d bi bq) as [[mi mq] dm] eqn:Em.
  assert (Hsm : stages dm = stages d /\ process_fn dm = process_fn d)
    by (unfold mix in Em; by injection Em as <- <- <-).
  destruct Hsm as [Hs1 Hs2]. rewrite Hs1, Hs2, En, E. cbn [take drop].
  assert (Hd1 : stage1_sample d bi bq = set_stages dm (stage_push s0 mi mq :: rest)).
  { unfold stage1_sample. rewrite Em. unfold stage_at. rewrite Hs1, E. done. }
  rewrite Hd1. cbn [cascade].
  destruct (stage_run_cases s0 mi mq Hc0) as [[Hlt Er]|[Heq Er]]; rewrite Er.
  - destruct (Z.eqb_spec (counter s0 + 1) (decimation s0)); [lia|].
    unfold upd0, stage_at. simpl. by rewrite take_drop.
  - destruct (Z.eqb_spec (counter s0 + 1) (decimation s0)); [|lia]. cbv zeta.
    assert (Hu : upd0 (set_stages dm (stage_push s0 mi mq :: rest)) 0
      = set_stages dm (set_counter (stage_push s0 mi mq) 0 :: rest)) by done.
    rewrite Hu. change (stage_at (set_stages dm ?l) 0) with (default stage_zero (l !! 0%nat)).
    simpl (default _ _). destruct (stage_fir _) as [fi fq].
    rewrite tail_cascade by (simpl; lia). simpl (stages _). rewrite Nat.sub_succ, Nat.sub_0_r.
    cbn [drop take app]. rewrite drop_0.
    destruct (cascade (take n rest) fi fq) as [o sts]. simpl. done.
Qed.

End Equivalence.

Section EquivalenceLoop.
Context `{Libm}.

Fixpoint pairs (input : list Z) (idx : Z) (n : nat) : list (Z * Z) :=
  match n with
  | O => []
  | S n' => (rd input idx, rd input (idx + 1)) :: pairs input (idx + 2) n'
  end.

Lemma pairs_app input idx n m :
  pairs input idx (n + m) = pairs input idx n ++ pairs input (idx + 2 * Z.of_nat n) m.
Proof.
  revert idx. induction n as [|n IH]; intros idx; simpl.
  - f_equal. lia.
  - f_equal. rewrite IH. f_equal. f_equal. lia.
Qed.

Lemma pairs_samples input : pairs input 0 (Z.to_nat (zlen input / 2)) = samples input.
Proof.
  unfold samples. pose proof (Z.div_pos (zlen input) 2 ltac:(unfold zlen; lia) ltac:(lia)).
  rewrite <- (Z2Nat.id (zlen input / 2)) at 2 by done.
  generalize (Z.to_nat (zlen input / 2)). intros n.
  replace 0 with (2 * 0) at 1 by lia. generalize 0. clear. induction n as [|n IH]; intros k; [done|].
  rewrite seqZ_cons by lia. simpl. f_equal. replace (2 * k + 2) with (2 * Z.succ k) by lia.
  rewrite IH. repeat f_equal. lia.
Qed.

Lemma ref_run_app d ss1 ss2 :
  ref_run d (ss1 ++ ss2)
  = let '(d1, o1) := ref_run d ss1 in let '(d2, o2) := ref_run d1 ss2 in (d2, o1 ++ o2).
Proof.
  revert d. induction ss1 as [|s ss1 IH]; intros d; simpl; [by destruct (ref_run d ss2)|].
  destruct (ref_sample d s) as [d1 o1]. rewrite IH. destruct (ref_run d1 ss1) as [d2 o2].
  destruct (ref_run d2 ss2) as [d3 o3]. by rewrite app_assoc.
Qed.

Lemma mix_shape d bi bq mi mq d' :
  mix d bi bq = (mi, mq, d') -> stages d' = stages d /\ process_fn d' = process_fn d.
Proof. unfold mix. by intros [= <- <- <-]. Qed.

(** A sample moves the position in the chain on by one; an output comes out exactly when
    it wraps. *)
Lemma ref_sample_ok d s d' o :
  dsp_wf d -> ref_sample d s = (d', o) ->
  let n := process_fn d in
  let pos := position (take n (stages d)) in
  let ratio := chain_ratio (take n (stages d)) in
  dsp_wf d' /\ process_fn d' = n /\ drop n (stages d') = drop n (stages d) /\
  chain_ratio (take n (stages d')) = ratio /\ 0 <= pos < ratio /\
  position (take n (stages d')) = (if pos + 1 =? ratio then 0 else pos + 1) /\
  zlen o = (if pos + 1 =? ratio then 2 else 0).
Proof.
  intros [Hl Hn Hc] E. cbv zeta. unfold ref_sample in E.
  destruct (mix d s.1 s.2) as [[mi mq] dm] eqn:Em.
  destruct (mix_shape _ _ _ _ _ _ Em) as [Hs1 Hs2]. rewrite Hs1, Hs2 in E.
  destruct (cascade _ mi mq) as [r sts] eqn:Ec. injection E as <- <-.
  destruct (cascade_ok _ _ _ _ _ Hc Ec) as (Hw&Hlen&Hr&Hp&Ho&Hb).
  rewrite length_take in Hlen.
  assert (Htk : take (process_fn d) (sts ++ drop (process_fn d) (stages d)) = sts).
  { rewrite take_app_le by lia. apply take_ge. lia. }
  assert (Hdr : drop (process_fn d) (sts ++ drop (process_fn d) (stages d))
                = drop (process_fn d) (stages d)).
  { rewrite drop_app_ge by lia. by replace (process_fn d - length sts)%nat with 0%nat by lia. }
  cbn [stages process_fn set_stages]. rewrite Hs2.
  split_and!.
  - split; cbn [stages process_fn set_stages]; rewrite ?Hs2; try lia.
    + rewrite length_app, length_drop. lia.
    + by rewrite Htk.
  - done.
  - done.
  - by rewrite Htk.
  - lia.
  - lia.
  - by rewrite Htk.
  - destruct (Z.eqb_spec (position (take (process_fn d) (stages d)) + 1)
                (chain_ratio (take (process_fn d) (stages d)))) as [Hz|Hz].
    + apply Ho in Hz. destruct r as [[? ?]|]; done.
    + destruct r as [[? ?]|]; [|done]. destruct Hz. by apply Ho.
Qed.

Lemma ref_run_wf d ss : dsp_wf d ->
  dsp_wf (ref_run d ss).1 /\ process_fn (ref_run d ss).1 = process_fn d.
Proof.
  revert d. induction ss as [|s ss IH]; intros d W; [done|]. simpl.
  destruct (ref_sample d s) as [d1 o1] eqn:E. destruct (ref_sample_ok _ _ _ _ W E) as (W1&Hf&_).
  destruct (IH d1 W1) as [W2 Hf2]. destruct (ref_run d1 ss). simpl in *. split; congruence.
Qed.

Lemma block_idx count d input idx : (STAGE1_BLOCK count d input idx).2 = idx + 2 * Z.of_nat count.
Proof. revert d idx. induction count as [|n IH]; intros d idx; simpl; [lia|]. rewrite IH. lia. Qed.

Lemma block_shape count d input idx :
  length (stages d) = 5%nat ->
  let d' := (STAGE1_BLOCK count d input idx).1 in
  length (stages d') = 5%nat /\ process_fn d' = process_fn d /\
  counter (stage_at d' 0) = counter (stage_at d 0) /\
  decimation (stage_at d' 0) = decimation (stage_at d 0).
Proof.
  revert d idx. induction count as [|n IH]; intros d idx Hl; simpl; [auto|].
  destruct (stage1_sample_shape d (rd input idx) (rd input (idx + 1)) Hl) as (H1&H2&H3&H4).
  destruct (IH _ (idx + 2) H1) as (?&?&?&?). split_and!; congruence.
Qed.

Lemma block_upd0 count d c input idx :
  length (stages d) = 5%nat ->
  (STAGE1_BLOCK count (upd0 d c) input idx).1 = upd0 (STAGE1_BLOCK count d input idx).1 c.
Proof.
  revert d idx. induction count as [|n IH]; intros d idx Hl; simpl; [done|].
  rewrite stage1_sample_upd0 by done. apply IH. by apply stage1_sample_shape.
Qed.

Lemma upd0_self d : length (stages d) = 5%nat -> upd0 d (counter (stage_at d 0)) = d.
Proof.
  intros Hl. destruct (dsp_stages_ne d Hl) as (s0&rest&E&_).
  unfold upd0, stage_at, set_stages. rewrite E. destruct d, s0. simpl in *. by rewrite E.
Qed.

Lemma stage_at_upd0 d c : length (stages d) = 5%nat ->
  stage_at (upd0 d c) 0 = set_counter (stage_at d 0) c /\ length (stages (upd0 d c)) = 5%nat.
Proof.
  intros Hl. destruct (dsp_stages_ne d Hl) as (s0&rest&E&?).
  unfold upd0, stage_at, set_stages. simpl. rewrite E. simpl. auto.
Qed.

(** Samples that do not complete a block. *)
Lemma block_partial count d input idx :
  dsp_wf d -> counter (stage_at d 0) + Z.of_nat count < decimation (stage_at d 0) ->
  ref_run d (pairs input idx count)
  = (upd0 (STAGE1_BLOCK count d input idx).1 (counter (stage_at d 0) + Z.of_nat count), []).
Proof.
  revert d idx. induction count as [|n IH]; intros d idx W Hc.
  { simpl. rewrite Z.add_0_r, upd0_self by apply W. done. }
  cbn [pairs ref_run STAGE1_BLOCK]. pose proof (ref_sample_eq d (rd input idx, rd input (idx + 1)) W) as E.
  cbv zeta in E. simpl in E.
  destruct (Z.eqb_spec (counter (stage_at d 0) + 1) (decimation (stage_at d 0))); [lia|].
  rewrite E. destruct (ref_sample_ok _ _ _ _ W E) as (W1&_).
  pose proof (dw_len _ W) as Hl.
  set (d1 := stage1_sample d (rd input idx) (rd input (idx + 1))) in *.
  destruct (stage1_sample_shape d (rd input idx) (rd input (idx + 1)) Hl) as (H1&H2&H3&H4).
  fold d1 in H1, H2, H3, H4.
  destruct (stage_at_upd0 d1 (counter (stage_at d 0) + 1) H1) as [Hs0 Hl0].
  rewrite IH by (auto; rewrite Hs0; simpl; lia). rewrite Hs0. cbn [counter set_counter].
  rewrite block_upd0 by done.
  rewrite upd0_upd0 by (by apply block_shape). cbn [app].
  by replace (counter (stage_at d 0) + 1 + Z.of_nat n)
    with (counter (stage_at d 0) + Z.of_nat (S n)) by lia.
Qed.

(** Samples that complete a block. *)
Lemma block_full count d input idx :
  dsp_wf d -> counter (stage_at d 0) + Z.of_nat count = decimation (stage_at d 0) ->
  ref_run d (pairs input idx count)
  = let d2 := upd0 (STAGE1_BLOCK count d input idx).1 0 in
    let '(f_i, f_q) := stage_fir (stage_at d2 0) in
    let '(o, d3) := tail_of (process_fn d) d2 f_i f_q in
    (d3, match o with Some (i, q) => [sat16 i; sat16 q] | None => [] end).
Proof.
  revert d idx. induction count as [|n IH]; intros d idx W Hc.
  { exfalso. destruct W as [Hl Hn Hw]. destruct (dsp_stages_ne d Hl) as (s0&rest&E&_).
    unfold stage_at in Hc. rewrite E in *. destruct (process_fn d); [lia|].
    apply Forall_cons_1 in Hw as [Hw _]. unfold counter_ok in Hw. simpl in Hc. lia. }
  pose proof (dw_len _ W) as Hl.
  cbn [pairs ref_run STAGE1_BLOCK]. pose proof (ref_sample_eq d (rd input idx, rd input (idx + 1)) W) as E.
  cbv zeta in E. simpl in E.
  set (d1 := stage1_sample d (rd input idx) (rd input (idx + 1))) in *.
  destruct (stage1_sample_shape d (rd input idx) (rd input (idx + 1)) Hl) as (H1&H2&H3&H4).
  fold d1 in H1, H2, H3, H4.
  destruct (Z.eqb_spec (counter (stage_at d 0) + 1) (decimation (stage_at d 0))) as [Hz|Hz].
  - destruct n as [|n]; [|lia]. rewrite E. cbn [pairs ref_run STAGE1_BLOCK fst]. cbv zeta.
    destruct (stage_fir _) as [fi fq]. destruct (tail_of _ _ _ _) as [o d3]. by rewrite app_nil_r.
  - rewrite E. destruct (ref_sample_ok _ _ _ _ W E) as (W1&Hf1&_).
    destruct (stage_at_upd0 d1 (counter (stage_at d 0) + 1) H1) as [Hs0 Hl0].
    rewrite IH by (auto; rewrite Hs0; simpl; lia). rewrite Hf1, block_upd0 by done.
    rewrite upd0_upd0 by (by apply block_shape). cbv zeta.
    destruct (stage_fir _) as [fi fq]. by destruct (tail_of _ _ _ _) as [o d3].
Qed.

(** The processing loop is the reference on the remaining samples. *)
Lemma process_loop_ref fuel d input len idx out n :
  dsp_wf d -> len - idx = 2 * Z.of_nat n -> (n < fuel)%nat ->
  process_loop (tail_of (process_fn d)) fuel d input len idx out
  = let '(d', o) := ref_run d (pairs input idx n) in (d', out ++ o).
Proof.
  revert d idx out n. induction fuel as [|fuel IH]; intros d idx out n W Hn Hf; [lia|].
  cbn [process_loop]. unfold stage1_next.
  replace ((len - idx) / 2) with (Z.of_nat n) by (rewrite Hn, Z.mul_comm, Z.div_mul; lia).
  destruct n as [|n]; [simpl; by rewrite app_nil_r|].
  destruct (Z.eqb_spec (Z.of_nat (S n)) 0); [lia|].
  pose proof (dw_len _ W) as Hl.
  assert (Hc0 : counter_ok (stage_at d 0)).
  { destruct W as [_ Hk Hw]. destruct (dsp_stages_ne d Hl) as (s0&rest&E&_).
    unfold stage_at. rewrite E in *. destruct (process_fn d); [lia|]. by apply Forall_cons_1 in Hw as [? _]. }
  unfold counter_ok in Hc0.
  set (left := decimation (stage_at d 0) - counter (stage_at d 0)) in *.
  destruct (Z.ltb_spec (Z.of_nat (S n)) left) as [Hlt|Hge].
  - rewrite Nat2Z.id.
    pose proof (block_shape (S n) d input idx Hl) as (B1&B2&B3&B4).
    pose proof (block_partial (S n) d input idx W ltac:(lia)) as Hp.
    destruct (STAGE1_BLOCK (S n) d input idx) as [db ib]. simpl fst in *.
    rewrite B3, B4. destruct (Z.eqb_spec (counter (stage_at d 0) + Z.of_nat (S n)) (decimation (stage_at d 0))); [lia|].
    rewrite Hp. simpl. by rewrite app_nil_r.
  - set (k := Z.to_nat left). assert (Hk : Z.of_nat k = left) by lia.
    pose proof (block_shape k d input idx Hl) as (B1&B2&B3&B4).
    pose proof (block_idx k d input idx) as Bi.
    pose proof (block_full k d input idx W ltac:(lia)) as Hp.
    replace (S n) with (k + (S n - k))%nat by lia. rewrite pairs_app, ref_run_app.
    destruct (ref_run_wf d (pairs input idx k) W) as [W' Hpf].
    destruct (STAGE1_BLOCK k d input idx) as [db ib]. simpl fst in *. simpl snd in Bi. subst ib.
    rewrite B3, B4. destruct (Z.eqb_spec (counter (stage_at d 0) + left) (decimation (stage_at d 0))); [|lia].
    cbn [negb]. fold (upd0 db 0). rewrite Hp in W', Hpf |- *. cbv zeta in *.
    destruct (stage_fir (stage_at (upd0 db 0) 0)) as [fi fq].
    destruct (tail_of (process_fn d) (upd0 db 0) fi fq) as [o d3] eqn:Et. simpl in W', Hpf.
    rewrite <- Hpf. destruct o as [[ri rq]|].
    + rewrite (IH d3 _ _ (S n - k)%nat) by (auto; lia).
      destruct (ref_run d3 _) as [d4 o4]. by rewrite <- app_assoc.
    + rewrite (IH d3 _ _ (S n - k)%nat) by (auto; lia).
      destruct (ref_run d3 _) as [d4 o4]. done.
Qed.

(** All five functions compute the reference. *)
Lemma call_process_fn_ref d input :
  dsp_wf d -> Z.even (zlen input) = true ->
  call_process_fn d input (zlen input) = ref_run d (samples input).
Proof.
  intros W He. assert (Hz : zlen input = 2 * (zlen input / 2)).
  { apply Z.even_spec in He as [m ->]. rewrite (Z.mul_comm 2 m), Z.div_mul; lia. }
  assert (E : call_process_fn d input (zlen input)
    = process_loop (tail_of (process_fn d)) (loop_fuel (zlen input)) d input (zlen input) 0 []).
  { unfold call_process_fn, process_t01, process_t04, process_t06, process_t08, process_t10, tail_of.
    by destruct (process_fn d) as [|[|[|[|[|]]]]]. }
  rewrite E. assert (0 <= zlen input / 2) by (apply Z.div_pos; unfold zlen; lia).
  rewrite (process_loop_ref _ _ _ _ _ _ (Z.to_nat (zlen input / 2)))
    by (auto; unfold loop_fuel; lia).
  rewrite pairs_samples. by destruct (ref_run d (samples input)).
Qed.

End EquivalenceLoop.

(** ** Counting outputs, and splitting the input *)

Section Counting.
Context `{Libm}.

Lemma ref_run_count d ss d' o :
  dsp_wf d -> ref_run d ss = (d', o) ->
  let sts := take (process_fn d) (stages d) in
  let sts' := take (process_fn d) (stages d') in
  0 <= position sts < chain_ratio sts /\ chain_ratio sts' = chain_ratio sts /\
  position sts' = (position sts + zlen ss) mod chain_ratio sts /\
  zlen o = 2 * ((position sts + zlen ss) / chain_ratio sts).
Proof.
  revert d o. induction ss as [|s ss IH]; intros d o W E; cbv zeta; simpl in E.
  { injection E as <- <-. unfold zlen. simpl. rewrite Z.add_0_r.
    assert (Hb : 0 <= position (take (process_fn d) (stages d)) < chain_ratio (take (process_fn d) (stages d))).
    { destruct (ref_sample d (0, 0)) as [d1 o1] eqn:E1. by apply (ref_sample_ok _ _ _ _ W E1). }
    rewrite Z.mod_small, Z.div_small by done. auto. }
  destruct (ref_sample d s) as [d1 o1] eqn:E1. destruct (ref_run d1 ss) as [d2 o2] eqn:E2.
  injection E as <- <-.
  destruct (ref_sample_ok _ _ _ _ W E1) as (W1&Hf&_&Hr&Hb&Hp&Ho). cbv zeta in *.
  specialize (IH d1 o2 W1 E2). cbv zeta in IH. rewrite Hf, Hr, Hp in IH.
  destruct IH as (_&IH1&IH2&IH3).
  set (p := position (take (process_fn d) (stages d))) in *.
  set (r := chain_ratio (take (process_fn d) (stages d))) in *.
  assert (Hz : zlen (s :: ss) = 1 + zlen ss) by (unfold zlen; simpl; lia).
  assert (Hz2 : zlen (o1 ++ o2) = zlen o1 + zlen o2) by (unfold zlen; rewrite length_app; lia).
  rewrite Hz, Hz2, Ho, IH1, IH2, IH3. split_and!; auto; try lia.
  - destruct (Z.eqb_spec (p + 1) r) as [Hpr|Hpr].
    + rewrite Z.add_0_l, Z.add_assoc, Hpr. rewrite <- (Z.mul_1_l r) at 2.
      rewrite Z.add_comm, Z.mod_add by lia. done.
    + f_equal. lia.
  - destruct (Z.eqb_spec (p + 1) r) as [Hpr|Hpr].
    + rewrite Z.add_0_l, Z.add_assoc, Hpr. rewrite <- (Z.mul_1_l r) at 2.
      rewrite (Z.add_comm (1 * r)), Z.div_add by lia. lia.
    + rewrite Z.add_0_l. do 2 f_equal. lia.
Qed.

(** The output always fits the buffer the interface asks for. *)
Lemma ref_run_fits d ss d' o : dsp_wf d -> ref_run d ss = (d', o) -> zlen o <= 2 * zlen ss.
Proof.
  intros W E. destruct (ref_run_count _ _ _ _ W E) as (Hb&_&_&->). cbv zeta in *.
  apply Z.mul_le_mono_nonneg_l; [lia|]. apply Z.lt_succ_r, Z.div_lt_upper_bound; [lia|].
  pose proof (zlen_nonneg ss). nia.
Qed.

End Counting.

Lemma pairs_app_low a b idx n :
  idx + 2 * Z.of_nat n <= zlen a -> pairs (a ++ b) idx n = pairs a idx n.
Proof.
  revert idx. induction n as [|n IH]; intros idx Hi; simpl; [done|].
  rewrite !rd_app_low by lia. by rewrite IH by lia.
Qed.
Lemma pairs_app_high a b idx n :
  zlen a <= idx -> pairs (a ++ b) idx n = pairs b (idx - zlen a) n.
Proof.
  revert idx. induction n as [|n IH]; intros idx Hi; simpl; [done|].
  rewrite !rd_app_high by lia. rewrite IH by lia. repeat f_equal; lia.
Qed.

(** A call on the first [len] bytes of a longer buffer. *)
Lemma call_process_fn_prefix `{Libm} d input len :
  dsp_wf d -> Z.even len = true -> 0 <= len <= zlen input ->
  call_process_fn d input len = ref_run d (samples (take (Z.to_nat len) input)).
Proof.
  intros W He Hl. set (a := take (Z.to_nat len) input).
  assert (Ha : zlen a = len) by (unfold a, zlen in *; rewrite length_take; lia).
  assert (Hp : forall n, 2 * Z.of_nat n <= len -> pairs input 0 n = pairs a 0 n).
  { intros n Hn. rewrite <- (take_drop (Z.to_nat len) input). apply pairs_app_low. fold a. lia. }
  rewrite <- call_process_fn_ref by (rewrite ?Ha; done). rewrite Ha.
  apply Z.even_spec in He as [m ->].
  unfold call_process_fn, process_t01, process_t04, process_t06, process_t08, process_t10.
  assert (E : forall inp, process_loop (tail_of (process_fn d)) (loop_fuel (2 * m)) d inp (2 * m) 0 []
              = ref_run d (pairs inp 0 (Z.to_nat m))).
  { intros inp. rewrite (process_loop_ref _ _ _ _ _ _ (Z.to_nat m)).
    - by destruct (ref_run d _).
    - done.
    - lia.
    - unfold loop_fuel. rewrite Z.mul_comm, Z.div_mul by lia. lia. }
  pose proof (E input) as E1. pose proof (E a) as E2. rewrite Hp in E1 by lia. rewrite <- E2 in E1.
  clear - E1. revert E1. unfold tail_of. by destruct (process_fn d) as [|[|[|[|[|]]]]].
Qed.

Lemma samples_app a b : Z.even (zlen a) = true -> samples (a ++ b) = samples a ++ samples b.
Proof.
  intros He. apply Z.even_spec in He as [m Hm]. rewrite <- !pairs_samples.
  assert (Hab : zlen (a ++ b) = zlen b + m * 2) by (unfold zlen in *; rewrite length_app; lia).
  pose proof (zlen_nonneg b). assert (0 <= m) by (unfold zlen in Hm; lia).
  rewrite Hab, Z.div_add by lia. rewrite (Z.add_comm _ m).
  pose proof (Z.div_pos (zlen b) 2 ltac:(lia) ltac:(lia)).
  rewrite Z2Nat.inj_add by lia. rewrite pairs_app. rewrite Z2Nat.id by lia. f_equal.
  - rewrite pairs_app_low by lia. f_equal. rewrite Hm, (Z.mul_comm 2), Z.div_mul by lia. done.
  - rewrite pairs_app_high by lia. f_equal. lia.
Qed.

Lemma zlen_samples a : zlen (samples a) = zlen a / 2.
Proof.
  unfold zlen at 1, samples. rewrite length_fmap, length_seqZ.
  pose proof (Z.div_pos (zlen a) 2 ltac:(unfold zlen; lia) ltac:(lia)). lia.
Qed.

(** ** Circular delay lines *)

Record line_wf (st : dsp_stage) : Prop := {
  lw_pow : exists k, 0 <= k /\ buf_size st = 2 ^ k;
  lw_mask : buf_mask st = buf_size st - 1;
  lw_i : zlen (delay_i st) = buf_size st;
  lw_q : zlen (delay_q st) = buf_size st;
  lw_wp : 0 <= wp st < buf_size st;
  lw_taps : 0 <= num_taps st <= buf_size st;
}.

(** The delay line holds the samples [h], newest first, and zeros before them. *)
Definition holds (st : dsp_stage) (h : list (flt * flt)) : Prop :=
  forall j, 0 <= j < buf_size st ->
    frd (delay_i st) ((wp st - 1 - j) &' buf_mask st) = frd h.*1 j /\
    frd (delay_q st) ((wp st - 1 - j) &' buf_mask st) = frd h.*2 j.

(** The filter in direct form over a history. *)
Definition fir_direct (c : list flt) (taps : Z) (h : list (flt * flt)) : flt * flt :=
  fold_left (fun acc j => (f32_add acc.1 (f32_mul (frd c j) (frd h.*1 j)),
                           f32_add acc.2 (f32_mul (frd c j) (frd h.*2 j))))
    (seqZ 0 taps) (f_zero, f_zero).

Lemma land_mask st x : line_wf st -> x &' buf_mask st = x mod buf_size st.
Proof.
  intros []. destruct lw_pow0 as (k&Hk&E). rewrite lw_mask0, E.
  by rewrite <- Z.land_ones, Z.ones_equiv by done.
Qed.

Lemma frd_cons x l j : 0 <= j -> frd (x :: l) j = if j =? 0 then x else frd l (j - 1).
Proof.
  intros. unfold frd. destruct (Z.ltb_spec j 0), (Z.eqb_spec j 0), (Z.ltb_spec (j - 1) 0); try lia.
  - by subst.
  - replace (Z.to_nat j) with (S (Z.to_nat (j - 1))) by lia. done.
Qed.

Lemma push_wf_holds st h i q :
  line_wf st -> holds st h ->
  line_wf (stage_push st i q) /\ holds (stage_push st i q) ((i, q) :: h).
Proof.
  intros W Hh. pose proof (land_mask st) as Hm.
  assert (HN : 0 < buf_size st) by (destruct W; lia).
  assert (Hwp : (wp st + 1) &' buf_mask st = (wp st + 1) mod buf_size st) by auto.
  split.
  - destruct W. split; simpl; auto.
    + unfold zlen. by rewrite length_fwr.
    + unfold zlen. by rewrite length_fwr.
    + rewrite Hwp. apply Z.mod_pos_bound. done.
  - intros j Hj. simpl in Hj |- *. rewrite Hwp, !Hm by done.
    assert (Hidx : ((wp st + 1) mod buf_size st - 1 - j) mod buf_size st
                   = (wp st - j) mod buf_size st).
    { rewrite Zminus_mod, (Zminus_mod _ 1), Zmod_mod, <- (Zminus_mod _ 1), <- Zminus_mod.
      f_equal. lia. }
    rewrite Hidx. pose proof (lw_wp _ W). rewrite !frd_cons by lia.
    destruct (Z.eqb_spec j 0) as [->|].
    + rewrite Z.sub_0_r, Z.mod_small by done.
      rewrite !frd_fwr_eq; [done| |]; destruct W; lia.
    + assert (Hne : (wp st - j) mod buf_size st <> wp st).
      { intros Hc. pose proof (Z.div_mod (wp st - j) (buf_size st) ltac:(lia)) as Hdm.
        rewrite Hc in Hdm. revert Hdm. generalize ((wp st - j) / buf_size st). intros z Hdm.
        clear - HN Hj n Hdm. assert (z <= -1 \/ z = 0 \/ 1 <= z) as [|[|]] by lia; nia. }
      pose proof (Z.mod_pos_bound (wp st - j) (buf_size st) HN).
      rewrite !frd_fwr_ne by lia.
      replace (wp st - j) with (wp st - 1 - (j - 1)) by lia. rewrite <- Hm by done.
      apply Hh. lia.
Qed.

Lemma fir_holds st h :
  line_wf st -> holds st h -> stage_fir st = fir_direct (coeffs st) (num_taps st) h.
Proof.
  intros W Hh. unfold stage_fir, fir_direct. pose proof (lw_taps _ W) as Ht.
  assert (Hall : Forall (fun j => 0 <= j < buf_size st) (seqZ 0 (num_taps st))).
  { apply Forall_seqZ. intros j Hj. lia. }
  revert Hall. generalize (seqZ 0 (num_taps st)). generalize (f_zero, f_zero).
  intros acc l. revert acc. induction l as [|j l IH]; intros acc Hall; simpl; [done|].
  apply Forall_cons_1 in Hall as [Hj Hall]. rewrite IH by done. f_equal.
  unfold fir_step. destruct (Hh j Hj) as [-> ->]. done.
Qed.

(** The outputs of one stage fed with a stream. *)
Fixpoint stage_stream (st : dsp_stage) (xs : list (flt * flt)) : list (flt * flt) :=
  match xs with
  | [] => []
  | (i, q) :: xs' =>
      match stage_run st i q with
      | (Some o, st') => o :: stage_stream st' xs'
      | (None, st') => stage_stream st' xs'
      end
  end.

Lemma holds_counter st h c : holds (set_counter st c) h <-> holds st h.
Proof. done. Qed.
Lemma line_wf_counter st c : line_wf (set_counter st c) <-> line_wf st.
Proof. split; intros []; split; auto. Qed.

Lemma stage_stream_direct st h xs :
  line_wf st -> holds st h -> counter_ok st ->
  let D := Z.to_nat (decimation st) in
  let c := Z.to_nat (counter st) in
  stage_stream st xs
  = (fun k => fir_direct (coeffs st) (num_taps st) (reverse (take (D * (k + 1) - c) xs) ++ h))
      <$> seq 0 ((c + length xs) / D).
Proof.
  revert st h. induction xs as [|[i q] xs IH]; intros st h W Hh Hc D c.
  { simpl. unfold counter_ok in Hc. rewrite Nat.add_0_r, Nat.div_small by (subst c D; lia). done. }
  destruct (push_wf_holds st h i q W Hh) as [W1 Hh1]. cbn [stage_stream].
  destruct (stage_run_cases st i q Hc) as [[Hlt E]|[Heq E]]; rewrite E; unfold counter_ok in Hc.
  - rewrite (IH _ ((i, q) :: h)) by
      (first [by apply line_wf_counter|by apply holds_counter|unfold counter_ok; simpl; lia]).
    cbn [coeffs num_taps decimation counter set_counter stage_push]. fold D.
    replace (Z.to_nat (counter st + 1)) with (S c) by lia. simpl length.
    replace (S c + length xs)%nat with (c + S (length xs))%nat by lia.
    apply list_fmap_ext. intros x k _.
    assert (Hd : (D * (k + 1) - c = S (D * (k + 1) - S c))%nat) by (subst D c; nia).
    cbv beta. rewrite Hd. simpl take. rewrite reverse_cons, <- app_assoc. done.
  - rewrite (IH _ ((i, q) :: h)) by
      (first [by apply line_wf_counter|by apply holds_counter|unfold counter_ok; simpl; lia]).
    cbn [coeffs num_taps decimation counter set_counter stage_push]. fold D.
    change (Z.to_nat 0) with 0%nat. simpl length.
    replace (c + S (length xs))%nat with (length xs + 1 * D)%nat by lia.
    rewrite Nat.div_add, Nat.add_1_r by lia. simpl seq. rewrite fmap_cons.
    rewrite (fir_holds _ ((i, q) :: h)) by (first [by apply line_wf_counter|by apply holds_counter]).
    f_equal.
    + cbn [coeffs num_taps set_counter stage_push].
      replace (D * (0 + 1) - c)%nat with 1%nat by lia. done.
    + rewrite <- fmap_S_seq, <- list_fmap_compose. apply list_fmap_ext. intros x k _. simpl compose.
      unfold compose.
      replace (D * S (k + 1) - c)%nat with (S (D * (k + 1) - 0))%nat by nia.
      simpl take. rewrite reverse_cons, <- app_assoc. done.
Qed.

(** ** Creation and reset *)

Lemma next_pow2_loop_spec fuel p n a :
  0 <= a -> p = 2 ^ a -> n <= p * 2 ^ Z.of_nat fuel ->
  exists b, 0 <= b /\ next_pow2_loop fuel p n = 2 ^ b /\ n <= 2 ^ b.
Proof.
  revert p a. induction fuel as [|fuel IH]; intros p a Ha Hp Hn.
  { exists a. simpl in *. subst. split_and!; auto; lia. }
  simpl. destruct (Z.ltb_spec p n); [|exists a; subst; auto].
  apply (IH _ (a + 1)); [lia| |].
  - rewrite Z.shiftl_mul_pow2, Z.pow_add_r, Hp by lia. done.
  - rewrite Z.shiftl_mul_pow2 by lia. rewrite Nat2Z.inj_succ, Z.pow_succ_r in Hn by lia. lia.
Qed.

Lemma next_pow2_spec n : n <= 2 ^ 31 -> exists b, 0 <= b /\ next_pow2 n = 2 ^ b /\ n <= 2 ^ b.
Proof. intros. apply (next_pow2_loop_spec 31 1 n 0); simpl; lia. Qed.

(** A stage as it is before the first sample. *)
Record fresh_stage (st : dsp_stage) : Prop := {
  fs_line : line_wf st;
  fs_i : delay_i st = replicate (Z.to_nat (buf_size st)) f_zero;
  fs_q : delay_q st = replicate (Z.to_nat (buf_size st)) f_zero;
  fs_wp : wp st = 0;
  fs_counter : counter st = 0;
  fs_decim : 1 <= decimation st;
}.

Lemma fresh_holds st : fresh_stage st -> holds st [].
Proof.
  intros [] j Hj. rewrite fs_i0, fs_q0, !frd_replicate. unfold frd. simpl.
  by destruct (j <? 0).
Qed.

(** What does not change while a stage runs. *)
Definition stage_shape (st : dsp_stage) : list flt * Z * Z * Z * Z :=
  (coeffs st, num_taps st, buf_size st, buf_mask st, decimation st).

Lemma stage_run_shape_eq st i q : stage_shape (stage_run st i q).2 = stage_shape st.
Proof. unfold stage_run. by destruct (_ <=? _). Qed.

Lemma cascade_shape sts i q : stage_shape <$> (cascade sts i q).2 = stage_shape <$> sts.
Proof.
  revert i q. induction sts as [|st sts IH]; intros i q; [done|]. simpl.
  pose proof (stage_run_shape_eq st i q) as Hs.
  destruct (stage_run st i q) as [[[i' q']|] st']; simpl in Hs.
  - specialize (IH i' q'). destruct (cascade sts i' q'). simpl in *. by f_equal.
  - simpl. by f_equal.
Qed.

Lemma splice_take_drop {A} n (l' l : list A) :
  length l' = (n `min` length l)%nat ->
  take n (l' ++ drop n l) = l' /\ drop n (l' ++ drop n l) = drop n l.
Proof.
  intros Hl. destruct (decide (n <= length l)%nat).
  - split; [rewrite take_app_le, take_ge by lia; done|].
    rewrite drop_app_ge by lia. by replace (n - length l')%nat with 0%nat by lia.
  - rewrite (drop_ge l), app_nil_r by lia. split; [apply take_ge; lia|apply drop_ge; lia].
Qed.

Section Creation.
Context `{Libm}.

Lemma stage_init_fresh f t c st :
  1 <= f -> 1 <= t <= 2 ^ 31 -> stage_init true f t c = Some st ->
  fresh_stage st /\ decimation st = f /\ num_taps st = t /\
  coeffs st = (if t =? 1 then [f32_of_Z 1] else design_lowpass t c).
Proof.
  intros Hf Ht [= <-]. destruct (next_pow2_spec t) as (b&Hb&E&Hle); [lia|].
  assert (0 < 2 ^ b) by (by apply Z.pow_pos_nonneg).
  split; [|done]. split; simpl; auto; try lia.
  split; simpl; try lia.
  - exists b. auto.
  - unfold zlen. rewrite length_replicate. lia.
  - unfold zlen. rewrite length_replicate. lia.
Qed.

Lemma create_stages_spec allocs k fs ts cs sts :
  create_stages allocs k fs ts cs = Some sts ->
  length ts = length fs -> length cs = length fs ->
  Forall (Z.le 1) fs -> Forall (fun t => 1 <= t <= 2 ^ 31) ts ->
  length sts = length fs /\ Forall fresh_stage sts /\ chain_ratio sts = DspPlanFacts.prod fs /\
  position sts = 0.
Proof.
  revert k ts cs sts. induction fs as [|f fs IH]; intros k [|t ts] [|c cs] sts E L1 L2 Hf Ht;
    try done.
  { injection E as <-. by split_and!. }
  simpl in E. destruct (allocs k) eqn:Ea; [|done]. simpl in L1, L2.
  apply Forall_cons_1 in Hf as [Hf0 Hf]. apply Forall_cons_1 in Ht as [Ht0 Ht].
  destruct (stage_init true f t c) as [st|] eqn:Es; [|done]. simpl in E.
  destruct (create_stages allocs (S k) fs ts cs) as [rest|] eqn:Er; [|done].
  injection E as <-.
  destruct (IH _ _ _ _ Er ltac:(lia) ltac:(lia) Hf Ht) as (R1&R2&R3&R4).
  destruct (stage_init_fresh _ _ _ _ Hf0 Ht0 Es) as (F1&F2&_).
  simpl. unfold DspPlanFacts.prod in *. simpl. rewrite R1, R3, R4, F2, (fs_counter _ F1).
  split_and!; auto; lia.
Qed.

(** What [rtlsdr_dsp_create] returns. *)
Record created (ir or : Z) (d : rtlsdr_dsp) : Prop := {
  cr_wf : dsp_wf d;
  cr_n : Z.of_nat (process_fn d) = num_stages d;
  cr_fresh : Forall fresh_stage (take (process_fn d) (stages d));
  cr_ratio : chain_ratio (take (process_fn d) (stages d)) * or = ir;
  cr_position : position (take (process_fn d) (stages d)) = 0;
  cr_state : phase d = 0 /\ dc_x_i d = f_zero /\ dc_x_q d = f_zero /\
             dc_y_i d = f_zero /\ dc_y_q d = f_zero;
}.

Lemma create_created once_ok alloc_ok allocs ir or bw off d :
  is_u 64 ir -> is_u 64 or -> is_u 64 bw -> is_s 64 off ->
  rtlsdr_dsp_create once_ok alloc_ok allocs ir or bw off = Some d -> created ir or d.
Proof.
  intros Hi Ho Hb Hf. unfold rtlsdr_dsp_create.
  destruct (make_plan ir or bw off) as [plan|] eqn:Ep; [|done]. simpl.
  destruct (negb once_ok || negb alloc_ok); [done|].
  destruct (create_stages _ _ _ _ _) as [sts|] eqn:Es; [|done]. simpl. intros [= <-].
  destruct (DspPlanFacts.make_plan_inv _ _ _ _ _ Hi Ho Hb Hf Ep) as (Hok&_&En&Ef&Ec&Et).
  destruct (DspPlanFacts.request_ok_ratio _ _ _ _ Hok) as (_&Hir&Hprod&Hall&Hlen&_).
  set (fs := DspPlanFacts.plan_factors_of ir or) in *.
  assert (Ht : length (plan_taps plan) = length fs /\
               Forall (fun t => 1 <= t <= 2 ^ 31) (plan_taps plan)).
  { destruct Et as [[_ ->]|(_&Et&Hm)].
    - rewrite length_replicate. split; [done|]. apply Forall_replicate. lia.
    - split; [by rewrite Et, length_fmap, DspPlanFacts.length_stage_rates|].
      rewrite Et in Hm |- *. rewrite Forall_fmap in Hm |- *.
      eapply Forall_impl; [|exact Hm]. intros [r n] Hrn. simpl in *.
      pose proof (DspPlanFacts.taps_needed_odd r n (DspPlanFacts.eff_bandwidth or bw)).
      unfold MAX_TAPS in Hrn. lia. }
  rewrite Ef in Es. unfold MAX_STAGES, zlen in *. destruct Ht as [Ht1 Ht2].
  destruct (create_stages_spec _ _ _ _ _ _ Es Ht1 Ec Hall Ht2) as (S1&S2&S3&S4).
  rewrite En. set (n := length fs) in *.
  assert (Hpf : (if Z.of_nat n =? 1 then 1%nat else if Z.of_nat n =? 2 then 2%nat
    else if Z.of_nat n =? 3 then 3%nat else if Z.of_nat n =? 4 then 4%nat else 5%nat) = n)
    by ztests.
  rewrite Hpf.
  assert (Htk : forall l, take n (sts ++ l) = sts) by (intros l; rewrite take_app_le, take_ge; lia || done).
  split; cbn [stages process_fn num_stages phase dc_x_i dc_x_q dc_y_i dc_y_q]; rewrite ?Htk; auto.
  - split; cbn [stages process_fn]; rewrite ?Htk.
    + rewrite length_app, length_replicate. lia.
    + lia.
    + eapply Forall_impl; [|exact S2]. intros st []. unfold counter_ok. lia.
  - rewrite S3, Hprod. lia.
Qed.

Lemma ref_sample_shape d s :
  let d' := (ref_sample d s).1 in
  input_rate d' = input_rate d /\ output_rate d' = output_rate d /\ bandwidth d' = bandwidth d /\
  freq_offset d' = freq_offset d /\ phase_inc d' = phase_inc d /\ dc_alpha d' = dc_alpha d /\
  num_stages d' = num_stages d /\ process_fn d' = process_fn d /\
  stage_shape <$> take (process_fn d) (stages d') = stage_shape <$> take (process_fn d) (stages d) /\
  drop (process_fn d) (stages d') = drop (process_fn d) (stages d).
Proof.
  unfold ref_sample, mix. cbv zeta. cbn [stages process_fn].
  destruct (cascade _ _ _) as [o sts] eqn:Ec.
  assert (Hs : stage_shape <$> sts = stage_shape <$> take (process_fn d) (stages d)).
  { apply (f_equal snd) in Ec. simpl in Ec. rewrite <- Ec. apply cascade_shape. }
  clear Ec. simpl.
  assert (Hl : length sts = (process_fn d `min` length (stages d))%nat).
  { apply (f_equal length) in Hs. by rewrite !length_fmap, length_take in Hs. }
  destruct (splice_take_drop (process_fn d) sts (stages d) Hl) as [-> ->]. by split_and!.
Qed.

(** Running keeps what reset does not touch. *)
Lemma ref_run_shape d ss :
  let d' := (ref_run d ss).1 in
  input_rate d' = input_rate d /\ output_rate d' = output_rate d /\ bandwidth d' = bandwidth d /\
  freq_offset d' = freq_offset d /\ phase_inc d' = phase_inc d /\ dc_alpha d' = dc_alpha d /\
  num_stages d' = num_stages d /\ process_fn d' = process_fn d /\
  stage_shape <$> take (process_fn d) (stages d') = stage_shape <$> take (process_fn d) (stages d) /\
  drop (process_fn d) (stages d') = drop (process_fn d) (stages d).
Proof.
  revert d. induction ss as [|s ss IH]; intros d; simpl; [by split_and!|].
  destruct (ref_sample_shape d s) as (A1&A2&A3&A4&A5&A6&A7&A8&A9&A10).
  destruct (ref_sample d s) as [d1 o1]. simpl in *.
  specialize (IH d1) as (B1&B2&B3&B4&B5&B6&B7&B8&B9&B10). rewrite A8 in *.
  destruct (ref_run d1 ss) as [d2 o2]. simpl in *. split_and!; congruence.
Qed.

(** Reset of a stage is determined by its shape, and is the identity on a fresh one. *)
Definition reset_stage (st : dsp_stage) : dsp_stage :=
  mk_stage (coeffs st) (replicate (Z.to_nat (buf_size st)) f_zero)
    (replicate (Z.to_nat (buf_size st)) f_zero) (num_taps st) (buf_size st)
    (buf_mask st) (decimation st) 0 0.

Lemma reset_stage_shape st st' : stage_shape st = stage_shape st' -> reset_stage st = reset_stage st'.
Proof. unfold stage_shape, reset_stage. by intros [= -> -> -> -> ->]. Qed.
Lemma reset_stage_fresh st : fresh_stage st -> reset_stage st = st.
Proof. destruct st. unfold reset_stage. by intros []; simpl in *; subst. Qed.

Lemma reset_stages d :
  num_stages d = Z.of_nat (process_fn d) ->
  stages (rtlsdr_dsp_reset d)
  = (reset_stage <$> take (process_fn d) (stages d)) ++ drop (process_fn d) (stages d).
Proof.
  intros Hn. simpl. rewrite Hn. generalize (process_fn d) (stages d). clear.
  intros n l. change (imap _ l) with (imap (fun k st => if Z.of_nat k <? Z.of_nat n then reset_stage st else st) l).
  apply list_eq. intros k. rewrite list_lookup_imap.
  destruct (l !! k) as [st|] eqn:Hk.
  - pose proof (lookup_lt_Some _ _ _ Hk). simpl.
    destruct (Z.ltb_spec (Z.of_nat k) (Z.of_nat n)).
    + rewrite lookup_app_l by (rewrite length_fmap, length_take; lia).
      rewrite list_lookup_fmap, lookup_take_lt, Hk by lia. done.
    + rewrite lookup_app_r by (rewrite length_fmap, length_take; lia).
      rewrite lookup_drop, length_fmap, length_take.
      by replace (n + (k - n `min` length l))%nat with k by lia.
  - apply lookup_ge_None_1 in Hk. simpl. symmetry. apply lookup_ge_None_2.
    rewrite length_app, length_fmap, length_take, length_drop. lia.
Qed.

(** Reset undoes everything a created filter has processed. *)
Lemma reset_created ir or d ss :
  created ir or d -> rtlsdr_dsp_reset (ref_run d ss).1 = d.
Proof.
  intros [W Hn Hfr _ _ (Hp&Hx1&Hx2&Hy1&Hy2)].
  destruct (ref_run_shape d ss) as (B1&B2&B3&B4&B5&B6&B7&B8&B9&B10).
  set (d' := (ref_run d ss).1) in *. clearbody d'.
  assert (Hst : stages (rtlsdr_dsp_reset d') = stages d).
  { rewrite reset_stages by congruence. rewrite B8, B10.
    rewrite <- (take_drop (process_fn d) (stages d)) at 2. f_equal.
    revert B9 Hfr. generalize (take (process_fn d) (stages d')).
    generalize (take (process_fn d) (stages d)). clear.
    intros l. induction l as [|st l IH]; intros [|st' l']; simpl; try done.
    intros E Hf. pose proof (f_equal (hd (stage_shape st)) E) as Hs.
    pose proof (f_equal tail E) as Hl. apply Forall_cons_1 in Hf as [Hf0 Hf]. f_equal; [|by apply IH].
    rewrite (reset_stage_shape st' st) by done. by apply reset_stage_fresh. }
  unfold rtlsdr_dsp_reset in *. simpl in Hst. rewrite Hst, B1, B2, B3, B4, B5, B6, B7, B8.
  clear - Hp Hx1 Hx2 Hy1 Hy2. destruct d. simpl in *. by subst.
Qed.

End Creation.
End DspFacts.

(** ** Properties *)

Module DspProps.
Import DspPlan Dsp DspRef DspFacts.

(** A call with a buffer of exactly the input's size: the state and the samples written. *)
Definition feed1 `{Libm} (d : rtlsdr_dsp) (b : list Z) : rtlsdr_dsp * list Z :=
  match rtlsdr_dsp_process (Some d) (Some b) (zlen b) (Some (replicate (length b) 0)) (zlen b)
          (Some 0) with
  | (_, Some d', Some o, Some n) => (d', take (Z.to_nat n) o)
  | _ => (d, [])
  end.

(** A sequence of calls, with all the samples they wrote. *)
Fixpoint feed `{Libm} (d : rtlsdr_dsp) (bufs : list (list Z)) : rtlsdr_dsp * list Z :=
  match bufs with
  | [] => (d, [])
  | b :: bufs =>
      let '(d1, o1) := feed1 d b in
      let '(d2, o2) := feed d1 bufs in (d2, o1 ++ o2)
  end.

Lemma process_ref `{Libm} d input out cap l0 d' o :
  dsp_wf d -> Z.even (zlen input) = true -> zlen input <= cap -> zlen out = cap ->
  ref_run d (samples input) = (d', o) ->
  rtlsdr_dsp_process (Some d) (Some input) (zlen input) (Some out) cap (Some l0)
  = (0, Some d', Some (o ++ drop (length o) out), Some (zlen o)) /\ zlen o <= zlen input.
Proof.
  intros W He Hc Ho E. pose proof (ref_run_fits _ _ _ _ W E) as Hf.
  rewrite zlen_samples in Hf. pose proof (Z.mul_div_le (zlen input) 2 ltac:(lia)).
  split; [|lia]. unfold rtlsdr_dsp_process.
  rewrite (Z.land_ones _ 1), Zmod_even, He by lia. cbn [negb Z.eqb].
  destruct (Z.ltb_spec cap (zlen input)); [lia|]. cbn [orb].
  rewrite call_process_fn_ref, E by done. by rewrite blit_0 by lia.
Qed.

Lemma feed1_ref `{Libm} d b :
  dsp_wf d -> Z.even (zlen b) = true -> feed1 d b = ref_run d (samples b).
Proof.
  intros W He. destruct (ref_run d (samples b)) as [d' o] eqn:E. unfold feed1.
  destruct (process_ref d b (replicate (length b) 0) (zlen b) 0 d' o) as [-> _]; auto.
  { lia. } { unfold zlen. by rewrite length_replicate. }
  unfold zlen. rewrite Nat2Z.id. by rewrite take_app_length.
Qed.

Lemma feed_ref `{Libm} d bufs :
  dsp_wf d -> Forall (fun b => Z.even (zlen b) = true) bufs ->
  feed d bufs = ref_run d (samples (mjoin bufs)).
Proof.
  revert d. induction bufs as [|b bufs IH]; intros d W Hall; [done|].
  apply Forall_cons_1 in Hall as [Hb Hall]. cbn [feed mjoin list_join].
  rewrite feed1_ref by done.
  rewrite samples_app, ref_run_app by done.
  pose proof (ref_run_wf d (samples b) W) as [W' _].
  destruct (ref_run d (samples b)) as [d1 o1]. simpl in W'. by rewrite IH.
Qed.

(** C3.  Each of the five unrolled processing functions, with its fused block loop over
    the first stage, computes the reference: one sample at a time through DC blocker,
    mixer and the chain of filters.  The call writes exactly the reference's output to the
    front of the buffer, nothing behind it, and never more than the [input_len]
    components the interface demands as capacity. *)
Theorem dsp_process_reference (libm : Libm) d input out cap l0 :
  dsp_wf d -> Z.even (zlen input) = true -> zlen input <= cap -> zlen out = cap ->
  let '(d', o) := ref_run d (samples input) in
  rtlsdr_dsp_process (Some d) (Some input) (zlen input) (Some out) cap (Some l0)
  = (0, Some d', Some (o ++ drop (length o) out), Some (zlen o)) /\ zlen o <= zlen input.
Proof.
  intros W He Hc Ho. destruct (ref_run d (samples input)) as [d' o] eqn:E. by apply process_ref.
Qed.

(** An interpretation of the mathematical library for the examples. *)
Definition demo_libm : Libm :=
  {| cos := fun _ => f64_of_Z 1; sin := fun _ => f_zero; exp := fun _ => f64_of_Z 1;
     log10 := fun _ => f_zero |}.

(** The filter a pass-through request creates. *)
Definition demo_dsp : rtlsdr_dsp :=
  default (mk_dsp 0 0 0 0 0 0 f_zero f_zero f_zero f_zero f_zero 0 [] 0)
    (@rtlsdr_dsp_create demo_libm true true (fun _ => true) 1000 1000 1000 0).

Lemma demo_dsp_created :
  @rtlsdr_dsp_create demo_libm true true (fun _ => true) 1000 1000 1000 0 = Some demo_dsp.
Proof. vm_compute. reflexivity. Qed.

Lemma dsp_process_reference_witness :
  exists d' o, @ref_run demo_libm demo_dsp (samples [128; 127; 255; 0]) = (d', o) /\
    @rtlsdr_dsp_process demo_libm (Some demo_dsp) (Some [128; 127; 255; 0]) 4
      (Some [9; 9; 9; 9; 9]) 5 (Some 0)
    = (0, Some d', Some (o ++ drop (length o) [9; 9; 9; 9; 9]), Some (zlen o)).
Proof.
  pose proof (dsp_process_reference demo_libm demo_dsp [128; 127; 255; 0] [9; 9; 9; 9; 9] 5 0) as H.
  destruct (ref_run demo_dsp (samples [128; 127; 255; 0])) as [d' o].
  exists d', o. split; [reflexivity|]. apply H.
  - eapply cr_wf, (create_created true true (fun _ => true) 1000 1000 1000 0);
      [vm_compute; split; congruence..|exact demo_dsp_created].
  - reflexivity.
  - vm_compute. congruence.
  - reflexivity.
Defined.

(** Block boundaries do not matter: two ways of cutting the same stream into
    buffers of an even number of bytes leave the filter in the same state and produce the
    same samples, partial decimation blocks included. *)
Theorem dsp_feed_concat (libm : Libm) d bufs1 bufs2 :
  dsp_wf d ->
  Forall (fun b => Z.even (zlen b) = true) bufs1 ->
  Forall (fun b => Z.even (zlen b) = true) bufs2 ->
  mjoin bufs1 = mjoin bufs2 -> feed d bufs1 = feed d bufs2.
Proof. intros W H1 H2 E. by rewrite !feed_ref, E by done. Qed.

Lemma dsp_feed_concat_witness :
  @feed demo_libm demo_dsp [[1; 2]; [3; 4; 5; 6]] = @feed demo_libm demo_dsp [[1; 2; 3; 4]; []; [5; 6]].
Proof.
  apply (dsp_feed_concat demo_libm demo_dsp).
  - eapply cr_wf, (create_created true true (fun _ => true) 1000 1000 1000 0);
      [vm_compute; split; congruence..|exact demo_dsp_created].
  - repeat constructor.
  - repeat constructor.
  - reflexivity.
Defined.

(** The output rate is exact: a filter created for [ir] to [or] has produced, after
    any sequence of buffers with [n] complex samples in total, exactly the complex
    samples [floor (n * or / ir)], none lost and none invented at block boundaries. *)
Theorem dsp_output_count (libm : Libm) once_ok alloc_ok allocs ir or bw off d bufs d' o :
  is_u 64 ir -> is_u 64 or -> is_u 64 bw -> is_s 64 off ->
  rtlsdr_dsp_create once_ok alloc_ok allocs ir or bw off = Some d ->
  Forall (fun b => Z.even (zlen b) = true) bufs ->
  feed d bufs = (d', o) ->
  zlen o = 2 * (zlen (mjoin bufs) / 2 * or / ir).
Proof.
  intros Hi Ho Hb Hf Hc Hall E.
  destruct (create_created _ _ _ _ _ _ _ _ Hi Ho Hb Hf Hc) as [W _ _ Hr Hp _].
  rewrite feed_ref in E by done.
  destruct (ref_run_count _ _ _ _ W E) as (Hb2&_&_&->). cbv zeta in *.
  rewrite Hp, Z.add_0_l in *. rewrite zlen_samples. f_equal. rewrite <- Hr.
  assert (0 < or).
  { destruct (decide (or = 0)) as [->|]; [|clia]. unfold rtlsdr_dsp_create, make_plan in Hc.
    simpl in Hc. done. }
  rewrite Z.div_mul_cancel_r; lia.
Qed.

Lemma dsp_output_count_witness :
  exists d' o, @feed demo_libm demo_dsp [[1; 2]; [3; 4; 5; 6]] = (d', o) /\ zlen o = 6.
Proof.
  destruct (@feed demo_libm demo_dsp [[1; 2]; [3; 4; 5; 6]]) as [d' o] eqn:E. exists d', o.
  split; [reflexivity|].
  rewrite (dsp_output_count demo_libm true true (fun _ => true) 1000 1000 1000 0 demo_dsp
             [[1; 2]; [3; 4; 5; 6]] d' o).
  - reflexivity.
  - vm_compute. split; congruence.
  - vm_compute. split; congruence.
  - vm_compute. split; congruence.
  - vm_compute. split; congruence.
  - exact demo_dsp_created.
  - repeat constructor.
  - exact E.
Defined.

(** The circular delay lines implement the filter: a stage initialised with [t]
    taps and decimation [f], fed with any stream, outputs after every [f] samples the
    convolution (in the code's order of [float] operations) of its coefficients with the
    whole history of the stream, newest sample first and zeros before its start. *)
Theorem stage_filter_convolution (libm : Libm) f t c st xs :
  1 <= f -> 1 <= t <= MAX_TAPS -> stage_init true f t c = Some st ->
  stage_stream st xs
  = (fun k => fir_direct (coeffs st) t (reverse (take (Z.to_nat f * (k + 1)) xs)))
      <$> seq 0 (length xs / Z.to_nat f).
Proof.
  intros Hf Ht E. destruct (stage_init_fresh f t c st) as (Hfr&Hd&Hn&_); auto.
  { unfold MAX_TAPS in Ht. lia. }
  rewrite (stage_stream_direct st []) by
    (first [apply Hfr|by apply fresh_holds|unfold counter_ok; destruct Hfr; lia]).
  rewrite Hd, Hn, (fs_counter _ Hfr). change (Z.to_nat 0) with 0%nat. simpl.
  apply list_fmap_ext. intros i k _. by rewrite Nat.sub_0_r, app_nil_r.
Qed.

Lemma stage_filter_convolution_witness :
  exists st, @stage_init demo_libm true 2 3 (f64_lit 1 4) = Some st /\
    stage_stream st [(f32_of_Z 4, f32_of_Z 0); (f32_of_Z 8, f32_of_Z 1); (f32_of_Z 2, f32_of_Z 3)]
    = [fir_direct (coeffs st) 3 [(f32_of_Z 8, f32_of_Z 1); (f32_of_Z 4, f32_of_Z 0)]].
Proof.
  eexists. split; [reflexivity|].
  apply (stage_filter_convolution demo_libm 2 3 (f64_lit 1 4)).
  - lia.
  - vm_compute. split; congruence.
  - reflexivity.
Defined.

(** Reset returns a filter to the state it was created in, whatever it has
    processed; and a refused call (odd length or too small a buffer) changes neither the
    state nor the buffer and reports a length of 0. *)
Theorem dsp_reset_and_errors (libm : Libm) once_ok alloc_ok allocs ir or bw off d bufs :
  is_u 64 ir -> is_u 64 or -> is_u 64 bw -> is_s 64 off ->
  rtlsdr_dsp_create once_ok alloc_ok allocs ir or bw off = Some d ->
  Forall (fun b => Z.even (zlen b) = true) bufs ->
  rtlsdr_dsp_reset (feed d bufs).1 = d /\
  (forall d1 input len out cap l0, Z.odd len = true \/ cap < len ->
     rtlsdr_dsp_process (Some d1) (Some input) len (Some out) cap (Some l0)
     = (-1, Some d1, Some out, Some 0)).
Proof.
  intros Hi Ho Hb Hf Hc Hall.
  pose proof (create_created _ _ _ _ _ _ _ _ Hi Ho Hb Hf Hc) as Cr. split.
  - rewrite feed_ref by (auto; apply Cr). by eapply reset_created.
  - intros d1 input len out cap l0 Hbad. unfold rtlsdr_dsp_process.
    rewrite (Z.land_ones _ 1), Zmod_even by lia.
    destruct Hbad as [Ho1|Hlt].
    + rewrite <- Z.negb_even in Ho1. by destruct (Z.even len).
    + destruct (Z.ltb_spec cap len); [|lia]. by rewrite orb_true_r.
Qed.

Lemma dsp_reset_and_errors_witness :
  @rtlsdr_dsp_reset (@feed demo_libm demo_dsp [[1; 2]; [3; 4; 5; 6]]).1 = demo_dsp.
Proof.
  apply (dsp_reset_and_errors demo_libm true true (fun _ => true) 1000 1000 1000 0).
  - vm_compute. split; congruence.
  - vm_compute. split; congruence.
  - vm_compute. split; congruence.
  - vm_compute. split; congruence.
  - exact demo_dsp_created.
  - repeat constructor.
Defined.

End DspProps.
