(* ===== verification/ServerIo.v ===== *)
(** * Socket I/O of the stream server ([src/src/rtl_stream_server.c])

    [wait_socket], [rtlsdr_stream_sendv] and [receive_request].  The environment is what
    the coming system calls answer: [polls] pairs the clock read before each [poll] with
    its outcome, [sends] is the outcome of each [sendmsg], and the receiving side uses the
    events of [Client].  All are arbitrary, so the theorems hold for every scheduling of
    the peer.  [Module Publish] is the producer's entry, [rtlsdr_server_publish]. *)

From S2P Require Import Prelude Ring Proto Client.

Module ServerIo.
Import Proto Client.

(** [poll]: ready for the wanted event, ready for something else only, nothing within
    the time (or interrupted), an error. *)
Inductive poll_out := PollReady | PollOther | PollNone | PollFail.

(** [sendmsg]: some bytes taken, an interrupted or not yet possible call, an error. *)
Inductive send_out := Sent (n : Z) | SendAgain | SendFail.

(** The loop of [wait_socket]; when no outcomes are left, time is up. *)
Fixpoint wait_socket (deadline : Z) (polls : list (Z * poll_out)) : Z * list (Z * poll_out) :=
  match polls with
  | [] => (-1, [])
  | (now, out) :: polls' =>
      if deadline - now <=? 0 then (-1, polls')
      else match out with
           | PollReady => (0, polls')
           | PollOther => (-1, polls')
           | PollNone => wait_socket deadline polls'
           | PollFail => (-1, polls')
           end
  end.

(** [pending + first]: the buffers not yet sent, the first one shortened by what was. *)
Fixpoint skip_empty (pending : list (list Z)) : list (list Z) :=
  match pending with
  | [] :: rest => skip_empty rest
  | _ => pending
  end.

(** [while (first < count && n >= pending[first].iov_len)] and the adjustment behind it. *)
Fixpoint advance (n : Z) (pending : list (list Z)) : list (list Z) :=
  match pending with
  | [] => []
  | b :: rest => if zlen b <=? n then advance (n - zlen b) rest else drop (Z.to_nat n) b :: rest
  end.

(** The result, the bytes put on the wire and the outcomes left over. *)
Fixpoint sendv_loop (deadline : Z) (sends : list send_out) (polls : list (Z * poll_out))
    (pending : list (list Z)) : Z * list Z :=
  match skip_empty pending with
  | [] => (0, [])
  | pending =>
      let '(rc, polls) := wait_socket deadline polls in
      if rc <? 0 then (-1, [])
      else match sends with
           | [] => (-1, [])
           | SendFail :: _ => (-1, [])
           | SendAgain :: sends' => sendv_loop deadline sends' polls pending
           | Sent k :: sends' =>
               let n := Z.min k (zlen (mjoin pending)) in
               if n <=? 0 then (-1, [])
               else
                 let '(rc, out) := sendv_loop deadline sends' polls (advance n pending) in
                 (rc, take (Z.to_nat n) (mjoin pending) ++ out)
           end
  end.

(** [start] is the clock at entry, [nb] the result of [nonblocking]. *)
Definition rtlsdr_stream_sendv (start nb : Z) (sends : list send_out)
    (polls : list (Z * poll_out)) (iov : option (list (list Z))) : Z * list Z :=
  let deadline := start + 5000 in
  match iov with
  | None => (-1, [])
  | Some l =>
      if (zlen l <? 1) || (2 <? zlen l) then (-1, [])
      else if nb <? 0 then (-1, [])
      else sendv_loop deadline sends polls l
  end.

(** The loop of [receive_request]: [left] is [RTLSTREAM_REQ_SIZE - pos]; an [RxIntr] is
    an interrupted or not yet possible call. *)
Fixpoint receive_loop (deadline : Z) (evs : list rx_event) (polls : list (Z * poll_out))
    (left : nat) : Z * list Z :=
  match left with
  | O => (0, [])
  | _ =>
      let '(rc, polls) := wait_socket deadline polls in
      if rc <? 0 then (-1, [])
      else match evs with
           | [] => (-1, [])
           | RxIntr :: evs' => receive_loop deadline evs' polls left
           | RxFail :: _ => (-1, [])
           | RxData [] :: _ => (-1, [])
           | RxData bs :: evs' =>
               if (length bs <=? left)%nat then
                 let '(rc, got) := receive_loop deadline evs' polls (left - length bs) in
                 (rc, bs ++ got)
               else (0, take left bs)
           end
  end.

(** The result and the bytes in [buf]. *)
Definition receive_request (start : Z) (evs : list rx_event) (polls : list (Z * poll_out))
    : Z * list Z :=
  receive_loop (start + 5000) evs polls (Z.to_nat RTLSTREAM_REQ_SIZE).

End ServerIo.

Module Publish.
Import Ring.

(** The chunk loop of [rtlsdr_server_publish]; [len] decreases by at least one per round,
    so it is its own fuel.  The ring and the result. *)
Fixpoint publish_loop (fuel : nat) (r : rtlsdr_ring) (input : list Z) (len : Z)
    : rtlsdr_ring * Z :=
  match fuel with
  | O => (r, 0)
  | S fuel' =>
      if len =? 0 then (r, 0)
      else
        let count := if len <? slot_size r then len else slot_size r in
        match rtlsdr_ring_write_copy (Some r) (Some input) count with
        | (rc, Some r') =>
            if rc <? 0 then (default r' (rtlsdr_ring_mark_gap (Some r')), -1)
            else publish_loop fuel' r' (drop (Z.to_nat count) input) (len - count)
        | (_, None) => (r, -1)
        end
  end.

(** [None] for a [NULL] ring or input. *)
Definition rtlsdr_server_publish (stopping : bool) (ring : option rtlsdr_ring)
    (input : option (list Z)) (len : Z) : Z * option rtlsdr_ring :=
  match ring with
  | None => (-1, None)
  | Some r =>
      if (bool_decide (input = None) && negb (len =? 0)) || stopping then (-1, ring)
      else if len =? 0 then (0, ring)
      else if negb (len &' 1 =? 0) then (-1, rtlsdr_ring_mark_gap ring)
      else
        let '(r', rc) := publish_loop (Z.to_nat len) r (default [] input) len in
        (rc, Some r')
  end.

(** The chunks a buffer is cut into. *)
Fixpoint chunks (fuel : nat) (size : nat) (l : list Z) : list (list Z) :=
  match fuel, l with
  | S fuel', _ :: _ => take size l :: chunks fuel' size (drop size l)
  | _, _ => []
  end.

End Publish.

Module ServerIoFacts.
Import Proto Client ClientFacts ServerIo.

Lemma skip_empty_spec pending :
  mjoin (skip_empty pending) = mjoin pending /\
  (skip_empty pending = [] -> mjoin pending = []) /\
  (skip_empty pending <> [] -> mjoin pending <> []).
Proof.
  induction pending as [|[|x b] rest IH]; simpl; [by split_and!|done|by split_and!].
Qed.

Lemma advance_spec n pending :
  0 <= n <= zlen (mjoin pending) -> mjoin (advance n pending) = drop (Z.to_nat n) (mjoin pending).
Proof.
  revert n. induction pending as [|b rest IH]; intros n Hn; [simpl; by rewrite drop_nil|].
  cbn [advance mjoin list_join]. unfold zlen in Hn |- *.
  change (mjoin (b :: rest)) with (b ++ mjoin rest) in *. rewrite length_app in Hn.
  destruct (Z.leb_spec (Z.of_nat (length b)) n).
  - rewrite IH by (unfold zlen; lia). rewrite drop_app_ge by lia. f_equal. lia.
  - rewrite drop_app_le by lia. done.
Qed.

(** Success means everything, failure a proper prefix. *)
Lemma sendv_loop_spec deadline sends polls pending rc out :
  sendv_loop deadline sends polls pending = (rc, out) ->
  (rc = 0 /\ out = mjoin pending) \/
  (rc = -1 /\ out `prefix_of` mjoin pending /\ out <> mjoin pending).
Proof.
  revert polls pending rc out. induction sends as [|s sends IH]; intros polls pending rc out;
    cbn [sendv_loop];
    destruct (skip_empty_spec pending) as (Hm&He&Hne);
    destruct (skip_empty pending) as [|b rest] eqn:Ep; try (intros [= <- <-]; left; by rewrite He).
  all: assert (Hn : mjoin pending <> []) by (by apply Hne).
  all: destruct (wait_socket deadline polls) as [w polls'].
  all: destruct (w <? 0); [intros [= <- <-]; right; split_and!; auto; apply prefix_nil|].
  { intros [= <- <-]; right; split_and!; auto; apply prefix_nil. }
  destruct s as [k| |].
  - destruct (Z.leb_spec (Z.min k (zlen (mjoin (b :: rest)))) 0).
    { intros [= <- <-]; right; split_and!; auto; apply prefix_nil. }
    set (n := Z.min k (zlen (mjoin (b :: rest)))) in *.
    destruct (sendv_loop _ sends polls' _) as [rc' out'] eqn:E. intros [= <- <-].
    specialize (IH _ _ _ _ E). rewrite advance_spec in IH by lia.
    change (b ++ mjoin rest) with (mjoin (b :: rest)). rewrite Hm in IH |- *.
    pose proof (take_drop (Z.to_nat n) (mjoin pending)) as Htd.
    destruct IH as [[-> ->]|(->&Hp&Hq)]; [left; auto|right]. split; [done|]. split.
    + rewrite <- Htd at 2. by apply prefix_app.
    + rewrite <- Htd at 2. intros Hc. by apply app_inv_head in Hc.
  - intros E. specialize (IH _ _ _ _ E). by rewrite Hm in IH.
  - intros [= <- <-]; right; split_and!; auto; apply prefix_nil.
Qed.

End ServerIoFacts.

Module PublishFacts.
Import Ring RingSpec RingFacts Publish.

(** The ring after storing whole blocks one after the other. *)
Definition ring_writes (r : rtlsdr_ring) (bs : list (list Z)) : rtlsdr_ring :=
  fold_left (fun r b => default r (rtlsdr_ring_write_copy (Some r) (Some b) (zlen b)).2) bs r.

Lemma write_prefix r input count :
  0 <= count <= zlen input ->
  rtlsdr_ring_write_copy (Some r) (Some input) count
  = rtlsdr_ring_write_copy (Some r) (Some (take (Z.to_nat count) input))
      (zlen (take (Z.to_nat count) input)).
Proof.
  intros Hc. assert (E : zlen (take (Z.to_nat count) input) = count)
    by (unfold zlen in *; rewrite length_take; lia).
  rewrite E. unfold rtlsdr_ring_write_copy. simpl. unfold ring_push.
  rewrite take_take, Nat.min_id. done.
Qed.

Lemma write_slot_size r b : slot_size (default r (rtlsdr_ring_write_copy (Some r) (Some b) (zlen b)).2) = slot_size r.
Proof.
  unfold rtlsdr_ring_write_copy. destruct (_ || _); [done|]. destruct (_ =? 0); [done|].
  simpl. unfold ring_push. by destruct (_ =? UINT64_MAX).
Qed.

Lemma write_keeps_wf r b :
  ring_wf r -> ring_wf (default r (rtlsdr_ring_write_copy (Some r) (Some b) (zlen b)).2).
Proof.
  intros W. destruct (write_copy_cases r b W) as [[-> _]|[[-> _]|(r'&->&_&?&_)]]; done.
Qed.

Lemma ring_writes_wf r bs : ring_wf r -> ring_wf (ring_writes r bs).
Proof.
  revert r. induction bs as [|b bs IH]; intros r W; [done|]. apply IH. by apply write_keeps_wf.
Qed.

Lemma ring_writes_size r bs : slot_size (ring_writes r bs) = slot_size r.
Proof.
  revert r. induction bs as [|b bs IH]; intros r; [done|].
  etransitivity; [apply IH|apply write_slot_size].
Qed.

(** Publishing is storing the chunks. *)
Lemma publish_loop_chunks fuel r input :
  ring_wf r -> (length input <= fuel)%nat ->
  publish_loop fuel r input (zlen input)
  = (ring_writes r (chunks fuel (Z.to_nat (slot_size r)) input), 0).
Proof.
  revert r input. induction fuel as [|fuel IH]; intros r input W Hf.
  { destruct input; [done|simpl in Hf; lia]. }
  destruct input as [|x input]; [done|]. pose proof (wf_size _ W) as Hs.
  cbn [publish_loop chunks ring_writes fold_left].
  destruct (Z.eqb_spec (zlen (x :: input)) 0); [unfold zlen in *; simpl in *; lia|].
  set (l := x :: input) in *.
  set (count := if zlen l <? slot_size r then zlen l else slot_size r).
  assert (Hc : 0 < count <= zlen l /\ count <= slot_size r)
    by (unfold count, zlen in *; simpl in *; ztests).
  assert (Htk : take (Z.to_nat count) l = take (Z.to_nat (slot_size r)) l).
  { unfold count. destruct (Z.ltb_spec (zlen l) (slot_size r)); [|done].
    rewrite !take_ge; unfold zlen in *; lia || done. }
  assert (Hdr : drop (Z.to_nat count) l = drop (Z.to_nat (slot_size r)) l).
  { unfold count. destruct (Z.ltb_spec (zlen l) (slot_size r)); [|done].
    rewrite !drop_ge; unfold zlen in *; lia || done. }
  rewrite write_prefix by lia. rewrite Htk, Hdr.
  set (b := take (Z.to_nat (slot_size r)) l) in *.
  assert (Hb : zlen b = count) by (rewrite <- Htk; unfold zlen in *; rewrite length_take; lia).
  destruct (write_copy_cases r b W) as [[_ Hbad]|[[_ Hbad]|(r'&E&_&W'&_)]].
  - lia.
  - rewrite Hbad in Hb. unfold zlen in Hb. simpl in Hb. lia.
  - pose proof (write_slot_size r b) as Hss. rewrite E in Hss |- *. simpl in Hss.
    cbn [default snd from_option]. change (0 <? 0) with false. cbv iota.
    replace (zlen l - count) with (zlen (drop (Z.to_nat (slot_size r)) l)).
    2: { rewrite <- Hdr. unfold zlen in *. rewrite length_drop. lia. }
    rewrite IH; [by rewrite Hss|done|]. rewrite length_drop. simpl in *. lia.
Qed.

Lemma mjoin_chunks fuel size l : (0 < size)%nat -> (length l <= fuel)%nat -> mjoin (chunks fuel size l) = l.
Proof.
  intros Hs. revert l. induction fuel as [|fuel IH]; intros [|x l] Hl; simpl in *; try done; try lia.
  change (take size (x :: l) ++ mjoin (chunks fuel size (drop size (x :: l))) = x :: l).
  rewrite IH; [apply take_drop|]. rewrite length_drop. simpl. lia.
Qed.

Lemma chunks_bounds fuel size l :
  (0 < size)%nat -> Forall (fun b => 0 < zlen b <= Z.of_nat size) (chunks fuel size l).
Proof.
  intros Hs. revert l. induction fuel as [|fuel IH]; intros [|x l]; simpl; try done.
  constructor; [|apply IH]. unfold zlen. rewrite length_take. simpl. lia.
Qed.

(** Even chunks when both the buffer and the slots are even. *)
Lemma chunks_even fuel size l :
  Nat.even size = true -> Z.even (zlen l) = true ->
  Forall (fun b => Z.even (zlen b) = true) (chunks fuel size l).
Proof.
  intros Hs. revert l. induction fuel as [|fuel IH]; intros [|x l] Hl; simpl; try done.
  assert (Hz : forall n, Z.even (Z.of_nat n) = Nat.even n).
  { intros n. destruct (Nat.even n) eqn:E.
    - apply Nat.even_spec in E as [m ->]. rewrite Nat2Z.inj_mul. apply Z.even_mul.
    - rewrite <- Nat.negb_odd in E. apply negb_false_iff, Nat.odd_spec in E as [m ->].
      rewrite Nat2Z.inj_add, Nat2Z.inj_mul, Z.even_add, Z.even_mul. done. }
  set (y := x :: l) in *. unfold zlen in *. rewrite Hz in Hl.
  assert (Htake : Nat.even (length (take size y)) = true).
  { rewrite length_take. destruct (Nat.min_dec size (length y)) as [->| ->]; done. }
  constructor; [by rewrite Hz|]. apply IH. rewrite Hz, length_drop.
  destruct (decide (size <= length y)%nat).
  - rewrite Nat.even_sub by done. by rewrite Hl, Hs.
  - by replace (length y - size)%nat with 0%nat by lia.
Qed.

Lemma chunks_count fuel size l :
  (0 < size)%nat -> (length (chunks fuel size l) * size < length l + size)%nat.
Proof.
  intros Hs. revert l. induction fuel as [|fuel IH]; intros [|x l]; cbn [chunks]; try (simpl; lia).
  specialize (IH (drop size (x :: l))). rewrite length_drop in IH.
  cbn [length] in *. destruct (length (chunks fuel size _)) as [|n]; [lia|]. nia.
Qed.

(** Publishing an even buffer. *)
Lemma publish_even r input :
  ring_wf r -> Z.even (zlen input) = true ->
  exists cs, rtlsdr_server_publish false (Some r) (Some input) (zlen input)
      = (0, Some (ring_writes r cs)) /\
    mjoin cs = input /\ Forall (fun b => 0 < zlen b <= slot_size r) cs /\
    (Z.even (slot_size r) = true -> Forall (fun b => Z.even (zlen b) = true) cs) /\
    zlen cs * slot_size r < zlen input + slot_size r.
Proof.
  intros W Hev. pose proof (wf_size _ W) as Hs.
  unfold rtlsdr_server_publish. rewrite bool_decide_false by done. cbn [andb orb].
  destruct (Z.eqb_spec (zlen input) 0) as [E|E].
  { exists []. apply nil_length_inv_zlen in E as ->. split_and!; auto. }
  rewrite (Z.land_ones _ 1), Zmod_even, Hev by lia. cbn [negb Z.eqb default from_option].
  rewrite publish_loop_chunks by (auto; unfold zlen; lia).
  eexists. split; [done|]. split_and!.
  - apply mjoin_chunks; [lia|unfold zlen; lia].
  - eapply Forall_impl; [|apply (chunks_bounds _ (Z.to_nat (slot_size r))); lia]. simpl. lia.
  - intros He. apply chunks_even; [|done].
    apply Z.even_spec in He as [m Hm]. rewrite Hm, Z2Nat.inj_mul by lia. apply Nat.even_mul.
  - pose proof (chunks_count (Z.to_nat (zlen input)) (Z.to_nat (slot_size r)) input).
    unfold zlen in *. nia.
Qed.

Lemma publish_odd r input :
  Z.odd (zlen input) = true ->
  rtlsdr_server_publish false (Some r) (Some input) (zlen input)
  = (-1, rtlsdr_ring_mark_gap (Some r)).
Proof.
  intros Ho. unfold rtlsdr_server_publish. rewrite bool_decide_false by done. cbn [andb orb].
  destruct (Z.eqb_spec (zlen input) 0) as [E|E]; [by rewrite E in Ho|].
  rewrite (Z.land_ones _ 1), Zmod_even by lia. rewrite <- Z.negb_even in Ho.
  by destruct (Z.even (zlen input)).
Qed.

End PublishFacts.

Module ServerIoLive.
Import Proto Client ClientFacts ServerIo ServerIoFacts.

(** The next [n] polls find the socket ready before the deadline. *)
Definition ready (deadline : Z) (n : nat) (polls : list (Z * poll_out)) : Prop :=
  (n <= length polls)%nat /\
  Forall (fun p => p.1 < deadline /\ p.2 = PollReady) (take n polls).

Lemma wait_ready deadline n polls :
  ready deadline (S n) polls ->
  exists polls', wait_socket deadline polls = (0, polls') /\ ready deadline n polls'.
Proof.
  intros [Hl Hf]. destruct polls as [|[now out] polls]; [simpl in Hl; lia|]. simpl in *.
  apply Forall_cons_1 in Hf as [[Hn Ho] Hf]. simpl in Hn, Ho. subst out.
  destruct (Z.leb_spec (deadline - now) 0); [lia|]. exists polls. split; [done|]. split; [lia|done].
Qed.

(** A peer that takes at least one byte per call gets the whole frame. *)
Lemma sendv_loop_live deadline sends polls pending :
  Forall (fun s => exists k, s = Sent k /\ 1 <= k) sends ->
  zlen (mjoin pending) <= zlen sends -> ready deadline (length sends) polls ->
  (sendv_loop deadline sends polls pending).1 = 0.
Proof.
  intros Hs. revert polls pending. induction Hs as [|s sends (k&->&Hk) Hs IH]; intros polls pending Hl Hr;
    cbn [sendv_loop]; destruct (skip_empty_spec pending) as (Hm&He&Hne);
    destruct (skip_empty pending) as [|b rest] eqn:Ep; try done.
  - exfalso. apply Hne; [done|]. apply nil_length_inv. unfold zlen in Hl. simpl in Hl. lia.
  - destruct (wait_ready _ _ _ Hr) as (polls'&->&Hr'). change (0 <? 0) with false. cbv iota zeta.
    rewrite Hm. assert (Hpos : 0 < zlen (mjoin pending)).
    { destruct (mjoin pending) eqn:E; [by destruct Hne|]. unfold zlen. simpl. lia. }
    destruct (Z.leb_spec (Z.min k (zlen (mjoin pending))) 0); [lia|].
    set (n := Z.min k (zlen (mjoin pending))) in *.
    assert (Hadv : zlen (mjoin (advance n (b :: rest))) <= zlen sends).
    { rewrite advance_spec, Hm by (rewrite Hm; lia). unfold zlen in *. rewrite length_drop.
      simpl in Hl. lia. }
    specialize (IH polls' (advance n (b :: rest)) Hadv Hr').
    by destruct (sendv_loop _ sends polls' _).
Qed.

(** Received bytes are the start of the stream. *)
Lemma receive_loop_spec deadline evs polls left rc got :
  receive_loop deadline evs polls left = (rc, got) ->
  (rc = 0 /\ got = take left (rx_bytes evs) /\ length got = left) \/ rc = -1.
Proof.
  revert polls left rc got. induction evs as [|e evs IH]; intros polls [|n] rc got; simpl;
    try (intros [= <- <-]; auto).
  all: destruct (wait_socket deadline polls) as [w polls']; destruct (w <? 0);
    [intros [= <- <-]; auto|].
  { intros [= <- <-]; auto. }
  destruct e as [[|b bs]| |]; try (intros [= <- <-]; by auto).
  - simpl. destruct (Nat.leb_spec (length bs) n).
    + destruct (receive_loop deadline evs polls' (n - length bs)) as [rc' got'] eqn:E.
      intros [= <- <-]. destruct (IH _ _ _ _ E) as [(->&->&Hl)| ->]; [left|by right].
      split_and!; auto.
      * simpl. f_equal. rewrite take_app, (take_ge bs) by lia. done.
      * simpl. rewrite length_app. lia.
    + intros [= <- <-]. left. split_and!; auto; simpl.
      * by rewrite take_app_le by lia.
      * rewrite length_take. lia.
  - intros E. by apply (IH _ _ _ _ E).
Qed.

Lemma receive_loop_live deadline evs polls left :
  ready deadline (S (length evs)) polls -> (left <= length (rx_bytes evs))%nat ->
  (receive_loop deadline evs polls left).1 = 0.
Proof.
  revert polls left. induction evs as [|e evs IH]; intros polls [|n] Hr Hl; simpl; try done.
  { simpl in Hl. lia. }
  destruct (wait_ready _ _ _ Hr) as (polls'&->&Hr'). simpl.
  destruct e as [[|b bs]| |]; simpl in Hl; try lia.
  - simpl. destruct (Nat.leb_spec (length bs) n); [|done].
    specialize (IH polls' (n - length bs)%nat Hr'). rewrite length_app in Hl.
    destruct (receive_loop deadline evs polls' (n - length bs)) as [rc got]. simpl in *.
    apply IH. lia.
  - apply (IH polls' (S n) Hr'). lia.
Qed.

End ServerIoLive.

(** ** Properties *)

Module ServerIoProps.
Import Ring RingSpec RingFacts Proto Client ServerIo ServerIoFacts ServerIoLive Publish PublishFacts.

(** Frames go out whole or not at all from the caller's view: for every scheduling
    of partial, interrupted and failing [sendmsg] calls, [rtlsdr_stream_sendv] returns 0
    only when exactly the concatenation of the vectors is on the wire, and otherwise -1
    with a prefix of it; and when the peer keeps accepting bytes within the five-second
    deadline it does return 0. *)
Theorem sendv_complete start nb sends polls iov rc out :
  1 <= zlen iov <= 2 ->
  rtlsdr_stream_sendv start nb sends polls (Some iov) = (rc, out) ->
  ((rc = 0 /\ out = mjoin iov) \/ (rc = -1 /\ out `prefix_of` mjoin iov)) /\
  (0 <= nb -> Forall (fun s => exists k, s = Sent k /\ 1 <= k) sends ->
   zlen (mjoin iov) <= zlen sends -> ready (start + 5000) (length sends) polls -> rc = 0).
Proof.
  intros Hc. unfold rtlsdr_stream_sendv.
  destruct (Z.ltb_spec (zlen iov) 1); [lia|]. destruct (Z.ltb_spec 2 (zlen iov)); [lia|]. cbn [orb].
  destruct (Z.ltb_spec nb 0); [intros [= <- <-]; split; [right; split; [done|apply prefix_nil]|lia]|].
  intros E. split.
  - destruct (sendv_loop_spec _ _ _ _ _ _ E) as [?|(?&?&_)]; auto.
  - intros _ Hs Hl Hr. pose proof (sendv_loop_live _ _ _ _ Hs Hl Hr) as L. by rewrite E in L.
Qed.

Lemma sendv_complete_witness :
  exists out, rtlsdr_stream_sendv 100 0 [Sent 2; Sent 1; Sent 9] (replicate 3 (5000, PollReady))
                (Some [[1; 2]; [3]]) = (0, out) /\ out = [1; 2; 3].
Proof.
  exists [1; 2; 3]. split; [vm_compute; reflexivity|].
  destruct (sendv_complete 100 0 [Sent 2; Sent 1; Sent 9] (replicate 3 (5000, PollReady))
              [[1; 2]; [3]] 0 [1; 2; 3]) as [[[_ H]|[H _]] _].
  - vm_compute. split; congruence.
  - vm_compute. reflexivity.
  - exact H.
  - discriminate.
Defined.

(** The request is read exactly: [receive_request] returns 0 only with the first 29
    bytes the client sent, in whatever pieces they arrive, and does so whenever they
    arrive in time. *)
Theorem receive_request_exact start evs polls rc got :
  receive_request start evs polls = (rc, got) ->
  ((rc = 0 /\ got = take 29 (rx_bytes evs) /\ zlen got = RTLSTREAM_REQ_SIZE) \/ rc = -1) /\
  (ready (start + 5000) (S (length evs)) polls ->
   RTLSTREAM_REQ_SIZE <= zlen (rx_bytes evs) -> rc = 0).
Proof.
  unfold receive_request. intros E. split.
  - destruct (receive_loop_spec _ _ _ _ _ _ E) as [(?&?&Hl)|?]; [left|by right].
    split_and!; auto. unfold zlen. rewrite Hl. done.
  - intros Hr Hl. pose proof (receive_loop_live _ evs polls (Z.to_nat RTLSTREAM_REQ_SIZE) Hr) as L.
    rewrite E in L. apply L. unfold zlen, RTLSTREAM_REQ_SIZE in *. lia.
Qed.

Lemma receive_request_exact_witness :
  exists got, receive_request 0 [RxData (replicate 10 1); RxIntr; RxData (replicate 25 2)]
                (replicate 4 (7, PollReady)) = (0, got) /\
    got = replicate 10 1 ++ replicate 19 2.
Proof.
  exists (replicate 10 1 ++ replicate 19 2). split; [vm_compute; reflexivity|].
  destruct (receive_request_exact 0 [RxData (replicate 10 1); RxIntr; RxData (replicate 25 2)]
              (replicate 4 (7, PollReady)) 0 (replicate 10 1 ++ replicate 19 2))
    as [[(_&H&_)|H] _].
  - vm_compute. reflexivity.
  - exact H.
  - discriminate.
Defined.

(** Publishing: an even buffer is cut into non-empty chunks of at most a slot that
    concatenate to the buffer (all of an even length when the slots are), each is stored
    in order, the ring stays well formed and the result is 0; a buffer of odd length is
    refused as a whole and marks a gap. *)
Theorem publish_stores_chunks r input :
  ring_wf r ->
  (Z.even (zlen input) = true ->
   exists cs, rtlsdr_server_publish false (Some r) (Some input) (zlen input)
       = (0, Some (ring_writes r cs)) /\
     mjoin cs = input /\ Forall (fun b => 0 < zlen b <= slot_size r) cs /\
     (Z.even (slot_size r) = true -> Forall (fun b => Z.even (zlen b) = true) cs) /\
     ring_wf (ring_writes r cs)) /\
  (Z.odd (zlen input) = true ->
   rtlsdr_server_publish false (Some r) (Some input) (zlen input)
   = (-1, rtlsdr_ring_mark_gap (Some r))).
Proof.
  intros W. split; [|apply publish_odd].
  intros Hev. destruct (publish_even r input W Hev) as (cs&E&J&B&V&_). exists cs.
  split_and!; auto. by apply ring_writes_wf.
Qed.

(** A ring of two empty slots of two bytes. *)
Definition demo_ring2 : rtlsdr_ring := mk_ring [0; 0; 0; 0] [0; 0] 2 2 0 1 0.

Lemma demo_ring2_wf : ring_wf demo_ring2.
Proof.
  split; try (vm_compute; split; congruence); try (vm_compute; congruence).
  intros s Hs. assert (s = 0 \/ s = 1) as [-> | ->] by (simpl in Hs; lia); vm_compute; split; congruence.
Defined.

Lemma publish_stores_chunks_witness :
  exists cs, mjoin cs = [1; 2; 3; 4; 5; 6] /\
    rtlsdr_server_publish false (Some demo_ring2) (Some [1; 2; 3; 4; 5; 6]) 6
    = (0, Some (ring_writes demo_ring2 cs)).
Proof.
  destruct (publish_stores_chunks demo_ring2 [1; 2; 3; 4; 5; 6] demo_ring2_wf) as [H _].
  destruct (H eq_refl) as (cs&E&J&_). exists cs. split; [exact J|exact E].
Defined.

End ServerIoProps.
