(* ===== verification/ServerFft.v ===== *)
(** * Spectrum accumulation of the stream server ([rtlsdr_server_process_fft], [fft_gap] of
    [src/src/rtl_stream_server.c])

    The FFT worker collects [fft_bins] consecutive samples out of every hop of [fft_step],
    transforms them, adds up the power of [fft_accum] hops and publishes the average.  The
    code works on runs of samples; the reference below takes one sample at a time.  The
    transform itself is the back end's, here a parameter that may fail; the state behind a
    failure is the one the code leaves. *)

From S2P Require Import Prelude Float DspPlan Dsp.

Module ServerFft.

(** The fields of [struct rtlsdr_server] the computation uses; [fft_in] holds
    [2 * fft_bins] floats. *)
Record fft_state := mk_fft {
  fft_bins : Z;
  fft_step : Z;
  fft_accum : Z;
  fft_window : list flt;
  fft_in : list flt;
  fft_acc : list flt;
  fft_power : list flt;
  fft_nsamples : Z;
  fft_accum_count : Z;
  fft_seq : Z;
  fft_ready : bool;
  fft_generation : Z;
}.

Definition set_in (s : fft_state) (l : list flt) (n : Z) : fft_state :=
  mk_fft (fft_bins s) (fft_step s) (fft_accum s) (fft_window s) l (fft_acc s) (fft_power s)
    n (fft_accum_count s) (fft_seq s) (fft_ready s) (fft_generation s).

(** The state behind a call, which returned 0 or -1. *)
Inductive outcome := Done (s : fft_state) | Failed (s : fft_state).
Definition state_of (o : outcome) : fft_state := match o with Done s | Failed s => s end.
Definition failed (o : outcome) : bool := match o with Done _ => false | Failed _ => true end.
(** What follows a call whose failure is returned. *)
Definition and_then (o : outcome) (k : fft_state -> outcome) : outcome :=
  match o with Done s => k s | Failed s => Failed s end.

Section WithBackend.
(** The transform of an array in place: whether it succeeds, and the array behind it. *)
Variable fft_execute : list flt -> bool * list flt.

(** [for (j = 0; j < count; j++)]: the conversion of [count] samples from [input + pos]. *)
Fixpoint store_samples (count : nat) (l : list flt) (at_ : Z) (input : list Z) (pos : Z) : list flt :=
  match count with
  | O => l
  | S n =>
      let off := at_ * 2 in
      let l := fwr l off (f32_sub (f32_of_Z (rd input pos)) (f32_lit 255 2)) in
      let l := fwr l (off + 1) (f32_sub (f32_of_Z (rd input (pos + 1))) (f32_lit 255 2)) in
      store_samples n l (at_ + 1) input (pos + 2)
  end.

(** The window loop. *)
Definition window_step (w : list flt) (l : list flt) (i : Z) : list flt :=
  let l := fwr l (i * 2) (f32_mul (frd l (i * 2)) (frd w i)) in
  fwr l (i * 2 + 1) (f32_mul (frd l (i * 2 + 1)) (frd w i)).

(** The power loop. *)
Definition power_step (x : list flt) (acc : list flt) (i : Z) : list flt :=
  fwr acc i (f32_add (frd acc i)
    (f32_add (f32_mul (frd x (i * 2)) (frd x (i * 2)))
             (f32_mul (frd x (i * 2 + 1)) (frd x (i * 2 + 1))))).

(** The end of a hop; a transform that fails ends the call before accumulation. *)
Definition finish_hop (s : fft_state) : outcome :=
  let l := fold_left (window_step (fft_window s)) (seqZ 0 (fft_bins s)) (fft_in s) in
  let '(ok, x) := fft_execute l in
  if negb ok then Failed (set_in s x (fft_nsamples s)) else
  let acc := fold_left (power_step x) (seqZ 0 (fft_bins s)) (fft_acc s) in
  let count := fft_accum_count s + 1 in
  if fft_accum s <=? count then
    Done (mk_fft (fft_bins s) (fft_step s) (fft_accum s) (fft_window s) x
            (fold_left (fun a i => fwr a i f_zero) (seqZ 0 (fft_bins s)) acc)
            (fold_left (fun p i => fwr p i (f32_div (frd acc i) (f32_of_Z count)))
               (seqZ 0 (fft_bins s)) (fft_power s))
            0 0 (u64 (fft_seq s + 1)) true (fft_generation s))
  else
    Done (mk_fft (fft_bins s) (fft_step s) (fft_accum s) (fft_window s) x acc (fft_power s)
            0 count (fft_seq s) (fft_ready s) (fft_generation s)).

(** The [while (pos < input_len)] loop.  Every round takes at least one sample. *)
Fixpoint process_loop (fuel : nat) (s : fft_state) (input : list Z) (input_len pos : Z) : outcome :=
  match fuel with
  | O => Done s
  | S fuel' =>
      if pos <? input_len then
        let remaining := fft_step s - fft_nsamples s in
        let count := (input_len - pos) / 2 in
        let remaining := if fft_nsamples s <? fft_bins s then fft_bins s - fft_nsamples s
                         else remaining in
        let count := if remaining <? count then remaining else count in
        let l := if fft_nsamples s <? fft_bins s
                 then store_samples (Z.to_nat count) (fft_in s) (fft_nsamples s) input pos
                 else fft_in s in
        let s := set_in s l (fft_nsamples s + count) in
        if fft_nsamples s =? fft_step s then
          and_then (finish_hop s) (fun s => process_loop fuel' s input input_len (pos + count * 2))
        else process_loop fuel' s input input_len (pos + count * 2)
      else Done s
  end.

Definition rtlsdr_server_process_fft (s : fft_state) (input : option (list Z)) (input_len : Z) : outcome :=
  match input with
  | None => Failed s
  | Some inp =>
      if negb (input_len &' 1 =? 0) || (fft_bins s <? 2) || (fft_step s <? fft_bins s)
         || (fft_accum s <? 1)
      then Failed s
      else process_loop (Z.to_nat (input_len / 2)) s inp input_len 0
  end.

End WithBackend.

(** The state changes of [fft_gap]; the sockets it shuts down are part of the client
    table. *)
Definition fft_gap (s : fft_state) : fft_state :=
  mk_fft (fft_bins s) (fft_step s) (fft_accum s) (fft_window s)
    (replicate (Z.to_nat (fft_bins s * 2)) f_zero)
    (replicate (Z.to_nat (fft_bins s)) f_zero)
    (replicate (Z.to_nat (fft_bins s)) f_zero)
    0 0 (fft_seq s) false (u64 (fft_generation s + 1)).

(** ** Reference: one sample at a time *)

Section Reference.
Variable fft_execute : list flt -> bool * list flt.

Definition ref_sample (s : fft_state) (x : Z * Z) : outcome :=
  let n := fft_nsamples s in
  let l := if n <? fft_bins s
           then fwr (fwr (fft_in s) (n * 2) (f32_sub (f32_of_Z x.1) (f32_lit 255 2)))
                  (n * 2 + 1) (f32_sub (f32_of_Z x.2) (f32_lit 255 2))
           else fft_in s in
  let s := set_in s l (n + 1) in
  if n + 1 =? fft_step s then finish_hop fft_execute s else Done s.

(** It ends at the first transform that fails. *)
Fixpoint ref_run (s : fft_state) (xs : list (Z * Z)) : outcome :=
  match xs with
  | [] => Done s
  | x :: xs' => and_then (ref_sample s x) (fun s' => ref_run s' xs')
  end.
End Reference.

Record fft_wf (s : fft_state) : Prop := {
  fw_bins : 2 <= fft_bins s <= fft_step s;
  fw_accum : 1 <= fft_accum s;
  fw_nsamples : 0 <= fft_nsamples s < fft_step s;
  fw_count : 0 <= fft_accum_count s < fft_accum s;
}.

End ServerFft.

Module ServerFftFacts.
Import ServerFft.

Section Facts.
Variable fft_execute : list flt -> bool * list flt.

Lemma set_in_eta s : set_in s (fft_in s) (fft_nsamples s) = s.
Proof. by destruct s. Qed.

(** A run of samples within one phase of the hop is the run of single samples. *)
Lemma run_ref count s input pos :
  (1 <= count)%nat ->
  (fft_nsamples s < fft_bins s -> fft_nsamples s + Z.of_nat count <= fft_bins s) ->
  fft_nsamples s + Z.of_nat count <= fft_step s ->
  let n := fft_nsamples s in
  let l := if n <? fft_bins s then store_samples count (fft_in s) n input pos else fft_in s in
  let s' := set_in s l (n + Z.of_nat count) in
  ref_run fft_execute s (DspFacts.pairs input pos count)
  = if n + Z.of_nat count =? fft_step s then finish_hop fft_execute s' else Done s'.
Proof.
  revert s pos. induction count as [|count IH]; intros s pos Hc Hb Hs; [lia|]. cbv zeta.
  destruct count as [|count].
  - cbn [DspFacts.pairs ref_run]. unfold ref_sample. cbn [fst snd fft_step set_in].
    change (Z.of_nat 1) with 1. cbn [store_samples].
    destruct (_ =? _); [|done]. by destruct (finish_hop _ _).
  - change (DspFacts.pairs input pos (S (S count)))
      with ((rd input pos, rd input (pos + 1)) :: DspFacts.pairs input (pos + 2) (S count)).
    cbn [ref_run]. unfold ref_sample. cbn [fst snd fft_step set_in].
    destruct (Z.eqb_spec (fft_nsamples s + 1) (fft_step s)); [lia|].
    cbn [and_then].
    set (s1 := set_in s _ (fft_nsamples s + 1)).
    assert (E1 : fft_nsamples s1 = fft_nsamples s + 1) by done.
    assert (E2 : fft_bins s1 = fft_bins s) by done. assert (E3 : fft_step s1 = fft_step s) by done.
    pose proof (IH s1 (pos + 2)) as IH1.
    rewrite E1, E2, E3 in IH1. cbv zeta in IH1. rewrite IH1 by lia. clear IH1 IH.
    replace (fft_nsamples s + 1 + Z.of_nat (S count)) with (fft_nsamples s + Z.of_nat (S (S count))) by lia.
    assert (El : (if fft_nsamples s + 1 <? fft_bins s
                  then store_samples (S count) (fft_in s1) (fft_nsamples s + 1) input (pos + 2)
                  else fft_in s1)
                 = (if fft_nsamples s <? fft_bins s
                    then store_samples (S (S count)) (fft_in s) (fft_nsamples s) input pos
                    else fft_in s)).
    { unfold s1. cbn [fft_in set_in].
      destruct (Z.ltb_spec (fft_nsamples s) (fft_bins s)), (Z.ltb_spec (fft_nsamples s + 1) (fft_bins s));
        try lia; done. }
    rewrite El. done.
Qed.

Lemma finish_hop_wf s s' :
  fft_wf (set_in s (fft_in s) 0) -> finish_hop fft_execute s = Done s' ->
  fft_wf s' /\ fft_bins s' = fft_bins s /\ fft_step s' = fft_step s /\ fft_accum s' = fft_accum s /\
  fft_nsamples s' = 0 /\
  fft_accum_count s' = (if fft_accum s <=? fft_accum_count s + 1 then 0 else fft_accum_count s + 1) /\
  fft_seq s' = (if fft_accum s <=? fft_accum_count s + 1 then u64 (fft_seq s + 1) else fft_seq s).
Proof.
  intros []. simpl in *. unfold finish_hop. destruct (fft_execute _) as [[] x]; [|done]. simpl.
  destruct (Z.leb_spec (fft_accum s) (fft_accum_count s + 1)); intros [= <-]; simpl;
    (split_and!; auto; split; simpl; lia).
Qed.

(** The position within the published frame and its progress with one sample. *)
Definition frame_pos (s : fft_state) : Z := fft_accum_count s * fft_step s + fft_nsamples s.
Definition frame_len (s : fft_state) : Z := fft_step s * fft_accum s.

Lemma ref_sample_wf s x s' :
  fft_wf s -> ref_sample fft_execute s x = Done s' ->
  fft_wf s' /\ fft_bins s' = fft_bins s /\ fft_step s' = fft_step s /\ fft_accum s' = fft_accum s /\
  0 <= frame_pos s < frame_len s /\
  frame_pos s' = (if frame_pos s + 1 =? frame_len s then 0 else frame_pos s + 1) /\
  fft_seq s' = (if frame_pos s + 1 =? frame_len s then u64 (fft_seq s + 1) else fft_seq s).
Proof.
  intros W. unfold ref_sample. cbn [fft_step set_in].
  set (l := if _ <? _ then _ else _).
  assert (Hb : 0 <= frame_pos s < frame_len s).
  { destruct W. unfold frame_pos, frame_len. nia. }
  destruct (Z.eqb_spec (fft_nsamples s + 1) (fft_step s)) as [He|He].
  - intros E. edestruct finish_hop_wf as (W'&E1&E2&E3&E4&E5&E6); [|exact E|].
    { destruct W. split; simpl; lia. }
    simpl in *. split_and!; auto; try lia.
    + unfold frame_pos, frame_len in *. rewrite E4, E5, E2. destruct W.
      destruct (Z.leb_spec (fft_accum s) (fft_accum_count s + 1));
        destruct (Z.eqb_spec (fft_accum_count s * fft_step s + fft_nsamples s + 1)
                    (fft_step s * fft_accum s)); nia.
    + unfold frame_pos, frame_len in *. rewrite E6. destruct W.
      destruct (Z.leb_spec (fft_accum s) (fft_accum_count s + 1));
        destruct (Z.eqb_spec (fft_accum_count s * fft_step s + fft_nsamples s + 1)
                    (fft_step s * fft_accum s)); done || nia.
  - intros [= <-]. destruct W. unfold frame_pos, frame_len in *. simpl.
    split_and!; auto; try lia.
    + split; simpl; lia.
    + destruct (Z.eqb_spec (fft_accum_count s * fft_step s + fft_nsamples s + 1)
                    (fft_step s * fft_accum s)); nia.
    + destruct (Z.eqb_spec (fft_accum_count s * fft_step s + fft_nsamples s + 1)
                    (fft_step s * fft_accum s)); [nia|done].
Qed.

Lemma fft_ref_run_app s xs ys :
  ref_run fft_execute s (xs ++ ys) = and_then (ref_run fft_execute s xs) (fun s' => ref_run fft_execute s' ys).
Proof.
  revert s. induction xs as [|x xs IH]; intros s; simpl; [done|].
  destruct (ref_sample fft_execute s x); simpl; [apply IH|done].
Qed.

Lemma fft_ref_run_wf s xs s' :
  fft_wf s -> ref_run fft_execute s xs = Done s' ->
  fft_wf s' /\ fft_bins s' = fft_bins s /\ fft_step s' = fft_step s /\ fft_accum s' = fft_accum s.
Proof.
  revert s. induction xs as [|x xs IH]; intros s W; simpl; [by intros [= <-]|].
  destruct (ref_sample fft_execute s x) as [s1|s1] eqn:E; [|done]. simpl. intros E2.
  destruct (ref_sample_wf _ _ _ W E) as (W1&?&?&?&_). destruct (IH _ W1 E2) as (?&?&?&?).
  split_and!; congruence.
Qed.

(** The loop over runs is the reference over samples. *)
Lemma fft_process_loop_ref fuel s input len pos m :
  fft_wf s -> len - pos = 2 * Z.of_nat m -> (m <= fuel)%nat ->
  process_loop fft_execute fuel s input len pos
  = ref_run fft_execute s (DspFacts.pairs input pos m).
Proof.
  revert s pos m. induction fuel as [|fuel IH]; intros s pos m W Hm Hf.
  { assert (m = 0%nat) as -> by lia. done. }
  cbn [process_loop]. destruct m as [|m].
  { destruct (Z.ltb_spec pos len); [lia|done]. }
  destruct (Z.ltb_spec pos len); [|lia]. cbv zeta.
  replace ((len - pos) / 2) with (Z.of_nat (S m)) by (rewrite Hm, Z.mul_comm, Z.div_mul; lia).
  set (rem := if fft_nsamples s <? fft_bins s then fft_bins s - fft_nsamples s
              else fft_step s - fft_nsamples s).
  pose proof W as [].
  assert (Hrem : 1 <= rem /\ fft_nsamples s + rem <= fft_step s /\
    (fft_nsamples s < fft_bins s -> fft_nsamples s + rem <= fft_bins s)) by (unfold rem; ztests).
  set (cnt := if rem <? Z.of_nat (S m) then rem else Z.of_nat (S m)).
  assert (Hcnt : 1 <= cnt <= rem /\ cnt <= Z.of_nat (S m)) by (unfold cnt; ztests).
  clearbody rem cnt. set (c := Z.to_nat cnt). replace cnt with (Z.of_nat c) by lia.
  replace (S m) with (c + (S m - c))%nat by lia.
  rewrite DspFacts.pairs_app, fft_ref_run_app, run_ref by lia. cbv zeta.
  set (s1 := set_in s _ _). cbn [fft_nsamples fft_step set_in].
  change (fft_nsamples s1) with (fft_nsamples s + Z.of_nat c).
  change (fft_step s1) with (fft_step s).
  replace (pos + Z.of_nat c * 2) with (pos + 2 * Z.of_nat c) by lia.
  destruct (Z.eqb_spec (fft_nsamples s + Z.of_nat c) (fft_step s)).
  - destruct (finish_hop fft_execute s1) as [s2|s2] eqn:E2; [|done]. cbn [and_then].
    apply IH; [|lia|lia]. eapply (finish_hop_wf s1); [|exact E2]. split; simpl; lia.
  - cbn [and_then]. apply IH; [|lia|lia]. split; simpl; lia.
Qed.

Lemma process_fft_ref s input :
  fft_wf s -> Z.even (zlen input) = true ->
  rtlsdr_server_process_fft fft_execute s (Some input) (zlen input)
  = ref_run fft_execute s (DspRef.samples input).
Proof.
  intros W He. unfold rtlsdr_server_process_fft.
  rewrite (Z.land_ones _ 1), Zmod_even, He by lia. pose proof W as []. cbn [negb Z.eqb].
  destruct (Z.ltb_spec (fft_bins s) 2); [lia|]. destruct (Z.ltb_spec (fft_step s) (fft_bins s)); [lia|].
  destruct (Z.ltb_spec (fft_accum s) 1); [lia|]. cbn [orb].
  rewrite <- DspFacts.pairs_samples.
  apply Z.even_spec in He as [k Hk]. rewrite Hk, (Z.mul_comm 2 k), Z.div_mul by lia.
  apply fft_process_loop_ref; [done| |lia]. unfold zlen in Hk. lia.
Qed.

(** How many spectra a run publishes. *)
Lemma ref_run_frames s xs s' :
  fft_wf s -> is_u 64 (fft_seq s) -> ref_run fft_execute s xs = Done s' ->
  fft_seq s' = u64 (fft_seq s + (frame_pos s + zlen xs) / frame_len s) /\
  frame_pos s' = (frame_pos s + zlen xs) mod frame_len s.
Proof.
  intros W. revert s W. induction xs as [|x xs IH]; intros s W Hu; simpl.
  { intros [= <-]. unfold zlen. simpl. rewrite Z.add_0_r.
    assert (0 <= frame_pos s < frame_len s) by (destruct W; unfold frame_pos, frame_len; nia).
    rewrite Z.div_small, Z.mod_small, Z.add_0_r, u64_id by done. done. }
  destruct (ref_sample fft_execute s x) as [s1|s1] eqn:E; [|done]. simpl. intros E2.
  destruct (ref_sample_wf _ _ _ W E) as (W1&B1&B2&B3&Hb&Hp&Hs).
  assert (Hl : frame_len s1 = frame_len s) by (unfold frame_len; congruence).
  destruct (IH s1 W1) as [IH1 IH2]; auto.
  { rewrite Hs. destruct (_ =? _); auto with cint. }
  rewrite IH1, IH2, Hl, Hp, Hs.
  replace (zlen (x :: xs)) with (1 + zlen xs) by (unfold zlen; simpl; lia).
  destruct (Z.eqb_spec (frame_pos s + 1) (frame_len s)) as [He|He].
  - rewrite Z.add_0_l, Z.add_assoc, He.
    replace (frame_len s + zlen xs) with (zlen xs + 1 * frame_len s) by lia.
    rewrite Z.div_add, Z.mod_add by lia. split; [|done].
    unfold u64. rewrite Zplus_mod_idemp_l. f_equal. lia.
  - by rewrite <- Z.add_assoc.
Qed.
End Facts.
End ServerFftFacts.

(** ** Properties *)

Module ServerFftProps.
Import ServerFft ServerFftFacts.

(** The worker's calls on consecutive blocks. *)
Fixpoint fft_feed (exec : list flt -> bool * list flt) (s : fft_state) (bufs : list (list Z)) : outcome :=
  match bufs with
  | [] => Done s
  | b :: bufs => and_then (rtlsdr_server_process_fft exec s (Some b) (zlen b)) (fun s' => fft_feed exec s' bufs)
  end.

Lemma fft_feed_ref exec s bufs :
  fft_wf s -> Forall (fun b => Z.even (zlen b) = true) bufs ->
  fft_feed exec s bufs = ref_run exec s (DspRef.samples (mjoin bufs)).
Proof.
  revert s. induction bufs as [|b bufs IH]; intros s W Hall; [done|].
  apply Forall_cons_1 in Hall as [Hb Hall].
  change (mjoin (b :: bufs)) with (b ++ mjoin bufs).
  rewrite DspFacts.samples_app, fft_ref_run_app by done. cbn [fft_feed].
  rewrite process_fft_ref by done.
  destruct (ref_run exec s (DspRef.samples b)) as [s1|s1] eqn:E; [|done]. simpl.
  apply IH; [|done]. by eapply fft_ref_run_wf.
Qed.

(** Spectra do not depend on how the stream is cut into blocks: processing blocks
    with the run-wise loop is processing the concatenated stream one sample at a time
    (collect the first [fft_bins] samples of each hop, transform at its end, average
    [fft_accum] hops), also up to and behind a transform that fails, and as long as none does
    one spectrum is published per
    [fft_step * fft_accum] samples, counted across blocks. *)
Theorem fft_feed_stream exec s bufs :
  fft_wf s -> is_u 64 (fft_seq s) -> Forall (fun b => Z.even (zlen b) = true) bufs ->
  fft_feed exec s bufs = ref_run exec s (DspRef.samples (mjoin bufs)) /\
  forall s', fft_feed exec s bufs = Done s' ->
    fft_wf s' /\
    fft_seq s' = u64 (fft_seq s + (frame_pos s + zlen (mjoin bufs) / 2) / (fft_step s * fft_accum s)).
Proof.
  intros W Hu Hall. rewrite fft_feed_ref by done. split; [done|]. intros s' E. split.
  - by eapply fft_ref_run_wf.
  - rewrite (proj1 (ref_run_frames _ _ _ _ W Hu E)), DspFacts.zlen_samples. done.
Qed.

(** Two bins, a hop of three samples, averages of two hops. *)
Definition demo_fft : fft_state :=
  mk_fft 2 3 2 [f32_of_Z 1; f32_of_Z 1] (replicate 4 f_zero) (replicate 2 f_zero)
    (replicate 2 f_zero) 0 0 0 false 1.

Definition works (l : list flt) : bool * list flt := (true, l).

Lemma fft_feed_stream_witness :
  exists s', fft_feed works demo_fft [replicate 8 200; replicate 4 100] = Done s' /\ fft_seq s' = 1.
Proof.
  assert (W : fft_wf demo_fft) by (split; simpl; lia).
  destruct (fft_feed_stream works demo_fft [replicate 8 200; replicate 4 100] W) as [_ H];
    [vm_compute; split; congruence|repeat constructor|].
  destruct (fft_feed works demo_fft [replicate 8 200; replicate 4 100]) as [s'|s'] eqn:E;
    [|vm_compute in E; discriminate].
  exists s'. split; [reflexivity|]. rewrite (proj2 (H s' eq_refl)). reflexivity.
Defined.

End ServerFftProps.
