(* ===== verification/Server.v ===== *)
(** * Client handlers of the stream server ([src/src/rtl_stream_server.c])

    [Module Server]: [client_current] with the events it sends at the end of a session,
    the admission of a request in [client_handler], one round of the loops of
    [iq_client_handler] and [fft_client_handler], and the state changes of
    [rtlsdr_server_init] and [rtlsdr_server_notify_frequency_change] they depend on.

    A round takes what it meets as an argument: the flags of the server at the moments it
    looks at them, the ring at the moment it reads it, and the outcomes of its system
    calls.  [Module ServerRun] interleaves rounds with the producer.  The end-to-end
    theorem composes the ring, the filter, the wire format and the sockets. *)

From S2P Require Import Prelude Ring Proto Client Float DspPlan Dsp ServerIo ServerFft.

Module Server.
Import Ring Proto ServerIo DspPlan Dsp.

(** What [rtlsdr_stream_sendv] meets: the clock, [nonblocking]'s result, the outcomes of
    [sendmsg] and [poll]. *)
Record send_env := mk_send_env {
  se_start : Z;
  se_nb : Z;
  se_sends : list send_out;
  se_polls : list (Z * poll_out);
}.

Definition sendv (e : send_env) (iov : list (list Z)) : Z * list Z :=
  rtlsdr_stream_sendv (se_start e) (se_nb e) (se_sends e) (se_polls e) (Some iov).

(** What [client_current] reads of the server, and its two sends. *)
Record current_env := mk_current_env {
  ce_stopping : bool;
  ce_epoch : Z;
  ce_new_freq : Z;
  ce_send1 : send_env;
  ce_send2 : send_env;
}.

(** The result and the bytes sent. *)
Definition client_current (epoch : Z) (e : current_env) : bool * list Z :=
  if ce_stopping e then (false, [])
  else if ce_epoch e =? epoch then (true, [])
  else
    let '(n1, buf1) := rtlsdr_stream_encode_evt (Some (replicate 16 0)) RTLSTREAM_EVT_FREQ_CHANGE
                         (ce_new_freq e) in
    let '(rc, out1) := sendv (ce_send1 e) [take (Z.to_nat n1) (default [] buf1)] in
    if rc =? 0 then
      let '(n2, buf2) := rtlsdr_stream_encode_evt buf1 RTLSTREAM_EVT_STREAM_END 0 in
      let '(_, out2) := sendv (ce_send2 e) [take (Z.to_nat n2) (default [] buf2)] in
      (false, out1 ++ out2)
    else (false, out1).

(** *** I/Q clients *)

(** The fields of [struct rtlsdr_client] a running I/Q session uses. *)
Record iq_client := mk_iq_client {
  cl_freq : Z;
  cl_rate : Z;
  cl_epoch : Z;
}.

(** The handler's variables: cursor, filter, [seq], and what it has put on the wire;
    [iq_running] is false once the loop has been left. *)
Record iq_state := mk_iq {
  iq_cursor : rtlsdr_ring_cursor;
  iq_dsp : rtlsdr_dsp;
  iq_seq : Z;
  iq_sent : list Z;
  iq_running : bool;
}.

(** What one round meets. *)
Record iq_env := mk_iq_env {
  ie_current1 : current_env;
  ie_socket_closed : bool;
  ie_current2 : current_env;
  ie_send : send_env;
  ie_old_input : list Z;    (* contents of the three buffers before the round *)
  ie_old_output : list Z;
  ie_old_wire : list Z;
  ie_old_hdr : list Z;
}.

Section WithLibm.
Context `{Libm}.

(** One round of the [while (client_current(cl))] loop. *)
Definition iq_round (cl : iq_client) (ring : rtlsdr_ring) (e : iq_env) (s : iq_state) : iq_state :=
  let capacity := slot_size ring in
  let stop s' w := mk_iq (iq_cursor s') (iq_dsp s') (iq_seq s') (iq_sent s' ++ w) false in
  let '(cur1, w1) := client_current (cl_epoch cl) (ie_current1 e) in
  if negb cur1 then stop s w1
  else
    match rtlsdr_ring_read_copy (Some ring) (Some (iq_cursor s)) (Some (ie_old_input e)) capacity (Some 0) with
    | (result, Some cursor, Some input, Some len) =>
        let s := mk_iq cursor (iq_dsp s) (iq_seq s) (iq_sent s) true in
        if result =? RTL_RING_EMPTY then
          if ie_socket_closed e then stop s [] else s
        else if negb (result =? RTL_RING_DATA) || negb (len &' 1 =? 0) then stop s []
        else
          match rtlsdr_dsp_process (Some (iq_dsp s)) (Some input) len (Some (ie_old_output e))
                  capacity (Some 0) with
          | (rc, Some dsp, Some output, Some out_len) =>
              let s := mk_iq cursor dsp (iq_seq s) (iq_sent s) true in
              if rc <? 0 then stop s []
              else if out_len =? 0 then s
              else
                let hdr := mk_hdr RTLSTREAM_MAGIC_IQ (cl_freq cl) (cl_rate cl) (iq_seq s) (u32 out_len) in
                let s := mk_iq cursor dsp (u64 (iq_seq s + 1)) (iq_sent s) true in
                let '(cur2, w2) := client_current (cl_epoch cl) (ie_current2 e) in
                if negb cur2 then stop s w2
                else
                  let '(r1, hbuf) := rtlsdr_stream_encode_iq_hdr (Some (ie_old_hdr e)) (Some hdr) in
                  if r1 <? 0 then stop s []
                  else
                    let '(r2, wbuf) := rtlsdr_stream_encode_iq_payload (Some (ie_old_wire e))
                                         (capacity * 2) (Some output) out_len in
                    if r2 <? 0 then stop s []
                    else
                      let '(r3, w3) := sendv (ie_send e)
                        [take 32 (default [] hbuf); take (Z.to_nat (out_len * 2)) (default [] wbuf)] in
                      if r3 <? 0 then stop s w3
                      else mk_iq cursor dsp (iq_seq s) (iq_sent s ++ w3) true
          | _ => stop s []
          end
    | _ => stop s []
    end.

End WithLibm.

(** *** FFT clients *)

Record fft_client := mk_fft_client {
  fc_epoch : Z;
  fc_generation : Z;
}.

Record fft_cl_state := mk_fft_cl {
  fs_last_seq : Z;
  fs_sent : list Z;
  fs_running : bool;
}.

Record fft_env := mk_fft_env {
  fe_current1 : current_env;
  fe_socket_closed : bool;
  fe_current2 : current_env;
  fe_send : send_env;
  fe_old_snapshot : list Z;
  fe_old_wire : list Z;
  fe_old_hdr : list Z;
}.

(** The server's spectrum under [fft_mutex]; [power] is given as IEEE-754 bit patterns,
    the form in which [memcpy] moves it. *)
Record fft_view := mk_fft_view {
  fv_generation : Z;
  fv_ready : bool;
  fv_seq : Z;
  fv_power : list Z;
  fv_bins : Z;
  fv_capture_freq : Z;
  fv_capture_rate : Z;
}.

Definition fft_round (cl : fft_client) (v : fft_view) (e : fft_env) (s : fft_cl_state)
    : fft_cl_state :=
  let bytes := fv_bins v * 4 in
  let stop w := mk_fft_cl (fs_last_seq s) (fs_sent s ++ w) false in
  let '(cur1, w1) := client_current (fc_epoch cl) (fe_current1 e) in
  if negb cur1 then stop w1
  else
    let gap := negb (fc_generation cl =? fv_generation v) in
    let ready := fv_ready v && negb (fv_seq v =? fs_last_seq s) in
    let seq := fv_seq v in
    let snapshot := if negb gap && ready then take (Z.to_nat (fv_bins v)) (fv_power v)
                    else fe_old_snapshot e in
    if gap then stop []
    else if negb ready then (if fe_socket_closed e then stop [] else s)
    else
      let hdr := mk_hdr RTLSTREAM_MAGIC_FFT (fv_capture_freq v) (fv_capture_rate v) seq
                   (u32 (fv_bins v)) in
      let '(cur2, w2) := client_current (fc_epoch cl) (fe_current2 e) in
      if negb cur2 then stop w2
      else
        let '(r1, hbuf) := rtlsdr_stream_encode_fft_hdr (Some (fe_old_hdr e)) (Some hdr) in
        if r1 <? 0 then stop []
        else
          let '(r2, wbuf) := rtlsdr_stream_encode_fft_payload (Some (fe_old_wire e)) bytes
                               (Some snapshot) (fv_bins v) in
          if r2 <? 0 then stop []
          else
            let '(r3, w3) := sendv (fe_send e)
                 [take 32 (default [] hbuf); take (Z.to_nat bytes) (default [] wbuf)] in
            if r3 <? 0 then stop w3
            else mk_fft_cl seq (fs_sent s ++ w3) true.

(** *** Admission *)

(** The outcome of [client_handler] before the session starts: a logged reason, a silent
    end, or the session's parameters. *)
Inductive admission :=
| Rejected (reason : string)
| Ended (sent : list Z)
| AdmitFft
| AdmitIq (freq rate bandwidth : Z) (dsp : rtlsdr_dsp) (cursor : rtlsdr_ring_cursor).

(** [request] is the outcome of [receive_request]; [fft_plan] whether there is a plan. *)
Definition client_handler_admit `{Libm} (request : Z * list Z) (mode epoch : Z) (e : current_env)
    (fft_plan : bool) (capture_freq capture_rate : Z) (ring : rtlsdr_ring)
    (once_ok alloc_ok : bool) (allocs : nat -> bool) : admission :=
  let '(rc, buf) := request in
  if rc <? 0 then Rejected "incomplete request or request deadline"
  else
    match rtlsdr_stream_decode_req (Some (mk_req 0 0 0 0 0)) (Some buf) with
    | (d, Some req) =>
        if (d <? 0) || negb (req_magic req =? RTLSTREAM_MAGIC_REQ)
        then Rejected "invalid protocol request"
        else if negb (req_mode req =? mode) then Rejected "request mode does not match listener"
        else
          let '(cur, w) := client_current epoch e in
          if negb cur then Ended w
          else if mode =? RTLSTREAM_MODE_FFT then
            if negb (req_freq req =? 0) || negb (req_rate req =? 0)
               || negb (req_bandwidth req =? 0) || negb fft_plan
            then Rejected "FFT request fields must be zero"
            else AdmitFft
          else if (UINT32_MAX <? req_freq req) || (UINT32_MAX <? capture_freq)
          then Rejected "frequency outside hardware range"
          else
            let offset := s64 (s64 (req_freq req) - s64 capture_freq) in
            match rtlsdr_dsp_validate capture_rate (req_rate req) (req_bandwidth req) offset (Some 0) with
            | (v, Some bandwidth) =>
                if v <? 0 then Rejected "invalid rate, bandwidth or channel placement"
                else
                  match rtlsdr_dsp_create once_ok alloc_ok allocs capture_rate (req_rate req)
                          bandwidth offset,
                        rtlsdr_ring_cursor_now (Some ring) (Some (mk_cursor 0 0)) with
                  | Some dsp, (0, Some cursor) =>
                      AdmitIq (req_freq req) (req_rate req) bandwidth dsp cursor
                  | _, _ => Rejected "DSP initialization failed"
                  end
            | _ => Rejected "invalid rate, bandwidth or channel placement"
            end
    | _ => Rejected "invalid protocol request"
    end.

End Server.

(** ** The producer and one I/Q client *)

Module ServerRun.
Import Ring RingFacts Proto Wire Server Dsp Publish.

Inductive srv_event :=
| EvPublish (stopping : bool) (buf : list Z)
| EvMarkGap
| EvRound (e : iq_env).

(** The ring, the client, and the bytes accepted by [rtlsdr_server_publish]. *)
Record srv_run := mk_run {
  run_ring : rtlsdr_ring;
  run_client : iq_state;
  run_published : list Z;
}.

Definition run_step `{Libm} (cl : iq_client) (r : srv_run) (ev : srv_event) : srv_run :=
  match ev with
  | EvPublish stopping buf =>
      let '(rc, ring) := rtlsdr_server_publish stopping (Some (run_ring r)) (Some buf) (zlen buf) in
      mk_run (default (run_ring r) ring) (run_client r)
        (run_published r ++ (if rc =? 0 then buf else []))
  | EvMarkGap =>
      mk_run (default (run_ring r) (rtlsdr_ring_mark_gap (Some (run_ring r)))) (run_client r)
        (run_published r)
  | EvRound e =>
      mk_run (run_ring r)
        (if iq_running (run_client r) then iq_round cl (run_ring r) e (run_client r)
         else run_client r)
        (run_published r)
  end.

(** A frame as the format has it. *)
Definition iq_frame (cl : iq_client) (k : nat) (xs : list Z) : list Z :=
  hdr_wire (mk_hdr RTLSTREAM_MAGIC_IQ (cl_freq cl) (cl_rate cl) (u64 (Z.of_nat k)) (zlen xs))
  ++ iq_wire xs.

End ServerRun.

Module ServerFacts.
Import Ring RingSpec RingFacts Proto Wire ProtoFacts ServerIo ServerIoFacts DspPlan Dsp DspRef DspFacts
  Publish PublishFacts Server ServerRun.

Lemma mjoin_1 {A} (a : list A) : mjoin [a] = a.
Proof. apply app_nil_r. Qed.
Lemma mjoin_2 {A} (a b : list A) : mjoin [a; b] = a ++ b.
Proof. change (a ++ (b ++ []) = a ++ b). by rewrite app_nil_r. Qed.

(** The two events that end a session. *)
Definition end_events (freq : Z) : list Z :=
  evt_wire RTLSTREAM_EVT_FREQ_CHANGE freq ++ evt_wire RTLSTREAM_EVT_STREAM_END 0.

Lemma sendv_spec e iov rc out :
  sendv e iov = (rc, out) -> 1 <= zlen iov <= 2 ->
  (rc = 0 /\ out = mjoin iov) \/ (rc = -1 /\ out `prefix_of` mjoin iov).
Proof.
  intros E Hc. revert E. unfold sendv, rtlsdr_stream_sendv.
  destruct (Z.ltb_spec (zlen iov) 1); [lia|]. destruct (Z.ltb_spec 2 (zlen iov)); [lia|]. cbn [orb].
  destruct (Z.ltb_spec (se_nb e) 0).
  { intros [= <- <-]. right. split; [done|apply prefix_nil]. }
  intros E. destruct (sendv_loop_spec _ _ _ _ _ _ E) as [?|(?&?&_)]; auto.
Qed.

Lemma client_current_spec epoch e cur w :
  client_current epoch e = (cur, w) ->
  (cur = true /\ w = [] /\ ce_epoch e = epoch /\ ce_stopping e = false) \/
  (cur = false /\ w `prefix_of` end_events (ce_new_freq e)).
Proof.
  unfold client_current. destruct (ce_stopping e); [intros [= <- <-]; right; split; auto; apply prefix_nil|].
  destruct (Z.eqb_spec (ce_epoch e) epoch); [intros [= <- <-]; auto|].
  assert (E1 : rtlsdr_stream_encode_evt (Some (replicate 16 0)) RTLSTREAM_EVT_FREQ_CHANGE (ce_new_freq e)
    = (16, Some (evt_wire RTLSTREAM_EVT_FREQ_CHANGE (ce_new_freq e)))) by done.
  rewrite E1. set (b1 := evt_wire RTLSTREAM_EVT_FREQ_CHANGE (ce_new_freq e)) in *.
  assert (E2 : rtlsdr_stream_encode_evt (Some b1) RTLSTREAM_EVT_STREAM_END 0
    = (8, Some (evt_wire RTLSTREAM_EVT_STREAM_END 0 ++ drop 8 b1))) by done.
  rewrite E2. cbn [default from_option id]. change (Z.to_nat 16) with 16%nat. change (Z.to_nat 8) with 8%nat.
  rewrite (take_ge b1 16) by done.
  change (take 8 (evt_wire RTLSTREAM_EVT_STREAM_END 0 ++ drop 8 b1)) with (evt_wire RTLSTREAM_EVT_STREAM_END 0).
  unfold end_events. fold b1. set (b2 := evt_wire RTLSTREAM_EVT_STREAM_END 0) in *.
  clear E1 E2. clearbody b1 b2.
  destruct (sendv (ce_send1 e) [b1]) as [rc out1] eqn:S1.
  apply sendv_spec in S1; [|unfold zlen; simpl; lia]; destruct S1 as [[-> ->]|[-> Hp]].
  - cbn [Z.eqb]. destruct (sendv (ce_send2 e) _) as [rc2 out2] eqn:S2.
    rewrite mjoin_1. intros [= <- <-]. right. split; [done|]. apply prefix_app.
    apply sendv_spec in S2; [|unfold zlen; simpl; lia]; destruct S2 as [[_ ->]|[_ Hp]].
    + by rewrite mjoin_1.
    + by rewrite mjoin_1 in Hp.
  - cbn [Z.eqb]. intros [= <- <-]. right. split; [done|]. rewrite mjoin_1 in Hp. by apply prefix_app_r.
Qed.

(** The buffers [iq_client_handler] allocates. *)
Record iq_env_ok (capacity : Z) (e : iq_env) : Prop := {
  eo_input : zlen (ie_old_input e) = capacity;
  eo_output : zlen (ie_old_output e) = capacity;
  eo_wire : zlen (ie_old_wire e) = capacity * 2;
  eo_hdr : zlen (ie_old_hdr e) = 32;
}.

(** What the bytes of a round can be when it ends the session. *)
Definition last_bytes (frame w : list Z) : Prop :=
  w `prefix_of` frame \/ exists freq, w `prefix_of` end_events freq.

Lemma zlen_hdr_wire h : zlen (hdr_wire h) = 32.
Proof. done. Qed.

Section Round.
Context `{Libm}.
Variables (cl : iq_client) (ring : rtlsdr_ring) (e : iq_env) (s : iq_state).
Hypothesis W : ring_wf ring.
Hypothesis Hev : Z.even (slot_size ring) = true.
Hypothesis Hmax : slot_size ring <= RTLSTREAM_MAX_IQ_COMPONENTS.
Hypothesis Hd : dsp_wf (iq_dsp s).
Hypothesis He : iq_env_ok (slot_size ring) e.

(** A round of a running session: it waits, or it ends the session, or it takes the next
    block of the ring through the filter and, when samples come out, sends one frame. *)
Inductive round_result (s' : iq_state) : Prop :=
| RoundWait :
    log_read (ring_log ring) (cur_generation (iq_cursor s)) (cur_next_seq (iq_cursor s)) = Empty ->
    iq_cursor s' = iq_cursor s -> iq_dsp s' = iq_dsp s -> iq_seq s' = iq_seq s ->
    iq_sent s' = iq_sent s -> iq_running s' = true -> round_result s'
| RoundEnd w freq :
    (client_current (cl_epoch cl) (ie_current1 e)).1 = false \/
    match log_read (ring_log ring) (cur_generation (iq_cursor s)) (cur_next_seq (iq_cursor s)) with
    | Data b => slot_size ring < zlen b
    | Empty => ie_socket_closed e = true
    | _ => True
    end ->
    iq_running s' = false -> iq_sent s' = iq_sent s ++ w -> w `prefix_of` end_events freq ->
    round_result s'
| RoundOdd b :
    log_read (ring_log ring) (cur_generation (iq_cursor s)) (cur_next_seq (iq_cursor s)) = Data b ->
    Z.even (zlen b) = false -> iq_running s' = false -> iq_sent s' = iq_sent s -> round_result s'
| RoundData b o :
    log_read (ring_log ring) (cur_generation (iq_cursor s)) (cur_next_seq (iq_cursor s)) = Data b ->
    zlen b <= slot_size ring -> Z.even (zlen b) = true ->
    ref_run (iq_dsp s) (samples b) = (iq_dsp s', o) ->
    iq_cursor s' = mk_cursor (cur_next_seq (iq_cursor s) + 1) (cur_generation (iq_cursor s)) ->
    iq_running s' = true ->
    (o = [] /\ iq_seq s' = iq_seq s /\ iq_sent s' = iq_sent s \/
     o <> [] /\ iq_seq s' = u64 (iq_seq s + 1) /\
       iq_sent s' = iq_sent s ++
         hdr_wire (mk_hdr RTLSTREAM_MAGIC_IQ (cl_freq cl) (cl_rate cl) (iq_seq s) (zlen o)) ++ iq_wire o) ->
    round_result s'
| RoundCut b o w d' :
    (client_current (cl_epoch cl) (ie_current2 e)).1 = false \/
    (exists iov, (sendv (ie_send e) iov).1 = -1 /\ 1 <= zlen iov <= 2 /\
       zlen (mjoin iov) <= 32 + 2 * slot_size ring) ->
    log_read (ring_log ring) (cur_generation (iq_cursor s)) (cur_next_seq (iq_cursor s)) = Data b ->
    zlen b <= slot_size ring -> Z.even (zlen b) = true ->
    ref_run (iq_dsp s) (samples b) = (d', o) ->
    iq_running s' = false -> o <> [] -> iq_sent s' = iq_sent s ++ w ->
    last_bytes (hdr_wire (mk_hdr RTLSTREAM_MAGIC_IQ (cl_freq cl) (cl_rate cl) (iq_seq s) (zlen o))
                ++ iq_wire o) w ->
    round_result s'.

(** The part of a round behind the filter. *)
Lemma out_even_of b d' o :
  Z.even (zlen b) = true -> ref_run (iq_dsp s) (samples b) = (d', o) ->
  zlen o <= zlen b /\ Z.even (zlen o) = true.
Proof.
  intros Hb E. pose proof (ref_run_fits _ _ _ _ Hd E) as Hf. rewrite zlen_samples in Hf.
  destruct (ref_run_count _ _ _ _ Hd E) as (_&_&_&->). split; [|apply Z.even_mul].
  destruct (ref_run_count _ _ _ _ Hd E) as (_&_&_&Hc). rewrite <- Hc.
  pose proof (Z.mul_div_le (zlen b) 2). lia.
Qed.

Lemma encode_frame o seq :
  0 < zlen o <= slot_size ring -> Z.even (zlen o) = true ->
  let hdr := mk_hdr RTLSTREAM_MAGIC_IQ (cl_freq cl) (cl_rate cl) seq (u32 (zlen o)) in
  forall output, zlen output = slot_size ring -> take (length o) output = o ->
  exists hbuf wbuf,
    rtlsdr_stream_encode_iq_hdr (Some (ie_old_hdr e)) (Some hdr) = (32, Some hbuf) /\
    rtlsdr_stream_encode_iq_payload (Some (ie_old_wire e)) (slot_size ring * 2) (Some output) (zlen o)
      = (0, Some wbuf) /\
    take 32 hbuf = hdr_wire (mk_hdr RTLSTREAM_MAGIC_IQ (cl_freq cl) (cl_rate cl) seq (zlen o)) /\
    take (Z.to_nat (zlen o * 2)) wbuf = iq_wire o.
Proof.
  intros Ho Hoe hdr output Hout Htk. subst hdr. unfold RTLSTREAM_MAX_IQ_COMPONENTS in *.
  rewrite u32_id by clia.
  unfold rtlsdr_stream_encode_iq_hdr, rtlsdr_stream_encode_iq_payload. cbn [hdr_magic hdr_count].
  rewrite !bool_decide_false by done. rewrite (Z.land_ones _ 1), Zmod_even, Hoe by lia.
  unfold RTLSTREAM_MAX_IQ_COMPONENTS. destruct (Z.ltb_spec 262144 (zlen o)); [lia|].
  destruct (Z.ltb_spec (slot_size ring * 2) (zlen o * 2)); [lia|]. cbn [negb orb andb Z.eqb].
  cbn [negb orb]. eexists _, _. split; [done|]. split; [done|].
  destruct He as [_ _ Hw Hh]. cbn [fmap option_fmap option_map default from_option id]. split.
  - rewrite put_hdr_blit, blit_0 by (rewrite Hh; done). apply take_app_length'. done.
  - rewrite iq_loop_blit by lia.
    replace (take (Z.to_nat (zlen o)) output) with o by (unfold zlen; by rewrite Nat2Z.id).
    rewrite blit_0 by (rewrite zlen_iq_wire; lia).
    apply take_app_length'. pose proof (zlen_iq_wire o) as Hz. unfold zlen in *. lia.
Qed.

Lemma round_spec : iq_running s = true -> round_result (iq_round cl ring e s).
Proof.
  intros Hr. unfold iq_round.
  destruct (client_current _ (ie_current1 e)) as [cur1 w1] eqn:C1.
  destruct (client_current_spec _ _ _ _ C1) as [(->&->&_&_)|[-> Hp]].
  2: { cbn [negb]. eapply RoundEnd; eauto. left. by rewrite C1. }
  cbn [negb]. unfold rtlsdr_ring_read_copy. rewrite pull_log by done.
  destruct (log_read _ _ _) as [| |b|] eqn:El; unfold pull_of;
    cbn [rr_result rr_cursor rr_dst rr_len Z.eqb RTL_RING_GAP RTL_RING_EMPTY RTL_RING_DATA RTL_RING_ERROR negb orb].
  { eapply (RoundEnd _ [] 0); [right; by rewrite El|done| |apply prefix_nil]. by cbn. }
  { destruct (ie_socket_closed e) eqn:Ec; [|by eapply RoundWait].
    eapply (RoundEnd _ [] 0); [right; by rewrite El|done| |apply prefix_nil]. by cbn. }
  2: { eapply (RoundEnd _ [] 0); [right; by rewrite El|done| |apply prefix_nil]. by cbn. }
  destruct (Z.leb_spec (zlen b) (slot_size ring)) as [Hb|Hb];
    cbn [rr_result rr_cursor rr_dst rr_len Z.eqb RTL_RING_GAP RTL_RING_EMPTY RTL_RING_DATA RTL_RING_ERROR negb orb].
  2: { eapply (RoundEnd _ [] 0); [right; by rewrite El|done| |apply prefix_nil]. by cbn. }
  rewrite (Z.land_ones _ 1), Zmod_even by lia. destruct (Z.even (zlen b)) eqn:Eb; cbn [Z.eqb negb].
  2: { eapply RoundOdd; [done|done|done|]. cbn. by rewrite app_nil_r. }
  unfold rtlsdr_dsp_process. rewrite (Z.land_ones _ 1), Zmod_even, Eb by lia. cbn [Z.eqb negb orb].
  destruct (Z.ltb_spec (slot_size ring) (zlen b)); [lia|].
  pose proof (eo_input _ _ He) as Hin. rewrite blit_0 by lia.
  cbn [iq_dsp iq_cursor iq_seq iq_sent].
  rewrite call_process_fn_prefix; [|done|done|rewrite zlen_app; unfold zlen; lia].
  rewrite take_app_length' by (unfold zlen; lia).
  destruct (ref_run (iq_dsp s) (samples b)) as [d' o] eqn:Er.
  destruct (out_even_of b d' o Eb Er) as [Hob Hoe]. cbn [Z.ltb Z.compare].
  destruct (Z.eqb_spec (zlen o) 0) as [Ho|Ho].
  { apply nil_length_inv_zlen in Ho as ->. eapply RoundData; eauto. }
  assert (Hone : o <> []) by (intros ->; by apply Ho).
  assert (Hpos : 0 < zlen o <= slot_size ring) by (unfold zlen in *; lia).
  destruct (client_current _ (ie_current2 e)) as [cur2 w2] eqn:C2.
  destruct (client_current_spec _ _ _ _ C2) as [(->&->&_&_)|[-> Hp]].
  2: { cbn [negb]. eapply RoundCut; eauto; [left; by rewrite C2|done..|]. right. eauto. }
  cbn [negb iq_seq]. pose proof (eo_output _ _ He) as Hout.
  destruct (encode_frame o (iq_seq s) Hpos Hoe (blit (ie_old_output e) 0 o)) as (hb&wb&E1&E2&T1&T2).
  { by rewrite zlen_blit. }
  { rewrite blit_0 by lia. by apply take_app_length. }
  rewrite E1, E2. cbn [Z.ltb Z.compare default from_option id]. rewrite T1, T2.
  destruct (sendv _ _) as [r3 w3] eqn:S3. pose proof S3 as S3'.
  apply sendv_spec in S3; [|unfold zlen; simpl; lia]; destruct S3 as [[-> ->]|[-> Hp]]; try rewrite mjoin_2 in Hp; try rewrite mjoin_2; cbn [Z.ltb Z.compare].
  - eapply RoundData; eauto.
  - eapply RoundCut; eauto; try done; [|by left]. right. eexists. rewrite S3'. split; [done|].
    split; [unfold zlen; simpl; lia|]. rewrite mjoin_2, zlen_app, zlen_iq_wire.
    change (zlen (hdr_wire _)) with 32. lia.
Qed.

End Round.
End ServerFacts.

Module ServerRunFacts.
Import Ring RingSpec RingFacts Proto Wire ProtoFacts DspPlan Dsp DspRef DspFacts
  Publish PublishFacts Server ServerRun ServerFacts.

(** The producer's chunks in a reader's session. *)
Lemma session_writes_chunks s cs :
  ring_wf (ses_ring s) -> Forall (fun b => 0 < zlen b <= slot_size (ses_ring s)) cs ->
  fold_left session_step (CallWrite <$> cs) s
  = mk_session (ring_writes (ses_ring s) cs) (ses_cursor s) (ses_written s ++ cs) (ses_read s)
      (ses_results s).
Proof.
  revert s. induction cs as [|b cs IH]; intros s W Hf; cbn [fmap list_fmap fold_left].
  { rewrite app_nil_r. by destruct s. }
  apply Forall_cons_1 in Hf as [Hb Hf].
  assert (Hs : session_step s (CallWrite b)
    = mk_session (default (ses_ring s) (rtlsdr_ring_write_copy (Some (ses_ring s)) (Some b) (zlen b)).2)
        (ses_cursor s) (ses_written s ++ [b]) (ses_read s) (ses_results s)).
  { unfold session_step. destruct (write_copy_cases (ses_ring s) b W) as [[_ ?]|[[_ ->]|(r'&->&_)]].
    - lia.
    - unfold zlen in Hb. simpl in Hb. lia.
    - destruct (Z.eqb_spec (zlen b) 0); [lia|]. done. }
  rewrite Hs, IH; cbn [ses_ring ses_cursor ses_written ses_read ses_results].
  - by rewrite <- app_assoc.
  - by apply write_keeps_wf.
  - by rewrite write_slot_size.
Qed.

Lemma session_inv_calls r0 n k s cs :
  session_inv r0 n k s -> is_u 64 (generation r0) -> n + zlen cs < 2 ^ 64 ->
  exists k', session_inv r0 (n + zlen cs) k' (fold_left session_step cs s).
Proof.
  intros I Hg. revert n k s I. induction cs as [|c cs IH]; intros n k s I Hn; unfold zlen in *; simpl in *.
  { exists k. by rewrite Z.add_0_r. }
  destruct (session_inv_step r0 n k s c I Hg ltac:(lia)) as (k'&_&I').
  destruct (IH _ _ _ I' ltac:(lia)) as (k''&I''). exists k''.
  by replace (n + Z.of_nat (S (length cs))) with (n + 1 + Z.of_nat (length cs)) by lia.
Qed.

(** A read of the session by the log's answer. *)
Lemma session_read_data s capacity b :
  ring_wf (ses_ring s) ->
  log_read (ring_log (ses_ring s)) (cur_generation (ses_cursor s)) (cur_next_seq (ses_cursor s)) = Data b ->
  zlen b <= capacity ->
  session_step s (CallRead capacity)
  = mk_session (ses_ring s) (mk_cursor (cur_next_seq (ses_cursor s) + 1) (cur_generation (ses_cursor s)))
      (ses_written s) (ses_read s ++ [b]) (ses_results s ++ [RTL_RING_DATA]).
Proof.
  intros W E Hb. unfold session_step. rewrite pull_log, E by done. unfold pull_of.
  destruct (Z.leb_spec (zlen b) capacity); [|lia]. cbn [rr_result rr_cursor rr_dst rr_len].
  by rewrite take_blit_full by done.
Qed.

Lemma chunk_count (cs : list (list Z)) n : Forall (fun b => 0 < zlen b <= n) cs -> zlen cs <= zlen (mjoin cs).
Proof.
  induction 1 as [|b cs Hb _ IH]; [done|].
  change (mjoin (b :: cs)) with (b ++ mjoin cs). rewrite zlen_app. unfold zlen in *. simpl. lia.
Qed.

Lemma mjoin_prefix {A} (l k : list (list A)) : l `prefix_of` k -> mjoin l `prefix_of` mjoin k.
Proof. intros [m ->]. rewrite join_app. by apply prefix_app_r. Qed.

Lemma mjoin_snoc {A} (l : list (list A)) x : mjoin (l ++ [x]) = mjoin l ++ x.
Proof. rewrite join_app. f_equal. apply app_nil_r. Qed.

Lemma even_mjoin (bs : list (list Z)) :
  Forall (fun b => Z.even (zlen b) = true) bs -> Z.even (zlen (mjoin bs)) = true.
Proof.
  induction 1 as [|b bs Hb _ IH]; [done|].
  change (mjoin (b :: bs)) with (b ++ mjoin bs). by rewrite zlen_app, Z.even_add, Hb, IH.
Qed.

Section Run.
Context `{Libm}.
Variables (cl : iq_client) (d0 : rtlsdr_dsp) (r0 : rtlsdr_ring).

(** The samples the reference makes of captured bytes. *)
Definition channel (p : list Z) : list Z := (ref_run d0 (samples p)).2.

(** The frames of a session. *)
Definition frames (fs : list (list Z)) : list Z := mjoin (imap (iq_frame cl) fs).

Lemma frames_snoc fs x : frames (fs ++ [x]) = frames fs ++ iq_frame cl (length fs) x.
Proof. unfold frames. rewrite imap_app. simpl. rewrite mjoin_snoc, Nat.add_0_r. done. Qed.

(** What an ended session has put on the wire: whole frames, then a part of the next one
    or of the closing events. *)
Definition ended (published sent : list Z) : Prop :=
  exists p fs x tail, p `prefix_of` published /\ mjoin fs ++ x `prefix_of` channel p /\
    sent = frames fs ++ tail /\ last_bytes (iq_frame cl (length fs) x) tail.

(** The invariant of a running session after at most [n] steps. *)
Record running_inv (n : Z) (r : srv_run) (ses : session) (k : Z) (fs : list (list Z)) : Prop := {
  ri_session : exists m, 0 <= m <= n /\ session_inv r0 m k ses;
  ri_ring : ses_ring ses = run_ring r;
  ri_cursor : ses_cursor ses = iq_cursor (run_client r);
  ri_published : mjoin (ses_written ses) = run_published r;
  ri_even : Forall (fun b => Z.even (zlen b) = true) (ses_written ses);
  ri_fit : Forall (fun b => zlen b <= slot_size r0) (ses_written ses);
  ri_size : slot_size (run_ring r) = slot_size r0;
  ri_dsp : iq_dsp (run_client r) = (ref_run d0 (samples (mjoin (ses_read ses)))).1;
  ri_frames : mjoin fs = channel (mjoin (ses_read ses));
  ri_nonempty : Forall (fun x => x <> []) fs;
  ri_seq : iq_seq (run_client r) = u64 (Z.of_nat (length fs));
  ri_sent : iq_sent (run_client r) = frames fs;
  ri_running : iq_running (run_client r) = true;
}.

Definition run_inv (n : Z) (r : srv_run) : Prop :=
  (exists ses k fs, running_inv n r ses k fs) \/
  (iq_running (run_client r) = false /\ ended (run_published r) (iq_sent (run_client r))).

Hypothesis W0 : ring_wf r0.
Hypothesis Hev : Z.even (slot_size r0) = true.
Hypothesis Hmax : slot_size r0 <= RTLSTREAM_MAX_IQ_COMPONENTS.
Hypothesis Hd0 : dsp_wf d0.

Lemma ended_mono a b sent : a `prefix_of` b -> ended a sent -> ended b sent.
Proof. intros Hab (p&fs&x&tail&Hp&?). exists p, fs, x, tail. split; [by etransitivity|done]. Qed.

Lemma channel_snoc (p b : list Z) d o :
  Z.even (zlen p) = true -> ref_run (ref_run d0 (samples p)).1 (samples b) = (d, o) ->
  (ref_run d0 (samples (p ++ b))).1 = d /\ channel (p ++ b) = channel p ++ o.
Proof.
  intros Hp E. unfold channel. rewrite samples_app, ref_run_app by done.
  destruct (ref_run d0 (samples p)) as [d1 o1]. simpl in *. by rewrite E.
Qed.

Lemma running_publish n r ses k fs cs k' m' n' :
  running_inv n r ses k fs ->
  Forall (fun b => 0 < zlen b <= slot_size (run_ring r)) cs ->
  Forall (fun b => Z.even (zlen b) = true) cs ->
  let ses' := mk_session (ring_writes (ses_ring ses) cs) (ses_cursor ses) (ses_written ses ++ cs)
                (ses_read ses) (ses_results ses) in
  session_inv r0 m' k' ses' -> 0 <= m' <= n' ->
  running_inv n' (mk_run (ring_writes (run_ring r) cs) (run_client r) (run_published r ++ mjoin cs))
    ses' k' fs.
Proof.
  intros I Hc Hce ses' I' Hm'. destruct I; split; [eauto|..];
    cbn [ses' ses_ring ses_cursor ses_written ses_read run_ring run_client run_published]; auto.
  - by rewrite ri_ring0.
  - rewrite join_app. by f_equal.
  - by apply Forall_app.
  - apply Forall_app. split; [done|]. rewrite <- ri_size0.
    eapply Forall_impl; [|exact Hc]. simpl. lia.
  - by rewrite ring_writes_size.
Qed.

Lemma step_publish n r ses k fs stopping buf :
  running_inv n r ses k fs -> n + zlen buf + 1 < 2 ^ 64 ->
  exists ses' k', running_inv (n + zlen buf + 1) (run_step cl r (EvPublish stopping buf)) ses' k' fs.
Proof.
  intros I Hn. destruct (ri_session _ _ _ _ _ I) as (m&Hm&Is). pose proof (ri_ring _ _ _ _ _ I) as Er.
  assert (Hstay : forall rc ring, ((rc =? 0) = true -> buf = []) -> ring = run_ring r ->
    running_inv (n + zlen buf + 1)
      (mk_run ring (run_client r) (run_published r ++ (if rc =? 0 then buf else []))) ses k fs).
  { intros rc ring Hrc ->. assert ((if rc =? 0 then buf else []) = []) as ->
      by (destruct (rc =? 0); auto). rewrite app_nil_r.
    destruct I as [(m'&?&?)]; split; auto. exists m'. split; [unfold zlen; lia|done]. }
  unfold run_step. destruct stopping.
  { unfold rtlsdr_server_publish. rewrite orb_true_r. exists ses, k. by apply Hstay. }
  pose proof (si_wf _ _ _ _ Is) as W. rewrite Er in W.
  destruct (Z.even (zlen buf)) eqn:Eb.
  - destruct (publish_even (run_ring r) buf W Eb) as (cs&->&Hj&Hc&Hce&_).
    cbn [default from_option id Z.eqb].
    rewrite <- Er in Hc. pose proof (session_writes_chunks ses cs (si_wf _ _ _ _ Is) Hc) as Hs.
    pose proof (chunk_count _ _ Hc) as Hcount. rewrite Hj in Hcount.
    destruct (session_inv_calls r0 m k ses (CallWrite <$> cs) Is (wf_gen _ W0)) as (k'&I').
    { unfold zlen in *. rewrite length_fmap. lia. }
    rewrite Hs in I'. eexists _, k'. rewrite <- Hj. eapply running_publish; eauto.
    + by rewrite <- Er.
    + apply Hce. by rewrite (ri_size _ _ _ _ _ I).
    + rewrite Hj. unfold zlen in *. rewrite length_fmap. lia.
  - rewrite publish_odd by (rewrite <- Z.negb_even, Eb; done). cbn [default from_option id Z.eqb].
    exists (session_step ses CallMarkGap), (k + 1). rewrite app_nil_r.
    destruct I; split; cbn [ses_ring ses_cursor ses_written ses_read run_ring run_client run_published session_step]; auto.
    + exists (m + 1). split; [unfold zlen; lia|by apply session_inv_gap].
    + by rewrite Er.
Qed.
(** Why a round ends a session. *)
Definition end_cause (ses : session) (e : iq_env) : Prop :=
  (client_current (cl_epoch cl) (ie_current1 e)).1 = false \/
  (client_current (cl_epoch cl) (ie_current2 e)).1 = false \/
  (exists iov, (sendv (ie_send e) iov).1 = -1 /\ 1 <= zlen iov <= 2 /\
     zlen (mjoin iov) <= 32 + 2 * slot_size r0) \/
  match log_read (ring_log (ses_ring ses)) (cur_generation (ses_cursor ses))
          (cur_next_seq (ses_cursor ses)) with
  | Data b => slot_size r0 < zlen b \/ Z.even (zlen b) = false
  | Empty => ie_socket_closed e = true
  | _ => True
  end.

Lemma step_round_cases n r ses k fs e :
  running_inv n r ses k fs -> iq_env_ok (slot_size r0) e -> n + 1 < 2 ^ 64 ->
  (exists ses' fs', running_inv (n + 1) (run_step cl r (EvRound e)) ses' k fs' /\
     ses_ring ses' = ses_ring ses /\ ses_written ses' = ses_written ses /\
     match log_read (ring_log (ses_ring ses)) (cur_generation (ses_cursor ses))
             (cur_next_seq (ses_cursor ses)) with
     | Data b => ses_read ses' = ses_read ses ++ [b] /\
         cur_next_seq (ses_cursor ses') = cur_next_seq (ses_cursor ses) + 1
     | _ => ses' = ses
     end) \/
  (end_cause ses e /\ iq_running (run_client (run_step cl r (EvRound e))) = false /\
   ended (run_published r) (iq_sent (run_client (run_step cl r (EvRound e))))).
Proof.
  intros I He Hn. destruct (ri_session _ _ _ _ _ I) as (m&Hm&Is).
  pose proof (si_wf _ _ _ _ Is) as W. unfold run_step. rewrite (ri_running _ _ _ _ _ I).
  assert (Hpre : ses_read ses `prefix_of` ses_written ses) by apply Is.
  assert (Hre : Forall (fun b => Z.even (zlen b) = true) (ses_read ses)).
  { destruct Hpre as [q Hq]. pose proof (ri_even _ _ _ _ _ I) as F. rewrite Hq in F.
    by apply Forall_app in F as [? _]. }
  pose proof (even_mjoin _ Hre) as Hp.
  assert (Hpub : mjoin (ses_read ses) `prefix_of` run_published r)
    by (rewrite <- (ri_published _ _ _ _ _ I); by apply mjoin_prefix).
  pose proof (ref_run_wf d0 (samples (mjoin (ses_read ses))) Hd0) as [Hd _].
  rewrite <- (ri_dsp _ _ _ _ _ I) in Hd.
  assert (Hread : forall b, log_read (ring_log (run_ring r)) (cur_generation (iq_cursor (run_client r)))
      (cur_next_seq (iq_cursor (run_client r))) = Data b -> zlen b <= slot_size (run_ring r) ->
    session_inv r0 (m + 1) k (mk_session (run_ring r)
      (mk_cursor (cur_next_seq (iq_cursor (run_client r)) + 1) (cur_generation (iq_cursor (run_client r))))
      (ses_written ses) (ses_read ses ++ [b]) (ses_results ses ++ [RTL_RING_DATA]))).
  { intros b El Hb. rewrite <- (ri_ring _ _ _ _ _ I), <- (ri_cursor _ _ _ _ _ I) in El |- *.
    rewrite <- (session_read_data ses (slot_size (run_ring r)) b) by done.
    apply session_inv_read; [done|apply W0|lia]. }
  assert (Hstop : forall c ring p x tail, iq_running c = false -> p `prefix_of` run_published r ->
    mjoin fs ++ x `prefix_of` channel p -> iq_sent c = iq_sent (run_client r) ++ tail ->
    last_bytes (iq_frame cl (length fs) x) tail -> end_cause ses e ->
    end_cause ses e /\ iq_running (run_client (mk_run ring c (run_published r))) = false /\
    ended (run_published r) (iq_sent (run_client (mk_run ring c (run_published r))))).
  { intros c ring p x tail Hc Hpp Hx Hs Hl Hcause. split; [done|]. split; [done|].
    exists p, fs, x, tail. cbn [run_published run_client]. by rewrite Hs, (ri_sent _ _ _ _ _ I). }
  unfold end_cause in *. rewrite (ri_ring _ _ _ _ _ I), (ri_cursor _ _ _ _ _ I) in *.
  assert (Hfp : mjoin fs ++ [] `prefix_of` channel (mjoin (ses_read ses)))
    by (rewrite app_nil_r, (ri_frames _ _ _ _ _ I); done).
  destruct (round_spec cl (run_ring r) e (run_client r)) as
    [E0 E1 E2 E3 E4 E5|w freq E0 E1 E2 E3|b E1 E2 E3 E4|b o E1 E2 E3 E4 E5 E6 E7
    |b o w d' E0 E1 E2 E3 E4 E5 E6 E7 E8]; try (rewrite ?(ri_size _ _ _ _ _ I); assumption).
  { apply (ri_running _ _ _ _ _ I). }
  - left. exists ses, fs. rewrite E0. split; [|by rewrite (ri_ring _ _ _ _ _ I)].
    destruct I; split; cbn [run_ring run_client run_published]; try congruence; auto.
    exists m. split; [lia|done].
  - right. rewrite (ri_size _ _ _ _ _ I) in E0. eapply Hstop; eauto; [by right; eauto|].
    destruct E0 as [?|E0]; [by left|]. do 3 right. repeat case_match; auto.
  - right. eapply (Hstop _ _ _ _ []); eauto; [by rewrite app_nil_r|left; apply prefix_nil|].
    do 3 right. rewrite E1. auto.
  - specialize (Hread b E1 E2). rewrite (ri_dsp _ _ _ _ _ I) in E4.
    destruct (channel_snoc _ _ _ _ Hp E4) as [F1 F2].
    left. exists (mk_session (run_ring r) (iq_cursor (iq_round cl (run_ring r) e (run_client r)))
      (ses_written ses) (ses_read ses ++ [b]) (ses_results ses ++ [RTL_RING_DATA])),
      (fs ++ (if decide (o = []) then [] else [o])).
    rewrite E1, E5. split; [|by rewrite <- (ri_ring _ _ _ _ _ I)]. rewrite <- E5 in Hread |- *.
    destruct I; split; cbn [ses_ring ses_cursor ses_written ses_read run_ring run_client run_published];
      rewrite ?mjoin_snoc, ?F1, ?F2; auto.
    + exists (m + 1). split; [lia|done].
    + rewrite ri_frames0 || rewrite join_app, ri_frames0. f_equal.
      destruct (decide (o = [])) as [->|]; [done|apply mjoin_1].
    + apply Forall_app. split; [done|]. destruct (decide (o = [])); auto.
    + destruct E7 as [(->&->&_)|(Ho&->&_)].
      * rewrite decide_True, app_nil_r by done. done.
      * rewrite decide_False, length_app, ri_seq0 by done. simpl. unfold u64.
        rewrite Zplus_mod_idemp_l. f_equal. lia.
    + destruct E7 as [(->&_&->)|(Ho&_&->)].
      * rewrite decide_True, app_nil_r by done. done.
      * rewrite decide_False, frames_snoc, ri_sent0 by done. unfold iq_frame. by rewrite ri_seq0.
  - specialize (Hread b E1 E2). rewrite (ri_dsp _ _ _ _ _ I) in E4.
    destruct (channel_snoc _ _ _ _ Hp E4) as [F1 F2].
    right. eapply (Hstop _ _ (mjoin (ses_read ses ++ [b])) o w); auto.
    + rewrite <- (ri_published _ _ _ _ _ I). apply mjoin_prefix. apply Hread.
    + rewrite mjoin_snoc, F2, (ri_frames _ _ _ _ _ I). done.
    + unfold iq_frame. by rewrite <- (ri_seq _ _ _ _ _ I).
    + right. rewrite (ri_size _ _ _ _ _ I) in E0. destruct E0; auto.
Qed.

Lemma step_round n r ses k fs e :
  running_inv n r ses k fs -> iq_env_ok (slot_size r0) e -> n + 1 < 2 ^ 64 ->
  run_inv (n + 1) (run_step cl r (EvRound e)).
Proof.
  intros I He Hn. destruct (step_round_cases n r ses k fs e I He Hn) as [(?&?&?&_)|(_&?&?)].
  - left. eauto.
  - by right.
Qed.

Lemma step_gap n r ses k fs :
  running_inv n r ses k fs -> exists ses' k', running_inv (n + 1) (run_step cl r EvMarkGap) ses' k' fs.
Proof.
  intros I. destruct (ri_session _ _ _ _ _ I) as (m&Hm&Is).
  exists (session_step ses CallMarkGap), (k + 1).
  destruct I; split; cbn [ses_ring ses_cursor ses_written ses_read run_ring run_client run_published
    session_step run_step]; auto.
  - exists (m + 1). split; [lia|by apply session_inv_gap].
  - by rewrite ri_ring0.
Qed.

(** Calls of the ring an event makes, at most. *)
Definition event_cost (ev : srv_event) : Z :=
  match ev with EvPublish _ buf => zlen buf + 1 | _ => 1 end.
Definition events_cost (evs : list srv_event) : Z := foldr (fun ev n => event_cost ev + n) 0 evs.

Definition event_ok (ev : srv_event) : Prop :=
  match ev with EvRound e => iq_env_ok (slot_size r0) e | _ => True end.

Lemma event_cost_pos ev : 1 <= event_cost ev.
Proof. destruct ev; simpl; unfold zlen; lia. Qed.

Lemma run_step_inv n r ev :
  run_inv n r -> event_ok ev -> n + event_cost ev < 2 ^ 64 ->
  run_inv (n + event_cost ev) (run_step cl r ev).
Proof.
  intros [(ses&k&fs&I)|[Hr He]] Hok Hn.
  - destruct ev as [stopping buf| |e]; cbn [event_cost] in *.
    + destruct (step_publish n r ses k fs stopping buf I) as (?&?&?); [lia|].
      left. rewrite Z.add_assoc. eauto.
    + destruct (step_gap n r ses k fs I) as (?&?&?). left. eauto.
    + by eapply step_round.
  - right. destruct ev as [stopping buf| |e]; cbn [run_step].
    + destruct (rtlsdr_server_publish _ _ _ _) as [rc ring]. cbn [run_client run_published].
      split; [done|]. eapply ended_mono; [|done]. by apply prefix_app_r.
    + done.
    + by rewrite Hr.
Qed.

Lemma run_inv_fold n r evs :
  run_inv n r -> Forall event_ok evs -> n + events_cost evs < 2 ^ 64 ->
  run_inv (n + events_cost evs) (fold_left (run_step cl) evs r).
Proof.
  intros I Hf. revert n r I. induction Hf as [|ev evs Hev' Hf IH]; intros n r I Hn; cbn [fold_left events_cost foldr] in *.
  { by rewrite Z.add_0_r. }
  fold (events_cost evs) in *.
  assert (0 <= events_cost evs).
  { clear. induction evs as [|ev evs IH]; simpl; [lia|]. pose proof (event_cost_pos ev). fold (events_cost evs) in *. lia. }
  rewrite Z.add_assoc. apply IH; [|lia]. apply run_step_inv; auto. lia.
Qed.

Definition run_start : srv_run :=
  mk_run r0 (mk_iq (mk_cursor (next_seq r0) (generation r0)) d0 0 [] true) [].

Lemma run_start_inv : run_inv 0 run_start.
Proof.
  left. exists (session_start r0), 0, []. split; auto.
  exists 0. split; [lia|]. by apply session_inv_start.
Qed.

Lemma run_inv_start evs :
  Forall event_ok evs -> events_cost evs < 2 ^ 64 ->
  run_inv (events_cost evs) (fold_left (run_step cl) evs run_start).
Proof. intros. apply (run_inv_fold 0); auto using run_start_inv. Qed.

End Run.
End ServerRunFacts.

Module ServerLive.
Import Ring RingSpec RingFacts Proto Wire ProtoFacts ServerIo ServerIoFacts ServerIoLive
  DspPlan Dsp DspRef DspFacts Publish PublishFacts Server ServerRun ServerFacts ServerRunFacts.

(** A send that succeeds for up to [n] bytes: the peer takes at least a byte per call
    within the deadline. *)
Record good_send (n : Z) (e : send_env) : Prop := {
  gs_nb : 0 <= se_nb e;
  gs_sends : Forall (fun s => exists k, s = Sent k /\ 1 <= k) (se_sends e);
  gs_room : n <= zlen (se_sends e);
  gs_ready : ready (se_start e + 5000) (length (se_sends e)) (se_polls e);
}.

(** A round in which the session is current, the peer is there and takes the data. *)
Record good_env (epoch capacity : Z) (e : iq_env) : Prop := {
  ge_ok : iq_env_ok capacity e;
  ge_current1 : ce_stopping (ie_current1 e) = false /\ ce_epoch (ie_current1 e) = epoch;
  ge_current2 : ce_stopping (ie_current2 e) = false /\ ce_epoch (ie_current2 e) = epoch;
  ge_open : ie_socket_closed e = false;
  ge_send : good_send (32 + 2 * capacity) (ie_send e);
}.

Lemma good_current epoch e :
  ce_stopping e = false /\ ce_epoch e = epoch -> (client_current epoch e).1 = true.
Proof. intros [E1 E2]. unfold client_current. by rewrite E1, E2, Z.eqb_refl. Qed.

Lemma good_sendv n e iov :
  good_send n e -> 1 <= zlen iov <= 2 -> zlen (mjoin iov) <= n -> (sendv e iov).1 = 0.
Proof.
  intros [] Hc Hn. unfold sendv, rtlsdr_stream_sendv.
  destruct (Z.ltb_spec (zlen iov) 1); [lia|]. destruct (Z.ltb_spec 2 (zlen iov)); [lia|]. cbn [orb].
  destruct (Z.ltb_spec (se_nb e) 0); [lia|]. apply sendv_loop_live; auto. lia.
Qed.

Section Live.
Context `{Libm}.
Variables (cl : iq_client) (d0 : rtlsdr_dsp) (r0 : rtlsdr_ring).
Hypothesis W0 : ring_wf r0.
Hypothesis Hev : Z.even (slot_size r0) = true.
Hypothesis Hmax : slot_size r0 <= RTLSTREAM_MAX_IQ_COMPONENTS.
Hypothesis Hd0 : dsp_wf d0.

(** A running session that has not been lapped and has at most [lag] blocks to read. *)
Definition live_inv (n : Z) (r : srv_run) (lag : nat) : Prop :=
  exists ses fs, running_inv cl d0 r0 n r ses 0 fs /\
    (length (ses_written ses) <= length (ses_read ses) + lag)%nat /\
    log_oldest (ring_log (ses_ring ses)) <= cur_next_seq (ses_cursor ses) /\
    slot_count (run_ring r) = slot_count r0 /\ zlen (ses_written ses) <= zlen (run_published r).

Lemma live_round n r lag e :
  live_inv n r lag -> good_env (cl_epoch cl) (slot_size r0) e -> n + 1 < 2 ^ 64 ->
  live_inv (n + 1) (run_step cl r (EvRound e)) (lag - 1).
Proof.
  intros (ses&fs&I&Hlag&Hk&Hsc&Hw) [Hok G1 G2 Go Gs] Hn.
  destruct (ri_session _ _ _ _ _ _ _ _ I) as (m&Hm&Is).
  pose proof (session_log_read r0 m ses Is (wf_gen _ W0) Hk) as El.
  destruct (step_round_cases cl d0 r0 W0 Hmax Hd0 n r ses 0 fs e I Hok Hn)
    as [(ses'&fs'&I'&E1&E2&E3)|(Hc&_)].
  - exists ses', fs'. split; [done|]. rewrite E1, E2. rewrite El in E3.
    destruct (ses_written ses !! length (ses_read ses)) as [b|] eqn:Eb.
    + destruct E3 as [-> ->]. rewrite length_app. cbn [run_step run_ring run_published length].
      split; [lia|]. split_and!; auto. lia.
    + subst ses'. apply lookup_ge_None in Eb. split_and!; auto. lia.
  - exfalso. unfold end_cause in Hc. rewrite El in Hc.
    destruct Hc as [Hc|[Hc|[(iov&Hc&Hi&Hz)|Hc]]].
    + by rewrite good_current in Hc.
    + by rewrite good_current in Hc.
    + by rewrite (good_sendv _ _ _ Gs Hi Hz) in Hc.
    + destruct (ses_written ses !! length (ses_read ses)) as [b|] eqn:Eb; [|congruence].
      pose proof (Forall_lookup_1 _ _ _ _ (ri_fit _ _ _ _ _ _ _ _ I) Eb) as Hf.
      pose proof (Forall_lookup_1 _ _ _ _ (ri_even _ _ _ _ _ _ _ _ I) Eb) as He. simpl in Hf, He.
      destruct Hc; [lia|congruence].
Qed.

Lemma live_rounds n r lag es :
  live_inv n r lag -> Forall (good_env (cl_epoch cl) (slot_size r0)) es -> n + zlen es < 2 ^ 64 ->
  live_inv (n + zlen es) (fold_left (run_step cl) (EvRound <$> es) r) (lag - length es).
Proof.
  intros I Hf. revert n r lag I. induction Hf as [|e es He Hf IH]; intros n r lag I Hn; unfold zlen in *; cbn [length fmap list_fmap fold_left] in *.
  { by rewrite Z.add_0_r, Nat.sub_0_r. }
  replace (lag - S (length es))%nat with (lag - 1 - length es)%nat by lia.
  replace (n + Z.of_nat (S (length es))) with (n + 1 + Z.of_nat (length es)) by lia.
  apply IH; [|lia]. apply live_round; auto. lia.
Qed.

Lemma live_publish n r buf :
  live_inv n r 0 -> Z.even (zlen buf) = true -> n + zlen buf + 1 < 2 ^ 64 ->
  zlen buf <= slot_count r0 * slot_size r0 ->
  next_seq r0 + zlen (run_published r) + zlen buf <= UINT64_MAX ->
  exists lag, live_inv (n + zlen buf + 1) (run_step cl r (EvPublish false buf)) lag /\
    Z.of_nat lag * slot_size r0 < zlen buf + slot_size r0 /\
    run_published (run_step cl r (EvPublish false buf)) = run_published r ++ buf.
Proof.
  intros (ses&fs&I&Hlag&Hk&Hsc&Hw) He Hn Hcap Hmx.
  destruct (ri_session _ _ _ _ _ _ _ _ I) as (m&Hm&Is).
  pose proof (ri_ring _ _ _ _ _ _ _ _ I) as Er. pose proof (ri_size _ _ _ _ _ _ _ _ I) as Es.
  pose proof (si_wf _ _ _ _ Is) as W. pose proof (wf_size _ W0) as Hs0. pose proof (wf_count _ W0).
  destruct (publish_even (run_ring r) buf) as (cs&Ep&Hj&Hc&Hce&Hcnt); [by rewrite <- Er|done|].
  rewrite Es in Hcnt, Hce. exists (length cs). cbn [run_step]. rewrite Ep.
  cbn [default from_option id Z.eqb run_published]. split; [|done].
  assert (Hlc : zlen cs <= slot_count r0) by nia.
  pose proof (chunk_count _ _ Hc) as Hcb. rewrite Hj in Hcb.
  pose proof (si_next _ _ _ _ Is eq_refl) as Hnx.
  assert (Hf : Forall (fun b => 0 < zlen b <= slot_size (ses_ring ses)) cs) by (by rewrite Er).
  destruct (session_writes r0 m cs ses Is) as (I'&E1&E2&_&E4&_&E6&E7); [lia|done|lia|].
  rewrite (session_writes_chunks ses cs W Hf) in I', E1, E2, E4, E6, E7.
  cbn [ses_ring ses_cursor ses_written ses_read] in *.
  eexists _, fs. split; [rewrite <- Hj; eapply running_publish; [exact I|done|by apply Hce|exact I'|rewrite Hj; unfold zlen in *; lia]|].
  cbn [ses_ring ses_cursor ses_written ses_read run_ring run_published].
  pose proof (si_cur _ _ _ _ Is eq_refl) as Hcu. pose proof (prefix_length _ _ (si_prefix _ _ _ _ Is)) as Hpl.
  pose proof (si_next _ _ _ _ I' eq_refl) as Hnx'. cbn [ses_ring ses_written] in Hnx'.
  rewrite log_oldest_ring by apply I'. cbn [ses_ring].
  rewrite !zlen_app, length_app in *. pose proof (wf_ret _ W). unfold zlen in *.
  split; [lia|]. split; [rewrite Er in *; lia|]. split; [by rewrite <- Er, E6, Er|lia].
Qed.

(** A producer that publishes one buffer at a time and a client that gets enough rounds
    in between. *)
Definition plan_events (plan : list (list Z * list iq_env)) : list srv_event :=
  plan ≫= (fun p => EvPublish false p.1 :: (EvRound <$> p.2)).

Definition plan_ok (p : list Z * list iq_env) : Prop :=
  Z.even (zlen p.1) = true /\ zlen p.1 <= slot_count r0 * slot_size r0 /\
  zlen p.1 <= zlen p.2 * slot_size r0 /\ Forall (good_env (cl_epoch cl) (slot_size r0)) p.2.

Lemma events_cost_app a b : events_cost (a ++ b) = events_cost a + events_cost b.
Proof. induction a as [|ev a IH]; [done|]. cbn [app events_cost foldr]. fold (events_cost (a ++ b)). rewrite IH. fold (events_cost a). lia. Qed.
Lemma events_cost_nonneg evs : 0 <= events_cost evs.
Proof. induction evs as [|ev evs IH]; simpl; [lia|]. pose proof (event_cost_pos ev). fold (events_cost evs). lia. Qed.
Lemma events_cost_rounds es : events_cost (EvRound <$> es) = zlen es.
Proof. induction es as [|e es IH]; [done|]. cbn [fmap list_fmap events_cost foldr event_cost]. fold (events_cost (EvRound <$> es)). rewrite IH. unfold zlen. simpl. lia. Qed.

Lemma live_plan n r plan :
  live_inv n r 0 -> Forall plan_ok plan -> n + events_cost (plan_events plan) < 2 ^ 64 ->
  next_seq r0 + zlen (run_published r) + zlen (mjoin plan.*1) <= UINT64_MAX ->
  let r' := fold_left (run_step cl) (plan_events plan) r in
  live_inv (n + events_cost (plan_events plan)) r' 0 /\
  run_published r' = run_published r ++ mjoin plan.*1.
Proof.
  intros I Hf. revert n r I. induction Hf as [|[buf es] plan (H1&H2&H3&H4) Hf IH]; intros n r I Hn Hx.
  { cbn. by rewrite Z.add_0_r, app_nil_r. }
  change (plan_events ((buf, es) :: plan)) with ((EvPublish false buf :: (EvRound <$> es)) ++ plan_events plan) in *.
  change (mjoin ((buf, es) :: plan).*1) with (buf ++ mjoin plan.*1) in *.
  rewrite events_cost_app in *. rewrite fold_left_app. cbn [fold_left fst snd] in *.
  change (events_cost (EvPublish false buf :: (EvRound <$> es)))
    with (zlen buf + 1 + events_cost (EvRound <$> es)) in *.
  rewrite events_cost_rounds, zlen_app in *. pose proof (events_cost_nonneg (plan_events plan)).
  pose proof (zlen_nonneg es). assert (0 <= zlen (mjoin plan.*1)) by (unfold zlen; lia).
  destruct (live_publish n r buf I H1) as (lag&I1&Hlag&Hp1); [lia|done|lia|].
  assert (Hl : (lag <= length es)%nat) by (pose proof (wf_size _ W0); unfold zlen in *; nia).
  pose proof (live_rounds _ _ _ es I1 H4 ltac:(lia)) as I2.
  replace (lag - length es)%nat with 0%nat in I2 by lia.
  assert (Hpub : forall es r, run_published (fold_left (run_step cl) (EvRound <$> es) r) = run_published r).
  { clear. intros es. induction es as [|e es IH]; intros r; [done|]. cbn [fmap list_fmap fold_left]. by rewrite IH. }
  set (r2 := fold_left _ (EvRound <$> es) _) in *.
  assert (Hp2 : run_published r2 = run_published r ++ buf) by (unfold r2; by rewrite Hpub).
  replace (n + (zlen buf + 1 + zlen es + events_cost (plan_events plan)))
    with (n + zlen buf + 1 + zlen es + events_cost (plan_events plan)) by lia.
  destruct (IH _ r2 I2) as [I3 Hp3]; [lia|rewrite Hp2, zlen_app; lia|].
  split; [done|]. by rewrite Hp3, Hp2, app_assoc.
Qed.

Lemma live_start : live_inv 0 (run_start d0 r0) 0.
Proof.
  exists (session_start r0), []. split; [|split; [done|split; [|done]]].
  - split; auto. exists 0. split; [lia|]. by apply session_inv_start.
  - rewrite log_oldest_ring by done. simpl. pose proof (wf_ret _ W0). lia.
Qed.

End Live.
End ServerLive.

Module FftClientFacts.
Import Proto Wire ProtoFacts ServerIo Server ServerFacts.

Definition fft_frame (v : fft_view) : list Z :=
  hdr_wire (mk_hdr RTLSTREAM_MAGIC_FFT (fv_capture_freq v) (fv_capture_rate v) (fv_seq v) (fv_bins v))
  ++ fft_wire (fv_power v).

(** The view and the buffers have the sizes the server allocates. *)
Definition fft_step_ok (p : fft_view * fft_env) : Prop :=
  2 <= fv_bins p.1 <= RTLSTREAM_MAX_FFT_BINS /\ zlen (fv_power p.1) = fv_bins p.1 /\
  zlen (fe_old_wire p.2) = fv_bins p.1 * 4 /\ zlen (fe_old_hdr p.2) = 32.

Definition fft_step (cl : fft_client) (s : fft_cl_state) (p : fft_view * fft_env) : fft_cl_state :=
  if fs_running s then fft_round cl p.1 p.2 s else s.

(** A round sends the spectrum it sees, waits, or ends the session. *)
Lemma fft_round_spec cl v e s :
  fft_step_ok (v, e) -> fs_running s = true ->
  let s' := fft_round cl v e s in
  (s' = s) \/
  (fs_running s' = true /\ fs_last_seq s' = fv_seq v /\ fs_sent s' = fs_sent s ++ fft_frame v /\
   fc_generation cl = fv_generation v /\ fv_ready v = true /\ fv_seq v <> fs_last_seq s) \/
  (fs_running s' = false /\ exists w, fs_sent s' = fs_sent s ++ w /\
     ((exists freq, w `prefix_of` end_events freq) \/
      (w `prefix_of` fft_frame v /\ fc_generation cl = fv_generation v /\ fv_ready v = true))).
Proof.
  intros (Hb&Hp&Hw&Hh) Hr. cbn [fst snd] in *. unfold fft_round.
  assert (Hstop : forall w freq, w `prefix_of` end_events freq ->
    fs_running (mk_fft_cl (fs_last_seq s) (fs_sent s ++ w) false) = false /\ exists w',
      fs_sent (mk_fft_cl (fs_last_seq s) (fs_sent s ++ w) false) = fs_sent s ++ w' /\
      ((exists freq, w' `prefix_of` end_events freq) \/
       (w' `prefix_of` fft_frame v /\ fc_generation cl = fv_generation v /\ fv_ready v = true))).
  { intros w freq Hpre. split; [done|]. exists w. split; [done|]. left. by exists freq. }
  destruct (client_current _ (fe_current1 e)) as [cur1 w1] eqn:C1.
  destruct (client_current_spec _ _ _ _ C1) as [(->&->&_&_)|[-> Hpre]].
  2: { right. right. cbn [negb]. by eapply Hstop. }
  cbn [negb]. destruct (Z.eqb_spec (fc_generation cl) (fv_generation v)) as [Eg|]; cbn [negb].
  2: { right. right. apply (Hstop [] 0), prefix_nil. }
  destruct (fv_ready v) eqn:Er; cbn [andb negb].
  2: { destruct (fe_socket_closed e); [|by left]. right. right. apply (Hstop [] 0), prefix_nil. }
  destruct (Z.eqb_spec (fv_seq v) (fs_last_seq s)) as [|Hq]; cbn [andb negb].
  { destruct (fe_socket_closed e); [|by left]. right. right. apply (Hstop [] 0), prefix_nil. }
  destruct (client_current _ (fe_current2 e)) as [cur2 w2] eqn:C2.
  destruct (client_current_spec _ _ _ _ C2) as [(->&->&_&_)|[-> Hpre]].
  2: { right. right. cbn [negb]. by eapply Hstop. }
  cbn [negb]. unfold RTLSTREAM_MAX_FFT_BINS in *. rewrite u32_id by clia.
  rewrite (take_ge (fv_power v)) by (unfold zlen in *; lia).
  unfold rtlsdr_stream_encode_fft_hdr, rtlsdr_stream_encode_fft_payload. cbn [hdr_magic hdr_count].
  unfold RTLSTREAM_MAX_FFT_BINS. rewrite Z.eqb_refl.
  destruct (Z.ltb_spec (fv_bins v) 2); [lia|]. destruct (Z.ltb_spec 65536 (fv_bins v)); [lia|].
  destruct (Z.ltb_spec (fv_bins v * 4) (fv_bins v * 4)); [lia|].
  cbn [negb orb Z.ltb Z.compare  default from_option id].
  rewrite put_hdr_blit, blit_0 by (rewrite Hh; done). rewrite take_app_length' by done.
  rewrite fft_loop_blit by lia. rewrite (take_ge (fv_power v)) by (unfold zlen in *; lia).
  rewrite blit_0 by (rewrite zlen_fft_wire; lia).
  rewrite take_app_length' by (pose proof (zlen_fft_wire (fv_power v)); unfold zlen in *; lia).
  destruct (sendv _ _) as [r3 w3] eqn:S3.
  apply sendv_spec in S3; [|unfold zlen; simpl; lia].
  destruct S3 as [[-> ->]|[-> Hpre]]; cbn [Z.ltb Z.compare].
  - right. left. rewrite mjoin_2. unfold fft_frame. by split_and!.
  - right. right. split; [done|]. exists w3. split; [done|]. right. by rewrite mjoin_2 in Hpre.
Qed.

(** Every spectrum differs in number from the one before. *)
Fixpoint fresh_seqs (last : Z) (vs : list fft_view) : Prop :=
  match vs with
  | [] => True
  | v :: vs => fv_seq v <> last /\ fresh_seqs (fv_seq v) vs
  end.

Definition last_seq_of (last : Z) (vs : list fft_view) : Z :=
  fold_left (fun _ v => fv_seq v) vs last.

Lemma fresh_seqs_snoc last vs v :
  fresh_seqs last (vs ++ [v]) <-> fresh_seqs last vs /\ fv_seq v <> last_seq_of last vs.
Proof.
  revert last. induction vs as [|w vs IH]; intros last; simpl; [tauto|]. rewrite IH.
  unfold last_seq_of. simpl. tauto.
Qed.

(** The state of a session after some rounds. *)
Definition fft_session (cl : fft_client) (seen : list fft_view) (s : fft_cl_state) : Prop :=
  exists vs tail, vs `sublist_of` seen /\
    Forall (fun v => fv_generation v = fc_generation cl /\ fv_ready v = true) vs /\
    fresh_seqs 0 vs /\ fs_sent s = mjoin (fft_frame <$> vs) ++ tail /\
    (fs_running s = true -> tail = [] /\ fs_last_seq s = last_seq_of 0 vs) /\
    ((exists freq, tail `prefix_of` end_events freq) \/
     exists v, v ∈ seen /\ fv_generation v = fc_generation cl /\ tail `prefix_of` fft_frame v).

Lemma fft_session_step cl seen s v e :
  fft_session cl seen s -> fft_step_ok (v, e) -> fft_session cl (seen ++ [v]) (fft_step cl s (v, e)).
Proof.
  intros (vs&tail&Hsub&Hgen&Hfresh&Hsent&Hrun&Htail) Hok. unfold fft_step. cbn [fst snd].
  assert (Hweak : (exists freq, tail `prefix_of` end_events freq) \/
     exists v', v' ∈ seen ++ [v] /\ fv_generation v' = fc_generation cl /\ tail `prefix_of` fft_frame v').
  { destruct Htail as [?|(v'&?&?&?)]; [by left|right]. exists v'. rewrite elem_of_app. auto. }
  assert (Hsame : fft_session cl (seen ++ [v]) s).
  { exists vs, tail. split_and!; auto. by apply sublist_inserts_r. }
  destruct (fs_running s) eqn:Er; [|done].
  destruct (Hrun eq_refl) as [-> Hlast]. rewrite app_nil_r in Hsent.
  destruct (fft_round_spec cl v e s Hok Er) as [->|[(E1&E2&E3&E4&E5&E6)|(E1&w&E2&E3)]]; [done|..].
  - exists (vs ++ [v]), []. split_and!.
    + by apply sublist_app.
    + apply Forall_app. split; [done|]. by repeat constructor.
    + apply fresh_seqs_snoc. split; [done|]. by rewrite <- Hlast.
    + rewrite E3, Hsent, app_nil_r, fmap_app, join_app. f_equal. symmetry. apply mjoin_1.
    + intros _. split; [done|]. unfold last_seq_of. by rewrite E2, fold_left_app.
    + left. exists 0. apply prefix_nil.
  - exists vs, w. split_and!; auto.
    + by apply sublist_inserts_r.
    + by rewrite E2, Hsent.
    + congruence.
    + destruct E3 as [?|(?&?&?)]; [by left|right]. exists v. rewrite elem_of_app, list_elem_of_singleton. auto.
Qed.

Lemma fft_session_run cl seen s steps :
  fft_session cl seen s -> Forall fft_step_ok steps ->
  fft_session cl (seen ++ steps.*1) (fold_left (fft_step cl) steps s).
Proof.
  intros I Hf. revert seen s I. induction Hf as [|[v e] steps Hok Hf IH]; intros seen s I.
  { by rewrite app_nil_r. }
  cbn [fold_left fmap list_fmap fst]. rewrite cons_middle, app_assoc. apply IH.
  by apply fft_session_step.
Qed.

End FftClientFacts.

(** ** Properties *)

Module ServerProps.
Import Ring RingSpec RingFacts Proto Wire ProtoFacts ServerIo ServerIoLive DspPlan DspPlanFacts Dsp
  DspRef DspFacts Publish Server ServerRun ServerFacts ServerRunFacts ServerLive FftClientFacts.

(** C1.  End to end, for an I/Q client: take a ring the server accepts, a filter that
    [rtlsdr_dsp_create] returned and a cursor at the end of the ring.  For every
    interleaving of publications, gaps and rounds of the handler, and every outcome of
    its system calls, flags and retunes, the bytes on the wire are whole frames, numbered
    from 0, whose samples are the reference filter's output for a prefix of the published
    bytes; only an ended session has more, namely a part of the next such frame or of the
    FREQ_CHANGE and STREAM_END events.  While the session runs, the frames hold all of
    that output.  Nothing is lost, repeated, reordered or mixed across a gap. *)
Theorem iq_session_end_to_end (libm : Libm) once_ok alloc_ok allocs ir or bw off d r0 cl evs :
  is_u 64 ir -> is_u 64 or -> is_u 64 bw -> is_s 64 off ->
  rtlsdr_dsp_create once_ok alloc_ok allocs ir or bw off = Some d ->
  ring_wf r0 -> Z.even (slot_size r0) = true -> slot_size r0 <= RTLSTREAM_MAX_IQ_COMPONENTS ->
  Forall (event_ok r0) evs -> events_cost evs < 2 ^ 64 ->
  let r := fold_left (run_step cl) evs (run_start d r0) in
  exists p fs x tail,
    p `prefix_of` run_published r /\ mjoin fs ++ x `prefix_of` channel d p /\
    iq_sent (run_client r) = frames cl fs ++ tail /\
    last_bytes (iq_frame cl (length fs) x) tail /\
    (iq_running (run_client r) = true -> tail = [] /\ mjoin fs = channel d p).
Proof.
  intros Hi Ho Hb Hf Hc W0 Hev Hmax Hok Hn r.
  pose proof (cr_wf _ _ _ (create_created _ _ _ _ _ _ _ _ Hi Ho Hb Hf Hc)) as Hd.
  pose proof (run_inv_start cl d r0 W0 Hev Hmax Hd evs Hok Hn) as I0. fold r in I0. clearbody r.
  destruct I0 as [(ses&k&fs&I)|[Hr He]].
  - destruct (ri_session _ _ _ _ _ _ _ _ I) as (m&_&Is).
    exists (mjoin (ses_read ses)), fs, [], []. destruct I. rewrite !app_nil_r. split_and!; auto.
    + rewrite <- ri_published0. apply mjoin_prefix, Is.
    + by rewrite ri_frames0.
    + left. apply prefix_nil.
  - destruct He as (p&fs&x&tail&?&?&?&?). exists p, fs, x, tail. split_and!; auto.
    congruence.
Qed.

(** Environments and a ring for the witnesses. *)
Definition demo_send (n : nat) : send_env :=
  mk_send_env 0 0 (replicate n (Sent 64)) (replicate n (7, PollReady)).
Definition demo_current : current_env := mk_current_env false 1 0 (demo_send 0) (demo_send 0).
Definition demo_env : iq_env :=
  mk_iq_env demo_current false demo_current (demo_send 36) (replicate 2 0) (replicate 2 0)
    (replicate 4 0) (replicate 32 0).
Definition demo_client : iq_client := mk_iq_client 100000000 1000 1.

Lemma demo_env_good : good_env 1 2 demo_env.
Proof.
  split; try done; split; try done.
  - repeat constructor; eexists; split; try reflexivity; lia.
  - split; [done|]. repeat constructor.
Defined.

Lemma iq_session_end_to_end_witness :
  let evs := [EvPublish false [1; 2; 3; 4]; EvRound demo_env; EvRound demo_env] in
  let r := fold_left (@run_step DspProps.demo_libm demo_client) evs
             (run_start DspProps.demo_dsp ServerIoProps.demo_ring2) in
  exists p fs x tail,
    p `prefix_of` run_published r /\
    mjoin fs ++ x `prefix_of` @channel DspProps.demo_libm DspProps.demo_dsp p /\
    iq_sent (run_client r) = frames demo_client fs ++ tail /\
    last_bytes (iq_frame demo_client (length fs) x) tail /\
    (iq_running (run_client r) = true ->
     tail = [] /\ mjoin fs = @channel DspProps.demo_libm DspProps.demo_dsp p).
Proof.
  intros evs r.
  apply (iq_session_end_to_end DspProps.demo_libm true true (fun _ => true) 1000 1000 1000 0);
    try exact DspProps.demo_dsp_created; try exact ServerIoProps.demo_ring2_wf;
    try (vm_compute; split; congruence); try (vm_compute; congruence).
  - repeat constructor; apply (ge_ok _ _ _ demo_env_good).
Defined.

(** C5.  Delivery: a client that keeps up gets everything.  When the producer publishes
    even buffers of at most the ring's size and the handler gets, after each, at least
    one round per slot of it, in rounds in which the session is current and the peer
    takes the bytes in time, then the session is still running and its frames carry
    exactly the filtered samples of all published bytes. *)
Theorem iq_client_receives_all (libm : Libm) once_ok alloc_ok allocs ir or bw off d r0 cl plan :
  is_u 64 ir -> is_u 64 or -> is_u 64 bw -> is_s 64 off ->
  rtlsdr_dsp_create once_ok alloc_ok allocs ir or bw off = Some d ->
  ring_wf r0 -> Z.even (slot_size r0) = true -> slot_size r0 <= RTLSTREAM_MAX_IQ_COMPONENTS ->
  Forall (plan_ok cl r0) plan -> events_cost (plan_events plan) < 2 ^ 64 ->
  next_seq r0 + zlen (mjoin plan.*1) <= UINT64_MAX ->
  let r := fold_left (run_step cl) (plan_events plan) (run_start d r0) in
  iq_running (run_client r) = true /\ run_published r = mjoin plan.*1 /\
  exists fs, iq_sent (run_client r) = frames cl fs /\ mjoin fs = channel d (mjoin plan.*1).
Proof.
  intros Hi Ho Hb Hf Hc W0 Hev Hmax Hok Hn Hx r.
  pose proof (cr_wf _ _ _ (create_created _ _ _ _ _ _ _ _ Hi Ho Hb Hf Hc)) as Hd.
  pose proof (live_start cl d r0 W0) as L.
  destruct (live_plan cl d r0 W0 Hev Hmax Hd 0 (run_start d r0) plan L Hok Hn) as [L' Hp];
    [change (next_seq r0 + 0 + zlen (mjoin plan.*1) <= UINT64_MAX); lia|]. fold r in L', Hp. cbn in Hp.
  destruct L' as (ses&fs&I&Hlag&_). destruct (ri_session _ _ _ _ _ _ _ _ I) as (m&_&Is).
  assert (Hall : ses_read ses = ses_written ses).
  { destruct (si_prefix _ _ _ _ Is) as [q Hq]. rewrite Hq, length_app in Hlag.
    rewrite Hq. destruct q; [by rewrite app_nil_r|simpl in Hlag; lia]. }
  destruct I. split_and!; auto. exists fs. split; [done|].
  by rewrite ri_frames0, Hall, ri_published0, Hp.
Qed.

Lemma iq_client_receives_all_witness :
  let plan := [([1; 2; 3; 4], [demo_env; demo_env])] in
  let r := fold_left (@run_step DspProps.demo_libm demo_client) (plan_events plan)
             (run_start DspProps.demo_dsp ServerIoProps.demo_ring2) in
  iq_running (run_client r) = true /\ run_published r = [1; 2; 3; 4] /\
  exists fs, iq_sent (run_client r) = frames demo_client fs /\
    mjoin fs = @channel DspProps.demo_libm DspProps.demo_dsp [1; 2; 3; 4].
Proof.
  intros plan r.
  apply (iq_client_receives_all DspProps.demo_libm true true (fun _ => true) 1000 1000 1000 0
    DspProps.demo_dsp ServerIoProps.demo_ring2 demo_client plan);
    try exact DspProps.demo_dsp_created; try exact ServerIoProps.demo_ring2_wf;
    try (vm_compute; split; congruence); try (vm_compute; congruence).
  - constructor; [|constructor]. split; [reflexivity|]. split; [vm_compute; congruence|].
    split; [vm_compute; congruence|]. constructor; [exact demo_env_good|].
    constructor; [exact demo_env_good|]. constructor.
Defined.

(** C17.  An FFT client, whatever spectra the handler's rounds meet under the lock and
    whatever its system calls answer: the wire holds whole frames, each a faithful copy
    of one ready spectrum of the client's generation, in the order seen and never the
    same one twice running; an ended session may add a part of one more such frame or of
    the closing events. *)
Theorem fft_session_frames cl steps :
  Forall fft_step_ok steps ->
  let s := fold_left (fft_step cl) steps (mk_fft_cl 0 [] true) in
  exists vs tail, vs `sublist_of` steps.*1 /\
    Forall (fun v => fv_generation v = fc_generation cl /\ fv_ready v = true) vs /\
    fresh_seqs 0 vs /\ fs_sent s = mjoin (fft_frame <$> vs) ++ tail /\
    (fs_running s = true -> tail = []) /\
    ((exists freq, tail `prefix_of` end_events freq) \/
     exists v, v ∈ steps.*1 /\ fv_generation v = fc_generation cl /\ tail `prefix_of` fft_frame v).
Proof.
  intros Hf. destruct (fft_session_run cl [] (mk_fft_cl 0 [] true) steps) as (vs&tail&H); auto.
  - exists [], []. split_and!; auto; [constructor|]. left. exists 0. apply prefix_nil.
  - exists vs, tail. destruct H as (?&?&?&?&Hr&?). split_and!; auto. intros E. by apply Hr.
Qed.

Definition demo_fft_env : fft_env :=
  mk_fft_env demo_current false demo_current (demo_send 40) [0; 0] (replicate 8 0) (replicate 32 0).
Definition demo_view (seq : Z) : fft_view := mk_fft_view 1 true seq [5; 6] 2 100 1000.

Lemma fft_session_frames_witness :
  let steps := [(demo_view 1, demo_fft_env); (demo_view 1, demo_fft_env); (demo_view 2, demo_fft_env)] in
  exists vs tail, vs `sublist_of` steps.*1 /\
    fs_sent (fold_left (fft_step (mk_fft_client 1 1)) steps (mk_fft_cl 0 [] true))
    = mjoin (fft_frame <$> vs) ++ tail.
Proof.
  intros steps. destruct (fft_session_frames (mk_fft_client 1 1) steps) as (vs&tail&H1&_&_&H4&_).
  - repeat constructor; try (vm_compute; congruence).
  - exists vs, tail. exact (conj H1 H4).
Defined.

(** Admission to the I/Q listener, for a request that arrived complete while the
    session is current: the client is admitted exactly when the request is a valid I/Q
    request, both frequencies are 32-bit and a filter plan exists for its rate, bandwidth
    and offset; it then gets the requested frequency and rate, the plan's bandwidth, a
    filter in its initial state for exactly that plan and a cursor at the end of the
    ring.  In particular the bandwidth [rtlsdr_dsp_validate] returns is one for which
    [rtlsdr_dsp_create] finds the same plan. *)
Theorem admission_iq (libm : Libm) r e fft_plan cf cr ring allocs :
  req_ok r -> is_u 64 cf -> is_u 64 cr -> (forall k, allocs k = true) ->
  ce_stopping e = false -> ce_epoch e = 1 ->
  let outcome := client_handler_admit (0, req_wire r) RTLSTREAM_MODE_IQ 1 e fft_plan cf cr ring
                 true true allocs in
  (forall p, valid_req r = true -> req_mode r = RTLSTREAM_MODE_IQ ->
     req_freq r <= UINT32_MAX -> cf <= UINT32_MAX ->
     make_plan cr (req_rate r) (req_bandwidth r) (req_freq r - cf) = Some p ->
     exists d, outcome = AdmitIq (req_freq r) (req_rate r) (plan_bandwidth p) d
                         (mk_cursor (next_seq ring) (generation ring)) /\
       rtlsdr_dsp_create true true allocs cr (req_rate r) (plan_bandwidth p) (req_freq r - cf) = Some d /\
       created cr (req_rate r) d) /\
  (valid_req r = false \/ req_mode r <> RTLSTREAM_MODE_IQ \/ UINT32_MAX < req_freq r \/
   UINT32_MAX < cf \/ make_plan cr (req_rate r) (req_bandwidth r) (req_freq r - cf) = None ->
   exists reason, outcome = Rejected reason).
Proof.
  intros Hr Hcf Hcr Hal Es Ee outcome. subst outcome. unfold client_handler_admit. cbn [Z.ltb Z.compare].
  assert (Hdec : rtlsdr_stream_decode_req (Some (mk_req 0 0 0 0 0)) (Some (req_wire r))
    = (if valid_req r then 0 else -1, Some r)).
  { pose proof (decode_wire r [] Hr) as Hw. rewrite app_nil_r in Hw.
    unfold rtlsdr_stream_decode_req. cbv zeta. by rewrite Hw. }
  rewrite Hdec. destruct (client_current 1 e) as [cur w] eqn:Ec.
  pose proof (good_current 1 e (conj Es Ee)) as Hcur. rewrite Ec in Hcur. cbn in Hcur. subst cur.
  destruct Hr as (?&Hfr&Hra&Hbw&?). cbn [negb].
  destruct (valid_req r) eqn:Ev; cbn [Z.ltb Z.compare orb].
  2: { split; [congruence|]. intros _. by eexists. }
  assert (Em : (req_magic r =? RTLSTREAM_MAGIC_REQ) = true)
    by (unfold valid_req in Ev; apply andb_prop in Ev; apply Ev).
  rewrite Em. cbn [negb].
  destruct (Z.eqb_spec (req_mode r) RTLSTREAM_MODE_IQ) as [Emo|]; cbn [negb].
  2: { split; [congruence|]. intros _. by eexists. }
  change (RTLSTREAM_MODE_IQ =? RTLSTREAM_MODE_FFT) with false. cbv iota.
  destruct (Z.ltb_spec UINT32_MAX (req_freq r)), (Z.ltb_spec UINT32_MAX cf); cbn [orb];
    try (split; [lia|]; intros _; by eexists).
  assert (Hoff : is_s 64 (req_freq r - cf)) by clia.
  rewrite (s64_id (req_freq r)), (s64_id cf), s64_id by clia.
  unfold rtlsdr_dsp_validate. destruct (make_plan cr _ _ _) as [p|] eqn:Ep.
  2: { split; [done|]. intros _. by eexists. }
  split; [|intros [?|[?|[?|[?|?]]]]; try done; lia]. intros p' _ _ _ _ [= <-].
  cbn [fmap option_fmap option_map Z.ltb Z.compare].
  pose proof (make_plan_idem _ _ _ _ _ Hcr Hra Hbw Hoff Ep) as Ei.
  assert (Hpb : is_u 64 (plan_bandwidth p)).
  { destruct (make_plan_inv _ _ _ _ _ Hcr Hra Hbw Hoff Ep) as ([]&->&_). clia. }
  destruct (rtlsdr_dsp_create true true allocs cr _ _ _) as [d|] eqn:Ed.
  - exists d. split; [done|]. split; [done|]. by eapply create_created.
  - exfalso. revert Ed. unfold rtlsdr_dsp_create. rewrite Ei. cbn.
    assert (Hcs : forall fs ts cs k, create_stages allocs k fs ts cs <> None).
    { induction fs as [|f fs IH]; intros [|t ts] [|c cs] k; cbn; try done. rewrite Hal. cbn.
      destruct (create_stages allocs (S k) fs ts cs) eqn:E; [done|]. by apply IH in E. }
    destruct (create_stages allocs 0 _ _ _) eqn:E; [done|]. by apply Hcs in E.
Qed.

Lemma admission_iq_witness :
  exists d, @client_handler_admit DspProps.demo_libm
      (0, req_wire (mk_req RTLSTREAM_MAGIC_REQ 100 1000 1000 0)) RTLSTREAM_MODE_IQ 1 demo_current
      false 100 1000 ServerIoProps.demo_ring2 true true (fun _ => true)
    = AdmitIq 100 1000 1000 d (mk_cursor 0 1).
Proof.
  destruct (admission_iq DspProps.demo_libm (mk_req RTLSTREAM_MAGIC_REQ 100 1000 1000 0) demo_current
    false 100 1000 ServerIoProps.demo_ring2 (fun _ => true)) as [H _];
    try reflexivity; try (repeat split; vm_compute; congruence).
  destruct (H (default (mk_plan 0 0 [] [] []) (make_plan 1000 1000 1000 0))) as (d&E&_);
    try reflexivity; try (vm_compute; congruence).
  exists d. exact E.
Defined.

End ServerProps.
