(* ===== verification/FftThread.v ===== *)
(** * The spectrum thread of the stream server ([fft_compute_thread] of
    [src/src/rtl_stream_server.c])

    [Module FftThread]: one round of the thread on the ring, and the thread among the calls of
    the producer.  [Module FftThreadProps]: the spectra are those of the captured stream since
    the last gap, whatever the interleaving. *)

From S2P Require Import Prelude Ring Proto Float DspPlan Dsp ServerIo ServerFft Server.

Module FftThread.
Import Ring Publish ServerFft.

(** [t_running]: the thread has not returned; [t_stop]: it asked the server to stop.
    [t_published] are the bytes [rtlsdr_server_publish] accepted. *)
Record fft_thread := mk_thread {
  t_ring : rtlsdr_ring;
  t_cursor : rtlsdr_ring_cursor;
  t_input : list Z;
  t_fft : fft_state;
  t_running : bool;
  t_stop : bool;
  t_published : list Z;
}.

Section WithBackend.
Variable fft_execute : list flt -> bool * list flt.

(** A round of [fft_compute_thread]; [stopping] and [current] are what the condition of the
    loop sees.  A transform that fails leaves the state as it is there, with the spectra of
    the hops before it in the same block published, and stops the server. *)
Definition fft_compute_round (stopping current : bool) (t : fft_thread) : fft_thread :=
  if stopping || negb current then
    mk_thread (t_ring t) (t_cursor t) (t_input t) (t_fft t) false (t_stop t) (t_published t)
  else
    let '(result, cursor, input, len) :=
      rtlsdr_ring_read_copy (Some (t_ring t)) (Some (t_cursor t)) (Some (t_input t)) (slot_size (t_ring t)) (Some 0) in
    let cursor := default (t_cursor t) cursor in
    let input := default (t_input t) input in
    if result =? RTL_RING_GAP then
      mk_thread (t_ring t) (default cursor (rtlsdr_ring_cursor_now (Some (t_ring t)) (Some cursor)).2) input
        (fft_gap (t_fft t)) true (t_stop t) (t_published t)
    else if result =? RTL_RING_EMPTY then
      mk_thread (t_ring t) cursor input (t_fft t) true (t_stop t) (t_published t)
    else if negb (result =? RTL_RING_DATA) then
      mk_thread (t_ring t) cursor input (t_fft t) false true (t_published t)
    else
      match rtlsdr_server_process_fft fft_execute (t_fft t) (Some input) (default 0 len) with
      | Done s => mk_thread (t_ring t) cursor input s true (t_stop t) (t_published t)
      | Failed s => mk_thread (t_ring t) cursor input s false true (t_published t)
      end.

(** The producer and the thread. *)
Inductive fft_event :=
| FtPublish (stopping : bool) (buf : list Z)
| FtMarkGap
| FtRound (stopping current : bool).

Definition thread_step (t : fft_thread) (ev : fft_event) : fft_thread :=
  match ev with
  | FtPublish stopping buf =>
      let '(rc, ring) := rtlsdr_server_publish stopping (Some (t_ring t)) (Some buf) (zlen buf) in
      mk_thread (default (t_ring t) ring) (t_cursor t) (t_input t) (t_fft t) (t_running t) (t_stop t)
        (t_published t ++ (if rc =? 0 then buf else []))
  | FtMarkGap =>
      mk_thread (default (t_ring t) (rtlsdr_ring_mark_gap (Some (t_ring t)))) (t_cursor t) (t_input t) (t_fft t)
        (t_running t) (t_stop t) (t_published t)
  | FtRound stopping current => if t_running t then fft_compute_round stopping current t else t
  end.

(** The thread is started behind [rtlsdr_ring_cursor_now]. *)
Definition thread_start (r : rtlsdr_ring) (input : list Z) (s : fft_state) : fft_thread :=
  mk_thread r (mk_cursor (next_seq r) (generation r)) input s true false [].
Definition thread_run (t : fft_thread) (evs : list fft_event) : fft_thread := fold_left thread_step evs t.
End WithBackend.

End FftThread.

Module FftThreadFacts.
Import Ring RingSpec RingFacts Publish PublishFacts ServerFft ServerFftFacts FftThread.
Import Dsp DspRef DspFacts.

(** A block at the start of a longer buffer. *)
Lemma process_fft_prefix exec s b rest :
  fft_wf s -> Z.even (zlen b) = true ->
  rtlsdr_server_process_fft exec s (Some (b ++ rest)) (zlen b) = ServerFft.ref_run exec s (samples b).
Proof.
  intros W He. rewrite <- process_fft_ref by done. unfold rtlsdr_server_process_fft.
  destruct (_ || _); [done|]. apply Z.even_spec in He as [k Hk].
  assert (Hk' : Z.to_nat (zlen b / 2) = Z.to_nat k) by (rewrite Hk, (Z.mul_comm 2 k), Z.div_mul; lia).
  pose proof (zlen_nonneg b). rewrite Hk'. erewrite !(fft_process_loop_ref exec) with (m := Z.to_nat k); [|done|lia|lia|done|lia|lia].
  by rewrite pairs_app_low by lia.
Qed.

Lemma total_run exec s xs : (forall l, (exec l).1 = true) -> failed (ServerFft.ref_run exec s xs) = false.
Proof.
  intros He. revert s. induction xs as [|x xs IH]; intros s; cbn [ServerFft.ref_run]; [done|].
  assert (failed (ServerFft.ref_sample exec s x) = false) as H; [|destruct (ServerFft.ref_sample exec s x); [apply IH|done]].
  unfold ServerFft.ref_sample. destruct (_ =? _); [|done]. unfold finish_hop.
  match goal with |- context [exec ?l] => specialize (He l); destruct (exec l) as [ok x0] end. cbn [fst] in He. subst ok.
  cbn [negb]. by destruct (_ <=? _).
Qed.

Lemma fft_gap_wf s : fft_wf s -> fft_wf (fft_gap s).
Proof. intros []. split; cbn; lia. Qed.

(** What the log answers a session, behind or not. *)
Lemma session_answers r0 n k s :
  session_inv r0 n k s -> is_u 64 (generation r0) -> n < 2 ^ 64 ->
  log_read (ring_log (ses_ring s)) (cur_generation (ses_cursor s)) (cur_next_seq (ses_cursor s)) = Gap \/
  log_read (ring_log (ses_ring s)) (cur_generation (ses_cursor s)) (cur_next_seq (ses_cursor s))
  = match ses_written s !! length (ses_read s) with Some b => Data b | None => Empty end.
Proof.
  intros I Hg Hn. destruct (decide (0 < k)) as [Hk|Hk].
  { left. unfold log_read. replace (cur_generation _ =? _) with false; [done|]. symmetry. apply Z.eqb_neq.
    cbn [log_gen ring_log]. pose proof (si_k _ _ _ _ I). rewrite (si_cgen _ _ _ _ I), (si_gen _ _ _ _ I). cdlia. }
  assert (k = 0) as -> by (pose proof (si_k _ _ _ _ I); lia).
  destruct (decide (log_oldest (ring_log (ses_ring s)) <= cur_next_seq (ses_cursor s))) as [Ho|Ho];
    [right; by eapply session_log_read|]. left. unfold log_read.
  replace (cur_next_seq _ <? _) with true by (symmetry; apply Z.ltb_lt; lia). by rewrite orb_true_r.
Qed.

(** Publishing within a session. *)
Lemma session_publish r0 n k s stopping buf :
  session_inv r0 n k s -> is_u 64 (generation r0) -> n + zlen buf + 1 < 2 ^ 64 -> Z.even (slot_size (ses_ring s)) = true ->
  let '(rc, ring) := rtlsdr_server_publish stopping (Some (ses_ring s)) (Some buf) (zlen buf) in
  exists s' k' n' cs, 0 <= n' <= n + zlen buf + 1 /\ session_inv r0 n' k' s' /\
    ses_ring s' = default (ses_ring s) ring /\ slot_size (ses_ring s') = slot_size (ses_ring s) /\
    ses_cursor s' = ses_cursor s /\ ses_read s' = ses_read s /\ ses_written s' = ses_written s ++ cs /\
    mjoin cs = (if rc =? 0 then buf else []) /\
    Forall (fun b => Z.even (zlen b) = true /\ zlen b <= slot_size (ses_ring s)) cs.
Proof.
  intros I Hg Hn He. pose proof (si_wf _ _ _ _ I) as W. pose proof (si_k _ _ _ _ I). pose proof (zlen_nonneg buf). destruct stopping.
  { unfold rtlsdr_server_publish. rewrite orb_true_r. exists s, k, n, []. rewrite app_nil_r. split_and!; auto; lia. }
  destruct (Z.even (zlen buf)) eqn:Eb.
  - destruct (publish_even (ses_ring s) buf W Eb) as (cs & -> & Hj & Hc & Hce & _). cbn [default from_option id Z.eqb].
    pose proof (ServerRunFacts.session_writes_chunks s cs W Hc) as Hs. pose proof (ServerRunFacts.chunk_count _ _ Hc) as Hcount.
    rewrite Hj in Hcount. assert (Hz : zlen (CallWrite <$> cs) = zlen cs) by (unfold zlen; by rewrite length_fmap).
    destruct (ServerRunFacts.session_inv_calls r0 n k s (CallWrite <$> cs) I Hg) as (k' & I'); [lia|].
    rewrite Hs in I'. eexists _, k', _, cs. split; [|split; [exact I'|]]; [pose proof (zlen_nonneg cs); lia|].
    cbn [ses_ring ses_cursor ses_written ses_read]. split_and!; auto using ring_writes_size.
    apply list.Forall_and. split; [by apply Hce|]. eapply Forall_impl; [|exact Hc]. cbn. lia.
  - rewrite publish_odd by (rewrite <- Z.negb_even, Eb; done). cbn [Z.eqb].
    exists (session_step s CallMarkGap), (k + 1), (n + 1), []. rewrite app_nil_r.
    split_and!; auto using session_inv_gap; lia.
Qed.

(** Ring calls an event makes, at most. *)
Definition event_cost (ev : fft_event) : Z := match ev with FtPublish _ buf => zlen buf + 1 | _ => 1 end.
Definition events_cost (evs : list fft_event) : Z := foldr (fun ev n => event_cost ev + n) 0 evs.
Lemma thread_cost_snoc evs ev : events_cost (evs ++ [ev]) = events_cost evs + event_cost ev.
Proof. unfold events_cost. induction evs as [|e evs IH]; cbn [app foldr]; lia. Qed.
Lemma thread_cost_nonneg evs : 0 <= events_cost evs.
Proof.
  unfold events_cost. induction evs as [|e evs IH]; cbn [foldr]; [done|]. destruct e as [? buf| |]; cbn [event_cost]; [|lia..].
  pose proof (zlen_nonneg buf). lia.
Qed.

Section Run.
Context (exec : list flt -> bool * list flt) (r0 : rtlsdr_ring) (input0 : list Z) (s0 : fft_state).
Hypothesis W0 : ring_wf r0.
Hypothesis Hev : Z.even (slot_size r0) = true.
Hypothesis Hin : zlen input0 = slot_size r0.
Hypothesis Hs0 : fft_wf s0.
Hypothesis Hq0 : is_u 64 (fft_seq s0).
Abbreviation run := (thread_run exec (thread_start r0 input0 s0)).

Lemma run_snoc evs ev : run (evs ++ [ev]) = thread_step exec (run evs) ev.
Proof. unfold thread_run. by rewrite fold_left_app. Qed.

(** Where the thread took its cursor: at its start or behind a gap. *)
Definition origin (pre : list fft_event) : Prop :=
  pre = [] \/ exists pre', pre = pre' ++ [FtRound false true] /\ t_fft (run pre) = fft_gap (t_fft (run pre')).

(** What the thread has come to: a thread that stops the server does so for a transform that
    failed. *)
Definition result_of (t : fft_thread) : outcome := if t_stop t then Failed (t_fft t) else Done (t_fft t).

(** A thread [t] whose cursor was taken at [t0]: it has used [p] of the [new] bytes. *)
Record uses (t0 t : fft_thread) (new p : list Z) : Prop := {
  us_published : t_published t = t_published t0 ++ new;
  us_prefix : p `prefix_of` new;
  us_even : Z.even (zlen p) = true;
  us_fft : ServerFft.ref_run exec (t_fft t0) (samples p) = result_of t;
  us_wf : fft_wf (t_fft t0);
  us_seq : is_u 64 (fft_seq (t_fft t0));
  us_frame : frame_len (t_fft t0) = frame_len s0;
  us_stop : t_stop t = true -> t_running t = false;
}.
Record attached (n : Z) (t0 t : fft_thread) (new p : list Z) (ses : session) : Prop := {
  at_session : exists k m, 0 <= m <= n /\ session_inv (t_ring t0) m k ses;
  at_wf : ring_wf (t_ring t0);
  at_ring : ses_ring ses = t_ring t;
  at_cursor : ses_cursor ses = t_cursor t;
  at_written : mjoin (ses_written ses) = new;
  at_read : mjoin (ses_read ses) = p;
  at_blocks : Forall (fun b => Z.even (zlen b) = true /\ zlen b <= slot_size r0) (ses_written ses);
  at_size : slot_size (t_ring t) = slot_size r0;
  at_input : zlen (t_input t) = slot_size r0;
}.
Definition thread_inv (n : Z) (evs : list fft_event) : Prop :=
  exists pre post new p, evs = pre ++ post /\ origin pre /\ uses (run pre) (run evs) new p /\
    (t_running (run evs) = true -> exists ses, attached n (run pre) (run evs) new p ses).

Lemma uses_later t0 t t' new p add : uses t0 t new p -> t_published t' = t_published t ++ add -> t_fft t' = t_fft t -> t_stop t' = t_stop t ->
  (t_running t' = true -> t_running t = true) -> uses t0 t' (new ++ add) p.
Proof.
  intros [] Hp Hf Hs Hr. assert (Ho : result_of t' = result_of t) by (unfold result_of; by rewrite Hf, Hs).
  split; rewrite ?Ho, ?Hs; auto; try (intros Ht; specialize (us_stop0 Ht); destruct (t_running t'); [by rewrite Hr in us_stop0|done]).
  - by rewrite Hp, us_published0, app_assoc.
  - by apply prefix_app_r.
Qed.

Lemma inv_publish n evs stopping buf : thread_inv n evs -> n + zlen buf + 1 < 2 ^ 64 ->
  thread_inv (n + zlen buf + 1) (evs ++ [FtPublish stopping buf]).
Proof.
  intros (pre & post & new & p & -> & Ho & Hu & Ha) Hn. unfold thread_inv. rewrite run_snoc. cbn [thread_step]. set (t := run (pre ++ post)) in *.
  destruct (rtlsdr_server_publish stopping (Some (t_ring t)) (Some buf) (zlen buf)) as [rc ring] eqn:E.
  exists pre, (post ++ [FtPublish stopping buf]), (new ++ (if rc =? 0 then buf else [])), p. rewrite <- app_assoc.
  split_and!; [done|done|by eapply uses_later|]. cbn [t_running]. intros Hr. destruct (Ha Hr) as [ses A]. pose proof A as [(k & m & Hm & I) Hw Er].
  pose proof (session_publish _ m k ses stopping buf I (wf_gen _ Hw) ltac:(lia)) as Hp. rewrite Er, (at_size _ _ _ _ _ _ A), E in Hp.
  destruct (Hp Hev) as (ses' & k' & n' & cs & Hn' & I' & E1 & E2 & E3 & E4 & E5 & E6 & Hf). exists ses'.
  destruct A. split; cbn [t_ring t_cursor t_input]; [exists k', n'; split; [lia|done]|try congruence..].
  - by rewrite E5, join_app, E6, at_written0.
  - rewrite E5. by apply Forall_app.
Qed.

Lemma inv_mark n evs : thread_inv n evs -> thread_inv (n + 1) (evs ++ [FtMarkGap]).
Proof.
  intros (pre & post & new & p & -> & Ho & Hu & Ha). unfold thread_inv. rewrite run_snoc. cbn [thread_step]. set (t := run (pre ++ post)) in *.
  exists pre, (post ++ [FtMarkGap]), (new ++ []), p. rewrite <- app_assoc.
  split_and!; [done|done|eapply uses_later; [done|by rewrite app_nil_r|done..]|]. rewrite app_nil_r.
  cbn [t_running]. intros Hr. destruct (Ha Hr) as [ses A]. pose proof A as [(k & m & Hm & I) Hw Er]. exists (session_step ses CallMarkGap).
  destruct A. split; auto; [exists (k + 1), (m + 1); split; [lia|by apply session_inv_gap]|]. cbn [session_step ses_ring t_ring]. by rewrite at_ring0.
Qed.

(** What a round does. *)
Inductive round_result (t : fft_thread) (ses : session) (t' : fft_thread) : Prop :=
| RoundGap : t' = mk_thread (t_ring t) (mk_cursor (next_seq (t_ring t)) (generation (t_ring t))) (t_input t)
                    (fft_gap (t_fft t)) true (t_stop t) (t_published t) -> round_result t ses t'
| RoundEmpty : t' = mk_thread (t_ring t) (t_cursor t) (t_input t) (t_fft t) true (t_stop t) (t_published t) -> round_result t ses t'
| RoundData b : let o := ServerFft.ref_run exec (t_fft t) (samples b) in
    log_read (ring_log (ses_ring ses)) (cur_generation (ses_cursor ses)) (cur_next_seq (ses_cursor ses)) = Data b ->
    Z.even (zlen b) = true -> zlen b <= slot_size r0 ->
    t' = mk_thread (t_ring t) (mk_cursor (cur_next_seq (t_cursor t) + 1) (cur_generation (t_cursor t))) (blit (t_input t) 0 b)
           (state_of o) (negb (failed o)) (t_stop t || failed o) (t_published t) -> round_result t ses t'.

Lemma round_cases n t0 t new p ses : attached n t0 t new p ses -> fft_wf (t_fft t) -> n < 2 ^ 64 ->
  round_result t ses (fft_compute_round exec false true t).
Proof.
  intros A Hw Hn. pose proof A as [(k & m & Hm & I) Hw0 Er Ec _ _ Hb Hsz Hi]. unfold fft_compute_round. cbn [orb negb].
  unfold rtlsdr_ring_read_copy. pose proof (si_wf _ _ _ _ I) as W. rewrite Er in W. rewrite pull_log by done.
  pose proof (session_answers _ _ _ _ I (wf_gen _ Hw0) ltac:(lia)) as Hl. rewrite Er, Ec in Hl.
  destruct Hl as [Hl|Hl]; rewrite Hl; [by apply RoundGap|].
  destruct (ses_written ses !! length (ses_read ses)) as [b|] eqn:Eb; [|by apply RoundEmpty].
  pose proof (Forall_lookup_1 _ _ _ _ Hb Eb) as [He Hbs]. cbn [pull_of]. rewrite Hsz, (proj2 (Z.leb_le _ _) Hbs).
  cbn [rr_result rr_cursor rr_dst rr_len default from_option id Z.eqb negb].
  rewrite blit_0, process_fft_prefix by (done || lia). rewrite <- (blit_0 (t_input t) b) by lia.
  apply (RoundData _ _ _ b); [by rewrite Er, Ec|done|done|].
  destruct (ServerFft.ref_run exec (t_fft t) (samples b)) as [s|s]; cbn; by rewrite ?orb_true_r, ?orb_false_r.
Qed.

Lemma uses_now t0 t new p : uses t0 t new p -> t_stop t = false ->
  fft_wf (t_fft t) /\ frame_len (t_fft t) = frame_len s0 /\ is_u 64 (fft_seq (t_fft t)).
Proof.
  intros [] Hs. unfold result_of in us_fft0. rewrite Hs in us_fft0.
  destruct (fft_ref_run_wf _ _ _ _ us_wf0 us_fft0) as (? & E1 & E2 & E3). split_and!; [done| |].
  - unfold frame_len in *. by rewrite E2, E3.
  - rewrite (proj1 (ref_run_frames _ _ _ _ us_wf0 us_seq0 us_fft0)). auto with cint.
Qed.

(** Nothing but the position in the ring changed. *)
Lemma inv_idle n n' evs ev : thread_inv n evs -> n <= n' ->
  t_fft (run (evs ++ [ev])) = t_fft (run evs) -> t_published (run (evs ++ [ev])) = t_published (run evs) ->
  t_stop (run (evs ++ [ev])) = t_stop (run evs) ->
  (t_running (run (evs ++ [ev])) = true -> t_running (run evs) = true /\ t_ring (run (evs ++ [ev])) = t_ring (run evs) /\
     t_cursor (run (evs ++ [ev])) = t_cursor (run evs) /\ t_input (run (evs ++ [ev])) = t_input (run evs)) ->
  thread_inv n' (evs ++ [ev]).
Proof.
  intros (pre & post & new & p & -> & Ho & Hu & Ha) Hn Hf Hp Hs Hr.
  exists pre, (post ++ [ev]), new, p. split; [by rewrite app_assoc|]. split; [done|]. split.
  - rewrite <- (app_nil_r new). eapply uses_later; [exact Hu|by rewrite app_nil_r|done|done|]. intros H. by apply Hr.
  - intros H. destruct (Hr H) as (Hrun & E1 & E2 & E3). destruct (Ha Hrun) as [ses A]. exists ses.
    destruct A as [(k & m & ? & ?)]. split; rewrite ?E1, ?E2, ?E3; auto. exists k, m. split; [lia|done].
Qed.

Lemma inv_data n evs b ses pre post new p : evs = pre ++ post -> origin pre -> uses (run pre) (run evs) new p ->
  attached n (run pre) (run evs) new p ses -> n + 1 < 2 ^ 64 -> t_stop (run evs) = false ->
  log_read (ring_log (ses_ring ses)) (cur_generation (ses_cursor ses)) (cur_next_seq (ses_cursor ses)) = Data b ->
  Z.even (zlen b) = true -> zlen b <= slot_size r0 ->
  let o := ServerFft.ref_run exec (t_fft (run evs)) (samples b) in
  run (evs ++ [FtRound false true])
  = mk_thread (t_ring (run evs)) (mk_cursor (cur_next_seq (t_cursor (run evs)) + 1) (cur_generation (t_cursor (run evs))))
      (blit (t_input (run evs)) 0 b) (state_of o) (negb (failed o)) (t_stop (run evs) || failed o) (t_published (run evs)) ->
  thread_inv (n + 1) (evs ++ [FtRound false true]).
Proof.
  intros He Ho Hu A Hn Hst Hl Hb Hbs o Et. pose proof A as [(k & m & Hm & I) Hw].
  pose proof (session_inv_read _ m k ses (slot_size r0) I (wf_gen _ Hw) ltac:(lia)) as I'.
  rewrite (ServerRunFacts.session_read_data ses (slot_size r0) b) in I' by (done || apply I).
  exists pre, (post ++ [FtRound false true]), new, (p ++ b). rewrite Et. split; [by rewrite He, app_assoc|]. split; [done|].
  destruct A, Hu. split; [|intros _; eexists; split; [exists k, (m + 1); split; [lia|exact I']|..]];
    cbn [ses_ring ses_cursor ses_written ses_read t_ring t_cursor t_input t_fft t_published t_stop]; auto.
  - split; cbn [t_fft t_published t_stop t_running]; auto.
    + rewrite <- at_written0, <- at_read0, <- ServerRunFacts.mjoin_snoc. apply ServerRunFacts.mjoin_prefix, I'.
    + by rewrite zlen_app, Z.even_add, us_even0, Hb.
    + rewrite samples_app, fft_ref_run_app, us_fft0 by done. unfold result_of. rewrite Hst. cbn [t_stop t_fft and_then orb].
      fold o. by destruct o.
    + rewrite Hst. cbn [orb]. by intros ->.
  - by rewrite at_cursor0.
  - by rewrite ServerRunFacts.mjoin_snoc, at_read0.
  - by rewrite zlen_blit.
Qed.

Lemma inv_round n evs stopping current : thread_inv n evs -> n + 1 < 2 ^ 64 -> thread_inv (n + 1) (evs ++ [FtRound stopping current]).
Proof.
  intros Hinv Hn. pose proof (run_snoc evs (FtRound stopping current)) as Et. cbn [thread_step] in Et.
  destruct (t_running (run evs)) eqn:Hr; [|apply (inv_idle n); rewrite ?Et; auto; lia || congruence].
  destruct (stopping || negb current) eqn:Hc.
  { unfold fft_compute_round in Et. rewrite Hc in Et. apply (inv_idle n); rewrite ?Et; auto; lia || done. }
  assert (stopping = false /\ current = true) as [-> ->] by (by destruct stopping, current).
  pose proof Hinv as (pre & post & new & p & He & Ho & Hu & Ha). destruct (Ha Hr) as [ses A].
  assert (Hst : t_stop (run evs) = false).
  { destruct (t_stop (run evs)) eqn:E; [|done]. rewrite (us_stop _ _ _ _ Hu E) in Hr. discriminate Hr. }
  destruct (uses_now _ _ _ _ Hu Hst) as (Hw & Hfl & Hq).
  destruct (round_cases n _ _ _ _ _ A Hw ltac:(lia)) as [E|E|b o Hl Hb Hbs E]; rewrite E in Et.
  - exists (evs ++ [FtRound false true]), [], [], []. rewrite app_nil_r, Et. split; [done|]. split; [right; exists evs; by rewrite Et|]. split.
    + split; cbn [t_fft t_published t_stop]; auto using fft_gap_wf; [by rewrite app_nil_r| |by rewrite Hst].
      unfold result_of. cbn [t_stop t_fft]. by rewrite Hst.
    + intros _. pose proof A as [(k & m & Hm & I) _ Er]. assert (W : ring_wf (t_ring (run evs))) by (rewrite <- Er; apply I).
      exists (session_start (t_ring (run evs))). destruct A. split; auto. exists 0, 0. split; [lia|]. by apply session_inv_start.
  - apply (inv_idle n); rewrite ?Et; auto; lia.
  - by eapply inv_data.
Qed.

Lemma thread_inv_run evs : events_cost evs < 2 ^ 64 -> thread_inv (events_cost evs) evs.
Proof.
  induction evs as [|ev evs IH] using rev_ind; intros Hn.
  - exists [], [], [], []. split; [done|]. split; [by left|]. split; [by split|]. intros _. exists (session_start r0). split; auto.
    exists 0, 0. split; [done|]. by apply session_inv_start.
  - rewrite thread_cost_snoc in *. pose proof (thread_cost_nonneg evs). destruct ev as [stopping buf| |stopping current]; cbn [event_cost] in *.
    + pose proof (zlen_nonneg buf). rewrite Z.add_assoc. apply inv_publish; [apply IH|]; lia.
    + apply inv_mark, IH. lia.
    + apply inv_round; [apply IH|]; lia.
Qed.

End Run.
End FftThreadFacts.

Module FftThreadProps.
Import Ring Publish ServerFft ServerFftFacts FftThread FftThreadFacts.
Import Dsp DspRef.

(** C18.  The spectra come from the captured stream, whatever the interleaving of the producer
    and the spectrum thread (with fewer than 2^64 calls on the ring), for a ring with slots of
    an even size and an input buffer of that size: since it took its cursor, at its start or
    behind the last gap it noticed, the thread has used the first bytes published since then,
    all in order and without a break, and its state is that of the sample-at-a-time reference
    on exactly these bytes.  It asked the server to stop exactly when a transform failed, where
    the reference ends too, with the hops before it in its state; as long as none fails it has
    published one spectrum per [fft_step * fft_accum] samples.  A back end whose transforms
    succeed never makes the thread stop the server. *)
Theorem fft_thread_stream exec r0 input0 s0 evs :
  ring_wf r0 -> Z.even (slot_size r0) = true -> zlen input0 = slot_size r0 -> fft_wf s0 -> is_u 64 (fft_seq s0) ->
  events_cost evs < 2 ^ 64 ->
  let run := thread_run exec (thread_start r0 input0 s0) in
  (exists pre post new p, evs = pre ++ post /\
     (pre = [] \/ exists pre', pre = pre' ++ [FtRound false true] /\ t_fft (run pre) = fft_gap (t_fft (run pre'))) /\
     t_published (run evs) = t_published (run pre) ++ new /\ p `prefix_of` new /\
     ServerFft.ref_run exec (t_fft (run pre)) (samples p)
       = (if t_stop (run evs) then Failed (t_fft (run evs)) else Done (t_fft (run evs))) /\
     (t_stop (run evs) = false -> fft_seq (t_fft (run evs)) = u64 (fft_seq (t_fft (run pre)) +
       (frame_pos (t_fft (run pre)) + zlen p / 2) / (fft_step s0 * fft_accum s0)))) /\
  ((forall l, (exec l).1 = true) -> t_stop (run evs) = false).
Proof.
  intros W0 Hev Hin Hs0 Hq0 Hn run.
  destruct (thread_inv_run exec r0 input0 s0 W0 Hev Hin Hs0 Hq0 evs Hn) as (pre & post & new & p & He & Ho & Hu & _).
  destruct Hu as [? ? ? Hf Hw Hq Hfl Hs]. unfold result_of in Hf. split.
  - exists pre, post, new, p. split_and!; auto. intros Hst. fold run in Hf. rewrite Hst in Hf.
    pose proof (proj1 (ref_run_frames _ _ _ _ Hw Hq Hf)) as Hseq. by rewrite DspFacts.zlen_samples, Hfl in Hseq.
  - intros Hex. pose proof (total_run exec (t_fft (run pre)) (samples p) Hex) as Ht. fold run in Hf. rewrite Hf in Ht.
    by destruct (t_stop (run evs)).
Qed.
(** A ring of two slots of four bytes; two blocks, one read, then an overrun. *)
Definition demo_ring : rtlsdr_ring := mk_ring (replicate 8 0) [0; 0] 2 4 1 1 0.
Definition demo_events : list fft_event :=
  [FtPublish false [1; 2; 3; 4; 5; 6; 7; 8]; FtRound false true; FtRound false true; FtRound false true;
   FtPublish false (replicate 12 9); FtRound false true; FtPublish false [7; 7; 8; 8]; FtRound false true].
Lemma demo_ring_ok : ring_wf demo_ring.
Proof.
  split; try (vm_compute; split; congruence); try (vm_compute; congruence).
  intros s Hs. assert (s = 0 \/ s = 1) as [-> | ->] by (cbn in Hs; lia); vm_compute; split; congruence.
Defined.
Lemma fft_thread_stream_witness :
  let t := thread_run ServerFftProps.works (thread_start demo_ring (replicate 4 0) ServerFftProps.demo_fft) demo_events in
  t_stop t = false /\ fft_generation (t_fft t) = 2 /\ fft_nsamples (t_fft t) = 2 /\ t_running t = true.
Proof.
  split; [|vm_compute; done].
  apply (fft_thread_stream ServerFftProps.works demo_ring (replicate 4 0) ServerFftProps.demo_fft demo_events demo_ring_ok eq_refl eq_refl); [|done..].
  split; cbn; lia.
Defined.
End FftThreadProps.
