(* ===== verification/ServerSteps.v ===== *)
(** * Life cycle of the stream server's clients ([src/src/rtl_stream_server.c])

    The accepting thread, the workers, the reaper and the callers of
    [rtlsdr_server_request_stop] share the table of clients under [client_lock].  Each
    critical section is an executable function on the shared state; [step] interleaves
    them.  The state also has what the kernel keeps: the open client sockets, which of
    them are shut down, and where each worker thread is.

    The theorems: no socket leaks, none is closed twice or used after it was closed, the
    count is right, and a stop leaves no worker behind on a socket that can still block. *)

From stdpp Require Import gmap.
From S2P Require Import Prelude Proto.

Module ServerSteps.
Import Proto.

Definition RTLSTREAM_MAX_CLIENTS : nat := 32.

Inductive client_state := RTL_CLIENT_FREE | RTL_CLIENT_STARTING | RTL_CLIENT_RUNNING
  | RTL_CLIENT_DONE | RTL_CLIENT_JOINING.

#[global] Instance client_state_eq_dec : EqDecision client_state.
Proof. solve_decision. Defined.

(** A worker thread: none, before and behind admission in [client_handler], behind the
    last use of its client, returned. *)
Inductive worker := WNone | WStarting | WServing | WFinished | WReturned.

#[global] Instance worker_eq_dec : EqDecision worker.
Proof. solve_decision. Defined.

(** The fields of [struct rtlsdr_client] that others than its worker look at; [cl_worker]
    stands for [thread]. *)
Record client := mk_client {
  cl_fd : Z;
  cl_state : client_state;
  cl_mode : Z;
  cl_epoch : Z;
  cl_generation : Z;
  cl_worker : worker;
}.

Record server := mk_server {
  clients : list client;
  client_count : Z;
  stopping : bool;
  stopped : bool;           (* a request_stop has been through its locked loop *)
  fft_generation : Z;
  capture_epoch : Z;
  new_freq : Z;
  reaping : option nat;     (* the client between the reaper's two critical sections *)
  open_fds : gset Z;
  shut_fds : gset Z;
}.

Definition set_clients (s : server) (c : list client) : server :=
  mk_server c (client_count s) (stopping s) (stopped s) (fft_generation s) (capture_epoch s)
    (new_freq s) (reaping s) (open_fds s) (shut_fds s).

Definition set_state (c : client) (st : client_state) (w : worker) : client :=
  mk_client (cl_fd c) st (cl_mode c) (cl_epoch c) (cl_generation c) w.

Definition is_live_state (st : client_state) : bool :=
  bool_decide (st = RTL_CLIENT_STARTING) || bool_decide (st = RTL_CLIENT_RUNNING).

Definition is_free (c : client) : bool := bool_decide (cl_state c = RTL_CLIENT_FREE).

(** The first free slot. *)
Fixpoint find_free (cs : list client) : option nat :=
  match cs with
  | [] => None
  | c :: cs => if is_free c then Some O else S <$> find_free cs
  end.

(** [rtlsdr_server_init] as far as clients are concerned. *)
Definition init : server :=
  mk_server (replicate RTLSTREAM_MAX_CLIENTS (mk_client (-1) RTL_CLIENT_FREE 0 0 0 WNone))
    0 false false 1 1 0 None ∅ ∅.

(** [accept_client] behind a successful [accept] that returned [fd]: [nb] is
    [nonblocking]'s result, [create] that of [pthread_create]. *)
Definition accept_client (fd mode nb create : Z) (s : server) : server :=
  if (nb <? 0) || negb (capture_epoch s =? 1) then s
  else
    match (if stopping s then None else find_free (clients s)) with
    | None => s
    | Some i =>
        if negb (create =? 0)
        then set_clients s (<[i := mk_client (-1) RTL_CLIENT_FREE mode 1 (fft_generation s) WNone]> (clients s))
        else
          mk_server (<[i := mk_client fd RTL_CLIENT_STARTING mode 1 (fft_generation s) WStarting]> (clients s))
            (client_count s + 1) (stopping s) (stopped s) (fft_generation s) (capture_epoch s)
            (new_freq s) (reaping s) ({[fd]} ∪ open_fds s) (shut_fds s ∖ {[fd]})
    end.

(** The worker's two assignments of its state, and its return. *)
Definition worker_running (i : nat) (s : server) : server :=
  set_clients s (alter (fun c => set_state c RTL_CLIENT_RUNNING WServing) i (clients s)).
Definition worker_done (i : nat) (s : server) : server :=
  set_clients s (alter (fun c => set_state c RTL_CLIENT_DONE WFinished) i (clients s)).
Definition worker_return (i : nat) (s : server) : server :=
  set_clients s (alter (fun c => set_state c (cl_state c) WReturned) i (clients s)).

(** Whether the reaper takes a client. *)
Definition reap_takes (all : bool) (c : client) : bool :=
  negb (is_free c || bool_decide (cl_state c = RTL_CLIENT_JOINING)
        || (negb all && negb (bool_decide (cl_state c = RTL_CLIENT_DONE)))).

(** The reaper's first critical section for a client it takes. *)
Definition reap_mark (i : nat) (s : server) : server :=
  mk_server (alter (fun c => set_state c RTL_CLIENT_JOINING (cl_worker c)) i (clients s))
    (client_count s) (stopping s) (stopped s) (fft_generation s) (capture_epoch s) (new_freq s)
    (Some i) (open_fds s) (shut_fds s).

(** The second one, behind [pthread_join]. *)
Definition reap_close (i : nat) (s : server) : server :=
  match clients s !! i with
  | None => s
  | Some c =>
      mk_server
        (<[i := mk_client (-1) RTL_CLIENT_FREE (cl_mode c) (cl_epoch c) (cl_generation c) WNone]> (clients s))
        (client_count s - 1) (stopping s) (stopped s) (fft_generation s) (capture_epoch s)
        (new_freq s) None (open_fds s ∖ {[cl_fd c]}) (shut_fds s)
  end.

(** [reap_clients] when every worker it joins has returned: the loop over the table. *)
Definition reap_one (all : bool) (s : server) (i : nat) : server :=
  match clients s !! i with
  | Some c => if reap_takes all c then reap_close i (reap_mark i s) else s
  | None => s
  end.
Definition reap_clients (all : bool) (s : server) : server :=
  fold_left (reap_one all) (seq 0 RTLSTREAM_MAX_CLIENTS) s.

(** The sockets a loop over the clients shuts down. *)
Definition shutdown_list (f : client -> bool) (s : server) : list Z :=
  cl_fd <$> filter (fun c => f c) (clients s).

Definition do_shutdown (fds : list Z) (s : server) : server :=
  mk_server (clients s) (client_count s) (stopping s) (stopped s) (fft_generation s)
    (capture_epoch s) (new_freq s) (reaping s) (open_fds s) (list_to_set fds ∪ shut_fds s).

(** [rtlsdr_server_request_stop]: the atomic store, then the locked loop. *)
Definition request_stop_store (s : server) : server :=
  mk_server (clients s) (client_count s) true (stopped s) (fft_generation s) (capture_epoch s)
    (new_freq s) (reaping s) (open_fds s) (shut_fds s).

Definition stop_fds (s : server) : list Z := shutdown_list (fun c => is_live_state (cl_state c)) s.

Definition request_stop_clients (s : server) : server :=
  let s := do_shutdown (stop_fds s) s in
  mk_server (clients s) (client_count s) (stopping s) true (fft_generation s) (capture_epoch s)
    (new_freq s) (reaping s) (open_fds s) (shut_fds s).

(** [rtlsdr_server_notify_frequency_change]: the update under [data_mutex]; the loop over
    the starting clients only shuts the reading side, which [shut_fds] does not record. *)
Definition notify_epoch (freq : Z) (s : server) : server :=
  mk_server (clients s) (client_count s) (stopping s) (stopped s) (fft_generation s)
    (u64 (capture_epoch s + 1)) freq (reaping s) (open_fds s) (shut_fds s).

Definition notify_fds (s : server) : list Z :=
  shutdown_list (fun c => bool_decide (cl_state c = RTL_CLIENT_STARTING)) s.

(** [fft_gap]: the new generation under [fft_mutex], then the loop under [client_lock]. *)
Definition fft_gap_generation (s : server) : server :=
  mk_server (clients s) (client_count s) (stopping s) (stopped s) (u64 (fft_generation s + 1))
    (capture_epoch s) (new_freq s) (reaping s) (open_fds s) (shut_fds s).

Definition gap_fds (generation : Z) (s : server) : list Z :=
  shutdown_list (fun c => is_live_state (cl_state c) && (cl_mode c =? RTLSTREAM_MODE_FFT)
                          && negb (cl_generation c =? generation)) s.

(** What a step does to sockets, for the record. *)
Inductive action := Silent | Shutdown (fds : list Z) | Close (fd : Z).

(** Interleavings.  [accept] returns a socket that is not open; [pthread_join] waits for
    the worker's return; [reap_clients(srv, 1)] runs only behind a stop. *)
Inductive step : server -> action -> server -> Prop :=
| StepAccept s fd mode nb create :
    0 <= fd -> fd ∉ open_fds s -> step s Silent (accept_client fd mode nb create s)
| StepRunning s i c :
    clients s !! i = Some c -> cl_worker c = WStarting -> step s Silent (worker_running i s)
| StepDone s i c :
    clients s !! i = Some c -> cl_worker c = WStarting \/ cl_worker c = WServing ->
    step s Silent (worker_done i s)
| StepReturn s i c :
    clients s !! i = Some c -> cl_worker c = WFinished -> step s Silent (worker_return i s)
| StepReapMark s i c all :
    clients s !! i = Some c -> reaping s = None -> reap_takes all c = true ->
    (all = true -> stopped s = true) -> step s Silent (reap_mark i s)
| StepReapClose s i c :
    clients s !! i = Some c -> reaping s = Some i -> cl_worker c = WReturned ->
    step s (Close (cl_fd c)) (reap_close i s)
| StepStop s : step s Silent (request_stop_store s)
| StepStopClients s :
    stopping s = true -> step s (Shutdown (stop_fds s)) (request_stop_clients s)
| StepNotify s freq : step s Silent (notify_epoch freq s)
| StepNotifyClients s : step s (Shutdown (notify_fds s)) s
| StepGap s : step s Silent (fft_gap_generation s)
| StepGapClients s generation :
    step s (Shutdown (gap_fds generation s)) (do_shutdown (gap_fds generation s) s).

Inductive reachable : server -> Prop :=
| reach_init : reachable init
| reach_step s a s' : reachable s -> step s a s' -> reachable s'.

End ServerSteps.

Module ServerStepsFacts.
Import Proto ServerSteps.

Definition working (w : worker) : Prop := w = WStarting \/ w = WServing.

(** The table of clients and the open sockets: the sockets of the clients in use are open
    and distinct, and there are no others. *)
Record table_ok (cs : list client) (count : Z) (fds : gset Z) : Prop := {
  to_length : length cs = RTLSTREAM_MAX_CLIENTS;
  to_count : count = zlen (filter (fun c => cl_state c <> RTL_CLIENT_FREE) cs);
  to_free : forall i c, cs !! i = Some c -> cl_state c = RTL_CLIENT_FREE -> cl_fd c = -1;
  to_used : forall i c, cs !! i = Some c -> cl_state c <> RTL_CLIENT_FREE ->
    0 <= cl_fd c /\ cl_fd c ∈ fds;
  to_distinct : forall i j c d, cs !! i = Some c -> cs !! j = Some d ->
    cl_state c <> RTL_CLIENT_FREE -> cl_state d <> RTL_CLIENT_FREE -> cl_fd c = cl_fd d -> i = j;
  to_owned : forall fd, fd ∈ fds -> exists i c, cs !! i = Some c /\
    cl_state c <> RTL_CLIENT_FREE /\ cl_fd c = fd;
}.

(** A client, its worker, the reaper and a stop. *)
Record slot_ok (s : server) (i : nat) (c : client) : Prop := {
  so_free : cl_state c = RTL_CLIENT_FREE <-> cl_worker c = WNone;
  so_starting : cl_state c = RTL_CLIENT_STARTING -> cl_worker c = WStarting;
  so_running : cl_state c = RTL_CLIENT_RUNNING -> cl_worker c = WServing;
  so_done : cl_state c = RTL_CLIENT_DONE -> cl_worker c = WFinished \/ cl_worker c = WReturned;
  so_joining : cl_state c = RTL_CLIENT_JOINING ->
    reaping s = Some i /\ (working (cl_worker c) -> stopped s = true);
  so_shut : stopped s = true -> working (cl_worker c) -> cl_fd c ∈ shut_fds s;
}.

Record inv (s : server) : Prop := {
  inv_table : table_ok (clients s) (client_count s) (open_fds s);
  inv_slots : forall i c, clients s !! i = Some c -> slot_ok s i c;
  inv_reaping : forall i, reaping s = Some i ->
    exists c, clients s !! i = Some c /\ cl_state c <> RTL_CLIENT_FREE;
  inv_stopped : stopped s = true -> stopping s = true;
}.

Lemma find_free_spec cs i :
  find_free cs = Some i -> exists c, cs !! i = Some c /\ cl_state c = RTL_CLIENT_FREE.
Proof.
  revert i. induction cs as [|c cs IH]; intros i; [done|]. simpl. unfold is_free.
  case_bool_decide as E; [intros [= <-]; by exists c|].
  destruct (find_free cs) as [j|] eqn:Ef; [|done]. intros [= <-]. by apply IH.
Qed.

(** Entering, leaving and staying in use. *)
Definition used (c : client) : nat := if decide (cl_state c <> RTL_CLIENT_FREE) then 1 else 0.

Lemma count_insert cs i c c' :
  cs !! i = Some c ->
  zlen (filter (fun c => cl_state c <> RTL_CLIENT_FREE) (<[i := c']> cs)) + Z.of_nat (used c)
  = zlen (filter (fun c => cl_state c <> RTL_CLIENT_FREE) cs) + Z.of_nat (used c').
Proof.
  unfold zlen, used. revert i. induction cs as [|d cs IH]; intros [|i] E; simpl in *; [done..| |].
  - injection E as ->. rewrite !filter_cons. repeat case_decide; simpl; lia.
  - specialize (IH i E). rewrite !filter_cons. repeat case_decide; simpl in *; lia.
Qed.

Lemma used_1 c : cl_state c <> RTL_CLIENT_FREE -> used c = 1%nat.
Proof. intros. unfold used. by rewrite decide_True. Qed.
Lemma used_0 c : cl_state c = RTL_CLIENT_FREE -> used c = 0%nat.
Proof. intros E. unfold used. rewrite decide_False by (rewrite E; auto). done. Qed.

Lemma table_keep cs n fds i c c' :
  table_ok cs n fds -> cs !! i = Some c -> cl_fd c' = cl_fd c ->
  (cl_state c' = RTL_CLIENT_FREE <-> cl_state c = RTL_CLIENT_FREE) ->
  table_ok (<[i := c']> cs) n fds.
Proof.
  intros [] Hi Hfd Hst. pose proof (lookup_lt_Some _ _ _ Hi) as Hlt. split.
  - by rewrite length_insert.
  - pose proof (count_insert cs i c c' Hi) as Hc. unfold used in Hc.
    repeat case_decide; simpl in Hc; try lia; tauto.
  - intros j d [(<-&<-&_)|[_ Hj]]%list_lookup_insert_Some; [|eauto].
    rewrite Hst, Hfd. eauto.
  - intros j d [(<-&<-&_)|[_ Hj]]%list_lookup_insert_Some; [|eauto].
    rewrite Hst, Hfd. eauto.
  - intros j k d e [(<-&<-&_)|[Hij Hj]]%list_lookup_insert_Some
      [(<-&<-&_)|[Hik Hk]]%list_lookup_insert_Some; rewrite ?Hst, ?Hfd; eauto.
  - intros fd Hf. destruct (to_owned0 fd Hf) as (j&d&Hj&Hd&<-).
    destruct (decide (i = j)) as [->|Hne].
    + exists j, c'. rewrite list_lookup_insert_eq by done. simplify_eq. by rewrite Hst.
    + exists j, d. by rewrite list_lookup_insert_ne.
Qed.

Lemma table_enter cs n fds i c c' :
  table_ok cs n fds -> cs !! i = Some c -> cl_state c = RTL_CLIENT_FREE ->
  cl_state c' <> RTL_CLIENT_FREE -> 0 <= cl_fd c' -> cl_fd c' ∉ fds ->
  table_ok (<[i := c']> cs) (n + 1) ({[cl_fd c']} ∪ fds).
Proof.
  intros [] Hi Hc Hc' Hfd Hnew. pose proof (lookup_lt_Some _ _ _ Hi) as Hlt. split.
  - by rewrite length_insert.
  - pose proof (count_insert cs i c c' Hi) as E. rewrite used_0, used_1 in E by done. lia.
  - intros j d [(<-&<-&_)|[_ Hj]]%list_lookup_insert_Some; [done|eauto].
  - intros j d [(<-&<-&_)|[_ Hj]]%list_lookup_insert_Some Hd; rewrite elem_of_union, elem_of_singleton; [auto|].
    destruct (to_used0 j d Hj Hd). auto.
  - intros j k d e [(<-&<-&_)|[Hij Hj]]%list_lookup_insert_Some
      [(<-&<-&_)|[Hik Hk]]%list_lookup_insert_Some H1 H2 H3; [done|exfalso..|eauto].
    + destruct (to_used0 k e Hk H2). by rewrite <- H3 in *.
    + destruct (to_used0 j d Hj H1). by rewrite H3 in *.
  - intros fd [->%elem_of_singleton|Hf]%elem_of_union.
    + exists i, c'. by rewrite list_lookup_insert_eq.
    + destruct (to_owned0 fd Hf) as (j&d&Hj&Hd&<-). exists j, d.
      rewrite list_lookup_insert_ne by congruence. done.
Qed.

Lemma table_leave cs n fds i c c' :
  table_ok cs n fds -> cs !! i = Some c -> cl_state c <> RTL_CLIENT_FREE ->
  cl_state c' = RTL_CLIENT_FREE -> cl_fd c' = -1 ->
  table_ok (<[i := c']> cs) (n - 1) (fds ∖ {[cl_fd c]}).
Proof.
  intros [] Hi Hc Hc' Hfd. pose proof (lookup_lt_Some _ _ _ Hi) as Hlt. split.
  - by rewrite length_insert.
  - pose proof (count_insert cs i c c' Hi) as E. rewrite used_1, used_0 in E by done. lia.
  - intros j d [(<-&<-&_)|[_ Hj]]%list_lookup_insert_Some; [done|eauto].
  - intros j d [(<-&<-&_)|[Hij Hj]]%list_lookup_insert_Some Hd; [done|].
    destruct (to_used0 j d Hj Hd) as [? Hin]. split; [done|]. apply elem_of_difference. split; [done|].
    rewrite elem_of_singleton. intros E. apply Hij. by eapply (to_distinct0 i j c d).
  - intros j k d e [(<-&<-&_)|[Hij Hj]]%list_lookup_insert_Some
      [(<-&<-&_)|[Hik Hk]]%list_lookup_insert_Some H1 H2 H3; try done. eauto.
  - intros fd [Hf Hne]%elem_of_difference. destruct (to_owned0 fd Hf) as (j&d&Hj&Hd&<-).
    exists j, d. rewrite list_lookup_insert_ne; [done|]. intros ->. simplify_eq. set_solver.
Qed.

(** Changing the state of a client in use, and nothing else. *)
Lemma alter_insert {A} (f : A -> A) (l : list A) i x : l !! i = Some x -> alter f i l = <[i := f x]> l.
Proof.
  revert i. induction l as [|y l IH]; intros [|i] E; simpl in *; simplify_eq; [done|].
  f_equal. by apply IH.
Qed.

Lemma slot_other s s' i c :
  slot_ok s i c -> reaping s' = reaping s -> stopped s' = stopped s -> shut_fds s ⊆ shut_fds s' ->
  slot_ok s' i c.
Proof. intros [] Hr Hs Hf. split; auto; rewrite ?Hr, ?Hs; auto. Qed.

Lemma inv_restate s i c c' :
  inv s -> clients s !! i = Some c -> cl_state c <> RTL_CLIENT_FREE ->
  cl_fd c' = cl_fd c -> cl_state c' <> RTL_CLIENT_FREE ->
  slot_ok s i c' -> inv (set_clients s (<[i := c']> (clients s))).
Proof.
  intros [T S R St] Hi Hc Hfd Hc' Hok. split; cbn; auto.
  - eapply table_keep; eauto. tauto.
  - intros j d [(<-&<-&_)|[Hij Hj]]%list_lookup_insert_Some.
    + by eapply slot_other.
    + eapply slot_other; eauto.
  - intros j Hj. destruct (R j Hj) as (d&Hd&Hs). destruct (decide (i = j)) as [->|].
    + exists c'. rewrite list_lookup_insert_eq by (by eapply lookup_lt_Some). done.
    + exists d. by rewrite list_lookup_insert_ne.
Qed.

Lemma working_used s i c : slot_ok s i c -> cl_worker c <> WNone -> cl_state c <> RTL_CLIENT_FREE.
Proof. intros [] Hw E. by apply Hw, so_free0. Qed.

Lemma inv_accept s fd mode nb create :
  inv s -> 0 <= fd -> fd ∉ open_fds s -> inv (accept_client fd mode nb create s).
Proof.
  intros I Hfd Hnew. unfold accept_client. destruct (_ || _); [done|].
  destruct (stopping s) eqn:Es; [done|]. destruct (find_free (clients s)) as [i|] eqn:Ef; [|done].
  destruct (find_free_spec _ _ Ef) as (c&Hi&Hc). destruct I as [T S R St].
  assert (Hns : stopped s = false) by (destruct (stopped s); [by rewrite St in Es|done]).
  assert (HR : forall c' j, reaping s = Some j ->
    exists d, <[i := c']> (clients s) !! j = Some d /\ cl_state d <> RTL_CLIENT_FREE).
  { intros c' j Hj. destruct (R j Hj) as (d&Hd&Hs). exists d. rewrite list_lookup_insert_ne; [done|].
    intros ->. simplify_eq. }
  destruct (create =? 0); cbn [negb]; split; cbn; auto; try (intros ?; congruence).
  - by eapply (table_enter _ _ _ _ c (mk_client fd RTL_CLIENT_STARTING mode 1 (fft_generation s) WStarting)).
  - intros j d [(<-&<-&_)|[Hij Hj]]%list_lookup_insert_Some.
    + split; cbn; try done. congruence.
    + destruct (S j d Hj). split; cbn; auto. congruence.
  - eapply table_keep; eauto; [|done]. symmetry. by apply (to_free _ _ _ T i c).
  - intros j d [(<-&<-&_)|[Hij Hj]]%list_lookup_insert_Some; [|by destruct (S j d Hj)].
    split; cbn; try done. by intros _ [?|?].
Qed.

Lemma inv_workers s i c f :
  inv s -> clients s !! i = Some c -> cl_worker c <> WNone ->
  cl_fd (f c) = cl_fd c -> cl_state (f c) <> RTL_CLIENT_FREE -> slot_ok s i (f c) ->
  inv (set_clients s (alter f i (clients s))).
Proof.
  intros I Hi Hw Hfd Hs Hok. erewrite alter_insert by done.
  eapply inv_restate; eauto. eapply working_used; eauto. by apply I.
Qed.

Lemma inv_reap_mark s i c all :
  inv s -> clients s !! i = Some c -> reaping s = None -> reap_takes all c = true ->
  (all = true -> stopped s = true) -> inv (reap_mark i s).
Proof.
  intros I Hi Hr Ht Hall. unfold reap_takes, is_free in Ht.
  rewrite negb_true_iff, !orb_false_iff, !bool_decide_eq_false in Ht. destruct Ht as [[Hf Hj] Hd].
  destruct I as [T S R St]. unfold reap_mark. erewrite alter_insert by done. split; cbn; auto.
  - eapply table_keep; eauto; cbn; done.
  - intros j d [(<-&<-&_)|[Hij Hjd]]%list_lookup_insert_Some.
    + destruct (S i c Hi). split; cbn; try done.
      * split; [done|]. intros E. by apply so_free0 in E.
      * intros _. split; [done|]. intros Hw. destruct all; [auto|]. cbn in Hd.
        rewrite negb_false_iff, bool_decide_eq_true in Hd.
        destruct (so_done0 Hd) as [E|E]; rewrite E in Hw; by destruct Hw.
    + destruct (S j d Hjd). split; cbn; auto. intros E. apply so_joining0 in E as [E _]. congruence.
  - intros j [= <-]. eexists. rewrite list_lookup_insert_eq by (by eapply lookup_lt_Some). done.
Qed.

Lemma inv_reap_close s i c :
  inv s -> clients s !! i = Some c -> reaping s = Some i -> inv (reap_close i s).
Proof.
  intros [T S R St] Hi Hr. destruct (R i Hr) as (d&Hd&Hs). simplify_eq.
  unfold reap_close. rewrite Hi. split; cbn; auto; [by eapply table_leave|..|done].
  intros j d [(<-&<-&_)|[Hij Hj]]%list_lookup_insert_Some.
  - split; cbn; try done. by intros _ [?|?].
  - destruct (S j d Hj). split; cbn; auto. intros E. apply so_joining0 in E as [E _]. congruence.
Qed.

Lemma inv_shutdown s fds : inv s -> inv (do_shutdown fds s).
Proof.
  intros [T S R St]. split; cbn; auto. intros i c Hi. eapply slot_other; eauto; cbn; [done..|].
  set_solver.
Qed.

Lemma elem_shutdown_list f s i c :
  clients s !! i = Some c -> f c = true -> cl_fd c ∈ shutdown_list f s.
Proof.
  intros Hi Hf. unfold shutdown_list. apply list_elem_of_fmap. exists c. split; [done|].
  apply list_elem_of_filter. split; [by rewrite Hf|]. by eapply list_elem_of_lookup_2.
Qed.

Lemma inv_stop_clients s : inv s -> stopping s = true -> inv (request_stop_clients s).
Proof.
  intros I Hs. pose proof (inv_shutdown s (stop_fds s) I) as [T S R St].
  split; cbn in *; auto. intros i c Hi. pose proof (S i c Hi) as [F1 F2 F3 F4 F5 F6]. split; cbn in *; auto.
  - intros E. destruct (F5 E) as [? _]. auto.
  - intros _ Hw. destruct (stopped s) eqn:Es; [auto|].
    apply elem_of_union. left. rewrite elem_of_list_to_set. eapply elem_shutdown_list; [done|].
    unfold is_live_state. destruct (cl_state c) eqn:Ec; try done.
    + rewrite (proj1 F1 eq_refl) in Hw. by destruct Hw.
    + destruct (F4 eq_refl) as [E|E]; rewrite E in Hw; by destruct Hw.
    + destruct (F5 eq_refl) as [_ Hx]. by specialize (Hx Hw).
Qed.

Lemma inv_step s a s' : inv s -> step s a s' -> inv s'.
Proof.
  intros I H. destruct H; auto using inv_accept, inv_shutdown, inv_stop_clients.
  - eapply inv_workers; [done|done|congruence|done|done|]. cbn. pose proof (inv_slots _ I _ _ H) as [].
    split; cbn; try done. intros Hs _. apply so_shut0; [done|by left].
  - eapply inv_workers; [done|done|destruct H0; congruence|done|done|].
    split; cbn; auto; try done. by intros _ [?|?].
  - assert (Hne : cl_worker c <> WNone) by congruence.
    pose proof (inv_slots _ I _ _ H) as Hok. pose proof (working_used _ _ _ Hok Hne) as Hu. destruct Hok.
    eapply inv_workers; [done|done|done|done|done|]. split; cbn; auto.
    + split; [done|discriminate].
    + intros E. apply so_starting0 in E. congruence.
    + intros E. apply so_running0 in E. congruence.
    + intros E. destruct (so_joining0 E). split; [done|]. by intros [?|?].
    + by intros _ [?|?].
  - by eapply inv_reap_mark.
  - by eapply inv_reap_close.
  - destruct I as [T S R St]. split; cbn; auto. intros i c Hi. by destruct (S i c Hi).
  - destruct I as [T S R St]. split; cbn; auto. intros i c Hi. by destruct (S i c Hi).
  - destruct I as [T S R St]. split; cbn; auto. intros i c Hi. by destruct (S i c Hi).
Qed.

Lemma inv_init : inv init.
Proof.
  split; cbn [clients client_count open_fds reaping stopped init]; try done.
  - split; try done.
    + intros i c Hi _. by apply lookup_replicate in Hi as [-> _].
    + intros i c Hi Hs. by apply lookup_replicate in Hi as [-> _].
    + intros i j c d Hi _ Hs. by apply lookup_replicate in Hi as [-> _].
  - intros i c Hi. apply lookup_replicate in Hi as [-> _]. split; try done.
Qed.

Lemma reachable_inv s : reachable s -> inv s.
Proof. induction 1; eauto using inv_init, inv_step. Qed.

(** Reaping one returned client frees its slot and touches no other. *)
Definition quiet (s : server) : Prop :=
  forall i c, clients s !! i = Some c -> cl_worker c = WNone \/ cl_worker c = WReturned.

Lemma reap_one_spec s i :
  inv s -> quiet s -> stopped s = true -> reaping s = None -> (i < RTLSTREAM_MAX_CLIENTS)%nat ->
  let s' := reap_one true s i in
  inv s' /\ quiet s' /\ stopped s' = true /\ reaping s' = None /\
  (exists c, clients s' !! i = Some c /\ cl_state c = RTL_CLIENT_FREE) /\
  (forall j, i <> j -> clients s' !! j = clients s !! j).
Proof.
  intros I Q Hs Hr Hi. pose proof (to_length _ _ _ (inv_table _ I)) as Hl.
  destruct (lookup_lt_is_Some_2 (clients s) i) as [c Hc]; [lia|]. cbn. unfold reap_one. rewrite Hc.
  destruct (reap_takes true c) eqn:Et.
  - pose proof (inv_reap_mark s i c true I Hc Hr Et (fun _ => Hs)) as I1.
    assert (Hc1 : clients (reap_mark i s) !! i = Some (set_state c RTL_CLIENT_JOINING (cl_worker c))).
    { cbn. by rewrite list_lookup_alter_eq, Hc. }
    pose proof (inv_reap_close _ _ _ I1 Hc1 eq_refl) as I2.
    split; [done|]. revert I2. unfold reap_close. rewrite Hc1. intros _. cbn.
    assert (Hlt : (i < length (alter (fun c0 => set_state c0 RTL_CLIENT_JOINING (cl_worker c0)) i (clients s)))%nat)
      by (rewrite length_alter; lia).
    split_and!; auto.
    + intros j d. cbn. intros [(<-&<-&_)|[Hij Hj]]%list_lookup_insert_Some; [by left|].
      rewrite list_lookup_alter_ne in Hj by done. by apply (Q j).
    + eexists. by rewrite list_lookup_insert_eq.
    + intros j Hij. by rewrite list_lookup_insert_ne, list_lookup_alter_ne.
  - split_and!; auto. exists c. split; [done|]. unfold reap_takes, is_free in Et. cbn in Et.
    rewrite negb_false_iff, orb_false_r, orb_true_iff, !bool_decide_eq_true in Et.
    destruct Et as [?|E]; [done|]. destruct (so_joining _ _ _ (inv_slots _ I _ _ Hc) E). congruence.
Qed.

Lemma reap_clients_spec s n :
  inv s -> quiet s -> stopped s = true -> reaping s = None -> (n <= RTLSTREAM_MAX_CLIENTS)%nat ->
  let s' := fold_left (reap_one true) (seq 0 n) s in
  inv s' /\ quiet s' /\ stopped s' = true /\ reaping s' = None /\
  (forall i c, (i < n)%nat -> clients s' !! i = Some c -> cl_state c = RTL_CLIENT_FREE).
Proof.
  intros I Q Hs Hr. induction n as [|n IH]; intros Hn; [cbn; split_and!; auto; lia|].
  destruct IH as (I1&Q1&S1&R1&F1); [lia|]. rewrite seq_S, fold_left_app. cbn.
  destruct (reap_one_spec _ n I1 Q1 S1 R1) as (I2&Q2&S2&R2&(c0&Hc0&Hf0)&F2); [lia|].
  split_and!; auto. intros i c Hi Hc. destruct (decide (n = i)) as [->|Hne]; [by simplify_eq|].
  rewrite F2 in Hc by done. apply (F1 i); [lia|done].
Qed.

Lemma all_free_empty cs n fds :
  table_ok cs n fds -> (forall i c, cs !! i = Some c -> cl_state c = RTL_CLIENT_FREE) ->
  n = 0 /\ fds = ∅.
Proof.
  intros [] Hf. split.
  - rewrite to_count0. unfold zlen. clear -Hf. induction cs as [|c cs IH]; [done|].
    rewrite filter_cons, decide_False by (intros H; apply H, (Hf 0%nat); done).
    apply IH. intros i d Hi. by apply (Hf (S i)).
  - apply leibniz_equiv, elem_of_equiv_empty. intros fd Hin.
    destruct (to_owned0 fd Hin) as (i&c&Hi&Hne&_). apply Hne. by eapply Hf.
Qed.

End ServerStepsFacts.

(** ** Properties *)

Module ServerStepsProps.
Import Proto ServerSteps ServerStepsFacts.

(** C6.  In every reachable state of the server, whatever the interleaving of accepts,
    workers, reaper, retunes, gaps and stops: [client_count] is the number of slots in
    use, the open client sockets are exactly those of the slots in use, and no two slots
    share one.  So no connection leaks and no slot is lost. *)
Theorem clients_own_sockets s :
  reachable s ->
  client_count s = zlen (filter (fun c => cl_state c <> RTL_CLIENT_FREE) (clients s)) /\
  (forall fd, fd ∈ open_fds s <-> exists i c, clients s !! i = Some c /\
     cl_state c <> RTL_CLIENT_FREE /\ cl_fd c = fd) /\
  (forall i j c d, clients s !! i = Some c -> clients s !! j = Some d ->
     cl_state c <> RTL_CLIENT_FREE -> cl_state d <> RTL_CLIENT_FREE -> cl_fd c = cl_fd d -> i = j).
Proof.
  intros R. destruct (inv_table _ (reachable_inv _ R)). split_and!; auto.
  intros fd. split; [auto|]. intros (i&c&Hi&Hs&<-). by eapply to_used0.
Qed.

(** A server with one client that has finished, about to be closed. *)
Definition demo_reaping : server :=
  reap_mark 0 (worker_return 0 (worker_done 0 (accept_client 7 RTLSTREAM_MODE_IQ 0 0 init))).

Lemma demo_reaping_reachable : reachable demo_reaping.
Proof.
  unfold demo_reaping. eapply reach_step; [|by eapply (StepReapMark _ 0 _ false)].
  eapply reach_step; [|by eapply (StepReturn _ 0)].
  eapply reach_step; [|by eapply (StepDone _ 0); [|left]].
  eapply reach_step; [apply reach_init|]. apply StepAccept; [lia|]. apply not_elem_of_empty.
Defined.

Lemma clients_own_sockets_witness :
  client_count demo_reaping = 1 /\
  client_count demo_reaping = zlen (filter (fun c => cl_state c <> RTL_CLIENT_FREE) (clients demo_reaping)).
Proof.
  split; [reflexivity|]. apply (clients_own_sockets demo_reaping demo_reaping_reachable).
Defined.

(** C4.  Sockets are never used after they are closed: every step that shuts sockets down
    names open sockets of clients whose worker has not finished; every [close] is of an
    open socket, which is then gone, of a client whose worker has returned; and no other
    step closes anything. *)
Theorem socket_actions_safe s a s' :
  reachable s -> step s a s' ->
  match a with
  | Shutdown fds => forall fd, fd ∈ fds -> fd ∈ open_fds s /\
      exists i c, clients s !! i = Some c /\ cl_fd c = fd /\ working (cl_worker c)
  | Close fd => fd ∈ open_fds s /\ open_fds s' = open_fds s ∖ {[fd]} /\
      forall i c, clients s !! i = Some c -> cl_fd c = fd -> cl_worker c = WReturned
  | Silent => open_fds s ⊆ open_fds s'
  end.
Proof.
  intros R H. pose proof (reachable_inv _ R) as [T S Rp St].
  assert (Hlive : forall f, (forall c, f c = true -> is_live_state (cl_state c) = true) ->
    forall fd, fd ∈ shutdown_list f s -> fd ∈ open_fds s /\
      exists i c, clients s !! i = Some c /\ cl_fd c = fd /\ working (cl_worker c)).
  { intros f Hf fd (c&->&[Hc Hin]%list_elem_of_filter)%list_elem_of_fmap.
    apply list_elem_of_lookup_1 in Hin as [i Hi]. apply Is_true_true, Hf in Hc.
    unfold is_live_state in Hc. rewrite orb_true_iff, !bool_decide_eq_true in Hc.
    destruct (S i c Hi). split.
    - eapply (to_used _ _ _ T i c Hi). destruct Hc as [-> | ->]; done.
    - exists i, c. split_and!; auto. unfold working. destruct Hc; auto. }
  destruct H; cbn; try done.
  - unfold accept_client. repeat case_match; cbn; try done. apply union_subseteq_r.
  - destruct (Rp i H0) as (d&Hd&Hs). simplify_eq. destruct (to_used _ _ _ T i c H Hs) as [_ Hin].
    split; [done|]. unfold reap_close. rewrite H. split; [done|].
    intros j d Hj E. destruct (decide (cl_state d = RTL_CLIENT_FREE)) as [Hf|Hf].
    + rewrite (to_free _ _ _ T j d Hj Hf) in E. destruct (to_used _ _ _ T i c H Hs). lia.
    + assert (j = i) as -> by (by eapply (to_distinct _ _ _ T)). by simplify_eq.
  - apply Hlive. done.
  - apply Hlive. intros c E. unfold is_live_state. rewrite E. done.
  - apply Hlive. intros c E. rewrite !andb_true_iff in E. apply E.
Qed.

Lemma socket_actions_safe_witness :
  7 ∈ open_fds demo_reaping /\ open_fds (reap_close 0 demo_reaping) = open_fds demo_reaping ∖ {[7]}.
Proof.
  destruct (socket_actions_safe demo_reaping (Close 7) (reap_close 0 demo_reaping)
    demo_reaping_reachable) as (H1&H2&_).
  - apply (StepReapClose demo_reaping 0
      (mk_client 7 RTL_CLIENT_JOINING RTLSTREAM_MODE_IQ 1 1 WReturned)); reflexivity.
  - exact (conj H1 H2).
Defined.

(** Stopping: behind [rtlsdr_server_request_stop]'s loop every worker that may still
    be using its socket has it shut down, so none can block on it, also when it was being
    accepted or reaped meanwhile; and once the workers have returned,
    [reap_clients(srv, 1)] frees every slot, closes every socket and leaves a count of
    0. *)
Theorem stop_drains s :
  reachable s -> stopped s = true ->
  (forall i c, clients s !! i = Some c -> working (cl_worker c) -> cl_fd c ∈ shut_fds s) /\
  (quiet s -> reaping s = None ->
   let s' := reap_clients true s in
   (forall i c, clients s' !! i = Some c -> cl_state c = RTL_CLIENT_FREE) /\
   client_count s' = 0 /\ open_fds s' = ∅).
Proof.
  intros R Hs. pose proof (reachable_inv _ R) as I. split.
  - intros i c Hi Hw. by apply (so_shut _ _ _ (inv_slots _ I i c Hi)).
  - intros Q Hr. pose proof (reap_clients_spec s RTLSTREAM_MAX_CLIENTS I Q Hs Hr (le_n _)) as Hx.
    unfold reap_clients. cbv zeta in Hx |- *. set (s' := fold_left _ _ _) in *. clearbody s'.
    destruct Hx as (I'&_&_&_&F).
    assert (Hf : forall i c, clients s' !! i = Some c -> cl_state c = RTL_CLIENT_FREE).
    { intros i c Hi. apply (F i); [|done]. rewrite <- (to_length _ _ _ (inv_table _ I')).
      by eapply lookup_lt_Some. }
    split; [done|]. by eapply all_free_empty; [apply I'|].
Qed.

(** A stop while one client is being served. *)
Definition demo_stopped : server :=
  worker_return 0 (worker_done 0 (request_stop_clients (request_stop_store
    (accept_client 7 RTLSTREAM_MODE_FFT 0 0 init)))).

Lemma demo_stopped_reachable : reachable demo_stopped.
Proof.
  unfold demo_stopped. eapply reach_step; [|by eapply (StepReturn _ 0)].
  eapply reach_step; [|by eapply (StepDone _ 0); [|left]].
  eapply reach_step; [|by apply StepStopClients]. eapply reach_step; [|apply StepStop].
  eapply reach_step; [apply reach_init|]. apply StepAccept; [lia|]. apply not_elem_of_empty.
Defined.

Lemma stop_drains_witness : open_fds (reap_clients true demo_stopped) = ∅.
Proof.
  destruct (stop_drains demo_stopped demo_stopped_reachable eq_refl) as [_ H].
  apply H; [|reflexivity]. intros i c Hi.
  assert (F : Forall (fun c => cl_worker c = WNone \/ cl_worker c = WReturned) (clients demo_stopped))
    by (apply (bool_decide_unpack _); vm_compute; exact I).
  exact (Forall_lookup_1 _ _ _ _ F Hi).
Defined.

End ServerStepsProps.
