(* ===== verification/ServerLoop.v ===== *)
(** * The accepting thread of the stream server ([rtlsdr_server_run] of
    [src/src/rtl_stream_server.c])

    [Module ServerLoop]: [rtlsdr_server_run] as a machine that takes one step per call or
    critical section, among the workers, the spectrum thread and the callers of
    [rtlsdr_server_request_stop], [rtlsdr_server_notify_frequency_change] and [fft_gap].  Its
    clients are those of [ServerSteps]; the control pipe is modelled by whether it holds bytes.

    [ServerLoopProps]: the machine refines the steps of [ServerSteps]; it sleeps only when there
    is nothing to do; and behind a stop it returns, with every client gone. *)

From stdpp Require Import gmap.
From S2P Require Import Prelude Proto ServerSteps.

Module ServerLoop.
Import Proto ServerSteps.

(** What [poll] reports: the control pipe, and for each listening socket trouble ([POLLERR],
    [POLLHUP] or [POLLNVAL]) and a connection. *)
Record revents := mk_rev { rev_control : bool; rev_bad1 : bool; rev_in1 : bool; rev_bad2 : bool; rev_in2 : bool }.
Definition rev_bad (r : revents) (i : nat) : bool := if bool_decide (i = 1%nat) then rev_bad1 r else rev_bad2 r.
Definition rev_in (r : revents) (i : nat) : bool := if bool_decide (i = 1%nat) then rev_in1 r else rev_in2 r.
Definition rev_any (r : revents) : bool := rev_control r || rev_bad1 r || rev_in1 r || rev_bad2 r || rev_in2 r.

(** Where [rtlsdr_server_run] is.  [P_reap] and [P_join] are in [reap_clients], before the first
    critical section for a client and in [pthread_join]; with the events of the round for
    [reap_clients(srv, 0)], with [None] for [reap_clients(srv, 1)].  [P_store], [P_clients] and
    [P_wake] are in the call of [rtlsdr_server_request_stop]. *)
Inductive pc :=
  | P_enter | P_refused
  | P_start | P_head | P_poll | P_drain (r : revents)
  | P_reap (k : option revents) (i : nat) | P_join (k : option revents) (i : nat)
  | P_accept (i : nat) (r : revents)
  | P_store | P_clients | P_wake | P_join_fft | P_leave | P_returned.

Inductive fft_worker := FNone | FRunning | FReturned.
#[global] Instance fft_worker_eq_dec : EqDecision fft_worker.
Proof. solve_decision. Defined.

(** [pending]: the control pipe holds bytes; [woken]: the clients whose worker has written to it
    at its end; [stored] and [locked]: how many callers of [rtlsdr_server_request_stop] are
    before the loop over the clients and before the write to the pipe. *)
Record loop := mk_loop {
  srv : server;
  at_ : pc;
  result : Z;
  initialized : bool;
  run_active : bool;
  fft_plan : bool;
  fft_thread_started : bool;
  fft_thread : fft_worker;
  pending : bool;
  woken : gset nat;
  stored : nat;
  locked : nat;
}.

Definition goto (p : pc) (l : loop) : loop :=
  mk_loop (srv l) p (result l) (initialized l) (run_active l) (fft_plan l) (fft_thread_started l) (fft_thread l)
    (pending l) (woken l) (stored l) (locked l).
Definition set_srv (s : server) (l : loop) : loop :=
  mk_loop s (at_ l) (result l) (initialized l) (run_active l) (fft_plan l) (fft_thread_started l) (fft_thread l)
    (pending l) (woken l) (stored l) (locked l).
Definition set_result (r : Z) (l : loop) : loop :=
  mk_loop (srv l) (at_ l) r (initialized l) (run_active l) (fft_plan l) (fft_thread_started l) (fft_thread l)
    (pending l) (woken l) (stored l) (locked l).
Definition set_active (b : bool) (l : loop) : loop :=
  mk_loop (srv l) (at_ l) (result l) (initialized l) b (fft_plan l) (fft_thread_started l) (fft_thread l)
    (pending l) (woken l) (stored l) (locked l).
Definition set_fft (b : bool) (w : fft_worker) (l : loop) : loop :=
  mk_loop (srv l) (at_ l) (result l) (initialized l) (run_active l) (fft_plan l) b w
    (pending l) (woken l) (stored l) (locked l).
Definition set_pending (b : bool) (l : loop) : loop :=
  mk_loop (srv l) (at_ l) (result l) (initialized l) (run_active l) (fft_plan l) (fft_thread_started l) (fft_thread l)
    b (woken l) (stored l) (locked l).
Definition set_woken (w : gset nat) (l : loop) : loop :=
  mk_loop (srv l) (at_ l) (result l) (initialized l) (run_active l) (fft_plan l) (fft_thread_started l) (fft_thread l)
    (pending l) w (stored l) (locked l).
Definition set_callers (a b : nat) (l : loop) : loop :=
  mk_loop (srv l) (at_ l) (result l) (initialized l) (run_active l) (fft_plan l) (fft_thread_started l) (fft_thread l)
    (pending l) (woken l) a b.

(** [wake_control]: when the pipe is full the write fails, but the pipe holds bytes. *)
Definition wake_control (l : loop) : loop := set_pending true l.

(** What the calls answer: [pthread_create] for the spectrum thread, [poll] (whether a failure
    is [EINTR]), and [accept] with, behind it, [nonblocking] and [pthread_create]. *)
Inductive answer :=
  | N_go
  | N_create (r : Z)
  | N_poll_fails (eintr : bool) | N_poll (r : revents)
  | N_accept_again | N_accept_fails | N_accept (fd nb create : Z).

(** [result = -1; goto done]. *)
Definition fails (l : loop) : loop := goto P_store (set_result (-1) l).

(** A step of [rtlsdr_server_run]; [None] while the call it is in has not answered so. *)
Definition runner_step (a : answer) (l : loop) : option loop :=
  let s := srv l in
  match at_ l, a with
  | P_enter, N_go =>
      if negb (initialized l) || run_active l || stopping s then Some (goto P_refused (set_result (-1) l))
      else Some (goto P_start (set_active true l))
  | P_start, N_create r =>
      if negb (fft_plan l) then Some (goto P_head l)
      else if negb (r =? 0) then Some (fails l)
      else Some (goto P_head (set_fft true FRunning l))
  | P_head, N_go => Some (goto (if stopping s then P_store else P_poll) l)
  | P_poll, N_poll_fails eintr => Some (if eintr then goto P_head l else fails l)
  | P_poll, N_poll r => if eqb (rev_control r) (pending l) && rev_any r then Some (goto (P_drain r) l) else None
  | P_drain r, N_go => Some (goto (P_reap (Some r) 0) (set_pending (pending l && negb (rev_control r)) l))
  | P_reap k i, N_go =>
      match clients s !! i with
      | None => Some (goto (match k with Some r => P_accept 1 r | None => P_join_fft end) l)
      | Some c =>
          if reap_takes (bool_decide (k = None)) c then Some (goto (P_join k i) (set_srv (reap_mark i s) l))
          else Some (goto (P_reap k (S i)) l)
      end
  | P_join k i, N_go =>
      match clients s !! i with
      | Some c =>
          if bool_decide (cl_worker c = WReturned)
          then Some (goto (P_reap k (S i)) (set_woken (woken l ∖ {[i]}) (set_srv (reap_close i s) l)))
          else None
      | None => None
      end
  | P_accept i r, a =>
      if bool_decide (i < 3)%nat && negb (stopping s) then
        if rev_bad r i then (match a with N_go => Some (fails l) | _ => None end)
        else if rev_in r i then
          match a with
          | N_accept_again => Some (goto (P_accept (S i) r) l)
          | N_accept_fails => Some (fails l)
          | N_accept fd nb create =>
              if (0 <=? fd) && bool_decide (fd ∉ open_fds s) then
                Some (goto (P_accept (S i) r)
                  (set_srv (accept_client fd (if bool_decide (i = 1%nat) then RTLSTREAM_MODE_IQ else RTLSTREAM_MODE_FFT) nb create s) l))
              else None
          | _ => None
          end
        else (match a with N_go => Some (goto (P_accept (S i) r) l) | _ => None end)
      else (match a with N_go => Some (goto P_head l) | _ => None end)
  | P_store, N_go => Some (goto P_clients (set_srv (request_stop_store s) l))
  | P_clients, N_go => Some (goto P_wake (set_srv (request_stop_clients s) l))
  | P_wake, N_go => Some (goto (P_reap None 0) (wake_control l))
  | P_join_fft, N_go =>
      if fft_thread_started l then
        if bool_decide (fft_thread l = FReturned) then Some (goto P_leave (set_fft false FNone l)) else None
      else Some (goto P_leave l)
  | P_leave, N_go => Some (goto P_returned (set_active false l))
  | _, _ => None
  end.

(** What the other threads do towards their end: the workers, the callers of
    [rtlsdr_server_request_stop] behind its store, and the spectrum thread. *)
Inductive finishing : loop -> loop -> Prop :=
  | F_running l i c : clients (srv l) !! i = Some c -> cl_worker c = WStarting ->
      finishing l (set_srv (worker_running i (srv l)) l)
  | F_done l i c : clients (srv l) !! i = Some c -> cl_worker c = WStarting \/ cl_worker c = WServing ->
      finishing l (set_srv (worker_done i (srv l)) l)
  | F_wake l i c : clients (srv l) !! i = Some c -> cl_worker c = WFinished -> i ∉ woken l ->
      finishing l (wake_control (set_woken ({[i]} ∪ woken l) l))
  | F_return l i c : clients (srv l) !! i = Some c -> cl_worker c = WFinished -> i ∈ woken l ->
      finishing l (set_srv (worker_return i (srv l)) l)
  | F_stop_clients l n : stored l = S n -> stopping (srv l) = true ->
      finishing l (set_callers n (S (locked l)) (set_srv (request_stop_clients (srv l)) l))
  | F_stop_wake l n : locked l = S n -> finishing l (wake_control (set_callers (stored l) n l))
  | F_fft_return l : fft_thread l = FRunning -> finishing l (set_fft (fft_thread_started l) FReturned l).

(** What may come from outside at any time: a new call of [rtlsdr_server_request_stop], the
    parts of [rtlsdr_server_notify_frequency_change], and of [fft_gap]. *)
Inductive outside : loop -> loop -> Prop :=
  | O_stop l : outside l (set_callers (S (stored l)) (locked l) (set_srv (request_stop_store (srv l)) l))
  | O_notify l freq : outside l (set_srv (notify_epoch freq (srv l)) l)
  | O_notify_wake l : outside l (wake_control l)
  | O_gap l : outside l (set_srv (fft_gap_generation (srv l)) l)
  | O_gap_clients l generation : outside l (set_srv (do_shutdown (gap_fds generation (srv l)) (srv l)) l).

(** The accepting thread and the others on their way; that [poll] fails, or is interrupted, is
    left to the outside. *)
Definition poll_fails (a : answer) : bool := match a with N_poll_fails _ => true | _ => false end.
Inductive internal : loop -> loop -> Prop :=
  | I_runner l a l' : poll_fails a = false -> runner_step a l = Some l' -> internal l l'
  | I_finishing l l' : finishing l l' -> internal l l'.
Inductive loop_step : loop -> loop -> Prop :=
  | L_internal l l' : internal l l' -> loop_step l l'
  | L_poll_fails l eintr l' : runner_step (N_poll_fails eintr) l = Some l' -> loop_step l l'
  | L_outside l l' : outside l l' -> loop_step l l'.

(** The server behind [rtlsdr_server_init], with or without a spectrum. *)
Definition loop_init (plan : bool) : loop := mk_loop init P_enter 0 true false plan false FNone false ∅ 0 0.
End ServerLoop.

Module ServerLoopFacts.
Import Proto ServerSteps ServerStepsFacts ServerLoop.

(** The client [pthread_join] waits for. *)
Definition joining (p : pc) : option nat := match p with P_join _ i => Some i | _ => None end.
(** Behind the loop over the clients in [rtlsdr_server_request_stop]. *)
Definition behind_stop (p : pc) : bool :=
  match p with P_wake | P_reap None _ | P_join None _ | P_join_fft | P_leave | P_returned => true | _ => false end.
(** How many slots [reap_clients(srv, 1)] has been through. *)
Definition passed (p : pc) : nat :=
  match p with
  | P_reap None i | P_join None i => i
  | P_join_fft | P_leave | P_returned => RTLSTREAM_MAX_CLIENTS
  | _ => 0
  end.
Definition active (p : pc) : bool := match p with P_enter | P_refused | P_returned => false | _ => true end.
Definition left (p : pc) : bool := match p with P_leave | P_returned => true | _ => false end.
(** The reaper is still to come to the slot. *)
Definition ahead (p : pc) (j : nat) : Prop := match p with P_reap _ i | P_join _ i => (i <= j)%nat | _ => False end.

Record linv (l : loop) : Prop := {
  li_reach : reachable (srv l);
  li_reaping : reaping (srv l) = joining (at_ l);
  li_stopping : at_ l = P_clients -> stopping (srv l) = true;
  li_stopped : behind_stop (at_ l) = true -> stopped (srv l) = true;
  li_free : forall j c, (j < passed (at_ l))%nat -> clients (srv l) !! j = Some c -> cl_state c = RTL_CLIENT_FREE;
  li_fft : fft_thread_started l = bool_decide (fft_thread l <> FNone);
  li_left : left (at_ l) = true -> fft_thread l = FNone;
  li_active : run_active l = active (at_ l);
  li_woken : forall i, i ∈ woken l -> exists c, clients (srv l) !! i = Some c /\ (cl_worker c = WFinished \/ cl_worker c = WReturned);
  li_sleep : at_ l = P_poll -> stopping (srv l) = true -> pending l = true \/ (0 < stored l + locked l)%nat;
  li_done : forall j c, clients (srv l) !! j = Some c -> cl_state c = RTL_CLIENT_DONE -> j ∈ woken l -> pending l = false -> ahead (at_ l) j;
  li_fresh : at_ l = P_enter -> fft_thread l = FNone;
  li_finished : forall r i c, at_ l = P_join (Some r) i -> clients (srv l) !! i = Some c -> ~ working (cl_worker c);
}.

Lemma linv_slot l i c : linv l -> clients (srv l) !! i = Some c -> slot_ok (srv l) i c.
Proof. intros I. apply inv_slots, reachable_inv, I. Qed.
Lemma linv_length l : linv l -> length (clients (srv l)) = RTLSTREAM_MAX_CLIENTS.
Proof. intros I. eapply to_length, inv_table, reachable_inv, I. Qed.

Lemma lookup_alter_cases {A} (f : A -> A) (l : list A) i j x : alter f i l !! j = Some x ->
  (exists y, i = j /\ l !! i = Some y /\ x = f y) \/ i <> j /\ l !! j = Some x.
Proof.
  destruct (decide (i = j)) as [<-|Hij]; [|rewrite list_lookup_alter_ne by done; auto].
  rewrite list_lookup_alter_eq. intros (y & -> & Hy)%fmap_Some. left. by exists y.
Qed.

(** A step of a worker on its own slot. *)
Lemma linv_worker l i c f : linv l -> clients (srv l) !! i = Some c -> cl_worker c <> WNone ->
  reachable (set_clients (srv l) (alter f i (clients (srv l)))) ->
  cl_state (f c) <> RTL_CLIENT_FREE ->
  (i ∈ woken l -> (cl_worker (f c) = WFinished \/ cl_worker (f c) = WReturned) /\ cl_state (f c) = cl_state c) ->
  (working (cl_worker (f c)) -> working (cl_worker c)) ->
  linv (set_srv (set_clients (srv l) (alter f i (clients (srv l)))) l).
Proof.
  intros I Hi Hw R Hs Hk Hwork. pose proof (linv_slot l i c I Hi) as Hok. destruct I.
  assert (Hf : cl_state c <> RTL_CLIENT_FREE) by (intros E; by apply Hw, Hok).
  split; cbn [srv at_ fft_thread fft_thread_started run_active woken pending stored locked set_srv]; auto.
  - intros j d Hj. cbn. intros [(d'&<-&Hl&->)|[Hij Hl]]%lookup_alter_cases; [|by apply (li_free0 j d)].
    exfalso. apply Hf. by apply (li_free0 i).
  - intros j Hj. cbn. destruct (decide (i = j)) as [<-|Hij].
    + exists (f c). rewrite list_lookup_alter_eq, Hi. by split; [|apply Hk].
    + destruct (li_woken0 j Hj) as (d & Hd & ?). exists d. by rewrite list_lookup_alter_ne.
  - intros j d. cbn. intros [(d'&<-&Hl&->)|[Hij Hl]]%lookup_alter_cases Ed Hj Hp; [|by apply (li_done0 j d)].
    simplify_eq. apply (li_done0 i c); auto. by destruct (Hk Hj) as [_ <-].
  - intros r j d Ep. cbn. intros [(d'&<-&Hl&->)|[Hij Hl]]%lookup_alter_cases; [|by apply (li_finished0 r j d)].
    simplify_eq. intros Hn%Hwork. by apply (li_finished0 r i c).
Qed.

Lemma reach_by s a s' : reachable s -> step s a s' -> reachable s'.
Proof. intros. by eapply reach_step. Qed.

Lemma linv_finishing l l' : linv l -> finishing l l' -> linv l'.
Proof.
  intros I H. destruct H as [l i c Hi Hw|l i c Hi Hw|l i c Hi Hw Hn|l i c Hi Hw Hn|l n Hn Hs|l n Hn|l Hf].
  - apply (linv_worker l i c); [done|done|congruence|eapply reach_by; [apply I|by eapply StepRunning]|done| |rewrite Hw; by left].
    intros Hin. destruct (li_woken _ I i Hin) as (d & Hd & [?|?]); congruence.
  - apply (linv_worker l i c); [done|done|destruct Hw; congruence|eapply reach_by; [apply I|by eapply StepDone]|done| |by intros [?|?]].
    intros Hin. destruct (li_woken _ I i Hin) as (d & Hd & [?|?]); destruct Hw; congruence.
  - destruct I. split; cbn; auto.
    + intros j [->%elem_of_singleton|Hj]%elem_of_union; [|by apply li_woken0]. exists c. auto.
    + intros j d _ _ _ [=].
  - pose proof (linv_slot l i c I Hi) as Hok.
    apply (linv_worker l i c); [done|done|congruence|eapply reach_by; [apply I|by eapply StepReturn]| |by auto|by intros [?|?]].
    intros E. apply (so_free _ _ _ Hok) in E. congruence.
  - destruct I. split; cbn; auto; [eapply reach_by; [done|by apply StepStopClients]|].
    intros _ _. right. lia.
  - destruct I. split; cbn; auto. intros j d _ _ _ [=].
  - destruct I. split; cbn; auto.
    + by rewrite li_fft0, Hf.
    + intros Hl. specialize (li_left0 Hl). congruence.
    + intros Hl. specialize (li_fresh0 Hl). congruence.
Qed.

Lemma linv_outside l l' : linv l -> outside l l' -> linv l'.
Proof.
  intros I H. destruct H; destruct I; split; cbn; auto; try (by eapply reach_by; [done|constructor]); try done.
  intros _ _. right. lia.
Qed.

(** The runner goes on to [p] without touching the clients. *)
Lemma linv_goto l p : linv l -> joining (at_ l) = None -> joining p = None -> (p = P_clients -> stopping (srv l) = true) ->
  (behind_stop p = true -> stopped (srv l) = true) ->
  (forall j c, (j < passed p)%nat -> clients (srv l) !! j = Some c -> cl_state c = RTL_CLIENT_FREE) ->
  (left p = true -> fft_thread l = FNone) -> active p = active (at_ l) ->
  (p = P_poll -> stopping (srv l) = false) ->
  (forall j c, clients (srv l) !! j = Some c -> cl_state c = RTL_CLIENT_DONE -> ahead (at_ l) j -> ahead p j) ->
  p <> P_enter -> linv (goto p l).
Proof.
  intros [] Hj Hj' Hc Hb Hf Hl Ha Hp Hd He. split; cbn; auto; try congruence.
  - intros E Es. rewrite (Hp E) in Es. done.
  - intros j c Hi Es Hw E. by apply (Hd j c), (li_done0 j c).
  - intros r i c ->. done.
Qed.

(** Going on with another result, and out of the loop. *)
Lemma linv_result l r : linv l -> linv (set_result r l).
Proof. intros []. by split. Qed.
(** Steps between two calls that leave everything else alone. *)
Ltac goes_on Ep := apply linv_goto; cbn; try done; try lia; by rewrite Ep.
Lemma linv_fails l : linv l -> joining (at_ l) = None -> active (at_ l) = true -> (forall j, ~ ahead (at_ l) j) -> linv (fails l).
Proof.
  intros I Hj Ha Hd. apply (linv_goto (set_result (-1) l)); cbn; try done; try lia; [by apply linv_result|].
  intros j c _ _ H. by apply Hd in H.
Qed.
Ltac fails_by Ep := apply linv_fails; [done|by rewrite Ep|by rewrite Ep|rewrite Ep; cbn; tauto].

Lemma reap_next l k i c : linv l -> at_ l = P_reap k i -> clients (srv l) !! i = Some c -> reap_takes (bool_decide (k = None)) c = false ->
  linv (goto (P_reap k (S i)) l).
Proof.
  intros I Ep Hc Ht. pose proof (linv_slot l i c I Hc) as Hok. pose proof (li_reaping _ I) as Hr.
  assert (Hs : cl_state c = RTL_CLIENT_FREE \/ k <> None /\ cl_state c <> RTL_CLIENT_DONE).
  { unfold reap_takes, is_free in Ht. rewrite Ep in Hr. destruct (cl_state c) eqn:E; [by left|..].
    - destruct k; [by right|done].
    - destruct k; [by right|done].
    - by destruct k.
    - destruct (so_joining _ _ _ Hok E). by rewrite Hr in *. }
  apply linv_goto; [done|by rewrite Ep|done|done|..]; cbn.
  - intros Hk. apply I. by rewrite Ep.
  - destruct k; [lia|]. intros j d Hj Hd. destruct (decide (j = i)) as [->|Hji].
    + simplify_eq. by destruct Hs as [?|[? _]].
    + eapply (li_free _ I j); [rewrite Ep; cbn; lia|done].
  - done.
  - by rewrite Ep.
  - done.
  - intros j d Hj Ed. rewrite Ep. cbn. intros Hl. destruct (decide (j = i)) as [->|?]; [|lia].
    simplify_eq. destruct Hs as [?|[_ ?]]; congruence.
  - done.
Qed.

Lemma reap_takes_joins l k i c : linv l -> at_ l = P_reap k i -> clients (srv l) !! i = Some c -> reap_takes (bool_decide (k = None)) c = true ->
  linv (goto (P_join k i) (set_srv (reap_mark i (srv l)) l)).
Proof.
  intros I Ep Hc Ht. pose proof (linv_slot l i c I Hc) as Hok. pose proof (li_reaping _ I) as Hr. rewrite Ep in Hr. cbn in Hr.
  assert (R : reachable (reap_mark i (srv l))).
  { eapply reach_by; [apply I|]. eapply (StepReapMark _ i c); [done|done|done|].
    intros Hk%bool_decide_eq_true. apply I. by rewrite Ep, Hk. }
  destruct I. rewrite Ep in *. split; cbn; auto; try congruence.
  - intros j d Hj. intros [(d' & <- & Hd & ->)|[_ Hd]]%lookup_alter_cases; [|by apply (li_free0 j)].
    destruct k; cbn in Hj; lia.
  - intros j Hj. destruct (li_woken0 j Hj) as (d & Hd & Hw). destruct (decide (i = j)) as [<-|?].
    + exists (set_state d RTL_CLIENT_JOINING (cl_worker d)). by rewrite list_lookup_alter_eq, Hd.
    + exists d. by rewrite list_lookup_alter_ne.
  - intros j d. intros [(d' & <- & Hd & ->)|[_ Hd]]%lookup_alter_cases Es Hj Hp; [lia|by apply (li_done0 j d)].
  - intros r j d [= -> <-]. rewrite list_lookup_alter_eq, Hc. intros [= <-]. cbn.
    assert (Es : cl_state c = RTL_CLIENT_DONE) by (unfold reap_takes, is_free in Ht; by destruct (cl_state c)).
    destruct (so_done _ _ _ Hok Es) as [-> | ->]; by intros [?|?].
Qed.

Lemma join_closes l k i c : linv l -> at_ l = P_join k i -> clients (srv l) !! i = Some c -> cl_worker c = WReturned ->
  linv (goto (P_reap k (S i)) (set_woken (woken l ∖ {[i]}) (set_srv (reap_close i (srv l)) l))).
Proof.
  intros I Ep Hc Hw.
  assert (R : reachable (reap_close i (srv l))).
  { eapply reach_by; [apply I|]. eapply StepReapClose; [done| |done]. by rewrite (li_reaping _ I), Ep. }
  destruct I. rewrite Ep in *. revert R. unfold reap_close. rewrite Hc. intros R. split; cbn; auto; try congruence.
  - intros j d Hj. intros [(<- & <- & _)|[Hij Hd]]%list_lookup_insert_Some; [done|].
    apply (li_free0 j); [|done]. destruct k; cbn in *; lia.
  - intros j [Hj Hn]%elem_of_difference. apply not_elem_of_singleton in Hn. destruct (li_woken0 j Hj) as (d & Hd & ?). exists d.
    by rewrite list_lookup_insert_ne.
  - intros j d. intros [(<- & <- & _)|[Hij Hd]]%list_lookup_insert_Some Es [Hj _]%elem_of_difference Hp; [done|].
    specialize (li_done0 j d Hd Es Hj Hp). cbn in *. lia.
Qed.

Lemma accepts_linv l i r fd mode nb create : linv l -> at_ l = P_accept i r -> stopping (srv l) = false -> 0 <= fd -> fd ∉ open_fds (srv l) ->
  linv (goto (P_accept (S i) r) (set_srv (accept_client fd mode nb create (srv l)) l)).
Proof.
  intros I Ep Hs Hfd Hn.
  assert (R : reachable (accept_client fd mode nb create (srv l))) by (eapply reach_by; [apply I|by constructor]).
  assert (Hw : forall j, j ∈ woken l -> accept_client fd mode nb create (srv l) = srv l \/
    clients (accept_client fd mode nb create (srv l)) !! j = clients (srv l) !! j).
  { intros j Hj. destruct (li_woken _ I j Hj) as (d & Hd & Hk). unfold accept_client. rewrite Hs.
    destruct ((nb <? 0) || _); [by left|]. destruct (find_free (clients (srv l))) as [m|] eqn:Ef; [|by left]. right.
    destruct (find_free_spec _ _ Ef) as (e & He & Hfree).
    assert (m <> j).
    { intros ->. assert (e = d) as -> by congruence. apply (so_free _ _ _ (linv_slot l j d I He)) in Hfree. destruct Hk; congruence. }
    destruct (negb (create =? 0)); cbn; by rewrite list_lookup_insert_ne. }
  assert (Hsame : forall f : server -> bool, f = stopping \/ f = stopped -> f (accept_client fd mode nb create (srv l)) = f (srv l)).
  { intros f Hf. unfold accept_client. repeat case_match; by destruct Hf as [-> | ->]. }
  assert (Hr : reaping (accept_client fd mode nb create (srv l)) = reaping (srv l)) by (unfold accept_client; by repeat case_match).
  destruct I. rewrite Ep in *. split; cbn; auto; try congruence; try lia; try done.
  - by rewrite Hr, li_reaping0.
  - intros j Hj. destruct (Hw j Hj) as [->| ->]; by apply li_woken0.
  - intros j d Hd Es Hj Hp. eapply (li_done0 j d); auto. destruct (Hw j Hj) as [E|E]; [by rewrite E in Hd|by rewrite <- E].
Qed.

Lemma linv_accept l a l' i r : linv l -> at_ l = P_accept i r -> runner_step a l = Some l' -> linv l'.
Proof.
  intros I Ep. unfold runner_step. rewrite Ep.
  destruct (bool_decide (i < 3)%nat && negb (stopping (srv l))) eqn:Eb; [|destruct a; intros [= <-]; goes_on Ep].
  apply andb_true_iff in Eb as [_ Es%negb_true_iff].
  destruct (rev_bad r i); [destruct a; intros [= <-]; fails_by Ep|].
  destruct (rev_in r i); [|destruct a; intros [= <-]; goes_on Ep].
  destruct a as [|cr|eintr|rv| | |fd nb cr]; try done.
  - intros [= <-]. goes_on Ep.
  - intros [= <-]. fails_by Ep.
  - destruct (0 <=? fd) eqn:Ef; [|done]. case_bool_decide as Hn; [|done]. intros [= <-]. apply Z.leb_le in Ef. by apply accepts_linv.
Qed.

Lemma linv_runner l a l' : linv l -> runner_step a l = Some l' -> linv l'.
Proof.
  intros I. pose proof (linv_length l I) as Hlen.
  destruct (at_ l) as [| | | | |r|k i|k i|i r| | | | | |] eqn:Ep; [..|by eapply linv_accept| | | | | |];
    unfold runner_step; rewrite Ep; destruct a as [|cr|eintr|rv| | |fd nb cr]; try done.
  - destruct (negb (initialized l) || run_active l || stopping (srv l)) eqn:E; intros [= <-].
    + apply (linv_goto (set_result (-1) l)); cbn; try done; try lia; try (by rewrite Ep); by apply linv_result.
    + destruct I. rewrite Ep in *. split; cbn; auto; try done; lia.
  - destruct (negb (fft_plan l)); [intros [= <-]; goes_on Ep|].
    destruct (negb (cr =? 0)); intros [= <-]; [fails_by Ep|].
    destruct I. rewrite Ep in *. split; cbn; auto; done.
  - intros [= <-]. destruct (stopping (srv l)) eqn:Es; goes_on Ep.
  - destruct eintr; intros [= <-]; [goes_on Ep|fails_by Ep].
  - destruct (_ && _); intros [= <-]. goes_on Ep.
  - intros [= <-]. destruct I. rewrite Ep in *. split; cbn; auto; try done; lia.
  - destruct (clients (srv l) !! i) as [c|] eqn:Hc.
    + destruct (reap_takes _ c) eqn:Ht; intros [= <-]; [by eapply reap_takes_joins|by eapply reap_next].
    + intros [= <-]. apply lookup_ge_None_1 in Hc. apply linv_goto; try (by destruct k); [by rewrite Ep; destruct k| | |by rewrite Ep; destruct k|].
      * destruct k; [done|]. intros _. apply (li_stopped _ I). by rewrite Ep.
      * destruct k; cbn; [lia|]. intros j d Hj Hd. apply (li_free _ I j d); [|done]. rewrite Ep. cbn. lia.
      * intros j d Hd _. rewrite Ep. cbn. apply lookup_lt_Some in Hd. lia.
  - destruct (clients (srv l) !! i) as [c|] eqn:Hc; [|done]. case_bool_decide as Hw; intros [= <-]. by eapply join_closes.
  - intros [= <-]. destruct I. rewrite Ep in *. split; cbn; auto; try done. eapply reach_by; [done|constructor].
  - intros [= <-]. pose proof (li_stopping _ I Ep). destruct I. rewrite Ep in *. split; cbn; auto; try done.
    eapply reach_by; [done|by constructor].
  - intros [= <-]. destruct I. rewrite Ep in *. split; cbn; auto; try done; lia.
  - destruct (fft_thread_started l) eqn:Es.
    + case_bool_decide; intros [= <-]. destruct I. rewrite Ep in *. by split; cbn; auto.
    + intros [= <-]. pose proof (li_fft _ I) as Hf. rewrite Es in Hf. destruct I. rewrite Ep in *. split; cbn; auto; try done.
      intros _. symmetry in Hf. apply bool_decide_eq_false in Hf. by apply dec_stable.
  - intros [= <-]. destruct I. rewrite Ep in *. by split; cbn; auto.
Qed.

Lemma linv_init plan : linv (loop_init plan).
Proof. split; cbn; try done; try lia; apply reach_init. Qed.
Lemma linv_step l l' : linv l -> loop_step l l' -> linv l'.
Proof.
  intros I H. destruct H as [l l' Hi|l e l' Hr|l l' Ho]; [destruct Hi as [l a l' _ Hr|l l' Hf]|..];
    [by eapply linv_runner|by eapply linv_finishing|by eapply linv_runner|by eapply linv_outside].
Qed.
Lemma reachable_linv plan l : rtc loop_step (loop_init plan) l -> linv l.
Proof. intros H. pose proof (linv_init plan) as I. induction H; eauto using linv_step. Qed.

(** ** How far it is to the return *)

Definition thread_left (w : worker) : nat :=
  match w with WStarting => 3 | WServing => 2 | WFinished => 1 | WNone | WReturned => 0 end.
Definition worker_left (c : client) : nat := thread_left (cl_worker c).
Definition work (cs : list client) : nat := sum_list_with worker_left cs.
#[local] Arguments work : simpl never.
Definition slots_left (i : nat) : nat := 3 * (RTLSTREAM_MAX_CLIENTS - i).
Definition pc_left (p : pc) : nat :=
  match p with
  | P_refused | P_returned => 0
  | P_leave => 1
  | P_join_fft => 2
  | P_reap None i => 3 + slots_left i
  | P_join None i => 2 + slots_left i
  | P_wake => 100
  | P_clients => 101
  | P_store => 102
  | P_head => 103
  | P_accept _ _ => 104
  | P_reap (Some _) i => 105 + slots_left i
  | P_join (Some _) i => 104 + slots_left i
  | P_drain _ => 202
  | P_poll => 203
  | P_start => 204
  | P_enter => 205
  end.
Definition cost (l : loop) : nat :=
  pc_left (at_ l) + work (clients (srv l)) + (RTLSTREAM_MAX_CLIENTS - size (woken l)) + 2 * stored l + locked l +
  (if bool_decide (fft_thread l = FRunning) then 1 else 0).

Lemma work_insert cs i c d : cs !! i = Some c -> (work (<[i := d]> cs) + worker_left c = work cs + worker_left d)%nat.
Proof.
  unfold work. revert i. induction cs as [|e cs IH]; intros [|i] Hi; [done|done|cbn in *; simplify_eq; lia|].
  specialize (IH i Hi). change (<[S i := d]> (e :: cs)) with (e :: <[i := d]> cs). cbn [sum_list_with]. lia.
Qed.
Lemma work_alter cs i c f : cs !! i = Some c -> (work (alter f i cs) + worker_left c = work cs + worker_left (f c))%nat.
Proof. intros Hi. rewrite (alter_insert _ _ _ _ Hi). by apply work_insert. Qed.

Lemma worker_left_is c w : cl_worker c = w -> worker_left c = thread_left w.
Proof. by intros <-. Qed.

Lemma work_mark s i c : clients s !! i = Some c -> work (clients (reap_mark i s)) = work (clients s).
Proof.
  intros Hc. pose proof (work_alter _ i c (fun c => set_state c RTL_CLIENT_JOINING (cl_worker c)) Hc) as E.
  cbn beta in E. change (worker_left (set_state c RTL_CLIENT_JOINING (cl_worker c))) with (worker_left c) in E. cbn [clients reap_mark]. lia.
Qed.

Lemma woken_size l : linv l -> (size (woken l) <= RTLSTREAM_MAX_CLIENTS)%nat.
Proof.
  intros I. rewrite <- (length_seq RTLSTREAM_MAX_CLIENTS 0), <- (size_list_to_set (C := gset nat)) by apply NoDup_seq.
  apply subseteq_size. intros i Hi. apply elem_of_list_to_set, elem_of_seq.
  destruct (li_woken _ I i Hi) as (c & Hc & _). apply lookup_lt_Some in Hc. rewrite (linv_length l I) in Hc. lia.
Qed.

Lemma finishing_costs l l' : linv l -> finishing l l' -> (cost l' < cost l)%nat.
Proof.
  intros I H. unfold cost. destruct H as [l i c Hi Hw|l i c Hi Hw|l i c Hi Hw Hn|l i c Hi Hw Hn|l n Hn Hs|l n Hn|l Hf]; cbn.
  - pose proof (work_alter _ i c (fun c => set_state c RTL_CLIENT_RUNNING WServing) Hi) as E.
    rewrite (worker_left_is c _ Hw) in E. cbn in E. lia.
  - pose proof (work_alter _ i c (fun c => set_state c RTL_CLIENT_DONE WFinished) Hi) as E.
    destruct Hw as [Hw|Hw]; rewrite (worker_left_is c _ Hw) in E; cbn in E; lia.
  - assert (I' : linv (wake_control (set_woken ({[i]} ∪ woken l) l))) by (eapply linv_finishing; [done|by eapply F_wake]).
    pose proof (woken_size _ I') as Hl. cbn in Hl. rewrite size_union, size_singleton in Hl |- * by set_solver.
    unfold RTLSTREAM_MAX_CLIENTS in Hl. lia.
  - pose proof (work_alter _ i c (fun c => set_state c (cl_state c) WReturned) Hi) as E.
    rewrite (worker_left_is c _ Hw) in E. cbn in E. lia.
  - rewrite Hn. lia.
  - rewrite Hn. lia.
  - repeat case_bool_decide; try congruence; lia.
Qed.

Lemma runner_costs l a l' : linv l -> stopping (srv l) = true -> runner_step a l = Some l' -> (cost l' < cost l)%nat.
Proof.
  intros I Hs. pose proof (linv_length l I) as Hlen. unfold RTLSTREAM_MAX_CLIENTS in Hlen. unfold runner_step, cost. rewrite Hs.
  destruct (at_ l) as [| | | | |r|k i|k i|i r| | | | | |] eqn:Ep; destruct a as [|cr|eintr|rv| | |fd nb cr]; try done;
    try (cbn [negb]; rewrite andb_false_r; done).
  - rewrite orb_true_r. intros [= <-]. cbn. lia.
  - destruct (negb (fft_plan l)); [|destruct (negb (cr =? 0))]; intros [= <-]; cbn; case_bool_decide; lia.
  - intros [= <-]. cbn. lia.
  - destruct eintr; intros [= <-]; cbn; lia.
  - destruct (_ && _); intros [= <-]. cbn. lia.
  - intros [= <-]. cbn. lia.
  - destruct (clients (srv l) !! i) as [c|] eqn:Hc.
    + apply lookup_lt_Some in Hc as Hl. destruct (reap_takes _ c); intros [= <-].
      * cbn [srv goto set_srv at_ woken stored locked fft_thread]. rewrite (work_mark _ i c Hc). destruct k; cbn; lia.
      * destruct k; cbn; unfold slots_left, RTLSTREAM_MAX_CLIENTS; lia.
    + intros [= <-]. cbn. destruct k; cbn; lia.
  - destruct (clients (srv l) !! i) as [c|] eqn:Hc; [|done]. case_bool_decide as Hw; intros [= <-].
    apply lookup_lt_Some in Hc as Hl. cbn. unfold reap_close. rewrite Hc. cbn.
    pose proof (work_insert _ i c (mk_client (-1) RTL_CLIENT_FREE (cl_mode c) (cl_epoch c) (cl_generation c) WNone) Hc) as E.
    rewrite (worker_left_is c _ Hw) in E. cbn in E.
    assert ((size (woken l) <= S (size (woken l ∖ {[i]})))%nat).
    { destruct (decide (i ∈ woken l)) as [Hi|Hi].
      - rewrite (union_difference_singleton_L i (woken l)) at 1 by done. rewrite size_union, size_singleton; [lia|set_solver].
      - rewrite difference_disjoint_L by set_solver. lia. }
    destruct k; cbn; unfold slots_left; lia.
  - cbn [negb]. rewrite andb_false_r. intros [= <-]. cbn. lia.
  - intros [= <-]. cbn. lia.
  - intros [= <-]. cbn. lia.
  - intros [= <-]. cbn. lia.
  - destruct (fft_thread_started l); [case_bool_decide|]; intros [= <-]; cbn; repeat case_bool_decide; try congruence; lia.
  - intros [= <-]. cbn. lia.
Qed.

(** The others can finish, and the runner is held up by nothing else. *)
Lemma worker_moves l i c : linv l -> clients (srv l) !! i = Some c -> cl_worker c <> WNone -> cl_worker c <> WReturned ->
  exists l', finishing l l'.
Proof.
  intros I Hi H1 H2. destruct (cl_worker c) eqn:Hw; try done.
  - eexists. eapply F_done; [done|by left].
  - eexists. eapply F_done; [done|by right].
  - destruct (decide (i ∈ woken l)); eexists; [by eapply F_return|by eapply F_wake].
Qed.

Lemma runner_moves l : linv l -> stopping (srv l) = true -> at_ l <> P_returned -> at_ l <> P_refused -> exists l', internal l l'.
Proof.
  intros I Hs H1 H2.
  assert (Hgo : forall a l', poll_fails a = false -> runner_step a l = Some l' -> exists l', internal l l')
    by (intros; eexists; by eapply I_runner).
  assert (Hother : forall l', finishing l l' -> exists l', internal l l') by (intros; eexists; by eapply I_finishing).
  destruct (at_ l) as [| | | | |r|k i|k i|i r| | | | | |] eqn:Ep; try done.
  - eapply (Hgo N_go); [done|]. unfold runner_step. by rewrite Ep, Hs, orb_true_r.
  - destruct (fft_plan l) eqn:Ef; (eapply (Hgo (N_create 0)); [done|]); unfold runner_step; by rewrite Ep, Ef.
  - eapply (Hgo N_go); [done|]. unfold runner_step. by rewrite Ep.
  - destruct (pending l) eqn:Eb.
    + eapply (Hgo (N_poll (mk_rev true false false false false))); [done|]. unfold runner_step. by rewrite Ep, Eb.
    + destruct (li_sleep _ I Ep Hs) as [?|Hn]; [congruence|]. destruct (stored l) as [|n] eqn:E1.
      * destruct (locked l) as [|n] eqn:E2; [lia|]. eapply Hother. by eapply F_stop_wake.
      * eapply Hother. by eapply F_stop_clients.
  - eapply (Hgo N_go); [done|]. unfold runner_step. by rewrite Ep.
  - destruct (clients (srv l) !! i) as [c|] eqn:Hc.
    + destruct (reap_takes (bool_decide (k = None)) c) eqn:Et; (eapply (Hgo N_go); [done|]); unfold runner_step; by rewrite Ep, Hc, Et.
    + eapply (Hgo N_go); [done|]. unfold runner_step. by rewrite Ep, Hc.
  - pose proof (li_reaping _ I) as Hr. rewrite Ep in Hr. destruct (inv_reaping _ (reachable_inv _ (li_reach _ I)) i Hr) as (c & Hc & Hf).
    pose proof (so_free _ _ _ (linv_slot l i c I Hc)) as Hw. destruct (decide (cl_worker c = WReturned)) as [E|E].
    + eapply (Hgo N_go); [done|]. unfold runner_step. by rewrite Ep, Hc, E.
    + destruct (worker_moves l i c I Hc) as [l' Hl]; [tauto|done|]. by apply (Hother l').
  - eapply (Hgo N_go); [done|]. unfold runner_step. by rewrite Ep, Hs, andb_false_r.
  - eapply (Hgo N_go); [done|]. unfold runner_step. by rewrite Ep.
  - eapply (Hgo N_go); [done|]. unfold runner_step. by rewrite Ep.
  - eapply (Hgo N_go); [done|]. unfold runner_step. by rewrite Ep.
  - destruct (fft_thread_started l) eqn:Es.
    + pose proof (li_fft _ I) as Hf. rewrite Es in Hf. symmetry in Hf. apply bool_decide_eq_true in Hf.
      destruct (fft_thread l) eqn:Et; [done| |].
      * eapply Hother. by apply F_fft_return.
      * eapply (Hgo N_go); [done|]. unfold runner_step. by rewrite Ep, Es, Et.
    + eapply (Hgo N_go); [done|]. unfold runner_step. by rewrite Ep, Es.
  - eapply (Hgo N_go); [done|]. unfold runner_step. by rewrite Ep.
Qed.

Lemma stopping_stays l l' : loop_step l l' -> stopping (srv l) = true -> stopping (srv l') = true.
Proof.
  assert (Hr : forall a l l', runner_step a l = Some l' -> stopping (srv l) = true -> stopping (srv l') = true).
  { clear. intros a l l'. unfold runner_step, fails. repeat case_match; intros [= <-]; cbn; auto; unfold reap_close, accept_client; repeat case_match; cbn; auto; done. }
  intros [l0 l1 Hi|l0 e l1 H|l0 l1 Ho]; [destruct Hi as [l0 a l1 _ H|l0 l1 H]| |]; eauto.
  - by destruct H.
  - by destruct Ho.
Qed.

Lemma internal_costs l l' : linv l -> stopping (srv l) = true -> internal l l' -> (cost l' < cost l)%nat.
Proof. intros I Hs H. destruct H; eauto using runner_costs, finishing_costs. Qed.
End ServerLoopFacts.

(** ** Properties *)

Module ServerLoopProps.
Import Proto ServerSteps ServerStepsFacts ServerLoop ServerLoopFacts.

(** Every step is one of the steps of the clients, or touches no client. *)
Lemma runner_simulated l a l' : linv l -> runner_step a l = Some l' -> srv l' = srv l \/ exists b, step (srv l) b (srv l').
Proof.
  intros I. unfold runner_step. destruct (at_ l) as [| | | | |r|k i|k i|i r| | | | | |] eqn:Ep; destruct a as [|cr|eintr|rv| | |fd nb cr]; try done.
  all: try (repeat case_match; intros [= <-]; by left).
  - destruct (clients (srv l) !! i) as [c|] eqn:Hc; [|intros [= <-]; by left].
    destruct (reap_takes _ c) eqn:Ht; intros [= <-]; [right|by left]. eexists. eapply (StepReapMark _ i c); [done| |done|].
    + by rewrite (li_reaping _ I), Ep.
    + intros Hk%bool_decide_eq_true. apply I. by rewrite Ep, Hk.
  - destruct (clients (srv l) !! i) as [c|] eqn:Hc; [|done]. case_bool_decide as Hw; intros [= <-]. right. eexists.
    eapply StepReapClose; [done| |done]. by rewrite (li_reaping _ I), Ep.
  - destruct (_ && _); [|done]. destruct (rev_bad r i); [done|]. destruct (rev_in r i); [|done].
    destruct (0 <=? fd) eqn:Ef; [|done]. case_bool_decide as Hn; [|done]. intros [= <-]. right. eexists. apply StepAccept; [lia|done].
  - intros [= <-]. right. eexists. apply StepStop.
  - intros [= <-]. right. eexists. apply StepStopClients. by apply I.
Qed.

Lemma loop_simulated l l' : linv l -> loop_step l l' -> srv l' = srv l \/ exists b, step (srv l) b (srv l').
Proof.
  intros I H. destruct H as [l l' Hi|l e l' H|l l' Ho]; [destruct Hi as [l a l' _ H|l l' H]| |]; eauto using runner_simulated.
  - destruct H; try (by left); right; eexists; [by eapply StepRunning|by eapply StepDone|by eapply StepReturn|by apply StepStopClients].
  - destruct Ho; try (by left); right; eexists; constructor.
Qed.

(** C7.  [rtlsdr_server_run] among the workers, the spectrum thread and any callers of
    [rtlsdr_server_request_stop], [rtlsdr_server_notify_frequency_change] and [fft_gap]: every
    step of it is one of the steps of the client life cycle or touches no client, so what holds
    of those holds while it runs; and it never sleeps through an event: when it is in [poll] with
    an empty control pipe, a stop that was requested has a caller that is still to write to the
    pipe, and each client that is done has a worker that is still to write to it. *)
Theorem server_run_refines plan l :
  rtc loop_step (loop_init plan) l ->
  reachable (srv l) /\
  (forall l', loop_step l l' -> srv l' = srv l \/ exists b, step (srv l) b (srv l')) /\
  (at_ l = P_poll -> pending l = false ->
   (stopping (srv l) = true -> (0 < stored l + locked l)%nat) /\
   (forall i c, clients (srv l) !! i = Some c -> cl_state c = RTL_CLIENT_DONE -> i ∉ woken l)).
Proof.
  intros H. pose proof (reachable_linv plan l H) as I. split_and!; [apply I|by intros l'; apply loop_simulated|].
  intros Ep Eb. split.
  - intros Hs. destruct (li_sleep _ I Ep Hs); congruence.
  - intros i c Hc Es Hi. pose proof (li_done _ I i c Hc Es Hi Eb) as Ha. by rewrite Ep in Ha.
Qed.

(** C8.  Behind a stop [rtlsdr_server_run] returns.  With [rtlsdr_server_request_stop] called,
    or the loop left for an error, there is a step of the accepting thread or of a thread on its
    way to its end until [rtlsdr_server_run] has returned, and there are only finitely many, also
    when [poll] fails: each makes [cost] smaller.  A worker that is waited for has its socket shut
    down unless it is behind its last use of it.  When it has returned, every slot is free, the
    count is 0, no client socket is open, the spectrum thread was joined and [run_active] is 0, so
    that [rtlsdr_server_shutdown] goes on. *)
Theorem server_run_returns plan l :
  rtc loop_step (loop_init plan) l ->
  (stopping (srv l) = true -> at_ l <> P_returned -> at_ l <> P_refused -> exists l', internal l l') /\
  (stopping (srv l) = true -> forall l', internal l l' \/ (exists e, runner_step (N_poll_fails e) l = Some l') ->
     stopping (srv l') = true /\ (cost l' < cost l)%nat) /\
  (forall k i c, at_ l = P_join k i -> clients (srv l) !! i = Some c -> working (cl_worker c) -> cl_fd c ∈ shut_fds (srv l)) /\
  (at_ l = P_returned ->
     (forall i c, clients (srv l) !! i = Some c -> cl_state c = RTL_CLIENT_FREE) /\ client_count (srv l) = 0 /\
     open_fds (srv l) = ∅ /\ fft_thread l = FNone /\ run_active l = false).
Proof.
  intros H. pose proof (reachable_linv plan l H) as I. pose proof (reachable_inv _ (li_reach _ I)) as J. split_and!.
  - by apply runner_moves.
  - intros Hs l' [Hi|[e He]].
    + split; [eapply stopping_stays; [by constructor|done]|by apply internal_costs].
    + split; [eapply stopping_stays; [by econstructor|done]|by eapply runner_costs].
  - intros k i c Ep Hc Hw. pose proof (linv_slot l i c I Hc) as Hok. pose proof (li_reaping _ I) as Hr. rewrite Ep in Hr.
    assert (Hst : stopped (srv l) = true).
    { destruct k as [r|]; [by destruct (li_finished _ I r i c Ep Hc)|]. apply (li_stopped _ I). by rewrite Ep. }
    by apply (so_shut _ _ _ Hok).
  - intros Ep. assert (Hf : forall i c, clients (srv l) !! i = Some c -> cl_state c = RTL_CLIENT_FREE).
    { intros i c Hc. apply (li_free _ I i c); [|done]. rewrite Ep. cbn. apply lookup_lt_Some in Hc. by rewrite (linv_length l I) in Hc. }
    destruct (all_free_empty _ _ _ (inv_table _ J) Hf). split_and!; auto.
    + apply (li_left _ I). by rewrite Ep.
    + rewrite (li_active _ I). by rewrite Ep.
Qed.

(** ** A session *)

(** The runner with these answers, one after the other. *)
Fixpoint runs (as_ : list answer) (l : loop) : loop :=
  match as_ with
  | [] => l
  | a :: as_ => runs as_ (default l (runner_step a l))
  end.
Lemma runs_rtc as_ : forall l, rtc loop_step l (runs as_ l).
Proof.
  induction as_ as [|a as_ IH]; intros l; cbn [runs]; [done|].
  destruct (runner_step a l) as [l'|] eqn:E; cbn [default]; [|apply IH].
  eapply rtc_l; [|apply IH]. destruct (poll_fails a) eqn:Ep; [destruct a; try done; by eapply L_poll_fails|].
  apply L_internal. by eapply I_runner.
Qed.
Lemma finishing_rtc l l' : finishing l l' -> rtc loop_step l l'.
Proof. intros H. by apply rtc_once, L_internal, I_finishing. Qed.

(** A client connects; it is done while the runner is back in [poll]. *)
Definition connects : list answer :=
  [N_go; N_create 0; N_go; N_poll (mk_rev false false true false false); N_go] ++ replicate 33 N_go ++
  [N_accept 7 0 0; N_go; N_go; N_go].
Definition demo_polling : loop := runs connects (loop_init true).
Definition demo_done : loop := set_srv (worker_done 0 (srv demo_polling)) demo_polling.
(** A stop is requested, the worker and the spectrum thread end, and so does the runner. *)
Definition stopped_by_caller (l : loop) : loop :=
  let l := set_callers 1 0 (set_srv (request_stop_store (srv l)) l) in
  let l := set_callers 0 1 (set_srv (request_stop_clients (srv l)) l) in
  wake_control (set_callers 0 0 l).
Definition workers_end (l : loop) : loop :=
  let l := wake_control (set_woken ({[0%nat]} ∪ woken l) l) in
  let l := set_srv (worker_return 0 (srv l)) l in
  set_fft true FReturned l.
Definition demo_stop : loop := workers_end (stopped_by_caller demo_done).
Definition demo_returned : loop := runs (N_poll (mk_rev true false false false false) :: replicate 77 N_go) demo_stop.

Lemma stopped_by_caller_rtc l : stored l = 0%nat -> locked l = 0%nat -> rtc loop_step l (stopped_by_caller l).
Proof.
  intros E1 E2. unfold stopped_by_caller. pose proof (O_stop l) as H. rewrite E1, E2 in H. eapply rtc_l; [by apply L_outside|].
  etrans; [exact (finishing_rtc _ _ (F_stop_clients (set_callers 1 0 (set_srv (request_stop_store (srv l)) l)) 0 eq_refl eq_refl))|].
  exact (finishing_rtc _ _ (F_stop_wake (set_callers 0 1 _) 0 eq_refl)).
Qed.
Lemma workers_end_rtc l c : clients (srv l) !! 0%nat = Some c -> cl_worker c = WFinished -> 0%nat ∉ woken l ->
  fft_thread l = FRunning -> fft_thread_started l = true -> rtc loop_step l (workers_end l).
Proof.
  intros Hc Hw Hn Hf Hs. unfold workers_end. etrans; [exact (finishing_rtc _ _ (F_wake l 0 c Hc Hw Hn))|].
  assert (Hin : 0%nat ∈ woken (wake_control (set_woken ({[0%nat]} ∪ woken l) l))) by (apply elem_of_union; left; by apply elem_of_singleton).
  etrans; [exact (finishing_rtc _ _ (F_return (wake_control (set_woken ({[0%nat]} ∪ woken l) l)) 0 c Hc Hw Hin))|]. rewrite <- Hs.
  exact (finishing_rtc _ _ (F_fft_return (set_srv _ (wake_control (set_woken ({[0%nat]} ∪ woken l) l))) Hf)).
Qed.

Lemma demo_polling_reached : rtc loop_step (loop_init true) demo_polling.
Proof. unfold demo_polling. apply runs_rtc. Qed.
Lemma demo_done_reached : rtc loop_step (loop_init true) demo_done.
Proof.
  etrans; [apply demo_polling_reached|].
  assert (H : exists c, clients (srv demo_polling) !! 0%nat = Some c /\ cl_worker c = WStarting) by (eexists; split; vm_compute; reflexivity).
  destruct H as (c & Hc & Hw). exact (finishing_rtc _ _ (F_done demo_polling 0 c Hc (or_introl Hw))).
Qed.
Lemma demo_stop_reached : rtc loop_step (loop_init true) demo_stop.
Proof.
  etrans; [apply demo_done_reached|]. etrans; [apply (stopped_by_caller_rtc demo_done); vm_compute; reflexivity|].
  assert (H : exists c, clients (srv (stopped_by_caller demo_done)) !! 0%nat = Some c /\ cl_worker c = WFinished)
    by (eexists; split; vm_compute; reflexivity).
  destruct H as (c & Hc & Hw). apply (workers_end_rtc _ c Hc Hw); [|vm_compute; reflexivity..].
  by apply (bool_decide_unpack _); vm_compute.
Qed.

Lemma server_run_refines_witness :
  at_ demo_done = P_poll /\ pending demo_done = false /\ client_count (srv demo_done) = 1 /\ reachable (srv demo_done) /\ 0%nat ∉ woken demo_done.
Proof.
  destruct (server_run_refines true demo_done demo_done_reached) as (Hr & _ & Hs).
  assert (E1 : at_ demo_done = P_poll) by (vm_compute; reflexivity). assert (E2 : pending demo_done = false) by (vm_compute; reflexivity).
  split; [exact E1|]. split; [exact E2|]. split; [vm_compute; reflexivity|]. split; [exact Hr|].
  destruct (Hs E1 E2) as [_ Hd]. assert (H : exists c, clients (srv demo_done) !! 0%nat = Some c /\ cl_state c = RTL_CLIENT_DONE)
    by (eexists; split; vm_compute; reflexivity).
  destruct H as (c & Hc & Hd'). exact (Hd 0%nat c Hc Hd').
Defined.

Lemma server_run_returns_witness :
  stopping (srv demo_stop) = true /\ at_ demo_returned = P_returned /\ open_fds (srv demo_returned) = ∅ /\
  exists l', internal demo_stop l'.
Proof.
  assert (E1 : stopping (srv demo_stop) = true) by (vm_compute; reflexivity).
  assert (E2 : at_ demo_returned = P_returned) by (vm_compute; reflexivity).
  assert (E3 : at_ demo_stop = P_poll) by (vm_compute; reflexivity).
  assert (R : rtc loop_step (loop_init true) demo_returned) by (etrans; [apply demo_stop_reached|unfold demo_returned; apply runs_rtc]).
  split; [exact E1|]. split; [exact E2|]. split.
  - destruct (server_run_returns true demo_returned R) as (_ & _ & _ & H). apply (H E2).
  - destruct (server_run_returns true demo_stop demo_stop_reached) as (H & _). apply (H E1); rewrite E3; discriminate.
Defined.
End ServerLoopProps.
