(* ===== verification/ServerRun.v ===== *)
(** * Setting up and shutting down the stream server ([src/src/rtl_stream_server.c])

    [Module ServerRun]: [rtlsdr_server_init] with every call that can fail,
    and [rtlsdr_server_shutdown].  What is acquired from the system is in a list [live];
    releasing what is not there sets [bad].  The clients are those of [ServerSteps].

    [ServerRunProps]: no set-up leaks anything, however it ends. *)

From S2P Require Import Prelude.

Module ServerRun.

(** ** Objects *)

Inductive obj :=
  | DataMutex | DataCond | ClientLock | FftMutex | FftCond
  | Fd (fd : Z)
  | FftPlan | FftInput | FftIn | FftPower | FftAcc.
#[global] Instance obj_eq_dec : EqDecision obj.
Proof. solve_decision. Defined.

Abbreviation INIT_DATA_MUTEX := (1)%Z (only parsing).
Abbreviation INIT_DATA_COND := (2)%Z (only parsing).
Abbreviation INIT_CLIENT_LOCK := (4)%Z (only parsing).
Abbreviation INIT_FFT_MUTEX := (8)%Z (only parsing).
Abbreviation INIT_FFT_COND := (16)%Z (only parsing).

(** The fields of [struct rtlsdr_server] that own something; for a pointer whether it is not
    NULL. *)
Record server := mk_srv {
  initialized : Z;
  control0 : Z;
  control1 : Z;
  listen_fd_iq : Z;
  listen_fd_fft : Z;
  fft_plan : bool;
  fft_input : bool;
  fft_in : bool;
  fft_power : bool;
  fft_acc : bool;
  stopping : bool;
  live : list obj;
  bad : bool;
}.

Definition set_live (l : list obj) (b : bool) (s : server) : server :=
  mk_srv (initialized s) (control0 s) (control1 s) (listen_fd_iq s) (listen_fd_fft s) (fft_plan s) (fft_input s)
    (fft_in s) (fft_power s) (fft_acc s) (stopping s) l b.
Definition acquire (o : obj) (s : server) : server := set_live (o :: live s) (bad s) s.
Fixpoint remove1 (o : obj) (l : list obj) : option (list obj) :=
  match l with
  | [] => None
  | x :: l => if decide (x = o) then Some l else cons x <$> remove1 o l
  end.
Definition release (o : obj) (s : server) : server :=
  match remove1 o (live s) with Some l => set_live l (bad s) s | None => set_live (live s) true s end.
Definition release_if (b : bool) (o : obj) (s : server) : server := if b then release o s else s.

Definition has (s : server) (bit : Z) : bool := negb (initialized s &' bit =? 0).

(** ** Shutting down *)

(** [rtlsdr_server_request_stop] as far as these fields are concerned. *)
Definition request_stop (s : server) : server :=
  mk_srv (initialized s) (control0 s) (control1 s) (listen_fd_iq s) (listen_fd_fft s) (fft_plan s) (fft_input s)
    (fft_in s) (fft_power s) (fft_acc s) true (live s) (bad s).

(** Behind the wait for [run_active] and the reaping of the clients. *)
Definition release_all (s : server) : server :=
  let r := release_if (fft_plan s) FftPlan s in
  let r := release_if (fft_input s) FftInput r in
  let r := release_if (fft_in s) FftIn r in
  let r := release_if (fft_power s) FftPower r in
  let r := release_if (fft_acc s) FftAcc r in
  let r := release_if (0 <=? listen_fd_iq s) (Fd (listen_fd_iq s)) r in
  let r := release_if (0 <=? listen_fd_fft s) (Fd (listen_fd_fft s)) r in
  let r := release_if (0 <=? control0 s) (Fd (control0 s)) r in
  let r := release_if (0 <=? control1 s) (Fd (control1 s)) r in
  let r := release_if (has s INIT_FFT_COND) FftCond r in
  let r := release_if (has s INIT_FFT_MUTEX) FftMutex r in
  let r := release_if (has s INIT_CLIENT_LOCK) ClientLock r in
  let r := release_if (has s INIT_DATA_COND) DataCond r in
  release_if (has s INIT_DATA_MUTEX) DataMutex r.
Definition rtlsdr_server_shutdown (s : server) : server :=
  let s := request_stop s in
  let r := release_all s in
  mk_srv 0 (-1) (-1) (-1) (-1) false false false false false (stopping s) (live r) (bad r).

(** ** Setting up *)

(** What the calls of [setup_listen_fd] answer: the socket, and the results of [nonblocking],
    [bind] and [listen]. *)
Record listen_env := mk_listen { l_socket : Z; l_nonblocking : Z; l_bind : Z; l_listen : Z }.
Definition setup_listen_fd (e : listen_env) (s : server) : Z * server :=
  if l_socket e <? 0 then (-1, s)
  else
    let s := acquire (Fd (l_socket e)) s in
    if (l_nonblocking e <? 0) || (l_bind e <? 0) || (l_listen e <? 0) then (-1, release (Fd (l_socket e)) s)
    else (l_socket e, s).

(** What the calls of [rtlsdr_server_init] answer. *)
Record env := mk_env {
  e_data_mutex : Z; e_data_cond : Z; e_client_lock : Z; e_fft_mutex : Z; e_fft_cond : Z;
  e_pipe : Z; e_control0 : Z; e_control1 : Z; e_nonblocking0 : Z; e_nonblocking1 : Z;
  e_iq : listen_env; e_fft : listen_env;
  e_plan : bool; e_in : bool; e_power : bool; e_acc : bool; e_input : bool;
}.

(** One step of the set-up: whether to go on. *)
Abbreviation M := (server -> bool * server).
Definition andthen (m k : M) : M := fun s => let '(ok, s) := m s in if ok then k s else (false, s).

Definition init_object (result bit : Z) (o : obj) : M := fun s =>
  if negb (result =? 0) then (false, s)
  else
    let s := acquire o s in
    (true, mk_srv (initialized s |' bit) (control0 s) (control1 s) (listen_fd_iq s) (listen_fd_fft s) (fft_plan s)
             (fft_input s) (fft_in s) (fft_power s) (fft_acc s) (stopping s) (live s) (bad s)).
Definition init_control (e : env) : M := fun s =>
  if e_pipe e <? 0 then (false, s)
  else
    let s := acquire (Fd (e_control1 e)) (acquire (Fd (e_control0 e)) s) in
    let s := mk_srv (initialized s) (e_control0 e) (e_control1 e) (listen_fd_iq s) (listen_fd_fft s) (fft_plan s)
               (fft_input s) (fft_in s) (fft_power s) (fft_acc s) (stopping s) (live s) (bad s) in
    (negb ((e_nonblocking0 e <? 0) || (e_nonblocking1 e <? 0)), s).
Definition init_listen_iq (e : env) : M := fun s =>
  let '(fd, s) := setup_listen_fd (e_iq e) s in
  (negb (fd <? 0), mk_srv (initialized s) (control0 s) (control1 s) fd (listen_fd_fft s) (fft_plan s) (fft_input s)
                     (fft_in s) (fft_power s) (fft_acc s) (stopping s) (live s) (bad s)).
Definition init_listen_fft (e : env) : M := fun s =>
  let '(fd, s) := setup_listen_fd (e_fft e) s in
  (negb (fd <? 0), mk_srv (initialized s) (control0 s) (control1 s) (listen_fd_iq s) fd (fft_plan s) (fft_input s)
                     (fft_in s) (fft_power s) (fft_acc s) (stopping s) (live s) (bad s)).

Definition acquire_if (b : bool) (o : obj) (s : server) : server := if b then acquire o s else s.
Definition init_plan (e : env) : M := fun s =>
  let s := acquire_if (e_plan e) FftPlan s in
  (e_plan e, mk_srv (initialized s) (control0 s) (control1 s) (listen_fd_iq s) (listen_fd_fft s) (e_plan e) (fft_input s)
               (fft_in s) (fft_power s) (fft_acc s) (stopping s) (live s) (bad s)).
Definition init_arrays (e : env) : M := fun s =>
  let s := acquire_if (e_acc e) FftAcc (acquire_if (e_power e) FftPower (acquire_if (e_in e) FftIn s)) in
  (e_in e && e_power e && e_acc e,
   mk_srv (initialized s) (control0 s) (control1 s) (listen_fd_iq s) (listen_fd_fft s) (fft_plan s) (fft_input s)
     (e_in e) (e_power e) (e_acc e) (stopping s) (live s) (bad s)).
Definition init_input (e : env) : M := fun s =>
  let s := acquire_if (e_input e) FftInput s in
  (e_input e, mk_srv (initialized s) (control0 s) (control1 s) (listen_fd_iq s) (listen_fd_fft s) (fft_plan s) (e_input e)
                (fft_in s) (fft_power s) (fft_acc s) (stopping s) (live s) (bad s)).

Definition init_refused (slot_size : option Z) (iq_port fft_port capture_freq capture_rate : Z) : bool :=
  match slot_size with
  | None => true
  | Some size =>
      negb (size &' 1 =? 0) || (262144 <? size) || (iq_port <? 0) || (65535 <? iq_port) || (fft_port <? 0) || (65535 <? fft_port)
      || (4294967295 <? capture_freq) || (capture_rate =? 0) || (4294967295 <? capture_rate)
  end.

(** [world] is what is acquired elsewhere; [slot_size] is that of the ring, [None] when it is
    NULL. *)
Definition fresh (world : list obj) : server :=
  mk_srv 0 (-1) (-1) (-1) (-1) false false false false false false world false.
Definition init_steps (e : env) (fft_port : Z) : M :=
  andthen (init_object (e_data_mutex e) INIT_DATA_MUTEX DataMutex)
  (andthen (init_object (e_data_cond e) INIT_DATA_COND DataCond)
  (andthen (init_object (e_client_lock e) INIT_CLIENT_LOCK ClientLock)
  (andthen (init_object (e_fft_mutex e) INIT_FFT_MUTEX FftMutex)
  (andthen (init_object (e_fft_cond e) INIT_FFT_COND FftCond)
  (andthen (init_control e)
  (andthen (init_listen_iq e)
  (if 0 <? fft_port
   then andthen (init_listen_fft e) (andthen (init_plan e) (andthen (init_arrays e) (init_input e)))
   else fun s => (true, s)))))))).
Definition rtlsdr_server_init (world : list obj) (e : env) (slot_size : option Z)
    (iq_port fft_port capture_freq capture_rate : Z) : Z * server :=
  let s := fresh world in
  if init_refused slot_size iq_port fft_port capture_freq capture_rate then (-1, rtlsdr_server_shutdown s)
  else
    let '(ok, s) := init_steps e fft_port s in
    if ok then (0, s) else (-1, rtlsdr_server_shutdown s).

End ServerRun.

Module ServerRunProps.
Import ServerRun.

(** ** What a server owns *)

Fixpoint cnt (o : obj) (l : list obj) : Z :=
  match l with [] => 0 | x :: l => (if decide (x = o) then 1 else 0) + cnt o l end.
Lemma cnt_nonneg o l : 0 <= cnt o l.
Proof. induction l as [|x l IH]; cbn [cnt]; [done|]. case_decide; lia. Qed.
Lemma cnt_app o l k : cnt o (l ++ k) = cnt o l + cnt o k.
Proof. induction l as [|x l IH]; cbn [cnt app]; [done|]. lia. Qed.

Lemma remove1_cnt x l : 1 <= cnt x l -> exists l', remove1 x l = Some l' /\ forall o, cnt o l = cnt o [x] + cnt o l'.
Proof.
  induction l as [|y l IH]; cbn [cnt remove1]; [lia|]. case_decide as E.
  - subst y. intros _. exists l. split; [done|]. intros o. lia.
  - intros H. destruct IH as (l' & -> & Hc); [lia|]. exists (y :: l'). split; [done|]. intros o. cbn [cnt] in *. rewrite Hc. lia.
Qed.

Definition one (b : bool) (o : obj) : list obj := if b then [o] else [].
Definition own (s : server) : list obj :=
  one (fft_plan s) FftPlan ++ one (fft_input s) FftInput ++ one (fft_in s) FftIn ++ one (fft_power s) FftPower ++
  one (fft_acc s) FftAcc ++ one (0 <=? listen_fd_iq s) (Fd (listen_fd_iq s)) ++ one (0 <=? listen_fd_fft s) (Fd (listen_fd_fft s)) ++
  one (0 <=? control0 s) (Fd (control0 s)) ++ one (0 <=? control1 s) (Fd (control1 s)) ++ one (has s INIT_FFT_COND) FftCond ++
  one (has s INIT_FFT_MUTEX) FftMutex ++ one (has s INIT_CLIENT_LOCK) ClientLock ++ one (has s INIT_DATA_COND) DataCond ++
  one (has s INIT_DATA_MUTEX) DataMutex.

(** What is live is what the server owns and what the rest of the world has; nothing was
    released that was not there. *)
Definition owned (world l : list obj) (s : server) : Prop :=
  bad s = false /\ forall o, cnt o (live s) = cnt o l + cnt o world.
Definition wf (world : list obj) (s : server) : Prop := owned world (own s) s.

Lemma release_owned world b o l s : owned world (one b o ++ l) s -> owned world l (release_if b o s).
Proof.
  intros [Hb Hc]. destruct b; [|done]. unfold release_if, release. destruct (remove1_cnt o (live s)) as (l' & -> & Hl).
  { rewrite Hc, cnt_app. cbn [one cnt]. rewrite decide_True by done. pose proof (cnt_nonneg o l). pose proof (cnt_nonneg o world). lia. }
  split; [done|]. intros x. specialize (Hc x). rewrite cnt_app, Hl in Hc. cbn [one set_live live] in *. lia.
Qed.

(** Shutting down releases everything, once. *)
Lemma shutdown_releases world s : wf world s -> owned world [] (rtlsdr_server_shutdown s).
Proof.
  intros Hw. unfold rtlsdr_server_shutdown.
  assert (H : owned world [] (release_all (request_stop s))) by
    (unfold release_all; cbn zeta; repeat (apply release_owned); rewrite app_nil_r; exact Hw).
  exact H.
Qed.

(** ** Set-up *)

Ltac owns :=
  intros [Hb Hc]; split; [exact Hb|]; let x := fresh "x" in intros x; specialize (Hc x);
  unfold own in *; cbn [initialized control0 control1 listen_fd_iq listen_fd_fft fft_plan fft_input fft_in fft_power fft_acc
    stopping live bad acquire set_live acquire_if] in *; unfold has in *; cbn [initialized] in *;
  rewrite !cnt_app in *.

(** Evaluate the tests of flags. *)
Ltac bits :=
  repeat match goal with
  | |- context [negb (?e =? 0)] => let v := eval vm_compute in (negb (e =? 0)) in change (negb (e =? 0)) with v
  | H : context [negb (?e =? 0)] |- _ => let v := eval vm_compute in (negb (e =? 0)) in change (negb (e =? 0)) with v in H
  end.

(** Every step keeps what is live and what is owned together. *)
Definition keeps (world : list obj) (P Q : server -> Prop) (m : M) : Prop :=
  forall s, P s -> wf world s -> wf world (m s).2 /\ ((m s).1 = true -> Q (m s).2).
Lemma keeps_andthen world P Q R m k : keeps world P Q m -> keeps world Q R k -> keeps world P R (andthen m k).
Proof.
  intros Hm Hk s HP Hw. specialize (Hm s HP Hw). unfold andthen. destruct (m s) as [ok s']. cbn [fst snd] in *.
  destruct Hm as [Hw' HQ]. destruct ok; [|done]. apply Hk; [by apply HQ|done].
Qed.

(** How far the set-up has come: the flags, and the fields that are not set yet. *)
Definition stage (x : Z) (k : nat) (s : server) : Prop :=
  initialized s = x /\ ((k <= 5)%nat -> control0 s = -1 /\ control1 s = -1) /\ ((k <= 6)%nat -> listen_fd_iq s = -1) /\
  ((k <= 7)%nat -> listen_fd_fft s = -1) /\ ((k <= 8)%nat -> fft_plan s = false) /\
  ((k <= 9)%nat -> fft_in s = false /\ fft_power s = false /\ fft_acc s = false) /\ ((k <= 10)%nat -> fft_input s = false).
Ltac stages :=
  unfold stage in *; cbn [initialized control0 control1 listen_fd_iq listen_fd_fft fft_plan fft_input fft_in fft_power fft_acc
    acquire set_live acquire_if]; destruct_and?; split_and!; intros; auto with lia.

Lemma init_object_keeps world result bit o x k : (k < 5)%nat ->
  (x, bit, o) ∈ [(0, 1, DataMutex); (1, 2, DataCond); (3, 4, ClientLock); (7, 8, FftMutex); (15, 16, FftCond)] ->
  keeps world (stage x k) (stage (x |' bit) (S k)) (init_object result bit o).
Proof.
  intros Hk Hin s Hs Hw. unfold init_object. destruct (negb (result =? 0)); [done|]. cbn [fst snd]. split.
  - revert Hw. pose proof Hs as (Hx & _). owns. rewrite Hx in *.
    rewrite !elem_of_cons, elem_of_nil in Hin. destruct_or?; try done; simplify_eq.
    all: match goal with H : initialized ?t = _ |- _ => rewrite H in Hc |- * end.
    all: bits; cbn [one cnt] in *; lia.
  - intros _. destruct Hs as (<- & Hs). stages.
Qed.

(** A system that opens descriptors that are not negative. *)
Definition env_ok (e : env) : Prop := 0 <= e_pipe e -> 0 <= e_control0 e /\ 0 <= e_control1 e.

Lemma init_control_keeps world e : env_ok e -> keeps world (stage 31 5) (stage 31 6) (init_control e).
Proof.
  intros He s Hs Hw. unfold init_control. destruct (Z.ltb_spec (e_pipe e) 0) as [|Hp]; [done|]. destruct (He Hp) as [H0 H1].
  destruct Hs as (Hx & Hc & Hs). destruct Hc as [Hc0 Hc1]; [lia|]. cbn [fst snd]. split.
  - revert Hw. owns. rewrite Hc0, Hc1 in Hc. cbn [Z.leb Z.compare one cnt] in *.
    destruct (Z.leb_spec 0 (e_control0 e)); [|lia]. destruct (Z.leb_spec 0 (e_control1 e)); [|lia]. cbn [one cnt]. lia.
  - intros _. stages.
Qed.

Lemma setup_listen_cases e s : setup_listen_fd e s = (-1, s) \/ (setup_listen_fd e s).1 = -1 /\ setup_listen_fd e s = (-1, release (Fd (l_socket e)) (acquire (Fd (l_socket e)) s)) \/
  0 <= l_socket e /\ setup_listen_fd e s = (l_socket e, acquire (Fd (l_socket e)) s).
Proof. unfold setup_listen_fd. destruct (Z.ltb_spec (l_socket e) 0); [auto|]. destruct (_ || _); auto. Qed.
Lemma release_acquire o s : release o (acquire o s) = s.
Proof. unfold release, acquire. cbn [set_live live remove1]. rewrite decide_True by done. by destruct s. Qed.

Lemma init_listen_iq_keeps world e : keeps world (stage 31 6) (stage 31 7) (init_listen_iq e).
Proof.
  intros s Hs Hw. unfold init_listen_iq. destruct (setup_listen_cases (e_iq e) s) as [E|[[_ E]|[H0 E]]]; rewrite E; [| |].
  1,2: rewrite ?release_acquire; destruct Hs as (_ & _ & Hl & _); cbn [fst snd]; split; [|done]; rewrite <- Hl by lia; by destruct s.
  destruct Hs as (Hx & Hc1 & Hl & Hs). cbn [fst snd]. split.
  - revert Hw. owns. rewrite Hl in Hc by lia. cbn [Z.leb Z.compare one cnt] in *.
    destruct (Z.leb_spec 0 (l_socket (e_iq e))); [|lia]. cbn [one cnt]. lia.
  - intros _. stages.
Qed.
Lemma init_listen_fft_keeps world e : keeps world (stage 31 7) (stage 31 8) (init_listen_fft e).
Proof.
  intros s Hs Hw. unfold init_listen_fft. destruct (setup_listen_cases (e_fft e) s) as [E|[[_ E]|[H0 E]]]; rewrite E; [| |].
  1,2: rewrite ?release_acquire; destruct Hs as (_ & _ & _ & Hl & _); cbn [fst snd]; split; [|done]; rewrite <- Hl by lia; by destruct s.
  destruct Hs as (Hx & Hc1 & Hc2 & Hl & Hs). cbn [fst snd]. split.
  - revert Hw. owns. rewrite Hl in Hc by lia. cbn [Z.leb Z.compare one cnt] in *.
    destruct (Z.leb_spec 0 (l_socket (e_fft e))); [|lia]. cbn [one cnt]. lia.
  - intros _. stages.
Qed.

Lemma init_plan_keeps world e : keeps world (stage 31 8) (stage 31 9) (init_plan e).
Proof.
  intros s Hs Hw. unfold init_plan. pose proof Hs as (_ & _ & _ & _ & Hp & _). specialize (Hp ltac:(lia)). destruct (e_plan e); cbn [fst snd]; split.
  1,3: revert Hw; owns; rewrite Hp in Hc; cbn [one cnt] in *; lia.
  all: intros _; stages.
Qed.
Lemma init_arrays_keeps world e : keeps world (stage 31 9) (stage 31 10) (init_arrays e).
Proof.
  intros s Hs Hw. unfold init_arrays. pose proof Hs as (_ & _ & _ & _ & _ & Ha & _). destruct Ha as (H1 & H2 & H3); [lia|].
  cbn [fst snd]. split.
  - revert Hw. destruct (e_in e), (e_power e), (e_acc e); owns; rewrite H1, H2, H3 in Hc; cbn [one cnt] in *; lia.
  - intros _. destruct (e_in e), (e_power e), (e_acc e); stages.
Qed.
Lemma init_input_keeps world e : keeps world (stage 31 10) (fun _ => True) (init_input e).
Proof.
  intros s Hs Hw. unfold init_input. pose proof Hs as (_ & _ & _ & _ & _ & _ & Hi). specialize (Hi ltac:(lia)). split; [|done]. cbn [fst snd].
  revert Hw. destruct (e_input e); owns; rewrite Hi in Hc; cbn [one cnt] in *; lia.
Qed.

Lemma init_steps_keep world e fft_port : env_ok e -> keeps world (stage 0 0) (fun _ => True) (init_steps e fft_port).
Proof.
  intros He. unfold init_steps.
  apply (keeps_andthen _ _ (stage 1 1)); [refine (init_object_keeps world _ 1 DataMutex 0 0 _ _); [lia|rewrite !elem_of_cons; auto 10]|].
  apply (keeps_andthen _ _ (stage 3 2)); [refine (init_object_keeps world _ 2 DataCond 1 1 _ _); [lia|rewrite !elem_of_cons; auto 10]|].
  apply (keeps_andthen _ _ (stage 7 3)); [refine (init_object_keeps world _ 4 ClientLock 3 2 _ _); [lia|rewrite !elem_of_cons; auto 10]|].
  apply (keeps_andthen _ _ (stage 15 4)); [refine (init_object_keeps world _ 8 FftMutex 7 3 _ _); [lia|rewrite !elem_of_cons; auto 10]|].
  apply (keeps_andthen _ _ (stage 31 5)); [refine (init_object_keeps world _ 16 FftCond 15 4 _ _); [lia|rewrite !elem_of_cons; auto 10]|].
  apply (keeps_andthen _ _ (stage 31 6)); [by apply init_control_keeps|].
  apply (keeps_andthen _ _ (stage 31 7)); [apply init_listen_iq_keeps|].
  destruct (0 <? fft_port); [|intros s _ Hw; done].
  apply (keeps_andthen _ _ (stage 31 8)); [apply init_listen_fft_keeps|].
  apply (keeps_andthen _ _ (stage 31 9)); [apply init_plan_keeps|].
  apply (keeps_andthen _ _ (stage 31 10)); [apply init_arrays_keeps|apply init_input_keeps].
Qed.

(** C20.  Setting up and shutting down the server, whatever the system calls answer: a set-up
    that fails at any point has released exactly what it had acquired; one that succeeds owns
    what it acquired, a shutdown releases all of it, and a second shutdown does nothing.
    Nothing is ever released that is not held. *)
Theorem server_setup_no_leak (world : list obj) (e : env) (slot_size : option Z) (iq_port fft_port freq rate : Z)
  (He : env_ok e) :
  let '(r, s) := rtlsdr_server_init world e slot_size iq_port fft_port freq rate in
  (r = 0 \/ r = -1) /\ bad s = false /\
  (r = -1 -> forall o, cnt o (live s) = cnt o world) /\
  (r = 0 -> forall o, cnt o (live s) = cnt o (own s) + cnt o world) /\
  let s1 := rtlsdr_server_shutdown s in
  bad s1 = false /\ (forall o, cnt o (live s1) = cnt o world) /\
  let s2 := rtlsdr_server_shutdown s1 in bad s2 = false /\ live s2 = live s1.
Proof.
  assert (H0 : wf world (fresh world)) by (split; [done|]; intros o; by change (own (fresh world)) with (@nil obj)).
  assert (Hsh : forall s, wf world s -> wf world (rtlsdr_server_shutdown s)).
  { intros s Hw. apply shutdown_releases in Hw as [Hb Hc]. split; [done|]. intros o. rewrite Hc. done. }
  assert (Hd : forall s, wf world s ->
    let s1 := rtlsdr_server_shutdown s in bad s1 = false /\ (forall o, cnt o (live s1) = cnt o world) /\
    let s2 := rtlsdr_server_shutdown s1 in bad s2 = false /\ live s2 = live s1).
  { intros s Hw. pose proof (Hsh s Hw) as Hw1. apply shutdown_releases in Hw as [Hb Hc]. cbn zeta. split; [done|]. split; [intros o; by rewrite Hc|].
    destruct Hw1 as [Hb1 _]. done. }
  unfold rtlsdr_server_init. destruct (init_refused _ _ _ _ _).
  - split; [by right|]. pose proof (Hsh _ H0) as [Hb Hc]. split; [done|]. split; [intros _ o; by rewrite Hc|]. split; [done|].
    apply Hd. by apply Hsh.
  - pose proof (init_steps_keep world e fft_port He (fresh world)) as [Hw _]; [by repeat split|done|].
    destruct (init_steps e fft_port (fresh world)) as [ok s]. cbn [snd] in Hw. destruct ok.
    + split; [by left|]. pose proof Hw as [Hb Hc]. split; [done|]. split; [done|]. split; [done|]. by apply Hd.
    + split; [by right|]. pose proof (Hsh _ Hw) as [Hb Hc]. split; [done|]. split; [intros _ o; by rewrite Hc|]. split; [done|].
      apply Hd. by apply Hsh.
Qed.

(** The second listening socket cannot be bound. *)
Lemma server_setup_no_leak_witness :
  let e := mk_env 0 0 0 0 0 0 3 4 0 0 (mk_listen 5 0 0 0) (mk_listen 6 0 (-1) 0) true true true true true in
  (rtlsdr_server_init [Fd 0] e (Some 262144) 1234 1235 100000000 2400000).1 = -1 /\
  forall o, cnt o (live (rtlsdr_server_init [Fd 0] e (Some 262144) 1234 1235 100000000 2400000).2) = cnt o [Fd 0].
Proof.
  cbn zeta. set (e := mk_env _ _ _ _ _ _ _ _ _ _ _ _ _ _ _ _ _).
  pose proof (server_setup_no_leak [Fd 0] e (Some 262144) 1234 1235 100000000 2400000
    ltac:(intros _; split; vm_compute; discriminate)) as H.
  change (rtlsdr_server_init [Fd 0] e (Some 262144) 1234 1235 100000000 2400000).1 with (-1).
  destruct (rtlsdr_server_init [Fd 0] e (Some 262144) 1234 1235 100000000 2400000) as [r s] eqn:E.
  assert (Er : r = -1) by (change r with (r, s).1; rewrite <- E; reflexivity).
  destruct H as (_ & _ & H & _). split; [reflexivity|exact (H Er)].
Defined.

End ServerRunProps.
