(* ===== verification/RtlStream.v ===== *)
(** * The program around the stream server ([src/src/rtl_stream.c])

    [Module RtlStream]: the options, and [main] from the checks of the options on.  Every call
    that can fail has its answer in an environment; what [main] does to the pipe, the ring, the
    device, the server and the two threads is recorded as a list of actions.  The answers of the
    rounds of the main loop are a list; behind its end a signal has arrived.

    [RtlStreamProps]: however [main] ends, it gives everything back, in an order in which
    nothing is used behind its release. *)

From S2P Require Import Prelude Float.

Module RtlStream.

(** ** Options *)

Section Options.
(** [strtod]: [None] when nothing is converted, otherwise the value and the rest. *)
Context (strtod : list Z -> option (flt * list Z)).

Definition parse_freq (arg : list Z) : flt :=
  match strtod arg with
  | None => S754_nan
  | Some (val, rest) =>
      match rest with
      | [] => val
      | c :: rest =>
          let scaled k := match rest with [] => f64_mul val (f64_of_Z k) | _ => S754_nan end in
          if (c =? 107) || (c =? 75) then scaled 1000
          else if (c =? 109) || (c =? 77) then scaled 1000000
          else if (c =? 103) || (c =? 71) then scaled 1000000000
          else S754_nan
      end
  end.
End Options.

Definition isfinite (x : flt) : bool := match x with S754_finite _ _ _ | S754_zero _ => true | _ => false end.
(** Where [usage] is called behind the options. *)
Definition refused (freq sample_rate : flt) (iq_port fft_port dev_index : Z) : bool :=
  negb (isfinite freq) || f_le freq f_zero || f_lt (f64_of_Z 4294967295) freq
  || negb (isfinite sample_rate) || f_le sample_rate f_zero || f_lt (f64_of_Z 4294967295) sample_rate
  || (iq_port <? 1) || (65535 <? iq_port) || (fft_port <? 0) || (65535 <? fft_port) || (dev_index <? 0).

(** ** The main loop and the end *)

Inductive act :=
  | OpenPipe | ClosePipe
  | CreateRing | DestroyRing
  | OpenDev | CloseDev
  | InitServer | RequestStop | Shutdown
  | StartServer | JoinServer
  | StartCapture | CancelCapture | JoinCapture
  | Notify (freq : Z).

(** What a round of the main loop sees: the three flags of its condition, the result of
    [poll] and whether it was interrupted, [do_exit] behind it, and the frequency of the
    device. *)
Record round := mk_round {
  r_exit : bool; r_capture_done : bool; r_server_done : bool;
  r_poll : Z; r_eintr : bool; r_exit2 : bool; r_freq : Z;
}.

(** The loop from a round on: [result], and the notification. *)
Fixpoint main_loop (rs : list round) (actual_freq : Z) (retuned : bool) : Z * list act :=
  match rs with
  | [] => (0, [])
  | r :: rs =>
      if r_exit r || r_capture_done r || r_server_done r then (0, [])
      else if (r_poll r <? 0) && negb (r_eintr r) then (1, [])
      else if negb retuned && negb (r_exit2 r) && negb (r_freq r =? 0) && negb (r_freq r =? actual_freq) then
        let '(res, acts) := main_loop rs actual_freq true in (res, Notify (r_freq r) :: acts)
      else main_loop rs actual_freq retuned
  end.

(** The answers of the calls: [pipe] and both [fcntl], [sigaction], the ring, the device, the
    four settings, rate and frequency read back, the server, [do_exit] before the threads, both
    threads, the rounds, the cancellations it takes, and the results of the threads. *)
Record env := mk_env {
  e_pipe : bool; e_fcntl : bool; e_sigaction : bool; e_ring : bool; e_open : bool; e_configure : bool;
  e_rate : Z; e_freq : Z; e_init : bool; e_exit : bool; e_server_thread : bool; e_capture_thread : bool;
  e_rounds : list round; e_cancels : nat; e_capture_result : Z; e_server_result : Z;
}.

(** Which resources there are at the label [cleanup]. *)
Record held := mk_held {
  h_pipe : bool; h_ring : bool; h_dev : bool; h_initialized : bool; h_server : bool; h_capture : bool;
}.
Definition cleanup (h : held) (e : env) (result : Z) : Z * list act :=
  let a := if h_initialized h then [RequestStop] else [] in
  let '(result, b) :=
    if h_capture h
    then (if e_capture_result e <? 0 then 1 else result, replicate (e_cancels e) CancelCapture ++ [JoinCapture])
    else (result, []) in
  let '(result, c) :=
    if h_server h then (if e_server_result e <? 0 then 1 else result, [JoinServer]) else (result, []) in
  let d := if h_initialized h then [Shutdown] else [] in
  let f := if h_dev h then [CloseDev] else [] in
  let g := if h_ring h then [DestroyRing] else [] in
  let i := if h_pipe h then [ClosePipe] else [] in
  (result, a ++ b ++ c ++ d ++ f ++ g ++ i).

Definition goto_cleanup (acts : list act) (h : held) (e : env) (result : Z) : Z * list act :=
  let '(result, tail) := cleanup h e result in (result, acts ++ tail).

(** [main] behind the checks of its options: the exit status and the actions. *)
Definition main (e : env) : Z * list act :=
  let h := mk_held false false false false false false in
  if negb (e_pipe e) then goto_cleanup [] h e 1
  else
    let h := mk_held true false false false false false in
    let acts := [OpenPipe] in
    if negb (e_fcntl e) || negb (e_sigaction e) || negb (e_ring e) then goto_cleanup acts h e 1
    else
      let h := mk_held true true false false false false in
      let acts := acts ++ [CreateRing] in
      if negb (e_open e) then goto_cleanup acts h e 1
      else
        let h := mk_held true true true false false false in
        let acts := acts ++ [OpenDev] in
        if negb (e_configure e) || (e_rate e =? 0) || (e_freq e =? 0) || negb (e_init e) then goto_cleanup acts h e 1
        else
          let h := mk_held true true true true false false in
          let acts := acts ++ [InitServer] in
          if e_exit e || negb (e_server_thread e) then goto_cleanup acts h e 1
          else
            let h := mk_held true true true true true false in
            let acts := acts ++ [StartServer] in
            if negb (e_capture_thread e) then goto_cleanup acts h e 1
            else
              let h := mk_held true true true true true true in
              let acts := acts ++ [StartCapture] in
              let '(result, l) := main_loop (e_rounds e) (e_freq e) false in
              goto_cleanup (acts ++ l) h e result.

End RtlStream.

Module RtlStreamProps.
Import RtlStream.

(** What the actions need and do: threads run on the server, the server uses the ring, the
    capture thread the device and the server. *)
Definition perform (a : act) (h : held) : option held :=
  let '(mk_held pipe ring dev init server capture) := h in
  match a with
  | OpenPipe => if pipe then None else Some (mk_held true ring dev init server capture)
  | ClosePipe => if pipe && negb server && negb capture then Some (mk_held false ring dev init server capture) else None
  | CreateRing => if ring then None else Some (mk_held pipe true dev init server capture)
  | DestroyRing => if ring && negb init then Some (mk_held pipe false dev init server capture) else None
  | OpenDev => if dev then None else Some (mk_held pipe ring true init server capture)
  | CloseDev => if dev && negb capture then Some (mk_held pipe ring false init server capture) else None
  | InitServer => if ring && negb init then Some (mk_held pipe ring dev true server capture) else None
  | RequestStop => if init then Some h else None
  | Shutdown => if init && negb server && negb capture then Some (mk_held pipe ring dev false server capture) else None
  | StartServer => if init && negb server then Some (mk_held pipe ring dev init true capture) else None
  | JoinServer => if server then Some (mk_held pipe ring dev init false capture) else None
  | StartCapture => if dev && init && negb capture then Some (mk_held pipe ring dev init server true) else None
  | CancelCapture => if capture then Some h else None
  | JoinCapture => if capture then Some (mk_held pipe ring dev init server false) else None
  | Notify _ => if init && dev then Some h else None
  end.
Abbreviation performs := (perform_all perform).

Definition nothing : held := mk_held false false false false false false.

Lemma performs_cancels n h : h_capture h = true -> performs (replicate n CancelCapture) h = Some h.
Proof. intros Hc. induction n as [|n IH]; [done|]. destruct h. cbn in *. by subst. Qed.

(** The loop only notifies, at most once, and of a frequency that differs. *)
Lemma main_loop_acts rs f : forall retuned,
  let '(_, l) := main_loop rs f retuned in l = [] \/ retuned = false /\ exists g, g <> f /\ g <> 0 /\ l = [Notify g].
Proof.
  induction rs as [|r rs IH]; intros retuned; cbn [main_loop]; [by left|].
  destruct (r_exit r || r_capture_done r || r_server_done r); [by left|]. destruct ((r_poll r <? 0) && negb (r_eintr r)); [by left|].
  destruct (negb retuned && negb (r_exit2 r) && negb (r_freq r =? 0) && negb (r_freq r =? f)) eqn:E; [|apply IH].
  rewrite !andb_true_iff, !negb_true_iff, !Z.eqb_neq in E. destruct E as [[[-> _] H0] Hf].
  specialize (IH true). destruct (main_loop rs f true) as [res l]. destruct IH as [->|[? _]]; [|done].
  right. split; [done|]. by exists (r_freq r).
Qed.

(** Everything held at the label is given back. *)
Lemma cleanup_releases h e res : (h_server h = true -> h_initialized h = true) -> (h_capture h = true -> h_initialized h = true) ->
  (h_initialized h = true -> h_ring h = true) -> performs (cleanup h e res).2 h = Some nothing.
Proof.
  intros H1 H2 H3. unfold cleanup. destruct h as [p r d i s c]. cbn [h_pipe h_ring h_dev h_initialized h_server h_capture] in *.
  destruct c.
  - specialize (H2 eq_refl) as ->. specialize (H3 eq_refl) as ->.
    destruct s, p, d; cbn [snd app]; (cbn [perform_all perform mbind option_bind]);
      rewrite !performs_app, performs_cancels by done; reflexivity.
  - destruct s; [specialize (H1 eq_refl) as ->; specialize (H3 eq_refl) as ->; by destruct p, d|].
    destruct i; [specialize (H3 eq_refl) as ->; by destruct p, d|by destruct p, r, d].
Qed.

Lemma goto_releases acts h e res : performs acts nothing = Some h -> (h_server h = true -> h_initialized h = true) ->
  (h_capture h = true -> h_initialized h = true) -> (h_initialized h = true -> h_ring h = true) ->
  performs (goto_cleanup acts h e res).2 nothing = Some nothing.
Proof.
  intros Ha H1 H2 H3. unfold goto_cleanup. pose proof (cleanup_releases h e res H1 H2 H3) as Hc. destruct (cleanup h e res) as [res' tail].
  cbn [snd] in *. by rewrite performs_app, Ha.
Qed.

Definition is_notify (a : act) : bool := match a with Notify _ => true | _ => false end.
Lemma cleanup_quiet h e res : filter (fun a => is_notify a = true) (cleanup h e res).2 = [].
Proof.
  unfold cleanup. destruct h as [p r d i s c]. cbn [h_pipe h_ring h_dev h_initialized h_server h_capture].
  assert (Hn : filter (fun a => is_notify a = true) (replicate (e_cancels e) CancelCapture) = []) by (induction (e_cancels e); done).
  destruct c, s; cbn [snd]; rewrite !list.filter_app, ?Hn; by destruct i, d, r, p.
Qed.
Lemma goto_notifies acts h e res : filter (fun a => is_notify a = true) (goto_cleanup acts h e res).2 = filter (fun a => is_notify a = true) acts.
Proof.
  unfold goto_cleanup. pose proof (cleanup_quiet h e res) as Hq. destruct (cleanup h e res) as [res' tail]. cbn [snd] in *.
  by rewrite list.filter_app, Hq, app_nil_r.
Qed.
Lemma main_notifies e : (length (filter (fun a => is_notify a = true) (main e).2) <= 1)%nat.
Proof.
  unfold main. cbv zeta.
  repeat match goal with |- context [if ?b then _ else _] => destruct b; [rewrite goto_notifies; vm_compute; lia|] end.
  pose proof (main_loop_acts (e_rounds e) (e_freq e) false) as Hl. destruct (main_loop (e_rounds e) (e_freq e) false) as [res l].
  rewrite goto_notifies. destruct Hl as [->|(_ & g & _ & _ & ->)]; vm_compute; lia.
Qed.

(** C21.  However main of rtl_stream ends - wherever a call fails, with either thread gone or
    with a signal, after any rounds of its loop - its actions can be performed one after the
    other and leave nothing held: no thread runs on a server that is shut down or a device that
    is closed, the ring outlives the server, each resource is released once.  Clients are
    notified of at most one change of frequency. *)
Theorem stream_main_releases (e : env) :
  performs (main e).2 nothing = Some nothing /\
  (length (filter (fun a => is_notify a = true) (main e).2) <= 1)%nat.
Proof.
  split; [|apply main_notifies].
  unfold main. cbv zeta.
  repeat match goal with |- context [if ?b then _ else _] => destruct b; [by apply goto_releases|] end.
  pose proof (main_loop_acts (e_rounds e) (e_freq e) false) as Hl. destruct (main_loop (e_rounds e) (e_freq e) false) as [res l].
  apply goto_releases; [|done..]. rewrite performs_app. by destruct Hl as [->|(_ & g & _ & _ & ->)].
Qed.
End RtlStreamProps.
