(* ===== verification/I2c.v ===== *)
(** * The tuner drivers' view of the device ([src/include/rtlsdr_i2c.h])

    [Class I2c] has the functions of that header over an arbitrary device state; the
    tuner drivers are written against it.  [Class I2cRegs] states what a driver may rely
    on: behind an I2C address there is a file of 8-bit registers, a message that is
    acknowledged in full stores its bytes from the register it names on, and nothing
    else the driver calls changes a register.  Messages that fail may do anything. *)

From S2P Require Import Prelude.

Class I2c (D : Type) := {
  rtlsdr_i2c_write_fn : Z -> list Z -> st D Z;
  rtlsdr_i2c_read_fn : Z -> Z -> st D (Z * list Z);
  rtlsdr_check_dongle_model : D -> string -> string -> bool;
  rtlsdr_set_bias_tee_gpio : Z -> Z -> st D Z;
  rtlsdr_get_tuner_clock : D -> Z;
}.

(** [bytes] stored in a register file from [reg] on. *)
Definition store_regs (f : Z -> Z) (reg : Z) (bytes : list Z) : Z -> Z :=
  fun r => if (reg <=? r) && (r <? reg + zlen bytes) then rd bytes (r - reg) else f r.

Class I2cRegs (D : Type) `{I2c D} (addr : Z) (regs : D -> Z -> Z) := {
  i2c_write_regs d reg bytes rc d' :
    rtlsdr_i2c_write_fn addr (reg :: bytes) d = (rc, d') -> rc = 1 + zlen bytes ->
    forall r, regs d' r = store_regs (regs d) reg bytes r;
  i2c_read_regs d len r : regs (rtlsdr_i2c_read_fn addr len d).2 r = regs d r;
  i2c_gpio_regs d gpio on r : regs (rtlsdr_set_bias_tee_gpio gpio on d).2 r = regs d r;
}.

(** A message (the library sends at most 255 bytes) is refused or taken whole, for the
    drivers that only test the sign of the result. *)
Class I2cFull (D : Type) `{I2c D} (addr : Z) :=
  i2c_write_full d msg : zlen msg < 256 ->
    (rtlsdr_i2c_write_fn addr msg d).1 < 0 \/ (rtlsdr_i2c_write_fn addr msg d).1 = zlen msg.

(** A bus without errors: messages are taken whole, and a register that has just been
    addressed is read, as what is stored in it but for the bits under [status], which the
    chip sets and clears as it likes. *)
Class I2cReliable (D : Type) `{I2c D} (addr : Z) (regs : D -> Z -> Z) (status : Z -> Z) := {
  i2c_write_ok d msg : zlen msg < 256 -> (rtlsdr_i2c_write_fn addr msg d).1 = zlen msg;
  i2c_read_ok d reg : exists v,
    (rtlsdr_i2c_read_fn addr 1 (rtlsdr_i2c_write_fn addr [reg] d).2).1 = (1, [v]) /\
    v &' ~' status reg = regs d reg &' ~' status reg;
}.

(** A register without such bits reads back. *)
Lemma i2c_readback {D} `{I2c D} {addr regs} `{!I2cReliable D addr regs (fun _ => 0)} d reg :
  (rtlsdr_i2c_read_fn addr 1 (rtlsdr_i2c_write_fn addr [reg] d).2).1 = (1, [regs d reg]).
Proof. destruct (i2c_read_ok d reg) as (v & -> & E). change (~' 0) with (-1) in E. by rewrite !Z.land_m1_r in E; subst v. Qed.

Lemma store_regs_nil f reg r : store_regs f reg [] r = f r.
Proof. unfold store_regs. destruct (Z.leb_spec reg r), (Z.ltb_spec r (reg + zlen (@nil Z))); unfold zlen in *; simpl in *; try lia; done. Qed.

Lemma store_regs_app f reg a b r :
  store_regs (store_regs f reg a) (reg + zlen a) b r = store_regs f reg (a ++ b) r.
Proof.
  unfold store_regs, zlen, rd. rewrite length_app.
  destruct (Z.leb_spec (reg + Z.of_nat (length a)) r), (Z.leb_spec reg r),
    (Z.ltb_spec r (reg + Z.of_nat (length a))),
    (Z.ltb_spec r (reg + Z.of_nat (length a) + Z.of_nat (length b))),
    (Z.ltb_spec r (reg + Z.of_nat (length a + length b))); simpl; try lia; try done.
  - destruct (Z.ltb_spec (r - (reg + Z.of_nat (length a))) 0), (Z.ltb_spec (r - reg) 0); try lia.
    rewrite lookup_app_r by lia. do 2 f_equal. lia.
  - destruct (Z.ltb_spec (r - reg) 0); [lia|]. rewrite lookup_app_l by lia. done.
Qed.

Lemma store_regs_one f reg v r : store_regs f reg [v] r = if r =? reg then v else f r.
Proof.
  unfold store_regs. change (zlen [v]) with 1.
  destruct (Z.eqb_spec r reg) as [E|E]; destruct (Z.leb_spec reg r), (Z.ltb_spec r (reg + 1)); try lia; try done.
  by rewrite E, Z.sub_diag.
Qed.
Lemma store_regs_cons f reg v l r : store_regs f reg (v :: l) r = store_regs (store_regs f reg [v]) (reg + 1) l r.
Proof. by rewrite <- (store_regs_app f reg [v] l). Qed.

(** A device that is nothing but its registers and a register pointer, for instances of
    the theorems. *)
Record reg_device := mk_reg_device { dev_file : Z -> Z; dev_ptr : Z }.

#[global] Instance reg_device_i2c : I2c reg_device := {
  rtlsdr_i2c_write_fn addr msg d :=
    match msg with
    | [] => (0, d)
    | reg :: bytes => (1 + zlen bytes, mk_reg_device (store_regs (dev_file d) reg bytes) reg)
    end;
  rtlsdr_i2c_read_fn addr len d := ((len, dev_file d <$> seqZ (dev_ptr d) len), d);
  rtlsdr_check_dongle_model d manufact product := false;
  rtlsdr_set_bias_tee_gpio gpio on d := (0, d);
  rtlsdr_get_tuner_clock d := 28800000;
}.

#[global] Instance reg_device_regs addr : I2cRegs reg_device addr dev_file.
Proof. split; try done. intros d reg bytes rc d' E _. by injection E as _ <-. Defined.

#[global] Instance reg_device_full addr : I2cFull reg_device addr.
Proof. intros d [|reg bytes] _; right; [done|]. cbn. unfold zlen. cbn. lia. Defined.

#[global] Instance reg_device_reliable addr status : I2cReliable reg_device addr dev_file status.
Proof.
  split.
  - intros d [|reg bytes] _; [done|]. cbn. unfold zlen. cbn. lia.
  - intros d reg. exists (dev_file d reg). split; [|done]. cbn [rtlsdr_i2c_read_fn rtlsdr_i2c_write_fn reg_device_i2c fst snd dev_file dev_ptr].
    change (seqZ reg 1) with [0 + reg]. rewrite Z.add_0_l. cbn [fmap list_fmap]. by rewrite store_regs_nil.
Defined.
