(* ===== verification/TunerR82xx.v ===== *)
(** * Rafael Micro R820T/R828D driver ([src/src/tuner_r82xx.c], [src/include/tuner_r82xx.h])

    The driver keeps a shadow copy of the tuner's registers and writes only what changes.
    [Module R82xx] has every function of the file over the interface of [I2c]; the state
    is the driver's private data with the device.  The I2C message buffer [priv->buf] is
    filled before every use and not part of the state.

    [R82xxFacts], [R82xxBits] and [R82xxPll]: what the functions do to shadow and chip, which bits
    they touch, and the arithmetic of the PLL; the theorems are in [TunerR82xxProps]. *)

From S2P Require Import Prelude Float I2c.

Module R82xx.

Abbreviation R820T_I2C_ADDR := (0x34)%Z (only parsing).
Abbreviation R828D_I2C_ADDR := (0x74)%Z (only parsing).
Definition R82XX_IF_FREQ : Z := 3570000.
Definition REG_SHADOW_START : Z := 5.
Definition NUM_REGS : Z := 30.
Abbreviation VER_NUM := (49)%Z (only parsing).

Inductive r82xx_chip := CHIP_R820T | CHIP_R620D | CHIP_R828D | CHIP_R828 | CHIP_R828S | CHIP_R820C.

#[global] Instance r82xx_chip_eq_dec : EqDecision r82xx_chip.
Proof. solve_decision. Defined.

(** [enum r82xx_tuner_type]; the code also stores -1. *)
Abbreviation TUNER_RADIO := (1)%Z (only parsing).
Abbreviation TUNER_ANALOG_TV := (2)%Z (only parsing).
Abbreviation TUNER_DIGITAL_TV := (3)%Z (only parsing).

Inductive r82xx_xtal_cap_value := XTAL_LOW_CAP_30P | XTAL_LOW_CAP_20P | XTAL_LOW_CAP_10P
  | XTAL_LOW_CAP_0P | XTAL_HIGH_CAP_0P.

Abbreviation SYS_UNDEFINED := (0)%Z (only parsing).
Abbreviation SYS_DVBT := (1)%Z (only parsing).
Abbreviation SYS_DVBT2 := (2)%Z (only parsing).
Abbreviation SYS_ISDBT := (3)%Z (only parsing).

Record r82xx_config := mk_config {
  i2c_addr : Z;
  xtal : Z;
  rafael_chip : r82xx_chip;
  max_i2c_msg_len : Z;
  use_predetect : bool;
}.

Record r82xx_priv := mk_priv {
  cfg : r82xx_config;
  regs : list Z;
  xtal_cap_sel : r82xx_xtal_cap_value;
  int_freq : Z;
  fil_cal_code : Z;
  input : Z;
  has_lock : bool;
  init_done : bool;
  delsys : Z;
  type : Z;
  bw : Z;
}.

Definition set_regs (p : r82xx_priv) (l : list Z) : r82xx_priv :=
  mk_priv (cfg p) l (xtal_cap_sel p) (int_freq p) (fil_cal_code p) (input p) (has_lock p)
    (init_done p) (delsys p) (type p) (bw p).
Definition set_xtal_cap_sel (v : r82xx_xtal_cap_value) (p : r82xx_priv) : r82xx_priv :=
  mk_priv (cfg p) (regs p) v (int_freq p) (fil_cal_code p) (input p) (has_lock p)
    (init_done p) (delsys p) (type p) (bw p).
Definition set_int_freq (v : Z) (p : r82xx_priv) : r82xx_priv :=
  mk_priv (cfg p) (regs p) (xtal_cap_sel p) v (fil_cal_code p) (input p) (has_lock p)
    (init_done p) (delsys p) (type p) (bw p).
Definition set_fil_cal_code (v : Z) (p : r82xx_priv) : r82xx_priv :=
  mk_priv (cfg p) (regs p) (xtal_cap_sel p) (int_freq p) v (input p) (has_lock p)
    (init_done p) (delsys p) (type p) (bw p).
Definition set_input (v : Z) (p : r82xx_priv) : r82xx_priv :=
  mk_priv (cfg p) (regs p) (xtal_cap_sel p) (int_freq p) (fil_cal_code p) v (has_lock p)
    (init_done p) (delsys p) (type p) (bw p).
Definition set_has_lock (v : bool) (p : r82xx_priv) : r82xx_priv :=
  mk_priv (cfg p) (regs p) (xtal_cap_sel p) (int_freq p) (fil_cal_code p) (input p) v
    (init_done p) (delsys p) (type p) (bw p).
Definition set_init_done (v : bool) (p : r82xx_priv) : r82xx_priv :=
  mk_priv (cfg p) (regs p) (xtal_cap_sel p) (int_freq p) (fil_cal_code p) (input p) (has_lock p)
    v (delsys p) (type p) (bw p).
Definition set_standard (d t b : Z) (p : r82xx_priv) : r82xx_priv :=
  mk_priv (cfg p) (regs p) (xtal_cap_sel p) (int_freq p) (fil_cal_code p) (input p) (has_lock p)
    (init_done p) d t b.

(** The initialiser has 27 values; C sets the other three to 0. *)
Definition r82xx_init_array : list Z :=
  [0x83; 0x32; 0x75; 0xc0; 0x40; 0xd6; 0x6c; 0xf5; 0x63; 0x75; 0x68; 0x6c; 0x83; 0x80; 0x00;
   0x0f; 0x00; 0xc0; 0x30; 0x48; 0xcc; 0x60; 0x00; 0x54; 0xae; 0x4a; 0xc0; 0; 0; 0].

Record r82xx_freq_range := mk_range {
  freq : Z;
  open_d : Z;
  rf_mux_ploy : Z;
  tf_c : Z;
  xtal_cap20p : Z;
  xtal_cap10p : Z;
  xtal_cap0p : Z;
}.

Definition freq_ranges : list r82xx_freq_range :=
  [mk_range 0   0x08 0x02 0xdf 0x02 0x01 0x00;
   mk_range 50  0x08 0x02 0xbe 0x02 0x01 0x00;
   mk_range 55  0x08 0x02 0x8b 0x02 0x01 0x00;
   mk_range 60  0x08 0x02 0x7b 0x02 0x01 0x00;
   mk_range 65  0x08 0x02 0x69 0x02 0x01 0x00;
   mk_range 70  0x08 0x02 0x58 0x02 0x01 0x00;
   mk_range 75  0x00 0x02 0x44 0x02 0x01 0x00;
   mk_range 80  0x00 0x02 0x44 0x02 0x01 0x00;
   mk_range 90  0x00 0x02 0x34 0x01 0x01 0x00;
   mk_range 100 0x00 0x02 0x34 0x01 0x01 0x00;
   mk_range 110 0x00 0x02 0x24 0x01 0x01 0x00;
   mk_range 120 0x00 0x02 0x24 0x01 0x01 0x00;
   mk_range 140 0x00 0x02 0x14 0x01 0x01 0x00;
   mk_range 180 0x00 0x02 0x13 0x00 0x00 0x00;
   mk_range 220 0x00 0x02 0x13 0x00 0x00 0x00;
   mk_range 250 0x00 0x02 0x11 0x00 0x00 0x00;
   mk_range 280 0x00 0x02 0x00 0x00 0x00 0x00;
   mk_range 310 0x00 0x41 0x00 0x00 0x00 0x00;
   mk_range 450 0x00 0x41 0x00 0x00 0x00 0x00;
   mk_range 588 0x00 0x40 0x00 0x00 0x00 0x00;
   mk_range 650 0x00 0x40 0x00 0x00 0x00 0x00].

Definition r82xx_xtal_capacitor : list (Z * r82xx_xtal_cap_value) :=
  [(0x0b, XTAL_LOW_CAP_30P); (0x02, XTAL_LOW_CAP_20P); (0x01, XTAL_LOW_CAP_10P);
   (0x00, XTAL_LOW_CAP_0P); (0x10, XTAL_HIGH_CAP_0P)].

(** The value of an enumerator. *)
Definition cap_value (v : r82xx_xtal_cap_value) : Z :=
  match v with
  | XTAL_LOW_CAP_30P => 0 | XTAL_LOW_CAP_20P => 1 | XTAL_LOW_CAP_10P => 2
  | XTAL_LOW_CAP_0P => 3 | XTAL_HIGH_CAP_0P => 4
  end.

(** *** Registers *)

Definition shadow_store (l : list Z) (reg : Z) (val : list Z) : list Z :=
  let r := reg - REG_SHADOW_START in
  let len := zlen val in
  let '(r, val, len) := if r <? 0 then (0, drop (Z.to_nat (- r)) val, len + r) else (r, val, len) in
  if len <=? 0 then l
  else
    let len := if NUM_REGS - r <? len then NUM_REGS - r else len in
    blit l r (take (Z.to_nat len) val).

Definition shadow_equal (l : list Z) (reg : Z) (val : list Z) : bool :=
  let r := reg - REG_SHADOW_START in
  let len := zlen val in
  if (r <? 0) || (len <? 0) || (NUM_REGS - r <? len) then false
  else bool_decide (slice l r len = val).

Definition r82xx_read_cache_reg (p : r82xx_priv) (reg : Z) : Z :=
  let reg := reg - REG_SHADOW_START in
  if (0 <=? reg) && (reg <? NUM_REGS) then rd (regs p) reg else -1.

Definition r82xx_bitrev (byte : Z) : Z :=
  let lut := [0x0; 0x8; 0x4; 0xc; 0x2; 0xa; 0x6; 0xe; 0x1; 0x9; 0x5; 0xd; 0x3; 0xb; 0x7; 0xf] in
  u8 ((rd lut (byte &' 0xf) <<' 4) |' rd lut (byte >>' 4)).

Definition mask_reg8 (reg val mask : Z) : Z := u8 ((reg &' ~' mask) |' (val &' mask)).

(** The driver with its device. *)
Record r82xx (D : Type) := mk_r82xx { priv : r82xx_priv; dev : D }.
Arguments mk_r82xx {D}.
Arguments priv {D}.
Arguments dev {D}.

Section Driver.
Context {D : Type} `{I2c D}.

Abbreviation M := (st (r82xx D)).

Definition get_priv : M r82xx_priv := fun s => (priv s, s).
Definition mod_priv (f : r82xx_priv -> r82xx_priv) : M unit :=
  fun s => (tt, mk_r82xx (f (priv s)) (dev s)).
Definition on_dev {A} (m : st D A) : M A :=
  fun s => let '(x, d) := m (dev s) in (x, mk_r82xx (priv s) d).

(** The [do ... while] loop of [r82xx_write]; every round but a failing one sends at
    least a byte when messages have room for one, so [fuel] is the length. *)
Fixpoint write_loop (fuel : nat) (reg : Z) (val : list Z) : M Z :=
  match fuel with
  | O => mret 0
  | S fuel' =>
      p ← get_priv;
      let room := u32 (max_i2c_msg_len (cfg p) - 1) in
      let size := if room <? zlen val then room else zlen val in
      rc ← on_dev (rtlsdr_i2c_write_fn (i2c_addr (cfg p)) (reg :: take (Z.to_nat size) val));
      if negb (rc =? size + 1) then mret (if rc <? 0 then rc else -1)
      else
        let rest := drop (Z.to_nat size) val in
        if 0 <? zlen rest then write_loop fuel' (u8 (reg + size)) rest else mret 0
  end.

Definition r82xx_write (reg : Z) (val : list Z) : M Z :=
  p ← get_priv;
  if shadow_equal (regs p) reg val then mret 0
  else
    _ ← mod_priv (fun p => set_regs p (shadow_store (regs p) reg val));
    write_loop (S (length val)) reg val.

Definition r82xx_write_reg (reg val : Z) : M Z := r82xx_write reg [val].

Definition r82xx_write_reg_mask (reg val bit_mask : Z) : M Z :=
  p ← get_priv;
  let rc := r82xx_read_cache_reg p reg in
  if rc <? 0 then mret rc
  else r82xx_write reg [u8 ((rc &' ~' bit_mask) |' (val &' bit_mask))].

(** The result and the bytes stored at [val]. *)
Definition r82xx_read (reg len : Z) : M (Z * list Z) :=
  p ← get_priv;
  rc ← on_dev (rtlsdr_i2c_write_fn (i2c_addr (cfg p)) [reg]);
  if negb (rc =? 1) then mret (if rc <? 0 then rc else -1, [])
  else
    '(rc, data) ← on_dev (rtlsdr_i2c_read_fn (i2c_addr (cfg p)) len);
    if negb (rc =? len) then mret (if rc <? 0 then rc else -1, [])
    else mret (0, r82xx_bitrev <$> data).

(** [rc = r82xx_read(...); if (rc < 0) return rc;] and the rest with the data. *)
Definition read_chk (reg len : Z) (k : list Z -> M Z) : M Z :=
  '(rc, data) ← r82xx_read reg len; if rc <? 0 then mret rc else k data.

(** *** Tuning *)

(** The loop that finds the frequency range; [freq] in MHz. *)
Fixpoint find_range (f : Z) (l : list r82xx_freq_range) (dflt : r82xx_freq_range) : r82xx_freq_range :=
  match l with
  | [] => dflt
  | r :: rest =>
      match rest with
      | [] => r
      | next :: _ => if f <? freq next then r else find_range f rest dflt
      end
  end.

Definition xtal_cap_val (sel : r82xx_xtal_cap_value) (range : r82xx_freq_range) : Z :=
  match sel with
  | XTAL_LOW_CAP_30P | XTAL_LOW_CAP_20P => xtal_cap20p range |' 0x08
  | XTAL_LOW_CAP_10P => xtal_cap10p range |' 0x08
  | XTAL_HIGH_CAP_0P => xtal_cap0p range |' 0x00
  | XTAL_LOW_CAP_0P => xtal_cap0p range |' 0x08
  end.

Definition r82xx_set_mux (f : Z) : M Z :=
  p ← get_priv;
  let range := find_range (f / 1000000) freq_ranges (mk_range 0 0 0 0 0 0 0) in
  (r82xx_write_reg_mask 0x17 (open_d range) 0x08) ;?
  (r82xx_write_reg_mask 0x1a (rf_mux_ploy range) 0xc3) ;?
  (r82xx_write_reg 0x1b (tf_c range)) ;?
  (r82xx_write_reg_mask 0x10 (xtal_cap_val (xtal_cap_sel p) range) 0x0b) ;?
  (r82xx_write_reg_mask 0x08 0x00 0x3f) ;?
  (r82xx_write_reg_mask 0x09 0x00 0x3f).

(** [while (div_buf > 2)]: the number of halvings; an 8-bit value takes at most seven. *)
Fixpoint div_num_loop (fuel : nat) (div_buf div_num : Z) : Z :=
  match fuel with
  | O => div_num
  | S fuel' => if 2 <? div_buf then div_num_loop fuel' (div_buf >>' 1) (div_num + 1) else div_num
  end.

(** [while (mix_div <= 64)]: the mixer divider and [div_num], or 128 and 0 when no divider
    brings the VCO into its range; six doublings lead from 2 to 128. *)
Fixpoint mix_div_loop (fuel : nat) (freq_khz vco_min vco_max mix_div : Z) : Z * Z :=
  match fuel with
  | O => (mix_div, 0)
  | S fuel' =>
      if 64 <? mix_div then (mix_div, 0)
      else
        let v := u32 (freq_khz * mix_div) in
        if (vco_min <=? v) && (v <? vco_max) then (mix_div, div_num_loop 7 mix_div 0)
        else mix_div_loop fuel' freq_khz vco_min vco_max (u8 (mix_div <<' 1))
  end.

(** [vco_div / 65536] before it is stored in 8 bits, and [sdm]. *)
Definition pll_divider (pll_ref vco_freq : Z) : Z * Z :=
  let vco_div := u64 (pll_ref + 65536 * vco_freq) / u32 (2 * pll_ref) in
  (vco_div / 65536, vco_div mod 65536).

(** The second half of [r82xx_set_pll]: check the lock twice, raising the VCO current in
    between, and set [has_lock]. *)
Definition pll_lock : M Z :=
  read_chk 0x00 3 (fun data =>
    let finish (data : list Z) :=
      if rd data 2 &' 0x40 =? 0
      then _ ← mod_priv (set_has_lock false); mret 0
      else
        _ ← mod_priv (set_has_lock true);
        r82xx_write_reg_mask 0x1a 0x08 0x08 in
    if negb (rd data 2 &' 0x40 =? 0) then finish data
    else
      (r82xx_write_reg_mask 0x12 0x60 0xe0) ;?
      (read_chk 0x00 3 finish)).

Definition r82xx_set_pll (f : Z) : M Z :=
  let vco_min := 1770000 in
  let vco_max := vco_min * 2 in
  let freq_khz := u32 (f + 500) / 1000 in
  (r82xx_write_reg_mask 0x1a 0x00 0x0c) ;?
  (p ← get_priv;
   let pll_ref := xtal (cfg p) in
   let rs := slice (regs p) (0x10 - REG_SHADOW_START) 7 in
   let rs := wr rs 0 (mask_reg8 (rd rs 0) 0 0x10) in
   let rs := wr rs 2 (mask_reg8 (rd rs 2) 0x80 0xe0) in
   let '(mix_div, div_num) := mix_div_loop 7 freq_khz vco_min vco_max 2 in
   read_chk 0x00 5 (fun data =>
     let vco_power_ref := if decide (rafael_chip (cfg p) = CHIP_R828D) then 1 else 2 in
     let vco_fine_tune := (rd data 4 &' 0x30) >>' 4 in
     let div_num :=
       if vco_power_ref <? vco_fine_tune then u8 (div_num - 1)
       else if vco_fine_tune <? vco_power_ref then u8 (div_num + 1) else div_num in
     let rs := wr rs 0 (mask_reg8 (rd rs 0) (u8 (div_num <<' 5)) 0xe0) in
     let vco_freq := u64 (f * mix_div) in
     let '(n, sdm) := pll_divider pll_ref vco_freq in
     let nint := u8 n in
     if 128 / vco_power_ref - 1 <? nint then mret (-1)
     else
       let ni := u8 (Z.quot (nint - 13) 4) in
       let si := u8 (nint - 4 * ni - 13) in
       let rs := wr rs 4 (u8 (ni + (si <<' 6))) in
       let val := if sdm =? 0 then 0x08 else 0x00 in
       let rs := wr rs 2 (mask_reg8 (rd rs 2) val 0x08) in
       let rs := wr rs 5 (sdm &' 0xff) in
       let rs := wr rs 6 (u8 (sdm >>' 8)) in
       (r82xx_write 0x10 rs) ;? pll_lock)).

(** The constants [r82xx_sysfreq_sel] selects. *)
Record sysfreq := mk_sysfreq {
  mixer_top : Z;
  lna_top : Z;
  cp_cur : Z;
  div_buf_cur : Z;
  lna_vth_l : Z;
  mixer_vth_l : Z;
  air_cable1_in : Z;
  cable2_in : Z;
  pre_dect : Z;
  lna_discharge : Z;
  filter_cur : Z;
}.

Definition sysfreq_of (delsys f : Z) : sysfreq :=
  if delsys =? SYS_DVBT then
    if (f =? 506000000) || (f =? 666000000) || (f =? 818000000)
    then mk_sysfreq 0x14 0xe5 0x28 0x20 0x53 0x75 0x00 0x00 0x40 14 0x40
    else mk_sysfreq 0x24 0xe5 0x38 0x30 0x53 0x75 0x00 0x00 0x40 14 0x40
  else if delsys =? SYS_DVBT2
  then mk_sysfreq 0x24 0xe5 0x38 0x30 0x53 0x75 0x00 0x00 0x40 14 0x40
  else if delsys =? SYS_ISDBT
  then mk_sysfreq 0x24 0xe5 0x38 0x30 0x75 0x75 0x00 0x00 0x40 14 0x40
  else mk_sysfreq 0x24 0xe5 0x38 0x30 0x53 0x75 0x00 0x00 0x40 14 0x40.

Definition r82xx_sysfreq_sel (f type delsys : Z) : M Z :=
  let c := sysfreq_of delsys f in
  p ← get_priv;
  (if use_predetect (cfg p) then r82xx_write_reg_mask 0x06 (pre_dect c) 0x40 else mret 0) ;?
  (r82xx_write_reg_mask 0x1d (lna_top c) 0xc7) ;?
  (r82xx_write_reg_mask 0x1c (mixer_top c) 0xf8) ;?
  (r82xx_write_reg 0x0d (lna_vth_l c)) ;?
  (r82xx_write_reg 0x0e (mixer_vth_l c)) ;?
  (_ ← mod_priv (set_input (air_cable1_in c));
   (r82xx_write_reg_mask 0x05 (air_cable1_in c) 0x60) ;?
   (r82xx_write_reg_mask 0x06 (cable2_in c) 0x08) ;?
   (r82xx_write_reg_mask 0x11 (cp_cur c) 0x38) ;?
   (r82xx_write_reg_mask 0x17 (div_buf_cur c) 0x30) ;?
   (r82xx_write_reg_mask 0x0a (filter_cur c) 0x60) ;?
   (if negb (type =? TUNER_ANALOG_TV) then
      (r82xx_write_reg_mask 0x1d 0 0x38) ;?
      (r82xx_write_reg_mask 0x1c 0 0x04) ;?
      (r82xx_write_reg_mask 0x06 0 0x40) ;?
      (r82xx_write_reg_mask 0x1a 0x30 0x30) ;?
      (r82xx_write_reg_mask 0x1d 0x18 0x38) ;?
      (r82xx_write_reg_mask 0x1c (mixer_top c) 0x04) ;?
      (r82xx_write_reg_mask 0x1e (lna_discharge c) 0x1f) ;?
      (r82xx_write_reg_mask 0x1a 0x20 0x30) ;?
      mret 0
    else
      (r82xx_write_reg_mask 0x06 0 0x40) ;?
      (r82xx_write_reg_mask 0x1d (lna_top c) 0x38) ;?
      (r82xx_write_reg_mask 0x1c (mixer_top c) 0x04) ;?
      (r82xx_write_reg_mask 0x1e (lna_discharge c) 0x1f) ;?
      (r82xx_write_reg_mask 0x1a 0x00 0x30) ;?
      (r82xx_write_reg_mask 0x10 0x00 0x04) ;?
      mret 0)).

(** The part of [r82xx_set_tv_standard] behind the calibration. *)
Definition tv_standard_filters (bw type delsys : Z) : M Z :=
  p ← get_priv;
  (r82xx_write_reg_mask 0x0a (0x10 |' fil_cal_code p) 0x1f) ;?
  (r82xx_write_reg_mask 0x0b 0x6b 0xef) ;?
  (r82xx_write_reg_mask 0x07 0x00 0x80) ;?
  (r82xx_write_reg_mask 0x06 0x10 0x30) ;?
  (r82xx_write_reg_mask 0x1e 0x60 0x60) ;?
  (r82xx_write_reg_mask 0x05 0x01 0x80) ;?
  (r82xx_write_reg_mask 0x1f 0x00 0x80) ;?
  (r82xx_write_reg_mask 0x0f 0x00 0x80) ;?
  (r82xx_write_reg_mask 0x19 0x60 0x60) ;?
  (_ ← mod_priv (set_standard delsys type bw); mret 0).

(** The calibration loop, at most [n] rounds, and what follows it. *)
Fixpoint calibrate (n : nat) (k : M Z) : M Z :=
  match n with
  | O => k
  | S n' =>
      (r82xx_write_reg_mask 0x0b 0x6b 0x60) ;?
      (r82xx_write_reg_mask 0x0f 0x04 0x04) ;?
      (r82xx_write_reg_mask 0x10 0x00 0x03) ;?
      (rc ← r82xx_set_pll (56000 * 1000);
       p ← get_priv;
       if (rc <? 0) || negb (has_lock p) then mret rc
       else
         (r82xx_write_reg_mask 0x0b 0x10 0x10) ;?
         (r82xx_write_reg_mask 0x0b 0x00 0x10) ;?
         (r82xx_write_reg_mask 0x0f 0x00 0x04) ;?
         (read_chk 0x00 5 (fun data =>
            let code := rd data 4 &' 0x0f in
            _ ← mod_priv (set_fil_cal_code code);
            if negb (code =? 0) && negb (code =? 0x0f) then k else calibrate n' k)))
  end.

Definition r82xx_set_tv_standard (bw type delsys : Z) : M Z :=
  _ ← mod_priv (fun p => set_regs p r82xx_init_array);
  (r82xx_write_reg_mask 0x0c 0x00 0x0f) ;?
  (r82xx_write_reg_mask 0x13 VER_NUM 0x3f) ;?
  (if negb (type =? TUNER_ANALOG_TV) then r82xx_write_reg_mask 0x1d 0x00 0x38 else mret 0) ;?
  (_ ← mod_priv (set_int_freq (3570 * 1000));
   calibrate 2
     (_ ← mod_priv (fun p => if fil_cal_code p =? 0x0f then set_fil_cal_code 0 p else p);
      tv_standard_filters bw type delsys)).

(** *** Gain *)

Definition r82xx_read_gain : M Z :=
  read_chk 0x00 4 (fun data =>
    mret (((rd data 3 &' 0x0f) <<' 1) + ((rd data 3 &' 0xf0) >>' 4))).

Definition r82xx_lna_gain_steps : list Z := [0; 9; 13; 40; 38; 13; 31; 22; 26; 31; 26; 14; 19; 5; 35; 13].
Definition r82xx_mixer_gain_steps : list Z := [0; 5; 10; 10; 19; 9; 10; 25; 17; 10; 8; 16; 13; 6; 3; -8].

(** The search loop: [i] rounds are left; the total and the two indices. *)
Fixpoint gain_loop (i : nat) (gain total lna mix : Z) : Z * Z * Z :=
  match i with
  | O => (total, lna, mix)
  | S i' =>
      if gain <=? total then (total, lna, mix)
      else
        let lna := lna + 1 in
        let total := total + rd r82xx_lna_gain_steps lna in
        if gain <=? total then (total, lna, mix)
        else
          let mix := mix + 1 in
          gain_loop i' gain (total + rd r82xx_mixer_gain_steps mix) lna mix
  end.

Definition r82xx_set_gain (set_manual_gain : bool) (gain : Z) : M Z :=
  if set_manual_gain then
    (r82xx_write_reg_mask 0x05 0x10 0x10) ;?
    (r82xx_write_reg_mask 0x07 0 0x10) ;?
    (read_chk 0x00 4 (fun _ =>
       (r82xx_write_reg_mask 0x0c 0x08 0x9f) ;?
       (let '(_, lna_index, mix_index) := gain_loop 15 gain 0 0 0 in
        (r82xx_write_reg_mask 0x05 lna_index 0x0f) ;?
        (r82xx_write_reg_mask 0x07 mix_index 0x0f) ;?
        mret 0)))
  else
    (r82xx_write_reg_mask 0x05 0 0x10) ;?
    (r82xx_write_reg_mask 0x07 0x10 0x10) ;?
    (r82xx_write_reg_mask 0x0c 0x0b 0x9f) ;?
    mret 0.

(** *** Bandwidth and frequency *)

Definition r82xx_if_low_pass_bw_table : list Z :=
  [1700000; 1600000; 1550000; 1450000; 1200000; 900000; 700000; 550000; 450000; 350000].
Definition FILT_HP_BW1 : Z := 350000.
Definition FILT_HP_BW2 : Z := 380000.

(** The loop over the table: the first index whose entry is less than [bw]. *)
Fixpoint low_pass_index (l : list Z) (bw i : Z) : Z :=
  match l with
  | [] => i
  | x :: l => if x <? bw then i else low_pass_index l bw (i + 1)
  end.

(** The computation of [r82xx_set_bandwidth]: the two register values and [int_freq]. *)
Definition bandwidth_regs (bw : Z) : Z * Z * Z :=
  if 7000000 <? bw then (0x10, 0x0b, 4570000)
  else if 6000000 <? bw then (0x10, 0x2a, 4570000)
  else if rd r82xx_if_low_pass_bw_table 0 + FILT_HP_BW1 + FILT_HP_BW2 <? bw
  then (0x10, 0x6b, 3570000)
  else
    let '(bw, intf, real_bw, reg_0b) :=
      if rd r82xx_if_low_pass_bw_table 0 + FILT_HP_BW1 <? bw
      then (bw - FILT_HP_BW2, 2300000 + FILT_HP_BW2, FILT_HP_BW2, 0x80)
      else (bw, 2300000, 0, 0x80 |' 0x20) in
    let '(bw, intf, real_bw, reg_0b) :=
      if rd r82xx_if_low_pass_bw_table 0 <? bw
      then (bw - FILT_HP_BW1, intf + FILT_HP_BW1, real_bw + FILT_HP_BW1, reg_0b)
      else (bw, intf, real_bw, reg_0b |' 0x40) in
    let i := u32 (low_pass_index r82xx_if_low_pass_bw_table bw 0 - 1) in
    let reg_0b := u8 (reg_0b |' u32 (15 - i)) in
    let real_bw := real_bw + rd r82xx_if_low_pass_bw_table i in
    (0x00, reg_0b, u32 (intf - Z.quot real_bw 2)).

Definition r82xx_set_bandwidth (bw rate : Z) : M Z :=
  let '(reg_0a, reg_0b, intf) := bandwidth_regs bw in
  _ ← mod_priv (set_int_freq intf);
  (r82xx_write_reg_mask 0x0a reg_0a 0x10) ;?
  (r82xx_write_reg_mask 0x0b reg_0b 0xef) ;?
  mret intf.

Abbreviation HF := (1)%Z (only parsing).
Abbreviation VHF := (2)%Z (only parsing).
Abbreviation UHF := (3)%Z (only parsing).

(** [MHZ(x)] for [x = n / d]: the product in double precision. *)
Definition MHZ (n d : Z) : flt := f64_mul (f64_mul (f64_lit n d) (f64_of_Z 1000)) (f64_of_Z 1000).

Definition upconvert (is_v4 : bool) (f : Z) : Z :=
  if is_v4
  then u32 (f_trunc (if f_lt (f64_of_Z f) (MHZ 288 10) then f64_add (f64_of_Z f) (MHZ 288 10)
                     else f64_of_Z f))
  else f.

Definition f_le (x y : flt) : bool := negb (f_lt y x).

(** The notch filters of the RTL-SDR Blog V4 and its bands. *)
Definition v4_open_d (f : Z) : Z :=
  if f_le (f64_of_Z f) (MHZ 22 10) || ((85000000 <=? f) && (f <=? 112000000))
     || ((172000000 <=? f) && (f <=? 242000000))
  then 0x00 else 0x08.
Definition v4_band (f : Z) : Z :=
  if f_le (f64_of_Z f) (MHZ 288 10) then HF
  else if f_lt (MHZ 288 10) (f64_of_Z f) && (f <? 250000000) then VHF else UHF.

Definition v4_inputs (f : Z) : M Z :=
  (r82xx_write_reg_mask 0x17 (v4_open_d f) 0x08) ;?
  (p ← get_priv;
   let band := v4_band f in
   if band =? input p then mret 0
   else
     _ ← mod_priv (set_input band);
     let cable_2_in := if band =? HF then 0x08 else 0x00 in
     (r82xx_write_reg_mask 0x06 cable_2_in 0x08) ;?
     (on_dev (rtlsdr_set_bias_tee_gpio 5 (b2z (cable_2_in =? 0)))) ;?
     (r82xx_write_reg_mask 0x05 (if band =? VHF then 0x40 else 0x00) 0x40) ;?
     (r82xx_write_reg_mask 0x05 (if band =? UHF then 0x00 else 0x20) 0x20)).

Definition standard_inputs (f : Z) : M Z :=
  p ← get_priv;
  let air := if 345000000 <? f then 0x00 else 0x60 in
  if bool_decide (rafael_chip (cfg p) = CHIP_R828D) && negb (air =? input p)
  then _ ← mod_priv (set_input air); r82xx_write_reg_mask 0x05 air 0x60
  else mret 0.

Definition r82xx_set_freq (f : Z) : M Z :=
  s ← st_get;
  let is_rtlsdr_blog_v4 := rtlsdr_check_dongle_model (dev s) "RTLSDRBlog" "Blog V4" in
  let lo_freq := u32 (upconvert is_rtlsdr_blog_v4 f + int_freq (priv s)) in
  (r82xx_set_mux lo_freq) ;?
  (rc ← r82xx_set_pll lo_freq;
   p ← get_priv;
   if (rc <? 0) || negb (has_lock p) then mret rc
   else if is_rtlsdr_blog_v4 then v4_inputs f else standard_inputs f).

(** *** Standby and initialisation *)

Definition r82xx_standby : M Z :=
  p ← get_priv;
  if negb (init_done p) then mret 0
  else
    (r82xx_write_reg 0x06 0xb1) ;?
    (r82xx_write_reg 0x05 0xa0) ;?
    (r82xx_write_reg 0x07 0x3a) ;?
    (r82xx_write_reg 0x08 0x40) ;?
    (r82xx_write_reg 0x09 0xc0) ;?
    (r82xx_write_reg 0x0a 0x36) ;?
    (r82xx_write_reg 0x0c 0x35) ;?
    (r82xx_write_reg 0x0f 0x68) ;?
    (r82xx_write_reg 0x11 0x03) ;?
    (r82xx_write_reg 0x17 0xf4) ;?
    (rc ← r82xx_write_reg 0x19 0x0c;
     _ ← mod_priv (fun p => set_standard (delsys p) (-1) (bw p) p);
     mret rc).

(** The capacitor loop of [r82xx_xtal_check]. *)
Fixpoint xtal_loop (l : list (Z * r82xx_xtal_cap_value)) : M Z :=
  match l with
  | [] => mret (-1)
  | (cap, res) :: l =>
      (r82xx_write_reg_mask 0x10 cap 0x1b) ;?
      (read_chk 0x00 3 (fun data =>
         if rd data 2 &' 0x40 =? 0 then xtal_loop l
         else
           let val := rd data 2 &' 0x3f in
           p ← get_priv;
           if (xtal (cfg p) =? 16000000) && ((29 <? val) || (val <? 23)) then mret (cap_value res)
           else if negb (val =? 0x3f) then mret (cap_value res)
           else xtal_loop l))
  end.

Definition r82xx_xtal_check : M Z :=
  _ ← mod_priv (fun p => set_regs p r82xx_init_array);
  (r82xx_write_reg_mask 0x10 0x0b 0x0b) ;?
  (r82xx_write_reg_mask 0x1a 0x00 0x0c) ;?
  (r82xx_write_reg_mask 0x13 0x7f 0x7f) ;?
  (r82xx_write_reg_mask 0x13 0x00 0x40) ;?
  (xtal_loop r82xx_xtal_capacitor).

(** The result of the first write is overwritten, as in the code. *)
Definition r82xx_init : M Z :=
  _ ← mod_priv (set_xtal_cap_sel XTAL_HIGH_CAP_0P);
  _ ← mod_priv (fun p => set_regs p (replicate 30 0));
  _ ← r82xx_write 0x05 r82xx_init_array;
  (r82xx_set_tv_standard 3 TUNER_DIGITAL_TV 0) ;?
  (rc ← r82xx_sysfreq_sel 0 TUNER_DIGITAL_TV SYS_DVBT;
   _ ← mod_priv (set_init_done true);
   mret rc).

End Driver.
End R82xx.

Module R82xxFacts.
Import R82xx.

Ltac reg_range := unfold REG_SHADOW_START, NUM_REGS; lia.

(** The tests of the code on every path: after a call the predicate holds if it held
    before, [pres] for calls that succeed, [keeps] for all. *)
Section Predicates.
Context {D : Type} `{I2c D}.

Definition keeps {A} (P : r82xx D -> Prop) (m : st (r82xx D) A) : Prop :=
  forall s, P s -> P (m s).2.
Definition pres (P : r82xx D -> Prop) (m : st (r82xx D) Z) : Prop :=
  forall s, P s -> 0 <= (m s).1 -> P (m s).2.

(** A change of the private data the predicate does not see. *)
Definition blind (P : r82xx D -> Prop) (f : r82xx_priv -> r82xx_priv) : Prop :=
  forall s, P s -> P (mk_r82xx (f (priv s)) (dev s)).

Variable P : r82xx D -> Prop.

Lemma keeps_mret {A} (x : A) : keeps P (mret x).
Proof. by intros s Hs. Qed.
Lemma keeps_mbind {A B} (m : st (r82xx D) A) (k : A -> st (r82xx D) B) :
  keeps P m -> (forall x, keeps P (k x)) -> keeps P (m ≫= k).
Proof.
  intros Hm Hk s Hs. rewrite st_bind_eq. specialize (Hm s Hs). destruct (m s) as [x s'].
  by apply Hk.
Qed.
Lemma keeps_chk (m k : st (r82xx D) Z) : keeps P m -> keeps P k -> keeps P (m ;? k).
Proof.
  intros Hm Hk s Hs. rewrite chk_eq. specialize (Hm s Hs). destruct (m s) as [rc s'].
  destruct (rc <? 0); [done|]. by apply Hk.
Qed.
Lemma keeps_get : keeps P get_priv.
Proof. by intros s Hs. Qed.
Lemma keeps_st_get : keeps P st_get.
Proof. by intros s Hs. Qed.
Lemma keeps_mod f : blind P f -> keeps P (mod_priv f).
Proof. intros Hf s Hs. by apply Hf. Qed.
Lemma keeps_ite {A} (b : bool) (m k : st (r82xx D) A) : keeps P m -> keeps P k -> keeps P (if b then m else k).
Proof. by destruct b. Qed.

Lemma pres_ret x : pres P (mret x).
Proof. by intros s Hs. Qed.
Lemma pres_chk m k : pres P m -> pres P k -> pres P (m ;? k).
Proof.
  intros Hm Hk s Hs. rewrite chk_eq. specialize (Hm s Hs). destruct (m s) as [rc s'].
  destruct (Z.ltb_spec rc 0); simpl in *; [lia|]. auto.
Qed.
Lemma pres_get k : (forall p, pres P (k p)) -> pres P (get_priv ≫= k).
Proof. intros Hk s Hs. rewrite st_bind_eq. by apply Hk. Qed.
Lemma pres_st_get k : (forall x, pres P (k x)) -> pres P (st_get ≫= k).
Proof. intros Hk s Hs. rewrite st_bind_eq. by apply Hk. Qed.
Lemma pres_mod f k : blind P f -> pres P k -> pres P (mod_priv f ≫= fun _ => k).
Proof. intros Hf Hk s Hs. rewrite st_bind_eq. apply Hk. by apply Hf. Qed.
Lemma pres_if (b : bool) m k : pres P m -> pres P k -> pres P (if b then m else k).
Proof. by destruct b. Qed.
(** [rc = m; if (rc < 0 || !priv->has_lock) return rc; k]. *)
Lemma pres_lock m k :
  pres P m -> pres P k ->
  pres P (rc ← m; p ← get_priv; if (rc <? 0) || negb (has_lock p) then mret rc else k).
Proof.
  intros Hm Hk s Hs. rewrite st_bind_eq. specialize (Hm s Hs). destruct (m s) as [rc s'].
  rewrite st_bind_eq. cbn [get_priv]. destruct (Z.ltb_spec rc 0); simpl in *; [lia|].
  specialize (Hm ltac:(lia)). destruct (has_lock (priv s')); simpl; [by apply Hk|done].
Qed.
Lemma pres_tail m f :
  pres P m -> blind P f -> pres P (rc ← m; _ ← mod_priv f; mret rc).
Proof.
  intros Hm Hf s Hs. rewrite st_bind_eq. specialize (Hm s Hs). destruct (m s) as [rc s'].
  rewrite st_bind_eq. simpl in *. intros. by apply Hf, Hm.
Qed.
End Predicates.

(** ** Coherence of the shadow *)

Section Coherence.
Context {D : Type} `{I2c D} (addr : Z) (hw : D -> Z -> Z) `{!I2cRegs D addr hw}.

Record coherent (c : r82xx_config) (s : r82xx D) : Prop := {
  co_cfg : cfg (priv s) = c;
  co_addr : i2c_addr c = addr;
  co_msg : 2 <= max_i2c_msg_len c <= UINT32_MAX;
  co_len : zlen (regs (priv s)) = NUM_REGS;
  co_regs : forall i, 0 <= i < NUM_REGS -> rd (regs (priv s)) i = hw (dev s) (REG_SHADOW_START + i);
}.

(** A write loop that returns 0 has stored everything. *)
Lemma write_loop_store fuel reg val s :
  i2c_addr (cfg (priv s)) = addr -> 2 <= max_i2c_msg_len (cfg (priv s)) <= UINT32_MAX ->
  0 <= reg -> reg + zlen val < 256 -> (length val < fuel)%nat ->
  let r := write_loop fuel reg val s in
  r.1 <= 0 /\ priv r.2 = priv s /\
  (r.1 = 0 -> forall x, hw (dev r.2) x = store_regs (hw (dev s)) reg val x).
Proof.
  revert reg val s. induction fuel as [|fuel IH]; intros reg val s Ha Hm Hr Hv Hf; [lia|].
  cbn [write_loop]. rewrite st_bind_eq. cbn [get_priv].
  set (room := u32 (max_i2c_msg_len (cfg (priv s)) - 1)).
  assert (Hroom : room = max_i2c_msg_len (cfg (priv s)) - 1) by (unfold room; apply u32_id; clia).
  set (size := if room <? zlen val then room else zlen val).
  assert (Hsize : 0 <= size <= zlen val /\ (size = 0 -> val = [])).
  { unfold size. destruct (Z.ltb_spec room (zlen val)).
    - split; [lia|]. intros. lia.
    - split; [unfold zlen in *; lia|]. intros E. by apply nil_length_inv_zlen. }
  rewrite st_bind_eq. unfold on_dev. rewrite Ha.
  destruct (rtlsdr_i2c_write_fn addr _ (dev s)) as [rc d'] eqn:Ew.
  assert (Hlen : zlen (take (Z.to_nat size) val) = size) by (unfold zlen in *; rewrite length_take; lia).
  destruct (Z.eqb_spec rc (size + 1)) as [->|]; cbn [negb].
  2: { rewrite st_ret_eq. cbn. split_and!; auto; destruct (Z.ltb_spec rc 0); lia. }
  pose proof (i2c_write_regs _ _ _ _ _ Ew ltac:(lia)) as Hst.
  pose proof (take_drop (Z.to_nat size) val) as Htd.
  assert (Hdl : zlen (drop (Z.to_nat size) val) = zlen val - size)
    by (unfold zlen in *; rewrite length_drop; lia).
  destruct (Z.ltb_spec 0 (zlen (drop (Z.to_nat size) val))) as [Hd|Hd].
  - rewrite u8_id by clia. set (s1 := mk_r82xx (priv s) d').
    destruct (IH (reg + size) (drop (Z.to_nat size) val) s1) as (H1&H2&H3); try done; try lia.
    { destruct Hsize as [Hs1 Hs2]. destruct (decide (size = 0)) as [E|].
      - rewrite (Hs2 E) in Hdl, Hd. unfold zlen in *. simpl in *. lia.
      - unfold zlen in *. rewrite length_drop. lia. }
    split_and!; auto. intros E x. rewrite H3 by done. cbn [s1 dev].
    assert (Hx : forall y, store_regs (hw d') (reg + size) (drop (Z.to_nat size) val) y
      = store_regs (store_regs (hw (dev s)) reg (take (Z.to_nat size) val)) (reg + size) (drop (Z.to_nat size) val) y)
      by (intros y; unfold store_regs at 1 2; by rewrite Hst).
    pose proof (store_regs_app (hw (dev s)) reg (take (Z.to_nat size) val) (drop (Z.to_nat size) val) x) as Hap.
    rewrite Hlen, Htd in Hap. by rewrite Hx, Hap.
  - rewrite st_ret_eq. cbn. split_and!; auto; [lia|]. intros _ x. rewrite Hst.
    assert (E : drop (Z.to_nat size) val = []) by (apply nil_length_inv_zlen; unfold zlen in *; lia).
    rewrite E, app_nil_r in Htd. by rewrite Htd.
Qed.

Lemma shadow_store_blit l reg val :
  REG_SHADOW_START <= reg -> reg + zlen val <= REG_SHADOW_START + NUM_REGS -> zlen l = NUM_REGS ->
  shadow_store l reg val = blit l (reg - REG_SHADOW_START) val.
Proof.
  unfold shadow_store, REG_SHADOW_START, NUM_REGS. intros Hr Hv Hl.
  destruct (Z.ltb_spec (reg - 5) 0); [lia|].
  destruct (Z.leb_spec (zlen val) 0).
  - assert (val = []) as -> by (apply nil_length_inv_zlen; unfold zlen in *; lia). done.
  - destruct (Z.ltb_spec (30 - (reg - 5)) (zlen val)); [lia|].
    by rewrite take_ge by (unfold zlen; lia).
Qed.

Lemma pres_write c reg val :
  REG_SHADOW_START <= reg -> reg + zlen val <= REG_SHADOW_START + NUM_REGS ->
  pres (coherent c) (r82xx_write reg val).
Proof.
  intros Hr Hv s Hs. unfold r82xx_write. rewrite st_bind_eq. cbn [get_priv].
  destruct (shadow_equal _ _ _); [done|]. rewrite st_bind_eq. cbn [mod_priv].
  set (s1 := mk_r82xx _ _). destruct Hs as [Hc Ha Hm Hl Hco].
  unfold REG_SHADOW_START, NUM_REGS in Hr, Hv.
  destruct (write_loop_store (S (length val)) reg val s1) as (H1&H2&H3); cbn [s1 priv set_regs cfg];
    rewrite ?Hc; auto; try lia.
  intros Hok. specialize (H3 ltac:(lia)). cbn [s1 priv dev] in H2, H3.
  rewrite shadow_store_blit in H2 by (unfold REG_SHADOW_START, NUM_REGS in *; lia || done).
  split; rewrite ?H2; cbn [set_regs cfg regs]; auto.
  - by rewrite zlen_blit.
  - intros i Hi. unfold REG_SHADOW_START, NUM_REGS in *. rewrite rd_blit by lia. rewrite H3.
    unfold store_regs. replace (i - (reg - 5)) with (5 + i - reg) by lia.
    destruct (Z.leb_spec (reg - 5) i), (Z.leb_spec reg (5 + i)); try lia; cbn [andb]; [|by apply Hco].
    destruct (Z.ltb_spec i (reg - 5 + zlen val)), (Z.ltb_spec (5 + i) (reg + zlen val)); try lia; auto.
Qed.

Lemma pres_write_reg c reg val :
  REG_SHADOW_START <= reg < REG_SHADOW_START + NUM_REGS -> pres (coherent c) (r82xx_write_reg reg val).
Proof. intros. apply pres_write; unfold zlen; simpl; lia. Qed.

Lemma pres_write_reg_mask c reg val mask :
  REG_SHADOW_START <= reg < REG_SHADOW_START + NUM_REGS ->
  pres (coherent c) (r82xx_write_reg_mask reg val mask).
Proof.
  intros Hr. unfold r82xx_write_reg_mask. apply pres_get. intros p. apply pres_if; [apply pres_ret|].
  apply pres_write; unfold zlen; simpl; lia.
Qed.

Lemma pres_on_dev c m :
  (forall d r, hw (m d).2 r = hw d r) -> pres (coherent c) (on_dev m).
Proof.
  intros Hm s [] _. unfold on_dev. specialize (Hm (dev s)). destruct (m (dev s)) as [x d].
  split; auto. intros i Hi. cbn. rewrite Hm. by apply co_regs0.
Qed.

(** A read fails or goes on with some data and an unchanged tuner. *)
Lemma read_chk_cases c reg len k s :
  coherent c s ->
  (exists rc s', read_chk reg len k s = (rc, s') /\ rc < 0) \/
  (exists data s', read_chk reg len k s = k data s' /\ priv s' = priv s /\ coherent c s').
Proof.
  intros Hs. remember (read_chk reg len k s) as r eqn:Er. revert Er.
  unfold read_chk, r82xx_read. rewrite !st_bind_eq. cbn [get_priv].
  rewrite st_bind_eq. unfold on_dev at 1. pose proof Hs as [Hc Ha Hm Hl Hco]. rewrite Hc, Ha.
  assert (Hneg : forall z, (if z <? 0 then z else -1) < 0) by (intros z; destruct (Z.ltb_spec z 0); lia).
  destruct (rtlsdr_i2c_write_fn addr [reg] (dev s)) as [rc d1] eqn:Ew.
  destruct (Z.eqb_spec rc 1) as [->|Hne]; cbn [negb].
  2: { rewrite !st_ret_eq, (proj2 (Z.ltb_lt _ _) (Hneg rc)). intros ->. left. eexists _, _. eauto. }
  assert (Hd1 : forall x, hw d1 x = hw (dev s) x).
  { intros x. rewrite (i2c_write_regs _ _ _ _ _ Ew eq_refl). apply store_regs_nil. }
  rewrite st_bind_eq. unfold on_dev. cbn [dev priv].
  pose proof (i2c_read_regs d1 len) as Hd2.
  destruct (rtlsdr_i2c_read_fn addr len d1) as [[rc data] d2]. cbn in Hd2.
  destruct (Z.eqb_spec rc len) as [->|]; cbn [negb].
  2: { rewrite !st_ret_eq, (proj2 (Z.ltb_lt _ _) (Hneg rc)). intros ->. left. eexists _, _. eauto. }
  rewrite st_ret_eq. cbn [Z.ltb Z.compare]. intros ->. right. eexists _, _. split; [reflexivity|].
  split; [done|]. split; auto. intros i Hi. cbn. rewrite Hd2, Hd1. by apply Hco.
Qed.

Lemma pres_read_chk c reg len k :
  (forall data, pres (coherent c) (k data)) -> pres (coherent c) (read_chk reg len k).
Proof.
  intros Hk s Hs. destruct (read_chk_cases c reg len k s Hs) as [(rc&s'&->&Hrc)|(data&s'&->&_&Hs')].
  - cbn. lia.
  - by apply Hk.
Qed.

Lemma blind_coherent c f :
  (forall p, cfg (f p) = cfg p /\ regs (f p) = regs p) -> blind (coherent c) f.
Proof. intros Hf s []. destruct (Hf (priv s)) as [E1 E2]. split; cbn; rewrite ?E1, ?E2; auto. Qed.

(** Every operation, call by call. *)
Ltac pres_step :=
  lazymatch goal with
  | |- pres _ (mret _) => apply pres_ret
  | |- pres _ (chk _ _) => apply pres_chk
  | |- pres _ (r82xx_write_reg_mask _ _ _) => apply pres_write_reg_mask; reg_range
  | |- pres _ (r82xx_write_reg _ _) => apply pres_write_reg; reg_range
  | |- pres _ (read_chk _ _ _) => apply pres_read_chk; intros ?
  | |- pres _ (if _ then _ else _) => apply pres_if
  | |- pres _ (get_priv ≫= _) => apply pres_get; intros ?
  | |- pres _ (st_get ≫= _) => apply pres_st_get; intros ?
  | |- pres _ (mod_priv _ ≫= _) => apply pres_mod; [apply blind_coherent; done|]
  | |- pres _ (_ ≫= (fun rc => get_priv ≫= _)) => apply pres_lock
  | |- pres _ (_ ≫= (fun rc => mod_priv _ ≫= _)) => apply pres_tail; [|apply blind_coherent; done]
  | |- pres _ (let x := _ in _) => cbv zeta
  end.
Ltac pres_auto := repeat pres_step.

Lemma pres_set_mux c f : pres (coherent c) (r82xx_set_mux f).
Proof. unfold r82xx_set_mux. pres_auto. Qed.

Lemma pres_pll_lock c : pres (coherent c) pll_lock.
Proof. unfold pll_lock. pres_auto. Qed.

Lemma pres_set_pll c f : pres (coherent c) (r82xx_set_pll f).
Proof.
  intros s Hs. unfold r82xx_set_pll. revert s Hs. change (pres (coherent c) (r82xx_set_pll f)).
  unfold r82xx_set_pll. apply pres_chk; [pres_step|]. intros s Hs.
  rewrite st_bind_eq. cbn [get_priv]. destruct (mix_div_loop _ _ _ _ _) as [mix_div div_num].
  apply pres_read_chk; [|done]. intros data. destruct (pll_divider _ _) as [n sdm].
  apply pres_if; [pres_step|]. apply pres_chk; [|apply pres_pll_lock].
  apply pres_write; [reg_range|].
  rewrite !zlen_wr. unfold zlen. rewrite length_slice; [reg_range|reg_range|lia|].
  rewrite (co_len _ _ Hs). reg_range.
Qed.

Lemma pres_sysfreq_sel c f t ds : pres (coherent c) (r82xx_sysfreq_sel f t ds).
Proof. unfold r82xx_sysfreq_sel. pres_auto. Qed.

Lemma pres_calibrate c n k : pres (coherent c) k -> pres (coherent c) (calibrate n k).
Proof.
  intros Hk. induction n as [|n IH]; [done|]. cbn [calibrate].
  repeat pres_step; auto using pres_set_pll.
Qed.

Lemma pres_set_gain c b g : pres (coherent c) (r82xx_set_gain b g).
Proof.
  unfold r82xx_set_gain. destruct (gain_loop _ _ _ _ _) as [[? ?] ?]. pres_auto.
Qed.

Lemma pres_set_bandwidth c b r : pres (coherent c) (r82xx_set_bandwidth b r).
Proof. unfold r82xx_set_bandwidth. destruct (bandwidth_regs b) as [[? ?] ?]. pres_auto. Qed.

Lemma pres_v4_inputs c f : pres (coherent c) (v4_inputs f).
Proof.
  unfold v4_inputs. pres_auto. apply pres_on_dev. intros. apply i2c_gpio_regs.
Qed.

Lemma pres_set_freq c f : pres (coherent c) (r82xx_set_freq f).
Proof.
  unfold r82xx_set_freq, standard_inputs.
  pres_auto; auto using pres_set_mux, pres_set_pll, pres_v4_inputs.
Qed.

Lemma pres_standby c : pres (coherent c) r82xx_standby.
Proof. unfold r82xx_standby. pres_auto. Qed.

(** The part of the initialisation behind the register write. *)
Lemma pres_tv_standard c b t ds s :
  coherent c s -> regs (priv s) = r82xx_init_array ->
  0 <= (r82xx_set_tv_standard b t ds s).1 -> coherent c (r82xx_set_tv_standard b t ds s).2.
Proof.
  intros Hs Hr. unfold r82xx_set_tv_standard. rewrite st_bind_eq. cbn [mod_priv].
  set (s1 := mk_r82xx _ _).
  assert (Hs1 : coherent c s1).
  { destruct Hs. split; cbn; auto. rewrite <- Hr. done. }
  revert Hs1. generalize s1. clear s1 Hs Hr s. refine (_ : pres (coherent c) _).
  unfold tv_standard_filters. pres_auto. apply pres_calibrate. apply pres_mod; [|pres_auto].
  apply blind_coherent. intros p. by case_match.
Qed.
End Coherence.
End R82xxFacts.

Module R82xxBits.
Import R82xx R82xxFacts.

Section Bits.
Context {D : Type} `{I2c D}.

(** Bits [m] of shadow register [r] have the value [v]. *)
Definition bits_are (r m v : Z) (s : r82xx D) : Prop :=
  zlen (regs (priv s)) = NUM_REGS /\ rd (regs (priv s)) (r - REG_SHADOW_START) &' m = v.

Lemma blind_bits r m v f : (forall p, regs (f p) = regs p) -> blind (bits_are r m v) f.
Proof. intros Hf s [Hl Hb]. split; cbn; by rewrite Hf. Qed.

Lemma keeps_on_dev {A} r m v (x : st D A) : keeps (bits_are r m v) (on_dev x).
Proof. intros s Hs. unfold on_dev. by destruct (x (dev s)). Qed.

Lemma write_loop_priv fuel reg val (s : r82xx D) : priv (write_loop fuel reg val s).2 = priv s.
Proof.
  revert reg val s. induction fuel as [|fuel IH]; intros reg val s; [done|].
  cbn [write_loop]. rewrite st_bind_eq. cbn [get_priv]. rewrite st_bind_eq. unfold on_dev.
  destruct (rtlsdr_i2c_write_fn _ _ (dev s)) as [rc d]. destruct (negb _); [done|].
  destruct (0 <? _); [|done]. by rewrite IH.
Qed.

(** The shadow after a write, whatever the bus answers. *)
Lemma write_shadow reg val (s : r82xx D) :
  zlen (regs (priv s)) = NUM_REGS ->
  REG_SHADOW_START <= reg -> reg + zlen val <= REG_SHADOW_START + NUM_REGS ->
  priv (r82xx_write reg val s).2
  = set_regs (priv s) (blit (regs (priv s)) (reg - REG_SHADOW_START) val).
Proof.
  intros Hl Hr Hv. unfold r82xx_write. rewrite st_bind_eq. cbn [get_priv].
  destruct (shadow_equal _ _ _) eqn:E.
  - unfold shadow_equal in E. destruct (_ || _); [done|]. apply bool_decide_eq_true in E.
    cbn. rewrite <- E. destruct s as [p d]. destruct p. unfold set_regs. cbn in *. f_equal. symmetry.
    unfold REG_SHADOW_START, NUM_REGS in *.
    assert (Hz : zlen (slice regs0 (reg - 5) (zlen val)) = zlen val)
      by (rewrite E; done).
    rewrite blit_eq by (rewrite ?Hz; lia). unfold slice at 1.
    replace (Z.to_nat (reg - 5) + length (slice regs0 (reg - 5) (zlen val)))%nat
      with (Z.to_nat (zlen val) + Z.to_nat (reg - 5))%nat by (unfold zlen in *; lia).
    rewrite (Nat.add_comm (Z.to_nat (zlen val))), <- drop_drop, take_drop. by rewrite take_drop.
  - rewrite st_bind_eq. cbn [mod_priv]. rewrite write_loop_priv. cbn [priv].
    by rewrite shadow_store_blit.
Qed.

Lemma keeps_write r m v reg val :
  REG_SHADOW_START <= reg -> reg + zlen val <= REG_SHADOW_START + NUM_REGS ->
  (r < reg \/ reg + zlen val <= r) -> keeps (bits_are r m v) (r82xx_write reg val).
Proof.
  intros Hr Hv Hne s [Hl Hb]. unfold bits_are. rewrite write_shadow by done.
  cbn [set_regs regs]. split; [by rewrite zlen_blit|].
  unfold REG_SHADOW_START, NUM_REGS in *. rewrite rd_blit by lia.
  destruct (Z.leb_spec (reg - 5) (r - 5)); cbn [andb]; [|done].
  destruct (Z.ltb_spec (r - 5) (reg - 5 + zlen val)); [lia|done].
Qed.

Lemma land_u8_mask a m : 0 <= m < 256 -> u8 a &' m = a &' m.
Proof.
  intros Hm. unfold u8. change (2 ^ 8) with 256. change 256 with (2 ^ 8). rewrite <- Z.land_ones by lia.
  rewrite <- Z.land_assoc. f_equal. rewrite Z.land_comm, Z.land_ones by lia. by apply Z.mod_small.
Qed.

Lemma mask_keeps_bits old val mask m :
  0 <= m < 256 -> mask &' m = 0 -> u8 ((old &' ~' mask) |' (val &' mask)) &' m = old &' m.
Proof.
  intros Hm Hd. rewrite land_u8_mask by done. apply Z.bits_inj'. intros n Hn.
  rewrite !Z.land_spec, Z.lor_spec, !Z.land_spec, Z.lnot_spec by done.
  assert (E : Z.testbit mask n && Z.testbit m n = false)
    by (rewrite <- Z.land_spec, Hd; apply Z.bits_0).
  destruct (Z.testbit old n), (Z.testbit mask n), (Z.testbit m n), (Z.testbit val n); done.
Qed.

Lemma rd_blit_1 l off x : 0 <= off < zlen l -> rd (blit l off [x]) off = x.
Proof.
  intros Ho. rewrite rd_blit by (unfold zlen in *; simpl; lia).
  rewrite Z.leb_refl, Z.sub_diag. destruct (Z.ltb_spec off (off + zlen [x])) as [|Hx]; [done|].
  unfold zlen in Hx. simpl in Hx. lia.
Qed.

Lemma keeps_write_reg_mask r m v reg val mask :
  REG_SHADOW_START <= reg < REG_SHADOW_START + NUM_REGS ->
  (r <> reg \/ (0 <= m < 256 /\ mask &' m = 0)) ->
  keeps (bits_are r m v) (r82xx_write_reg_mask reg val mask).
Proof.
  intros Hr Hd s Hs. unfold r82xx_write_reg_mask. rewrite st_bind_eq. cbn [get_priv].
  destruct (_ <? 0); [done|]. destruct (decide (r = reg)) as [->|Hne].
  2: { apply keeps_write; [lia|unfold zlen; simpl; lia|unfold zlen; simpl; lia|done]. }
  destruct Hd as [?|[Hm Hd]]; [done|]. destruct Hs as [Hl Hb]. unfold bits_are.
  rewrite write_shadow by (auto; unfold zlen; simpl; lia). cbn [set_regs regs].
  split; [by rewrite zlen_blit|]. unfold REG_SHADOW_START, NUM_REGS in *.
  rewrite rd_blit_1 by lia. unfold r82xx_read_cache_reg, REG_SHADOW_START, NUM_REGS.
  destruct (Z.leb_spec 0 (reg - 5)), (Z.ltb_spec (reg - 5) 30); try lia. cbn [andb].
  by rewrite mask_keeps_bits.
Qed.

Lemma keeps_write_reg r m v reg val :
  REG_SHADOW_START <= reg < REG_SHADOW_START + NUM_REGS -> r <> reg ->
  keeps (bits_are r m v) (r82xx_write_reg reg val).
Proof. intros. apply keeps_write; unfold zlen; simpl; lia. Qed.

Lemma keeps_read_chk r m v reg len k :
  (forall data, keeps (bits_are r m v) (k data)) -> keeps (bits_are r m v) (read_chk reg len k).
Proof.
  intros Hk. unfold read_chk, r82xx_read.
  apply keeps_mbind; [|intros [rc data]; apply keeps_ite; [apply keeps_mret|auto]].
  apply keeps_mbind; [apply keeps_get|]. intros p. apply keeps_mbind; [apply keeps_on_dev|].
  intros rc. apply keeps_ite; [apply keeps_mret|]. apply keeps_mbind; [apply keeps_on_dev|].
  intros [? ?]. apply keeps_ite; apply keeps_mret.
Qed.

End Bits.

Ltac keeps_side := first [ left; discriminate | right; split; [lia|reflexivity] | left; lia ].
Ltac keeps_step :=
  lazymatch goal with
  | |- keeps _ (mret _) => apply keeps_mret
  | |- keeps _ (chk _ _) => apply keeps_chk
  | |- keeps _ get_priv => apply keeps_get
  | |- keeps _ st_get => apply keeps_st_get
  | |- keeps _ (on_dev _) => apply keeps_on_dev
  | |- keeps _ (mod_priv _) => apply keeps_mod, blind_bits; done
  | |- keeps _ (r82xx_write_reg_mask _ _ _) => apply keeps_write_reg_mask; [reg_range|keeps_side]
  | |- keeps _ (r82xx_write_reg _ _) => apply keeps_write_reg; [reg_range|discriminate]
  | |- keeps _ (read_chk _ _ _) => apply keeps_read_chk; intros ?
  | |- keeps _ (if _ then _ else _) => apply keeps_ite
  | |- keeps _ (_ ≫= _) => apply keeps_mbind; [|intros ?]
  | |- keeps _ (let x := _ in _) => cbv zeta
  end.
Ltac keeps_auto := repeat keeps_step.

(** The bits that hold the gain. *)
Definition gain_bits : list (Z * Z) := [(0x05, 0x1f); (0x07, 0x1f); (0x0c, 0x9f)].

Section Ops.
Context {D : Type} `{I2c D}.

Lemma keeps_set_pll r m (v : Z) f :
  (r, m) ∈ gain_bits -> keeps (D:=D) (bits_are r m v) (r82xx_set_pll f).
Proof.
  intros Hin. assert (Hrm : (r = 5 \/ r = 7 \/ r = 12) /\ 0 <= m < 256).
  { unfold gain_bits in Hin. rewrite !elem_of_cons, elem_of_nil in Hin.
    destruct Hin as [[= -> ->]|[[= -> ->]|[[= -> ->]|[]]]]; lia. }
  destruct Hrm as [Hr Hm]. unfold r82xx_set_pll. cbv zeta.
  apply keeps_chk. { apply keeps_write_reg_mask; [reg_range|left; lia]. }
  intros s Hs. rewrite st_bind_eq. cbn [get_priv]. destruct (mix_div_loop _ _ _ _ _) as [? ?].
  apply keeps_read_chk; [|done]. intros data. destruct (pll_divider _ _) as [n sdm].
  apply keeps_ite; [apply keeps_mret|]. apply keeps_chk.
  - assert (Hz : forall l : list Z, zlen l = 7 -> keeps (D:=D) (bits_are r m v) (r82xx_write 0x10 l)).
    { intros l Hl. apply keeps_write; rewrite ?Hl; unfold REG_SHADOW_START, NUM_REGS; lia. }
    apply Hz. rewrite !zlen_wr. unfold zlen. rewrite length_slice; [done|reg_range|lia|].
    destruct Hs as [-> _]. reg_range.
  - unfold pll_lock. repeat (first [apply keeps_write_reg_mask; [reg_range|left; lia] | keeps_step]).
Qed.

Lemma keeps_set_freq r m (v : Z) f :
  (r, m) ∈ gain_bits -> keeps (D:=D) (bits_are r m v) (r82xx_set_freq f).
Proof.
  intros Hin. pose proof Hin as Hpll. unfold gain_bits in Hin. rewrite !elem_of_cons, elem_of_nil in Hin.
  unfold r82xx_set_freq, r82xx_set_mux, v4_inputs, standard_inputs.
  destruct Hin as [[= -> ->]|[[= -> ->]|[[= -> ->]|[]]]];
    keeps_auto; by apply keeps_set_pll.
Qed.

Lemma keeps_set_bandwidth r m (v : Z) b rate :
  (r, m) ∈ gain_bits -> keeps (D:=D) (bits_are r m v) (r82xx_set_bandwidth b rate).
Proof.
  intros Hin. unfold gain_bits in Hin. rewrite !elem_of_cons, elem_of_nil in Hin.
  unfold r82xx_set_bandwidth. destruct (bandwidth_regs b) as [[? ?] ?].
  destruct Hin as [[= -> ->]|[[= -> ->]|[[= -> ->]|[]]]]; keeps_auto.
Qed.

(** The gain call touches only the gain bits. *)
Lemma keeps_set_gain r m (v : Z) b g :
  0 <= m < 256 ->
  (r <> 0x05 \/ 0x1f &' m = 0) -> (r <> 0x07 \/ 0x1f &' m = 0) -> (r <> 0x0c \/ 0x9f &' m = 0) ->
  keeps (D:=D) (bits_are r m v) (r82xx_set_gain b g).
Proof.
  intros Hm H5 H7 Hc.
  assert (Hsub : forall a a', a &' a' = a -> a' &' m = 0 -> a &' m = 0).
  { intros a a' Ha Hz. rewrite <- Ha, <- Z.land_assoc, Hz. apply Z.land_0_r. }
  assert (Hw : forall reg val mask big, REG_SHADOW_START <= reg < REG_SHADOW_START + NUM_REGS ->
    (r <> reg \/ big &' m = 0) -> mask &' big = mask ->
    keeps (D:=D) (bits_are r m v) (r82xx_write_reg_mask reg val mask)).
  { intros reg val mask big Hreg Hd Hb. apply keeps_write_reg_mask; [done|].
    destruct Hd; [by left|right; eauto]. }
  unfold r82xx_set_gain. destruct (gain_loop _ _ _ _ _) as [[? ?] ?].
  repeat (lazymatch goal with
    | |- keeps _ (r82xx_write_reg_mask 0x05 _ _) => apply (Hw 0x05 _ _ 0x1f); [reg_range|done|done]
    | |- keeps _ (r82xx_write_reg_mask 0x07 _ _) => apply (Hw 0x07 _ _ 0x1f); [reg_range|done|done]
    | |- keeps _ (r82xx_write_reg_mask 0x0c _ _) => apply (Hw 0x0c _ _ 0x9f); [reg_range|done|done]
    | _ => keeps_step
    end).
Qed.

End Ops.
End R82xxBits.


Module R82xxPll.
Import R82xx R82xxFacts R82xxBits.

Lemma mix_step fuel khz a b mix :
  mix <= 64 -> is_u 32 (khz * mix) ->
  mix_div_loop (S fuel) khz a b mix
  = if (a <=? khz * mix) && (khz * mix <? b) then (mix, div_num_loop 7 mix 0)
    else mix_div_loop fuel khz a b (u8 (mix <<' 1)).
Proof.
  intros Hm Hk. cbn [mix_div_loop]. destruct (Z.ltb_spec 64 mix); [lia|]. by rewrite u32_id.
Qed.

(** The exponent the divider field is computed from: that of the divider, but for the divider
    128 behind the loop, for which [div_num] was never counted. *)
Definition counted_exponent (j : Z) : Z := if j =? 7 then 0 else j - 1.

(** A power of two that brings the VCO into its range is found by the loop or, as 128, is left
    behind it. *)
Lemma mix_div_spec khz :
  13829 <= khz < 1770000 ->
  exists j, 1 <= j <= 7 /\ mix_div_loop 7 khz 1770000 (1770000 * 2) 2 = (2 ^ j, counted_exponent j) /\
    1770000 <= khz * 2 ^ j < 3540000.
Proof.
  intros Hk. change (1770000 * 2) with 3540000.
  rewrite (mix_step 6) by clia. destruct (Z.leb_spec 1770000 (khz * 2)), (Z.ltb_spec (khz * 2) 3540000);
    cbn [andb]; try lia; [exists 1; split_and!; [lia..|done|lia|lia]|].
  change (u8 (2 <<' 1)) with 4.
  rewrite (mix_step 5) by clia. destruct (Z.leb_spec 1770000 (khz * 4)), (Z.ltb_spec (khz * 4) 3540000);
    cbn [andb]; try lia; [exists 2; split_and!; [lia..|done|lia|lia]|].
  change (u8 (4 <<' 1)) with 8.
  rewrite (mix_step 4) by clia. destruct (Z.leb_spec 1770000 (khz * 8)), (Z.ltb_spec (khz * 8) 3540000);
    cbn [andb]; try lia; [exists 3; split_and!; [lia..|done|lia|lia]|].
  change (u8 (8 <<' 1)) with 16.
  rewrite (mix_step 3) by clia. destruct (Z.leb_spec 1770000 (khz * 16)), (Z.ltb_spec (khz * 16) 3540000);
    cbn [andb]; try lia; [exists 4; split_and!; [lia..|done|lia|lia]|].
  change (u8 (16 <<' 1)) with 32.
  rewrite (mix_step 2) by clia. destruct (Z.leb_spec 1770000 (khz * 32)), (Z.ltb_spec (khz * 32) 3540000);
    cbn [andb]; try lia; [exists 5; split_and!; [lia..|done|lia|lia]|].
  change (u8 (32 <<' 1)) with 64.
  rewrite (mix_step 1) by clia. destruct (Z.leb_spec 1770000 (khz * 64)), (Z.ltb_spec (khz * 64) 3540000);
    cbn [andb]; try lia; [exists 6; split_and!; [lia..|done|lia|lia]|].
  change (u8 (64 <<' 1)) with 128. exists 7. split_and!; [lia..|done|lia|lia].
Qed.

(** Rounding to the nearest divider. *)
Lemma pll_divider_spec x v n sdm :
  0 < x < 2 ^ 31 -> 0 <= v < 2 ^ 32 -> pll_divider x v = (n, sdm) ->
  0 <= sdm < 65536 /\ 0 <= n /\ Z.abs (2 * x * (65536 * n + sdm) - 65536 * v) <= x /\ 2 * x * n <= x + v.
Proof.
  intros Hx Hv. unfold pll_divider. rewrite u64_id by clia. rewrite u32_id by clia. intros [= <- <-].
  set (q := (x + 65536 * v) / (2 * x)).
  assert (Hq : 2 * x * q <= x + 65536 * v < 2 * x * q + 2 * x).
  { unfold q. pose proof (Z.mul_div_le (x + 65536 * v) (2 * x)).
    pose proof (Z.mul_succ_div_gt (x + 65536 * v) (2 * x)). lia. }
  assert (0 <= q) by (apply Z.div_pos; lia).
  pose proof (Z.div_mod q 65536). pose proof (Z.mod_pos_bound q 65536). pose proof (Z.div_pos q 65536).
  replace (65536 * (q / 65536) + q mod 65536) with q by lia.
  split_and!; try lia. nia.
Qed.

(** Integer part and register 0x14. *)
Lemma nint_encoding nint :
  13 <= nint <= 127 ->
  let ni := u8 (Z.quot (nint - 13) 4) in
  let si := u8 (nint - 4 * ni - 13) in
  let r := u8 (ni + (si <<' 6)) in
  4 * (r &' 0x3f) + (r >>' 6) + 13 = nint.
Proof.
  intros Hn ni si r. assert (Hni : ni = (nint - 13) / 4).
  { unfold ni. rewrite Z.quot_div_nonneg by lia. apply u8_id. cdlia. }
  assert (Hsi : si = (nint - 13) mod 4) by (unfold si; rewrite Hni, u8_id; cdlia).
  assert (Hr : r = ni + si * 64).
  { unfold r. rewrite Z.shiftl_mul_pow2 by lia. change (2 ^ 6) with 64. apply u8_id. cdlia. }
  rewrite (Z.land_ones _ 6), Z.shiftr_div_pow2 by lia. change (2 ^ 6) with 64. cdlia.
Qed.

Lemma mask_reg8_high old div :
  0 <= div -> mask_reg8 old (u8 (div <<' 5)) 0xe0 >>' 5 = div mod 8.
Proof.
  intros Hd. unfold mask_reg8. apply Z.bits_inj'. intros n Hn.
  rewrite Z.shiftr_spec by done. change (div mod 8) with (div mod 2 ^ 3).
  unfold u8. rewrite (Z.testbit_mod_pow2 _ 8 (n + 5)) by lia.
  rewrite (Z.testbit_mod_pow2 div 3 n) by lia.
  rewrite Z.lor_spec, !Z.land_spec, Z.lnot_spec, (Z.testbit_mod_pow2 _ 8 (n + 5)) by lia.
  rewrite Z.shiftl_spec by lia. replace (n + 5 - 5) with n by lia.
  destruct (Z.ltb_spec n 3).
  - replace (n + 5 <? 8) with true by (symmetry; apply Z.ltb_lt; lia). cbn [andb].
    assert (E : Z.testbit 0xe0 (n + 5) = true).
    { assert (n = 0 \/ n = 1 \/ n = 2) as [->|[->| ->]] by lia; done. }
    rewrite E. cbn. by rewrite andb_false_r, andb_true_r.
  - replace (n + 5 <? 8) with false by (symmetry; apply Z.ltb_ge; lia). done.
Qed.

Section Pll.
Context {D : Type} `{I2c D}.

(** A successful read went on with the data that were read and the same private data. *)
Lemma read_chk_inv reg len k (s : r82xx D) rc s' :
  read_chk reg len k s = (rc, s') -> 0 <= rc ->
  exists s1, priv s1 = priv s /\ k (r82xx_read reg len s).1.2 s1 = (rc, s').
Proof.
  assert (Hp : priv (r82xx_read reg len s).2 = priv s).
  { unfold r82xx_read. rewrite st_bind_eq. cbn [get_priv]. rewrite st_bind_eq. unfold on_dev at 1.
    destruct (rtlsdr_i2c_write_fn _ [reg] (dev s)) as [w d1]. destruct (negb _); [done|].
    rewrite st_bind_eq. unfold on_dev. cbn [dev priv]. destruct (rtlsdr_i2c_read_fn _ len d1) as [[w2 data] d2].
    by destruct (negb _). }
  unfold read_chk. rewrite st_bind_eq. destruct (r82xx_read reg len s) as [[w data] s1]. cbn [fst snd] in *.
  destruct (Z.ltb_spec w 0); [rewrite st_ret_eq; intros [= <- <-]; lia|]. intros E _. by exists s1.
Qed.

Lemma chk_inv (m k : st (r82xx D) Z) s rc s' :
  (m ;? k) s = (rc, s') -> 0 <= rc -> exists rc1 s1, m s = (rc1, s1) /\ 0 <= rc1 /\ k s1 = (rc, s').
Proof.
  rewrite chk_eq. destruct (m s) as [rc1 s1]. destruct (Z.ltb_spec rc1 0).
  - intros [= <- <-]. lia.
  - eauto.
Qed.

(** The lock loop keeps the divider. *)
Lemma pll_lock_keeps r v (s : r82xx D) :
  r <> 0x12 -> r <> 0x1a -> bits_are r (-1) v s -> bits_are r (-1) v (pll_lock s).2.
Proof.
  intros H1 H2. revert s. change (keeps (D:=D) (bits_are r (-1) v) pll_lock). unfold pll_lock.
  repeat (first [apply keeps_write_reg_mask; [reg_range|left; done] | keeps_step]).
Qed.

Lemma write_reg_mask_priv reg val mask (s : r82xx D) :
  zlen (regs (priv s)) = NUM_REGS -> REG_SHADOW_START <= reg < REG_SHADOW_START + NUM_REGS ->
  exists l, priv (r82xx_write_reg_mask reg val mask s).2 = set_regs (priv s) l /\ zlen l = NUM_REGS.
Proof.
  intros Hl Hr. unfold r82xx_write_reg_mask. rewrite st_bind_eq. cbn [get_priv]. case_match.
  - exists (regs (priv s)). split; [|done]. cbn. by destruct (priv s).
  - eexists. rewrite write_shadow by (auto; unfold zlen; simpl; lia). split; [done|]. by rewrite zlen_blit.
Qed.

(** The block written from register 0x10 on is what those registers hold once
    the lock has been waited for; only 0x12 is rewritten meanwhile. *)
Lemma pll_write_lock rs (s2 : r82xx D) rc3 s3 rc s' :
  zlen (regs (priv s2)) = NUM_REGS -> zlen rs = 7 ->
  r82xx_write 0x10 rs s2 = (rc3, s3) -> pll_lock s3 = (rc, s') ->
  forall i, 0 <= i < 7 -> i <> 2 ->
    rd (regs (priv s')) (0x10 + i - REG_SHADOW_START) = rd rs i.
Proof.
  intros Hl2 Hrs E3 E4 i Hi Hi2. cbv [NUM_REGS] in Hl2.
  assert (Hp3 : priv s3 = set_regs (priv s2) (blit (regs (priv s2)) (0x10 - REG_SHADOW_START) rs)).
  { pose proof (write_shadow 0x10 rs s2) as Hw. rewrite E3 in Hw. apply Hw; rewrite ?Hrs; try done; reg_range. }
  assert (Hb : bits_are (0x10 + i) (-1) (rd rs i) s').
  { replace s' with (pll_lock s3).2 by (by rewrite E4). apply pll_lock_keeps; [lia|lia|].
    split; rewrite Hp3; cbn [set_regs regs]; [by rewrite zlen_blit|].
    unfold REG_SHADOW_START. rewrite rd_blit by lia. rewrite Z.land_m1_r.
    replace (16 + i - 5 - (16 - 5)) with i by lia.
    destruct (Z.leb_spec (16 - 5) (16 + i - 5)), (Z.ltb_spec (16 + i - 5) (16 - 5 + zlen rs)); try lia; done. }
  destruct Hb as [_ Hb]. by rewrite Z.land_m1_r in Hb.
Qed.

(** By how much the fine tuning that the chip reports moves the divider field: one up where it
    is below the reference of the chip, one down where it is above. *)
Definition fine_tune_step (s : r82xx D) : Z :=
  let s1 := (r82xx_write_reg_mask 0x1a 0x00 0x0c s).2 in
  let data := (r82xx_read 0x00 5 s1).1.2 in
  Z.sgn ((if decide (rafael_chip (cfg (priv s)) = CHIP_R828D) then 1 else 2) - rd data 4 / 16 mod 4).

(** The registers the computation leaves, behind the lock check. *)
Lemma set_pll_regs f (s : r82xx D) rc s' :
  zlen (regs (priv s)) = NUM_REGS ->
  13828500 <= f < 1769999500 -> 8000000 <= xtal (cfg (priv s)) <= 60000000 ->
  r82xx_set_pll f s = (rc, s') -> 0 <= rc ->
  exists j nint sdm, 1 <= j <= 7 /\
    1770000 <= (f + 500) / 1000 * 2 ^ j < 3540000 /\
    pll_divider (xtal (cfg (priv s))) (f * 2 ^ j) = (nint, sdm) /\ 13 <= nint <= 127 /\
    rd (regs (priv s')) (0x10 - REG_SHADOW_START) >>' 5 = (counted_exponent j + fine_tune_step s) mod 8 /\
    4 * (rd (regs (priv s')) (0x14 - REG_SHADOW_START) &' 0x3f)
      + (rd (regs (priv s')) (0x14 - REG_SHADOW_START) >>' 6) + 13 = nint /\
    rd (regs (priv s')) (0x15 - REG_SHADOW_START)
      + 256 * rd (regs (priv s')) (0x16 - REG_SHADOW_START) = sdm.
Proof.
  intros Hl Hf Hx E Hrc. unfold r82xx_set_pll in E. cbv zeta in E.
  apply chk_inv in E as (rc1&s1&E1&_&E); [|done].
  destruct (write_reg_mask_priv 0x1a 0x00 0x0c s Hl) as (l1&Hp1&Hl1); [reg_range|].
  rewrite E1 in Hp1. cbn in Hp1. rewrite st_bind_eq in E. cbn [get_priv] in E.
  rewrite Hp1 in E. cbn [set_regs cfg regs] in E.
  rewrite (u32_id (f + 500)) in E by clia. set (khz := (f + 500) / 1000) in *.
  assert (Hkhz : 13829 <= khz < 1770000) by (unfold khz; Z.div_mod_to_equations; lia).
  destruct (mix_div_spec khz Hkhz) as (j&Hj&Hmix&Hvco). rewrite Hmix in E.
  assert (Ht : fine_tune_step s = Z.sgn ((if decide (rafael_chip (cfg (priv s)) = CHIP_R828D) then 1 else 2)
    - rd (r82xx_read 0x00 5 s1).1.2 4 / 16 mod 4)) by (unfold fine_tune_step; by rewrite E1).
  apply read_chk_inv in E as (s2&Hp2&E); [|done]. cbv beta in E. set (data := (r82xx_read 0x00 5 s1).1.2) in *.
  assert (Hv : 1769900000 <= f * 2 ^ j <= 3540100000).
  { assert (H64 : 2 ^ j <= 128) by (apply (Z.pow_le_mono_r 2 j 7); lia).
    assert (Hk1 : khz * 1000 - 500 <= f <= khz * 1000 + 500) by (unfold khz; Z.div_mod_to_equations; lia).
    assert (H0 : 0 < 2 ^ j) by lia. clear -H64 Hk1 H0 Hvco. nia. }
  rewrite (u64_id (f * 2 ^ j)) in E by clia.
  destruct (pll_divider _ _) as [n sdm] eqn:Ed. set (x := xtal (cfg (priv s))) in *.
  destruct (pll_divider_spec x (f * 2 ^ j) n sdm) as (Hsdm&Hn&Habs&Hup); [lia|lia|done|].
  set (pref := if decide _ then 1 else 2) in *. assert (Hpref : pref = 1 \/ pref = 2) by (unfold pref; case_decide; auto).
  assert (Hnint : 13 <= n < 256).
  { clear -Hx Hsdm Habs Hup Hv. split.
    - destruct (Z.le_gt_cases 13 n); [done|].
      assert (2 * x * (65536 * n + sdm) <= 2 * x * (65536 * 13)) by (apply Z.mul_le_mono_nonneg_l; lia). lia.
    - destruct (Z.lt_ge_cases n 256) as [|Hge]; [done|].
      assert (2 * x * 256 <= 2 * x * n) by (apply Z.mul_le_mono_nonneg_l; lia). lia. }
  rewrite (u8_id n) in E by clia.
  destruct (Z.ltb_spec (128 / pref - 1) n) as [|Hmax]; [injection E as <- _; lia|].
  assert (Hn127 : n <= 127) by (destruct Hpref as [Hpr|Hpr]; rewrite Hpr in Hmax; [change (128 / 1) with 128 in Hmax|change (128 / 2) with 64 in Hmax]; lia).
  apply chk_inv in E as (rc3&s3&E3&_&E4); [|done].
  assert (Hsl : zlen (slice l1 (0x10 - REG_SHADOW_START) 7) = 7).
  { unfold zlen. rewrite length_slice; [done|reg_range|lia|]. rewrite Hl1. reg_range. }
  set (rs0 := slice l1 (0x10 - REG_SHADOW_START) 7) in *. clearbody rs0.
  match type of E3 with context [r82xx_write 0x10 ?l] => set (rs := l) in * end.
  set (div := if _ <? _ then u8 (counted_exponent j - 1) else _) in *.
  assert (Htune : (rd data 4 &' 0x30) >>' 4 = rd data 4 / 16 mod 4).
  { rewrite Z.shiftr_land, Z.shiftr_div_pow2 by lia. change (0x30 >>' 4) with (Z.ones 2). by rewrite Z.land_ones by lia. }
  assert (Hc : 0 <= counted_exponent j <= 5) by (unfold counted_exponent; destruct (Z.eqb_spec j 7); lia).
  assert (Hdiv : 0 <= div /\ div mod 8 = (counted_exponent j + fine_tune_step s) mod 8).
  { rewrite Ht. unfold div, pref. rewrite Htune. set (t := rd data 4 / 16 mod 4). set (q := if decide _ then 1 else 2).
    clear -Hc. destruct (Z.ltb_spec q t); [|destruct (Z.ltb_spec t q)].
    - rewrite Z.sgn_neg by lia. split; [apply u8_range|cdlia].
    - rewrite Z.sgn_pos by lia. split; [apply u8_range|cdlia].
    - replace (q - t) with 0 by lia. change (Z.sgn 0) with 0. split; [lia|f_equal; lia]. }
  destruct Hdiv as (Hd0&Hdiv).
  assert (Hrs : zlen rs = 7) by (unfold rs; by rewrite !zlen_wr).
  assert (H6 : rd rs 6 = u8 (sdm >>' 8)) by (unfold rs; rewrite rd_wr_eq; [done|rewrite !zlen_wr; lia]).
  assert (H5 : rd rs 5 = sdm &' 0xff).
  { unfold rs. rewrite rd_wr_ne, rd_wr_eq by (rewrite ?zlen_wr; lia). done. }
  assert (H4 : rd rs 4 = u8 (u8 (Z.quot (n - 13) 4) + (u8 (n - 4 * u8 (Z.quot (n - 13) 4) - 13) <<' 6))).
  { unfold rs. rewrite 3!rd_wr_ne, rd_wr_eq by (rewrite ?zlen_wr; lia). done. }
  assert (H0 : rd rs 0 >>' 5 = div mod 8).
  { unfold rs. rewrite 4!rd_wr_ne, rd_wr_eq by (rewrite ?zlen_wr; lia). by apply mask_reg8_high. }
  clearbody rs.
  assert (Hl2 : zlen (regs (priv s2)) = NUM_REGS) by (rewrite Hp2, Hp1; exact Hl1).
  assert (Hget := pll_write_lock rs s2 rc3 s3 rc s' Hl2 Hrs E3 E4).
  exists j, n, sdm. split_and!; try lia; try done.
  - rewrite (Hget 0 ltac:(lia) ltac:(lia) : rd _ (0x10 - REG_SHADOW_START) = _). by rewrite H0.
  - rewrite (Hget 4 ltac:(lia) ltac:(lia) : rd _ (0x14 - REG_SHADOW_START) = _). rewrite H4. apply (nint_encoding n). lia.
  - rewrite (Hget 5 ltac:(lia) ltac:(lia) : rd _ (0x15 - REG_SHADOW_START) = _).
    rewrite (Hget 6 ltac:(lia) ltac:(lia) : rd _ (0x16 - REG_SHADOW_START) = _). rewrite H5, H6. rewrite (Z.land_ones _ 8), Z.shiftr_div_pow2 by lia.
    rewrite u8_id by cdlia. change (2 ^ 8) with 256. Z.div_mod_to_equations; lia.
Qed.

End Pll.
End R82xxPll.
