(* ===== verification/TunerR82xxProps.v ===== *)
(** * Correctness of the R820T/R828D driver ([src/src/tuner_r82xx.c])

    Theorems over the model of [TunerR82xx]: the register shadow agrees with the chip,
    the synthesiser is accurate, gain and tuning are independent, the gain search and the
    filter selection meet the request. *)

From S2P Require Import Prelude I2c TunerR82xx.

Module R82xxProps.
Import R82xx R82xxFacts R82xxBits R82xxPll.

(** ** Shadow and hardware *)

(** The calls of the tuner interface after the initialisation. *)
Inductive r82xx_op :=
  | op_set_freq (f : Z)
  | op_set_gain (manual : bool) (g : Z)
  | op_set_bandwidth (b rate : Z)
  | op_standby.

Section Sessions.
Context {D : Type} `{I2c D}.

Definition run_op (o : r82xx_op) : st (r82xx D) Z :=
  match o with
  | op_set_freq f => r82xx_set_freq f
  | op_set_gain manual g => r82xx_set_gain manual g
  | op_set_bandwidth b rate => r82xx_set_bandwidth b rate
  | op_standby => r82xx_standby
  end.

Fixpoint run_ops (l : list r82xx_op) : st (r82xx D) Z :=
  match l with
  | [] => mret 0
  | o :: l => run_op o ;? run_ops l
  end.

(** The state in which [r82xx_init] writes the registers. *)
Definition init_start (s : r82xx D) : r82xx D :=
  mk_r82xx (set_regs (set_xtal_cap_sel XTAL_HIGH_CAP_0P (priv s)) (replicate 30 0)) (dev s).

Context (addr : Z) (hw : D -> Z -> Z) `{!I2cRegs D addr hw}.

Lemma pres_run_ops c l : pres (coherent addr hw c) (run_ops l).
Proof.
  induction l as [|[] l IH]; cbn [run_ops run_op]; [apply pres_ret|..]; apply pres_chk; try done.
  - by apply pres_set_freq.
  - by apply pres_set_gain.
  - by apply pres_set_bandwidth.
  - by apply pres_standby.
Qed.

(** The first write covers every register, so it establishes coherence. *)
Lemma init_write_coherent c (s : r82xx D) :
  cfg (priv s) = c -> i2c_addr c = addr -> 2 <= max_i2c_msg_len c <= UINT32_MAX ->
  (r82xx_write 0x05 r82xx_init_array (init_start s)).1 = 0 ->
  let s1 := (r82xx_write 0x05 r82xx_init_array (init_start s)).2 in
  coherent addr hw c s1 /\ regs (priv s1) = r82xx_init_array.
Proof.
  intros Hc Ha Hm. remember (r82xx_write 0x05 r82xx_init_array (init_start s)) as r eqn:Er. revert Er.
  unfold r82xx_write. rewrite st_bind_eq. cbn [get_priv init_start priv regs set_regs].
  rewrite (eq_refl : shadow_equal (replicate 30 0) 5 r82xx_init_array = false).
  rewrite st_bind_eq. cbn [mod_priv]. set (s1 := mk_r82xx _ _).
  assert (Hr1 : regs (priv s1) = r82xx_init_array) by reflexivity.
  assert (Hc1 : cfg (priv s1) = c) by exact Hc.
  assert (Hv : zlen r82xx_init_array = 30) by reflexivity.
  clearbody s1. revert Hr1 Hv. generalize r82xx_init_array. intros v Hr1 Hv -> H0.
  destruct (write_loop_store addr hw (S (length v)) 5 v s1) as (_&H2&H3); rewrite ?Hc1; try done; try lia.
  specialize (H3 H0). split; [|by rewrite H2].
  split; rewrite ?H2; auto; [by rewrite Hr1|].
  intros i Hi. rewrite H3, Hr1. unfold store_regs, REG_SHADOW_START, NUM_REGS in *. rewrite Hv.
  replace (5 + i - 5) with i by lia.
  destruct (Z.leb_spec 5 (5 + i)), (Z.ltb_spec (5 + i) (5 + 30)); try lia. done.
Qed.

Lemma init_coherent c (s : r82xx D) :
  cfg (priv s) = c -> i2c_addr c = addr -> 2 <= max_i2c_msg_len c <= UINT32_MAX ->
  (r82xx_write 0x05 r82xx_init_array (init_start s)).1 = 0 ->
  0 <= (r82xx_init s).1 -> coherent addr hw c (r82xx_init s).2.
Proof.
  intros Hc Ha Hm H0. destruct (init_write_coherent c s Hc Ha Hm H0) as [Hco Hr].
  remember (r82xx_init s) as r eqn:Er. revert Er. unfold r82xx_init. rewrite st_bind_eq.
  cbn [mod_priv]. rewrite st_bind_eq. cbn [mod_priv priv dev]. fold (init_start s).
  rewrite st_bind_eq. destruct (r82xx_write _ _ (init_start s)) as [rc s1]. cbn in H0, Hco, Hr.
  intros ->. rewrite chk_eq. pose proof (pres_tv_standard addr hw c 3 TUNER_DIGITAL_TV 0 s1 Hco Hr) as Htv.
  destruct (r82xx_set_tv_standard _ _ _ s1) as [rc2 s2]. cbn [fst snd] in Htv.
  destruct (Z.ltb_spec rc2 0); [cbn; lia|]. specialize (Htv ltac:(lia)).
  revert Htv. generalize s2. refine (_ : pres (coherent addr hw c) _).
  apply pres_tail; [by apply pres_sysfreq_sel|by apply blind_coherent].
Qed.
End Sessions.

(** C38.  The driver's register shadow is the tuner's register file: if the initial register
    write was acknowledged (whose result [r82xx_init] discards) and [r82xx_init] succeeded, any sequence of
    tuning, gain, bandwidth and standby calls that succeed leaves all thirty shadow bytes
    equal to the registers 0x05 to 0x22 of the chip, for every length of I2C
    message of two bytes or more the adapter takes.  Every masked write relies on this: it computes the new register from
    the shadow, since the chip's registers are not read back. *)
Theorem r82xx_shadow_coherent {D : Type} `{I2c D} (addr : Z) (hw : D -> Z -> Z) `{!I2cRegs D addr hw}
    (s : r82xx D) (l : list r82xx_op) rc0 s0 rc1 s1 :
  i2c_addr (cfg (priv s)) = addr -> 2 <= max_i2c_msg_len (cfg (priv s)) <= UINT32_MAX ->
  (r82xx_write 0x05 r82xx_init_array (init_start s)).1 = 0 ->
  r82xx_init s = (rc0, s0) -> 0 <= rc0 ->
  run_ops l s0 = (rc1, s1) -> 0 <= rc1 ->
  forall i, 0 <= i < NUM_REGS -> rd (regs (priv s1)) i = hw (dev s1) (REG_SHADOW_START + i).
Proof.
  intros Ha Hm H0 E0 Hrc0 E1 Hrc1.
  pose proof (init_coherent addr hw (cfg (priv s)) s eq_refl Ha Hm H0) as Hc0.
  rewrite E0 in Hc0. specialize (Hc0 Hrc0).
  pose proof (pres_run_ops addr hw (cfg (priv s)) l s0 Hc0) as Hc1.
  rewrite E1 in Hc1. specialize (Hc1 Hrc1). intros i Hi. by apply (co_regs _ _ _ _ Hc1).
Qed.

(** A freshly opened R820T behind a plain register device. *)
Definition demo_priv : r82xx_priv :=
  mk_priv (mk_config 0x34 28800000 CHIP_R820T 8 false) [] XTAL_HIGH_CAP_0P 0 0 0 false false 0 0 0.
Definition demo_file (r : Z) : Z := if r =? 2 then 0xff else if r =? 4 then 0xa4 else 0.
Definition demo_tuner : r82xx reg_device := mk_r82xx demo_priv (mk_reg_device demo_file 0).
Definition demo_ops : list r82xx_op :=
  [op_set_bandwidth 2000000 0; op_set_freq 100000000; op_set_gain true 229; op_standby].
Definition demo_tuned : r82xx reg_device :=
  (run_ops [op_set_bandwidth 2000000 0; op_set_freq 100000000] (r82xx_init demo_tuner).2).2.

Lemma r82xx_shadow_coherent_witness :
  Forall (fun i => rd (regs (priv (run_ops demo_ops (r82xx_init demo_tuner).2).2)) i
    = dev_file (dev (run_ops demo_ops (r82xx_init demo_tuner).2).2) (REG_SHADOW_START + i)) (seqZ 0 NUM_REGS).
Proof.
  apply Forall_forall. intros i Hi. apply list_elem_of_In, elem_of_seqZ in Hi as [Hi1 Hi2].
  apply (r82xx_shadow_coherent 0x34 dev_file demo_tuner demo_ops (r82xx_init demo_tuner).1
    (r82xx_init demo_tuner).2 (run_ops demo_ops (r82xx_init demo_tuner).2).1).
  - reflexivity.
  - vm_compute. by split.
  - vm_compute. reflexivity.
  - apply surjective_pairing.
  - vm_compute. discriminate.
  - apply surjective_pairing.
  - vm_compute. discriminate.
  - lia.
Defined.

(** The shadow is written before the bus is: whatever a register write returned,
    the same write made again returns 0 and sends nothing.  After an I2C error the retry
    therefore succeeds while the chip keeps its old register. *)
Theorem r82xx_retry_skipped {D : Type} `{I2c D} (s : r82xx D) reg val rc s' :
  zlen (regs (priv s)) = NUM_REGS ->
  REG_SHADOW_START <= reg -> reg + zlen val <= REG_SHADOW_START + NUM_REGS ->
  r82xx_write reg val s = (rc, s') ->
  r82xx_write reg val s' = (0, s').
Proof.
  intros Hl Hr Hv E. pose proof (write_shadow reg val s Hl Hr Hv) as Hp. rewrite E in Hp. cbn in Hp.
  unfold r82xx_write. rewrite st_bind_eq. cbn [get_priv]. rewrite Hp. cbn [set_regs regs].
  assert (Heq : shadow_equal (blit (regs (priv s)) (reg - REG_SHADOW_START) val) reg val = true).
  { unfold shadow_equal, REG_SHADOW_START, NUM_REGS in *.
    destruct (Z.ltb_spec (reg - 5) 0); [lia|]. destruct (Z.ltb_spec (zlen val) 0); [unfold zlen in *; lia|].
    destruct (Z.ltb_spec (30 - (reg - 5)) (zlen val)); [lia|]. apply bool_decide_eq_true.
    apply slice_blit_eq; lia. }
  by rewrite Heq.
Qed.

(** A bus on which every message fails. *)
Definition dead_bus : I2c unit := {|
  rtlsdr_i2c_write_fn _ _ d := (-1, d);
  rtlsdr_i2c_read_fn _ _ d := ((-1, []), d);
  rtlsdr_check_dongle_model _ _ _ := false;
  rtlsdr_set_bias_tee_gpio _ _ d := (0, d);
  rtlsdr_get_tuner_clock _ := 28800000;
|}.

Lemma r82xx_retry_skipped_witness :
  let s := mk_r82xx (set_regs demo_priv r82xx_init_array) tt in
  let r := r82xx_write (H:=dead_bus) 0x1a [0x11] s in
  r.1 = -1 /\ r82xx_write (H:=dead_bus) 0x1a [0x11] r.2 = (0, r.2).
Proof.
  split; [vm_compute; reflexivity|].
  apply (r82xx_retry_skipped (H:=dead_bus) (mk_r82xx (set_regs demo_priv r82xx_init_array) tt) 0x1a [0x11] (-1)).
  - reflexivity.
  - vm_compute; discriminate.
  - vm_compute; discriminate.
  - vm_compute; reflexivity.
Defined.

(** ** The frequency synthesiser *)

(** What the chip makes of the divider registers: the integer and the fractional part of
    the VCO's ratio to twice the reference, and the mixer divider's exponent. *)
Definition pll_nint (l : list Z) : Z :=
  4 * (rd l (0x14 - REG_SHADOW_START) &' 0x3f) + (rd l (0x14 - REG_SHADOW_START) >>' 6) + 13.
Definition pll_sdm (l : list Z) : Z :=
  rd l (0x15 - REG_SHADOW_START) + 256 * rd l (0x16 - REG_SHADOW_START).
Definition pll_div_field (l : list Z) : Z := rd l (0x10 - REG_SHADOW_START) >>' 5.

(** C39.  A tuning for which [r82xx_set_pll] returns no error is accurate: for a local
    oscillator between 13.8285 and 1769.9995 MHz and a crystal between 8 and 60 MHz a mixer
    divider 2^j brings the VCO into its range, and the ratio in the registers, N + SDM/65536 of
    twice the reference, differs from the VCO frequency by at most half a unit of SDM:
    |2 xtal (65536 N + SDM) - 65536 2^j f| <= xtal.  From 27.6565 MHz on the divider field of
    three bits holds the exponent of the mixer divider, one higher where the fine tuning the chip reports is
    below the reference of the chip and one lower where it is above; below that frequency,
    where the divider would be 128, the field holds the exponent of the divider 2 instead. *)
Theorem r82xx_pll_accurate {D : Type} `{I2c D} (s : r82xx D) f rc s' :
  zlen (regs (priv s)) = NUM_REGS ->
  13828500 <= f < 1769999500 -> 8000000 <= xtal (cfg (priv s)) <= 60000000 ->
  r82xx_set_pll f s = (rc, s') -> 0 <= rc ->
  let l := regs (priv s') in
  exists j, 1 <= j <= 7 /\ (27656500 <= f <-> j <= 6) /\
    1770000 <= (f + 500) / 1000 * 2 ^ j < 3540000 /\
    pll_div_field l = ((if j <=? 6 then j - 1 else 0) + fine_tune_step s) mod 8 /\
    Z.abs (2 * xtal (cfg (priv s)) * (65536 * pll_nint l + pll_sdm l) - 65536 * (f * 2 ^ j))
      <= xtal (cfg (priv s)).
Proof.
  intros Hl Hf Hx E Hrc l.
  destruct (set_pll_regs f s rc s' Hl Hf Hx E Hrc) as (j&n&sdm&Hj&Hvco&Ed&Hn&H10&H14&H15).
  assert (Hlow : 27656500 <= f <-> j <= 6).
  { assert (j = 7 \/ j <= 6) as [->|Hj6] by lia; [change (2 ^ 7) with 128 in Hvco; Z.div_mod_to_equations; lia|].
    assert (2 ^ j <= 64) by (apply (Z.pow_le_mono_r 2 j 6); lia). split; [done|]. intros _.
    assert (27657 <= (f + 500) / 1000) by nia. Z.div_mod_to_equations; lia. }
  exists j. split_and!; try lia.
  { unfold pll_div_field, l. rewrite H10. unfold counted_exponent.
    destruct (Z.eqb_spec j 7), (Z.leb_spec j 6); try lia; done. }
  unfold pll_nint, pll_sdm, l. rewrite H14, H15.
  apply (pll_divider_spec (xtal (cfg (priv s))) (f * 2 ^ j)); [lia| |done].
  assert (Hp : 0 < 2 ^ j <= 2 ^ 7) by (split; [apply Z.pow_pos_nonneg|apply Z.pow_le_mono_r]; lia).
  pose proof (Z.mul_succ_div_gt (f + 500) 1000 ltac:(lia)) as Hk. destruct Hvco as [_ Hvco].
  clear -Hf Hp Hk Hvco. set (p := 2 ^ j) in *. clearbody p. set (k := (f + 500) / 1000) in *. clearbody k.
  assert (f * p <= (1000 * Z.succ k) * p) by (apply Z.mul_le_mono_nonneg_r; lia). nia.
Qed.

Lemma r82xx_pll_accurate_witness :
  let s' := (r82xx_set_pll 103570000 demo_tuned).2 in
  exists j, 1 <= j <= 7 /\ (27656500 <= 103570000 <-> j <= 6) /\
    1770000 <= (103570000 + 500) / 1000 * 2 ^ j < 3540000 /\
    pll_div_field (regs (priv s')) = ((if j <=? 6 then j - 1 else 0) + fine_tune_step demo_tuned) mod 8 /\
    Z.abs (2 * xtal (cfg (priv demo_tuned)) * (65536 * pll_nint (regs (priv s')) + pll_sdm (regs (priv s')))
      - 65536 * (103570000 * 2 ^ j)) <= xtal (cfg (priv demo_tuned)).
Proof.
  apply (r82xx_pll_accurate demo_tuned 103570000 (r82xx_set_pll 103570000 demo_tuned).1).
  - vm_compute. reflexivity.
  - lia.
  - vm_compute. split; discriminate.
  - apply surjective_pairing.
  - vm_compute. discriminate.
Defined.

(** ** Gain *)

(** The bits of register [r] that belong to the gain. *)
Definition gain_mask (r : Z) : Z :=
  if r =? 0x05 then 0x1f else if r =? 0x07 then 0x1f else if r =? 0x0c then 0x9f else 0.

Lemma gain_mask_bits r : (r, gain_mask r) ∈ gain_bits \/ gain_mask r = 0.
Proof.
  unfold gain_mask, gain_bits. rewrite !elem_of_cons.
  destruct (Z.eqb_spec r 5) as [->|]; [auto|]. destruct (Z.eqb_spec r 7) as [->|]; [auto|].
  destruct (Z.eqb_spec r 12) as [->|]; auto.
Qed.

(** A call that keeps the bits of a register keeps what the register has there. *)
Lemma keeps_bits {D} `{I2c D} {A} r m (x : st (r82xx D) A) s :
  (forall v, keeps (bits_are r m v) x) -> zlen (regs (priv s)) = NUM_REGS ->
  rd (regs (priv (x s).2)) (r - REG_SHADOW_START) &' m = rd (regs (priv s)) (r - REG_SHADOW_START) &' m.
Proof.
  intros Hk Hl. destruct (Hk (rd (regs (priv s)) (r - REG_SHADOW_START) &' m) s) as [_ ->]; [|done].
  by split.
Qed.

Lemma keeps_gain_rest {D} `{I2c D} r v manual g :
  keeps (D:=D) (bits_are r (0xff - gain_mask r) v) (r82xx_set_gain manual g).
Proof.
  unfold gain_mask. destruct (Z.eqb_spec r 5) as [->|H5]; [|destruct (Z.eqb_spec r 7) as [->|H7];
    [|destruct (Z.eqb_spec r 12) as [->|Hc]]];
    apply keeps_set_gain; first [lia | left; done | right; reflexivity].
Qed.

(** Gain and tuning do not disturb each other, on any path, failing ones included:
    setting the frequency or the bandwidth leaves the LNA, mixer and VGA gain bits of the
    register shadow as they were, and setting the gain leaves every other bit of every
    register as it was. *)
Theorem r82xx_gain_independent {D : Type} `{I2c D} (s : r82xx D) r :
  zlen (regs (priv s)) = NUM_REGS ->
  let at_r (s : r82xx D) := rd (regs (priv s)) (r - REG_SHADOW_START) in
  (forall f, at_r (r82xx_set_freq f s).2 &' gain_mask r = at_r s &' gain_mask r) /\
  (forall b rate, at_r (r82xx_set_bandwidth b rate s).2 &' gain_mask r = at_r s &' gain_mask r) /\
  (forall manual g, at_r (r82xx_set_gain manual g s).2 &' (0xff - gain_mask r)
                    = at_r s &' (0xff - gain_mask r)).
Proof.
  intros Hl at_r. split_and!; intros; unfold at_r.
  1-2: destruct (gain_mask_bits r) as [Hin|E]; [|by rewrite E, !Z.land_0_r].
  - apply keeps_bits; [|done]. intros v. by apply keeps_set_freq.
  - apply keeps_bits; [|done]. intros v. by apply keeps_set_bandwidth.
  - apply keeps_bits; [|done]. intros v. by apply keeps_gain_rest.
Qed.

Lemma r82xx_gain_independent_witness :
  let s' := (r82xx_set_gain true 229 demo_tuned).2 in
  rd (regs (priv s')) (0x0c - REG_SHADOW_START) &' (0xff - gain_mask 0x0c)
  = rd (regs (priv demo_tuned)) (0x0c - REG_SHADOW_START) &' (0xff - gain_mask 0x0c).
Proof.
  apply (r82xx_gain_independent demo_tuned 0x0c). vm_compute. reflexivity.
Defined.

(** The gains librtlsdr offers for this tuner, in tenths of a dB ([rtlsdr_get_tuner_gains]). *)
Definition r82xx_gains : list Z :=
  [0; 9; 14; 27; 37; 77; 87; 125; 144; 157; 166; 197; 207; 229; 254; 280; 297; 328; 338; 364;
   372; 386; 402; 421; 434; 439; 445; 480; 496].

(** The gain of [lna] LNA steps and [mix] mixer steps. *)
Definition gain_of (lna mix : nat) : Z :=
  foldr Z.add 0 (take lna (tail r82xx_lna_gain_steps))
  + foldr Z.add 0 (take mix (tail r82xx_mixer_gain_steps)).

(** The ladder of the search: LNA and mixer are raised in turn. *)
Definition ladder (k : nat) : Z := gain_of (Nat.div2 (S k)) (Nat.div2 k).

(** The first step of the ladder that reaches [gain], from step [k] on. *)
Fixpoint first_step (n : nat) (gain : Z) (k : nat) : nat :=
  match n with
  | O => k
  | S n' => if gain <=? ladder k then k else first_step n' gain (S k)
  end.

Lemma first_step_spec n gain k :
  let r := first_step n gain k in
  (k <= r <= n + k)%nat /\ (forall i, (k <= i < r)%nat -> ladder i < gain) /\
  (gain <= ladder r \/ r = (n + k)%nat).
Proof.
  revert k. induction n as [|n IH]; intros k; cbn [first_step]; [split_and!; auto; lia|].
  destruct (Z.leb_spec gain (ladder k)) as [Hk|Hk]; [split_and!; auto; lia|].
  destruct (IH (S k)) as (H1&H2&H3). split_and!; [lia..| |].
  - intros i Hi. destruct (decide (i = k)) as [->|]; [done|]. apply H2. lia.
  - destruct H3 as [?| ->]; [by left|right; lia].
Qed.

(** The search follows the ladder. *)
Lemma gain_loop_ladder gain :
  let k := first_step 30 gain 0 in
  gain_loop 15 gain 0 0 0 = (ladder k, Z.of_nat (Nat.div2 (S k)), Z.of_nat (Nat.div2 k)).
Proof.
  assert (Hgen : forall i k, (k + i = 15)%nat ->
    let r := first_step (2 * i) gain (2 * k) in
    gain_loop i gain (ladder (2 * k)) (Z.of_nat k) (Z.of_nat k)
    = (ladder r, Z.of_nat (Nat.div2 (S r)), Z.of_nat (Nat.div2 r))).
  { induction i as [|i IH]; intros k Hk; cbn zeta.
    - replace k with 15%nat by lia. reflexivity.
    - replace (2 * S i)%nat with (S (S (2 * i))) by lia. cbn [first_step gain_loop].
      assert (Hd : Nat.div2 (2 * k) = k /\ Nat.div2 (S (2 * k)) = k /\ Nat.div2 (S (S (2 * k))) = S k).
      { rewrite Nat.div2_double, Nat.div2_succ_double. split_and!; try done.
        cbn [Nat.div2]. by rewrite Nat.div2_double. }
      destruct Hd as (Hd0&Hd1&Hd2).
      destruct (gain <=? ladder (2 * k)); [by rewrite Hd0, Hd1|].
      assert (Hs1 : ladder (S (2 * k)) = ladder (2 * k) + rd r82xx_lna_gain_steps (Z.of_nat k + 1)).
      { unfold ladder. rewrite Hd0, Hd1, Hd2. do 15 (destruct k as [|k]; [reflexivity|]). lia. }
      rewrite <- Hs1. destruct (gain <=? ladder (S (2 * k))).
      { rewrite Hd1, Hd2. do 2 f_equal. lia. }
      assert (Hs2 : ladder (2 * S k) = ladder (S (2 * k)) + rd r82xx_mixer_gain_steps (Z.of_nat k + 1)).
      { unfold ladder. replace (2 * S k)%nat with (S (S (2 * k))) by lia. rewrite Hd1, Hd2.
        assert (Nat.div2 (S (S (S (2 * k)))) = S k) as -> by exact (f_equal S Hd1).
        do 15 (destruct k as [|k]; [reflexivity|]). lia. }
      rewrite <- Hs2. replace (Z.of_nat k + 1) with (Z.of_nat (S k)) by lia.
      replace (S (S (2 * k))) with (2 * S k)%nat by lia. apply (IH (S k)). lia. }
  intros k. apply (Hgen 15%nat 0%nat). lia.
Qed.

(** A masked write that succeeds leaves the value under the mask. *)
Lemma write_reg_mask_val {D} `{I2c D} reg val mask (s : r82xx D) rc s' :
  r82xx_write_reg_mask reg val mask s = (rc, s') -> 0 <= rc ->
  zlen (regs (priv s)) = NUM_REGS -> REG_SHADOW_START <= reg < REG_SHADOW_START + NUM_REGS ->
  0 <= mask < 256 -> bits_are reg mask (val &' mask) s'.
Proof.
  unfold r82xx_write_reg_mask. rewrite st_bind_eq. cbn [get_priv]. intros E Hrc Hl Hr Hm.
  destruct (Z.ltb_spec (r82xx_read_cache_reg (priv s) reg) 0); [injection E; intros; subst; lia|].
  replace s' with (r82xx_write reg [u8 ((r82xx_read_cache_reg (priv s) reg &' ~' mask) |' (val &' mask))] s).2
    by (by rewrite E).
  unfold bits_are. rewrite write_shadow by (auto; unfold zlen; simpl; lia). cbn [set_regs regs].
  split; [by rewrite zlen_blit|]. unfold REG_SHADOW_START, NUM_REGS in *. rewrite rd_blit_1 by lia.
  rewrite land_u8_mask by done. apply Z.bits_inj'. intros n Hn.
  rewrite !Z.land_spec, Z.lor_spec, !Z.land_spec, Z.lnot_spec by done.
  destruct (Z.testbit mask n), (Z.testbit val n); by rewrite ?andb_true_r, ?andb_false_r.
Qed.

Lemma bits_step {D} `{I2c D} r m v reg val mask (s : r82xx D) rc s' :
  r82xx_write_reg_mask reg val mask s = (rc, s') -> bits_are r m v s ->
  REG_SHADOW_START <= reg < REG_SHADOW_START + NUM_REGS ->
  (r <> reg \/ (0 <= m < 256 /\ mask &' m = 0)) -> bits_are r m v s'.
Proof.
  intros E Hb Hr Hd. replace s' with (r82xx_write_reg_mask reg val mask s).2 by (by rewrite E).
  by apply keeps_write_reg_mask.
Qed.

Lemma bits_priv {D} r m v (s s' : r82xx D) : priv s' = priv s -> bits_are r m v s -> bits_are r m v s'.
Proof. intros E. unfold bits_are. by rewrite E. Qed.

Ltac carry A E :=
  let H := fresh in
  assert (H := bits_step _ _ _ _ _ _ _ _ _ E A);
  specialize (H ltac:(reg_range)); specialize (H ltac:(keeps_side)); clear A; rename H into A.

(** The registers a successful manual gain leaves. *)
Lemma set_gain_regs {D} `{I2c D} gain (s : r82xx D) rc s' :
  zlen (regs (priv s)) = NUM_REGS -> r82xx_set_gain true gain s = (rc, s') -> 0 <= rc ->
  let '(_, lna, mix) := gain_loop 15 gain 0 0 0 in
  bits_are 0x05 0x10 0x10 s' /\ bits_are 0x07 0x10 0x00 s' /\ bits_are 0x0c 0x9f 0x08 s' /\
  bits_are 0x05 0x0f (lna &' 0x0f) s' /\ bits_are 0x07 0x0f (mix &' 0x0f) s'.
Proof.
  intros Hl E Hrc. unfold r82xx_set_gain in E. destruct (gain_loop _ _ _ _ _) as [[g lna] mix].
  apply chk_inv in E as (r1&s1&E1&H1&E); [|done]. apply chk_inv in E as (r2&s2&E2&H2&E); [|done].
  apply read_chk_inv in E as (s3&Hp3&E); [|done].
  apply chk_inv in E as (r4&s4&E4&H4&E); [|done]. apply chk_inv in E as (r5&s5&E5&H5&E); [|done].
  apply chk_inv in E as (r6&s6&E6&H6&E); [|done]. injection E as _ <-.
  pose proof (write_reg_mask_val _ _ _ _ _ _ E1 H1 Hl ltac:(reg_range) ltac:(lia)) as A1.
  pose proof (write_reg_mask_val _ _ _ _ _ _ E2 H2 (proj1 A1) ltac:(reg_range) ltac:(lia)) as A2.
  carry A1 E2. apply (bits_priv _ _ _ _ _ Hp3) in A1, A2.
  pose proof (write_reg_mask_val _ _ _ _ _ _ E4 H4 (proj1 A1) ltac:(reg_range) ltac:(lia)) as A4.
  carry A1 E4. carry A2 E4.
  pose proof (write_reg_mask_val _ _ _ _ _ _ E5 H5 (proj1 A1) ltac:(reg_range) ltac:(lia)) as A5.
  carry A1 E5. carry A2 E5. carry A4 E5.
  pose proof (write_reg_mask_val _ _ _ _ _ _ E6 H6 (proj1 A1) ltac:(reg_range) ltac:(lia)) as A6.
  carry A1 E6. carry A2 E6. carry A4 E6. carry A5 E6. by split_and!.
Qed.

(** Setting a gain by hand: the LNA and mixer indices in the registers are the first
    step of the ladder, which raises LNA and mixer in turn, that reaches the request, or
    its last step when none does; the automatic gain controls are off and the VGA is at its
    fixed value.  Each gain librtlsdr lists for the tuner is met exactly. *)
Theorem r82xx_manual_gain {D : Type} `{I2c D} (s : r82xx D) gain rc s' :
  zlen (regs (priv s)) = NUM_REGS -> r82xx_set_gain true gain s = (rc, s') -> 0 <= rc ->
  let at_r r := rd (regs (priv s')) (r - REG_SHADOW_START) in
  exists k, (k <= 30)%nat /\ (forall i, (i < k)%nat -> ladder i < gain) /\ (gain <= ladder k \/ k = 30%nat) /\
    at_r 0x05 &' 0x0f = Z.of_nat (Nat.div2 (S k)) /\ at_r 0x07 &' 0x0f = Z.of_nat (Nat.div2 k) /\
    at_r 0x05 &' 0x10 = 0x10 /\ at_r 0x07 &' 0x10 = 0 /\ at_r 0x0c &' 0x9f = 0x08 /\
    (gain ∈ r82xx_gains -> ladder k = gain).
Proof.
  intros Hl E Hrc at_r. pose proof (set_gain_regs gain s rc s' Hl E Hrc) as Hb.
  pose proof (gain_loop_ladder gain) as Hg. cbv zeta in Hg. rewrite Hg in Hb.
  destruct (first_step_spec 30 gain 0) as (H1&H2&H3). cbv zeta in *.
  assert (Hex : forall g, g ∈ r82xx_gains -> ladder (first_step 30 g 0) = g).
  { intros g. rewrite list_elem_of_In. revert g.
    refine (proj1 (Forall_forall (fun g => ladder (first_step 30 g 0) = g) r82xx_gains) _).
    unfold r82xx_gains. repeat constructor. }
  set (k := first_step 30 gain 0) in *.
  assert (Hn : forall x, (x <= 15)%nat -> Z.of_nat x &' 0x0f = Z.of_nat x).
  { intros x Hx. change 0x0f with (Z.ones 4). rewrite Z.land_ones by lia. apply Z.mod_small. lia. }
  assert (Nat.div2 (S k) <= 15 /\ Nat.div2 k <= 15)%nat as [Hk1 Hk2].
  { rewrite !Nat.div2_div. split; [|apply Nat.Div0.div_le_upper_bound; lia].
    apply Nat.lt_succ_r, Nat.Div0.div_lt_upper_bound. lia. }
  rewrite !Hn in Hb by done. unfold at_r.
  destruct Hb as ((_&?)&(_&?)&(_&?)&(_&?)&(_&?)). exists k. split_and!; try done.
  - lia.
  - intros i Hi. apply H2. lia.
  - intros Hin. by apply Hex.
Qed.

Lemma r82xx_manual_gain_witness :
  let s' := (r82xx_set_gain true 229 demo_tuned).2 in
  exists k, ladder k = 229 /\
    rd (regs (priv s')) (0x05 - REG_SHADOW_START) &' 0x0f = Z.of_nat (Nat.div2 (S k)) /\
    rd (regs (priv s')) (0x07 - REG_SHADOW_START) &' 0x0f = Z.of_nat (Nat.div2 k).
Proof.
  destruct (r82xx_manual_gain demo_tuned 229 (r82xx_set_gain true 229 demo_tuned).1
    (r82xx_set_gain true 229 demo_tuned).2) as (k&_&_&_&H5&H7&_&_&_&Hg).
  - vm_compute. reflexivity.
  - apply surjective_pairing.
  - vm_compute. discriminate.
  - exists k. split; [|by split]. apply Hg, list_elem_of_In. vm_compute. tauto.
Defined.

(** ** Bandwidth *)

(** The width the filter registers select: the low pass of the table at the index in the
    low nibble, widened by each high-pass stage that is switched off. *)
Definition filter_width (reg_0b : Z) : Z :=
  rd r82xx_if_low_pass_bw_table (15 - (reg_0b &' 0x0f))
  + (if Z.testbit reg_0b 6 then 0 else FILT_HP_BW1) + (if Z.testbit reg_0b 5 then 0 else FILT_HP_BW2).

(** Reads of a literal table at a literal index. *)
Ltac rd_lit :=
  repeat lazymatch goal with
  | |- context [rd ?l ?i] => let v := eval vm_compute in (rd l i) in change (rd l i) with v
  end.

Ltac index_cases i :=
  let Hd := fresh in
  assert (i = 0 \/ i = 1 \/ i = 2 \/ i = 3 \/ i = 4 \/ i = 5 \/ i = 6 \/ i = 7 \/ i = 8 \/ i = 9) as Hd by lia;
  destruct Hd as [->|[->|[->|[->|[->|[->|[->|[->|[->| ->]]]]]]]]].

Lemma low_pass_spec bw :
  bw <= 1700000 ->
  let i := low_pass_index r82xx_if_low_pass_bw_table bw 0 - 1 in
  0 <= i < 10 /\ bw <= rd r82xx_if_low_pass_bw_table i /\
  (350000 <= bw -> rd r82xx_if_low_pass_bw_table i < bw + 300000).
Proof.
  intros Hbw. unfold r82xx_if_low_pass_bw_table at 1 2. cbn [low_pass_index].
  repeat lazymatch goal with
  | |- context [if ?a <? ?b then _ else _] => destruct (Z.ltb_spec a b)
  end; try lia.
  all: split_and!; rd_lit; lia.
Qed.

(** The fields of the filter register. *)
Lemma filter_reg_fields i (hp1 hp2 : bool) :
  0 <= i < 10 ->
  let r := u8 ((0x80 |' (if hp2 then 0 else 0x20) |' (if hp1 then 0 else 0x40)) |' u32 (15 - i)) in
  15 - (r &' 0x0f) = i /\ Z.testbit r 6 = negb hp1 /\ Z.testbit r 5 = negb hp2 /\ Z.testbit r 7 = true.
Proof.
  intros Hi. index_cases i; destruct hp1, hp2; vm_compute; by split_and!.
Qed.

(** The computation behind the choice of the high-pass stages. *)
Lemma narrow_filter bw b (hp1 hp2 : bool) :
  b <= 1700000 ->
  let i := low_pass_index r82xx_if_low_pass_bw_table b 0 - 1 in
  let h1 := if hp1 then 350000 else 0 in let h2 := if hp2 then 380000 else 0 in
  b + h1 + h2 = bw -> ((hp1 || hp2) = true -> 350000 <= b) ->
  exists reg_0b,
    (0x00, u8 ((0x80 |' (if hp2 then 0 else 0x20) |' (if hp1 then 0 else 0x40)) |' u32 (15 - u32 i)),
     u32 (2300000 + h2 + h1 - Z.quot (h2 + h1 + rd r82xx_if_low_pass_bw_table (u32 i)) 2))
    = (0x00, reg_0b, 2300000 + (if Z.testbit reg_0b 6 then 0 else 350000)
         + (if Z.testbit reg_0b 5 then 0 else 380000) - filter_width reg_0b / 2) /\
    0 <= 15 - (reg_0b &' 0x0f) < 10 /\ Z.testbit reg_0b 7 = true /\
    bw <= filter_width reg_0b /\ (350000 <= bw -> filter_width reg_0b < bw + 300000).
Proof.
  intros Hb i h1 h2 Hsum Hmin. destruct (low_pass_spec b Hb) as (Hi&Hlo&Hhi). fold i in Hi, Hlo, Hhi.
  rewrite (u32_id i) by clia. destruct (filter_reg_fields i hp1 hp2 Hi) as (F1&F2&F3&F4).
  set (r := u8 _) in *. assert (Hw : filter_width r = rd r82xx_if_low_pass_bw_table i + h1 + h2).
  { unfold filter_width, FILT_HP_BW1, FILT_HP_BW2. rewrite F1, F2, F3. by destruct hp1, hp2. }
  assert (Ht : 350000 <= rd r82xx_if_low_pass_bw_table i <= 1700000).
  { clear -Hi. clearbody i. index_cases i; rd_lit; lia. }
  exists r. rewrite Hw, F1, F2, F3. split_and!; try lia; [|done|].
  - f_equal. rewrite Z.quot_div_nonneg by (unfold h1, h2; destruct hp1, hp2; lia).
    rewrite u32_id by (unfold h1, h2; destruct hp1, hp2; cdlia). unfold h1, h2. destruct hp1, hp2; cbn [negb]; f_equal; lia || (f_equal; lia).
  - intros. destruct (hp1 || hp2) eqn:Eh; [specialize (Hhi (Hmin eq_refl)); lia|].
    apply orb_false_iff in Eh as [-> ->]. unfold h1, h2 in *. lia.
Qed.

(** Narrow bandwidths, up to 2.43 MHz: the filters selected pass the whole request
    and, from 350 kHz on, exceed it by less than 300 kHz; the table index never leaves the
    table; and the intermediate frequency puts the pass band's upper edge at 2.3 MHz plus
    the high-pass stages' share. *)
Theorem r82xx_bandwidth_covers bw :
  bw <= 2430000 ->
  exists reg_0b, bandwidth_regs bw = (0x00, reg_0b, 2300000
      + (if Z.testbit reg_0b 6 then 0 else FILT_HP_BW1) + (if Z.testbit reg_0b 5 then 0 else FILT_HP_BW2)
      - filter_width reg_0b / 2) /\
    0 <= 15 - (reg_0b &' 0x0f) < 10 /\ Z.testbit reg_0b 7 = true /\
    bw <= filter_width reg_0b /\ (350000 <= bw -> filter_width reg_0b < bw + 300000).
Proof.
  intros Hbw. unfold bandwidth_regs, FILT_HP_BW1, FILT_HP_BW2.
  change (rd r82xx_if_low_pass_bw_table 0) with 1700000.
  destruct (Z.ltb_spec 7000000 bw); [lia|]. destruct (Z.ltb_spec 6000000 bw); [lia|].
  destruct (Z.ltb_spec (1700000 + 350000 + 380000) bw); [lia|].
  destruct (Z.ltb_spec (1700000 + 350000) bw);
  [destruct (Z.ltb_spec 1700000 (bw - 380000))|destruct (Z.ltb_spec 1700000 bw)].
  - apply (narrow_filter bw (bw - 380000 - 350000) true true); [lia|lia|intros; lia].
  - apply (narrow_filter bw (bw - 380000) false true); [lia|lia|intros; lia].
  - apply (narrow_filter bw (bw - 350000) true false); [lia|lia|intros; lia].
  - apply (narrow_filter bw bw false false); [lia|lia|done].
Qed.

Lemma r82xx_bandwidth_covers_witness :
  exists reg_0b, bandwidth_regs 2080001 = (0x00, reg_0b, 2300000
      + (if Z.testbit reg_0b 6 then 0 else FILT_HP_BW1) + (if Z.testbit reg_0b 5 then 0 else FILT_HP_BW2)
      - filter_width reg_0b / 2) /\ 2080001 <= filter_width reg_0b < 2080001 + 300000.
Proof.
  destruct (r82xx_bandwidth_covers 2080001) as (r&E&_&_&H1&H2); [lia|].
  exists r. split; [done|]. split; [done|]. apply H2. lia.
Defined.

End R82xxProps.
