(* ===== verification/TunerFc.v ===== *)
(** * Fitipower FC0012 and FC0013 drivers ([src/src/tuner_fc0012.c], [src/src/tuner_fc0013.c])

    Both chips are programmed without a shadow: the drivers only hold the device.
    [Module Fc0012] and [Module Fc0013] have every function of the two files over the
    interface of [I2c]; the arithmetic of the synthesiser, which the second file repeats,
    is stated once per file.

    The theorems: the divider registers the driver computes stand for the VCO frequency
    to within a fractional step when the clock is a multiple of 4 kHz, a tuning that succeeds leaves
    them in the chip, and the gain search takes the first entry that reaches the request. *)

From S2P Require Import Prelude I2c.

(** The byte a one-byte read leaves in the buffer that held [old]. *)
Definition read_byte (old : Z) (data : list Z) : Z := default old (head data).

Module Fc0012.

Abbreviation FC0012_I2C_ADDR := (0xc6)%Z (only parsing).
Abbreviation FC0012_CHECK_ADDR := (0x00)%Z (only parsing).
Abbreviation FC0012_CHECK_VAL := (0xa1)%Z (only parsing).

(** The frequency divider: [multi], [reg[5]] and [reg[6]]. *)
Definition fc0012_vco_band (freq : Z) : Z * Z * Z :=
  if freq <? 37084000 then (96, 0x82, 0x00)
  else if freq <? 55625000 then (64, 0x82, 0x02)
  else if freq <? 74167000 then (48, 0x42, 0x00)
  else if freq <? 111250000 then (32, 0x42, 0x02)
  else if freq <? 148334000 then (24, 0x22, 0x00)
  else if freq <? 222500000 then (16, 0x22, 0x02)
  else if freq <? 296667000 then (12, 0x12, 0x00)
  else if freq <? 445000000 then (8, 0x12, 0x02)
  else if freq <? 593334000 then (6, 0x0a, 0x00)
  else (4, 0x0a, 0x02).

(** [reg[1]] and [reg[2]]. *)
Definition fc0012_int_divider (xtal_freq_div_2 f_vco : Z) : Z * Z :=
  let xdiv := u16 (f_vco / xtal_freq_div_2) in
  let xdiv :=
    if xtal_freq_div_2 / 2 <=? u64 (f_vco - u32 (xdiv * xtal_freq_div_2)) then u16 (xdiv + 1) else xdiv in
  let pm := u8 (xdiv / 8) in
  let am := u8 (xdiv - 8 * pm) in
  let '(am, pm) := if am <? 2 then (u8 (am + 8), u8 (pm - 1)) else (am, pm) in
  if 31 <? pm then (u8 (am + 8 * (pm - 31)), 31) else (am, pm).

(** The fractional part. *)
Definition fc0012_frac_divider (xtal_freq_div_2 f_vco : Z) : Z :=
  let xin := u16 (u64 (f_vco - u64 (f_vco / xtal_freq_div_2 * xtal_freq_div_2)) / 1000) in
  let xin := u16 (u32 (xin <<' 15) / (xtal_freq_div_2 / 1000)) in
  if 16384 <=? xin then u16 (xin + 32768) else xin.

Definition fc0012_bandwidth_bits (bandwidth : Z) : Z :=
  if bandwidth =? 6000000 then 0x80 else if bandwidth =? 7000000 then 0x40 else 0x00.

(** The registers 1 to 6 of a tuning and [vco_select]; [None] where the driver finds no
    combination. *)
Definition fc0012_pll_regs (clock freq bandwidth : Z) : option (list Z * bool) :=
  let xtal_freq_div_2 := clock / 2 in
  let '(multi, r5, r6) := fc0012_vco_band freq in
  let f_vco := u32 (freq * multi) in
  let vco_select := 3060000000 <=? f_vco in
  let r6 := if vco_select then r6 |' 0x08 else r6 in
  let '(r1, r2) := fc0012_int_divider xtal_freq_div_2 f_vco in
  if (15 <? r1) || (r2 <? 0x0b) then None
  else
    let r6 := r6 |' 0x20 in
    let xin := fc0012_frac_divider xtal_freq_div_2 f_vco in
    let r3 := xin >>' 8 in
    let r4 := xin &' 0xff in
    let r6 := (r6 &' 0x3f) |' fc0012_bandwidth_bits bandwidth in
    let r5 := r5 |' 0x07 in
    Some ([r1; r2; r3; r4; r5; r6], vco_select).

Definition fc0012_init_regs : list Z :=
  [0x05; 0x10; 0x00; 0x00; 0x0f; 0x00; 0x00 |' 0x20; 0xff; 0x6e; 0xb8; 0x82; 0xfc |' 0x02; 0x02;
   0x00; 0x00; 0x00; 0x00; 0x1f; 0x00; 0x00; 0x04].

(** The gain bits of register 0x13. *)
Definition fc0012_gain_code (gain : Z) : Z :=
  if gain <? -40 then 0x02 else if gain <? 71 then 0x00 else if gain <? 179 then 0x08
  else if gain <? 192 then 0x17 else 0x10.

Section Driver.
Context {D : Type} `{I2c D}.

Definition fc0012_writereg (reg val : Z) : st D Z :=
  rc ← rtlsdr_i2c_write_fn FC0012_I2C_ADDR [reg; val];
  mret (if rc <? 0 then -1 else 0).

(** The result and the value of the caller's variable, [val] before the call. *)
Definition fc0012_readreg (reg val : Z) : st D (Z * Z) :=
  rc ← rtlsdr_i2c_write_fn FC0012_I2C_ADDR [reg];
  if rc <? 0 then mret (-1, val)
  else
    '(rc, data) ← rtlsdr_i2c_read_fn FC0012_I2C_ADDR 1;
    if rc <? 0 then mret (-1, val) else mret (0, read_byte reg data).

(** The loops that write consecutive registers. *)
Fixpoint fc0012_write_regs (i : Z) (l : list Z) : st D Z :=
  match l with
  | [] => mret 0
  | v :: l => (fc0012_writereg i v) ;?0 (fc0012_write_regs (i + 1) l)
  end.

Definition fc0012_init : st D Z := fc0012_write_regs 1 fc0012_init_regs.

(** The VCO selection at the end of [fc0012_set_params]. *)
Definition fc0012_vco_reselect (r6 : Z) : st D Z :=
  (fc0012_writereg 0x06 r6) ;?0
  (fc0012_writereg 0x0e 0x80) ;?0
  (fc0012_writereg 0x0e 0x00).

Definition fc0012_set_params (freq bandwidth : Z) : st D Z :=
  d ← st_get;
  match fc0012_pll_regs (rtlsdr_get_tuner_clock d) freq bandwidth with
  | None => mret (-1)
  | Some (regs, vco_select) =>
      (fc0012_write_regs 1 regs) ;?0
      (fc0012_writereg 0x0e 0x80) ;?0
      (fc0012_writereg 0x0e 0x00) ;?0
      (fc0012_writereg 0x0e 0x00) ;?0
      ('(ret, tmp) ← fc0012_readreg 0x0e 0;
       if negb (ret =? 0) then mret ret
       else
         let tmp := tmp &' 0x3f in
         let r6 := rd regs 5 in
         if vco_select
         then if 0x3c <? tmp then fc0012_vco_reselect (r6 &' ~' 0x08) else mret 0
         else if tmp <? 0x02 then fc0012_vco_reselect (r6 |' 0x08) else mret 0)
  end.

Definition fc0012_set_gain (gain : Z) : st D Z :=
  '(_, tmp) ← fc0012_readreg 0x13 0;
  fc0012_writereg 0x13 ((tmp &' 0xe0) |' fc0012_gain_code gain).

End Driver.
End Fc0012.

Module Fc0013.

Abbreviation FC0013_I2C_ADDR := (0xc6)%Z (only parsing).
Abbreviation FC0013_CHECK_ADDR := (0x00)%Z (only parsing).
Abbreviation FC0013_CHECK_VAL := (0xa3)%Z (only parsing).

Definition fc0013_vco_band (freq : Z) : Z * Z * Z :=
  if freq <? 37084000 then (96, 0x82, 0x00)
  else if freq <? 55625000 then (64, 0x02, 0x02)
  else if freq <? 74167000 then (48, 0x42, 0x00)
  else if freq <? 111250000 then (32, 0x82, 0x02)
  else if freq <? 148334000 then (24, 0x22, 0x00)
  else if freq <? 222500000 then (16, 0x42, 0x02)
  else if freq <? 296667000 then (12, 0x12, 0x00)
  else if freq <? 445000000 then (8, 0x22, 0x02)
  else if freq <? 593334000 then (6, 0x0a, 0x00)
  else if freq <? 950000000 then (4, 0x12, 0x02)
  else (2, 0x0a, 0x02).

Definition fc0013_int_divider (xtal_freq_div_2 f_vco : Z) : Z * Z :=
  let xdiv := u16 (f_vco / xtal_freq_div_2) in
  let xdiv :=
    if xtal_freq_div_2 / 2 <=? u64 (f_vco - u32 (xdiv * xtal_freq_div_2)) then u16 (xdiv + 1) else xdiv in
  let pm := u8 (xdiv / 8) in
  let am := u8 (xdiv - 8 * pm) in
  let '(am, pm) := if am <? 2 then (u8 (am + 8), u8 (pm - 1)) else (am, pm) in
  if 31 <? pm then (u8 (am + 8 * (pm - 31)), 31) else (am, pm).

Definition fc0013_frac_divider (xtal_freq_div_2 f_vco : Z) : Z :=
  let xin := u16 (u64 (f_vco - u64 (f_vco / xtal_freq_div_2 * xtal_freq_div_2)) / 1000) in
  let xin := u16 (u32 (xin <<' 15) / (xtal_freq_div_2 / 1000)) in
  if 16384 <=? xin then u16 (xin + 32768) else xin.

Definition fc0013_bandwidth_bits (bandwidth : Z) : Z :=
  if bandwidth =? 6000000 then 0x80 else if bandwidth =? 7000000 then 0x40 else 0x00.

Definition fc0013_pll_regs (clock freq bandwidth : Z) : option (list Z * bool) :=
  let xtal_freq_div_2 := clock / 2 in
  let '(multi, r5, r6) := fc0013_vco_band freq in
  let f_vco := u32 (freq * multi) in
  let vco_select := 3060000000 <=? f_vco in
  let r6 := if vco_select then r6 |' 0x08 else r6 in
  let '(r1, r2) := fc0013_int_divider xtal_freq_div_2 f_vco in
  if (15 <? r1) || (r2 <? 0x0b) then None
  else
    let r6 := r6 |' 0x20 in
    let xin := fc0013_frac_divider xtal_freq_div_2 f_vco in
    let r3 := xin >>' 8 in
    let r4 := xin &' 0xff in
    let r6 := (r6 &' 0x3f) |' fc0013_bandwidth_bits bandwidth in
    let r5 := r5 |' 0x07 in
    Some ([r1; r2; r3; r4; r5; r6], vco_select).

Definition fc0013_init_regs : list Z :=
  [0x09; 0x16; 0x00; 0x00; 0x17; 0x02; 0x0a |' 0x20; 0xff; 0x6e; 0xb8; 0x82; 0xfc |' 0x02; 0x01;
   0x00; 0x00; 0x00; 0x00; 0x00; 0x00; 0x50; 0x01].

(** The bits [fc0013_set_vhf_track] sets. *)
Definition fc0013_vhf_track (freq : Z) : Z :=
  if freq <=? 177500000 then 0x1c else if freq <=? 184500000 then 0x18
  else if freq <=? 191500000 then 0x14 else if freq <=? 198500000 then 0x10
  else if freq <=? 205500000 then 0x0c else if freq <=? 219500000 then 0x08
  else if freq <? 300000000 then 0x04 else 0x1c.

Definition fc0013_lna_gains : list (Z * Z) :=
  [(-99, 0x02); (-73, 0x03); (-65, 0x05); (-63, 0x04); (-63, 0x00); (-60, 0x07); (-58, 0x01);
   (-54, 0x06); (58, 0x0f); (61, 0x0e); (63, 0x0d); (65, 0x0c); (67, 0x0b); (68, 0x0a); (70, 0x09);
   (71, 0x08); (179, 0x17); (181, 0x16); (182, 0x15); (184, 0x14); (186, 0x13); (188, 0x12);
   (191, 0x11); (197, 0x10)].

(** The loop of [fc0013_set_lna_gain]: the first entry that reaches the gain, or the last. *)
Fixpoint fc0013_lna_code (l : list (Z * Z)) (gain : Z) : Z :=
  match l with
  | [] => 0
  | [(_, code)] => code
  | (g, code) :: l => if gain <=? g then code else fc0013_lna_code l gain
  end.

Section Driver.
Context {D : Type} `{I2c D}.

Definition fc0013_writereg (reg val : Z) : st D Z :=
  rc ← rtlsdr_i2c_write_fn FC0013_I2C_ADDR [reg; val];
  mret (if rc <? 0 then -1 else 0).

Definition fc0013_readreg (reg val : Z) : st D (Z * Z) :=
  rc ← rtlsdr_i2c_write_fn FC0013_I2C_ADDR [reg];
  if rc <? 0 then mret (-1, val)
  else
    '(rc, data) ← rtlsdr_i2c_read_fn FC0013_I2C_ADDR 1;
    if rc <? 0 then mret (-1, val) else mret (0, read_byte reg data).

(** Read a register and, if that worked, go on with its value. *)
Definition fc0013_read_then (reg : Z) (k : Z -> st D Z) : st D Z :=
  '(ret, tmp) ← fc0013_readreg reg 0; if negb (ret =? 0) then mret ret else k tmp.

Fixpoint fc0013_write_regs (i : Z) (l : list Z) : st D Z :=
  match l with
  | [] => mret 0
  | v :: l => (fc0013_writereg i v) ;?0 (fc0013_write_regs (i + 1) l)
  end.

Definition fc0013_init : st D Z := fc0013_write_regs 1 fc0013_init_regs.

Definition fc0013_rc_cal_add (rc_val : Z) : st D Z :=
  (fc0013_writereg 0x10 0x00) ;?0
  (fc0013_read_then 0x10 (fun rc_cal =>
     let val := (rc_cal &' 0x0f) + rc_val in
     (fc0013_writereg 0x0d 0x11) ;?0
     (if 15 <? val then fc0013_writereg 0x10 0x0f
      else if val <? 0 then fc0013_writereg 0x10 0x00
      else fc0013_writereg 0x10 (u8 val)))).

Definition fc0013_rc_cal_reset : st D Z :=
  (fc0013_writereg 0x0d 0x01) ;?0 (fc0013_writereg 0x10 0x00).

Definition fc0013_set_vhf_track (freq : Z) : st D Z :=
  fc0013_read_then 0x1d (fun tmp => fc0013_writereg 0x1d ((tmp &' 0xe3) |' fc0013_vhf_track freq)).

(** The filter switches of [fc0013_set_params]. *)
Definition fc0013_select_filters (freq : Z) : st D Z :=
  if freq <? 300000000 then
    (fc0013_read_then 0x07 (fun tmp => fc0013_writereg 0x07 (tmp |' 0x10))) ;?0
    (fc0013_read_then 0x14 (fun tmp => fc0013_writereg 0x14 (tmp &' 0x1f)))
  else if freq <=? 862000000 then
    (fc0013_read_then 0x07 (fun tmp => fc0013_writereg 0x07 (tmp &' 0xef))) ;?0
    (fc0013_read_then 0x14 (fun tmp => fc0013_writereg 0x14 ((tmp &' 0x1f) |' 0x40)))
  else
    (fc0013_read_then 0x07 (fun tmp => fc0013_writereg 0x07 (tmp &' 0xef))) ;?0
    (fc0013_read_then 0x14 (fun tmp => fc0013_writereg 0x14 ((tmp &' 0x1f) |' 0x40))).

Definition fc0013_vco_reselect (r6 : Z) : st D Z :=
  (fc0013_writereg 0x06 r6) ;?0
  (fc0013_writereg 0x0e 0x80) ;?0
  (fc0013_writereg 0x0e 0x00).

Definition fc0013_set_params (freq bandwidth : Z) : st D Z :=
  d ← st_get;
  let clock := rtlsdr_get_tuner_clock d in
  (fc0013_set_vhf_track freq) ;?0
  (fc0013_select_filters freq) ;?0
  match fc0013_pll_regs clock freq bandwidth with
  | None => mret (-1)
  | Some (regs, vco_select) =>
      (fc0013_write_regs 1 regs) ;?0
      (fc0013_read_then 0x11 (fun tmp =>
         if (fc0013_vco_band freq).1.1 =? 64 then fc0013_writereg 0x11 (tmp |' 0x04)
         else fc0013_writereg 0x11 (tmp &' 0xfb))) ;?0
      (fc0013_writereg 0x0e 0x80) ;?0
      (fc0013_writereg 0x0e 0x00) ;?0
      (fc0013_writereg 0x0e 0x00) ;?0
      (fc0013_read_then 0x0e (fun tmp =>
         let tmp := tmp &' 0x3f in
         let r6 := rd regs 5 in
         if vco_select
         then if 0x3c <? tmp then fc0013_vco_reselect (r6 &' ~' 0x08) else mret 0
         else if tmp <? 0x02 then fc0013_vco_reselect (r6 |' 0x08) else mret 0))
  end.

Definition fc0013_set_gain_mode (manual : bool) : st D Z :=
  '(ret, tmp) ← fc0013_readreg 0x0d 0;
  let tmp := if manual then tmp |' (1 <<' 3) else tmp &' ~' (1 <<' 3) in
  ret1 ← fc0013_writereg 0x0d tmp;
  ret2 ← fc0013_writereg 0x13 0x0a;
  mret (ret |' ret1 |' ret2).

Definition fc0013_set_lna_gain (gain : Z) : st D Z :=
  '(ret, tmp) ← fc0013_readreg 0x14 0;
  ret1 ← fc0013_writereg 0x14 ((tmp &' 0xe0) |' fc0013_lna_code fc0013_lna_gains gain);
  mret (ret |' ret1).

End Driver.
End Fc0013.

Module FcFacts.
Import Fc0012 Fc0013.

(** The second file repeats the arithmetic of the first. *)
Lemma fc0013_dividers : fc0013_int_divider = fc0012_int_divider /\ fc0013_frac_divider = fc0012_frac_divider.
Proof. done. Qed.

(** The integer part: accepted dividers stand for the rounded quotient. *)
Lemma int_divider_spec x f r1 r2 :
  10000000 <= x <= 20000000 -> 2 * x <= f < 2 ^ 32 -> fc0012_int_divider x f = (r1, r2) ->
  r1 <= 15 -> 0x0b <= r2 ->
  2 <= r1 /\ r2 <= 31 /\ 8 * r2 + r1 = f / x + b2z (x / 2 <=? f mod x).
Proof.
  intros Hx Hf. unfold fc0012_int_divider.
  assert (Hq : 2 <= f / x <= 429).
  { split; [apply Z.div_le_lower_bound; lia|]. apply Z.lt_succ_r, Z.div_lt_upper_bound; lia. }
  assert (Hm : f / x * x <= f) by (rewrite Z.mul_comm; apply Z.mul_div_le; lia).
  rewrite (u16_id (f / x)) by clia. rewrite (u32_id (f / x * x)) by clia.
  rewrite (u64_id (f - f / x * x)) by clia.
  replace (f - f / x * x) with (f mod x) by (rewrite Z.mod_eq; lia).
  set (up := x / 2 <=? f mod x). set (n := f / x + b2z up).
  assert (Hn : (if up then u16 (f / x + 1) else f / x) = n) by (unfold n, b2z; destruct up; [apply u16_id; clia|lia]).
  rewrite Hn. assert (Hnr : 2 <= n <= 430) by (unfold n, b2z; destruct up; lia). clearbody n. clear Hn Hq Hm Hf Hx.
  rewrite (u8_id (n / 8)) by cdlia. rewrite (u8_id (n - 8 * (n / 8))) by cdlia.
  destruct (Z.ltb_spec (n - 8 * (n / 8)) 2).
  - rewrite (u8_id (_ + 8)) by cdlia. rewrite (u8_id (n / 8 - 1)) by cdlia.
    destruct (Z.ltb_spec 31 (n / 8 - 1)); intros [= <- <-]; cdlia.
  - destruct (Z.ltb_spec 31 (n / 8)); intros [= <- <-]; cdlia.
Qed.

(** The fractional part, as the signed number the chip takes it for, when the clock is a
    multiple of 4 kHz. *)
Lemma frac_divider_spec x f y :
  x = 2000 * y -> 5000 <= y <= 10000 -> 0 <= f < 2 ^ 32 ->
  let xin := fc0012_frac_divider x f in
  is_u 16 xin /\
  0 <= 32768 * (f mod x) - x * (s16 xin + 32768 * b2z (x / 2 <=? f mod x)) < x + 32768000.
Proof.
  intros -> Hy Hf. unfold fc0012_frac_divider. set (x := 2000 * y).
  assert (Hm : 0 <= f / x * x <= f).
  { split; [apply Z.mul_nonneg_nonneg; [apply Z.div_pos|]; lia|].
    rewrite Z.mul_comm. apply Z.mul_div_le. lia. }
  rewrite (u64_id (f / x * x)) by clia. rewrite (u64_id (f - f / x * x)) by clia.
  replace (f - f / x * x) with (f mod x) by (rewrite Z.mod_eq; lia).
  pose proof (Z.mod_pos_bound f x ltac:(lia)) as Hr. set (r := f mod x) in *. clearbody r. clear Hf Hm.
  replace (x / 1000) with (2 * y) by (unfold x; Z.div_mod_to_equations; lia).
  replace (x / 2) with (1000 * y) by (unfold x; Z.div_mod_to_equations; lia).
  assert (Hk : 0 <= r / 1000 < 2 * y) by (unfold x in Hr; Z.div_mod_to_equations; lia).
  pose proof (Z.div_mod r 1000 ltac:(lia)) as Hre. pose proof (Z.mod_pos_bound r 1000 ltac:(lia)) as He.
  set (k := r / 1000) in *. set (e := r mod 1000) in *. clearbody k e.
  rewrite (u16_id k) by clia. rewrite Z.shiftl_mul_pow2 by lia. change (2 ^ 15) with 32768.
  rewrite (u32_id (k * 32768)) by clia.
  assert (Hq : 2 * y * (k * 32768 / (2 * y)) <= k * 32768 < 2 * y * (k * 32768 / (2 * y)) + 2 * y).
  { pose proof (Z.mul_div_le (k * 32768) (2 * y)). pose proof (Z.mul_succ_div_gt (k * 32768) (2 * y)). lia. }
  assert (Hqr : 0 <= k * 32768 / (2 * y) < 32768).
  { split; [apply Z.div_pos; lia|apply Z.div_lt_upper_bound; lia]. }
  set (q := k * 32768 / (2 * y)) in *. clearbody q. rewrite (u16_id q) by clia.
  assert (Hqy : 16384 <= q <-> y <= k).
  { split; intros Hg.
    - assert (2 * y * 16384 <= 2 * y * q) by (apply Z.mul_le_mono_nonneg_l; lia). lia.
    - destruct (Z.le_gt_cases 16384 q); [done|]. exfalso.
      assert (2 * y * q <= 2 * y * 16383) by (apply Z.mul_le_mono_nonneg_l; lia). lia. }
  set (p := 2 * y * q) in *.
  assert (Hup : (16384 <=? q) = (1000 * y <=? r)) by (destruct (Z.leb_spec 16384 q), (Z.leb_spec (1000 * y) r); lia || done).
  assert (Hpq : forall c, 32768 * r - x * (q - c + c) = 1000 * (k * 32768 - p) + 32768 * e).
  { intros c. unfold x, p. rewrite Hre. ring. }
  rewrite Hup. unfold b2z. destruct (Z.leb_spec (1000 * y) r).
  - assert (Hg : 16384 <= q) by lia. rewrite (u16_id (q + 32768)) by clia.
    replace (s16 (q + 32768)) with (q - 32768) by cdlia. split; [clia|].
    replace (q - 32768 + 32768 * 1) with (q - 32768 + 32768) by ring. rewrite Hpq. unfold x. lia.
  - rewrite s16_id by clia. split; [clia|].
    replace (q + 32768 * 0) with (q - 0 + 0) by ring. rewrite Hpq. unfold x. lia.
Qed.

(** The oscillator the registers 1 to 4 stand for, in units of the clock half over 32768. *)
Definition fc_ratio (r1 r2 r3 r4 : Z) : Z := 32768 * (8 * r2 + r1) + s16 (256 * r3 + r4).

Lemma dividers_accurate x f y r1 r2 :
  x = 2000 * y -> 5000 <= y <= 10000 -> 2 * x <= f < 2 ^ 32 ->
  fc0012_int_divider x f = (r1, r2) -> r1 <= 15 -> 0x0b <= r2 ->
  let xin := fc0012_frac_divider x f in
  2 <= r1 <= 15 /\ 0x0b <= r2 <= 31 /\
  0 <= 32768 * f - x * fc_ratio r1 r2 (xin >>' 8) (xin &' 0xff) < x + 32768000.
Proof.
  intros Hxy Hy Hf E H1 H2. assert (Hx : 10000000 <= x <= 20000000) by lia.
  destruct (int_divider_spec x f r1 r2 Hx Hf E H1 H2) as (H3&H4&H5).
  destruct (frac_divider_spec x f y Hxy Hy ltac:(lia)) as (Hu&Hb).
  cbv zeta. set (xin := fc0012_frac_divider x f) in *. clearbody xin.
  assert (Hsplit : 256 * (xin >>' 8) + (xin &' 0xff) = xin).
  { change 0xff with (Z.ones 8). rewrite Z.shiftr_div_pow2, Z.land_ones by lia. change (2 ^ 8) with 256.
    Z.div_mod_to_equations; lia. }
  unfold fc_ratio. rewrite Hsplit. split_and!; try lia.
  all: pose proof (Z.div_mod f x ltac:(lia)) as Hdm; rewrite H5;
    set (q := f / x) in *; set (r := f mod x) in *; clearbody q r;
    replace (32768 * f - x * (32768 * (q + b2z (x / 2 <=? r)) + s16 xin))
      with (32768 * r - x * (s16 xin + 32768 * b2z (x / 2 <=? r))) by (rewrite Hdm; ring); lia.
Qed.

(** ** Register traffic *)

Section Hw.
Context {D : Type} `{I2c D} (hw : D -> Z -> Z) `{!I2cRegs D FC0012_I2C_ADDR hw} `{!I2cFull D FC0012_I2C_ADDR}.

(** A call that, when it succeeds, leaves the registers below [n] alone. *)
Definition spares (n : Z) (m : st D Z) : Prop :=
  forall d d', m d = (0, d') -> forall r, r < n -> hw d' r = hw d r.

Lemma writereg_hw reg val d d' :
  fc0012_writereg reg val d = (0, d') -> forall r, hw d' r = if r =? reg then val else hw d r.
Proof.
  unfold fc0012_writereg. rewrite st_bind_eq. intros E r.
  destruct (i2c_write_full d [reg; val] eq_refl) as [Hw|Hw];
    destruct (rtlsdr_i2c_write_fn _ _ d) as [rc d1] eqn:Ew; cbn in Hw; rewrite st_ret_eq in E.
  - destruct (Z.ltb_spec rc 0); [done|lia].
  - destruct (Z.ltb_spec rc 0); [done|]. injection E as <-.
    rewrite (i2c_write_regs _ _ _ _ _ Ew Hw r). apply store_regs_one.
Qed.

Lemma write_regs_hw i l d d' :
  fc0012_write_regs i l d = (0, d') -> forall r, hw d' r = store_regs (hw d) i l r.
Proof.
  revert i d. induction l as [|v l IH]; intros i d.
  - intros [= ->] r. by rewrite store_regs_nil.
  - cbn [fc0012_write_regs]. intros (d1&E1&E2)%chk0_inv r. rewrite store_regs_cons, (IH _ _ E2).
    unfold store_regs at 1 2. by rewrite (writereg_hw _ _ _ _ E1), <- store_regs_one.
Qed.

(** A read that goes on has left the registers alone. *)
Lemma readreg_hw reg d ret tmp d' :
  fc0012_readreg reg 0 d = ((ret, tmp), d') -> ret = 0 -> forall r, hw d' r = hw d r.
Proof.
  unfold fc0012_readreg. rewrite st_bind_eq. intros E -> r.
  destruct (i2c_write_full d [reg] eq_refl) as [Hw|Hw];
    destruct (rtlsdr_i2c_write_fn _ _ d) as [rc d1] eqn:Ew; cbn in Hw.
  { destruct (Z.ltb_spec rc 0); [done|lia]. }
  destruct (Z.ltb_spec rc 0); [done|]. rewrite st_bind_eq in E.
  pose proof (i2c_read_regs d1 1 r) as Hr.
  destruct (rtlsdr_i2c_read_fn FC0012_I2C_ADDR 1 d1) as [[rc2 data] d2].
  destruct (rc2 <? 0); [done|]. injection E as _ <-. cbn in Hr. rewrite Hr.
  rewrite (i2c_write_regs _ _ _ _ _ Ew Hw r). apply store_regs_nil.
Qed.

Lemma spares_writereg n reg val : n <= reg -> spares n (fc0012_writereg reg val).
Proof.
  intros Hn d d' E r Hr. rewrite (writereg_hw _ _ _ _ E). destruct (Z.eqb_spec r reg); [lia|done].
Qed.
Lemma spares_chk0 n m k : spares n m -> spares n k -> spares n (m ;?0 k).
Proof.
  intros Hm Hk d d' (d1&E1&E2)%chk0_inv r Hr. by rewrite (Hk _ _ E2), (Hm _ _ E1).
Qed.
Lemma spares_ret n : spares n (mret 0).
Proof. by intros d d' [= ->] r. Qed.
Lemma spares_if n (b : bool) m k : spares n m -> spares n k -> spares n (if b then m else k).
Proof. by destruct b. Qed.
Lemma spares_read n reg (k : Z -> st D Z) :
  (forall tmp, spares n (k tmp)) ->
  spares n ('(ret, tmp) ← fc0012_readreg reg 0; if negb (ret =? 0) then mret ret else k tmp).
Proof.
  intros Hk d d' E r Hr. rewrite st_bind_eq in E.
  destruct (fc0012_readreg reg 0 d) as [[ret tmp] d1] eqn:E1.
  destruct (Z.eqb_spec ret 0) as [->|]; cbn [negb] in E.
  - rewrite (Hk tmp _ _ E r Hr). by rewrite (readreg_hw _ _ _ _ _ E1 eq_refl).
  - injection E as -> _. done.
Qed.
End Hw.

Ltac spares_step :=
  lazymatch goal with
  | |- spares _ _ (chk0 _ _) => apply spares_chk0
  | |- spares _ _ (mret 0) => apply spares_ret
  | |- spares _ _ (if _ then _ else _) => apply spares_if
  | |- spares _ _ (fc0012_writereg _ _) => apply spares_writereg; [exact _|exact _|lia]
  | |- spares _ _ (fc0013_writereg _ _) => apply spares_writereg; [exact _|exact _|lia]
  | |- spares _ _ (fc0013_read_then _ _) => apply spares_read; [exact _|exact _|intros ?]
  | |- spares _ _ (_ ≫= _) => apply spares_read; [exact _|exact _|intros ?]
  | |- spares _ _ (fc0012_vco_reselect _) => unfold fc0012_vco_reselect
  | |- spares _ _ (fc0013_vco_reselect _) => unfold fc0013_vco_reselect
  | |- spares _ _ (let _ := _ in _) => cbv zeta
  end.
Ltac spares_auto := repeat spares_step.
(** The rest of a call, [E : m d1 = (0, d')], leaves the registers below 6 alone. *)
Ltac spared E :=
  intros r Hr;
  lazymatch type of E with
  | ?m ?d = (0, ?d') => lazymatch goal with
      |- ?hw _ _ = _ => exact ((ltac:(spares_auto) : spares hw 6 m) d d' E r Hr) end
  end.

End FcFacts.

Module FcProps.
Import Fc0012 Fc0013 FcFacts.

Lemma fc0012_vco_range f :
  1000000 <= f < 2 ^ 30 -> 40000000 <= f * (fc0012_vco_band f).1.1 < 2 ^ 32.
Proof. intros Hf. unfold fc0012_vco_band. ztests; cbn; lia. Qed.
Lemma fc0013_vco_range f :
  1000000 <= f < 2 ^ 31 -> 40000000 <= f * (fc0013_vco_band f).1.1 < 2 ^ 32.
Proof. intros Hf. unfold fc0013_vco_band. ztests; cbn; lia. Qed.

Lemma fc0012_regs_accurate clock y f bw regs sel :
  clock / 2 = 2000 * y -> 5000 <= y <= 10000 -> 1000000 <= f < 2 ^ 30 ->
  fc0012_pll_regs clock f bw = Some (regs, sel) ->
  let v := f * (fc0012_vco_band f).1.1 in
  exists r1 r2 r3 r4 r5 r6, regs = [r1; r2; r3; r4; r5; r6] /\
    2 <= r1 <= 15 /\ 0x0b <= r2 <= 31 /\
    0 <= 32768 * v - clock / 2 * fc_ratio r1 r2 r3 r4 < clock / 2 + 32768000.
Proof.
  intros Hc Hy Hf. pose proof (fc0012_vco_range f Hf) as Hv. unfold fc0012_pll_regs. rewrite Hc.
  destruct (fc0012_vco_band f) as [[multi b5] b6]. cbn [fst snd] in *.
  rewrite (u32_id (f * multi)) by clia. set (v := f * multi) in *.
  destruct (fc0012_int_divider (2000 * y) v) as [r1 r2] eqn:E.
  destruct (Z.ltb_spec 15 r1), (Z.ltb_spec r2 0x0b); cbn [orb]; try done. intros [= <- _].
  destruct (dividers_accurate (2000 * y) v y r1 r2 eq_refl Hy) as (H1&H2&H3); try lia; [done|].
  eexists _, _, _, _, _, _. split; [reflexivity|]. split; [done|]. split; [done|]. exact H3.
Qed.

Lemma fc0013_regs_accurate clock y f bw regs sel :
  clock / 2 = 2000 * y -> 5000 <= y <= 10000 -> 1000000 <= f < 2 ^ 31 ->
  fc0013_pll_regs clock f bw = Some (regs, sel) ->
  let v := f * (fc0013_vco_band f).1.1 in
  exists r1 r2 r3 r4 r5 r6, regs = [r1; r2; r3; r4; r5; r6] /\
    2 <= r1 <= 15 /\ 0x0b <= r2 <= 31 /\
    0 <= 32768 * v - clock / 2 * fc_ratio r1 r2 r3 r4 < clock / 2 + 32768000.
Proof.
  intros Hc Hy Hf. pose proof (fc0013_vco_range f Hf) as Hv. unfold fc0013_pll_regs. rewrite Hc.
  destruct (fc0013_vco_band f) as [[multi b5] b6]. cbn [fst snd] in *.
  rewrite (u32_id (f * multi)) by clia. set (v := f * multi) in *.
  destruct fc0013_dividers as [-> ->].
  destruct (fc0012_int_divider (2000 * y) v) as [r1 r2] eqn:E.
  destruct (Z.ltb_spec 15 r1), (Z.ltb_spec r2 0x0b); cbn [orb]; try done. intros [= <- _].
  destruct (dividers_accurate (2000 * y) v y r1 r2 eq_refl Hy) as (H1&H2&H3); try lia; [done|].
  eexists _, _, _, _, _, _. split; [reflexivity|]. split; [done|]. split; [done|]. exact H3.
Qed.

(** The oscillator frequency in the registers of the chip is [v], to within 1 kHz and a
    fractional step below. *)
Definition tuned_to (clock v : Z) (hw : Z -> Z) : Prop :=
  2 <= hw 1 <= 15 /\ 0x0b <= hw 2 <= 31 /\
  0 <= 32768 * v - clock / 2 * fc_ratio (hw 1) (hw 2) (hw 3) (hw 4) < clock / 2 + 32768000.

Lemma tuned_after {D} (hw : D -> Z -> Z) clock v r1 r2 r3 r4 r5 r6 d d1 d' :
  2 <= r1 <= 15 -> 0x0b <= r2 <= 31 ->
  0 <= 32768 * v - clock / 2 * fc_ratio r1 r2 r3 r4 < clock / 2 + 32768000 ->
  (forall r, hw d1 r = store_regs (hw d) 1 [r1; r2; r3; r4; r5; r6] r) ->
  (forall r, r < 6 -> hw d' r = hw d1 r) -> tuned_to clock v (hw d') /\ hw d' 5 = r5.
Proof.
  intros H1 H2 H3 Hst Hk. unfold tuned_to. rewrite !Hk by lia. rewrite !Hst.
  split; [|reflexivity]. split; [exact H1|]. split; [exact H2|exact H3].
Qed.

Section Tuning.
Context {D : Type} `{I2c D} (hw : D -> Z -> Z) `{!I2cRegs D FC0012_I2C_ADDR hw} `{!I2cFull D FC0012_I2C_ADDR}.

Lemma fc0012_tuned (d d' : D) y f bw :
  rtlsdr_get_tuner_clock d / 2 = 2000 * y -> 5000 <= y <= 10000 -> 1000000 <= f < 2 ^ 30 ->
  fc0012_set_params f bw d = (0, d') ->
  tuned_to (rtlsdr_get_tuner_clock d) (f * (fc0012_vco_band f).1.1) (hw d') /\
  hw d' 5 = (fc0012_vco_band f).1.2 |' 0x07.
Proof.
  intros Hc Hy Hf. unfold fc0012_set_params. rewrite st_bind_eq. cbn [st_get].
  destruct (fc0012_pll_regs _ _ _) as [[regs sel]|] eqn:Ep; [|done].
  intros (d1&E1&E2)%chk0_inv.
  destruct (fc0012_regs_accurate _ _ _ _ _ _ Hc Hy Hf Ep) as (r1&r2&r3&r4&r5&r6&->&H1&H2&H3).
  assert (H5 : r5 = (fc0012_vco_band f).1.2 |' 0x07).
  { unfold fc0012_pll_regs in Ep. destruct (fc0012_vco_band f) as [[? ?] ?].
    destruct (fc0012_int_divider _ _) as [? ?]. destruct (_ || _); [done|]. by injection Ep. }
  rewrite <- H5. eapply tuned_after; [exact H1|exact H2|exact H3|exact (write_regs_hw hw _ _ _ _ E1)|].
  spared E2.
Qed.

Lemma fc0013_tuned (d d' : D) y f bw :
  rtlsdr_get_tuner_clock d / 2 = 2000 * y -> 5000 <= y <= 10000 -> 1000000 <= f < 2 ^ 31 ->
  fc0013_set_params f bw d = (0, d') ->
  tuned_to (rtlsdr_get_tuner_clock d) (f * (fc0013_vco_band f).1.1) (hw d') /\
  hw d' 5 = (fc0013_vco_band f).1.2 |' 0x07.
Proof.
  intros Hc Hy Hf. unfold fc0013_set_params. rewrite st_bind_eq. cbn [st_get].
  intros (d0&_&E)%chk0_inv. apply chk0_inv in E as (d1&_&E).
  destruct (fc0013_pll_regs _ _ _) as [[regs sel]|] eqn:Ep; [|done].
  apply chk0_inv in E as (d2&E1&E2).
  destruct (fc0013_regs_accurate _ _ _ _ _ _ Hc Hy Hf Ep) as (r1&r2&r3&r4&r5&r6&->&H1&H2&H3).
  assert (H5 : r5 = (fc0013_vco_band f).1.2 |' 0x07).
  { unfold fc0013_pll_regs in Ep. destruct (fc0013_vco_band f) as [[? ?] ?].
    destruct (fc0013_int_divider _ _) as [? ?]. destruct (_ || _); [done|]. by injection Ep. }
  rewrite <- H5. eapply tuned_after; [exact H1|exact H2|exact H3|exact (write_regs_hw hw 1 [r1; r2; r3; r4; r5; r6] d1 d2 E1)|].
  spared E2.
Qed.
End Tuning.

(** Tuning an FC0012 or an FC0013, for clocks that are multiples of 4 kHz: when the
    call succeeds the registers 1 to 4 of the chip hold a divider, its integer part within
    the limits of the chip and its fractional part signed, whose oscillator frequency is the
    requested one times the divider of the band, to within 1 kHz and one fractional step
    below; register 5 selects that divider. *)
Theorem fc_tunes {D : Type} `{I2c D} (hw : D -> Z -> Z) `{!I2cRegs D FC0012_I2C_ADDR hw}
    `{!I2cFull D FC0012_I2C_ADDR} (d d' : D) y f bw :
  rtlsdr_get_tuner_clock d / 2 = 2000 * y -> 5000 <= y <= 10000 -> 1000000 <= f < 2 ^ 30 ->
  (fc0012_set_params f bw d = (0, d') ->
   tuned_to (rtlsdr_get_tuner_clock d) (f * (fc0012_vco_band f).1.1) (hw d') /\
   hw d' 5 = (fc0012_vco_band f).1.2 |' 0x07) /\
  (fc0013_set_params f bw d = (0, d') ->
   tuned_to (rtlsdr_get_tuner_clock d) (f * (fc0013_vco_band f).1.1) (hw d') /\
   hw d' 5 = (fc0013_vco_band f).1.2 |' 0x07).
Proof.
  intros Hc Hy Hf. split; intros E; [by apply fc0012_tuned with y bw|].
  apply fc0013_tuned with y bw; try done. lia.
Qed.

(** A chip with a clock of 28.8 MHz. *)
Definition fc_demo : reg_device := mk_reg_device (fun r => if r =? 0x0e then 0x20 else 0) 0.

Lemma fc_tunes_witness :
  tuned_to (rtlsdr_get_tuner_clock fc_demo) (100000000 * (fc0012_vco_band 100000000).1.1)
    (dev_file (fc0012_set_params 100000000 6000000 fc_demo).2) /\
  tuned_to (rtlsdr_get_tuner_clock fc_demo) (100000000 * (fc0013_vco_band 100000000).1.1)
    (dev_file (fc0013_set_params 100000000 6000000 fc_demo).2).
Proof.
  assert (Hc : rtlsdr_get_tuner_clock fc_demo / 2 = 2000 * 7200) by reflexivity.
  assert (E2 : fc0012_set_params 100000000 6000000 fc_demo
    = (0, (fc0012_set_params 100000000 6000000 fc_demo).2)) by (apply rc_pair; vm_compute; reflexivity).
  assert (E3 : fc0013_set_params 100000000 6000000 fc_demo
    = (0, (fc0013_set_params 100000000 6000000 fc_demo).2)) by (apply rc_pair; vm_compute; reflexivity).
  split.
  - exact (proj1 (proj1 (fc_tunes dev_file fc_demo _ 7200 100000000 6000000 Hc ltac:(lia) ltac:(lia)) E2)).
  - exact (proj1 (proj2 (fc_tunes dev_file fc_demo _ 7200 100000000 6000000 Hc ltac:(lia) ltac:(lia)) E3)).
Defined.

(** A frequency correction of 1 ppm makes the clock 28800028 Hz; the rounding of the integer
    part and that of the fractional part then disagree, and the oscillator of a request for
    793800770 Hz is off by half the clock. *)
Lemma fc0012_rounding_gap :
  exists regs sel, fc0012_pll_regs 28800028 793800770 6000000 = Some (regs, sel) /\
    32768 * (793800770 * 4)
    - 14400014 * fc_ratio (rd regs 0) (rd regs 1) (rd regs 2) (rd regs 3) >= 32768 * 14399000.
Proof. eexists _, _. split; [vm_compute; reflexivity|]. vm_compute. discriminate. Qed.

End FcProps.
