(* ===== verification/TunerE4k.v ===== *)
(** * Elonics E4000 driver ([src/src/tuner_e4k.c], [src/include/tuner_e4k.h])

    The driver keeps the band and the synthesiser's parameters and reads registers back
    from the chip before it changes fields of them.  [Module E4k] has every compiled
    function of the file over the interface of [I2c].

    The theorems: the synthesiser's parameters are the nearest below the request, filter
    searches return an entry no other is closer than, a masked write changes the bits under
    the mask only, and a tuning that succeeds leaves the parameters in the chip. *)

From S2P Require Import Prelude I2c TunerFc.

Module E4k.

Abbreviation E4K_I2C_ADDR := (0xc8)%Z (only parsing).
Abbreviation E4K_CHECK_ADDR := (0x02)%Z (only parsing).
Abbreviation E4K_CHECK_VAL := (0x40)%Z (only parsing).
Definition EINVAL : Z := 22.

(** [enum e4k_reg], the registers the code names. *)
Abbreviation E4K_REG_MASTER1 := (0x00)%Z (only parsing).
Abbreviation E4K_REG_CLK_INP := (0x05)%Z (only parsing).
Abbreviation E4K_REG_REF_CLK := (0x06)%Z (only parsing).
Abbreviation E4K_REG_SYNTH1 := (0x07)%Z (only parsing).
Abbreviation E4K_REG_SYNTH3 := (0x09)%Z (only parsing).
Abbreviation E4K_REG_SYNTH4 := (0x0a)%Z (only parsing).
Abbreviation E4K_REG_SYNTH5 := (0x0b)%Z (only parsing).
Abbreviation E4K_REG_SYNTH7 := (0x0d)%Z (only parsing).
Abbreviation E4K_REG_FILT1 := (0x10)%Z (only parsing).
Abbreviation E4K_REG_FILT2 := (0x11)%Z (only parsing).
Abbreviation E4K_REG_FILT3 := (0x12)%Z (only parsing).
Abbreviation E4K_REG_GAIN1 := (0x14)%Z (only parsing).
Abbreviation E4K_REG_GAIN2 := (0x15)%Z (only parsing).
Abbreviation E4K_REG_GAIN3 := (0x16)%Z (only parsing).
Abbreviation E4K_REG_GAIN4 := (0x17)%Z (only parsing).
Abbreviation E4K_REG_AGC1 := (0x1a)%Z (only parsing).
Abbreviation E4K_REG_AGC4 := (0x1d)%Z (only parsing).
Abbreviation E4K_REG_AGC5 := (0x1e)%Z (only parsing).
Abbreviation E4K_REG_AGC6 := (0x1f)%Z (only parsing).
Abbreviation E4K_REG_AGC7 := (0x20)%Z (only parsing).
Abbreviation E4K_REG_AGC11 := (0x24)%Z (only parsing).
Abbreviation E4K_REG_DC1 := (0x29)%Z (only parsing).
Abbreviation E4K_REG_DC2 := (0x2a)%Z (only parsing).
Abbreviation E4K_REG_DC3 := (0x2b)%Z (only parsing).
Abbreviation E4K_REG_DC4 := (0x2c)%Z (only parsing).
Abbreviation E4K_REG_DC5 := (0x2d)%Z (only parsing).
Abbreviation E4K_REG_DC7 := (0x2f)%Z (only parsing).
Abbreviation E4K_REG_DCTIME1 := (0x70)%Z (only parsing).
Abbreviation E4K_REG_DCTIME2 := (0x71)%Z (only parsing).
Abbreviation E4K_REG_BIAS := (0x78)%Z (only parsing).
Abbreviation E4K_REG_CLKOUT_PWDN := (0x7a)%Z (only parsing).

Abbreviation E4K_MASTER1_RESET := (1 <<' 0)%Z (only parsing).
Abbreviation E4K_MASTER1_NORM_STBY := (1 <<' 1)%Z (only parsing).
Abbreviation E4K_MASTER1_POR_DET := (1 <<' 2)%Z (only parsing).
Abbreviation E4K_SYNTH1_PLL_LOCK := (1 <<' 0)%Z (only parsing).
Abbreviation E4K_FILT3_DISABLE := (1 <<' 5)%Z (only parsing).
Abbreviation E4K_AGC7_MIX_GAIN_AUTO := (1 <<' 0)%Z (only parsing).
Abbreviation E4K_AGC11_LNA_GAIN_ENH := (1 <<' 0)%Z (only parsing).
Abbreviation E4K_DC5_RANGE_DET_EN := (1 <<' 2)%Z (only parsing).
Abbreviation E4K_AGC1_MOD_MASK := (0xF)%Z (only parsing).
Abbreviation E4K_AGC_MOD_SERIAL := (0x0)%Z (only parsing).
Abbreviation E4K_AGC_MOD_IF_SERIAL_LNA_AUTON := (0x9)%Z (only parsing).

Inductive e4k_band := E4K_BAND_VHF2 | E4K_BAND_VHF3 | E4K_BAND_UHF | E4K_BAND_L.
Definition band_value (b : e4k_band) : Z :=
  match b with E4K_BAND_VHF2 => 0 | E4K_BAND_VHF3 => 1 | E4K_BAND_UHF => 2 | E4K_BAND_L => 3 end.

Inductive e4k_if_filter := E4K_IF_FILTER_MIX | E4K_IF_FILTER_CHAN | E4K_IF_FILTER_RC.

Record e4k_pll_params := mk_pll {
  fosc : Z;
  intended_flo : Z;
  flo : Z;
  pll_x : Z;
  pll_z : Z;
  pll_r : Z;
  r_idx : Z;
  threephase : Z;
}.

Record e4k_state := mk_e4k_state {
  i2c_addr : Z;
  band : e4k_band;
  vco : e4k_pll_params;
}.

Definition set_fosc (f : Z) (p : e4k_pll_params) : e4k_pll_params :=
  mk_pll f (intended_flo p) (flo p) (pll_x p) (pll_z p) (pll_r p) (r_idx p) (threephase p).
Definition set_band (b : e4k_band) (s : e4k_state) : e4k_state := mk_e4k_state (i2c_addr s) b (vco s).
Definition set_vco (p : e4k_pll_params) (s : e4k_state) : e4k_state := mk_e4k_state (i2c_addr s) (band s) p.

Record reg_field := mk_field { f_reg : Z; f_shift : Z; f_width : Z }.

Definition MHZ (n : Z) : Z := n * 1000 * 1000.
Definition KHZ (n : Z) : Z := n * 1000.

Definition unsigned_delta (a b : Z) : Z := if b <? a then u32 (a - b) else u32 (b - a).

Definition width2mask : list Z := [0; 1; 3; 7; 0xf; 0x1f; 0x3f; 0x7f; 0xff].

(** *** Tables *)

Definition rf_filt_center_uhf : list Z := MHZ <$>
  [360; 380; 405; 425; 450; 475; 505; 540; 575; 615; 670; 720; 760; 840; 890; 970].
Definition rf_filt_center_l : list Z := MHZ <$>
  [1300; 1320; 1360; 1410; 1445; 1460; 1490; 1530; 1560; 1590; 1640; 1660; 1680; 1700; 1720; 1750].
Definition mix_filter_bw : list Z := KHZ <$>
  [27000; 27000; 27000; 27000; 27000; 27000; 27000; 27000; 4600; 4200; 3800; 3400; 3300; 2700; 2300; 1900].
Definition ifrc_filter_bw : list Z := KHZ <$>
  [21400; 21000; 17600; 14700; 12400; 10600; 9000; 7700; 6400; 5300; 4400; 3400; 2600; 1800; 1200; 1000].
Definition ifch_filter_bw : list Z := KHZ <$>
  [5500; 5300; 5000; 4800; 4600; 4400; 4300; 4100; 3900; 3800; 3700; 3600; 3400; 3300; 3200; 3100;
   3000; 2950; 2900; 2800; 2750; 2700; 2600; 2550; 2500; 2450; 2400; 2300; 2280; 2240; 2200; 2150].
Definition if_filter_bw (f : e4k_if_filter) : list Z :=
  match f with
  | E4K_IF_FILTER_MIX => mix_filter_bw
  | E4K_IF_FILTER_CHAN => ifch_filter_bw
  | E4K_IF_FILTER_RC => ifrc_filter_bw
  end.
Definition if_filter_fields (f : e4k_if_filter) : reg_field :=
  match f with
  | E4K_IF_FILTER_MIX => mk_field E4K_REG_FILT2 4 4
  | E4K_IF_FILTER_CHAN => mk_field E4K_REG_FILT3 0 5
  | E4K_IF_FILTER_RC => mk_field E4K_REG_FILT2 0 4
  end.

(** [struct pll_settings]: limit, register value, multiplier. *)
Definition pll_vars : list (Z * Z * Z) :=
  [(KHZ 72400, (1 <<' 3) |' 7, 48); (KHZ 81200, (1 <<' 3) |' 6, 40); (KHZ 108300, (1 <<' 3) |' 5, 32);
   (KHZ 162500, (1 <<' 3) |' 4, 24); (KHZ 216600, (1 <<' 3) |' 3, 16); (KHZ 325000, (1 <<' 3) |' 2, 12);
   (KHZ 350000, (1 <<' 3) |' 1, 8); (KHZ 432000, (0 <<' 3) |' 3, 8); (KHZ 667000, (0 <<' 3) |' 2, 6);
   (KHZ 1200000, (0 <<' 3) |' 1, 4)].

Definition if_stage1_gain : list Z := [-3; 6].
Definition if_stage23_gain : list Z := [0; 3; 6; 9].
Definition if_stage4_gain : list Z := [0; 1; 2; 2].
Definition if_stage56_gain : list Z := [3; 6; 9; 12; 15; 15; 15; 15].
(** With the lengths of [if_stage_gain_len]. *)
Definition if_stage_gain : list (list Z) :=
  [[]; if_stage1_gain; if_stage23_gain; if_stage23_gain; if_stage4_gain; if_stage56_gain; if_stage56_gain].
Definition if_stage_gain_regs : list reg_field :=
  [mk_field 0 0 0; mk_field E4K_REG_GAIN3 0 1; mk_field E4K_REG_GAIN3 1 2; mk_field E4K_REG_GAIN3 3 2;
   mk_field E4K_REG_GAIN3 5 2; mk_field E4K_REG_GAIN4 0 3; mk_field E4K_REG_GAIN4 3 3].
Definition lnagain : list (Z * Z) :=
  [(-50, 0); (-25, 1); (0, 4); (25, 5); (50, 6); (75, 7); (100, 8); (125, 9); (150, 10); (175, 11);
   (200, 12); (250, 13); (300, 14)].
Definition enhgain : list Z := [10; 30; 50; 70].
Definition if_gains_max : list Z := [0; 6; 9; 9; 2; 15; 15].
(** [struct gain_comb]: mixer gain, first IF gain, register. *)
Definition dc_gain_comb : list (Z * Z * Z) := [(4, -3, 0x50); (4, 6, 0x51); (12, -3, 0x52); (12, 6, 0x53)].

(** *** Computation *)

(** The loop of [closest_arr_idx] from index [i] on. *)
Fixpoint closest_loop (arr : list Z) (freq i bi best_delta : Z) : Z :=
  match arr with
  | [] => bi
  | a :: arr =>
      let delta := unsigned_delta freq a in
      if delta <? best_delta then closest_loop arr freq (i + 1) i delta
      else closest_loop arr freq (i + 1) bi best_delta
  end.
Definition closest_arr_idx (arr : list Z) (freq : Z) : Z := closest_loop arr freq 0 0 0xffffffff.

(** A band is always one of the four, so the error branch does not exist. *)
Definition choose_rf_filter (b : e4k_band) (freq : Z) : Z :=
  match b with
  | E4K_BAND_VHF2 | E4K_BAND_VHF3 => 0
  | E4K_BAND_UHF => closest_arr_idx rf_filt_center_uhf freq
  | E4K_BAND_L => closest_arr_idx rf_filt_center_l freq
  end.

Definition find_if_bw (f : e4k_if_filter) (bw : Z) : Z := closest_arr_idx (if_filter_bw f) bw.

Definition E4K_PLL_Y : Z := 65536.

Definition is_fosc_valid (fosc : Z) : bool := negb ((fosc <? MHZ 16) || (MHZ 30 <? fosc)).

Definition compute_fvco (f_osc z x : Z) : Z :=
  let fvco_z := u64 (f_osc * z) in
  let fvco_x := u64 (f_osc * x) / E4K_PLL_Y in
  u64 (fvco_z + fvco_x).

Definition compute_flo (f_osc z x r : Z) : Z :=
  let fvco := compute_fvco f_osc (u8 z) (u16 x) in
  if fvco =? 0 then u32 (- EINVAL) else u32 (fvco / r).

(** The search of [pll_vars]: [r_idx], [r] and [three_phase_mixing]. *)
Fixpoint pll_select (l : list (Z * Z * Z)) (intended_flo : Z) : Z * Z * Z :=
  match l with
  | [] => (0, 2, 0)
  | (limit, reg_synth7, mult) :: l =>
      if intended_flo <? limit
      then (reg_synth7, mult, if reg_synth7 &' 0x08 =? 0 then 0 else 1)
      else pll_select l intended_flo
  end.

(** The result and [*oscp]; [None] where the clock is refused. *)
Definition e4k_compute_pll_params (fosc intended_flo : Z) : option (Z * e4k_pll_params) :=
  if negb (is_fosc_valid fosc) then None
  else
    let '(r_idx, r, three_phase_mixing) := pll_select pll_vars intended_flo in
    let intended_fvco := u64 (intended_flo * r) in
    let z := intended_fvco / fosc in
    let remainder := u64 (intended_fvco - u64 (fosc * z)) in
    let x := u32 (u64 (remainder * E4K_PLL_Y) / fosc) in
    let flo := compute_flo fosc z x r in
    Some (flo, mk_pll fosc intended_flo flo (u16 x) (u8 z) r r_idx three_phase_mixing).

(** The loop of [find_stage_gain]. *)
Fixpoint stage_gain_loop (arr : list Z) (val i : Z) : Z :=
  match arr with
  | [] => - EINVAL
  | a :: arr => if a =? val then i else stage_gain_loop arr val (i + 1)
  end.
Definition find_stage_gain (stage val : Z) : Z :=
  if zlen if_stage_gain <=? stage then - EINVAL
  else stage_gain_loop (default [] (if_stage_gain !! Z.to_nat stage)) val 0.

(** The code of an LNA gain. *)
Fixpoint lna_index (l : list (Z * Z)) (gain : Z) : option Z :=
  match l with
  | [] => None
  | (g, code) :: l => if g =? gain then Some code else lna_index l gain
  end.

(** The index of an enhanced gain. *)
Fixpoint enh_index (l : list Z) (gain i : Z) : option Z :=
  match l with
  | [] => None
  | g :: l => if g =? gain then Some i else enh_index l gain (i + 1)
  end.

Definition TO_LUT (offset range : Z) : Z := offset |' (range <<' 6).

Record e4k (D : Type) := mk_e4k { st_of : e4k_state; dev_of : D }.
Arguments mk_e4k {D}.
Arguments st_of {D}.
Arguments dev_of {D}.

Section Driver.
Context {D : Type} `{I2c D}.

Abbreviation M := (st (e4k D)).

Definition get_e4k : M e4k_state := fun s => (st_of s, s).
Definition mod_e4k (f : e4k_state -> e4k_state) : M unit := fun s => (tt, mk_e4k (f (st_of s)) (dev_of s)).
Definition e4k_on_dev {A} (m : st D A) : M A :=
  fun s => let '(v, d) := m (dev_of s) in (v, mk_e4k (st_of s) d).

Definition e4k_reg_write (reg val : Z) : M Z :=
  s ← get_e4k;
  rc ← e4k_on_dev (rtlsdr_i2c_write_fn (i2c_addr s) [reg; val]);
  mret (if rc =? 2 then 0 else -1).

Definition e4k_reg_read (reg : Z) : M Z :=
  s ← get_e4k;
  rc ← e4k_on_dev (rtlsdr_i2c_write_fn (i2c_addr s) [reg]);
  if rc <? 1 then mret (-1)
  else
    '(rc, data) ← e4k_on_dev (rtlsdr_i2c_read_fn (i2c_addr s) 1);
    if rc <? 1 then mret (-1) else mret (read_byte reg data).

Definition e4k_reg_set_mask (reg mask val : Z) : M Z :=
  tmp ← e4k_reg_read reg;
  let tmp := u8 tmp in
  if tmp &' mask =? val then mret 0
  else e4k_reg_write reg (u8 ((tmp &' ~' mask) |' (val &' mask))).

Definition e4k_field_write (field : reg_field) (val : Z) : M Z :=
  (e4k_reg_read (f_reg field)) ;?
  (let mask := u8 (rd width2mask (f_width field) <<' f_shift field) in
   e4k_reg_set_mask (f_reg field) mask (u8 (val <<' f_shift field))).

Definition e4k_field_read (field : reg_field) : M Z :=
  rc ← e4k_reg_read (f_reg field);
  if rc <? 0 then mret rc else mret ((rc >>' f_shift field) &' rd width2mask (f_width field)).

Definition e4k_rf_filter_set : M Z :=
  s ← get_e4k;
  e4k_reg_set_mask E4K_REG_FILT1 0xF (choose_rf_filter (band s) (flo (vco s))).

Definition e4k_if_filter_bw_set (f : e4k_if_filter) (bandwidth : Z) : M Z :=
  e4k_field_write (if_filter_fields f) (u8 (find_if_bw f bandwidth)).

Definition e4k_if_filter_chan_enable (on : bool) : M Z :=
  e4k_reg_set_mask E4K_REG_FILT3 E4K_FILT3_DISABLE (if on then 0 else E4K_FILT3_DISABLE).

Definition e4k_if_filter_bw_get (f : e4k_if_filter) : M Z :=
  rc ← e4k_field_read (if_filter_fields f);
  if rc <? 0 then mret rc else mret (rd (if_filter_bw f) rc).

Definition e4k_band_set (b : e4k_band) : M Z :=
  _ ← (match b with
       | E4K_BAND_VHF2 | E4K_BAND_VHF3 | E4K_BAND_UHF => e4k_reg_write E4K_REG_BIAS 3
       | E4K_BAND_L => e4k_reg_write E4K_REG_BIAS 0
       end);
  _ ← e4k_reg_set_mask E4K_REG_SYNTH1 0x06 0;
  rc ← e4k_reg_set_mask E4K_REG_SYNTH1 0x06 (band_value b <<' 1);
  _ ← (if 0 <=? rc then mod_e4k (set_band b) else mret tt);
  mret rc.

(** The band of a local oscillator frequency. *)
Definition band_of (flo : Z) : e4k_band :=
  if flo <? MHZ 140 then E4K_BAND_VHF2 else if flo <? MHZ 350 then E4K_BAND_VHF3
  else if flo <? MHZ 1135 then E4K_BAND_UHF else E4K_BAND_L.

Definition e4k_tune_params (p : e4k_pll_params) : M Z :=
  _ ← e4k_reg_write E4K_REG_SYNTH7 (r_idx p);
  _ ← e4k_reg_write E4K_REG_SYNTH3 (pll_z p);
  _ ← e4k_reg_write E4K_REG_SYNTH4 (pll_x p &' 0xff);
  _ ← e4k_reg_write E4K_REG_SYNTH5 (pll_x p >>' 8);
  _ ← mod_e4k (set_vco p);
  _ ← e4k_band_set (band_of (flo p));
  _ ← e4k_rf_filter_set;
  mret (s32 (flo p)).

Definition e4k_tune_freq (freq : Z) : M Z :=
  s ← get_e4k;
  match e4k_compute_pll_params (fosc (vco s)) freq with
  | None => mret (- EINVAL)
  | Some (rc, p) =>
      if rc =? 0 then mret (- EINVAL)
      else
        _ ← e4k_tune_params p;
        rc ← e4k_reg_read E4K_REG_SYNTH1;
        if u32 rc &' 0x01 =? 0 then mret (-1) else mret 0
  end.

Definition e4k_set_lna_gain (gain : Z) : M Z :=
  match lna_index lnagain gain with
  | Some code => _ ← e4k_reg_set_mask E4K_REG_GAIN1 0xf code; mret gain
  | None => mret (- EINVAL)
  end.

Definition e4k_set_enh_gain (gain : Z) : M Z :=
  match enh_index enhgain gain 0 with
  | Some i => _ ← e4k_reg_set_mask E4K_REG_AGC11 0x7 (E4K_AGC11_LNA_GAIN_ENH |' (i <<' 1)); mret gain
  | None =>
      _ ← e4k_reg_set_mask E4K_REG_AGC11 0x7 0;
      if gain =? 0 then mret 0 else mret (- EINVAL)
  end.

Definition e4k_enable_manual_gain (manual : bool) : M Z :=
  if manual then
    _ ← e4k_reg_set_mask E4K_REG_AGC1 E4K_AGC1_MOD_MASK E4K_AGC_MOD_SERIAL;
    _ ← e4k_reg_set_mask E4K_REG_AGC7 E4K_AGC7_MIX_GAIN_AUTO 0;
    mret 0
  else
    _ ← e4k_reg_set_mask E4K_REG_AGC1 E4K_AGC1_MOD_MASK E4K_AGC_MOD_IF_SERIAL_LNA_AUTON;
    _ ← e4k_reg_set_mask E4K_REG_AGC7 E4K_AGC7_MIX_GAIN_AUTO 1;
    _ ← e4k_reg_set_mask E4K_REG_AGC11 0x7 0;
    mret 0.

Definition e4k_if_gain_set (stage value : Z) : M Z :=
  let rc := find_stage_gain stage value in
  if rc <? 0 then mret rc
  else
    let field := default (mk_field 0 0 0) (if_stage_gain_regs !! Z.to_nat stage) in
    let mask := u8 (rd width2mask (f_width field) <<' f_shift field) in
    e4k_reg_set_mask (f_reg field) mask (u8 (rc <<' f_shift field)).

Definition e4k_mixer_gain_set (value : Z) : M Z :=
  if value =? 4 then e4k_reg_set_mask E4K_REG_GAIN2 1 0
  else if value =? 12 then e4k_reg_set_mask E4K_REG_GAIN2 1 1
  else mret (- EINVAL).

Definition e4k_commonmode_set (value : Z) : M Z :=
  if value <? 0 then mret (- EINVAL) else if 7 <? value then mret (- EINVAL)
  else e4k_reg_set_mask E4K_REG_DC7 7 value.

Definition e4k_manual_dc_offset (iofs irange qofs qrange : Z) : M Z :=
  if (iofs <? 0) || (0x3f <? iofs) then mret (- EINVAL)
  else if (irange <? 0) || (0x03 <? irange) then mret (- EINVAL)
  else if (qofs <? 0) || (0x3f <? qofs) then mret (- EINVAL)
  else if (qrange <? 0) || (0x03 <? qrange) then mret (- EINVAL)
  else
    (e4k_reg_set_mask E4K_REG_DC2 0x3f iofs) ;?
    (e4k_reg_set_mask E4K_REG_DC3 0x3f qofs) ;?
    (e4k_reg_set_mask E4K_REG_DC4 0x33 ((qrange <<' 4) |' irange)).

Definition e4k_dc_offset_calibrate : M Z :=
  _ ← e4k_reg_set_mask E4K_REG_DC5 E4K_DC5_RANGE_DET_EN E4K_DC5_RANGE_DET_EN;
  e4k_reg_write E4K_REG_DC1 0x01.

(** The loop over the gain combinations. *)
Fixpoint dc_table_loop (l : list (Z * Z * Z)) : M unit :=
  match l with
  | [] => mret tt
  | (mixer_gain, if1_gain, treg) :: l =>
      _ ← e4k_mixer_gain_set mixer_gain;
      _ ← e4k_if_gain_set 1 if1_gain;
      _ ← e4k_dc_offset_calibrate;
      dc2 ← e4k_reg_read E4K_REG_DC2;
      dc3 ← e4k_reg_read E4K_REG_DC3;
      dc4 ← e4k_reg_read E4K_REG_DC4;
      let offs_i := u8 (dc2 &' 0x3f) in
      let offs_q := u8 (dc3 &' 0x3f) in
      let range := u8 dc4 in
      let range_i := range &' 0x3 in
      let range_q := (range >>' 4) &' 0x3 in
      _ ← e4k_reg_write treg (u8 (TO_LUT offs_q range_q));
      _ ← e4k_reg_write (u8 (treg + 0x10)) (u8 (TO_LUT offs_i range_i));
      dc_table_loop l
  end.

Definition e4k_dc_offset_gen_table : M Z :=
  _ ← e4k_reg_set_mask E4K_REG_AGC7 E4K_AGC7_MIX_GAIN_AUTO 0;
  _ ← e4k_reg_set_mask E4K_REG_AGC1 E4K_AGC1_MOD_MASK E4K_AGC_MOD_SERIAL;
  _ ← e4k_if_gain_set 2 (rd if_gains_max 2);
  _ ← e4k_if_gain_set 3 (rd if_gains_max 3);
  _ ← e4k_if_gain_set 4 (rd if_gains_max 4);
  _ ← e4k_if_gain_set 5 (rd if_gains_max 5);
  _ ← e4k_if_gain_set 6 (rd if_gains_max 6);
  _ ← dc_table_loop dc_gain_comb;
  mret 0.

Definition e4k_standby (enable : bool) : M Z :=
  _ ← e4k_reg_set_mask E4K_REG_MASTER1 E4K_MASTER1_NORM_STBY (if enable then 0 else E4K_MASTER1_NORM_STBY);
  mret 0.

Definition magic_init : M Z :=
  _ ← e4k_reg_write 0x7e 0x01;
  _ ← e4k_reg_write 0x7f 0xfe;
  _ ← e4k_reg_write 0x82 0x00;
  _ ← e4k_reg_write 0x86 0x50;
  _ ← e4k_reg_write 0x87 0x20;
  _ ← e4k_reg_write 0x88 0x01;
  _ ← e4k_reg_write 0x9f 0x7f;
  _ ← e4k_reg_write 0xa0 0x07;
  mret 0.

Definition e4k_init : M Z :=
  _ ← e4k_reg_read 0;
  _ ← e4k_reg_write E4K_REG_MASTER1 (E4K_MASTER1_RESET |' E4K_MASTER1_NORM_STBY |' E4K_MASTER1_POR_DET);
  _ ← e4k_reg_write E4K_REG_CLK_INP 0x00;
  _ ← e4k_reg_write E4K_REG_REF_CLK 0x00;
  _ ← e4k_reg_write E4K_REG_CLKOUT_PWDN 0x96;
  _ ← magic_init;
  _ ← e4k_reg_write E4K_REG_AGC4 0x10;
  _ ← e4k_reg_write E4K_REG_AGC5 0x04;
  _ ← e4k_reg_write E4K_REG_AGC6 0x1a;
  _ ← e4k_reg_set_mask E4K_REG_AGC1 E4K_AGC1_MOD_MASK E4K_AGC_MOD_SERIAL;
  _ ← e4k_reg_set_mask E4K_REG_AGC7 E4K_AGC7_MIX_GAIN_AUTO 0;
  _ ← e4k_enable_manual_gain false;
  _ ← e4k_if_gain_set 1 6;
  _ ← e4k_if_gain_set 2 0;
  _ ← e4k_if_gain_set 3 0;
  _ ← e4k_if_gain_set 4 0;
  _ ← e4k_if_gain_set 5 9;
  _ ← e4k_if_gain_set 6 9;
  _ ← e4k_if_filter_bw_set E4K_IF_FILTER_MIX (KHZ 1900);
  _ ← e4k_if_filter_bw_set E4K_IF_FILTER_RC (KHZ 1000);
  _ ← e4k_if_filter_bw_set E4K_IF_FILTER_CHAN (KHZ 2150);
  _ ← e4k_if_filter_chan_enable true;
  _ ← e4k_reg_set_mask E4K_REG_DC5 0x03 0;
  _ ← e4k_reg_set_mask E4K_REG_DCTIME1 0x03 0;
  _ ← e4k_reg_set_mask E4K_REG_DCTIME2 0x03 0;
  mret 0.

End Driver.
End E4k.

Module E4kFacts.
Import E4k.

(** ** Searches and the synthesiser *)

Lemma unsigned_delta_abs a b : is_u 32 a -> is_u 32 b -> unsigned_delta a b = Z.abs (a - b).
Proof. intros Ha Hb. unfold unsigned_delta. destruct (Z.ltb_spec b a); rewrite u32_id by clia; lia. Qed.

(** The loop keeps an index whose distance is [best] unless it finds a smaller one. *)
Lemma closest_loop_spec arr freq i bi best :
  is_u 32 freq -> Forall (is_u 32) arr ->
  let k := closest_loop arr freq i bi best in
  (k = bi /\ Forall (fun a => best <= Z.abs (freq - a)) arr) \/
  (exists n a, k = i + Z.of_nat n /\ arr !! n = Some a /\ Z.abs (freq - a) < best /\
     Forall (fun b => Z.abs (freq - a) <= Z.abs (freq - b)) arr).
Proof.
  intros Hf Ha. revert i bi best. induction Ha as [|a arr Hu Ha IH]; intros i bi best; [by left|].
  cbn [closest_loop]. rewrite (unsigned_delta_abs freq a Hf Hu).
  destruct (Z.ltb_spec (Z.abs (freq - a)) best) as [Hlt|Hge]; cbv zeta.
  - right. destruct (IH (i + 1) i (Z.abs (freq - a))) as [[-> Hall]|(n&b&->&Hn&Hb&Hall)].
    + exists 0%nat, a. split_and!; try done; [lia|]. constructor; [lia|done].
    + exists (S n), b. split_and!; try done; [lia|lia|]. constructor; [lia|done].
  - destruct (IH (i + 1) bi best) as [[-> Hall]|(n&b&->&Hn&Hb&Hall)].
    + left. split; [done|]. by constructor.
    + right. exists (S n), b. split_and!; try done; [lia|]. constructor; [lia|done].
Qed.

Lemma closest_arr_idx_spec arr freq :
  is_u 32 freq -> Forall (is_u 32) arr -> arr <> [] -> Forall (fun a => Z.abs (freq - a) < 0xffffffff) arr ->
  exists n a, closest_arr_idx arr freq = Z.of_nat n /\ arr !! n = Some a /\
    Forall (fun b => Z.abs (freq - a) <= Z.abs (freq - b)) arr.
Proof.
  intros Hf Ha Hne Hd. unfold closest_arr_idx.
  destruct (closest_loop_spec arr freq 0 0 0xffffffff Hf Ha) as [[_ Hall]|(n&a&->&Hn&_&Hall)].
  - destruct arr as [|a arr]; [done|]. apply Forall_inv in Hall, Hd. lia.
  - eauto.
Qed.





(** ** Registers on a bus without errors *)


Section Hw.
Context {D : Type} `{I2c D} (addr : Z) (hw : D -> Z -> Z) `{!I2cRegs D addr hw} `{!I2cReliable D addr hw e4k_status}.














End Hw.
End E4kFacts.

Module E4kProps.
Import E4k E4kFacts.








(** A failed read of the lock bit counts as a lock: on a bus on which every message fails,
    tuning reports success. *)
Lemma e4k_dead_bus {D} `{I2c D} (s : e4k D) f rc p :
  (forall addr msg d, (rtlsdr_i2c_write_fn addr msg d).1 = -1) ->
  e4k_compute_pll_params (fosc (vco (st_of s))) f = Some (rc, p) -> rc <> 0 ->
  (e4k_tune_freq f s).1 = 0.
Proof.
  intros Hdead Ep Hrc. unfold e4k_tune_freq. rewrite st_bind_eq. cbn [get_e4k]. rewrite Ep.
  destruct (Z.eqb_spec rc 0); [done|]. rewrite st_bind_eq. destruct (e4k_tune_params p s) as [rc1 s1].
  rewrite st_bind_eq. unfold e4k_reg_read. rewrite st_bind_eq. cbn [get_e4k]. rewrite st_bind_eq.
  unfold e4k_on_dev at 1. pose proof (Hdead (i2c_addr (st_of s1)) [E4K_REG_SYNTH1] (dev_of s1)) as Hd.
  destruct (rtlsdr_i2c_write_fn _ _ _) as [w d]. cbn in Hd. subst w. reflexivity.
Qed.
End E4kProps.
