(* ===== verification/TunerFc2580.v ===== *)
(** * FCI FC2580 driver ([src/src/tuner_fc2580.c], [src/include/tuner_fc2580.h])

    The driver writes every register of a setting whatever the earlier writes returned and
    reports whether all of them worked.  [Module Fc2580] has every compiled function of the
    file over the interface of [I2c].

    The theorem: a tuning that succeeds leaves dividers in the chip whose oscillator
    frequency is exactly the requested one, since the crystal is a power of two in kHz. *)

From S2P Require Import Prelude I2c TunerFc.

Module Fc2580.

Abbreviation BORDER_FREQ := (2600000)%Z (only parsing).
Abbreviation USE_EXT_CLK := (0)%Z (only parsing).
Abbreviation FC2580_I2C_ADDR := (0xac)%Z (only parsing).
Abbreviation FC2580_CHECK_ADDR := (0x01)%Z (only parsing).
Abbreviation FC2580_CHECK_VAL := (0x56)%Z (only parsing).
Definition CRYSTAL_FREQ : Z := 16384000.

Inductive fc2580_band_type := FC2580_UHF_BAND | FC2580_L_BAND | FC2580_VHF_BAND | FC2580_NO_BAND.

(** [fc2580_fci_result_type] and [enum FUNCTION_STATUS]. *)
Abbreviation FC2580_FCI_FAIL := (0)%Z (only parsing).
Abbreviation FC2580_FCI_SUCCESS := (1)%Z (only parsing).
Abbreviation FUNCTION_SUCCESS := (0)%Z (only parsing).
Abbreviation FUNCTION_ERROR := (1)%Z (only parsing).
Abbreviation FC2580_AGC_EXTERNAL := (2)%Z (only parsing).

Definition crystal_khz : Z := (CRYSTAL_FREQ + 500) / 1000.

(** *** The synthesiser *)

Definition band_for (f_lo : Z) : fc2580_band_type :=
  if 1000000 <? f_lo then FC2580_L_BAND else if 400000 <? f_lo then FC2580_UHF_BAND else FC2580_VHF_BAND.

Definition vco_of (f_lo : Z) : Z :=
  match band_for f_lo with
  | FC2580_UHF_BAND => u32 (f_lo * 4)
  | FC2580_L_BAND => u32 (f_lo * 2)
  | _ => u32 (f_lo * 12)
  end.

Definition r_of (f_vco freq_xtal : Z) : Z :=
  if u32 (2 * 76 * freq_xtal) <=? f_vco then 1 else if u32 (76 * freq_xtal) <=? f_vco then 2 else 4.

(** [r_val], [n_val] and [k_val]. *)
Definition fc2580_dividers (f_vco freq_xtal : Z) : Z * Z * Z :=
  let r_val := r_of f_vco freq_xtal in
  let f_comp := freq_xtal / r_val in
  let n_val := f_vco / 2 / f_comp in
  let f_diff := u32 (f_vco - u32 (u32 (2 * f_comp) * n_val)) in
  let f_diff_shifted := u32 (f_diff <<' (20 - 4)) in
  let k_val := f_diff_shifted / (u32 (2 * f_comp) >>' 4) in
  let k_val :=
    if (f_comp >>' 4) <=? u32 (f_diff_shifted - u32 (k_val * (u32 (2 * f_comp) >>' 4)))
    then u32 (k_val + 1) else k_val in
  (r_val, n_val, k_val).

(** [data_0x02]. *)
Definition vco_select (band : fc2580_band_type) (f_vco : Z) : Z :=
  let d := (USE_EXT_CLK <<' 5) |' 0x0E in
  let d := if BORDER_FREQ <=? f_vco then d |' 0x08 else d &' 0xF7 in
  match band with
  | FC2580_UHF_BAND => d &' 0x3F
  | FC2580_VHF_BAND => (d &' 0x3F) |' 0x80
  | FC2580_L_BAND => (d &' 0x3F) |' 0x40
  | FC2580_NO_BAND => d
  end.

(** *** Register lists *)

Definition init_list (ifagc_mode : Z) : list (Z * Z) :=
  [(0x00, 0x00); (0x12, 0x86); (0x14, 0x5C); (0x16, 0x3C); (0x1F, 0xD2); (0x09, 0xD7); (0x0B, 0xD5);
   (0x0C, 0x32); (0x0E, 0x43); (0x21, 0x0A); (0x22, 0x82)]
  ++ (if ifagc_mode =? 1 then [(0x45, 0x10); (0x4C, 0x00)]
      else if ifagc_mode =? 2 then [(0x45, 0x20); (0x4C, 0x02)] else [])
  ++ [(0x3F, 0x88); (0x02, 0x0E); (0x58, 0x14)].

Definition uhf_list (f_lo : Z) : list (Z * Z) :=
  [(0x25, 0xF0); (0x27, 0x77); (0x28, 0x53); (0x29, 0x60); (0x30, 0x09); (0x50, 0x8C); (0x53, 0x50);
   (0x5F, if f_lo <? 538000 then 0x13 else 0x15)]
  ++ (if f_lo <? 538000
      then [(0x61, 0x07); (0x62, 0x06); (0x67, 0x06); (0x68, 0x08); (0x69, 0x10); (0x6A, 0x12)]
      else if f_lo <? 794000
      then [(0x61, 0x03); (0x62, 0x03); (0x67, 0x03); (0x68, 0x05); (0x69, 0x0C); (0x6A, 0x0E)]
      else [(0x61, 0x07); (0x62, 0x06); (0x67, 0x07); (0x68, 0x09); (0x69, 0x10); (0x6A, 0x12)])
  ++ [(0x63, 0x15); (0x6B, 0x0B); (0x6C, 0x0C); (0x6D, 0x78); (0x6E, 0x32); (0x6F, 0x14)].

Definition vhf_list : list (Z * Z) :=
  [(0x27, 0x77); (0x28, 0x33); (0x29, 0x40); (0x30, 0x09); (0x50, 0x8C); (0x53, 0x50); (0x5F, 0x0F);
   (0x61, 0x07); (0x62, 0x00); (0x63, 0x15); (0x67, 0x03); (0x68, 0x05); (0x69, 0x10); (0x6A, 0x12);
   (0x6B, 0x08); (0x6C, 0x0A); (0x6D, 0x78); (0x6E, 0x32); (0x6F, 0x54)].

Definition l_list : list (Z * Z) :=
  [(0x2B, 0x70); (0x2C, 0x37); (0x2D, 0xE7); (0x30, 0x09); (0x44, 0x20); (0x50, 0x8C); (0x53, 0x50);
   (0x5F, 0x0F); (0x61, 0x0F); (0x62, 0x00); (0x63, 0x13); (0x67, 0x00); (0x68, 0x02); (0x69, 0x0C);
   (0x6A, 0x0E); (0x6B, 0x08); (0x6C, 0x0A); (0x6D, 0xA0); (0x6E, 0x50); (0x6F, 0x14)].

Definition filter_list (filter_bw freq_xtal : Z) : list (Z * Z) :=
  let cal k := u8 (u32 (k * freq_xtal) / 1000000) in
  (if filter_bw =? 1 then [(0x36, 0x1C); (0x37, cal 4151); (0x39, 0x00); (0x2E, 0x09)] else [])
  ++ (if filter_bw =? 6 then [(0x36, 0x18); (0x37, cal 4400); (0x39, 0x00); (0x2E, 0x09)]
      else if filter_bw =? 7 then [(0x36, 0x18); (0x37, cal 3910); (0x39, 0x80); (0x2E, 0x09)]
      else if filter_bw =? 8 then [(0x36, 0x18); (0x37, cal 3300); (0x39, 0x80); (0x2E, 0x09)]
      else []).

Section Driver.
Context {D : Type} `{I2c D}.

Definition fc2580_i2c_write (reg val : Z) : st D Z :=
  rc ← rtlsdr_i2c_write_fn FC2580_I2C_ADDR [reg; val];
  mret (if rc <? 0 then FC2580_FCI_FAIL else FC2580_FCI_SUCCESS).

(** The result and the value of the caller's variable, [old] before the call. *)
Definition fc2580_i2c_read (reg old : Z) : st D (Z * Z) :=
  rc ← rtlsdr_i2c_write_fn FC2580_I2C_ADDR [reg];
  if rc <? 0 then mret (FC2580_FCI_FAIL, old)
  else
    '(rc, data) ← rtlsdr_i2c_read_fn FC2580_I2C_ADDR 1;
    if rc <? 0 then mret (FC2580_FCI_FAIL, old) else mret (FC2580_FCI_SUCCESS, read_byte reg data).

(** [result &= m;] and the rest. *)
Definition andr (result : Z) (m : st D Z) (k : Z -> st D Z) : st D Z := r ← m; k (result &' r).

Fixpoint write_list (l : list (Z * Z)) (result : Z) (k : Z -> st D Z) : st D Z :=
  match l with
  | [] => k result
  | (reg, val) :: l => andr result (fc2580_i2c_write reg val) (fun result => write_list l result k)
  end.

(** The calibration loop, [n] rounds left. *)
Fixpoint cal_loop (n : nat) (cal_mon result : Z) (k : Z -> st D Z) : st D Z :=
  match n with
  | O => k result
  | S n' =>
      '(r, cal_mon) ← fc2580_i2c_read 0x2F cal_mon;
      let result := result &' r in
      if negb (cal_mon &' 0xC0 =? 0xC0)
      then write_list [(0x2E, 0x01); (0x2E, 0x09)] result (fun result => cal_loop n' cal_mon result k)
      else k result
  end.

Definition fc2580_set_filter (filter_bw freq_xtal : Z) : st D Z :=
  write_list (filter_list filter_bw freq_xtal) FC2580_FCI_SUCCESS (fun result =>
    cal_loop 5 0 result (fun result => write_list [(0x2E, 0x01)] result mret)).

Definition fc2580_set_init (ifagc_mode freq_xtal : Z) : st D Z :=
  write_list (init_list ifagc_mode) FC2580_FCI_SUCCESS (fun result =>
    andr result (fc2580_set_filter 8 freq_xtal) mret).

(** The registers of the band. *)
Definition set_band_regs (band : fc2580_band_type) (f_lo freq_xtal result : Z) (k : Z -> st D Z) : st D Z :=
  match band with
  | FC2580_UHF_BAND => write_list (uhf_list f_lo) result (fun result => andr result (fc2580_set_filter 8 freq_xtal) k)
  | FC2580_VHF_BAND => write_list vhf_list result (fun result => andr result (fc2580_set_filter 7 freq_xtal) k)
  | FC2580_L_BAND => write_list l_list result (fun result => andr result (fc2580_set_filter 1 freq_xtal) k)
  | FC2580_NO_BAND => k result
  end.

(** The registers of the synthesiser and the last commands. *)
Definition pll_list (f_lo freq_xtal : Z) : list (Z * Z) :=
  let band := band_for f_lo in
  let f_vco := vco_of f_lo in
  let '(r_val, n_val, k_val) := fc2580_dividers f_vco freq_xtal in
  (if 28000 <=? freq_xtal then [(0x4B, 0x22)] else [])
  ++ [(0x02, vco_select band f_vco);
      (0x18, u8 ((if r_val =? 1 then 0x00 else if r_val =? 2 then 0x10 else 0x20) + u8 (k_val >>' 16)));
      (0x1A, u8 (k_val >>' 8)); (0x1B, u8 k_val); (0x1C, u8 n_val)]
  ++ (match band with
      | FC2580_UHF_BAND => [(0x2D, if f_lo <=? 794000 then 0x9F else 0x8F)]
      | _ => []
      end).

Definition fc2580_set_freq (f_lo freq_xtal : Z) : st D Z :=
  set_band_regs (band_for f_lo) f_lo freq_xtal FC2580_FCI_SUCCESS (fun result =>
    write_list (pll_list f_lo freq_xtal) result mret).

Definition fc2580_Initialize : st D Z :=
  r ← fc2580_set_init FC2580_AGC_EXTERNAL crystal_khz;
  mret (if r =? FC2580_FCI_SUCCESS then FUNCTION_SUCCESS else FUNCTION_ERROR).

Definition fc2580_SetRfFreqHz (RfFreqHz : Z) : st D Z :=
  r ← fc2580_set_freq (u32 (u64 (RfFreqHz + 500) / 1000)) crystal_khz;
  mret (if r =? FC2580_FCI_SUCCESS then FUNCTION_SUCCESS else FUNCTION_ERROR).

Definition fc2580_SetBandwidthMode (BandwidthMode : Z) : st D Z :=
  r ← fc2580_set_filter (u8 BandwidthMode) crystal_khz;
  mret (if r =? FC2580_FCI_SUCCESS then FUNCTION_SUCCESS else FUNCTION_ERROR).

End Driver.
End Fc2580.

Module Fc2580Props.
Import Fc2580.

Section Facts.
Context {D : Type} `{I2c D} {regs : D -> Z -> Z}.
Context `{!I2cRegs D FC2580_I2C_ADDR regs} `{!I2cFull D FC2580_I2C_ADDR}.

(** The register file after a list of writes. *)
Definition stored (f : Z -> Z) (l : list (Z * Z)) : Z -> Z :=
  fold_left (fun f p => fun r => if r =? p.1 then p.2 else f r) l f.

Lemma stored_ext l : forall f g, (forall r, f r = g r) -> forall r, stored f l r = stored g l r.
Proof.
  induction l as [|[reg v] l IH]; intros f g E r; [apply E|].
  apply IH. intros x. cbn [fst snd]. by rewrite E.
Qed.

Lemma fc2580_i2c_write_acked reg v d d' :
  fc2580_i2c_write reg v d = (FC2580_FCI_SUCCESS, d') ->
  forall r, regs d' r = if r =? reg then v else regs d r.
Proof.
  unfold fc2580_i2c_write. rewrite st_bind_eq. intros E r.
  destruct (i2c_write_full d [reg; v] eq_refl) as [F|F];
    destruct (rtlsdr_i2c_write_fn FC2580_I2C_ADDR [reg; v] d) as [rc d1] eqn:W; cbn [fst snd] in *.
  - destruct (Z.ltb_spec rc 0); [|lia]. discriminate E.
  - destruct (Z.ltb_spec rc 0); [discriminate E|]. injection E as <-.
    rewrite (i2c_write_regs d reg [v] rc d1 W F). apply store_regs_one.
Qed.

Lemma fc2580_i2c_write_rc reg v d :
  (fc2580_i2c_write reg v d).1 = FC2580_FCI_FAIL \/ (fc2580_i2c_write reg v d).1 = FC2580_FCI_SUCCESS.
Proof.
  unfold fc2580_i2c_write. rewrite st_bind_eq.
  destruct (rtlsdr_i2c_write_fn FC2580_I2C_ADDR [reg; v] d) as [rc d1]. cbn.
  destruct (rc <? 0); [by left|by right].
Qed.

(** A list of writes always runs to its end. *)
Lemma write_list_ends l : forall result (k : Z -> st D Z) d,
  exists r1 d1, write_list l result k d = k r1 d1.
Proof.
  induction l as [|[reg v] l IH]; intros result k d; [by exists result, d|].
  cbn [write_list]. unfold andr. rewrite st_bind_eq.
  destruct (fc2580_i2c_write reg v d) as [r d0]. apply IH.
Qed.

Lemma write_list_acked l : forall result d d',
  write_list l result mret d = (1, d') ->
  Z.testbit result 0 = true /\ forall r, regs d' r = stored (regs d) l r.
Proof.
  induction l as [|[reg v] l IH]; intros result d d'.
  - cbn [write_list]. rewrite st_ret_eq. intros E. by injection E as -> <-.
  - cbn [write_list]. unfold andr. rewrite st_bind_eq.
    pose proof (fc2580_i2c_write_rc reg v d) as R.
    destruct (fc2580_i2c_write reg v d) as [r d0] eqn:W. cbn [fst] in R. intros E.
    apply IH in E as [B E]. rewrite Z.land_spec in B. apply andb_true_iff in B as [B1 B2].
    destruct R as [->| ->]; [discriminate B2|]. split; [done|].
    intros x. rewrite E. cbn [stored fold_left fst snd]. apply stored_ext.
    exact (fc2580_i2c_write_acked reg v d d0 W).
Qed.

Lemma set_band_regs_ends band f_lo xtal result (k : Z -> st D Z) d :
  exists r1 d1, set_band_regs band f_lo xtal result k d = k r1 d1.
Proof.
  destruct band; cbn [set_band_regs]; [| | |by exists result, d];
    (edestruct write_list_ends as (r1 & d1 & ->); unfold andr; rewrite st_bind_eq;
     destruct (fc2580_set_filter _ _ d1) as [r2 d2]; by exists (r1 &' r2), d2).
Qed.

End Facts.
Lemma u32_small z : 0 <= z < 4294967296 -> u32 z = z.
Proof. exact (u32_id z). Qed.

Lemma div_half_comp v c : 0 < c -> v / 2 / c = v / (2 * c).
Proof. intros. rewrite Z.div_div by lia. done. Qed.

Lemma dividers_core v c : 0 <= v < 8388608 -> c = 16384 \/ c = 8192 \/ c = 4096 ->
  let f_diff := u32 (v - u32 (u32 (2 * c) * (v / 2 / c))) in
  f_diff = v mod (2 * c) /\ u32 (f_diff <<' (20 - 4)) = f_diff * 65536.
Proof.
  intros Hv Hc f_diff.
  assert (F : f_diff = v mod (2 * c)).
  { unfold f_diff. rewrite div_half_comp by lia.
    pose proof (Z.div_mod v (2 * c) ltac:(lia)) as E. pose proof (Z.mod_pos_bound v (2 * c) ltac:(lia)).
    pose proof (Z.div_pos v (2 * c) ltac:(lia) ltac:(lia)).
    rewrite (u32_small (2 * c)) by lia. rewrite (u32_small (2 * c * _)) by lia. rewrite u32_small by lia. lia. }
  split; [exact F|]. rewrite Z.shiftl_mul_pow2 by lia. apply u32_small.
  rewrite F. pose proof (Z.mod_pos_bound v (2 * c) ltac:(lia)). lia.
Qed.

Lemma dividers_exact v : 0 <= v < 8388608 ->
  let '(r, n, k) := fc2580_dividers v crystal_khz in
  (r = 1 \/ r = 2 \/ r = 4) /\ 0 <= n < 256 /\ 0 <= k < 1048576 /\
  32768 * (1048576 * n + k) = v * r * 1048576.
Proof.
  intros Hv. unfold fc2580_dividers. change crystal_khz with 16384.
  assert (R : exists c, (r_of v 16384 = 1 /\ c = 16384 \/ r_of v 16384 = 2 /\ c = 8192 /\ v < 2490368
     \/ r_of v 16384 = 4 /\ c = 4096 /\ v < 1245184)).
  { unfold r_of. change (u32 (2 * 76 * 16384)) with 2490368. change (u32 (76 * 16384)) with 1245184.
    destruct (Z.leb_spec 2490368 v); [by exists 16384; left|].
    destruct (Z.leb_spec 1245184 v); [exists 8192; right; left; lia|exists 4096; right; right; lia]. }
  destruct R as [c R]. set (r := r_of v 16384) in *. clearbody r.
  assert (C : 16384 / r = c) by (destruct R as [[-> ->]|[(-> & -> & _)|(-> & -> & _)]]; done).
  rewrite C. cbv zeta.
  destruct (dividers_core v c Hv ltac:(lia)) as [F1 F2]. cbv zeta in F1, F2. rewrite F2, F1. clear F1 F2.
  rewrite div_half_comp by lia.
  pose proof (Z.div_mod v (2 * c) ltac:(lia)) as E. pose proof (Z.mod_pos_bound v (2 * c) ltac:(lia)).
  pose proof (Z.div_pos v (2 * c) ltac:(lia) ltac:(lia)).
  set (n := v / (2 * c)) in *. set (m := v mod (2 * c)) in *. clearbody n m.
  destruct R as [[-> ->]|[(-> & -> & ?)|(-> & -> & ?)]];
  match goal with |- context [u32 ?x >>' 4] => let t := eval vm_compute in (u32 x >>' 4) in change (u32 x >>' 4) with t end;
  match goal with |- context [?x >>' 4] => let t := eval vm_compute in (x >>' 4) in change (x >>' 4) with t end;
  match goal with |- context [m * 65536 / ?q] =>
    let z := eval vm_compute in (65536 / q) in
    assert (Q : m * 65536 / q = z * m) by (symmetry; apply (Z.div_unique _ _ _ 0); lia) end;
  rewrite !Q; (rewrite (u32_small (_ * _ * _)) by lia);
  match goal with |- context [u32 (?a - ?b)] => replace (a - b) with 0 by lia end;
  change (u32 0) with 0;
  match goal with |- context [?a <=? 0] => change (a <=? 0) with false end; cbv iota; lia.
Qed.

(** The oscillator the registers of the chip stand for: the band's divider, the reference
    divider and the 20-bit fractional multiplier. *)
Definition hw_band_div (hw : Z -> Z) : Z :=
  let b := hw 0x02 >>' 6 in if b =? 0 then 4 else if b =? 1 then 2 else 12.
Definition hw_ref_div (hw : Z -> Z) : Z :=
  let b := hw 0x18 >>' 4 in if b =? 0 then 1 else if b =? 1 then 2 else 4.
Definition hw_mult (hw : Z -> Z) : Z :=
  1048576 * hw 0x1C + (65536 * (hw 0x18 &' 15) + 256 * hw 0x1A + hw 0x1B).

(** The local oscillator is [khz]: crystal * 2 * multiplier / (reference * band divider). *)
Definition lo_is (hw : Z -> Z) (khz : Z) : Prop :=
  2 * crystal_khz * hw_mult hw = khz * hw_band_div hw * hw_ref_div hw * 1048576.

Lemma k_split k : 0 <= k < 1048576 ->
  0 <= k >>' 16 < 16 /\ 65536 * (k >>' 16) + 256 * u8 (k >>' 8) + u8 k = k.
Proof.
  intros Hk. unfold u8. rewrite !Z.shiftr_div_pow2 by lia.
  change (2 ^ 16) with 65536. change (2 ^ 8) with 256.
  replace (k / 65536) with (k / 256 / 256) by (rewrite Z.div_div by lia; done).
  pose proof (Z.div_mod k 256 ltac:(lia)). pose proof (Z.mod_pos_bound k 256 ltac:(lia)).
  pose proof (Z.div_mod (k / 256) 256 ltac:(lia)). pose proof (Z.mod_pos_bound (k / 256) 256 ltac:(lia)). lia.
Qed.

Lemma r_code_fields r k : r = 1 \/ r = 2 \/ r = 4 -> 0 <= k < 16 ->
  let v := u8 ((if r =? 1 then 0x00 else if r =? 2 then 0x10 else 0x20) + u8 k) in
  v &' 15 = k /\ (if v >>' 4 =? 0 then 1 else if v >>' 4 =? 1 then 2 else 4) = r.
Proof.
  intros Hr Hk. assert (K : In k (seqZ 0 16)) by (apply list_elem_of_In, elem_of_seqZ; lia).
  cbv in K. destruct Hr as [->|[->| ->]]; repeat destruct K as [<-|K]; by try destruct K.
Qed.

Lemma vco_of_band khz : 0 <= khz < 4194304 ->
  0 <= vco_of khz < 8388608 /\
  vco_of khz = khz * (let b := vco_select (band_for khz) (vco_of khz) >>' 6 in
                      if b =? 0 then 4 else if b =? 1 then 2 else 12).
Proof.
  intros Hk. unfold vco_of, band_for, vco_select.
  destruct (Z.ltb_spec 1000000 khz); [|destruct (Z.ltb_spec 400000 khz)];
    rewrite u32_small by lia; destruct (_ <=? _); cbv beta iota zeta;
    (split; [lia|]); match goal with |- context [?x =? 0] => let t := eval vm_compute in x in change x with t end; cbn; lia.
Qed.

Lemma pll_list_lo khz f : 0 <= khz < 4194304 -> lo_is (stored f (pll_list khz crystal_khz)) khz.
Proof.
  intros Hk. destruct (vco_of_band khz Hk) as [Hv Ev]. unfold pll_list.
  pose proof (dividers_exact (vco_of khz) Hv) as X.
  destruct (fc2580_dividers (vco_of khz) crystal_khz) as [[r n] k]. destruct X as (Hr & Hn & Hb & X).
  destruct (k_split k Hb) as [Hs Ek]. destruct (r_code_fields r (k >>' 16) Hr Hs) as [F1 F2]. cbv zeta in F1, F2.
  change (28000 <=? crystal_khz) with false. cbv iota. cbn [app].
  set (v18 := u8 (_ + _)) in *. set (v02 := vco_select _ _) in *. cbv zeta in Ev.
  assert (S : forall l, (forall r, r < 0x2D -> stored f ((0x02, v02) :: (0x18, v18) :: (0x1A, u8 (k >>' 8)) :: (0x1B, u8 k) :: (0x1C, u8 n) :: l) r
     = stored f [(0x02, v02); (0x18, v18); (0x1A, u8 (k >>' 8)); (0x1B, u8 k); (0x1C, u8 n)] r) ->
     lo_is (stored f ((0x02, v02) :: (0x18, v18) :: (0x1A, u8 (k >>' 8)) :: (0x1B, u8 k) :: (0x1C, u8 n) :: l)) khz).
  { intros l E. unfold lo_is, hw_mult, hw_band_div, hw_ref_div. rewrite !E by lia.
    unfold stored. cbn [fold_left fst snd]. cbn [Z.eqb Pos.eqb]. cbv zeta. rewrite F1, F2.
    replace (u8 n) with n by (symmetry; apply u8_id; exact Hn).
    replace (65536 * (k >>' 16) + 256 * u8 (k >>' 8) + u8 k) with k by lia.
    rewrite <- Ev. change crystal_khz with 16384. lia. }
  destruct (band_for khz); apply S; intros x Hx; try done.
  unfold stored. cbn [fold_left fst snd]. destruct (Z.eqb_spec x 0x2D); [lia|done].
Qed.

(** A tuning of the FC2580 that succeeds is exact: the dividers in the chip stand for the
    request rounded to kHz, whatever band it lies in, and the rounding is within 500 Hz. *)
Theorem fc2580_tunes {D : Type} `{I2c D} (hw : D -> Z -> Z) `{!I2cRegs D FC2580_I2C_ADDR hw}
    `{!I2cFull D FC2580_I2C_ADDR} (d d' : D) f :
  0 <= f < 4194303500 -> fc2580_SetRfFreqHz f d = (FUNCTION_SUCCESS, d') ->
  exists khz, lo_is (hw d') khz /\ Z.abs (1000 * khz - f) <= 500.
Proof.
  intros Hf. unfold fc2580_SetRfFreqHz. rewrite st_bind_eq.
  destruct (fc2580_set_freq _ _ d) as [r d1] eqn:E. rewrite st_ret_eq.
  destruct (Z.eqb_spec r FC2580_FCI_SUCCESS) as [->|]; [|discriminate]. intros X. injection X as <-.
  exists ((f + 500) / 1000).
  pose proof (Z.div_mod (f + 500) 1000 ltac:(lia)). pose proof (Z.mod_pos_bound (f + 500) 1000 ltac:(lia)).
  split; [|lia].
  unfold u64 in E. rewrite Z.mod_small in E by lia. rewrite u32_small in E by lia.
  unfold fc2580_set_freq in E.
  edestruct (set_band_regs_ends (D:=D)) as (r1 & d0 & B). rewrite B in E. clear B.
  apply (write_list_acked (regs:=hw)) in E as [_ E].
  unfold lo_is, hw_mult, hw_band_div, hw_ref_div. rewrite !E. apply pll_list_lo. lia.
Qed.

Lemma fc2580_tunes_witness :
  exists khz, lo_is (dev_file (fc2580_SetRfFreqHz 1090000000 (mk_reg_device (fun _ => 0xC0) 0)).2) khz /\
    Z.abs (1000 * khz - 1090000000) <= 500.
Proof.
  refine (fc2580_tunes dev_file (mk_reg_device (fun _ => 0xC0) 0) _ 1090000000 ltac:(lia) _).
  apply rc_pair. vm_compute. reflexivity.
Defined.

End Fc2580Props.
