(* ===== verification/Usb.v ===== *)
(** * Registers over USB ([src/src/librtlsdr.c], lines 354 to 778 and 2065 to 2109)

    [Class Libusb] is what the library uses of libusb's control transfers; [core] is the part
    of [struct rtlsdr_dev] a tuner driver can reach.  [Module Usb] has the register layer of
    the library over it: block and demodulator registers, GPIO, the I2C repeater, the FIR
    filter, the baseband initialisation and the clocks; its end is the instance of the
    interface [I2c] the tuner drivers are written against. *)

From S2P Require Import Prelude Float I2c.

(** Control transfers: wValue, wIndex and the buffer.  An IN transfer yields libusb's result
    and the bytes it stored at the start of the buffer. *)
Class Libusb (U : Type) := {
  libusb_control_in : Z -> Z -> Z -> st U (Z * list Z);
  libusb_control_out : Z -> Z -> list Z -> st U Z;
  (** What an uninitialised array of two bytes holds. *)
  uninit2 : U -> list Z;
}.

(** What the tuner drivers reach of [struct rtlsdr_dev]. *)
Record core (U : Type) := mk_core {
  usb : U;
  rtl_xtal : Z;
  tun_xtal : Z;
  corr : Z;
  manufact : string;
  product : string;
}.
Arguments mk_core {U}.
Arguments usb {U}.
Arguments rtl_xtal {U}.
Arguments tun_xtal {U}.
Arguments corr {U}.
Arguments manufact {U}.
Arguments product {U}.

Module Usb.

Definition FIR_LEN : Z := 16.
Definition fir_default : list Z :=
  [-54; -36; -41; -40; -32; -14; 14; 53; 101; 156; 215; 273; 327; 372; 404; 421].

Definition DEF_RTL_XTAL_FREQ : Z := 28800000.
Definition MIN_RTL_XTAL_FREQ : Z := DEF_RTL_XTAL_FREQ - 1000.
Definition MAX_RTL_XTAL_FREQ : Z := DEF_RTL_XTAL_FREQ + 1000.
Definition EEPROM_ADDR : Z := 0xa0.

Abbreviation USB_SYSCTL := (0x2000)%Z (only parsing).
Abbreviation USB_EPA_CTL := (0x2148)%Z (only parsing).
Abbreviation USB_EPA_MAXPKT := (0x2158)%Z (only parsing).
Abbreviation DEMOD_CTL := (0x3000)%Z (only parsing).
Abbreviation GPO := (0x3001)%Z (only parsing).
Abbreviation GPOE := (0x3003)%Z (only parsing).
Abbreviation GPD := (0x3004)%Z (only parsing).
Abbreviation DEMOD_CTL_1 := (0x300b)%Z (only parsing).
Abbreviation USBB := (1)%Z (only parsing).
Abbreviation SYSB := (2)%Z (only parsing).
Abbreviation IICB := (6)%Z (only parsing).

Definition TWO_POW (n : Z) : flt := f64_of_Z (1 <<' n).

Definition APPLY_PPM_CORR (val ppm : Z) : flt :=
  f64_mul (f64_of_Z val) (f64_add (f64_of_Z 1) (f64_div (f64_of_Z ppm) (f64_of_Z 1000000))).

(** The packing of [rtlsdr_set_fir]: eight coefficients of 8 bits, then pairs of 12 bits;
    [None] where one does not fit. *)
Fixpoint pack8 (l : list Z) : option (list Z) :=
  match l with
  | [] => Some []
  | val :: l =>
      if (val <? -128) || (127 <? val) then None
      else match pack8 l with Some b => Some (u8 val :: b) | None => None end
  end.
Fixpoint pack12 (l : list Z) : option (list Z) :=
  match l with
  | val0 :: val1 :: l =>
      if (val0 <? -2048) || (2047 <? val0) || (val1 <? -2048) || (2047 <? val1) then None
      else match pack12 l with
           | Some b => Some (u8 (val0 >>' 4) :: u8 ((val0 <<' 4) |' ((val1 >>' 8) &' 0x0f)) :: u8 val1 :: b)
           | None => None
           end
  | _ => Some []
  end.
Definition pack_fir (fir : list Z) : option (list Z) :=
  match pack8 (take 8 fir) with
  | None => None
  | Some a => match pack12 (take 8 (drop 8 fir)) with None => None | Some b => Some (a ++ b) end
  end.

Section Layer.
Context {U : Type} `{Libusb U}.

Abbreviation M := (st (core U)).

Definition set_usb (u : U) (d : core U) : core U :=
  mk_core u (rtl_xtal d) (tun_xtal d) (corr d) (manufact d) (product d).
Definition on_usb {A} (m : st U A) : M A := fun d => let '(x, u) := m (usb d) in (x, set_usb u d).

(** The result and the bytes stored in [array]. *)
Definition rtlsdr_read_array (block addr len : Z) : M (Z * list Z) :=
  on_usb (libusb_control_in addr (block <<' 8) (u8 len)).

Definition rtlsdr_write_array (block addr : Z) (array : list Z) (len : Z) : M Z :=
  on_usb (libusb_control_out addr ((block <<' 8) |' 0x10) (take (Z.to_nat (u8 len)) array)).

Definition rtlsdr_i2c_write_reg (i2c_addr reg val : Z) : M Z :=
  rtlsdr_write_array IICB i2c_addr [reg; val] 2.

Definition rtlsdr_i2c_read_reg (i2c_addr reg : Z) : M Z :=
  _ ← rtlsdr_write_array IICB i2c_addr [reg] 1;
  '(_, data) ← rtlsdr_read_array IICB i2c_addr 1;
  mret (default 0 (head data)).

Definition rtlsdr_i2c_write (i2c_addr : Z) (buffer : list Z) (len : Z) : M Z :=
  rtlsdr_write_array IICB i2c_addr buffer len.
Definition rtlsdr_i2c_read (i2c_addr len : Z) : M (Z * list Z) :=
  rtlsdr_read_array IICB i2c_addr len.

(** [data[2]] is not initialised: a byte the transfer does not store is whatever was there. *)
Definition word_of (old data : list Z) : Z :=
  let data := blit old 0 data in (rd data 1 <<' 8) |' rd data 0.

Definition rtlsdr_read_reg (block addr len : Z) : M Z :=
  d ← st_get;
  '(_, data) ← on_usb (libusb_control_in addr (block <<' 8) len);
  mret (word_of (uninit2 (usb d)) data).

(** The bytes of a value of [len] bytes. *)
Definition val_bytes (val len : Z) : list Z :=
  take (Z.to_nat len) [if len =? 1 then val &' 0xff else val >>' 8; val &' 0xff].

Definition rtlsdr_write_reg (block addr val len : Z) : M Z :=
  on_usb (libusb_control_out addr ((block <<' 8) |' 0x10) (val_bytes val len)).

Definition rtlsdr_demod_read_reg (page addr len : Z) : M Z :=
  d ← st_get;
  '(_, data) ← on_usb (libusb_control_in (u16 ((addr <<' 8) |' 0x20)) page len);
  mret (word_of (uninit2 (usb d)) data).

Definition rtlsdr_demod_write_reg (page addr val len : Z) : M Z :=
  r ← on_usb (libusb_control_out (u16 ((addr <<' 8) |' 0x20)) (0x10 |' page) (val_bytes val len));
  _ ← rtlsdr_demod_read_reg 0x0a 0x01 1;
  mret (if r =? len then 0 else -1).

Definition rtlsdr_set_gpio_bit (gpio : Z) (val : Z) : M unit :=
  let gpio := u8 (1 <<' gpio) in
  r ← rtlsdr_read_reg SYSB GPO 1;
  let r := if val =? 0 then r &' ~' gpio else r |' gpio in
  _ ← rtlsdr_write_reg SYSB GPO r 1;
  mret tt.

Definition rtlsdr_set_gpio_output (gpio : Z) : M unit :=
  let gpio := u8 (1 <<' gpio) in
  r ← rtlsdr_read_reg SYSB GPD 1;
  _ ← rtlsdr_write_reg SYSB GPD (u16 (r &' ~' gpio)) 1;
  r ← rtlsdr_read_reg SYSB GPOE 1;
  _ ← rtlsdr_write_reg SYSB GPOE (u16 (r |' gpio)) 1;
  mret tt.

Definition rtlsdr_set_i2c_repeater (on : bool) : M unit :=
  _ ← rtlsdr_demod_write_reg 1 0x01 (if on then 0x18 else 0x10) 1; mret tt.

(** The loop that writes the packed coefficients. *)
Fixpoint fir_loop (i : Z) (l : list Z) : M Z :=
  match l with
  | [] => mret 0
  | b :: l =>
      r ← rtlsdr_demod_write_reg 1 (0x1c + i) b 1;
      if r =? 0 then fir_loop (i + 1) l else mret (-1)
  end.

Definition rtlsdr_set_fir (fir : list Z) : M Z :=
  match pack_fir fir with
  | None => mret (-1)
  | Some l => fir_loop 0 l
  end.

Definition rtlsdr_init_baseband (fir : list Z) : M unit :=
  _ ← rtlsdr_write_reg USBB USB_SYSCTL 0x09 1;
  _ ← rtlsdr_write_reg USBB USB_EPA_MAXPKT 0x0002 2;
  _ ← rtlsdr_write_reg USBB USB_EPA_CTL 0x1002 2;
  _ ← rtlsdr_write_reg SYSB DEMOD_CTL_1 0x22 1;
  _ ← rtlsdr_write_reg SYSB DEMOD_CTL 0xe8 1;
  _ ← rtlsdr_demod_write_reg 1 0x01 0x14 1;
  _ ← rtlsdr_demod_write_reg 1 0x01 0x10 1;
  _ ← rtlsdr_demod_write_reg 1 0x15 0x00 1;
  _ ← rtlsdr_demod_write_reg 1 0x16 0x0000 2;
  _ ← rtlsdr_demod_write_reg 1 (0x16 + 0) 0x00 1;
  _ ← rtlsdr_demod_write_reg 1 (0x16 + 1) 0x00 1;
  _ ← rtlsdr_demod_write_reg 1 (0x16 + 2) 0x00 1;
  _ ← rtlsdr_demod_write_reg 1 (0x16 + 3) 0x00 1;
  _ ← rtlsdr_demod_write_reg 1 (0x16 + 4) 0x00 1;
  _ ← rtlsdr_demod_write_reg 1 (0x16 + 5) 0x00 1;
  _ ← rtlsdr_set_fir fir;
  _ ← rtlsdr_demod_write_reg 0 0x19 0x05 1;
  _ ← rtlsdr_demod_write_reg 1 0x93 0xf0 1;
  _ ← rtlsdr_demod_write_reg 1 0x94 0x0f 1;
  _ ← rtlsdr_demod_write_reg 1 0x11 0x00 1;
  _ ← rtlsdr_demod_write_reg 1 0x04 0x00 1;
  _ ← rtlsdr_demod_write_reg 0 0x61 0x60 1;
  _ ← rtlsdr_demod_write_reg 0 0x06 0x80 1;
  _ ← rtlsdr_demod_write_reg 1 0xb1 0x1b 1;
  _ ← rtlsdr_demod_write_reg 0 0x0d 0x83 1;
  mret tt.

(** [rtlsdr_get_xtal_freq]: the corrected clocks of the demodulator and of the tuner. *)
Definition rtlsdr_get_xtal_freq (d : core U) : Z * Z :=
  (u32 (f_trunc (APPLY_PPM_CORR (rtl_xtal d) (corr d))), u32 (f_trunc (APPLY_PPM_CORR (tun_xtal d) (corr d)))).

(** The value of the IF frequency registers. *)
Definition if_freq_value (freq rtl_xtal : Z) : Z :=
  s32 (f_trunc (f64_mul (f64_div (f64_mul (f64_of_Z freq) (TWO_POW 22)) (f64_of_Z rtl_xtal)) (f64_of_Z (-1)))).

Definition rtlsdr_set_if_freq (freq : Z) : M Z :=
  d ← st_get;
  let rtl_xtal := (rtlsdr_get_xtal_freq d).1 in
  let if_freq := if_freq_value freq rtl_xtal in
  r ← rtlsdr_demod_write_reg 1 0x19 ((if_freq >>' 16) &' 0x3f) 1;
  r1 ← rtlsdr_demod_write_reg 1 0x1a ((if_freq >>' 8) &' 0xff) 1;
  r2 ← rtlsdr_demod_write_reg 1 0x1b (if_freq &' 0xff) 1;
  mret (r |' r1 |' r2).

(** The value of the sample frequency correction registers. *)
Definition correction_value (ppm : Z) : Z :=
  s16 (f_trunc (f64_div (f64_mul (f64_of_Z (ppm * (-1))) (TWO_POW 24)) (f64_of_Z 1000000))).

Definition rtlsdr_set_sample_freq_correction (ppm : Z) : M Z :=
  let offs := correction_value ppm in
  r ← rtlsdr_demod_write_reg 1 0x3f (offs &' 0xff) 1;
  r1 ← rtlsdr_demod_write_reg 1 0x3e ((offs >>' 8) &' 0x3f) 1;
  mret (r |' r1).

(** *** EEPROM *)

(** [cmd1] is what [cmd[1]] holds: a read that stores nothing leaves it. *)
Fixpoint write_eeprom_loop (i offset cmd1 : Z) (data : list Z) : M Z :=
  match data with
  | [] => mret 0
  | x :: data =>
      let cmd0 := u8 (i + offset) in
      _ ← rtlsdr_write_array IICB EEPROM_ADDR [cmd0] 1;
      '(_, got) ← rtlsdr_read_array IICB EEPROM_ADDR 1;
      if default cmd1 (head got) =? x
      then write_eeprom_loop (i + 1) offset x data
      else
        r ← rtlsdr_write_array IICB EEPROM_ADDR [cmd0; x] 2;
        if r =? 2 then write_eeprom_loop (i + 1) offset x data else mret (-3)
  end.

(** [data] has [len] bytes. *)
Definition rtlsdr_write_eeprom (data : list Z) (offset : Z) : M Z :=
  if 256 <? zlen data + offset then mret (-2)
  else d ← st_get; write_eeprom_loop 0 offset (rd (uninit2 (usb d)) 1) data.

(** The result and the bytes of [data], which held [buf]. *)
Fixpoint read_eeprom_loop (i : Z) (n : nat) (r : Z) (buf : list Z) : M (Z * list Z) :=
  match n with
  | O => mret (r, buf)
  | S n =>
      '(r, got) ← rtlsdr_read_array IICB EEPROM_ADDR 1;
      let buf := blit buf i got in
      if r <? 0 then mret (-3, buf) else read_eeprom_loop (i + 1) n r buf
  end.

Definition rtlsdr_read_eeprom (buf : list Z) (offset len : Z) : M (Z * list Z) :=
  if 256 <? len + offset then mret (-2, buf)
  else
    r ← rtlsdr_write_array IICB EEPROM_ADDR [offset] 1;
    if r <? 0 then mret (-3, buf) else read_eeprom_loop 0 (Z.to_nat len) r buf.

Definition rtlsdr_reset_buffer : M Z :=
  _ ← rtlsdr_write_reg USBB USB_EPA_CTL 0x1002 2;
  _ ← rtlsdr_write_reg USBB USB_EPA_CTL 0x0000 2;
  mret 0.

Definition set_bias_tee_gpio (gpio on : Z) : M Z :=
  _ ← rtlsdr_set_gpio_output (u8 gpio);
  _ ← rtlsdr_set_gpio_bit (u8 gpio) on;
  mret 0.

Definition rtlsdr_set_bias_tee (on : Z) : M Z := set_bias_tee_gpio 0 on.

Definition check_dongle_model (d : core U) (manufact_check product_check : string) : bool :=
  bool_decide (manufact d = manufact_check) && bool_decide (product d = product_check).

(** The interface of [rtlsdr_i2c.h]. *)
#[global] Instance core_i2c : I2c (core U) := {
  rtlsdr_i2c_write_fn addr buf := rtlsdr_i2c_write addr buf (zlen buf);
  rtlsdr_i2c_read_fn addr len := rtlsdr_i2c_read addr len;
  rtlsdr_check_dongle_model := check_dongle_model;
  rtlsdr_set_bias_tee_gpio := set_bias_tee_gpio;
  rtlsdr_get_tuner_clock d := (rtlsdr_get_xtal_freq d).2;
}.

End Layer.

(** ** The packed coefficients *)

Lemma pack8_len l b : pack8 l = Some b -> length b = length l.
Proof.
  revert b. induction l as [|v l IH]; intros b; cbn [pack8]; [by intros [= <-]|].
  destruct (_ || _); [done|]. destruct (pack8 l); [|done]. intros [= <-]. cbn. by rewrite (IH l0).
Qed.
Lemma pack12_len n : forall l b, length l = (2 * n)%nat -> pack12 l = Some b -> length b = (3 * n)%nat.
Proof.
  induction n as [|n IH]; intros [|v0 [|v1 l]] b Hl; cbn [pack12] in *; cbn [length] in *; try lia.
  - by intros [= <-].
  - destruct (_ || _); [done|]. destruct (pack12 l) as [b'|] eqn:E; [|done]. intros [= <-].
    cbn [length]. rewrite (IH l b'); [lia|lia|done].
Qed.

End Usb.
