(* ===== verification/UsbRegs.v ===== *)
(** * The device behind the transfers ([src/src/librtlsdr.c], register layer)

    [Class Rtl2832] states what the library relies on of the RTL2832U: it has demodulator
    registers on pages and chips with 8-bit registers on its I2C bus, a transfer that is
    acknowledged in full stores its bytes, and one that is not touches nothing else; [Class Rtl2832Works] is a device on which every
    transfer works.  The register layer over such a device implements the interface
    [I2cRegs] (and [I2cFull], [I2cReliable]) the tuner drivers' theorems are proved against.

    The theorems: the FIR coefficients and the IF frequency arrive in the demodulator, and
    the EEPROM reads back what was written. *)

From S2P Require Import Prelude Float FloatFacts I2c Usb.

Import Usb.

Class Rtl2832 (U : Type) `{Libusb U} (demod : U -> Z -> Z -> Z) (i2c : U -> Z -> Z -> Z) := {
  out_len v i data u : (libusb_control_out v i data u).1 <= zlen data;
  out_demod page addr data u : 0 <= page < 16 -> 0 <= addr < 256 ->
    (libusb_control_out (256 * addr + 0x20) (0x10 |' page) data u).1 = zlen data ->
    forall p a, demod (libusb_control_out (256 * addr + 0x20) (0x10 |' page) data u).2 p a
      = if p =? page then store_regs (demod u page) addr data a else demod u p a;
  out_demod_other page addr data u p a : 0 <= page < 16 -> 0 <= addr < 256 ->
    p <> page \/ a < addr \/ addr + zlen data <= a ->
    demod (libusb_control_out (256 * addr + 0x20) (0x10 |' page) data u).2 p a = demod u p a;
  out_demod_i2c page addr data u a r : 0 <= page < 16 -> 0 <= addr < 256 ->
    i2c (libusb_control_out (256 * addr + 0x20) (0x10 |' page) data u).2 a r = i2c u a r;
  out_i2c addr reg bytes u : (libusb_control_out addr 0x610 (reg :: bytes) u).1 = 1 + zlen bytes ->
    forall r, i2c (libusb_control_out addr 0x610 (reg :: bytes) u).2 addr r = store_regs (i2c u addr) reg bytes r;
  out_i2c_demod addr msg u p a : demod (libusb_control_out addr 0x610 msg u).2 p a = demod u p a;
  out_gpio v data u : v = GPO \/ v = GPOE \/ v = GPD ->
    (forall a r, i2c (libusb_control_out v 0x210 data u).2 a r = i2c u a r) /\
    (forall p a, demod (libusb_control_out v 0x210 data u).2 p a = demod u p a);
  in_i2c v i n u a r : i2c (libusb_control_in v i n u).2 a r = i2c u a r;
  in_demod v i n u p a : demod (libusb_control_in v i n u).2 p a = demod u p a;
}.

(** Every transfer works; a chip on the bus is addressed by a message of one byte and reads
    on from there. *)
Class Rtl2832Works (U : Type) `{Libusb U} (i2c : U -> Z -> Z -> Z) (i2c_ptr : U -> Z -> Z) := {
  works_out v i data u : zlen data < 256 -> (libusb_control_out v i data u).1 = zlen data;
  works_point addr reg u : i2c_ptr (libusb_control_out addr 0x610 [reg] u).2 addr = reg;
  works_read addr u : (libusb_control_in addr 0x600 1 u).1 = (1, [i2c u addr (i2c_ptr u addr)]);
  works_next addr u : i2c_ptr (libusb_control_in addr 0x600 1 u).2 addr = i2c_ptr u addr + 1;
}.

Module UsbRegs.

(** ** A device for instances of the theorems *)

Record dongle := mk_dongle { dg_demod : Z -> Z -> Z; dg_i2c : Z -> Z -> Z; dg_ptr : Z -> Z }.

Definition upd {A} (f : Z -> A) (k : Z) (x : A) : Z -> A := fun a => if a =? k then x else f a.

#[global] Instance dongle_usb : Libusb dongle := {
  libusb_control_in v i n u :=
    if i =? 0x600
    then ((n, dg_i2c u v <$> seqZ (dg_ptr u v) n), mk_dongle (dg_demod u) (dg_i2c u) (upd (dg_ptr u) v (dg_ptr u v + n)))
    else ((n, replicate (Z.to_nat n) 0), u);
  libusb_control_out v i data u :=
    (zlen data,
     if i =? 0x610
     then match data with
          | [] => u
          | reg :: bytes =>
              mk_dongle (dg_demod u) (upd (dg_i2c u) v (store_regs (dg_i2c u v) reg bytes))
                (upd (dg_ptr u) v (reg + zlen bytes))
          end
     else if i <? 0x100
     then mk_dongle (upd (dg_demod u) (i &' 0xf) (store_regs (dg_demod u (i &' 0xf)) (v / 256) data)) (dg_i2c u) (dg_ptr u)
     else u);
  uninit2 u := [0; 0];
}.

Lemma page_index page : 0 <= page < 16 ->
  ((0x10 |' page) =? 0x610) = false /\ ((0x10 |' page) <? 0x100) = true /\ (0x10 |' page) &' 0xf = page.
Proof.
  intros Hp. assert (K : In page (seqZ 0 16)) by (apply list_elem_of_In, elem_of_seqZ; lia).
  cbv in K. repeat destruct K as [<-|K]; by try destruct K.
Qed.

#[global] Instance dongle_rtl2832 : Rtl2832 dongle dg_demod dg_i2c.
Proof.
  split.
  - intros. reflexivity.
  - intros page addr data u Hp Ha _ p a. cbn. destruct (page_index page Hp) as (-> & -> & ->). cbn [dg_demod].
    unfold upd. replace ((256 * addr + 32) / 256) with addr by (apply (Z.div_unique _ _ _ 32); lia).
    by destruct (p =? page).
  - intros page addr data u p a Hp Ha Ho. cbn. destruct (page_index page Hp) as (-> & -> & ->). cbn [dg_demod].
    unfold upd. replace ((256 * addr + 32) / 256) with addr by (apply (Z.div_unique _ _ _ 32); lia).
    destruct (Z.eqb_spec p page) as [->|]; [|done]. unfold store_regs.
    destruct (Z.leb_spec addr a), (Z.ltb_spec a (addr + zlen data)); try done. lia.
  - intros page addr data u a r Hp Ha. cbn. by destruct (page_index page Hp) as (-> & -> & ->).
  - intros addr reg bytes u _ r. cbn. unfold upd. by rewrite Z.eqb_refl.
  - intros addr [|reg bytes] u p a; done.
  - intros v data u _. done.
  - intros v i n u a r. cbn. by destruct (i =? 0x600).
  - intros v i n u p a. cbn. by destruct (i =? 0x600).
Defined.

#[global] Instance dongle_works : Rtl2832Works dongle dg_i2c dg_ptr.
Proof.
  split.
  - done.
  - intros addr reg u. cbn. unfold upd. rewrite Z.eqb_refl. apply Z.add_0_r.
  - intros addr u. cbn [libusb_control_in dongle_usb fst Z.eqb Pos.eqb].
    change (seqZ (dg_ptr u addr) 1) with [0 + dg_ptr u addr]. by rewrite Z.add_0_l.
  - intros addr u. cbn. unfold upd. by rewrite Z.eqb_refl.
Defined.

Lemma demod_value addr : 0 <= addr < 256 -> u16 ((addr <<' 8) |' 0x20) = 256 * addr + 0x20.
Proof.
  intros Ha. assert (F : Forall (fun a => u16 ((a <<' 8) |' 0x20) = 256 * a + 0x20) (seqZ 0 256))
    by (apply (bool_decide_eq_true_1 _); vm_compute; reflexivity).
  rewrite Forall_forall in F. apply F, list_elem_of_In, elem_of_seqZ. lia.
Qed.

Section Layer.
Context {U : Type} `{Libusb U} {demod i2c : U -> Z -> Z -> Z} `{!Rtl2832 U demod i2c}.

(** The registers of the chips on the bus are those of [f]. *)
Definition i2c_is (f : Z -> Z -> Z) (c : core U) : Prop := forall a r, i2c (usb c) a r = f a r.

Lemma i2c_is_in f v i n : inv (i2c_is f) (on_usb (libusb_control_in v i n)).
Proof.
  intros c Hc a r. unfold on_usb. pose proof (in_i2c v i n (usb c) a r) as E.
  destruct (libusb_control_in v i n (usb c)). cbn in *. by rewrite E.
Qed.
Lemma i2c_is_gpio f v data : v = GPO \/ v = GPOE \/ v = GPD -> inv (i2c_is f) (on_usb (libusb_control_out v 0x210 data)).
Proof.
  intros Hv c Hc a r. unfold on_usb. destruct (out_gpio v data (usb c) Hv) as [E _]. specialize (E a r).
  destruct (libusb_control_out v 0x210 data (usb c)). cbn in *. by rewrite E.
Qed.
Lemma gpio_i2c_is f gpio on : inv (i2c_is f) (set_bias_tee_gpio gpio on).
Proof.
  unfold set_bias_tee_gpio, rtlsdr_set_gpio_output, rtlsdr_set_gpio_bit, rtlsdr_read_reg, rtlsdr_write_reg.
  inv_go; first [apply i2c_is_in | apply i2c_is_gpio; tauto].
Qed.
Lemma i2c_is_demod f page addr val len : 0 <= page < 16 -> 0 <= addr < 256 ->
  inv (i2c_is f) (rtlsdr_demod_write_reg page addr val len).
Proof.
  intros Hp Ha. unfold rtlsdr_demod_write_reg, rtlsdr_demod_read_reg.
  apply inv_bind; [|intros; inv_go; apply i2c_is_in].
  intros c Hc a r. unfold on_usb. pose proof (out_demod_i2c page addr (val_bytes val len) (usb c) a r Hp Ha) as E.
  rewrite (demod_value addr Ha). destruct (libusb_control_out _ _ _ (usb c)). cbn in *. by rewrite E.
Qed.

(** ** The interface of the tuner drivers *)

#[global] Instance usb_i2c_regs addr : I2cRegs (core U) addr (fun c => i2c (usb c) addr).
Proof.
  split.
  - intros c reg bytes rc c' E Hrc r. revert E. cbn [rtlsdr_i2c_write_fn core_i2c].
    unfold rtlsdr_i2c_write, rtlsdr_write_array, on_usb. change ((IICB <<' 8) |' 0x10) with 0x610.
    set (msg := take _ _). pose proof (out_len addr 0x610 msg (usb c)) as Hl.
    assert (Hm : zlen msg = 1 + zlen bytes -> msg = reg :: bytes).
    { unfold msg, zlen. rewrite length_take. intros. apply take_ge. cbn [length] in *. lia. }
    pose proof (out_i2c addr reg bytes (usb c)) as Hs.
    destruct (libusb_control_out addr 0x610 msg (usb c)) as [r0 u] eqn:Eo. intros [= -> <-]. cbn [fst] in Hl.
    assert (Hlm : zlen msg <= 1 + zlen bytes) by (unfold msg, zlen; rewrite length_take; cbn [length]; lia).
    rewrite Hm in Eo by lia. rewrite Eo in Hs. by apply Hs.
  - intros c len r. cbn [rtlsdr_i2c_read_fn core_i2c]. unfold rtlsdr_i2c_read, rtlsdr_read_array.
    apply (i2c_is_in (i2c (usb c))). by intros a.
  - intros c gpio on r. cbn [rtlsdr_set_bias_tee_gpio core_i2c].
    apply (gpio_i2c_is (i2c (usb c))). by intros a.
Qed.

Context {i2c_ptr : U -> Z -> Z} `{!Rtl2832Works U i2c i2c_ptr}.

Lemma write_array_works block addr msg c : zlen msg < 256 ->
  (rtlsdr_write_array block addr msg (zlen msg) c).1 = zlen msg.
Proof.
  intros Hm. unfold rtlsdr_write_array, on_usb. rewrite u8_id by (split; [unfold zlen; lia|exact Hm]).
  rewrite take_ge by (unfold zlen; lia).
  pose proof (works_out addr ((block <<' 8) |' 0x10) msg (usb c) Hm) as E.
  by destruct (libusb_control_out addr ((block <<' 8) |' 0x10) msg (usb c)).
Qed.

#[global] Instance usb_i2c_full addr : I2cFull (core U) addr.
Proof. intros c msg Hm. right. by apply write_array_works. Qed.

#[global] Instance usb_i2c_reliable addr status : I2cReliable (core U) addr (fun c => i2c (usb c) addr) status.
Proof.
  split; [intros; by apply write_array_works|]. intros c reg. exists (i2c (usb c) addr reg). split; [|done].
  cbn [rtlsdr_i2c_write_fn rtlsdr_i2c_read_fn core_i2c].
  unfold rtlsdr_i2c_write, rtlsdr_i2c_read, rtlsdr_write_array, rtlsdr_read_array, on_usb.
  change ((IICB <<' 8) |' 0x10) with 0x610. change (IICB <<' 8) with 0x600. change (u8 1) with 1.
  change (take (Z.to_nat (u8 (zlen [reg]))) [reg]) with [reg].
  pose proof (works_point addr reg (usb c)) as Hp. pose proof (works_out addr 0x610 [reg] (usb c) eq_refl) as Hw.
  pose proof (out_i2c addr reg [] (usb c) Hw) as Hs.
  destruct (libusb_control_out addr 0x610 [reg] (usb c)) as [r0 u]. cbn [snd usb set_usb] in *.
  pose proof (works_read addr u) as Hr. destruct (libusb_control_in addr 0x600 1 u) as [x u'].
  cbn [fst] in Hr |- *. rewrite Hr, Hp, Hs. by rewrite store_regs_nil.
Qed.

End Layer.
End UsbRegs.


Module UsbRegsProps.
Import UsbRegs.

Section Props.
Context {U : Type} `{Libusb U} {demod i2c : U -> Z -> Z -> Z} `{!Rtl2832 U demod i2c}.

Abbreviation dm c := (demod (usb c)).

Lemma demod_read_keeps page addr len (c : core U) :
  forall p a, dm (rtlsdr_demod_read_reg page addr len c).2 p a = dm c p a.
Proof.
  intros p a. unfold rtlsdr_demod_read_reg. rewrite st_bind_eq. cbn [st_get]. rewrite st_bind_eq. unfold on_usb.
  pose proof (in_demod (u16 ((addr <<' 8) |' 0x20)) page len (usb c) p a) as E.
  destruct (libusb_control_in _ page len (usb c)) as [[r data] u]. exact E.
Qed.

(** A demodulator write that reports success has stored its bytes. *)
Lemma demod_write_stores page addr val len (c c' : core U) :
  0 <= page < 16 -> 0 <= addr < 256 -> zlen (val_bytes val len) = len ->
  rtlsdr_demod_write_reg page addr val len c = (0, c') ->
  forall p a, dm c' p a = if p =? page then store_regs (dm c page) addr (val_bytes val len) a else dm c p a.
Proof.
  intros Hp Ha Hl. unfold rtlsdr_demod_write_reg. rewrite st_bind_eq. unfold on_usb at 1. rewrite demod_value by done.
  pose proof (out_demod page addr (val_bytes val len) (usb c) Hp Ha) as E. rewrite Hl in E.
  destruct (libusb_control_out _ _ _ (usb c)) as [r u]. rewrite st_bind_eq.
  pose proof (demod_read_keeps 0x0a 0x01 1 (set_usb u c)) as K.
  destruct (rtlsdr_demod_read_reg 0x0a 0x01 1 (set_usb u c)) as [x c2]. rewrite st_ret_eq.
  destruct (Z.eqb_spec r len) as [->|]; intros [= <-]. intros p a. cbn in K, E. rewrite K. by apply E.
Qed.

(** ** IF frequency *)

Lemma fields22 x : 0 <= (x >>' 16) &' 0x3f < 64 /\
  65536 * ((x >>' 16) &' 0x3f) + 256 * ((x >>' 8) &' 0xff) + x &' 0xff = x mod 2 ^ 22.
Proof.
  change 0x3f with (Z.ones 6). change 0xff with (Z.ones 8). rewrite !Z.land_ones by lia.
  rewrite !Z.shiftr_div_pow2 by lia. pose proof (Z.mod_pos_bound (x / 2 ^ 16) (2 ^ 6) ltac:(lia)). split; [lia|].
  change (2 ^ 22) with 4194304. change (2 ^ 16) with 65536. change (2 ^ 8) with 256. change (2 ^ 6) with 64.
  replace (x / 65536) with (x / 256 / 256) by (rewrite Z.div_div by lia; done).
  pose proof (Z.div_mod x 256 ltac:(lia)). pose proof (Z.div_mod (x / 256) 256 ltac:(lia)).
  pose proof (Z.div_mod (x / 256 / 256) 64 ltac:(lia)). pose proof (Z.mod_pos_bound x 256 ltac:(lia)).
  pose proof (Z.mod_pos_bound (x / 256) 256 ltac:(lia)). pose proof (Z.mod_pos_bound (x / 256 / 256) 64 ltac:(lia)).
  apply (Z.mod_unique x 4194304 (x / 256 / 256 / 64)); lia.
Qed.

Lemma byte_val v : val_bytes v 1 = [v &' 0xff].
Proof. done. Qed.
Lemma low_byte v : is_u 8 v -> v &' 0xff = v.
Proof. intros Hv. change 0xff with (Z.ones 8). rewrite Z.land_ones by lia. by apply Z.mod_small. Qed.
Lemma land_byte v : (v &' 0xff) &' 0xff = v &' 0xff.
Proof. by rewrite <- Z.land_assoc. Qed.

Lemma set_if_freq_regs f (c c' : core U) : rtlsdr_set_if_freq f c = (0, c') ->
  let x := if_freq_value f (rtlsdr_get_xtal_freq c).1 in
  dm c' 1 0x19 = (x >>' 16) &' 0x3f /\ dm c' 1 0x1a = (x >>' 8) &' 0xff /\ dm c' 1 0x1b = x &' 0xff.
Proof.
  unfold rtlsdr_set_if_freq. rewrite st_bind_eq. cbn [st_get]. set (x := if_freq_value _ _). cbv zeta.
  rewrite st_bind_eq. destruct (rtlsdr_demod_write_reg 1 0x19 _ 1 c) as [r1 c1] eqn:E1.
  rewrite st_bind_eq. destruct (rtlsdr_demod_write_reg 1 0x1a _ 1 c1) as [r2 c2] eqn:E2.
  rewrite st_bind_eq. destruct (rtlsdr_demod_write_reg 1 0x1b _ 1 c2) as [r3 c3] eqn:E3.
  intros [= E <-]. apply Z.lor_eq_0_iff in E as [E ->]. apply Z.lor_eq_0_iff in E as [-> ->].
  pose proof (demod_write_stores 1 0x19 _ 1 c c1 ltac:(lia) ltac:(lia) eq_refl E1) as S1.
  pose proof (demod_write_stores 1 0x1a _ 1 c1 c2 ltac:(lia) ltac:(lia) eq_refl E2) as S2.
  pose proof (demod_write_stores 1 0x1b _ 1 c2 c3 ltac:(lia) ltac:(lia) eq_refl E3) as S3.
  rewrite !S3, !byte_val, !store_regs_one. cbn [Z.eqb Pos.eqb]. rewrite !S2, !byte_val, !store_regs_one. cbn [Z.eqb Pos.eqb].
  rewrite S1, byte_val, store_regs_one. cbn [Z.eqb Pos.eqb]. rewrite !land_byte. split_and!; try done.
  by rewrite <- Z.land_assoc.
Qed.

Lemma if_freq_value_eq f x : 0 <= f < 2 ^ 31 -> 2 ^ 22 < x < 2 ^ 32 -> if_freq_value f x = - (f * 2 ^ 22 / x).
Proof.
  intros Hf Hx. unfold if_freq_value, TWO_POW. rewrite scaled_div_neg by lia. apply s32_id. unfold is_s.
  pose proof (Z.div_pos (f * 2 ^ 22) x ltac:(lia) ltac:(lia)).
  assert (f * 2 ^ 22 / x < 2 ^ 31) by (apply Z.div_lt_upper_bound; nia). lia.
Qed.

(** The digital down-converter is set exactly: when [rtlsdr_set_if_freq] reports success,
    the 22-bit register of the demodulator holds, in two's complement, minus the frequency in
    units of the corrected crystal over 2^22, rounded down; the computation in double
    precision loses nothing. *)
Theorem if_freq_programmed f (c c' : core U) :
  0 <= f < 2 ^ 31 -> 2 ^ 22 < (rtlsdr_get_xtal_freq c).1 -> rtlsdr_set_if_freq f c = (0, c') ->
  0 <= dm c' 1 0x19 < 64 /\
  65536 * dm c' 1 0x19 + 256 * dm c' 1 0x1a + dm c' 1 0x1b = (- (f * 2 ^ 22 / (rtlsdr_get_xtal_freq c).1)) mod 2 ^ 22.
Proof.
  intros Hf Hx E. destruct (set_if_freq_regs f c c' E) as (-> & -> & ->).
  rewrite if_freq_value_eq; [apply fields22|done|split; [done|apply u32_range]].
Qed.
End Props.

(** A dongle with the usual crystal. *)
Definition demo_core : core dongle :=
  mk_core (mk_dongle (fun _ _ => 0) (fun _ _ => 0xff) (fun _ => 0)) 28800000 28800000 0 "" "".

Lemma if_freq_programmed_witness :
  (dg_demod (usb (rtlsdr_set_if_freq 3570000 demo_core).2) 1 0x1b +
   256 * dg_demod (usb (rtlsdr_set_if_freq 3570000 demo_core).2) 1 0x1a +
   65536 * dg_demod (usb (rtlsdr_set_if_freq 3570000 demo_core).2) 1 0x19) = (- 519918) mod 2 ^ 22.
Proof.
  assert (R : rtlsdr_set_if_freq 3570000 demo_core = (0, (rtlsdr_set_if_freq 3570000 demo_core).2))
    by (apply rc_pair; vm_compute; reflexivity).
  assert (X : 2 ^ 22 < (rtlsdr_get_xtal_freq demo_core).1) by (vm_compute; reflexivity).
  pose proof (if_freq_programmed (demod := dg_demod) (i2c := dg_i2c) 3570000 demo_core _ ltac:(lia) X R) as [_ E].
  etransitivity; [|etransitivity; [exact E|vm_compute; reflexivity]]. lia.
Defined.
End UsbRegsProps.

Module FirProps.
Import UsbRegs UsbRegsProps.

(** ** FIR filter *)

(** The coefficients the datasheet assigns to the 20 register bytes: eight signed bytes, and
    eight signed 12-bit values in pairs of three bytes. *)
Definition s12 (z : Z) : Z := (z + 2 ^ 11) mod 2 ^ 12 - 2 ^ 11.
Fixpoint unpack12 (l : list Z) : list Z :=
  match l with
  | a :: b :: c :: l => s12 (16 * a + b / 16) :: s12 (256 * (b mod 16) + c) :: unpack12 l
  | _ => []
  end.
Definition unpack_fir (l : list Z) : list Z := (s8 <$> take 8 l) ++ unpack12 (drop 8 l).
Definition fir_ok (fir : list Z) : Prop :=
  Forall (is_s 8) (take 8 fir) /\ Forall (is_s 12) (take 8 (drop 8 fir)).

Lemma pair_bytes v0 v1 : is_s 12 v0 -> is_s 12 v1 ->
  let b := u8 ((v0 <<' 4) |' ((v1 >>' 8) &' 0x0f)) in
  s12 (16 * u8 (v0 >>' 4) + b / 16) = v0 /\ s12 (256 * (b mod 16) + u8 v1) = v1.
Proof.
  unfold is_s. intros H0 H1. cbv zeta. change 0x0f with (Z.ones 4). rewrite Z.land_ones by lia.
  rewrite lor_shiftl_add by (try apply Z.mod_pos_bound; lia). rewrite !Z.shiftr_div_pow2 by lia.
  unfold s12, u8. change (2 ^ 4) with 16. change (2 ^ 8) with 256. change (2 ^ 11) with 2048.
  change (2 ^ 12) with 4096. change (2 ^ (12 - 1)) with 2048 in *. split; Z.div_mod_to_equations; lia.
Qed.

Lemma unpack8_pack8 l b : pack8 l = Some b -> (s8 <$> b) = l.
Proof.
  revert b. induction l as [|v l IH]; intros b; cbn [pack8]; [by intros [= <-]|].
  destruct (_ || _) eqn:E; [done|]. destruct (pack8 l); [|done]. intros [= <-]. cbn [fmap list_fmap].
  f_equal; [|by apply IH]. apply orb_false_iff in E as [?%Z.ltb_ge ?%Z.ltb_ge].
  unfold s8, u8. change (2 ^ 7) with 128. change (2 ^ 8) with 256. Z.div_mod_to_equations; lia.
Qed.
Lemma unpack12_pack12 n : forall l b, length l = (2 * n)%nat -> pack12 l = Some b -> unpack12 b = l.
Proof.
  induction n as [|n IH]; intros [|v0 [|v1 l]] b Hl; cbn [length] in Hl; try lia; cbn [pack12]; [by intros [= <-]|].
  destruct (_ || _) eqn:E; [done|]. destruct (pack12 l) eqn:El; [|done]. intros [= <-]. cbn [unpack12].
  rewrite !orb_false_iff, !Z.ltb_ge in E.
  destruct (pair_bytes v0 v1) as [-> ->]; [unfold is_s; lia..|]. do 2 f_equal. apply IH; [lia|done].
Qed.
Lemma pack8_range l b : pack8 l = Some b -> Forall (is_s 8) l /\ bytes b.
Proof.
  revert b. induction l as [|v l IH]; intros b; cbn [pack8]; [intros [= <-]; split; constructor|].
  destruct (_ || _) eqn:E; [done|]. destruct (pack8 l); [|done]. intros [= <-].
  rewrite orb_false_iff, !Z.ltb_ge in E. destruct (IH l0 eq_refl).
  split; constructor; try apply u8_range; try assumption; unfold is_s; lia.
Qed.
Lemma pack12_range n : forall l b, length l = (2 * n)%nat -> pack12 l = Some b -> Forall (is_s 12) l /\ bytes b.
Proof.
  induction n as [|n IH]; intros [|v0 [|v1 l]] b Hl; cbn [length] in Hl; try lia; cbn [pack12]; [intros [= <-]; split; constructor|].
  destruct (_ || _) eqn:E; [done|]. destruct (pack12 l) eqn:El; [|done]. intros [= <-].
  rewrite !orb_false_iff, !Z.ltb_ge in E. destruct (IH l l0 ltac:(lia) El).
  split; repeat constructor; try apply u8_range; try assumption; unfold is_s; lia.
Qed.
Lemma pack_fir_unpack fir b : length fir = 16%nat -> pack_fir fir = Some b ->
  fir_ok fir /\ bytes b /\ length b = 20%nat /\ unpack_fir b = fir.
Proof.
  intros Hl. unfold pack_fir. destruct (pack8 (take 8 fir)) as [x|] eqn:E8; [|done].
  destruct (pack12 (take 8 (drop 8 fir))) as [y|] eqn:E12; [|done]. intros [= <-].
  assert (H12 : length (take 8 (drop 8 fir)) = (2 * 4)%nat) by (rewrite length_take, length_drop; lia).
  pose proof (unpack8_pack8 _ _ E8) as U8. pose proof (unpack12_pack12 _ _ _ H12 E12) as U12.
  pose proof (pack8_len _ _ E8) as L8. rewrite length_take in L8. pose proof (pack12_len _ _ _ H12 E12) as L12.
  destruct (pack8_range _ _ E8) as [R8 B8]. destruct (pack12_range _ _ _ H12 E12) as [R12 B12].
  split_and!; [by split|by apply Forall_app|rewrite length_app; lia|].
  unfold unpack_fir. rewrite take_app_length' by lia. rewrite drop_app_length' by lia. rewrite U8, U12.
  rewrite (take_ge (drop 8 fir)) by (rewrite length_drop; lia). apply take_drop.
Qed.

Section Props.
Context {U : Type} `{Libusb U} {demod i2c : U -> Z -> Z -> Z} `{!Rtl2832 U demod i2c}.

Abbreviation dm c := (demod (usb c)).

Lemma fir_loop_stores l : forall i (c c' : core U), 0 <= i -> i + zlen l <= 20 -> bytes l ->
  fir_loop i l c = (0, c') -> forall a, dm c' 1 a = store_regs (dm c 1) (0x1c + i) l a.
Proof.
  induction l as [|b l IH]; intros i c c' Hi Hl Hb; cbn [fir_loop].
  - rewrite st_ret_eq. intros [= <-] a. by rewrite store_regs_nil.
  - change (b :: l) with ([b] ++ l) in Hl. rewrite zlen_app in Hl. change (zlen [b]) with 1 in Hl.
    pose proof (Nat2Z.is_nonneg (length l)) as Hn. fold (zlen l) in Hn.
    rewrite st_bind_eq. destruct (rtlsdr_demod_write_reg 1 (0x1c + i) b 1 c) as [r c1] eqn:E.
    destruct (Z.eqb_spec r 0) as [->|]; [|by rewrite st_ret_eq]. intros El a.
    inversion Hb as [|? ? Hb0 Hbl]; subst.
    rewrite (IH (i + 1) c1 c' ltac:(lia) ltac:(lia) Hbl El). rewrite store_regs_cons.
    pose proof (demod_write_stores 1 (0x1c + i) b 1 c c1 ltac:(lia) ltac:(lia) eq_refl E) as S.
    rewrite byte_val, low_byte in S by done. replace (28 + (i + 1)) with (28 + i + 1) by lia.
    unfold store_regs at 1 2. destruct (_ && _); [done|]. apply (S 1 a).
Qed.

Lemma rd_fmap_seqZ (f : Z -> Z) a l : (forall i, 0 <= i < zlen l -> f (a + i) = rd l i) -> (f <$> seqZ a (zlen l)) = l.
Proof.
  unfold zlen. intros Hf. apply list_eq. intros i. rewrite list_lookup_fmap.
  destruct (decide (i < length l)%nat) as [Hi|Hi].
  - rewrite lookup_seqZ_lt by lia. cbn. rewrite Hf by lia. unfold rd. destruct (Z.ltb_spec (Z.of_nat i) 0); [lia|].
    rewrite Nat2Z.id. by destruct (lookup_lt_is_Some_2 l i Hi) as [x ->].
  - rewrite lookup_seqZ_ge by lia. symmetry. apply lookup_ge_None_2. lia.
Qed.

(** The FIR filter of the demodulator is the one asked for: coefficients out of the range
    of their fields are refused before anything is sent, and when [rtlsdr_set_fir] reports
    success the registers 0x1c to 0x2f of page 1, decoded as the chip decodes them (eight
    signed bytes, then eight signed 12-bit values), are the coefficients. *)
Theorem fir_programmed fir (c : core U) : length fir = 16%nat ->
  (~ fir_ok fir -> rtlsdr_set_fir fir c = (-1, c)) /\
  (forall c', rtlsdr_set_fir fir c = (0, c') -> unpack_fir (dm c' 1 <$> seqZ 0x1c 20) = fir).
Proof.
  intros Hl. unfold rtlsdr_set_fir. pose proof (pack_fir_unpack fir) as Hp.
  destruct (pack_fir fir) as [b|]; [|by split]. destruct (Hp b Hl eq_refl) as (Hok & Hb & Hn & Hu).
  split; [done|]. intros c' E. pose proof (fir_loop_stores b 0 c c' ltac:(lia) ltac:(unfold zlen; lia) Hb E) as S.
  assert (Z20 : 20 = zlen b) by (unfold zlen; lia).
  rewrite Z20, rd_fmap_seqZ; [done|]. intros i Hi. rewrite S. unfold store_regs.
  destruct (Z.leb_spec (0x1c + 0) (0x1c + i)), (Z.ltb_spec (0x1c + i) (0x1c + 0 + zlen b)); try lia. cbn [andb].
  f_equal. lia.
Qed.
End Props.

Lemma fir_programmed_witness :
  unpack_fir (dg_demod (usb (rtlsdr_set_fir fir_default demo_core).2) 1 <$> seqZ 0x1c 20) = fir_default.
Proof.
  apply (fir_programmed (demod := dg_demod) (i2c := dg_i2c) fir_default demo_core eq_refl).
  apply rc_pair. vm_compute. reflexivity.
Defined.
End FirProps.

Module EepromProps.
Import UsbRegs UsbRegsProps FirProps.

Section Props.
Context {U : Type} `{Libusb U} {demod i2c : U -> Z -> Z -> Z} `{!Rtl2832 U demod i2c}
  {i2c_ptr : U -> Z -> Z} `{!Rtl2832Works U i2c i2c_ptr}.

(** The contents of the EEPROM. *)
Definition rom (c : core U) : Z -> Z := i2c (usb c) EEPROM_ADDR.

Lemma rom_write c reg bytes : 1 + zlen bytes < 256 ->
  (rtlsdr_write_array IICB EEPROM_ADDR (reg :: bytes) (1 + zlen bytes) c).1 = 1 + zlen bytes /\
  forall r, rom (rtlsdr_write_array IICB EEPROM_ADDR (reg :: bytes) (1 + zlen bytes) c).2 r = store_regs (rom c) reg bytes r.
Proof.
  intros Hl. assert (Z : 1 + zlen bytes = zlen (reg :: bytes)) by (unfold zlen; cbn [length]; lia).
  rewrite Z in Hl |- *. pose proof (write_array_works IICB EEPROM_ADDR (reg :: bytes) c Hl) as E. split; [done|].
  rewrite <- Z in E at 2. eapply (i2c_write_regs (addr := EEPROM_ADDR) c reg bytes); [|exact E].
  apply rc_pair. reflexivity.
Qed.

(** One byte addressed and read: the byte, and the contents as before. *)
Lemma rom_byte c reg :
  (rtlsdr_read_array IICB EEPROM_ADDR 1 (rtlsdr_write_array IICB EEPROM_ADDR [reg] 1 c).2).1 = (1, [rom c reg]) /\
  forall r, rom (rtlsdr_read_array IICB EEPROM_ADDR 1 (rtlsdr_write_array IICB EEPROM_ADDR [reg] 1 c).2).2 r = rom c r.
Proof.
  split; [exact (i2c_readback (addr := EEPROM_ADDR) c reg)|]. intros r.
  pose proof (i2c_read_regs (addr := EEPROM_ADDR) (rtlsdr_write_array IICB EEPROM_ADDR [reg] 1 c).2 1 r) as E.
  etransitivity; [exact E|]. destruct (rom_write c reg []) as [_ W]; [done|]. etransitivity; [apply W|].
  apply store_regs_nil.
Qed.

Lemma write_eeprom_stores l : forall i offset cmd1 (c : core U), bytes l -> 0 <= i -> 0 <= offset -> i + offset + zlen l <= 256 ->
  (write_eeprom_loop i offset cmd1 l c).1 = 0 /\
  forall r, rom (write_eeprom_loop i offset cmd1 l c).2 r = store_regs (rom c) (i + offset) l r.
Proof.
  induction l as [|x l IH]; intros i offset cmd1 c Hb Hi Ho Hl; cbn [write_eeprom_loop].
  { rewrite st_ret_eq. split; [done|]. intros r. by rewrite store_regs_nil. }
  change (x :: l) with ([x] ++ l) in Hl. rewrite zlen_app in Hl. change (zlen [x]) with 1 in Hl.
  pose proof (Nat2Z.is_nonneg (length l)) as Hn. fold (zlen l) in Hn. inversion Hb as [|? ? Hx Hbl]; subst.
  rewrite u8_id by (unfold is_u; lia). rewrite st_bind_eq. destruct (rom_byte c (i + offset)) as [Hg Hk].
  destruct (rtlsdr_write_array IICB EEPROM_ADDR [i + offset] 1 c) as [r0 c0]. cbn [snd] in Hg, Hk.
  rewrite st_bind_eq. destruct (rtlsdr_read_array IICB EEPROM_ADDR 1 c0) as [g c1]. cbn [fst snd] in Hg, Hk. subst g.
  cbv beta iota. cbn [head default from_option id]. replace (i + 1 + offset) with (i + offset + 1) in * by lia.
  destruct (Z.eqb_spec (rom c (i + offset)) x) as [E|E].
  - destruct (IH (i + 1) offset x c1 Hbl) as [-> S]; [lia..|]. split; [done|]. intros r.
    rewrite S, store_regs_cons. replace (i + 1 + offset) with (i + offset + 1) by lia.
    unfold store_regs at 1 2. destruct (_ && _); [done|]. rewrite Hk, store_regs_one.
    destruct (Z.eqb_spec r (i + offset)) as [->|]; done.
  - rewrite st_bind_eq. destruct (rom_write c1 (i + offset) [x]) as [Hw Hs]; [done|].
    change (1 + zlen [x]) with 2 in Hw, Hs. 
    destruct (rtlsdr_write_array IICB EEPROM_ADDR [i + offset; x] 2 c1) as [r2 c2]. cbn [fst snd] in Hw, Hs. subst r2.
    cbv beta iota. rewrite Z.eqb_refl. destruct (IH (i + 1) offset x c2 Hbl) as [-> S]; [lia..|]. split; [done|]. intros r.
    rewrite S, store_regs_cons. replace (i + 1 + offset) with (i + offset + 1) by lia.
    unfold store_regs at 1 2. destruct (_ && _); [done|]. rewrite Hs, !store_regs_one. by rewrite Hk.
Qed.

Lemma write_points c reg : i2c_ptr (usb (rtlsdr_write_array IICB EEPROM_ADDR [reg] 1 c).2) EEPROM_ADDR = reg.
Proof.
  unfold rtlsdr_write_array, on_usb. change ((IICB <<' 8) |' 0x10) with 0x610. change (take (Z.to_nat (u8 1)) [reg]) with [reg].
  pose proof (works_point EEPROM_ADDR reg (usb c)) as P. by destruct (libusb_control_out EEPROM_ADDR 0x610 [reg] (usb c)).
Qed.

Lemma blit_cons buf i x l : 0 <= i -> blit buf i (x :: l) = blit (blit buf i [x]) (i + 1) l.
Proof.
  intros Hi. unfold blit. replace (Z.to_nat (i + 1)) with (S (Z.to_nat i)) by lia. cbn [list_inserts].
  apply list_insert_inserts_lt. lia.
Qed.

Lemma read_eeprom_gets n : forall i r buf (c : core U), 0 <= i -> i + Z.of_nat n <= zlen buf ->
  let p := i2c_ptr (usb c) EEPROM_ADDR in
  exists r' c', read_eeprom_loop i n r buf c = ((r', blit buf i (rom c <$> seqZ p (Z.of_nat n))), c') /\
    r' = (if Nat.eqb n 0 then r else 1) /\ forall a, rom c' a = rom c a.
Proof.
  induction n as [|n IH]; intros i r buf c Hi Hl p; cbn [read_eeprom_loop].
  { exists r, c. rewrite st_ret_eq. split_and!; done. }
  pose proof (works_read EEPROM_ADDR (usb c)) as Hr. fold p in Hr. pose proof (works_next EEPROM_ADDR (usb c)) as Hp.
  rewrite st_bind_eq. unfold rtlsdr_read_array at 1, on_usb. change (IICB <<' 8) with 0x600. change (u8 1) with 1.
  pose proof (in_i2c EEPROM_ADDR 0x600 1 (usb c) EEPROM_ADDR) as Hk.
  destruct (libusb_control_in EEPROM_ADDR 0x600 1 (usb c)) as [x u]. cbn [fst snd] in Hr, Hp, Hk. subst x.
  change (1 <? 0) with false. cbv iota beta.
  destruct (IH (i + 1) 1 (blit buf i [i2c (usb c) EEPROM_ADDR p]) (set_usb u c)) as (r' & c' & E & R & K);
    [lia|rewrite zlen_blit; lia|].
  exists r', c'. rewrite E. cbn [usb set_usb] in *. split_and!; [|by destruct n|].
  - do 2 f_equal. rewrite Hp. rewrite <- blit_cons by lia. f_equal.
    replace (Z.of_nat (S n)) with (Z.succ (Z.of_nat n)) by lia. rewrite (seqZ_cons p) by lia. cbn [fmap list_fmap].
    replace (Z.pred (Z.succ (Z.of_nat n))) with (Z.of_nat n) by lia. f_equal. 
    change (i2c_ptr (usb c) EEPROM_ADDR) with p. replace (Z.succ p) with (p + 1) by lia. apply list_fmap_ext. intros ? a _. apply Hk.
  - intros a. rewrite K. apply Hk.
Qed.

Lemma read_eeprom_rom offset buf (c : core U) : 0 <= offset -> 0 < zlen buf -> zlen buf + offset <= 256 ->
  exists c2, rtlsdr_read_eeprom buf offset (zlen buf) c = ((1, rom c <$> seqZ offset (zlen buf)), c2) /\ forall r, rom c2 r = rom c r.
Proof.
  intros Ho Hpos Hf. unfold rtlsdr_read_eeprom. destruct (Z.ltb_spec 256 (zlen buf + offset)); [lia|].
  destruct (rom_write c offset []) as [W Wk]; [done|]. change (1 + zlen []) with 1 in W, Wk.
  assert (P : i2c_ptr (usb (rtlsdr_write_array IICB EEPROM_ADDR [offset] 1 c).2) EEPROM_ADDR = offset) by apply write_points.
  destruct (rtlsdr_write_array IICB EEPROM_ADDR [offset] 1 c) as [r2 c2] eqn:E2. cbn [fst snd] in W, Wk, P. subst r2.
  destruct (read_eeprom_gets (Z.to_nat (zlen buf)) 0 1 buf c2) as (r3 & c3 & E3 & R & K); [lia..|].
  exists c3. split; [|intros r; by rewrite K, Wk, store_regs_nil].
  rewrite st_bind_eq, E2. change (1 <? 0) with false. cbv iota. rewrite E3. f_equal. f_equal.
  - rewrite R. destruct (Nat.eqb_spec (Z.to_nat (zlen buf)) 0); [lia|done].
  - rewrite P, Z2Nat.id by lia. assert (El : length (rom c2 <$> seqZ offset (zlen buf)) = length buf).
    { rewrite length_fmap, length_seqZ. unfold zlen. lia. }
    rewrite blit_0 by (unfold zlen in *; lia). rewrite drop_ge by lia. rewrite app_nil_r.
    apply list_fmap_ext. intros ? a _. by rewrite Wk, store_regs_nil.
Qed.

(** The EEPROM keeps what is written: on a working dongle a write of bytes that fit
    reports success and leaves the cells outside them alone, reading them back gives them
    (and 1, the count of the last transfer, not 0), and a range that does not fit in the 256
    cells is refused by both with nothing sent. *)
Theorem eeprom_roundtrip data offset buf (c : core U) :
  bytes data -> 0 <= offset -> zlen buf = zlen data -> 0 < zlen data ->
  (offset + zlen data <= 256 ->
   exists c1 c2, rtlsdr_write_eeprom data offset c = (0, c1) /\
     (forall r, rom c1 r = store_regs (rom c) offset data r) /\
     rtlsdr_read_eeprom buf offset (zlen data) c1 = ((1, data), c2) /\ forall r, rom c2 r = rom c1 r) /\
  (256 < offset + zlen data ->
   rtlsdr_write_eeprom data offset c = (-2, c) /\ rtlsdr_read_eeprom buf offset (zlen data) c = ((-2, buf), c)).
Proof.
  intros Hb Ho Hbuf Hpos. split; intros Hf.
  2:{ unfold rtlsdr_write_eeprom, rtlsdr_read_eeprom. by destruct (Z.ltb_spec 256 (zlen data + offset)); [|lia]. }
  unfold rtlsdr_write_eeprom. destruct (Z.ltb_spec 256 (zlen data + offset)); [lia|]. rewrite st_bind_eq. cbn [st_get].
  destruct (write_eeprom_stores data 0 offset (rd (uninit2 (usb c)) 1) c Hb) as [E S]; [lia..|].
  destruct (write_eeprom_loop 0 offset _ data c) as [r1 c1]. cbn [fst snd] in E, S. subst r1.
  destruct (read_eeprom_rom offset buf c1) as (c2 & R & K); [lia..|]. exists c1, c2. split_and!; [done|done| |done].
  rewrite <- Hbuf, R, Hbuf. do 2 f_equal. apply rd_fmap_seqZ. intros i Hi. rewrite S. unfold store_regs.
  destruct (Z.leb_spec (0 + offset) (offset + i)), (Z.ltb_spec (offset + i) (0 + offset + zlen data)); try lia.
  cbn [andb]. f_equal. lia.
Qed.
End Props.

Lemma eeprom_roundtrip_witness : exists c1 c2,
  rtlsdr_write_eeprom [0x28; 0x32; 0xda] 0 demo_core = (0, c1) /\
  rtlsdr_read_eeprom [0; 0; 0] 0 3 c1 = ((1, [0x28; 0x32; 0xda]), c2).
Proof.
  destruct (eeprom_roundtrip (demod := dg_demod) (i2c := dg_i2c) (i2c_ptr := dg_ptr)
    [0x28; 0x32; 0xda] 0 [0; 0; 0] demo_core) as [H _];
    [apply (bool_decide_eq_true_1 _); reflexivity|done|done|done|].
  destruct H as (c1 & c2 & W & _ & R & _); [done|]. exists c1, c2. by split.
Defined.
End EepromProps.
