(* ===== verification/Librtlsdr.v ===== *)
(** * The device interface ([src/src/librtlsdr.c], [src/include/rtl-sdr.h])

    [rtlsdr_dev] is [struct rtlsdr_dev] without the streaming state (see [LibrtlsdrAsync]);
    its part [d_core] is what the tuner drivers reach.  [Module Librtlsdr] has the table of
    tuner interfaces with its wrappers around the five drivers, and every function of the
    library that sets up the device: frequency, correction, clocks, sample rate, bandwidth,
    gain, direct sampling, offset tuning.  A device pointer is always valid here, so the
    tests for NULL have no branch; messages on stderr are left out. *)

From S2P Require Import Prelude Float I2c Usb TunerR82xx TunerFc TunerE4k TunerFc2580.

Module Librtlsdr.
Import Usb.

Inductive rtlsdr_tuner :=
  | RTLSDR_TUNER_UNKNOWN
  | RTLSDR_TUNER_E4000
  | RTLSDR_TUNER_FC0012
  | RTLSDR_TUNER_FC0013
  | RTLSDR_TUNER_FC2580
  | RTLSDR_TUNER_R820T
  | RTLSDR_TUNER_R828D.
#[global] Instance rtlsdr_tuner_eq_dec : EqDecision rtlsdr_tuner.
Proof. solve_decision. Defined.

Definition EINVAL : Z := 22.
Definition R82XX_IF_FREQ : Z := R82xx.R82XX_IF_FREQ.

(** [tuner] is the entry of the table [tuners], [None] for NULL; [r82xx_p] contains the
    structure [r82xx_c] its member [cfg] points to. *)
Record rtlsdr_dev (U : Type) := mk_dev {
  d_core : core U;
  rate : Z;
  fir : list Z;
  direct_sampling : Z;
  tuner_type : rtlsdr_tuner;
  tuner : option rtlsdr_tuner;
  freq : Z;
  bw : Z;
  offs_freq : Z;
  gain : Z;
  e4k_s : E4k.e4k_state;
  r82xx_p : R82xx.r82xx_priv;
  dev_lost : bool;
  driver_active : bool;
}.
Arguments mk_dev {U}.
Arguments d_core {U}.
Arguments rate {U}.
Arguments fir {U}.
Arguments direct_sampling {U}.
Arguments tuner_type {U}.
Arguments tuner {U}.
Arguments freq {U}.
Arguments bw {U}.
Arguments offs_freq {U}.
Arguments gain {U}.
Arguments e4k_s {U}.
Arguments r82xx_p {U}.
Arguments dev_lost {U}.
Arguments driver_active {U}.

(** *** Assignments to members *)
Section Assign.
Context {U : Type}.

Definition set_core (c : core U) (d : rtlsdr_dev U) := mk_dev c (rate d) (fir d) (direct_sampling d) (tuner_type d) (tuner d) (freq d)
  (bw d) (offs_freq d) (gain d) (e4k_s d) (r82xx_p d) (dev_lost d) (driver_active d).
Definition set_rate v (d : rtlsdr_dev U) := mk_dev (d_core d) v (fir d) (direct_sampling d) (tuner_type d) (tuner d) (freq d)
  (bw d) (offs_freq d) (gain d) (e4k_s d) (r82xx_p d) (dev_lost d) (driver_active d).
Definition put_direct_sampling v (d : rtlsdr_dev U) := mk_dev (d_core d) (rate d) (fir d) v (tuner_type d) (tuner d) (freq d)
  (bw d) (offs_freq d) (gain d) (e4k_s d) (r82xx_p d) (dev_lost d) (driver_active d).
Definition set_tuner_type v (d : rtlsdr_dev U) := mk_dev (d_core d) (rate d) (fir d) (direct_sampling d) v (tuner d) (freq d)
  (bw d) (offs_freq d) (gain d) (e4k_s d) (r82xx_p d) (dev_lost d) (driver_active d).
Definition set_tuner v (d : rtlsdr_dev U) := mk_dev (d_core d) (rate d) (fir d) (direct_sampling d) (tuner_type d) v (freq d)
  (bw d) (offs_freq d) (gain d) (e4k_s d) (r82xx_p d) (dev_lost d) (driver_active d).
Definition set_freq v (d : rtlsdr_dev U) := mk_dev (d_core d) (rate d) (fir d) (direct_sampling d) (tuner_type d) (tuner d) v
  (bw d) (offs_freq d) (gain d) (e4k_s d) (r82xx_p d) (dev_lost d) (driver_active d).
Definition set_bw v (d : rtlsdr_dev U) := mk_dev (d_core d) (rate d) (fir d) (direct_sampling d) (tuner_type d) (tuner d) (freq d)
  v (offs_freq d) (gain d) (e4k_s d) (r82xx_p d) (dev_lost d) (driver_active d).
Definition set_offs_freq v (d : rtlsdr_dev U) := mk_dev (d_core d) (rate d) (fir d) (direct_sampling d) (tuner_type d) (tuner d)
  (freq d) (bw d) v (gain d) (e4k_s d) (r82xx_p d) (dev_lost d) (driver_active d).
Definition set_gain v (d : rtlsdr_dev U) := mk_dev (d_core d) (rate d) (fir d) (direct_sampling d) (tuner_type d) (tuner d)
  (freq d) (bw d) (offs_freq d) v (e4k_s d) (r82xx_p d) (dev_lost d) (driver_active d).
Definition set_e4k_s v (d : rtlsdr_dev U) := mk_dev (d_core d) (rate d) (fir d) (direct_sampling d) (tuner_type d) (tuner d)
  (freq d) (bw d) (offs_freq d) (gain d) v (r82xx_p d) (dev_lost d) (driver_active d).
Definition set_r82xx_p v (d : rtlsdr_dev U) := mk_dev (d_core d) (rate d) (fir d) (direct_sampling d) (tuner_type d) (tuner d)
  (freq d) (bw d) (offs_freq d) (gain d) (e4k_s d) v (dev_lost d) (driver_active d).
Definition set_dev_lost v (d : rtlsdr_dev U) := mk_dev (d_core d) (rate d) (fir d) (direct_sampling d) (tuner_type d) (tuner d)
  (freq d) (bw d) (offs_freq d) (gain d) (e4k_s d) (r82xx_p d) v (driver_active d).
Definition set_driver_active v (d : rtlsdr_dev U) := mk_dev (d_core d) (rate d) (fir d) (direct_sampling d) (tuner_type d)
  (tuner d) (freq d) (bw d) (offs_freq d) (gain d) (e4k_s d) (r82xx_p d) (dev_lost d) v.

Definition set_rtl_xtal v (c : core U) := mk_core (usb c) v (tun_xtal c) (corr c) (manufact c) (product c).
Definition set_tun_xtal v (c : core U) := mk_core (usb c) (rtl_xtal c) v (corr c) (manufact c) (product c).
Definition set_corr v (c : core U) := mk_core (usb c) (rtl_xtal c) (tun_xtal c) v (manufact c) (product c).
End Assign.

(** The ratio registers and the rate of [rtlsdr_set_sample_rate]. *)
Definition rsamp_ratio (rtl_xtal samp_rate : Z) : Z :=
  u32 (f_trunc (f64_div (f64_mul (f64_of_Z rtl_xtal) (TWO_POW 22)) (f64_of_Z samp_rate))) &' 0x0ffffffc.
Definition real_rsamp_ratio (ratio : Z) : Z := ratio |' u32 ((ratio &' 0x08000000) <<' 1).
Definition real_rate (rtl_xtal ratio : Z) : flt :=
  f64_div (f64_mul (f64_of_Z rtl_xtal) (TWO_POW 22)) (f64_of_Z (real_rsamp_ratio ratio)).
Definition rate_refused (samp_rate : Z) : bool :=
  (samp_rate <=? 225000) || (3200000 <? samp_rate) || ((300000 <? samp_rate) && (samp_rate <=? 900000)).

Section Device.
Context {U : Type} `{Libusb U}.

Abbreviation M := (st (rtlsdr_dev U)).

(** Calls of the register layer and of the drivers. *)
Definition on_core {A} (m : st (core U) A) : M A :=
  fun d => let '(x, c) := m (d_core d) in (x, set_core c d).
Definition on_e4k {A} (m : st (E4k.e4k (core U)) A) : M A :=
  fun d => let '(x, s) := m (E4k.mk_e4k (e4k_s d) (d_core d)) in
           (x, set_core (E4k.dev_of s) (set_e4k_s (E4k.st_of s) d)).
Definition on_r82xx {A} (m : st (R82xx.r82xx (core U)) A) : M A :=
  fun d => let '(x, s) := m (R82xx.mk_r82xx (r82xx_p d) (d_core d)) in
           (x, set_core (R82xx.dev s) (set_r82xx_p (R82xx.priv s) d)).

(** [rtlsdr_get_xtal_freq(dev, NULL, &dev->e4k_s.vco.fosc)] and the same for the R82xx. *)
Definition store_e4k_fosc : M unit := st_mod (fun d =>
  set_e4k_s (E4k.set_vco (E4k.set_fosc (rtlsdr_get_xtal_freq (d_core d)).2 (E4k.vco (e4k_s d))) (e4k_s d)) d).
Definition set_cfg (c : R82xx.r82xx_config) (p : R82xx.r82xx_priv) : R82xx.r82xx_priv :=
  R82xx.mk_priv c (R82xx.regs p) (R82xx.xtal_cap_sel p) (R82xx.int_freq p) (R82xx.fil_cal_code p) (R82xx.input p)
    (R82xx.has_lock p) (R82xx.init_done p) (R82xx.delsys p) (R82xx.type p) (R82xx.bw p).
Definition store_r82xx_xtal : M unit := st_mod (fun d =>
  let c := R82xx.cfg (r82xx_p d) in
  set_r82xx_p (set_cfg (R82xx.mk_config (R82xx.i2c_addr c) (rtlsdr_get_xtal_freq (d_core d)).2
    (R82xx.rafael_chip c) (R82xx.max_i2c_msg_len c) (R82xx.use_predetect c)) (r82xx_p d)) d).

(** *** Tuner interfaces *)

Definition e4000_init : M Z :=
  _ ← st_mod (fun d => set_e4k_s (E4k.mk_e4k_state E4k.E4K_I2C_ADDR (E4k.band (e4k_s d)) (E4k.vco (e4k_s d))) d);
  _ ← store_e4k_fosc;
  on_e4k E4k.e4k_init.
Definition e4000_exit : M Z := on_e4k (E4k.e4k_standby true).
Definition e4000_set_freq (f : Z) : M Z := on_e4k (E4k.e4k_tune_freq f).
Definition e4000_set_bw (b : Z) : M Z :=
  r ← on_e4k (E4k.e4k_if_filter_bw_set E4k.E4K_IF_FILTER_MIX (u32 b));
  r1 ← on_e4k (E4k.e4k_if_filter_bw_set E4k.E4K_IF_FILTER_RC (u32 b));
  r2 ← on_e4k (E4k.e4k_if_filter_bw_set E4k.E4K_IF_FILTER_CHAN (u32 b));
  mret (r |' r1 |' r2).
Definition e4000_set_gain (g : Z) : M Z :=
  let mixgain := if 340 <? g then 12 else 4 in
  r ← on_e4k (E4k.e4k_set_lna_gain (Z.min 300 (g - mixgain * 10)));
  if r =? - EINVAL then mret (-1)
  else
    r ← on_e4k (E4k.e4k_mixer_gain_set mixgain);
    if r =? - EINVAL then mret (-1) else mret 0.
Definition e4000_set_if_gain (stage g : Z) : M Z :=
  on_e4k (E4k.e4k_if_gain_set (u8 stage) (s8 (g ÷ 10))).
Definition e4000_set_gain_mode (manual : Z) : M Z := on_e4k (E4k.e4k_enable_manual_gain (negb (u8 manual =? 0))).

Definition fc0012_set_freq (f : Z) : M Z :=
  _ ← on_core (rtlsdr_set_gpio_bit 6 (if 300000000 <? f then 1 else 0));
  on_core (Fc0012.fc0012_set_params f 6000000).
Definition fc0013_set_freq (f : Z) : M Z := on_core (Fc0013.fc0013_set_params f 6000000).
Definition fc2580_set_bw (b : Z) : M Z := on_core (Fc2580.fc2580_SetBandwidthMode 1).

Definition r820t_init : M Z :=
  d ← st_get;
  let '(addr, chip) :=
    if decide (tuner_type d = RTLSDR_TUNER_R828D) then (R82xx.R828D_I2C_ADDR, R82xx.CHIP_R828D)
    else (R82xx.R820T_I2C_ADDR, R82xx.CHIP_R820T) in
  _ ← st_mod (fun d => set_r82xx_p (set_cfg (R82xx.mk_config addr (rtlsdr_get_xtal_freq (d_core d)).2 chip 8 false)
                                      (r82xx_p d)) d);
  on_r82xx R82xx.r82xx_init.
Definition r820t_exit : M Z := on_r82xx R82xx.r82xx_standby.
Definition r820t_set_freq (f : Z) : M Z := on_r82xx (R82xx.r82xx_set_freq f).
Definition r820t_set_gain (g : Z) : M Z := on_r82xx (R82xx.r82xx_set_gain true g).
Definition r820t_set_gain_mode (manual : Z) : M Z := on_r82xx (R82xx.r82xx_set_gain (negb (manual =? 0)) 0).

(** The members of the table [tuners]; [None] is NULL. *)
Definition tuner_init (t : rtlsdr_tuner) : option (M Z) :=
  match t with
  | RTLSDR_TUNER_UNKNOWN => None
  | RTLSDR_TUNER_E4000 => Some e4000_init
  | RTLSDR_TUNER_FC0012 => Some (on_core Fc0012.fc0012_init)
  | RTLSDR_TUNER_FC0013 => Some (on_core Fc0013.fc0013_init)
  | RTLSDR_TUNER_FC2580 => Some (on_core Fc2580.fc2580_Initialize)
  | RTLSDR_TUNER_R820T | RTLSDR_TUNER_R828D => Some r820t_init
  end.
Definition tuner_exit (t : rtlsdr_tuner) : option (M Z) :=
  match t with
  | RTLSDR_TUNER_UNKNOWN => None
  | RTLSDR_TUNER_E4000 => Some e4000_exit
  | RTLSDR_TUNER_FC0012 | RTLSDR_TUNER_FC0013 | RTLSDR_TUNER_FC2580 => Some (mret 0)
  | RTLSDR_TUNER_R820T | RTLSDR_TUNER_R828D => Some r820t_exit
  end.
Definition tuner_set_freq (t : rtlsdr_tuner) : option (Z -> M Z) :=
  match t with
  | RTLSDR_TUNER_UNKNOWN => None
  | RTLSDR_TUNER_E4000 => Some e4000_set_freq
  | RTLSDR_TUNER_FC0012 => Some fc0012_set_freq
  | RTLSDR_TUNER_FC0013 => Some fc0013_set_freq
  | RTLSDR_TUNER_FC2580 => Some (fun f => on_core (Fc2580.fc2580_SetRfFreqHz f))
  | RTLSDR_TUNER_R820T | RTLSDR_TUNER_R828D => Some r820t_set_freq
  end.
Definition tuner_set_gain (t : rtlsdr_tuner) : option (Z -> M Z) :=
  match t with
  | RTLSDR_TUNER_UNKNOWN => None
  | RTLSDR_TUNER_E4000 => Some e4000_set_gain
  | RTLSDR_TUNER_FC0012 => Some (fun g => on_core (Fc0012.fc0012_set_gain g))
  | RTLSDR_TUNER_FC0013 => Some (fun g => on_core (Fc0013.fc0013_set_lna_gain g))
  | RTLSDR_TUNER_FC2580 => Some (fun _ => mret 0)
  | RTLSDR_TUNER_R820T | RTLSDR_TUNER_R828D => Some r820t_set_gain
  end.
Definition tuner_set_if_gain (t : rtlsdr_tuner) : option (Z -> Z -> M Z) :=
  match t with RTLSDR_TUNER_E4000 => Some e4000_set_if_gain | _ => None end.
Definition tuner_set_gain_mode (t : rtlsdr_tuner) : option (Z -> M Z) :=
  match t with
  | RTLSDR_TUNER_UNKNOWN => None
  | RTLSDR_TUNER_E4000 => Some e4000_set_gain_mode
  | RTLSDR_TUNER_FC0012 => Some (fun _ => mret 0)
  | RTLSDR_TUNER_FC0013 => Some (fun manual => on_core (Fc0013.fc0013_set_gain_mode (negb (manual =? 0))))
  | RTLSDR_TUNER_FC2580 => Some (fun _ => mret 0)
  | RTLSDR_TUNER_R820T | RTLSDR_TUNER_R828D => Some r820t_set_gain_mode
  end.

(** [dev->tuner && dev->tuner->member]. *)
Definition member {A} (d : rtlsdr_dev U) (f : rtlsdr_tuner -> option A) : option A :=
  match tuner d with Some t => f t | None => None end.

(** A call of the tuner with the repeater on. *)
Definition with_repeater {A} (m : M A) : M A :=
  _ ← on_core (rtlsdr_set_i2c_repeater true);
  r ← m;
  _ ← on_core (rtlsdr_set_i2c_repeater false);
  mret r.

Definition rtlsdr_set_center_freq (f : Z) : M Z :=
  d ← st_get;
  match tuner d with
  | None => mret (-1)
  | Some t =>
      r ← (if negb (direct_sampling d =? 0) then on_core (rtlsdr_set_if_freq f)
           else match tuner_set_freq t with
                | Some set => with_repeater (set (u32 (f - offs_freq d)))
                | None => mret (-1)
                end);
      _ ← st_mod (set_freq (if r =? 0 then f else 0));
      mret r
  end.

Definition r820t_set_bw (b : Z) : M Z :=
  d ← st_get;
  r ← on_r82xx (R82xx.r82xx_set_bandwidth b (rate d));
  if r <? 0 then mret r
  else
    r ← on_core (rtlsdr_set_if_freq (u32 r));
    if negb (r =? 0) then mret r
    else d ← st_get; rtlsdr_set_center_freq (freq d).

Definition tuner_set_bw (t : rtlsdr_tuner) : option (Z -> M Z) :=
  match t with
  | RTLSDR_TUNER_UNKNOWN => None
  | RTLSDR_TUNER_E4000 => Some e4000_set_bw
  | RTLSDR_TUNER_FC0012 | RTLSDR_TUNER_FC0013 => Some (fun _ => mret 0)
  | RTLSDR_TUNER_FC2580 => Some fc2580_set_bw
  | RTLSDR_TUNER_R820T | RTLSDR_TUNER_R828D => Some r820t_set_bw
  end.

(** *** The library functions *)

Definition rtlsdr_set_offset_tuning (on : bool) : M Z :=
  d ← st_get;
  if bool_decide (tuner_type d = RTLSDR_TUNER_R820T) || bool_decide (tuner_type d = RTLSDR_TUNER_R828D)
  then mret (-2)
  else if negb (direct_sampling d =? 0) then mret (-3)
  else
    _ ← st_mod (set_offs_freq (if on then u32 (rate d / 2 * 170) / 100 else 0));
    d ← st_get;
    r ← on_core (rtlsdr_set_if_freq (offs_freq d));
    d ← st_get;
    _ ← (match member d tuner_set_bw with
         | Some set =>
             with_repeater
               (d ← st_get;
                let b := if on then u32 (2 * offs_freq d) else if 0 <? bw d then bw d else rate d in
                _ ← set (s32 b); mret tt)
         | None => mret tt
         end);
    d ← st_get;
    if offs_freq d <? freq d
    then r1 ← rtlsdr_set_center_freq (freq d); mret (r |' r1)
    else mret r.

Definition rtlsdr_set_sample_rate (samp_rate : Z) : M Z :=
  d ← st_get;
  if rate_refused samp_rate then mret (- EINVAL)
  else
    let ratio := rsamp_ratio (rtl_xtal (d_core d)) samp_rate in
    _ ← st_mod (set_rate (u32 (f_trunc (real_rate (rtl_xtal (d_core d)) ratio))));
    d ← st_get;
    _ ← (match member d tuner_set_bw with
         | Some set =>
             with_repeater
               (d ← st_get; _ ← set (s32 (if 0 <? bw d then bw d else rate d)); mret tt)
         | None => mret tt
         end);
    r1 ← on_core (rtlsdr_demod_write_reg 1 0x9f (u16 (ratio >>' 16)) 2);
    r2 ← on_core (rtlsdr_demod_write_reg 1 0xa1 (ratio &' 0xffff) 2);
    d ← st_get;
    r3 ← on_core (rtlsdr_set_sample_freq_correction (corr (d_core d)));
    r4 ← on_core (rtlsdr_demod_write_reg 1 0x01 0x14 1);
    r5 ← on_core (rtlsdr_demod_write_reg 1 0x01 0x10 1);
    d ← st_get;
    _ ← (if negb (offs_freq d =? 0) then _ ← rtlsdr_set_offset_tuning true; mret tt else mret tt);
    mret (r1 |' r2 |' r3 |' r4 |' r5).

(** The second half of [rtlsdr_set_xtal_freq]; [r] is the result so far. *)
Definition set_tuner_xtal (tuner_freq r : Z) : M Z :=
  d ← st_get;
  if tun_xtal (d_core d) =? tuner_freq then mret r
  else
    _ ← st_mod (fun d => set_core (set_tun_xtal (if 0 =? tuner_freq then rtl_xtal (d_core d) else tuner_freq)
                                     (d_core d)) d);
    _ ← store_e4k_fosc;
    _ ← store_r82xx_xtal;
    d ← st_get;
    if negb (freq d =? 0) then rtlsdr_set_center_freq (freq d) else mret r.

Definition rtlsdr_set_xtal_freq (rtl_freq tuner_freq : Z) : M Z :=
  if (0 <? rtl_freq) && ((rtl_freq <? MIN_RTL_XTAL_FREQ) || (MAX_RTL_XTAL_FREQ <? rtl_freq)) then mret (-2)
  else
    d ← st_get;
    r ← (if (0 <? rtl_freq) && negb (rtl_xtal (d_core d) =? rtl_freq)
         then
           _ ← st_mod (fun d => set_core (set_rtl_xtal rtl_freq (d_core d)) d);
           d ← st_get;
           if negb (rate d =? 0) then rtlsdr_set_sample_rate (rate d) else mret 0
         else mret 0);
    set_tuner_xtal tuner_freq r.

Definition rtlsdr_set_freq_correction (ppm : Z) : M Z :=
  d ← st_get;
  if corr (d_core d) =? ppm then mret (-2)
  else
    _ ← st_mod (fun d => set_core (set_corr ppm (d_core d)) d);
    r ← on_core (rtlsdr_set_sample_freq_correction ppm);
    _ ← store_e4k_fosc;
    _ ← store_r82xx_xtal;
    d ← st_get;
    if negb (freq d =? 0) then r1 ← rtlsdr_set_center_freq (freq d); mret (r |' r1) else mret r.

Definition rtlsdr_set_tuner_bandwidth (b : Z) : M Z :=
  d ← st_get;
  match tuner d with
  | None => mret (-1)
  | Some t =>
      match tuner_set_bw t with
      | None => mret 0
      | Some set =>
          r ← with_repeater (d ← st_get; set (s32 (if 0 <? b then b else rate d)));
          if negb (r =? 0) then mret r
          else _ ← st_mod (set_bw b); mret r
      end
  end.

Definition rtlsdr_set_tuner_gain (g : Z) : M Z :=
  d ← st_get;
  match tuner d with
  | None => mret (-1)
  | Some t =>
      r ← (match tuner_set_gain t with Some set => with_repeater (set g) | None => mret 0 end);
      _ ← st_mod (set_gain (if r =? 0 then g else 0));
      mret r
  end.

Definition rtlsdr_set_tuner_if_gain (stage g : Z) : M Z :=
  d ← st_get;
  match tuner d with
  | None => mret (-1)
  | Some t => match tuner_set_if_gain t with Some set => with_repeater (set stage g) | None => mret 0 end
  end.

Definition rtlsdr_set_tuner_gain_mode (mode : Z) : M Z :=
  d ← st_get;
  match tuner d with
  | None => mret (-1)
  | Some t => match tuner_set_gain_mode t with Some set => with_repeater (set mode) | None => mret 0 end
  end.

Definition rtlsdr_set_testmode (on : bool) : M Z :=
  on_core (rtlsdr_demod_write_reg 0 0x19 (if on then 0x03 else 0x05) 1).
Definition rtlsdr_set_agc_mode (on : bool) : M Z :=
  on_core (rtlsdr_demod_write_reg 0 0x19 (if on then 0x25 else 0x05) 1).

(** The two branches of [rtlsdr_set_direct_sampling]. *)
Definition direct_sampling_on (on : Z) : M Z :=
  d ← st_get;
  r ← (match member d tuner_exit with Some exit => with_repeater exit | None => mret 0 end);
  r1 ← on_core (rtlsdr_demod_write_reg 1 0xb1 0x1a 1);
  r2 ← on_core (rtlsdr_demod_write_reg 1 0x15 0x00 1);
  r3 ← on_core (rtlsdr_demod_write_reg 0 0x08 0x4d 1);
  r4 ← on_core (rtlsdr_demod_write_reg 0 0x06 (if 1 <? on then 0x90 else 0x80) 1);
  _ ← st_mod (put_direct_sampling on);
  mret (r |' r1 |' r2 |' r3 |' r4).

Definition direct_sampling_off : M Z :=
  d ← st_get;
  r ← (match member d tuner_init with Some init => with_repeater init | None => mret 0 end);
  d ← st_get;
  r1 ← (if bool_decide (tuner_type d = RTLSDR_TUNER_R820T) || bool_decide (tuner_type d = RTLSDR_TUNER_R828D)
        then
          r1 ← on_core (rtlsdr_set_if_freq R82XX_IF_FREQ);
          r2 ← on_core (rtlsdr_demod_write_reg 1 0x15 0x01 1);
          mret (r1 |' r2)
        else
          r1 ← on_core (rtlsdr_set_if_freq 0);
          r2 ← on_core (rtlsdr_demod_write_reg 0 0x08 0xcd 1);
          r3 ← on_core (rtlsdr_demod_write_reg 1 0xb1 0x1b 1);
          mret (r1 |' r2 |' r3));
  r2 ← on_core (rtlsdr_demod_write_reg 0 0x06 0x80 1);
  _ ← st_mod (put_direct_sampling 0);
  mret (r |' r1 |' r2).

Definition rtlsdr_set_direct_sampling (on : Z) : M Z :=
  r ← (if negb (on =? 0) then direct_sampling_on on else direct_sampling_off);
  d ← st_get;
  r1 ← rtlsdr_set_center_freq (freq d);
  mret (r |' r1).

Definition rtlsdr_deinit_baseband : M Z :=
  d ← st_get;
  r ← (match member d tuner_exit with Some exit => with_repeater exit | None => mret 0 end);
  _ ← on_core (rtlsdr_write_reg SYSB DEMOD_CTL 0x20 1);
  mret r.

(** *** Queries *)

Definition rtlsdr_get_tuner_gains (d : rtlsdr_dev U) : list Z :=
  match tuner_type d with
  | RTLSDR_TUNER_E4000 => [-10; 15; 40; 65; 90; 115; 140; 165; 190; 215; 240; 290; 340; 420]
  | RTLSDR_TUNER_FC0012 => [-99; -40; 71; 179; 192]
  | RTLSDR_TUNER_FC0013 =>
      [-99; -73; -65; -63; -60; -58; -54; 58; 61; 63; 65; 67; 68; 70; 71; 179; 181; 182; 184; 186; 188; 191; 197]
  | RTLSDR_TUNER_FC2580 => [0]
  | RTLSDR_TUNER_R820T | RTLSDR_TUNER_R828D =>
      [0; 9; 14; 27; 37; 77; 87; 125; 144; 157; 166; 197; 207; 229; 254; 280; 297; 328; 338; 364; 372; 386; 402;
       421; 434; 439; 445; 480; 496]
  | RTLSDR_TUNER_UNKNOWN => [0]
  end.

Definition rtlsdr_get_offset_tuning (d : rtlsdr_dev U) : Z := if offs_freq d =? 0 then 0 else 1.

End Device.
End Librtlsdr.
