(* ===== verification/TunerInv.v ===== *)
(** * What the tuner drivers leave alone

    A predicate on the device that every message on the bus keeps is kept by every function
    of the five tuner drivers, on every path; the drivers also keep their configuration (the
    clock and the address they were given).  These are the facts the library's theorems use
    about the drivers. *)

From S2P Require Import Prelude I2c TunerR82xx TunerFc TunerE4k TunerFc2580.

(** Every function of the interface keeps [P]. *)
Class BusInv {D : Type} `{I2c D} (P : D -> Prop) := {
  inv_i2c_write addr msg : inv P (rtlsdr_i2c_write_fn addr msg);
  inv_i2c_read addr len : inv P (rtlsdr_i2c_read_fn addr len);
  inv_gpio gpio on : inv P (rtlsdr_set_bias_tee_gpio gpio on);
}.

#[export] Hint Resolve inv_i2c_write inv_i2c_read inv_gpio : inv.

Section Fc.
Context {D : Type} `{I2c D} {P : D -> Prop} `{!BusInv P}.
Import Fc0012 Fc0013 Fc2580.

Lemma inv_fc0012_writereg reg v : inv P (fc0012_writereg reg v).
Proof. unfold fc0012_writereg. inv_go. Qed.
Lemma inv_fc0012_readreg reg v : inv P (fc0012_readreg reg v).
Proof. unfold fc0012_readreg. inv_go. Qed.
Hint Resolve inv_fc0012_writereg inv_fc0012_readreg : inv.
Lemma inv_fc0012_write_regs l : forall i, inv P (fc0012_write_regs i l).
Proof. induction l; intros i; cbn [fc0012_write_regs]; inv_go. Qed.
Hint Resolve inv_fc0012_write_regs : inv.
Lemma inv_fc0012_init : inv P fc0012_init.
Proof. unfold fc0012_init. inv_go. Qed.
Lemma inv_fc0012_reselect r6 : inv P (fc0012_vco_reselect r6).
Proof. unfold fc0012_vco_reselect. inv_go. Qed.
Hint Resolve inv_fc0012_reselect : inv.
Lemma inv_fc0012_set_params f b : inv P (fc0012_set_params f b).
Proof. unfold fc0012_set_params. inv_go. Qed.
Lemma inv_fc0012_set_gain g : inv P (fc0012_set_gain g).
Proof. unfold fc0012_set_gain. inv_go. Qed.

Lemma inv_fc0013_writereg reg v : inv P (fc0013_writereg reg v).
Proof. unfold fc0013_writereg. inv_go. Qed.
Lemma inv_fc0013_readreg reg v : inv P (fc0013_readreg reg v).
Proof. unfold fc0013_readreg. inv_go. Qed.
Hint Resolve inv_fc0013_writereg inv_fc0013_readreg : inv.
Lemma inv_fc0013_read_then reg k : (forall x, inv P (k x)) -> inv P (fc0013_read_then reg k).
Proof. intros Hk. unfold fc0013_read_then. inv_go. Qed.
Hint Extern 2 (inv _ (fc0013_read_then _ _)) => apply inv_fc0013_read_then; inv_go : inv.
Lemma inv_fc0013_write_regs l : forall i, inv P (fc0013_write_regs i l).
Proof. induction l; intros i; cbn [fc0013_write_regs]; inv_go. Qed.
Hint Resolve inv_fc0013_write_regs : inv.
Lemma inv_fc0013_init : inv P fc0013_init.
Proof. unfold fc0013_init. inv_go. Qed.
Lemma inv_fc0013_reselect r6 : inv P (fc0013_vco_reselect r6).
Proof. unfold fc0013_vco_reselect. inv_go. Qed.
Lemma inv_fc0013_track f : inv P (fc0013_set_vhf_track f).
Proof. unfold fc0013_set_vhf_track. inv_go. Qed.
Lemma inv_fc0013_filters f : inv P (fc0013_select_filters f).
Proof. unfold fc0013_select_filters. inv_go. Qed.
Hint Resolve inv_fc0013_reselect inv_fc0013_track inv_fc0013_filters : inv.
Lemma inv_fc0013_set_params f b : inv P (fc0013_set_params f b).
Proof. unfold fc0013_set_params. inv_go. Qed.
Lemma inv_fc0013_gain_mode m : inv P (fc0013_set_gain_mode m).
Proof. unfold fc0013_set_gain_mode. inv_go. Qed.
Lemma inv_fc0013_lna_gain g : inv P (fc0013_set_lna_gain g).
Proof. unfold fc0013_set_lna_gain. inv_go. Qed.

Lemma inv_fc2580_write reg v : inv P (fc2580_i2c_write reg v).
Proof. unfold fc2580_i2c_write. inv_go. Qed.
Lemma inv_fc2580_read reg v : inv P (fc2580_i2c_read reg v).
Proof. unfold fc2580_i2c_read. inv_go. Qed.
Hint Resolve inv_fc2580_write inv_fc2580_read : inv.
Lemma inv_write_list l : forall r k, (forall x, inv P (k x)) -> inv P (write_list l r k).
Proof. induction l as [|[]]; intros r k Hk; cbn [write_list]; unfold andr; inv_go. Qed.
Lemma inv_cal_loop n : forall c r k, (forall x, inv P (k x)) -> inv P (cal_loop n c r k).
Proof.
  induction n; intros c r k Hk; cbn [cal_loop]; inv_go.
  apply inv_write_list. intros. by apply IHn.
Qed.
Lemma inv_fc2580_set_filter b x : inv P (fc2580_set_filter b x).
Proof.
  unfold fc2580_set_filter. apply inv_write_list. intros. apply inv_cal_loop. intros.
  apply inv_write_list. intros. inv_go.
Qed.
Hint Resolve inv_fc2580_set_filter : inv.
Lemma inv_andr r m k : inv P m -> (forall x, inv P (k x)) -> inv P (andr r m k).
Proof. intros. unfold andr. inv_go. Qed.
Lemma inv_fc2580_init : inv P fc2580_Initialize.
Proof.
  unfold fc2580_Initialize, fc2580_set_init. inv_go.
  apply inv_write_list. intros. apply inv_andr; inv_go.
Qed.
Lemma inv_fc2580_freq f : inv P (fc2580_SetRfFreqHz f).
Proof.
  unfold fc2580_SetRfFreqHz, fc2580_set_freq. apply inv_bind; [|inv_go].
  destruct (band_for _); cbn [set_band_regs]; apply inv_write_list; intros; [| | |inv_go];
    (apply inv_andr; [inv_go|]; intros; apply inv_write_list; inv_go).
Qed.
Lemma inv_fc2580_bw b : inv P (fc2580_SetBandwidthMode b).
Proof. unfold fc2580_SetBandwidthMode. inv_go. Qed.
End Fc.
#[export] Hint Resolve inv_fc0012_init inv_fc0012_set_params inv_fc0012_set_gain inv_fc0013_init
  inv_fc0013_set_params inv_fc0013_gain_mode inv_fc0013_lna_gain inv_fc2580_init inv_fc2580_freq inv_fc2580_bw : inv.

Section E4000.
Context {D : Type} `{I2c D} {P : D -> Prop} `{!BusInv P} (fo addr : Z).
Import E4k.

(** [P] on the device, and the clock and the address of the driver. *)
Definition e4k_inv (s : e4k D) : Prop :=
  P (dev_of s) /\ fosc (vco (st_of s)) = fo /\ i2c_addr (st_of s) = addr.

Lemma inv_get_e4k : inv e4k_inv get_e4k.
Proof. by intros s. Qed.
Lemma inv_e4k_on_dev {A} (m : st D A) : inv P m -> inv e4k_inv (e4k_on_dev m).
Proof.
  intros Hm s (H1&H2). unfold e4k_on_dev. specialize (Hm _ H1). destruct (m (dev_of s)). by split.
Qed.
Lemma inv_mod_band b : inv e4k_inv (mod_e4k (set_band b)).
Proof. by intros s. Qed.
Lemma inv_mod_vco p : fosc p = fo -> inv e4k_inv (mod_e4k (set_vco p)).
Proof. intros Hp s (H1&H2&H3). done. Qed.
Hint Resolve inv_get_e4k inv_mod_band : inv.
Hint Extern 1 (inv _ (e4k_on_dev _)) => apply inv_e4k_on_dev; solve [eauto with inv nocore] : inv.

Lemma inv_e4k_write reg v : inv e4k_inv (e4k_reg_write reg v).
Proof. unfold e4k_reg_write. inv_go. Qed.
Lemma inv_e4k_read reg : inv e4k_inv (e4k_reg_read reg).
Proof. unfold e4k_reg_read. inv_go. Qed.
Hint Resolve inv_e4k_write inv_e4k_read : inv.
Lemma inv_e4k_mask reg m v : inv e4k_inv (e4k_reg_set_mask reg m v).
Proof. unfold e4k_reg_set_mask. inv_go. Qed.
Hint Resolve inv_e4k_mask : inv.
Lemma inv_e4k_field f v : inv e4k_inv (e4k_field_write f v).
Proof. unfold e4k_field_write. inv_go. Qed.
Hint Resolve inv_e4k_field : inv.
Lemma inv_e4k_filter_bw f b : inv e4k_inv (e4k_if_filter_bw_set f b).
Proof. unfold e4k_if_filter_bw_set. inv_go. Qed.
Lemma inv_e4k_chan on : inv e4k_inv (e4k_if_filter_chan_enable on).
Proof. unfold e4k_if_filter_chan_enable. inv_go. Qed.
Lemma inv_e4k_band b : inv e4k_inv (e4k_band_set b).
Proof. unfold e4k_band_set. inv_go. Qed.
Lemma inv_e4k_rf : inv e4k_inv e4k_rf_filter_set.
Proof. unfold e4k_rf_filter_set. inv_go. Qed.
Lemma inv_e4k_if_gain s v : inv e4k_inv (e4k_if_gain_set s v).
Proof. unfold e4k_if_gain_set. inv_go. Qed.
Lemma inv_e4k_mixer v : inv e4k_inv (e4k_mixer_gain_set v).
Proof. unfold e4k_mixer_gain_set. inv_go. Qed.
Lemma inv_e4k_lna g : inv e4k_inv (e4k_set_lna_gain g).
Proof. unfold e4k_set_lna_gain. inv_go. Qed.
Lemma inv_e4k_manual m : inv e4k_inv (e4k_enable_manual_gain m).
Proof. unfold e4k_enable_manual_gain. inv_go. Qed.
Lemma inv_e4k_standby b : inv e4k_inv (e4k_standby b).
Proof. unfold e4k_standby. inv_go. Qed.
Lemma inv_e4k_magic : inv e4k_inv magic_init.
Proof. unfold magic_init. inv_go. Qed.
Hint Resolve inv_e4k_filter_bw inv_e4k_chan inv_e4k_band inv_e4k_rf inv_e4k_if_gain inv_e4k_manual inv_e4k_magic : inv.
Lemma inv_e4k_init : inv e4k_inv e4k_init.
Proof. unfold e4k_init. inv_go. Qed.

Lemma compute_pll_fosc f rc p : e4k_compute_pll_params fo f = Some (rc, p) -> fosc p = fo.
Proof.
  unfold e4k_compute_pll_params. destruct (negb _); [done|].
  destruct (pll_select pll_vars f) as [[? ?] ?]. intros [= <- <-]. done.
Qed.
Lemma inv_e4k_tune f : inv e4k_inv (e4k_tune_freq f).
Proof.
  intros s Hs. unfold e4k_tune_freq. rewrite st_bind_eq. cbn [get_e4k].
  destruct (e4k_compute_pll_params (fosc (vco (st_of s))) f) as [[rc p]|] eqn:E; [|done].
  destruct Hs as (H1&H2&H3). rewrite H2 in E. apply compute_pll_fosc in E.
  destruct (rc =? 0); [done|]. unshelve eapply (_ : inv e4k_inv _); [|done].
  unfold e4k_tune_params. inv_go. by apply inv_mod_vco.
Qed.
End E4000.
#[export] Hint Resolve inv_e4k_filter_bw inv_e4k_if_gain inv_e4k_mixer inv_e4k_lna inv_e4k_manual inv_e4k_standby
  inv_e4k_init inv_e4k_tune : inv.

Section R820T.
Context {D : Type} `{I2c D} {P : D -> Prop} `{!BusInv P} (c : R82xx.r82xx_config).
Import R82xx.

(** [P] on the device, and the configuration of the driver. *)
Definition r82xx_inv (s : r82xx D) : Prop := P (dev s) /\ cfg (priv s) = c.

Lemma inv_get_priv : inv r82xx_inv get_priv.
Proof. by intros s. Qed.
Lemma inv_r82xx_on_dev {A} (m : st D A) : inv P m -> inv r82xx_inv (on_dev m).
Proof. intros Hm s (H1&H2). unfold on_dev. specialize (Hm _ H1). destruct (m (dev s)). by split. Qed.
Lemma inv_mod_priv f : (forall p, cfg (f p) = cfg p) -> inv r82xx_inv (mod_priv f).
Proof. intros Hf s (H1&H2). split; [done|]. cbn. by rewrite Hf. Qed.
Hint Resolve inv_get_priv : inv.
Hint Extern 1 (inv _ (on_dev _)) => apply inv_r82xx_on_dev; solve [eauto with inv nocore] : inv.
Hint Extern 1 (inv _ (mod_priv _)) => apply inv_mod_priv; intros []; cbn; repeat case_match; reflexivity : inv.

Lemma inv_write_loop n : forall reg l, inv r82xx_inv (write_loop n reg l).
Proof. induction n; intros reg l; cbn [write_loop]; inv_go. Qed.
Hint Resolve inv_write_loop : inv.
Lemma inv_r82xx_write reg l : inv r82xx_inv (r82xx_write reg l).
Proof. unfold r82xx_write. generalize (S (length l)) as n. intros. inv_go. Qed.
Hint Resolve inv_r82xx_write : inv.
Lemma inv_write_reg reg v : inv r82xx_inv (r82xx_write_reg reg v).
Proof. unfold r82xx_write_reg. inv_go. Qed.
Lemma inv_write_mask reg v m : inv r82xx_inv (r82xx_write_reg_mask reg v m).
Proof. unfold r82xx_write_reg_mask. inv_go. Qed.
Lemma inv_r82xx_read reg n : inv r82xx_inv (r82xx_read reg n).
Proof. unfold r82xx_read. inv_go. Qed.
Hint Resolve inv_write_reg inv_write_mask inv_r82xx_read : inv.
Lemma inv_read_chk reg n k : (forall x, inv r82xx_inv (k x)) -> inv r82xx_inv (read_chk reg n k).
Proof. intros Hk. unfold read_chk. inv_go. Qed.
Hint Extern 2 (inv _ (read_chk _ _ _)) => apply inv_read_chk; inv_go : inv.

Lemma inv_set_mux f : inv r82xx_inv (r82xx_set_mux f).
Proof. unfold r82xx_set_mux. inv_go. Qed.
Lemma inv_pll_lock : inv r82xx_inv pll_lock.
Proof. unfold pll_lock. inv_go. Qed.
Hint Resolve inv_set_mux inv_pll_lock : inv.
Lemma inv_set_pll f : inv r82xx_inv (r82xx_set_pll f).
Proof. unfold r82xx_set_pll. inv_go. Qed.
Hint Resolve inv_set_pll : inv.
Lemma inv_sysfreq_sel f t ds : inv r82xx_inv (r82xx_sysfreq_sel f t ds).
Proof. unfold r82xx_sysfreq_sel. generalize (sysfreq_of ds f). inv_go. Qed.
Lemma inv_tv_filters b t ds : inv r82xx_inv (tv_standard_filters b t ds).
Proof. unfold tv_standard_filters. inv_go. Qed.
Hint Resolve inv_sysfreq_sel inv_tv_filters : inv.
Lemma inv_calibrate n k : inv r82xx_inv k -> inv r82xx_inv (calibrate n k).
Proof. intros Hk. induction n; cbn [calibrate]; inv_go. Qed.
Lemma inv_tv_standard b t ds : inv r82xx_inv (r82xx_set_tv_standard b t ds).
Proof.
  unfold r82xx_set_tv_standard. generalize r82xx_init_array. intros l.
  inv_go. intros _. apply inv_calibrate. inv_go.
Qed.
Hint Resolve inv_tv_standard : inv.
Lemma inv_r82xx_set_gain b g : inv r82xx_inv (r82xx_set_gain b g).
Proof. unfold r82xx_set_gain. generalize (gain_loop 15 g 0 0 0). inv_go. Qed.
Lemma inv_r82xx_set_bandwidth b r : inv r82xx_inv (r82xx_set_bandwidth b r).
Proof. unfold r82xx_set_bandwidth. inv_go. Qed.
Lemma inv_v4_inputs f : inv r82xx_inv (v4_inputs f).
Proof. unfold v4_inputs. inv_go. Qed.
Lemma inv_standard_inputs f : inv r82xx_inv (standard_inputs f).
Proof. unfold standard_inputs. inv_go. Qed.
Hint Resolve inv_v4_inputs inv_standard_inputs : inv.
Lemma inv_r82xx_set_freq f : inv r82xx_inv (r82xx_set_freq f).
Proof. unfold r82xx_set_freq. inv_go. Qed.
Lemma inv_r82xx_standby : inv r82xx_inv r82xx_standby.
Proof. unfold r82xx_standby. inv_go. Qed.
Lemma inv_r82xx_init : inv r82xx_inv r82xx_init.
Proof. unfold r82xx_init. generalize r82xx_init_array. inv_go. Qed.
End R820T.
#[export] Hint Resolve inv_r82xx_set_gain inv_r82xx_set_bandwidth inv_r82xx_set_freq inv_r82xx_standby inv_r82xx_init : inv.
