(* ===== verification/LibrtlsdrOpen.v ===== *)
(** * Finding, opening and closing a device ([src/src/librtlsdr.c], lines 300 to 352, 780 to
    819 and 1282 to 1752)

    [Class LibusbHost] is what the library uses of libusb to find and to open a device: the
    attached devices are a list of vendor and product numbers, and a device is opened by its
    place in that list.  [Module LibrtlsdrOpen] has the enumeration functions and
    [rtlsdr_open] with its error paths and the probing of the tuners.

    The theorems: all functions that take a device index select the same device. *)

From S2P Require Import Prelude Float I2c Usb TunerR82xx TunerFc TunerE4k TunerFc2580 Librtlsdr.

Class LibusbHost (U : Type) := {
  libusb_init : st U Z;
  libusb_exit : st U unit;
  libusb_get_device_list : U -> list (Z * Z);
  libusb_free_device_list : st U unit;
  libusb_open : nat -> st U Z;
  libusb_close : st U unit;
  libusb_kernel_driver_active : st U Z;
  libusb_detach_kernel_driver : st U Z;
  libusb_attach_kernel_driver : st U Z;
  libusb_claim_interface : st U Z;
  libusb_release_interface : st U Z;
  libusb_reset_device : st U Z;
  (** Of the open device: the result of reading the descriptor, and its strings. *)
  libusb_get_device_descriptor : st U Z;
  libusb_get_string_descriptor_ascii : Z -> st U string;
}.

Module LibrtlsdrOpen.
Import Usb Librtlsdr.

(** Vendor, product, name. *)
Definition known_devices : list (Z * Z * string) :=
  [(0x0bda, 0x2832, "Generic RTL2832U");
   (0x0bda, 0x2838, "Generic RTL2832U OEM");
   (0x0413, 0x6680, "DigitalNow Quad DVB-T PCI-E card");
   (0x0413, 0x6f0f, "Leadtek WinFast DTV Dongle mini D");
   (0x0458, 0x707f, "Genius TVGo DVB-T03 USB dongle (Ver. B)");
   (0x0ccd, 0x00a9, "Terratec Cinergy T Stick Black (rev 1)");
   (0x0ccd, 0x00b3, "Terratec NOXON DAB/DAB+ USB dongle (rev 1)");
   (0x0ccd, 0x00b4, "Terratec Deutschlandradio DAB Stick");
   (0x0ccd, 0x00b5, "Terratec NOXON DAB Stick - Radio Energy");
   (0x0ccd, 0x00b7, "Terratec Media Broadcast DAB Stick");
   (0x0ccd, 0x00b8, "Terratec BR DAB Stick");
   (0x0ccd, 0x00b9, "Terratec WDR DAB Stick");
   (0x0ccd, 0x00c0, "Terratec MuellerVerlag DAB Stick");
   (0x0ccd, 0x00c6, "Terratec Fraunhofer DAB Stick");
   (0x0ccd, 0x00d3, "Terratec Cinergy T Stick RC (Rev.3)");
   (0x0ccd, 0x00d7, "Terratec T Stick PLUS");
   (0x0ccd, 0x00e0, "Terratec NOXON DAB/DAB+ USB dongle (rev 2)");
   (0x1554, 0x5020, "PixelView PV-DT235U(RN)");
   (0x15f4, 0x0131, "Astrometa DVB-T/DVB-T2");
   (0x15f4, 0x0133, "HanfTek DAB+FM+DVB-T");
   (0x185b, 0x0620, "Compro Videomate U620F");
   (0x185b, 0x0650, "Compro Videomate U650F");
   (0x185b, 0x0680, "Compro Videomate U680F");
   (0x1b80, 0xd393, "GIGABYTE GT-U7300");
   (0x1b80, 0xd394, "DIKOM USB-DVBT HD");
   (0x1b80, 0xd395, "Peak 102569AGPK");
   (0x1b80, 0xd397, "KWorld KW-UB450-T USB DVB-T Pico TV");
   (0x1b80, 0xd398, "Zaapa ZT-MINDVBZP");
   (0x1b80, 0xd39d, "SVEON STV20 DVB-T USB & FM");
   (0x1b80, 0xd3a4, "Twintech UT-40");
   (0x1b80, 0xd3a8, "ASUS U3100MINI_PLUS_V2");
   (0x1b80, 0xd3af, "SVEON STV27 DVB-T USB & FM");
   (0x1b80, 0xd3b0, "SVEON STV21 DVB-T USB & FM");
   (0x1d19, 0x1101, "Dexatek DK DVB-T Dongle (Logilink VG0002A)");
   (0x1d19, 0x1102, "Dexatek DK DVB-T Dongle (MSI DigiVox mini II V3.0)");
   (0x1d19, 0x1103, "Dexatek Technology Ltd. DK 5217 DVB-T Dongle");
   (0x1d19, 0x1104, "MSI DigiVox Micro HD");
   (0x1f4d, 0xa803, "Sweex DVB-T USB");
   (0x1f4d, 0xb803, "GTek T803");
   (0x1f4d, 0xc803, "Lifeview LV5TDeluxe");
   (0x1f4d, 0xd286, "MyGica TD312");
   (0x1f4d, 0xd803, "PROlectrix DV107669")].

Abbreviation R828D_XTAL_FREQ := (16000000)%Z (only parsing).
Abbreviation R82XX_CHECK_ADDR := (0x00)%Z (only parsing).
Abbreviation R82XX_CHECK_VAL := (0x69)%Z (only parsing).
Definition ENOMEM : Z := 12.

Fixpoint find_in (l : list (Z * Z * string)) (vid pid : Z) : option string :=
  match l with
  | [] => None
  | (v, p, name) :: l => if (v =? vid) && (p =? pid) then Some name else find_in l vid pid
  end.
(** The name of the device that is found. *)
Definition find_known_device (vid pid : Z) : option string := find_in known_devices vid pid.

Section Host.
Context {U : Type} `{LibusbHost U}.

(** The strings that are asked for; the result is -1 with none of them stored. *)
Definition rtlsdr_get_usb_strings (manufact product serial : bool)
    : st U (Z * (option string * option string * option string)) :=
  r ← libusb_get_device_descriptor;
  if r <? 0 then mret (-1, (None, None, None))
  else
    m ← (if manufact then s ← libusb_get_string_descriptor_ascii 0; mret (Some s) else mret None);
    p ← (if product then s ← libusb_get_string_descriptor_ascii 1; mret (Some s) else mret None);
    s ← (if serial then s ← libusb_get_string_descriptor_ascii 2; mret (Some s) else mret None);
    mret (0, (m, p, s)).

(** *** Enumeration *)

Fixpoint count_loop (l : list (Z * Z)) (device_count : Z) : Z :=
  match l with
  | [] => device_count
  | (vid, pid) :: l =>
      count_loop l (match find_known_device vid pid with Some _ => u32 (device_count + 1) | None => device_count end)
  end.

Definition rtlsdr_get_device_count : st U Z :=
  r ← libusb_init;
  if r <? 0 then mret 0
  else
    u ← st_get;
    let device_count := count_loop (libusb_get_device_list u) 0 in
    _ ← libusb_free_device_list;
    _ ← libusb_exit;
    mret device_count.

(** The loop of [rtlsdr_get_device_name]: the variable [device] at its end. *)
Fixpoint name_loop (l : list (Z * Z)) (index device_count : Z) (device : option string) : option string :=
  match l with
  | [] => device
  | (vid, pid) :: l =>
      match find_known_device vid pid with
      | Some name =>
          let device_count := u32 (device_count + 1) in
          if index =? u32 (device_count - 1) then Some name else name_loop l index device_count (Some name)
      | None => name_loop l index device_count None
      end
  end.

Definition rtlsdr_get_device_name (index : Z) : st U string :=
  r ← libusb_init;
  if r <? 0 then mret ""%string
  else
    u ← st_get;
    let device := name_loop (libusb_get_device_list u) index 0 None in
    _ ← libusb_free_device_list;
    _ ← libusb_exit;
    mret (default ""%string device).

(** The place in the list at which the loop of [rtlsdr_get_device_usb_strings] opens. *)
Fixpoint strings_loop (l : list (Z * Z)) (i : nat) (index device_count : Z) : option nat :=
  match l with
  | [] => None
  | (vid, pid) :: l =>
      match find_known_device vid pid with
      | Some _ =>
          let device_count := u32 (device_count + 1) in
          if index =? u32 (device_count - 1) then Some i else strings_loop l (S i) index device_count
      | None => strings_loop l (S i) index device_count
      end
  end.

Definition rtlsdr_get_device_usb_strings (index : Z) (manufact product serial : bool)
    : st U (Z * (option string * option string * option string)) :=
  r ← libusb_init;
  if r <? 0 then mret (r, (None, None, None))
  else
    u ← st_get;
    res ← (match strings_loop (libusb_get_device_list u) 0 index 0 with
           | None => mret (r, (None, None, None))
           | Some i =>
               r ← libusb_open i;
               if r =? 0
               then res ← rtlsdr_get_usb_strings manufact product serial; _ ← libusb_close; mret res
               else mret (r, (None, None, None))
           end);
    _ ← libusb_free_device_list;
    _ ← libusb_exit;
    mret res.

(** [n] rounds are left. *)
Fixpoint serial_loop (n : nat) (i : Z) (serial : string) : st U Z :=
  match n with
  | O => mret (-3)
  | S n =>
      '(r, (_, _, str)) ← rtlsdr_get_device_usb_strings i false false true;
      if (r =? 0) && bool_decide (str = Some serial) then mret i else serial_loop n (i + 1) serial
  end.

Definition rtlsdr_get_index_by_serial (serial : string) : st U Z :=
  cnt ← rtlsdr_get_device_count;
  if cnt =? 0 then mret (-2) else serial_loop (Z.to_nat cnt) 0 serial.

(** The callback gets the index, the name and the strings, NULL where they are empty. *)
Definition shown (s : string) : option string := if decide (s = ""%string) then None else Some s.

Section Enumerate.
Context (cb : Z -> string -> option string -> option string -> option string -> st U Z).

Fixpoint enumerate_loop (l : list (Z * Z)) (i : nat) (device_index : Z) : st U Z :=
  match l with
  | [] => mret device_index
  | (vid, pid) :: l =>
      match find_known_device vid pid with
      | None => enumerate_loop l (S i) device_index
      | Some name =>
          r ← libusb_open i;
          '(m, p, s) ← (if r =? 0
                        then '(_, strs) ← rtlsdr_get_usb_strings true true true; _ ← libusb_close; mret strs
                        else mret (None, None, None));
          let str (o : option string) := shown (default ""%string o) in
          r ← cb device_index name (str m) (str p) (str s);
          if negb (r =? 0) then mret (device_index + 1) else enumerate_loop l (S i) (device_index + 1)
      end
  end.

Definition rtlsdr_device_enumerate : st U Z :=
  r ← libusb_init;
  if r <? 0 then mret 0
  else
    u ← st_get;
    n ← enumerate_loop (libusb_get_device_list u) 0 0;
    _ ← libusb_free_device_list;
    _ ← libusb_exit;
    mret n.
End Enumerate.

(** The search of [rtlsdr_open]: the place of the device it opens. *)
Fixpoint open_loop (l : list (Z * Z)) (i : nat) (index device_count : Z) : option nat :=
  match l with
  | [] => None
  | (vid, pid) :: l =>
      let device_count :=
        match find_known_device vid pid with Some _ => u32 (device_count + 1) | None => device_count end in
      if index =? u32 (device_count - 1) then Some i else open_loop l (S i) index device_count
  end.

End Host.

Section Opening.
Context {U : Type} `{Libusb U} `{LibusbHost U}.

Abbreviation M := (st (rtlsdr_dev U)).

Definition on_host {A} (m : st U A) : M A := on_core (on_usb m).

(** The structure after [memset] and the copy of the FIR coefficients. *)
Definition dev_zero (u : U) : rtlsdr_dev U :=
  mk_dev (mk_core u 0 0 0 "" "") 0 fir_default 0 RTLSDR_TUNER_UNKNOWN None 0 0 0 0
    (E4k.mk_e4k_state 0 E4k.E4K_BAND_VHF2 (E4k.mk_pll 0 0 0 0 0 0 0 0))
    (R82xx.mk_priv (R82xx.mk_config 0 0 R82xx.CHIP_R820T 0 false) (replicate 30 0) R82xx.XTAL_LOW_CAP_30P
       0 0 0 false false 0 0 0)
    false false.

(** [goto found] with a tuner. *)
Definition found (t : rtlsdr_tuner) : M unit := st_mod (set_tuner_type t).

Definition probe_late : M unit :=
  _ ← on_core (rtlsdr_set_gpio_output 4);
  _ ← on_core (rtlsdr_set_gpio_bit 4 1);
  _ ← on_core (rtlsdr_set_gpio_bit 4 0);
  reg ← on_core (rtlsdr_i2c_read_reg Fc2580.FC2580_I2C_ADDR Fc2580.FC2580_CHECK_ADDR);
  if reg &' 0x7f =? Fc2580.FC2580_CHECK_VAL then found RTLSDR_TUNER_FC2580
  else
    reg ← on_core (rtlsdr_i2c_read_reg Fc0012.FC0012_I2C_ADDR Fc0012.FC0012_CHECK_ADDR);
    if reg =? Fc0012.FC0012_CHECK_VAL
    then _ ← on_core (rtlsdr_set_gpio_output 6); found RTLSDR_TUNER_FC0012
    else mret tt.

Definition probe_tuners : M unit :=
  reg ← on_core (rtlsdr_i2c_read_reg E4k.E4K_I2C_ADDR E4k.E4K_CHECK_ADDR);
  if reg =? E4k.E4K_CHECK_VAL then found RTLSDR_TUNER_E4000
  else
  reg ← on_core (rtlsdr_i2c_read_reg Fc0013.FC0013_I2C_ADDR Fc0013.FC0013_CHECK_ADDR);
  if reg =? Fc0013.FC0013_CHECK_VAL then found RTLSDR_TUNER_FC0013
  else
  reg ← on_core (rtlsdr_i2c_read_reg R82xx.R820T_I2C_ADDR R82XX_CHECK_ADDR);
  if reg =? R82XX_CHECK_VAL then found RTLSDR_TUNER_R820T
  else
  reg ← on_core (rtlsdr_i2c_read_reg R82xx.R828D_I2C_ADDR R82XX_CHECK_ADDR);
  if reg =? R82XX_CHECK_VAL then found RTLSDR_TUNER_R828D
  else probe_late.

(** The [switch] behind [found]. *)
Definition r82xx_demod : M unit :=
  _ ← on_core (rtlsdr_demod_write_reg 1 0xb1 0x1a 1);
  _ ← on_core (rtlsdr_demod_write_reg 0 0x08 0x4d 1);
  _ ← on_core (rtlsdr_set_if_freq R82XX_IF_FREQ);
  _ ← on_core (rtlsdr_demod_write_reg 1 0x15 0x01 1);
  mret tt.

Definition setup_demod : M unit :=
  d ← st_get;
  match tuner_type d with
  | RTLSDR_TUNER_R828D =>
      _ ← (if check_dongle_model (d_core d) "RTLSDRBlog" "Blog V4" then mret tt
           else st_mod (fun d => set_core (set_tun_xtal R828D_XTAL_FREQ (d_core d)) d));
      r82xx_demod
  | RTLSDR_TUNER_R820T => r82xx_demod
  | RTLSDR_TUNER_UNKNOWN => _ ← rtlsdr_set_direct_sampling 1; mret tt
  | _ => mret tt
  end.

(** [rtlsdr_open] from the claimed interface on. *)
Definition open_claimed : M unit :=
  _ ← st_mod (fun d => set_core (set_rtl_xtal DEF_RTL_XTAL_FREQ (d_core d)) d);
  r ← on_core (rtlsdr_write_reg USBB USB_SYSCTL 0x09 1);
  _ ← (if r <? 0 then _ ← on_host libusb_reset_device; mret tt else mret tt);
  d ← st_get;
  _ ← on_core (rtlsdr_init_baseband (fir d));
  _ ← st_mod (set_dev_lost false);
  '(_, (m, p, _)) ← on_host (rtlsdr_get_usb_strings true true false);
  _ ← st_mod (fun d =>
        let c := d_core d in
        set_core (mk_core (usb c) (rtl_xtal c) (tun_xtal c) (corr c) (default (manufact c) m)
                    (default (product c) p)) d);
  _ ← on_core (rtlsdr_set_i2c_repeater true);
  _ ← probe_tuners;
  _ ← st_mod (fun d => set_core (set_tun_xtal (rtl_xtal (d_core d)) (d_core d)) d);
  _ ← st_mod (fun d => set_tuner (Some (tuner_type d)) d);
  _ ← setup_demod;
  d ← st_get;
  _ ← (match member d tuner_init with Some init => _ ← init; mret tt | None => mret tt end);
  on_core (rtlsdr_set_i2c_repeater false).

(** [err:]; [opened] tells whether there is a device handle. *)
Definition open_err (opened : bool) : st U unit :=
  _ ← (if opened then libusb_close else mret tt);
  libusb_exit.

(** The result, and the device that is handed out, or the USB state where none is.
    [malloc] is whether memory is there; [DETACH_KERNEL_DRIVER] is the build option. *)
Definition rtlsdr_open (malloc DETACH_KERNEL_DRIVER : bool) (index : Z) (u : U) : Z * (U + rtlsdr_dev U) :=
  if negb malloc then (- ENOMEM, inl u)
  else
  let '(r, u) := libusb_init u in
  if r <? 0 then (-1, inl u)
  else
  match open_loop (libusb_get_device_list u) 0 index 0 with
  | None => (-1, inl (open_err false u).2)
  | Some i =>
      let '(r, u) := libusb_open i u in
      if r <? 0 then (r, inl (open_err false (libusb_free_device_list u).2).2)
      else
      let u := (libusb_free_device_list u).2 in
      let '(active, u) := libusb_kernel_driver_active u in
      let '(stop, u) :=
        if (active =? 1) && DETACH_KERNEL_DRIVER
        then let '(x, u) := libusb_detach_kernel_driver u in (negb (x =? 0), u)
        else (false, u) in
      if stop : bool then (r, inl (open_err true u).2)
      else
      let '(r, u) := libusb_claim_interface u in
      if r <? 0 then (r, inl (open_err true u).2)
      else (0, inr (open_claimed (set_driver_active (active =? 1) (set_dev_lost true (dev_zero u)))).2)
  end.

(** [rtlsdr_close] of a device that does not stream. *)
Definition rtlsdr_close (DETACH_KERNEL_DRIVER : bool) (d : rtlsdr_dev U) : Z * U :=
  let d := if dev_lost d then d else (rtlsdr_deinit_baseband d).2 in
  let u := (libusb_release_interface (usb (d_core d))).2 in
  let u := if DETACH_KERNEL_DRIVER && driver_active d then (libusb_attach_kernel_driver u).2 else u in
  let u := (libusb_close u).2 in
  (0, (libusb_exit u).2).

End Opening.
End LibrtlsdrOpen.

Module LibrtlsdrOpenProps.
Import Usb Librtlsdr LibrtlsdrOpen.

(** The known devices of a list, with their places; the device index counts these. *)
Fixpoint known_from (l : list (Z * Z)) (i : nat) : list (nat * string) :=
  match l with
  | [] => []
  | (vid, pid) :: l =>
      match find_known_device vid pid with
      | Some name => (i, name) :: known_from l (S i)
      | None => known_from l (S i)
      end
  end.

Lemma known_from_le l : forall i, zlen (known_from l i) <= zlen l.
Proof.
  unfold zlen. induction l as [|[v p] l IH]; intros i; cbn [known_from]; [done|].
  specialize (IH (S i)). destruct (find_known_device v p); cbn [length]; lia.
Qed.

Lemma count_loop_spec l : forall i c, 0 <= c -> c + zlen l < 2 ^ 32 ->
  count_loop l c = c + zlen (known_from l i).
Proof.
  unfold zlen. induction l as [|[v p] l IH]; intros i c Hc Hb; cbn [count_loop known_from length] in *; [lia|].
  destruct (find_known_device v p).
  - rewrite (IH (S i)); rewrite u32_id by clia; cbn [length]; lia.
  - rewrite (IH (S i)); lia.
Qed.

(** The index a loop still has to count to. *)
Abbreviation at_index l i index c := (known_from l i !! Z.to_nat (index - c)).

Lemma at_index_step index c x k :
  0 <= c <= index -> index <> c -> (x :: k) !! Z.to_nat (index - c) = (k : list (nat * string)) !! Z.to_nat (index - (c + 1)).
Proof. intros. replace (Z.to_nat (index - c)) with (S (Z.to_nat (index - (c + 1)))) by lia. done. Qed.

Lemma strings_loop_spec l : forall i index c,
  0 <= c <= index -> index < 2 ^ 32 - 1 -> strings_loop l i index c = fst <$> at_index l i index c.
Proof.
  induction l as [|[v p] l IH]; intros i index c Hc Hi; cbn [strings_loop known_from]; [done|].
  destruct (find_known_device v p); [|by apply IH].
  rewrite (u32_id (c + 1)) by clia. replace (u32 (c + 1 - 1)) with c by (rewrite u32_id by clia; lia).
  destruct (Z.eqb_spec index c) as [->|]; [by rewrite Z.sub_diag|].
  rewrite IH by lia. by rewrite at_index_step.
Qed.

Lemma open_loop_spec l : forall i index c,
  0 <= c <= index -> index < 2 ^ 32 - 1 -> open_loop l i index c = fst <$> at_index l i index c.
Proof.
  induction l as [|[v p] l IH]; intros i index c Hc Hi; cbn [open_loop known_from]; [done|].
  destruct (find_known_device v p).
  - rewrite (u32_id (c + 1)) by clia. replace (u32 (c + 1 - 1)) with c by (rewrite u32_id by clia; lia).
    destruct (Z.eqb_spec index c) as [->|]; [by rewrite Z.sub_diag|].
    rewrite IH by lia. by rewrite at_index_step.
  - destruct (Z.eqb_spec index (u32 (c - 1))) as [E|]; [|by apply IH].
    exfalso. unfold u32 in E. destruct (decide (c = 0)) as [->|].
    + change ((0 - 1) mod 2 ^ 32) with (2 ^ 32 - 1) in E. lia.
    + rewrite Z.mod_small in E; lia.
Qed.

Lemma name_loop_spec l : forall i index c dev x,
  0 <= c <= index -> index < 2 ^ 32 - 1 -> at_index l i index c = Some x ->
  name_loop l index c dev = Some x.2.
Proof.
  induction l as [|[v p] l IH]; intros i index c dev x Hc Hi; cbn [name_loop known_from]; [done|].
  destruct (find_known_device v p).
  - rewrite (u32_id (c + 1)) by clia. replace (u32 (c + 1 - 1)) with c by (rewrite u32_id by clia; lia).
    destruct (Z.eqb_spec index c) as [->|].
    + rewrite Z.sub_diag. by intros [= <-].
    + rewrite at_index_step by done. apply IH; lia.
  - by apply IH.
Qed.

Section Props.
Context {U : Type} `{LibusbHost U}.

Lemma enumerate_loop_spec cb l : (forall i n m p s u, (cb i n m p s u).1 = 0) ->
  forall i c u, (enumerate_loop cb l i c u).1 = c + zlen (known_from l i).
Proof.
  intros Hcb. unfold zlen. induction l as [|[v p] l IH]; intros i c u; cbn [enumerate_loop known_from]; [cbn; lia|].
  destruct (find_known_device v p); [|apply IH].
  rewrite st_bind_eq. destruct (libusb_open i u) as [r u1]. rewrite st_bind_eq.
  match goal with |- context [let '(_, _) := ?t u1 in _] => destruct (t u1) as [[[m q] s0] u2] end.
  cbv zeta. rewrite st_bind_eq.
  match goal with |- context [cb ?a ?b ?x ?y ?z u2] => pose proof (Hcb a b x y z u2) as Hr;
    destruct (cb a b x y z u2) as [r2 u3] end.
  cbn in Hr. subst r2. cbn [Z.eqb negb]. rewrite IH. cbn [length]. lia.
Qed.

(** A device index means the same device everywhere: where libusb works and reports the
    devices [l], the count is the number of known devices among them, an enumeration whose
    callback never stops visits that many, and for each index the name, the strings and
    [rtlsdr_open] refer to the known device with that number; an index beyond the last one
    opens nothing and returns -1. *)
Theorem device_selection `{Libusb U} (u u1 : U) (detach : bool) cb index :
  libusb_init u = (0, u1) -> zlen (libusb_get_device_list u1) < 2 ^ 32 - 1 -> 0 <= index < 2 ^ 32 - 1 ->
  (forall i n m p s u, (cb i n m p s u).1 = 0) ->
  let l := libusb_get_device_list u1 in
  let k := known_from l 0 in
  (rtlsdr_get_device_count u).1 = zlen k /\
  (rtlsdr_device_enumerate cb u).1 = zlen k /\
  strings_loop l 0 index 0 = fst <$> k !! Z.to_nat index /\
  open_loop l 0 index 0 = fst <$> k !! Z.to_nat index /\
  match k !! Z.to_nat index with
  | Some (_, name) => (rtlsdr_get_device_name index u).1 = name
  | None => rtlsdr_open true detach index u = (-1, inl (libusb_exit u1).2)
  end.
Proof.
  intros Hu Hl Hi Hcb l k.
  assert (Ho : open_loop l 0 index 0 = fst <$> k !! Z.to_nat index)
    by (rewrite open_loop_spec by lia; by rewrite Z.sub_0_r).
  split_and!; [..|done|].
  - unfold rtlsdr_get_device_count. rewrite st_bind_eq, Hu. change (0 <? 0) with false. cbv iota.
    rewrite st_bind_eq. cbn [st_get]. fold l. rewrite st_bind_eq.
    destruct (libusb_free_device_list u1) as [? u2]. rewrite st_bind_eq. destruct (libusb_exit u2).
    cbn. rewrite (count_loop_spec l 0) by (fold l in Hl; lia). done.
  - unfold rtlsdr_device_enumerate. rewrite st_bind_eq, Hu. change (0 <? 0) with false. cbv iota.
    rewrite st_bind_eq. cbn [st_get]. fold l. rewrite st_bind_eq.
    pose proof (enumerate_loop_spec cb l Hcb 0 0 u1) as En. destruct (enumerate_loop cb l 0 0 u1) as [n u2].
    rewrite st_bind_eq. destruct (libusb_free_device_list u2) as [? u3]. rewrite st_bind_eq.
    destruct (libusb_exit u3). exact En.
  - rewrite strings_loop_spec by lia. by rewrite Z.sub_0_r.
  - destruct (k !! Z.to_nat index) as [[p name]|] eqn:E.
    + unfold rtlsdr_get_device_name. rewrite st_bind_eq, Hu. change (0 <? 0) with false. cbv iota.
      rewrite st_bind_eq. cbn [st_get]. fold l. rewrite st_bind_eq.
      destruct (libusb_free_device_list u1) as [? u2]. rewrite st_bind_eq. destruct (libusb_exit u2).
      cbn. rewrite (name_loop_spec l 0 index 0 None (p, name)); [done|lia|lia|by rewrite Z.sub_0_r].
    + unfold rtlsdr_open. cbn [negb]. rewrite Hu. change (0 <? 0) with false. cbv iota. fold l.
      rewrite Ho. done.
Qed.
End Props.

(** A host with three devices, the second of them unknown, and nothing else. *)
#[global] Instance demo_host : LibusbHost unit := {
  libusb_init u := (0, u);
  libusb_exit u := (tt, u);
  libusb_get_device_list u := [(0x0bda, 0x2838); (0x1234, 0x5678); (0x0bda, 0x2832)];
  libusb_free_device_list u := (tt, u);
  libusb_open i u := (0, u);
  libusb_close u := (tt, u);
  libusb_kernel_driver_active u := (0, u);
  libusb_detach_kernel_driver u := (0, u);
  libusb_attach_kernel_driver u := (0, u);
  libusb_claim_interface u := (0, u);
  libusb_release_interface u := (0, u);
  libusb_reset_device u := (0, u);
  libusb_get_device_descriptor u := (0, u);
  libusb_get_string_descriptor_ascii n u := (""%string, u);
}.
#[global] Instance demo_usb : Libusb unit := {
  libusb_control_in v i n u := ((-1, []), u);
  libusb_control_out v i l u := (-1, u);
  uninit2 u := [0; 0];
}.

Lemma device_selection_witness :
  (rtlsdr_get_device_count tt).1 = 2 /\
  open_loop (libusb_get_device_list tt) 0 1 0 = Some 2%nat /\
  (rtlsdr_get_device_name 1 tt).1 = "Generic RTL2832U"%string.
Proof.
  pose proof (device_selection tt tt false (fun _ _ _ _ _ u => (0, u)) 1 eq_refl eq_refl ltac:(lia)
    (fun _ _ _ _ _ _ => eq_refl)) as (H1 & _ & _ & H2 & H3).
  split; [exact H1|]. split; [exact H2|exact H3].
Defined.

(** Beyond the last index the name is that of the last device of the list, if it is known. *)
Lemma name_beyond_last : (rtlsdr_get_device_name 7 tt).1 = "Generic RTL2832U"%string.
Proof. reflexivity. Qed.

(** The index 2^32 - 1 opens an unknown device that comes before the known ones. *)
Lemma open_unknown : open_loop [(0x1234, 0x5678); (0x0bda, 0x2832)] 0 (2 ^ 32 - 1) 0 = Some 0%nat.
Proof. reflexivity. Qed.

End LibrtlsdrOpenProps.
