(* ===== verification/LibrtlsdrProps.v ===== *)
(** * Correctness of the device library ([src/src/librtlsdr.c])

    Theorems over the models of [Usb], [Librtlsdr] and [LibrtlsdrOpen].  [Module BusGuard]:
    whatever libusb answers, the library talks to a tuner only behind a command that switches
    the I2C repeater on, and its last command behind every call switches it off; where libusb
    carries these commands out the repeater is on and off as commanded. *)

From S2P Require Import Prelude Float I2c Usb TunerR82xx TunerFc TunerE4k TunerFc2580 TunerInv Librtlsdr LibrtlsdrOpen.

Module BusGuard.
Import Usb Librtlsdr LibrtlsdrOpen.

(** ** USB with a record of the transfers *)

Inductive transfer :=
  | T_in (value index : Z)
  | T_out (value index : Z) (data : list Z) (result : Z).

(** The transfers, the last one first. *)
Record logged (U : Type) := mk_logged { l_usb : U; l_log : list transfer }.
Arguments mk_logged {U}.
Arguments l_usb {U}.
Arguments l_log {U}.

Definition lift {U A} (m : st U A) : st (logged U) A :=
  fun s => let '(x, u) := m (l_usb s) in (x, mk_logged u (l_log s)).
Definition noted {U A} (t : A -> transfer) (m : st U A) : st (logged U) A :=
  fun s => let '(x, u) := m (l_usb s) in (x, mk_logged u (t x :: l_log s)).

#[global] Instance logged_usb {U} `{Libusb U} : Libusb (logged U) := {
  libusb_control_in value index len := noted (fun _ => T_in value index) (libusb_control_in value index len);
  libusb_control_out value index data := noted (T_out value index data) (libusb_control_out value index data);
  uninit2 s := uninit2 (l_usb s);
}.
#[global] Instance logged_host {U} `{LibusbHost U} : LibusbHost (logged U) := {
  libusb_init := lift libusb_init;
  libusb_exit := lift libusb_exit;
  libusb_get_device_list s := libusb_get_device_list (l_usb s);
  libusb_free_device_list := lift libusb_free_device_list;
  libusb_open i := lift (libusb_open i);
  libusb_close := lift libusb_close;
  libusb_kernel_driver_active := lift libusb_kernel_driver_active;
  libusb_detach_kernel_driver := lift libusb_detach_kernel_driver;
  libusb_attach_kernel_driver := lift libusb_attach_kernel_driver;
  libusb_claim_interface := lift libusb_claim_interface;
  libusb_release_interface := lift libusb_release_interface;
  libusb_reset_device := lift libusb_reset_device;
  libusb_get_device_descriptor := lift libusb_get_device_descriptor;
  libusb_get_string_descriptor_ascii n := lift (libusb_get_string_descriptor_ascii n);
}.

(** A write to the demodulator register 1 on page 1: the bit for the repeater, and the result. *)
Definition switch (t : transfer) : option (bool * Z) :=
  match t with
  | T_out value index data result =>
      if (value =? 0x0120) && (index =? 0x11) then Some (Z.testbit (rd data 0) 3, result) else None
  | T_in _ _ => None
  end.

(** What the library commanded last; [None] before the first command. *)
Fixpoint commanded (l : list transfer) : option bool :=
  match l with
  | [] => None
  | t :: l => match switch t with Some (b, _) => Some b | None => commanded l end
  end.
(** The state of the repeater as far as it is known: behind a command that libusb carried out
    (it is one byte) what was commanded, behind one that failed, and at the start, unknown. *)
Fixpoint repeater (l : list transfer) : option bool :=
  match l with
  | [] => None
  | t :: l => match switch t with Some (b, result) => if result =? 1 then Some b else None | None => repeater l end
  end.
(** Whether libusb carried out every command for the repeater. *)
Definition switches_work (l : list transfer) : bool :=
  forallb (fun t => match switch t with Some (_, result) => result =? 1 | None => true end) l.

(** A transfer to or from a chip behind the repeater: the I2C block, not the EEPROM. *)
Definition tuner_access (t : transfer) : bool :=
  match t with
  | T_in value index | T_out value index _ _ => (index >>' 8 =? IICB) && negb (value =? EEPROM_ADDR)
  end.

(** Every such transfer comes in a state of the repeater, known from the transfers before it. *)
Fixpoint accesses (state : list transfer -> option bool) (l : list transfer) : bool :=
  match l with
  | [] => true
  | t :: l => accesses state l && (negb (tuner_access t) || bool_decide (state l = Some true))
  end.
Abbreviation guarded := (accesses commanded).

Lemma switches_work_repeater l : switches_work l = true -> repeater l = commanded l.
Proof.
  induction l as [|t l IH]; [done|]. cbn [switches_work forallb repeater commanded]. intros [Ht Hl]%andb_prop.
  destruct (switch t) as [[b r]|]; [by rewrite Ht|by apply IH].
Qed.
Lemma switches_work_accesses l : switches_work l = true -> accesses repeater l = guarded l.
Proof.
  induction l as [|t l IH]; [done|]. cbn [accesses]. intros Hw. assert (Hl : switches_work l = true) by (by apply andb_prop in Hw as [_ Hl]).
  by rewrite IH, switches_work_repeater.
Qed.

(** ** Triples *)

Definition triple {S A} (P : S -> Prop) (m : st S A) (Q : S -> Prop) : Prop := forall s, P s -> Q (m s).2.

Lemma triple_bind {S A B} (P Q R : S -> Prop) (m : st S A) (k : A -> st S B) :
  triple P m Q -> (forall x, triple Q (k x) R) -> triple P (m ≫= k) R.
Proof. intros Hm Hk s Hs. rewrite st_bind_eq. specialize (Hm s Hs). destruct (m s). by apply Hk. Qed.
Lemma inv_get_then {S A} (P : S -> Prop) (k : S -> st S A) :
  (forall s, P s -> P (k s s).2) -> inv P (st_get ≫= k).
Proof. intros Hk s Hs. rewrite st_bind_eq. by apply Hk. Qed.

Section Guard.
Context {U : Type} `{Libusb U}.

(** The log is guarded and the last command is one of [al]. *)
Definition rep_in (al : option bool -> Prop) (c : core (logged U)) : Prop :=
  guarded (l_log (usb c)) = true /\ al (commanded (l_log (usb c))).
Definition any : option bool -> Prop := fun _ => True.

(** A computation of the register layer that neither reaches a tuner nor the repeater. *)
Definition neutral {A} (m : st (core (logged U)) A) : Prop := forall al, inv (rep_in al) m.

Lemma noted_log {A} t (m : st U A) (c : core (logged U)) :
  l_log (usb (on_usb (noted t m) c).2) = t (m (l_usb (usb c))).1 :: l_log (usb c).
Proof. unfold on_usb, noted. by destruct (m (l_usb (usb c))). Qed.

Lemma neutral_in value index len :
  (index >>' 8 =? IICB) = false \/ value = EEPROM_ADDR -> neutral (on_usb (libusb_control_in value index len)).
Proof.
  intros Hi al c [Hg Ha]. unfold rep_in. cbn [libusb_control_in logged_usb]. rewrite noted_log.
  cbn [accesses commanded switch tuner_access]. split; [|done]. rewrite Hg.
  destruct Hi as [->| ->]; [done|]. by rewrite andb_false_r.
Qed.
Lemma neutral_out value index data :
  (index >>' 8 =? IICB) = false \/ value = EEPROM_ADDR -> (value =? 0x0120) && (index =? 0x11) = false ->
  neutral (on_usb (libusb_control_out value index data)).
Proof.
  intros Hi Hr al c [Hg Ha]. unfold rep_in. cbn [libusb_control_out logged_usb]. rewrite noted_log.
  cbn [accesses commanded switch tuner_access]. rewrite Hr. split; [|done]. rewrite Hg.
  destruct Hi as [->| ->]; [done|]. by rewrite andb_false_r.
Qed.

(** The repeater itself. *)
Lemma demod_write_rep al (val : Z) : (al : option bool -> Prop) (Some (Z.testbit (rd (val_bytes val 1) 0) 3)) ->
  triple (rep_in any) (rtlsdr_demod_write_reg 1 0x01 val 1) (rep_in al).
Proof.
  intros Ha. unfold rtlsdr_demod_write_reg. apply triple_bind with (rep_in al).
  - intros c [Hg _]. unfold rep_in. cbn [libusb_control_out logged_usb]. rewrite noted_log.
    cbn [accesses commanded switch]. rewrite Hg. change (u16 ((1 <<' 8) |' 0x20)) with 0x120. change (0x10 |' 1) with 0x11.
    split; [done|exact Ha].
  - intros r. unfold rtlsdr_demod_read_reg. apply inv_bind; [|intros; apply inv_ret].
    apply inv_bind; [apply inv_get|]. intros c. apply inv_bind; [apply neutral_in; by left|].
    intros []. apply inv_ret.
Qed.
Lemma repeater_switch b : triple (rep_in any) (rtlsdr_set_i2c_repeater b) (rep_in (eq (Some b))).
Proof.
  unfold rtlsdr_set_i2c_repeater. eapply triple_bind; [|intros; apply inv_ret].
  apply demod_write_rep. by destruct b.
Qed.

(** Traffic on the bus with the repeater on. *)
Lemma i2c_read_guarded addr len : inv (rep_in (eq (Some true))) (rtlsdr_read_array IICB addr len).
Proof.
  intros c [Hg Ha]. unfold rep_in, rtlsdr_read_array. cbn [libusb_control_in logged_usb]. rewrite noted_log.
  cbn [accesses commanded switch]. rewrite Hg, <- Ha. rewrite (bool_decide_true (Some true = _)) by done. by rewrite orb_true_r.
Qed.
Lemma i2c_write_guarded addr l n : inv (rep_in (eq (Some true))) (rtlsdr_write_array IICB addr l n).
Proof.
  intros c [Hg Ha]. unfold rep_in, rtlsdr_write_array. cbn [libusb_control_out logged_usb]. rewrite noted_log.
  cbn [accesses commanded switch]. rewrite Hg. change ((IICB <<' 8) |' 0x10 =? 0x11) with false.
  rewrite andb_false_r, <- Ha. split; [|done]. rewrite (bool_decide_true (Some true = _)) by done. by rewrite orb_true_r.
Qed.

(** The register layer. *)
Lemma neutral_read_reg block addr len :
  ((block <<' 8) >>' 8 =? IICB) = false -> neutral (rtlsdr_read_reg block addr len).
Proof.
  intros Hb al. unfold rtlsdr_read_reg. inv_go. apply neutral_in. by left.
Qed.
Lemma neutral_write_reg block addr val len :
  (((block <<' 8) |' 0x10) >>' 8 =? IICB) = false -> ((block <<' 8) |' 0x10 =? 0x11) = false ->
  neutral (rtlsdr_write_reg block addr val len).
Proof.
  intros Hb Hi al. unfold rtlsdr_write_reg. apply neutral_out; [by left|]. by rewrite Hi, andb_false_r.
Qed.
Lemma neutral_demod_read page addr len : (page >>' 8 =? IICB) = false -> neutral (rtlsdr_demod_read_reg page addr len).
Proof. intros Hp al. unfold rtlsdr_demod_read_reg. inv_go. apply neutral_in. by left. Qed.
Lemma neutral_demod_write page addr val len :
  ((0x10 |' page) >>' 8 =? IICB) = false ->
  (u16 ((addr <<' 8) |' 0x20) =? 0x0120) && (0x10 |' page =? 0x11) = false ->
  neutral (rtlsdr_demod_write_reg page addr val len).
Proof.
  intros Hp Hr al. unfold rtlsdr_demod_write_reg. inv_go; [apply neutral_out; [by left|done]|].
  by apply neutral_demod_read.
Qed.
Lemma neutral_gpio_bit gpio v : neutral (rtlsdr_set_gpio_bit gpio v).
Proof.
  intros al. unfold rtlsdr_set_gpio_bit. inv_go; [by apply neutral_read_reg|by apply neutral_write_reg..].
Qed.
Lemma neutral_gpio_output gpio : neutral (rtlsdr_set_gpio_output gpio).
Proof.
  intros al. unfold rtlsdr_set_gpio_output.
  inv_go; first [by apply neutral_read_reg | by apply neutral_write_reg].
Qed.
Lemma neutral_bias_tee gpio on : neutral (set_bias_tee_gpio gpio on).
Proof. intros al. unfold set_bias_tee_gpio. inv_go; [apply neutral_gpio_output|apply neutral_gpio_bit]. Qed.
Lemma neutral_fir_loop l : forall i, 0 <= i -> i + zlen l <= 20 -> neutral (fir_loop i l).
Proof.
  unfold zlen. induction l as [|b l IH]; intros i Hi Hl al; cbn [fir_loop length] in *; [apply inv_ret|].
  apply inv_bind.
  - apply neutral_demod_write; [done|].
    assert (K : In i (seqZ 0 20)) by (apply list_elem_of_In, elem_of_seqZ; lia).
    cbv in K. repeat destruct K as [<-|K]; by try destruct K.
  - intros r. destruct (r =? 0); [|apply inv_ret]. apply IH; lia.
Qed.
Lemma neutral_set_fir l : length l = 16%nat -> neutral (rtlsdr_set_fir l).
Proof.
  intros Hl al. unfold rtlsdr_set_fir. destruct (pack_fir l) as [b|] eqn:E; [|apply inv_ret].
  apply neutral_fir_loop; [done|]. revert E. unfold pack_fir.
  destruct (pack8 (take 8 l)) as [a|] eqn:Ea; [|done].
  destruct (pack12 (take 8 (drop 8 l))) as [c|] eqn:Ec; [|done]. intros [= <-].
  apply pack8_len in Ea. apply (pack12_len 4) in Ec; [|by rewrite length_take, length_drop; lia].
  rewrite length_take in Ea. unfold zlen. rewrite length_app. lia.
Qed.
Lemma neutral_set_if_freq f : neutral (rtlsdr_set_if_freq f).
Proof. intros al. unfold rtlsdr_set_if_freq. inv_go; by apply neutral_demod_write. Qed.
Lemma neutral_correction ppm : neutral (rtlsdr_set_sample_freq_correction ppm).
Proof. intros al. unfold rtlsdr_set_sample_freq_correction. inv_go; by apply neutral_demod_write. Qed.
Lemma neutral_eeprom_in len : neutral (rtlsdr_read_array IICB EEPROM_ADDR len).
Proof. intros al. unfold rtlsdr_read_array. apply neutral_in. by right. Qed.
Lemma neutral_eeprom_out l n : neutral (rtlsdr_write_array IICB EEPROM_ADDR l n).
Proof. intros al. unfold rtlsdr_write_array. apply neutral_out; [by right|done]. Qed.
Lemma neutral_write_eeprom data off : neutral (rtlsdr_write_eeprom data off).
Proof.
  intros al. unfold rtlsdr_write_eeprom. destruct (_ <? _); [apply inv_ret|].
  apply inv_bind; [apply inv_get|]. intros c. generalize (rd (uninit2 (usb c)) 1) as x, 0 as i. revert al.
  induction data as [|y data IH]; intros al x i; cbn [write_eeprom_loop]; [apply inv_ret|].
  inv_go; first [apply neutral_eeprom_out | apply neutral_eeprom_in | apply IH].
Qed.
Lemma neutral_read_eeprom buf off len : neutral (rtlsdr_read_eeprom buf off len).
Proof.
  intros al. unfold rtlsdr_read_eeprom. destruct (_ <? _); [apply inv_ret|].
  apply inv_bind; [apply neutral_eeprom_out|]. intros r. destruct (r <? 0); [apply inv_ret|].
  revert r buf. generalize 0 as i. induction (Z.to_nat len) as [|n IH]; intros i r buf; cbn [read_eeprom_loop]; [apply inv_ret|].
  inv_go; first [apply neutral_eeprom_in | apply IH].
Qed.
Lemma neutral_reset_buffer : neutral rtlsdr_reset_buffer.
Proof. intros al. unfold rtlsdr_reset_buffer. inv_go; by apply neutral_write_reg. Qed.

#[global] Instance guard_bus : BusInv (rep_in (eq (Some true))).
Proof.
  split.
  - intros addr msg. apply i2c_write_guarded.
  - intros addr len. apply i2c_read_guarded.
  - intros gpio on. apply neutral_bias_tee.
Qed.
End Guard.
Section Device.
Context {U : Type} `{Libusb U}.

Definition dev_in (al : option bool -> Prop) (d : rtlsdr_dev (logged U)) : Prop := rep_in al (d_core d).

Lemma dev_in_any al d : dev_in al d -> dev_in any d.
Proof. by intros []. Qed.
Lemma on_core_triple {A} P Q (m : st (core (logged U)) A) :
  triple P m Q -> triple (fun d : rtlsdr_dev _ => P (d_core d)) (on_core m) (fun d => Q (d_core d)).
Proof. intros Hm d Hd. unfold on_core. specialize (Hm _ Hd). by destruct (m (d_core d)). Qed.
Lemma inv_on_core {A} al (m : st (core (logged U)) A) : inv (rep_in al) m -> inv (dev_in al) (on_core m).
Proof. apply on_core_triple. Qed.
Lemma inv_neutral {A} al (m : st (core (logged U)) A) : neutral m -> inv (dev_in al) (on_core m).
Proof. intros Hm. apply inv_on_core, Hm. Qed.
Lemma inv_on_e4k {A} (m : st (E4k.e4k (core (logged U))) A) :
  (forall fo addr, inv (e4k_inv (P := rep_in (eq (Some true))) fo addr) m) -> inv (dev_in (eq (Some true))) (on_e4k m).
Proof.
  intros Hm d Hd. unfold on_e4k.
  destruct (Hm _ _ (E4k.mk_e4k (e4k_s d) (d_core d)) (conj Hd (conj eq_refl eq_refl))) as [Hc _].
  by destruct (m _) as [x s].
Qed.
Lemma inv_on_r82xx {A} (m : st (R82xx.r82xx (core (logged U))) A) :
  (forall c, inv (r82xx_inv (P := rep_in (eq (Some true))) c) m) -> inv (dev_in (eq (Some true))) (on_r82xx m).
Proof.
  intros Hm d Hd. unfold on_r82xx.
  destruct (Hm _ (R82xx.mk_r82xx (r82xx_p d) (d_core d)) (conj Hd eq_refl)) as [Hc _].
  by destruct (m _) as [x s].
Qed.

(** A call with the repeater switched on and off around it. *)
Lemma with_repeater_triple {A} (al : option bool -> Prop) (m : st (rtlsdr_dev (logged U)) A) :
  al (Some false) -> triple (dev_in (eq (Some true))) m (dev_in any) -> triple (dev_in any) (with_repeater m) (dev_in al).
Proof.
  intros Ha Hm. unfold with_repeater.
  apply triple_bind with (dev_in (eq (Some true))); [apply on_core_triple, repeater_switch|]. intros _.
  apply triple_bind with (dev_in any); [done|]. intros x.
  apply triple_bind with (dev_in al); [|intros; apply inv_ret].
  intros d Hd. destruct (on_core_triple _ _ _ (repeater_switch false) d Hd) as [H1 H2].
  split; [done|]. by rewrite <- H2.
Qed.
Lemma inv_with_repeater {A} (al : option bool -> Prop) (m : st (rtlsdr_dev (logged U)) A) :
  al (Some false) -> triple (dev_in (eq (Some true))) m (dev_in any) -> inv (dev_in al) (with_repeater m).
Proof. intros Ha Hm d Hd. apply with_repeater_triple; [done..|]. by apply dev_in_any in Hd. Qed.
Lemma inv_any {A} (m : st (rtlsdr_dev (logged U)) A) :
  inv (dev_in (eq (Some true))) m -> triple (dev_in (eq (Some true))) m (dev_in any).
Proof. intros Hm d Hd. by apply dev_in_any with (eq (Some true)), Hm. Qed.

(** Assignments do not touch the USB state. *)
Lemma inv_assign al (f : rtlsdr_dev (logged U) -> rtlsdr_dev (logged U)) :
  (forall d, usb (d_core (f d)) = usb (d_core d)) -> inv (dev_in al) (st_mod f).
Proof. intros Hf d Hd. unfold dev_in, rep_in. cbn. by rewrite Hf. Qed.

Lemma member_some {A} (d : rtlsdr_dev (logged U)) (f : rtlsdr_tuner -> option A) m :
  member d f = Some m -> exists t, f t = Some m.
Proof. unfold member. destruct (tuner d) as [t|]; [|done]. by exists t. Qed.

Create HintDb guard discriminated.
#[export] Hint Constants Opaque : guard.
#[local] Hint Extern 0 (BusInv _) => apply guard_bus : inv.
#[local] Hint Resolve neutral_gpio_bit neutral_gpio_output neutral_bias_tee neutral_set_if_freq neutral_correction
  neutral_write_eeprom neutral_read_eeprom neutral_reset_buffer : guard.
#[local] Hint Extern 1 (neutral (rtlsdr_demod_write_reg _ _ _ _)) => by apply neutral_demod_write : guard.
#[local] Hint Extern 1 (neutral (rtlsdr_write_reg _ _ _ _)) => by apply neutral_write_reg : guard.

Ltac guard_go :=
  try match goal with |- triple ?P ?m ?P => change (inv P m) end;
  repeat (cbv beta zeta; intros;
    lazymatch goal with
    | |- inv _ (mret _) => apply inv_ret
    | |- inv _ st_get => apply inv_get
    | |- inv _ (mbind _ _) => apply inv_bind
    | |- inv _ (st_mod _) => apply inv_assign; intros; reflexivity
    | |- inv (dev_in (eq (Some true))) (on_e4k _) => apply inv_on_e4k; solve [eauto with inv nocore]
    | |- inv (dev_in (eq (Some true))) (on_r82xx _) => apply inv_on_r82xx; solve [eauto with inv nocore]
    | |- inv _ (on_core _) =>
        first [apply inv_neutral; solve [eauto with guard nocore] | apply inv_on_core; solve [eauto with inv nocore]
              | solve [eauto with guard nocore]]
    | |- inv _ (match member ?d ?f with _ => _ end) =>
        let E := fresh "E" in destruct (member d f) eqn:E; [apply member_some in E as [? E]|]
    | |- inv _ (match ?f ?t with Some _ => _ | None => _ end) => destruct (f t) eqn:?
    | |- inv _ (match ?x with _ => _ end) => destruct x
    | |- inv _ _ => solve [eauto with guard nocore]
    | _ => fail
    end).

Lemma guard_e4000_init : inv (dev_in (eq (Some true))) e4000_init.
Proof. unfold e4000_init, store_e4k_fosc. guard_go. Qed.
Lemma guard_e4000_set_bw b : inv (dev_in (eq (Some true))) (e4000_set_bw b).
Proof. unfold e4000_set_bw. guard_go. Qed.
Lemma guard_e4000_set_gain g : inv (dev_in (eq (Some true))) (e4000_set_gain g).
Proof. unfold e4000_set_gain. guard_go. Qed.
Lemma guard_r820t_init : inv (dev_in (eq (Some true))) r820t_init.
Proof. unfold r820t_init. guard_go. Qed.

Lemma guard_tuner_init t m : tuner_init t = Some m -> inv (dev_in (eq (Some true))) m.
Proof.
  destruct t; cbn [tuner_init]; intros [= <-]; guard_go;
    [apply guard_e4000_init|apply guard_r820t_init..].
Qed.
Lemma guard_tuner_exit t m : tuner_exit t = Some m -> inv (dev_in (eq (Some true))) m.
Proof. destruct t; cbn [tuner_exit]; intros [= <-]; unfold e4000_exit, r820t_exit; guard_go. Qed.
Lemma guard_tuner_set_freq t m f : tuner_set_freq t = Some m -> inv (dev_in (eq (Some true))) (m f).
Proof.
  destruct t; cbn [tuner_set_freq]; intros [= <-];
    unfold e4000_set_freq, fc0012_set_freq, fc0013_set_freq, r820t_set_freq; guard_go.
Qed.
Lemma guard_tuner_set_gain t m g : tuner_set_gain t = Some m -> inv (dev_in (eq (Some true))) (m g).
Proof.
  destruct t; cbn [tuner_set_gain]; intros [= <-]; unfold r820t_set_gain; guard_go. apply guard_e4000_set_gain.
Qed.
Lemma guard_tuner_set_if_gain t m s g : tuner_set_if_gain t = Some m -> inv (dev_in (eq (Some true))) (m s g).
Proof. destruct t; cbn [tuner_set_if_gain]; intros [= <-]. unfold e4000_set_if_gain. guard_go. Qed.
Lemma guard_tuner_set_gain_mode t m g : tuner_set_gain_mode t = Some m -> inv (dev_in (eq (Some true))) (m g).
Proof.
  destruct t; cbn [tuner_set_gain_mode]; intros [= <-]; unfold e4000_set_gain_mode, r820t_set_gain_mode; guard_go.
Qed.

Section Calls.
Context (al : option bool -> Prop) (Hal : al (Some false)).

Lemma guard_center_freq f : inv (dev_in al) (rtlsdr_set_center_freq f).
Proof.
  unfold rtlsdr_set_center_freq. apply inv_bind; [apply inv_get|]. intros d.
  destruct (tuner d) as [t|]; [|apply inv_ret].
  apply inv_bind; [|guard_go].
  destruct (negb _); [guard_go|]. destruct (tuner_set_freq t) as [m|] eqn:E; [|apply inv_ret].
  apply inv_with_repeater; [done|]. by apply inv_any, (guard_tuner_set_freq t).
Qed.
End Calls.

Lemma guard_tuner_set_bw t m b : tuner_set_bw t = Some m -> triple (dev_in (eq (Some true))) (m b) (dev_in any).
Proof.
  destruct t; cbn [tuner_set_bw]; intros [= <-].
  1-4: apply inv_any; unfold fc2580_set_bw; guard_go; apply guard_e4000_set_bw.
  all: unfold r820t_set_bw;
    (apply triple_bind with (dev_in (eq (Some true))); [apply inv_get|]; intros d; cbv beta);
    (apply triple_bind with (dev_in (eq (Some true))); [guard_go|]; intros r; cbv beta);
    (destruct (r <? 0); [apply inv_any, inv_ret|]);
    (apply triple_bind with (dev_in (eq (Some true))); [guard_go|]; intros r1; cbv beta);
    (destruct (negb (r1 =? 0)); [apply inv_any, inv_ret|]);
    (apply triple_bind with (dev_in any); [apply inv_any, inv_get|]; intros d1; cbv beta);
    by apply guard_center_freq.
Qed.

(** A member of the table called with the repeater on. *)
Lemma guard_set_bw_call al m t (b : rtlsdr_dev (logged U) -> Z) : (al : option bool -> Prop) (Some false) ->
  tuner_set_bw t = Some m ->
  inv (dev_in al) (with_repeater (d ← st_get; _ ← m (b d); mret tt)).
Proof.
  intros Ha E. apply inv_with_repeater; [done|].
  apply triple_bind with (dev_in (eq (Some true))); [apply inv_get|]. intros d.
  apply triple_bind with (dev_in any); [by apply (guard_tuner_set_bw t)|]. intros r. apply inv_ret.
Qed.
Section Api.
Context (al : option bool -> Prop) (Hal : al (Some false)).

Lemma guard_reset val : Z.testbit (rd (val_bytes val 1) 0) 3 = false ->
  inv (dev_in al) (on_core (rtlsdr_demod_write_reg 1 0x01 val 1)).
Proof.
  intros Hv d Hd. apply dev_in_any in Hd. refine (on_core_triple _ _ _ (demod_write_rep al val _) d Hd).
  by rewrite Hv.
Qed.
#[local] Hint Extern 1 (inv _ (on_core (rtlsdr_demod_write_reg 1 0x01 _ 1))) => by apply guard_reset : guard.
#[local] Hint Resolve guard_center_freq : guard.

Lemma guard_call {A} (m : st (rtlsdr_dev (logged U)) A) :
  inv (dev_in (eq (Some true))) m -> inv (dev_in al) (with_repeater m).
Proof. intros Hm. apply inv_with_repeater; [done|]. by apply inv_any. Qed.
#[local] Hint Resolve guard_tuner_init guard_tuner_exit guard_tuner_set_gain guard_tuner_set_if_gain
  guard_tuner_set_gain_mode : guard.
#[local] Hint Extern 2 (inv _ (with_repeater _)) => eapply guard_set_bw_call; [exact Hal|eassumption] : guard.
#[local] Hint Extern 3 (inv _ (with_repeater _)) => apply guard_call; solve [eauto with guard nocore] : guard.

Lemma guard_offset_tuning on : inv (dev_in al) (rtlsdr_set_offset_tuning on).
Proof. unfold rtlsdr_set_offset_tuning. guard_go. Qed.
#[local] Hint Resolve guard_offset_tuning : guard.
Lemma guard_sample_rate r : inv (dev_in al) (rtlsdr_set_sample_rate r).
Proof. unfold rtlsdr_set_sample_rate. guard_go. Qed.
#[local] Hint Resolve guard_sample_rate : guard.
Lemma guard_xtal_freq a b : inv (dev_in al) (rtlsdr_set_xtal_freq a b).
Proof. unfold rtlsdr_set_xtal_freq, set_tuner_xtal, store_e4k_fosc, store_r82xx_xtal. guard_go. Qed.
Lemma guard_freq_correction ppm : inv (dev_in al) (rtlsdr_set_freq_correction ppm).
Proof. unfold rtlsdr_set_freq_correction, store_e4k_fosc, store_r82xx_xtal. guard_go. Qed.
Lemma guard_bandwidth b : inv (dev_in al) (rtlsdr_set_tuner_bandwidth b).
Proof.
  unfold rtlsdr_set_tuner_bandwidth. guard_go. apply inv_with_repeater; [done|].
  apply triple_bind with (dev_in (eq (Some true))); [apply inv_get|]. intros d. by eapply guard_tuner_set_bw.
Qed.
Lemma guard_gain g : inv (dev_in al) (rtlsdr_set_tuner_gain g).
Proof. unfold rtlsdr_set_tuner_gain. guard_go. Qed.
Lemma guard_if_gain s g : inv (dev_in al) (rtlsdr_set_tuner_if_gain s g).
Proof. unfold rtlsdr_set_tuner_if_gain. guard_go. Qed.
Lemma guard_gain_mode m : inv (dev_in al) (rtlsdr_set_tuner_gain_mode m).
Proof. unfold rtlsdr_set_tuner_gain_mode. guard_go. Qed.
Lemma guard_direct_sampling on : inv (dev_in al) (rtlsdr_set_direct_sampling on).
Proof. unfold rtlsdr_set_direct_sampling, direct_sampling_on, direct_sampling_off. guard_go. Qed.
Lemma guard_deinit : inv (dev_in al) rtlsdr_deinit_baseband.
Proof. unfold rtlsdr_deinit_baseband. guard_go. Qed.
End Api.
End Device.

(** ** Opening and sessions *)

(** The calls on an open device. *)
Inductive api_op :=
  | Op_set_center_freq (f : Z)
  | Op_set_freq_correction (ppm : Z)
  | Op_set_xtal_freq (rtl_freq tuner_freq : Z)
  | Op_set_sample_rate (r : Z)
  | Op_set_tuner_bandwidth (b : Z)
  | Op_set_tuner_gain (g : Z)
  | Op_set_tuner_if_gain (stage g : Z)
  | Op_set_tuner_gain_mode (m : Z)
  | Op_set_testmode (on : bool)
  | Op_set_agc_mode (on : bool)
  | Op_set_direct_sampling (on : Z)
  | Op_set_offset_tuning (on : bool)
  | Op_set_bias_tee_gpio (gpio on : Z)
  | Op_write_eeprom (data : list Z) (offset : Z)
  | Op_read_eeprom (buf : list Z) (offset len : Z)
  | Op_reset_buffer
  | Op_deinit_baseband.

Definition run_api {U} `{Libusb U} (o : api_op) : st (rtlsdr_dev U) Z :=
  match o with
  | Op_set_center_freq f => rtlsdr_set_center_freq f
  | Op_set_freq_correction ppm => rtlsdr_set_freq_correction ppm
  | Op_set_xtal_freq a b => rtlsdr_set_xtal_freq a b
  | Op_set_sample_rate r => rtlsdr_set_sample_rate r
  | Op_set_tuner_bandwidth b => rtlsdr_set_tuner_bandwidth b
  | Op_set_tuner_gain g => rtlsdr_set_tuner_gain g
  | Op_set_tuner_if_gain s g => rtlsdr_set_tuner_if_gain s g
  | Op_set_tuner_gain_mode m => rtlsdr_set_tuner_gain_mode m
  | Op_set_testmode on => rtlsdr_set_testmode on
  | Op_set_agc_mode on => rtlsdr_set_agc_mode on
  | Op_set_direct_sampling on => rtlsdr_set_direct_sampling on
  | Op_set_offset_tuning on => rtlsdr_set_offset_tuning on
  | Op_set_bias_tee_gpio gpio on => on_core (set_bias_tee_gpio gpio on)
  | Op_write_eeprom data off => on_core (rtlsdr_write_eeprom data off)
  | Op_read_eeprom buf off len => '(r, _) ← on_core (rtlsdr_read_eeprom buf off len); mret r
  | Op_reset_buffer => on_core rtlsdr_reset_buffer
  | Op_deinit_baseband => rtlsdr_deinit_baseband
  end.

(** Any sequence of calls, whatever they return. *)
Fixpoint run_session {U} `{Libusb U} (l : list api_op) (d : rtlsdr_dev U) : rtlsdr_dev U :=
  match l with [] => d | o :: l => run_session l (run_api o d).2 end.

Section Sessions.
Context {U : Type} `{Libusb U} `{LibusbHost U}.

Lemma guard_run_api o : inv (dev_in (U := U) (eq (Some false))) (run_api o).
Proof.
  destruct o; cbn [run_api].
  - by apply guard_center_freq.
  - by apply guard_freq_correction.
  - by apply guard_xtal_freq.
  - by apply guard_sample_rate.
  - by apply guard_bandwidth.
  - by apply guard_gain.
  - by apply guard_if_gain.
  - by apply guard_gain_mode.
  - by apply inv_neutral, neutral_demod_write.
  - by apply inv_neutral, neutral_demod_write.
  - by apply guard_direct_sampling.
  - by apply guard_offset_tuning.
  - apply inv_neutral, neutral_bias_tee.
  - apply inv_neutral, neutral_write_eeprom.
  - apply inv_bind; [apply inv_neutral, neutral_read_eeprom|]. intros []. apply inv_ret.
  - apply inv_neutral, neutral_reset_buffer.
  - by apply guard_deinit.
Qed.

Lemma guard_session l : forall d, dev_in (U := U) (eq (Some false)) d -> dev_in (eq (Some false)) (run_session l d).
Proof. induction l as [|o l IH]; intros d Hd; [done|]. cbn [run_session]. by apply IH, guard_run_api. Qed.

Lemma inv_host {A} al (m : st U A) : inv (dev_in (U := U) al) (on_host (lift m)).
Proof.
  intros d Hd. unfold on_host, on_core, on_usb, lift.
  by destruct (m (l_usb (usb (d_core d)))) as [x u].
Qed.
Lemma lift_log {A} l (m : st U A) : inv (fun u => l_log u = l) (lift m).
Proof. intros u Hu. unfold lift. by destruct (m (l_usb u)). Qed.
Lemma guard_usb_strings al a b c : inv (dev_in (U := U) al) (on_host (rtlsdr_get_usb_strings a b c)).
Proof.
  apply inv_on_core. intros s Hs. unfold on_usb.
  assert (L : inv (fun u => l_log u = l_log (usb s)) (rtlsdr_get_usb_strings (U := logged U) a b c)).
  { unfold rtlsdr_get_usb_strings.
    repeat first [apply inv_bind; [|intros] | apply inv_ret | apply lift_log
      | match goal with |- inv _ (if ?x then _ else _) => destruct x end]. }
  specialize (L (usb s) eq_refl). cbv beta in L. destruct (rtlsdr_get_usb_strings a b c (usb s)) as [x u].
  cbn in L |- *. unfold rep_in. cbn. by rewrite L.
Qed.

Lemma guard_init_baseband l : length l = 16%nat -> inv (rep_in (U := U) any) (rtlsdr_init_baseband l).
Proof.
  intros Hl. unfold rtlsdr_init_baseband.
  repeat lazymatch goal with
  | |- inv _ (mbind _ _) => apply inv_bind; [|intros]
  | |- inv _ (mret _) => apply inv_ret
  | |- inv _ (rtlsdr_write_reg _ _ _ _) => by apply neutral_write_reg
  | |- inv _ (rtlsdr_set_fir _) => by apply neutral_set_fir
  | |- inv _ (rtlsdr_demod_write_reg 1 1 _ _) => by apply (demod_write_rep any)
  | |- inv _ (rtlsdr_demod_write_reg _ _ _ _) => by apply neutral_demod_write
  end.
Qed.

Lemma guard_i2c_read_reg addr reg : inv (dev_in (U := U) (eq (Some true))) (on_core (rtlsdr_i2c_read_reg addr reg)).
Proof.
  apply inv_on_core. unfold rtlsdr_i2c_read_reg.
  repeat first [lazymatch goal with |- inv _ (mbind _ _) => apply inv_bind; [|intros] end
    | apply i2c_write_guarded | apply i2c_read_guarded]. destruct x0. apply inv_ret.
Qed.
Lemma guard_probe : inv (dev_in (U := U) (eq (Some true))) probe_tuners.
Proof.
  unfold probe_tuners, probe_late, found.
  repeat lazymatch goal with
  | |- inv _ (mbind _ _) => apply inv_bind; [|intros]
  | |- inv _ (mret _) => apply inv_ret
  | |- inv _ (if ?b then _ else _) => destruct b
  | |- inv _ (st_mod _) => apply inv_assign; intros; reflexivity
  | |- inv _ (on_core (rtlsdr_set_gpio_output _)) => apply inv_neutral, neutral_gpio_output
  | |- inv _ (on_core (rtlsdr_set_gpio_bit _ _)) => apply inv_neutral, neutral_gpio_bit
  | |- inv _ (on_core (rtlsdr_i2c_read_reg _ _)) => apply guard_i2c_read_reg
  end.
Qed.

(** A device without a tuner only gets demodulator settings. *)
Lemma guard_no_tuner d : dev_in (U := U) (eq (Some true)) d -> tuner d = Some RTLSDR_TUNER_UNKNOWN ->
  dev_in (eq (Some true)) (rtlsdr_set_direct_sampling 1 d).2.
Proof.
  intros Hd Ht. set (P := fun d : rtlsdr_dev (logged U) => dev_in (eq (Some true)) d /\ tuner d = Some RTLSDR_TUNER_UNKNOWN).
  assert (Hc : forall A (m : st (core (logged U)) A), neutral m -> inv P (on_core m)).
  { intros A m Hm s [H1 H2]. split; [by apply inv_neutral|].
    unfold on_core. by destruct (m (d_core s)). }
  enough (inv P (rtlsdr_set_direct_sampling 1)) as HP by exact (proj1 (HP d (conj Hd Ht))).
  unfold rtlsdr_set_direct_sampling. apply inv_bind; [|intros r; apply inv_bind; [apply inv_get|]; intros x].
  - change (negb (1 =? 0)) with true. cbv iota. unfold direct_sampling_on. apply inv_get_then. intros s Hs.
    unfold member. rewrite (proj2 Hs). cbn [tuner_exit]. revert s Hs.
    change (inv P (r ← (mret 0 : st (rtlsdr_dev (logged U)) Z);
      r1 ← on_core (rtlsdr_demod_write_reg 1 0xb1 0x1a 1);
      r2 ← on_core (rtlsdr_demod_write_reg 1 0x15 0x00 1);
      r3 ← on_core (rtlsdr_demod_write_reg 0 0x08 0x4d 1);
      r4 ← on_core (rtlsdr_demod_write_reg 0 0x06 (if 1 <? 1 then 0x90 else 0x80) 1);
      _ ← st_mod (put_direct_sampling 1);
      mret (r |' r1 |' r2 |' r3 |' r4))).
    repeat lazymatch goal with
    | |- inv _ (mbind _ _) => apply inv_bind; [|intros]
    | |- inv _ (mret _) => apply inv_ret
    | |- inv _ (st_mod _) => by intros ? []
    | |- inv _ (on_core _) => apply Hc; by apply neutral_demod_write
    end.
  - apply inv_bind; [|intros; apply inv_ret]. unfold rtlsdr_set_center_freq. apply inv_get_then. intros s Hs.
    rewrite (proj2 Hs). cbn [tuner_set_freq]. revert s Hs.
    assert (HS : forall z : Z, inv P (r0 ← on_core (rtlsdr_set_if_freq (freq x)); _ ← st_mod (set_freq (if r0 =? 0 then freq x else z)); mret r0)).
    { intros z. apply inv_bind; [apply Hc, neutral_set_if_freq|]. intros. apply inv_bind; [by intros ? []|]. intros. apply inv_ret. }
    intros s Hs. destruct (negb _); [by apply HS|]. by destruct Hs.
Qed.

Lemma guard_setup_demod d : dev_in (U := U) (eq (Some true)) d -> tuner d = Some (tuner_type d) ->
  dev_in (eq (Some true)) (setup_demod d).2.
Proof.
  assert (HR : inv (dev_in (U := U) (eq (Some true))) r82xx_demod).
  { unfold r82xx_demod. repeat (apply inv_bind; [|intros]); [..|apply inv_ret];
      apply inv_neutral; first [apply neutral_set_if_freq | by apply neutral_demod_write]. }
  intros Hd Ht. unfold setup_demod. rewrite st_bind_eq. cbn [st_get].
  destruct (tuner_type d) eqn:E; try done; [|by apply HR|].
  - rewrite st_bind_eq. pose proof (guard_no_tuner d Hd Ht) as Hn.
    by destruct (rtlsdr_set_direct_sampling 1 d).
  - revert Hd. generalize (check_dongle_model (d_core d) "RTLSDRBlog" "Blog V4"). intros b.
    apply inv_bind; [|intros; apply HR]. destruct b; [apply inv_ret|by apply inv_assign].
Qed.

Lemma guard_open_claimed d : dev_in (U := U) any d -> length (fir d) = 16%nat ->
  dev_in (eq (Some false)) (open_claimed d).2.
Proof.
  intros Hd Hf. set (P := fun d : rtlsdr_dev (logged U) => dev_in any d /\ length (fir d) = 16%nat).
  assert (Hc : forall A (m : st (core (logged U)) A), inv (rep_in any) m -> inv P (on_core m)).
  { intros A m Hm s [H1 H2]. split; [by apply inv_on_core|]. unfold on_core. by destruct (m (d_core s)). }
  enough (triple P open_claimed (dev_in (eq (Some false)))) as HP by by apply HP.
  unfold open_claimed.
  apply triple_bind with P; [by intros ? []|]. intros _.
  apply triple_bind with P; [by apply Hc, neutral_write_reg|]. intros r.
  apply triple_bind with P.
  { destruct (r <? 0); [|apply inv_ret]. apply inv_bind; [|intros; apply inv_ret].
    intros s [H1 H2]. split; [by apply inv_host|]. unfold on_host, on_core. by destruct (on_usb _ _). }
  intros _ s [Hs Hl]. rewrite st_bind_eq. cbn [st_get]. revert Hs. generalize s at 1 3. intros s' Hs'. revert s' Hs'.
  match goal with |- forall s', _ -> dev_in _ (?m s').2 => change (triple (dev_in any) m (dev_in (eq (Some false)))) end.
  apply triple_bind with (dev_in any); [by apply inv_on_core, guard_init_baseband|]. intros _.
  apply triple_bind with (dev_in any); [by apply inv_assign|]. intros _.
  apply triple_bind with (dev_in any); [apply guard_usb_strings|]. intros [? [[m p] ?]].
  apply triple_bind with (dev_in any); [by apply inv_assign|]. intros _.
  apply triple_bind with (dev_in (eq (Some true))); [apply on_core_triple, repeater_switch|]. intros _.
  apply triple_bind with (dev_in (eq (Some true))); [apply guard_probe|]. intros _.
  apply triple_bind with (dev_in (eq (Some true))); [by apply inv_assign|]. intros _.
  apply triple_bind with (fun d => dev_in (eq (Some true)) d /\ tuner d = Some (tuner_type d)); [by intros ? ?|]. intros _.
  apply triple_bind with (dev_in (eq (Some true))); [intros ? []; by apply guard_setup_demod|]. intros _.
  apply triple_bind with (dev_in (eq (Some true))); [apply inv_get|]. intros x.
  apply triple_bind with (dev_in (eq (Some true))).
  { destruct (member x tuner_init) as [init|] eqn:E; [|apply inv_ret].
    apply member_some in E as [t E]. apply inv_bind; [by apply (guard_tuner_init t)|]. intros. apply inv_ret. }
  intros _ y Hy. apply dev_in_any in Hy. by apply (on_core_triple _ _ _ (repeater_switch false)).
Qed.

(** What [rtlsdr_open] hands out has its repeater switched off. *)
Lemma guard_open (u : U) malloc detach index r d :
  rtlsdr_open malloc detach index (mk_logged u []) = (r, inr d) -> dev_in (eq (Some false)) d.
Proof.
  intros Ho. revert Ho. unfold rtlsdr_open. destruct malloc; [|done]. cbn [negb].
  cbn [libusb_init libusb_open libusb_free_device_list libusb_kernel_driver_active libusb_detach_kernel_driver
    libusb_claim_interface logged_host]. unfold lift. cbn [l_usb l_log].
  destruct (libusb_init u) as [r0 u0]. destruct (r0 <? 0); [done|].
  destruct (open_loop _ 0 index 0) as [i|]; [|done]. cbn [l_usb l_log].
  destruct (libusb_open i u0) as [r1 u1]. destruct (r1 <? 0); [done|]. cbn [l_usb l_log].
  destruct (libusb_free_device_list u1) as [[] u2]. cbn [l_usb l_log snd].
  destruct (libusb_kernel_driver_active u2) as [active u3]. cbn [l_usb l_log].
  destruct (libusb_detach_kernel_driver u3) as [x u4].
  destruct ((active =? 1) && detach); [destruct (negb (x =? 0)); [done|]|].
  1: destruct (libusb_claim_interface (l_usb (mk_logged u4 []))) as [r5 u5].
  2: destruct (libusb_claim_interface (l_usb (mk_logged u3 []))) as [r5 u5].
  all: destruct (r5 <? 0); [done|]; intros [= <- <-]; by apply guard_open_claimed.
Qed.

(** C12.  The tuner is only ever addressed through the repeater: for every behaviour of libusb
    and of the device, failed transfers included, take a device that [rtlsdr_open] hands out
    and any sequence of calls on it.  Before every I2C transfer to a tuner among the transfers
    of the whole session the library's last command for the repeater was to switch it on, and
    its last command of the session is to switch it off.  The library does not look at the
    results of these commands: in a session in which libusb carries all of them out the
    repeater is on at every such transfer and off at the end.  (The EEPROM sits before the
    repeater.) *)
Theorem tuner_bus_guarded (u : U) malloc detach index r d (ops : list api_op) :
  rtlsdr_open malloc detach index (mk_logged u []) = (r, inr d) ->
  let log := l_log (usb (d_core (run_session ops d))) in
  accesses commanded log = true /\ commanded log = Some false /\
  (switches_work log = true -> accesses repeater log = true /\ repeater log = Some false).
Proof.
  intros Ho. destruct (guard_session ops d (guard_open _ _ _ _ _ _ Ho)) as [H1 H2]. split_and!; [done|done|].
  intros Hw. by rewrite switches_work_accesses, switches_work_repeater.
Qed.
End Sessions.

(** A dongle with an R820T whose reads of the check register work and whose writes all do. *)
Inductive sim := sim_r820t.
#[global] Instance sim_host : LibusbHost sim := {
  libusb_init u := (0, u);
  libusb_exit u := (tt, u);
  libusb_get_device_list u := [(0x0bda, 0x2838)];
  libusb_free_device_list u := (tt, u);
  libusb_open i u := (0, u);
  libusb_close u := (tt, u);
  libusb_kernel_driver_active u := (0, u);
  libusb_detach_kernel_driver u := (0, u);
  libusb_attach_kernel_driver u := (0, u);
  libusb_claim_interface u := (0, u);
  libusb_release_interface u := (0, u);
  libusb_reset_device u := (0, u);
  libusb_get_device_descriptor u := (0, u);
  libusb_get_string_descriptor_ascii n u := (""%string, u);
}.
#[global] Instance sim_usb : Libusb sim := {
  libusb_control_in v i n u :=
    (if (i =? 0x600) && (v =? 0x34) then (n, replicate (Z.to_nat n) 0x69) else (0, []), u);
  libusb_control_out v i l u := (zlen l, u);
  uninit2 u := [0; 0];
}.

Definition demo_ops : list api_op :=
  [Op_set_sample_rate 2048000; Op_set_center_freq 100000000; Op_set_tuner_gain 297; Op_set_direct_sampling 1].

Lemma tuner_bus_guarded_witness :
  exists r d, rtlsdr_open true false 0 (mk_logged sim_r820t []) = (r, inr d) /\
    tuner_type d = RTLSDR_TUNER_R820T /\ let log := l_log (usb (d_core (run_session demo_ops d))) in
    accesses repeater log = true /\ repeater log = Some false.
Proof.
  assert (T : match rtlsdr_open true false 0 (mk_logged sim_r820t []) with
              | (_, inr d) => bool_decide (tuner_type d = RTLSDR_TUNER_R820T) &&
                  switches_work (l_log (usb (d_core (run_session demo_ops d))))
              | _ => false
              end = true) by (vm_compute; reflexivity).
  destruct (rtlsdr_open true false 0 (mk_logged sim_r820t [])) as [r [u|d]] eqn:E; [discriminate T|].
  apply andb_prop in T as [T1 T2]. exists r, d. split; [reflexivity|]. split; [exact (bool_decide_eq_true_1 _ T1)|].
  exact (proj2 (proj2 (tuner_bus_guarded sim_r820t true false 0 r d demo_ops E)) T2).
Defined.

End BusGuard.
