(* ===== verification/LibrtlsdrSettings.v ===== *)
(** * Settings of the device library ([src/src/librtlsdr.c])

    [Module Keep]: what the calls of the tuner interfaces and the library functions leave
    alone.  [Module SampleRate]: the sample rate asked for is the one the demodulator runs at.
    [Module Clocks]: in every session the tuner drivers compute with the corrected clock. *)

From S2P Require Import Prelude Float FloatFacts I2c Usb UsbRegs TunerR82xx TunerFc TunerE4k TunerFc2580 TunerInv Librtlsdr LibrtlsdrOpen LibrtlsdrProps.

Module Keep.
Import Usb Librtlsdr.

(** The demodulator registers other than the resampler ratio (page 1, 0x9f to 0xa2). *)
Definition no_ratio (page addr : Z) : Prop := 0 <= addr < 256 /\ (page = 0 \/ page = 1 /\ (addr < 0x9f \/ 0xa2 < addr)).

(** A property of the register layer that the tuner drivers, the pins and the registers
    without [no_ratio] do not touch. *)
Class Untouched {U : Type} `{Libusb U} (P : core U -> Prop) := {
  unt_bus :: BusInv P;
  unt_demod page addr val : no_ratio page addr -> inv P (rtlsdr_demod_write_reg page addr val 1);
  unt_gpio gpio v : inv P (rtlsdr_set_gpio_bit gpio v);
}.

Section Keep.
Context {U : Type} `{Libusb U} (P : core U -> Prop) `{!Untouched P} (R : Z -> Prop) (fo : Z) (cf : R82xx.r82xx_config)
  (tn : option rtlsdr_tuner).

(** [P] on the register layer, [R] on the rate, the clocks in the driver's structures and the
    tuner. *)
Definition kept (d : rtlsdr_dev U) : Prop :=
  P (d_core d) /\ R (rate d) /\ E4k.fosc (E4k.vco (e4k_s d)) = fo /\ R82xx.cfg (r82xx_p d) = cf /\ tuner d = tn.

Lemma keep_on_core {A} (m : st (core U) A) : inv P m -> inv kept (on_core m).
Proof. intros Hm d (H1&H2). unfold on_core. specialize (Hm _ H1). by destruct (m (d_core d)). Qed.
Lemma keep_on_e4k {A} (m : st (E4k.e4k (core U)) A) :
  (forall fo addr, inv (e4k_inv (P := P) fo addr) m) -> inv kept (on_e4k m).
Proof.
  intros Hm d (H1&H2&H3&H4). unfold on_e4k.
  destruct (Hm fo _ (E4k.mk_e4k (e4k_s d) (d_core d)) (conj H1 (conj H3 eq_refl))) as (K1&K2&_).
  by destruct (m _) as [x s].
Qed.
Lemma keep_on_r82xx {A} (m : st (R82xx.r82xx (core U)) A) :
  (forall c, inv (r82xx_inv (P := P) c) m) -> inv kept (on_r82xx m).
Proof.
  intros Hm d (H1&H2&H3&H4&H5). unfold on_r82xx.
  destruct (Hm cf (R82xx.mk_r82xx (r82xx_p d) (d_core d)) (conj H1 H4)) as [K1 K2].
  by destruct (m _) as [x s].
Qed.
Lemma keep_demod page addr val : no_ratio page addr -> inv kept (on_core (rtlsdr_demod_write_reg page addr val 1)).
Proof. intros Hn. by apply keep_on_core, unt_demod. Qed.
Lemma keep_if_freq f : inv kept (on_core (rtlsdr_set_if_freq f)).
Proof. apply keep_on_core. unfold rtlsdr_set_if_freq. inv_go; apply unt_demod; unfold no_ratio; lia. Qed.
Lemma keep_correction ppm : inv kept (on_core (rtlsdr_set_sample_freq_correction ppm)).
Proof. apply keep_on_core. unfold rtlsdr_set_sample_freq_correction. inv_go; apply unt_demod; unfold no_ratio; lia. Qed.
Lemma keep_gpio gpio v : inv kept (on_core (rtlsdr_set_gpio_bit gpio v)).
Proof. apply keep_on_core, unt_gpio. Qed.
Lemma keep_repeater {A} (m : st (rtlsdr_dev U) A) : inv kept m -> inv kept (with_repeater m).
Proof.
  intros Hm. assert (K : forall b, inv kept (on_core (rtlsdr_set_i2c_repeater b))).
  { intros b. apply keep_on_core. unfold rtlsdr_set_i2c_repeater. inv_go. apply unt_demod. unfold no_ratio. lia. }
  unfold with_repeater. repeat (apply inv_bind; [|intros]); try apply K; [done|apply inv_ret].
Qed.
Lemma member_in {A} (d : rtlsdr_dev U) (f : rtlsdr_tuner -> option A) m :
  member d f = Some m -> exists t, f t = Some m.
Proof. unfold member. destruct (tuner d) as [t|]; [|done]. by exists t. Qed.

(** Assignments to the other members. *)
Lemma keep_assign (f : rtlsdr_dev U -> rtlsdr_dev U) : (forall d, kept d -> kept (f d)) -> inv kept (st_mod f).
Proof. apply inv_mod. Qed.

Create HintDb keep discriminated.
#[export] Hint Constants Opaque : keep.
#[local] Hint Resolve keep_if_freq keep_correction keep_gpio : keep.
#[local] Hint Extern 0 (BusInv _) => apply unt_bus : inv.
#[local] Hint Extern 1 (inv _ (on_core (rtlsdr_demod_write_reg _ _ _ 1))) =>
  apply keep_demod; unfold no_ratio; lia : keep.

Ltac keep_go :=
  repeat (cbv beta zeta; intros;
    lazymatch goal with
    | |- inv _ (mret _) => apply inv_ret
    | |- inv _ st_get => apply inv_get
    | |- inv _ (mbind _ _) => apply inv_bind
    | |- inv _ (st_mod _) => apply keep_assign; by intros ? (?&?&?&?&?)
    | |- inv _ (on_e4k _) => apply keep_on_e4k; solve [eauto with inv nocore]
    | |- inv _ (on_r82xx _) => apply keep_on_r82xx; solve [eauto with inv nocore]
    | |- inv _ (on_core _) =>
        first [solve [eauto with keep nocore] | apply keep_on_core; solve [eauto with inv nocore]]
    | |- inv _ (with_repeater _) => apply keep_repeater
    | |- inv _ (match member ?d ?f with _ => _ end) =>
        let E := fresh "E" in destruct (member d f) eqn:E; [apply member_in in E as [? E]|]
    | |- inv _ (match ?f ?t with Some _ => _ | None => _ end) => destruct (f t) eqn:?
    | |- inv _ (match ?x with _ => _ end) => destruct x
    | |- inv _ _ => solve [eauto with keep nocore]
    | _ => fail
    end).

Lemma keep_tuner_set_freq t m f : tuner_set_freq t = Some m -> inv kept (m f).
Proof.
  destruct t; cbn [tuner_set_freq]; intros [= <-];
    unfold e4000_set_freq, fc0012_set_freq, fc0013_set_freq, r820t_set_freq; keep_go.
Qed.
#[local] Hint Resolve keep_tuner_set_freq : keep.
Lemma keep_center_freq f : inv kept (rtlsdr_set_center_freq f).
Proof. unfold rtlsdr_set_center_freq. keep_go. Qed.
#[local] Hint Resolve keep_center_freq : keep.
Lemma keep_tuner_set_bw t m b : tuner_set_bw t = Some m -> inv kept (m b).
Proof. destruct t; cbn [tuner_set_bw]; intros [= <-]; unfold e4000_set_bw, fc2580_set_bw, r820t_set_bw; keep_go. Qed.
Lemma keep_tuner_exit t m : tuner_exit t = Some m -> inv kept m.
Proof. destruct t; cbn [tuner_exit]; intros [= <-]; unfold e4000_exit, r820t_exit; keep_go. Qed.
Lemma keep_tuner_set_gain t m g : tuner_set_gain t = Some m -> inv kept (m g).
Proof. destruct t; cbn [tuner_set_gain]; intros [= <-]; unfold e4000_set_gain, r820t_set_gain; keep_go. Qed.
Lemma keep_tuner_set_if_gain t m s g : tuner_set_if_gain t = Some m -> inv kept (m s g).
Proof. destruct t; cbn [tuner_set_if_gain]; intros [= <-]. unfold e4000_set_if_gain. keep_go. Qed.
Lemma keep_tuner_set_gain_mode t m g : tuner_set_gain_mode t = Some m -> inv kept (m g).
Proof. destruct t; cbn [tuner_set_gain_mode]; intros [= <-]; unfold e4000_set_gain_mode, r820t_set_gain_mode; keep_go. Qed.
#[local] Hint Resolve keep_tuner_set_bw keep_tuner_exit keep_tuner_set_gain keep_tuner_set_if_gain
  keep_tuner_set_gain_mode : keep.

Lemma keep_offset_tuning on : inv kept (rtlsdr_set_offset_tuning on).
Proof. unfold rtlsdr_set_offset_tuning. keep_go. Qed.
Lemma keep_set_bw_call (d : rtlsdr_dev U) (b : rtlsdr_dev U -> Z) : inv kept (match member d tuner_set_bw with
  | Some set => with_repeater (d ← st_get; _ ← set (b d); mret tt) | None => mret tt end).
Proof. keep_go. Qed.
Lemma keep_bandwidth b : inv kept (rtlsdr_set_tuner_bandwidth b).
Proof. unfold rtlsdr_set_tuner_bandwidth. keep_go. Qed.
Lemma keep_gain g : inv kept (rtlsdr_set_tuner_gain g).
Proof. unfold rtlsdr_set_tuner_gain. keep_go. Qed.
Lemma keep_if_gain s g : inv kept (rtlsdr_set_tuner_if_gain s g).
Proof. unfold rtlsdr_set_tuner_if_gain. keep_go. Qed.
Lemma keep_gain_mode m : inv kept (rtlsdr_set_tuner_gain_mode m).
Proof. unfold rtlsdr_set_tuner_gain_mode. keep_go. Qed.
Lemma keep_direct_sampling_on on : inv kept (direct_sampling_on on).
Proof. unfold direct_sampling_on. keep_go. Qed.
End Keep.
End Keep.

Module SampleRate.
Import Usb Librtlsdr UsbRegs UsbRegsProps Keep.

(** ** The ratio *)

(** The rates the library accepts with the usual crystal: the quotient fits the register
    with bit 28 equal to bit 27. *)
Lemma nominal_quotient s : rate_refused s = false ->
  let q := DEF_RTL_XTAL_FREQ * 2 ^ 22 / s in
  225000 < s <= 3200000 /\ 0x2400000 <= q /\ (q < 0x8000000 \/ 0x18000000 <= q < 0x20000000).
Proof.
  unfold rate_refused. rewrite !orb_false_iff, andb_false_iff, !Z.leb_gt, !Z.ltb_ge. intros [[H1 H2] H3]. cbv zeta.
  change (DEF_RTL_XTAL_FREQ * 2 ^ 22) with 120795955200000.
  split; [lia|]. split; [apply Z.div_le_lower_bound; lia|].
  destruct H3 as [H3|H3]; [right|left].
  - split; [apply Z.div_le_lower_bound; lia|apply Z.div_lt_upper_bound; lia].
  - apply Z.div_lt_upper_bound; lia.
Qed.

Lemma mask_ratio q : 0 <= q -> q &' 0x0ffffffc = (q mod 2 ^ 28) / 4 * 4.
Proof.
  intros Hq. change 0x0ffffffc with (Z.ldiff (Z.ones 28) (Z.ones 2)).
  replace (q &' Z.ldiff (Z.ones 28) (Z.ones 2)) with (Z.ldiff (q &' Z.ones 28) (Z.ones 2)).
  2: { apply Z.bits_inj'. intros i Hi. rewrite Z.land_spec, !Z.ldiff_spec, Z.land_spec. by rewrite andb_assoc. }
  rewrite Z.land_ones, Z.ldiff_ones_r by lia. rewrite Z.shiftr_div_pow2, Z.shiftl_mul_pow2 by lia. done.
Qed.

(** Bit 27 copied to bit 28 gives back the quotient without its two low bits. *)
Lemma ratio_restored q : 0 <= q -> q < 0x8000000 \/ 0x18000000 <= q < 0x20000000 ->
  real_rsamp_ratio (q &' 0x0ffffffc) = q / 4 * 4.
Proof.
  intros H0 Hq. unfold real_rsamp_ratio. rewrite mask_ratio by lia.
  change 0x08000000 with (2 ^ 27). change (2 ^ 28) with 0x10000000. set (r := _ / 4 * 4).
  destruct Hq as [Hq|Hq].
  - assert (Hr : r = q / 4 * 4) by (unfold r; Z.div_mod_to_equations; lia).
    assert (0 <= r < 2 ^ 27) by (unfold r; Z.div_mod_to_equations; lia).
    replace (r &' 2 ^ 27) with 0; [by rewrite Z.lor_0_r|].
    symmetry. apply Z.bits_inj'. intros i Hi. rewrite Z.land_spec, Z.bits_0, Z.pow2_bits_eqb by lia.
    destruct (Z.eqb_spec 27 i) as [<-|]; [|apply andb_false_r].
    rewrite <- (Z.mod_small r (2 ^ 27)) by lia. by rewrite Z.mod_pow2_bits_high by lia.
  - assert (Hr : r = q / 4 * 4 - 2 ^ 28) by (unfold r; Z.div_mod_to_equations; lia).
    assert (2 ^ 27 <= r < 2 ^ 28) by (unfold r; Z.div_mod_to_equations; lia).
    replace (r &' 2 ^ 27) with (2 ^ 27).
    + change (u32 (2 ^ 27 <<' 1)) with (1 <<' 28). rewrite Z.lor_comm, lor_shiftl_add by lia. lia.
    + symmetry. apply Z.bits_inj'. intros i Hi. rewrite Z.land_spec, Z.pow2_bits_eqb by lia.
      destruct (Z.eqb_spec 27 i) as [<-|]; [|apply andb_false_r]. rewrite andb_true_r.
      replace r with (2 ^ 27 + (r - 2 ^ 27)) by lia. rewrite Z.testbit_true by lia.
      replace ((2 ^ 27 + (r - 2 ^ 27)) / 2 ^ 27) with 1; [done|]. apply (Z.div_unique _ _ _ (r - 2 ^ 27)); lia.
Qed.

Lemma rsamp_ratio_eq s : rate_refused s = false ->
  rsamp_ratio DEF_RTL_XTAL_FREQ s = (DEF_RTL_XTAL_FREQ * 2 ^ 22 / s) &' 0x0ffffffc.
Proof.
  intros Hs. destruct (nominal_quotient s Hs) as (H1 & H2 & H3). unfold rsamp_ratio, TWO_POW.
  rewrite scaled_div_trunc by (unfold DEF_RTL_XTAL_FREQ; lia). by rewrite u32_id by (unfold is_u; lia).
Qed.

(** The rate of the ratio, rounded down, is the rate asked for. *)
Lemma nominal_rate s : rate_refused s = false ->
  f_trunc (real_rate DEF_RTL_XTAL_FREQ (rsamp_ratio DEF_RTL_XTAL_FREQ s)) = s.
Proof.
  intros Hs. destruct (nominal_quotient s Hs) as (H1 & H2 & H3). rewrite rsamp_ratio_eq by done.
  unfold real_rate, TWO_POW. rewrite ratio_restored by (try lia; done). revert H2 H3.
  set (q := DEF_RTL_XTAL_FREQ * 2 ^ 22 / s). intros H2 H3.
  rewrite scaled_div_trunc by (unfold DEF_RTL_XTAL_FREQ; Z.div_mod_to_equations; lia).
  pose proof (Z.div_mod (DEF_RTL_XTAL_FREQ * 2 ^ 22) s ltac:(lia)) as Hd. fold q in Hd.
  pose proof (Z.mod_pos_bound (DEF_RTL_XTAL_FREQ * 2 ^ 22) s ltac:(lia)) as Hm.
  pose proof (Z.div_mod q 4 ltac:(lia)) as Hd4. pose proof (Z.mod_pos_bound q 4 ltac:(lia)) as Hm4.
  symmetry. apply (Z.div_unique _ _ _ (DEF_RTL_XTAL_FREQ * 2 ^ 22 - q / 4 * 4 * s)); [|lia]. left. nia.
Qed.

(** ** The registers *)

(** The rates of the resampler. *)
Definition supported (s : Z) : Prop := 225000 < s <= 300000 \/ 900000 < s <= 3200000.
Lemma supported_accepted s : supported s -> rate_refused s = false.
Proof. unfold supported, rate_refused. intros. rewrite !orb_false_iff, andb_false_iff, !Z.leb_gt, !Z.ltb_ge. lia. Qed.
Lemma unsupported_refused s : ~ supported s -> rate_refused s = true.
Proof. unfold supported, rate_refused. intros. rewrite !orb_true_iff, andb_true_iff, !Z.leb_le, !Z.ltb_lt. lia. Qed.

(** The ratio in the registers 0x9f to 0xa2 of page 1; bit 27 is sign-extended to bit 28. *)
Definition ratio_reg (f : Z -> Z -> Z) : Z := 2 ^ 24 * f 1 0x9f + 2 ^ 16 * f 1 0xa0 + 2 ^ 8 * f 1 0xa1 + f 1 0xa2.
Definition chip_ratio (r : Z) : Z := if 2 ^ 27 <=? r then r + 2 ^ 28 else r.

Section Registers.
Context {U : Type} `{Libusb U} {demod i2c : U -> Z -> Z -> Z} `{!Rtl2832 U demod i2c}.

Abbreviation dm c := (demod (usb c)).

Definition ratio_is (f : Z -> Z) (c : core U) : Prop := forall a, 0x9f <= a <= 0xa2 -> dm c 1 a = f a.

Lemma ratio_is_in f v i n : inv (ratio_is f) (on_usb (libusb_control_in v i n)).
Proof.
  intros c Hc a Ha. unfold on_usb. pose proof (in_demod v i n (usb c) 1 a) as E.
  destruct (libusb_control_in v i n (usb c)). cbn in *. rewrite E. by apply Hc.
Qed.
Lemma ratio_is_pin f v data : v = GPO \/ v = GPOE \/ v = GPD -> inv (ratio_is f) (on_usb (libusb_control_out v 0x210 data)).
Proof.
  intros Hv c Hc a Ha. unfold on_usb. destruct (out_gpio v data (usb c) Hv) as [_ E]. specialize (E 1 a).
  destruct (libusb_control_out v 0x210 data (usb c)). cbn in *. rewrite E. by apply Hc.
Qed.
#[global] Instance ratio_untouched f : Untouched (ratio_is f).
Proof.
  split; [split| |].
  - intros addr msg c Hc a Ha. cbn [rtlsdr_i2c_write_fn core_i2c]. unfold rtlsdr_i2c_write, rtlsdr_write_array, on_usb.
    change ((IICB <<' 8) |' 0x10) with 0x610. set (l := take _ _). pose proof (out_i2c_demod addr l (usb c) 1 a) as E.
    destruct (libusb_control_out addr 0x610 l (usb c)). cbn in *. rewrite E. by apply Hc.
  - intros addr len. apply ratio_is_in.
  - intros gpio on. cbn [rtlsdr_set_bias_tee_gpio core_i2c].
    unfold set_bias_tee_gpio, rtlsdr_set_gpio_output, rtlsdr_set_gpio_bit, rtlsdr_read_reg, rtlsdr_write_reg.
    inv_go; first [apply ratio_is_in | apply ratio_is_pin; tauto].
  - intros page addr val Hn. unfold rtlsdr_demod_write_reg, rtlsdr_demod_read_reg.
    apply inv_bind; [|intros; inv_go; apply ratio_is_in].
    intros c Hc a Ha. unfold on_usb. unfold no_ratio in Hn.
    rewrite demod_value by lia.
    pose proof (out_demod_other page addr (val_bytes val 1) (usb c) 1 a ltac:(lia) ltac:(lia)) as E.
    change (zlen (val_bytes val 1)) with 1 in E.
    destruct (libusb_control_out _ _ _ (usb c)). cbn in *. rewrite E by lia. by apply Hc.
  - intros gpio v. unfold rtlsdr_set_gpio_bit, rtlsdr_read_reg, rtlsdr_write_reg.
    inv_go; first [apply ratio_is_in | apply ratio_is_pin; tauto].
Qed.

#[global] Instance true_untouched : Untouched (fun _ : core U => True).
Proof. by split; [split| |]. Qed.
Lemma kept_self (P : core U -> Prop) (R : Z -> Prop) d : P (d_core d) -> R (rate d) ->
  kept P R (E4k.fosc (E4k.vco (e4k_s d))) (R82xx.cfg (r82xx_p d)) (tuner d) d.
Proof. done. Qed.

Lemma word_stored f reg v r :
  store_regs f reg (val_bytes v 2) r = if r =? reg + 1 then v &' 0xff else if r =? reg then v >>' 8 else f r.
Proof. change (val_bytes v 2) with [v >>' 8; v &' 0xff]. by rewrite store_regs_cons, store_regs_one, store_regs_one. Qed.

(** What the ratio writes leave in the four registers. *)
Lemma ratio_stored ratio (c c1 c2 : core U) : is_u 28 ratio ->
  rtlsdr_demod_write_reg 1 0x9f (u16 (ratio >>' 16)) 2 c = (0, c1) ->
  rtlsdr_demod_write_reg 1 0xa1 (ratio &' 0xffff) 2 c1 = (0, c2) -> ratio_reg (demod (usb c2)) = ratio.
Proof.
  intros Hr E1 E2.
  pose proof (demod_write_stores 1 0x9f _ 2 c c1 ltac:(lia) ltac:(lia) eq_refl E1) as S1.
  pose proof (demod_write_stores 1 0xa1 _ 2 c1 c2 ltac:(lia) ltac:(lia) eq_refl E2) as S2.
  unfold ratio_reg. rewrite !S2. cbn [Z.eqb Pos.eqb]. rewrite !word_stored. change (0xa1 + 1) with 0xa2. cbn [Z.eqb Pos.eqb].
  rewrite !S1. cbn [Z.eqb Pos.eqb]. rewrite !word_stored. change (0x9f + 1) with 0xa0. cbn [Z.eqb Pos.eqb].
  change 255 with (Z.ones 8). change 65535 with (Z.ones 16). rewrite !Z.land_ones, !Z.shiftr_div_pow2 by lia.
  unfold is_u, u16 in *. change (2 ^ 28) with 268435456 in *. change (2 ^ 16) with 65536. change (2 ^ 8) with 256.
  Z.div_mod_to_equations; lia.
Qed.

Lemma ratio_reg_ext f g : (forall a, 0x9f <= a <= 0xa2 -> f 1 a = g 1 a) -> ratio_reg f = ratio_reg g.
Proof. intros E. unfold ratio_reg. rewrite !E by lia. done. Qed.

Lemma chip_ratio_eq s : rate_refused s = false ->
  chip_ratio (rsamp_ratio DEF_RTL_XTAL_FREQ s) = DEF_RTL_XTAL_FREQ * 2 ^ 22 / s / 4 * 4.
Proof.
  intros Hs. destruct (nominal_quotient s Hs) as (H1 & H2 & H3). rewrite rsamp_ratio_eq by done. revert H2 H3.
  set (q := DEF_RTL_XTAL_FREQ * 2 ^ 22 / s). intros H2 H3. rewrite mask_ratio by lia.
  unfold chip_ratio. change (2 ^ 28) with 0x10000000. change (2 ^ 27) with 0x8000000.
  destruct (Z.leb_spec 0x8000000 (q mod 0x10000000 / 4 * 4)); Z.div_mod_to_equations; lia.
Qed.

(** From the writes of the ratio to the end of [rtlsdr_set_sample_rate]. *)
Definition rate_tail (ratio : Z) : st (rtlsdr_dev U) Z :=
  r1 ← on_core (rtlsdr_demod_write_reg 1 0x9f (u16 (ratio >>' 16)) 2);
  r2 ← on_core (rtlsdr_demod_write_reg 1 0xa1 (ratio &' 0xffff) 2);
  d ← st_get;
  r3 ← on_core (rtlsdr_set_sample_freq_correction (corr (d_core d)));
  r4 ← on_core (rtlsdr_demod_write_reg 1 0x01 0x14 1);
  r5 ← on_core (rtlsdr_demod_write_reg 1 0x01 0x10 1);
  d ← st_get;
  _ ← (if negb (offs_freq d =? 0) then _ ← rtlsdr_set_offset_tuning true; mret tt else mret tt);
  mret (r1 |' r2 |' r3 |' r4 |' r5).

Lemma on_core_eq {A} (m : st (core U) A) d : on_core m d = ((m (d_core d)).1, set_core (m (d_core d)).2 d).
Proof. unfold on_core. by destruct (m (d_core d)). Qed.

Lemma rate_tail_keeps (P : core U -> Prop) `{!Untouched P} (R : Z -> Prop) fo cf tn ratio d c1 c2 r1 r2 :
  rtlsdr_demod_write_reg 1 0x9f (u16 (ratio >>' 16)) 2 (d_core d) = (r1, c1) ->
  rtlsdr_demod_write_reg 1 0xa1 (ratio &' 0xffff) 2 c1 = (r2, c2) ->
  kept P R fo cf tn (set_core c2 d) ->
  kept P R fo cf tn (rate_tail ratio d).2 /\ ((rate_tail ratio d).1 = 0 -> r1 = 0 /\ r2 = 0).
Proof.
  intros E1 E2 HK. unfold rate_tail. rewrite st_bind_eq, on_core_eq, E1. cbn [fst snd].
  rewrite st_bind_eq, on_core_eq. cbn [d_core set_core]. rewrite E2. cbn [fst snd].
  change (set_core c2 (set_core c1 d)) with (set_core c2 d). rewrite st_bind_eq. cbn [st_get].
  rewrite st_bind_eq. pose proof (keep_correction P R fo cf tn (corr (d_core (set_core c2 d))) _ HK) as K3.
  destruct (on_core _ (set_core c2 d)) as [r3 d3]. rewrite st_bind_eq.
  pose proof (keep_demod P R fo cf tn 1 0x01 0x14 ltac:(unfold no_ratio; lia) _ K3) as K4.
  destruct (on_core _ _) as [r4 d4]. rewrite st_bind_eq.
  pose proof (keep_demod P R fo cf tn 1 0x01 0x10 ltac:(unfold no_ratio; lia) _ K4) as K5.
  destruct (on_core _ _) as [r5 d5]. rewrite st_bind_eq. cbn [st_get snd] in *. rewrite st_bind_eq.
  assert (K6 : kept P R fo cf tn
    ((if negb (offs_freq d5 =? 0) then _ ← rtlsdr_set_offset_tuning true; mret tt else mret tt) d5).2).
  { destruct (negb _); [|done]. rewrite st_bind_eq. pose proof (keep_offset_tuning P R fo cf tn true _ K5) as K6.
    by destruct (rtlsdr_set_offset_tuning true d5). }
  match type of K6 with kept _ _ _ _ _ ?x.2 => destruct x as [? d6] end. rewrite st_ret_eq. split; [done|]. cbn [fst].
  intros E. apply Z.lor_eq_0_iff in E as [E _]. apply Z.lor_eq_0_iff in E as [E _].
  apply Z.lor_eq_0_iff in E as [E _]. by apply Z.lor_eq_0_iff in E.
Qed.

(** C13.  The sample rate asked for is the one set: a rate the resampler does not support is
    refused and nothing changes.  With the usual crystal, any supported rate is recorded
    exactly, whatever happens on the bus, and when all transfers succeed the ratio registers
    of the demodulator hold the crystal over the rate in units of 2^-22, rounded down to a
    multiple of four (bit 28, which the register does not have, is the copy of bit 27); the
    tuner and the offset tuning set up on the way do not disturb them. *)
Theorem sample_rate_programmed s d : 
  (~ supported s -> rtlsdr_set_sample_rate s d = (- EINVAL, d)) /\
  (supported s -> rtl_xtal (d_core d) = DEF_RTL_XTAL_FREQ ->
   let '(rc, d') := rtlsdr_set_sample_rate s d in
   rate d' = s /\
   (rc = 0 -> chip_ratio (ratio_reg (demod (usb (d_core d')))) = DEF_RTL_XTAL_FREQ * 2 ^ 22 / s / 4 * 4)).
Proof.
  unfold rtlsdr_set_sample_rate. rewrite st_bind_eq. cbn [st_get].
  split; [intros Hs; by rewrite unsupported_refused|]. intros Hs Hx. rewrite supported_accepted by done. rewrite Hx.
  apply supported_accepted in Hs. pose proof (nominal_rate s Hs) as Hr. pose proof (chip_ratio_eq s Hs) as Hc.
  assert (Hu : is_u 28 (rsamp_ratio DEF_RTL_XTAL_FREQ s)).
  { rewrite rsamp_ratio_eq by done. destruct (nominal_quotient s Hs) as (H1 & H2 & _).
    rewrite mask_ratio by lia. unfold is_u. change (2 ^ 28) with 0x10000000. Z.div_mod_to_equations; lia. }
  set (ratio := rsamp_ratio DEF_RTL_XTAL_FREQ s) in *. rewrite Hr.
  assert (Us : u32 s = s).
  { destruct (nominal_quotient s Hs) as (H1 & _). apply u32_id. unfold is_u. lia. }
  rewrite Us, st_bind_eq. cbn [st_mod]. rewrite st_bind_eq. cbn [st_get]. rewrite st_bind_eq.
  pose proof (keep_set_bw_call (fun _ => True) (fun r => r = s) _ _ _ (set_rate s d)
    (fun d => s32 (if 0 <? bw d then bw d else rate d)) (set_rate s d) (kept_self _ (fun r => r = s) (set_rate s d) I eq_refl)) as K.
  match type of K with kept _ _ _ _ _ ?x.2 => destruct x as [[] d1] end. cbn [snd] in K. destruct K as (_ & R1 & _).
  change (let '(rc, d') := rate_tail ratio d1 in rate d' = s /\
    (rc = 0 -> chip_ratio (ratio_reg (demod (usb (d_core d')))) = DEF_RTL_XTAL_FREQ * 2 ^ 22 / s / 4 * 4)).
  destruct (rtlsdr_demod_write_reg 1 0x9f (u16 (ratio >>' 16)) 2 (d_core d1)) as [r1 c1] eqn:E1.
  destruct (rtlsdr_demod_write_reg 1 0xa1 (ratio &' 0xffff) 2 c1) as [r2 c2] eqn:E2.
  destruct (rate_tail_keeps (ratio_is (dm c2 1)) (fun r => r = s) _ _ _ ratio d1 c1 c2 r1 r2 E1 E2
    (kept_self _ (fun r => r = s) (set_core c2 d1) (fun _ _ => eq_refl) R1)) as [(K1 & K2 & _) K3].
  destruct (rate_tail ratio d1) as [rc d']. cbn [fst snd] in K1, K2, K3. split; [done|].
  intros Hrc. destruct (K3 Hrc) as [-> ->]. rewrite (ratio_reg_ext _ (dm c2)) by exact K1.
  by rewrite (ratio_stored ratio _ c1 c2 Hu E1 E2).
Qed.
End Registers.

(** A device without a tuner on the usual crystal. *)
Definition demo_dev : rtlsdr_dev dongle := set_core demo_core (LibrtlsdrOpen.dev_zero (usb demo_core)).

Lemma sample_rate_programmed_witness :
  rtlsdr_set_sample_rate 500000 demo_dev = (-22, demo_dev) /\
  rate (rtlsdr_set_sample_rate 250000 demo_dev).2 = 250000 /\
  chip_ratio (ratio_reg (dg_demod (usb (d_core (rtlsdr_set_sample_rate 250000 demo_dev).2)))) = 0x1ccccccc.
Proof.
  destruct (sample_rate_programmed (demod := dg_demod) (i2c := dg_i2c) 500000 demo_dev) as [W1 _].
  destruct (sample_rate_programmed (demod := dg_demod) (i2c := dg_i2c) 250000 demo_dev) as [_ W2].
  split; [apply W1; unfold supported; lia|].
  assert (S : supported 250000) by (unfold supported; lia).
  specialize (W2 S eq_refl). 
  assert (R : (rtlsdr_set_sample_rate 250000 demo_dev).1 = 0) by (vm_compute; reflexivity).
  destruct (rtlsdr_set_sample_rate 250000 demo_dev) as [rc d']. cbn [fst snd] in *. destruct W2 as [W2 W3].
  split; [exact W2|]. exact (W3 R).
Defined.

(** At the edges of the supported ranges the bit pattern relies on the usual crystal: with one
    that [rtlsdr_set_xtal_freq] still accepts, 300000 becomes 900062 and 900001 becomes
    300007. *)
Lemma edge_rates_other_crystal :
  f_trunc (real_rate MIN_RTL_XTAL_FREQ (rsamp_ratio MIN_RTL_XTAL_FREQ 300000)) = 900062 /\
  f_trunc (real_rate MAX_RTL_XTAL_FREQ (rsamp_ratio MAX_RTL_XTAL_FREQ 900001)) = 300007.
Proof. vm_compute. split; reflexivity. Qed.
End SampleRate.

Module Clocks.
Import Usb Librtlsdr LibrtlsdrOpen Keep SampleRate BusGuard.

Section Clocks.
Context {U : Type} `{Libusb U} `{LibusbHost U}.

(** The corrected clock of the tuner, and that the driver of the tuner in use has it. *)
Definition tuner_clock (d : rtlsdr_dev U) : Z := (rtlsdr_get_xtal_freq (d_core d)).2.
Definition clocked (d : rtlsdr_dev U) : Prop :=
  match tuner d with
  | Some RTLSDR_TUNER_E4000 => E4k.fosc (E4k.vco (e4k_s d)) = tuner_clock d
  | Some (RTLSDR_TUNER_R820T | RTLSDR_TUNER_R828D) => R82xx.xtal (R82xx.cfg (r82xx_p d)) = tuner_clock d
  | _ => True
  end.

(** The members the clock is computed from. *)
Definition clock_is (x k : Z) (c : core U) : Prop := tun_xtal c = x /\ corr c = k.

Lemma clock_is_usb {A} x k (m : st U A) : inv (clock_is x k) (on_usb m).
Proof. intros c [H1 H2]. unfold on_usb. by destruct (m (usb c)). Qed.
Lemma clock_is_demod x k page addr val len : inv (clock_is x k) (rtlsdr_demod_write_reg page addr val len).
Proof. unfold rtlsdr_demod_write_reg, rtlsdr_demod_read_reg. inv_go; apply clock_is_usb. Qed.
Lemma clock_is_gpio x k gpio v : inv (clock_is x k) (rtlsdr_set_gpio_bit gpio v).
Proof. unfold rtlsdr_set_gpio_bit, rtlsdr_read_reg, rtlsdr_write_reg. inv_go; apply clock_is_usb. Qed.
Lemma clock_is_output x k gpio : inv (clock_is x k) (rtlsdr_set_gpio_output gpio).
Proof. unfold rtlsdr_set_gpio_output, rtlsdr_read_reg, rtlsdr_write_reg. inv_go; apply clock_is_usb. Qed.
Lemma clock_is_bias x k gpio on : inv (clock_is x k) (set_bias_tee_gpio gpio on).
Proof. unfold set_bias_tee_gpio. inv_go; [apply clock_is_output|apply clock_is_gpio]. Qed.
Lemma clock_is_repeater x k b : inv (clock_is x k) (rtlsdr_set_i2c_repeater b).
Proof. unfold rtlsdr_set_i2c_repeater. inv_go. apply clock_is_demod. Qed.
Lemma clock_is_write_eeprom x k data off : inv (clock_is x k) (rtlsdr_write_eeprom data off).
Proof.
  unfold rtlsdr_write_eeprom. destruct (_ <? _); [apply inv_ret|].
  apply inv_bind; [apply inv_get|]. intros c. generalize (rd (uninit2 (usb c)) 1) as y, 0 as i.
  induction data as [|z data IH]; intros y i; cbn [write_eeprom_loop]; [apply inv_ret|].
  inv_go; first [apply clock_is_usb | apply IH].
Qed.
Lemma clock_is_read_eeprom x k buf off len : inv (clock_is x k) (rtlsdr_read_eeprom buf off len).
Proof.
  unfold rtlsdr_read_eeprom. destruct (_ <? _); [apply inv_ret|].
  apply inv_bind; [apply clock_is_usb|]. intros r. destruct (r <? 0); [apply inv_ret|].
  revert r buf. generalize 0 as i. induction (Z.to_nat len) as [|n IH]; intros i r buf; cbn [read_eeprom_loop]; [apply inv_ret|].
  inv_go; first [apply clock_is_usb | apply IH].
Qed.
#[global] Instance clock_untouched x k : Untouched (clock_is x k).
Proof.
  split; [split| |].
  - intros addr msg. apply clock_is_usb.
  - intros addr len. apply clock_is_usb.
  - intros gpio on. apply clock_is_bias.
  - intros page addr val _. apply clock_is_demod.
  - apply clock_is_gpio.
Qed.

Definition any_rate : Z -> Prop := fun _ => True.

(** Whatever keeps the two clocks and the tuner keeps [clocked]. *)
Lemma keep_clocked {A} (m : st (rtlsdr_dev U) A) :
  (forall x k fo cf tn, inv (kept (clock_is x k) any_rate fo cf tn) m) -> inv clocked m.
Proof.
  intros Hm d Hd.
  destruct (Hm (tun_xtal (d_core d)) (corr (d_core d)) _ _ _ d
    (conj (conj eq_refl eq_refl) (conj I (conj eq_refl (conj eq_refl eq_refl))))) as ((K1 & K2) & _ & K3 & K4 & K5).
  revert Hd. unfold clocked, tuner_clock, rtlsdr_get_xtal_freq. by rewrite K1, K2, K3, K4, K5.
Qed.

(** The drivers' structures set from the clock. *)
Lemma stored_clocked (d : rtlsdr_dev U) : clocked (store_r82xx_xtal (store_e4k_fosc d).2).2.
Proof. unfold clocked. by destruct (tuner _) as [[]|]. Qed.
Lemma clocked_init_e4k : inv clocked (on_e4k (E4k.e4k_init (D := core U))).
Proof. apply keep_clocked. intros. apply keep_on_e4k. intros. apply inv_e4k_init. Qed.
Lemma clocked_init_r82xx : inv clocked (on_r82xx (R82xx.r82xx_init (D := core U))).
Proof. apply keep_clocked. intros. apply keep_on_r82xx. intros. apply inv_r82xx_init. Qed.
Lemma clocked_on_core {A} (m : st (core U) A) : (forall x k, inv (clock_is x k) m) -> inv clocked (on_core m).
Proof. intros Hm. apply keep_clocked. intros. by apply keep_on_core. Qed.

Lemma clocked_e4000_init d : tuner d = Some RTLSDR_TUNER_E4000 -> clocked (e4000_init d).2.
Proof.
  intros Ht. unfold e4000_init. rewrite st_bind_eq. cbn [st_mod]. rewrite st_bind_eq.
  apply clocked_init_e4k. unfold clocked. cbn. by rewrite Ht.
Qed.
Lemma clocked_r820t_init d t : tuner d = Some t -> t = RTLSDR_TUNER_R820T \/ t = RTLSDR_TUNER_R828D -> clocked (r820t_init d).2.
Proof.
  intros Ht Hr. unfold r820t_init. rewrite st_bind_eq. cbn [st_get].
  destruct (decide (tuner_type d = RTLSDR_TUNER_R828D)); cbv beta iota; rewrite st_bind_eq;
    apply clocked_init_r82xx; unfold clocked; cbn; rewrite Ht; by destruct Hr as [->| ->].
Qed.
Lemma init_clocked t m d : tuner_init t = Some m -> tuner d = Some t -> clocked (m d).2.
Proof.
  intros E Ht. destruct t; cbn [tuner_init] in E; try done; injection E as <-.
  - by apply clocked_e4000_init.
  - apply clocked_on_core; [intros; apply inv_fc0012_init|]. unfold clocked. by rewrite Ht.
  - apply clocked_on_core; [intros; apply inv_fc0013_init|]. unfold clocked. by rewrite Ht.
  - apply clocked_on_core; [intros; apply inv_fc2580_init|]. unfold clocked. by rewrite Ht.
  - eapply clocked_r820t_init; eauto.
  - eapply clocked_r820t_init; eauto.
Qed.

(** ** The library functions *)

Lemma clocked_center_freq f : inv clocked (rtlsdr_set_center_freq f).
Proof. apply keep_clocked. intros. apply keep_center_freq, _. Qed.
Lemma clocked_sample_rate r : inv clocked (rtlsdr_set_sample_rate r).
Proof.
  apply keep_clocked. intros. unfold rtlsdr_set_sample_rate.
  assert (D : forall p a v n, inv (kept (clock_is x k) any_rate fo cf tn) (on_core (rtlsdr_demod_write_reg p a v n)))
    by (intros; apply keep_on_core, clock_is_demod).
  apply inv_bind; [apply inv_get|]. intros d. destruct (rate_refused r); [apply inv_ret|]. cbv zeta.
  apply inv_bind; [by apply inv_mod; intros ? (?&?&?&?&?)|]. intros _.
  apply inv_bind; [apply inv_get|]. intros d1. apply inv_bind; [apply keep_set_bw_call, _|]. intros _.
  apply inv_bind; [apply D|]. intros r1. apply inv_bind; [apply D|]. intros r2.
  apply inv_bind; [apply inv_get|]. intros d2. apply inv_bind; [apply keep_correction, _|]. intros r3.
  apply inv_bind; [apply D|]. intros r4. apply inv_bind; [apply D|]. intros r5.
  apply inv_bind; [apply inv_get|]. intros d3. apply inv_bind; [|intros; apply inv_ret].
  destruct (negb _); [|apply inv_ret]. apply inv_bind; [apply keep_offset_tuning, _|intros; apply inv_ret].
Qed.
(** Both structures set again, then the tuner perhaps retuned. *)
Lemma clocked_stored (k : unit -> st (rtlsdr_dev U) Z) d : inv clocked (k tt) ->
  clocked ((_ ← store_e4k_fosc; x ← store_r82xx_xtal; k x) d).2.
Proof. intros Hk. rewrite st_bind_eq. apply Hk, stored_clocked. Qed.

Lemma clocked_tuner_xtal b r : inv clocked (set_tuner_xtal b r).
Proof.
  intros d Hd. unfold set_tuner_xtal. rewrite st_bind_eq. cbn [st_get].
  destruct (_ =? _); [done|]. rewrite st_bind_eq. cbn [st_mod]. apply clocked_stored.
  inv_go. apply clocked_center_freq.
Qed.
Lemma clocked_xtal_freq a b : inv clocked (rtlsdr_set_xtal_freq a b).
Proof.
  unfold rtlsdr_set_xtal_freq. destruct (_ && _); [apply inv_ret|]. apply inv_bind; [apply inv_get|]. intros d.
  apply inv_bind; [|intros; apply clocked_tuner_xtal]. destruct (_ && _); [|apply inv_ret].
  apply inv_bind; [by intros ? ?|]. intros _. apply inv_bind; [apply inv_get|]. intros d1.
  destruct (negb _); [apply clocked_sample_rate|apply inv_ret].
Qed.
Lemma clocked_freq_correction ppm : inv clocked (rtlsdr_set_freq_correction ppm).
Proof.
  intros d Hd. unfold rtlsdr_set_freq_correction. rewrite st_bind_eq. cbn [st_get].
  destruct (_ =? _); [done|]. rewrite st_bind_eq. cbn [st_mod]. rewrite st_bind_eq.
  destruct (on_core _ _) as [r d1]. apply clocked_stored. inv_go; apply clocked_center_freq.
Qed.
Lemma clocked_repeater_init t m d : tuner_init t = Some m -> tuner d = Some t -> clocked (with_repeater m d).2.
Proof.
  intros Ei Et. unfold with_repeater. rewrite st_bind_eq, on_core_eq. rewrite st_bind_eq.
  pose proof (init_clocked t m (set_core (rtlsdr_set_i2c_repeater true (d_core d)).2 d) Ei Et) as HI.
  destruct (m _) as [r d1]. rewrite st_bind_eq.
  pose proof (clocked_on_core (rtlsdr_set_i2c_repeater false) (fun x k => clock_is_repeater x k false) d1 HI) as HR.
  by destruct (on_core _ d1).
Qed.
Lemma clocked_direct_sampling on : inv clocked (rtlsdr_set_direct_sampling on).
Proof.
  unfold rtlsdr_set_direct_sampling. apply inv_bind.
  2: { intros r. apply inv_bind; [apply inv_get|]. intros d. apply inv_bind; [apply clocked_center_freq|]. intros. apply inv_ret. }
  destruct (negb _); [apply keep_clocked; intros; apply keep_direct_sampling_on, _|].
  assert (D : forall p a v, inv clocked (on_core (rtlsdr_demod_write_reg p a v 1)))
    by (intros; apply clocked_on_core; intros; apply clock_is_demod).
  assert (F : forall f, inv clocked (on_core (rtlsdr_set_if_freq f)))
    by (intros; apply keep_clocked; intros; apply keep_if_freq, _).
  intros d Hd. unfold direct_sampling_off. rewrite st_bind_eq. cbn [st_get]. rewrite st_bind_eq.
  assert (HI : clocked ((match member d tuner_init with Some init => with_repeater init | None => mret 0 end) d).2).
  { unfold member. destruct (tuner d) as [t|] eqn:Et; [|done]. destruct (tuner_init t) as [m|] eqn:Ei; [|done].
    by apply (clocked_repeater_init t). }
  match type of HI with clocked ?x.2 => destruct x as [r d1] end. cbn [snd] in HI. revert d1 HI.
  match goal with |- forall d1, _ -> clocked (?m d1).2 => change (inv clocked m) end.
  inv_go; try apply D; try apply F. by intros ? ?.
Qed.
Lemma clocked_run_api o : inv clocked (run_api (U := U) o).
Proof.
  destruct o; cbn [run_api].
  - apply clocked_center_freq.
  - apply clocked_freq_correction.
  - apply clocked_xtal_freq.
  - apply clocked_sample_rate.
  - apply keep_clocked. intros. apply keep_bandwidth, _.
  - apply keep_clocked. intros. apply keep_gain, _.
  - apply keep_clocked. intros. apply keep_if_gain, _.
  - apply keep_clocked. intros. apply keep_gain_mode, _.
  - apply clocked_on_core. intros. apply clock_is_demod.
  - apply clocked_on_core. intros. apply clock_is_demod.
  - apply clocked_direct_sampling.
  - apply keep_clocked. intros. apply keep_offset_tuning, _.
  - apply clocked_on_core. intros. apply clock_is_bias.
  - apply clocked_on_core. intros. apply clock_is_write_eeprom.
  - apply inv_bind; [|intros []; apply inv_ret]. apply clocked_on_core. intros. apply clock_is_read_eeprom.
  - apply clocked_on_core. intros. unfold rtlsdr_reset_buffer. inv_go; apply clock_is_usb.
  - unfold rtlsdr_deinit_baseband. apply inv_bind; [apply inv_get|]. intros d. apply inv_bind.
    + destruct (member d tuner_exit) as [m|] eqn:E; [|apply inv_ret]. apply member_in in E as [t E].
      apply keep_clocked. intros. apply keep_repeater; [apply _|]. by apply (keep_tuner_exit _ _ _ _ _ t).
    + intros r. apply inv_bind; [|intros; apply inv_ret]. apply clocked_on_core. intros. apply clock_is_usb.
Qed.
Lemma clocked_session l : forall d : rtlsdr_dev U, clocked d -> clocked (run_session l d).
Proof. induction l as [|o l IH]; intros d Hd; [done|]. cbn [run_session]. by apply IH, clocked_run_api. Qed.

Lemma open_claimed_clocked (d : rtlsdr_dev U) : clocked (open_claimed d).2.
Proof.
  enough (triple (fun _ => True) open_claimed clocked) as T by by apply T. unfold open_claimed.
  do 6 (apply triple_bind with (fun _ => True); [done|]; intros ?).
  apply triple_bind with (fun _ => True); [done|]. intros [? [[m p] ?]].
  do 6 (apply triple_bind with (fun _ => True); [done|]; intros ?).
  intros d1 _. rewrite st_bind_eq. cbn [st_get]. rewrite st_bind_eq.
  assert (HI : clocked ((match member d1 tuner_init with Some init => _ ← init; mret tt | None => mret tt end) d1).2).
  { unfold member. destruct (tuner d1) as [t|] eqn:Et; [|unfold clocked; cbn; by rewrite Et].
    destruct (tuner_init t) as [i|] eqn:Ei; [|destruct t; try done; unfold clocked; cbn; by rewrite Et].
    rewrite st_bind_eq. pose proof (init_clocked t i d1 Ei Et) as HI. by destruct (i d1). }
  match type of HI with clocked ?x.2 => destruct x as [? d2] end.
  apply clocked_on_core; [intros; apply clock_is_repeater|done].
Qed.

Lemma open_clocked (u : U) malloc detach index r d : rtlsdr_open malloc detach index u = (r, inr d) -> clocked d.
Proof.
  intros Ho. revert Ho. unfold rtlsdr_open. destruct malloc; [|done]. cbn [negb].
  destruct (libusb_init u) as [r0 u0]. destruct (r0 <? 0); [done|].
  destruct (open_loop _ 0 index 0) as [i|]; [|done].
  destruct (libusb_open i u0) as [r1 u1]. destruct (r1 <? 0); [done|].
  destruct (libusb_kernel_driver_active _) as [active u3].
  destruct (libusb_detach_kernel_driver u3) as [x u4].
  destruct ((active =? 1) && detach); [destruct (negb (x =? 0)); [done|]|].
  1: destruct (libusb_claim_interface u4) as [r5 u5].
  2: destruct (libusb_claim_interface u3) as [r5 u5].
  all: destruct (r5 <? 0); [done|]; intros [= <- <-]; apply open_claimed_clocked.
Qed.

(** C14.  The tuner drivers never work with a stale clock: on a device from [rtlsdr_open], after
    any sequence of library calls with whatever results, changes of the crystal frequencies,
    of the correction and of direct sampling included, the clock in the structure of the E4000
    or R82xx driver in use is the tuner crystal with the frequency correction applied. *)
Theorem tuner_clock_current (u : U) malloc detach index r d (ops : list api_op) :
  rtlsdr_open malloc detach index u = (r, inr d) -> clocked (run_session ops d).
Proof. intros Ho. eapply clocked_session, open_clocked, Ho. Qed.

End Clocks.

(** The dongle with an R820T, and calls that move its clock. *)
Definition clock_ops : list api_op :=
  [Op_set_sample_rate 2048000; Op_set_freq_correction 50; Op_set_xtal_freq 28799500 0; Op_set_direct_sampling 0].

Lemma tuner_clock_current_witness :
  exists r d, rtlsdr_open true false 0 sim_r820t = (r, inr d) /\ tuner d = Some RTLSDR_TUNER_R820T /\
    clocked (run_session clock_ops d).
Proof.
  assert (T : match rtlsdr_open true false 0 sim_r820t with
              | (_, inr d) => bool_decide (tuner d = Some RTLSDR_TUNER_R820T)
              | _ => false
              end = true) by (vm_compute; reflexivity).
  destruct (rtlsdr_open true false 0 sim_r820t) as [r [u|d]] eqn:E; [discriminate T|].
  exists r, d. split; [reflexivity|]. split; [exact (bool_decide_eq_true_1 _ T)|].
  exact (tuner_clock_current sim_r820t true false 0 r d clock_ops E).
Defined.
End Clocks.
