(* ===== verification/LibrtlsdrAsync.v ===== *)
(** * Asynchronous streaming ([src/src/librtlsdr.c], lines 1773 to 2063)

    [stream] has the streaming members of [struct rtlsdr_dev] with the transfers and buffers
    they point to; [Module Async] has the callback of a transfer, the allocation and release
    of the buffers, [rtlsdr_read_async] and [rtlsdr_cancel_async].

    libusb decides what happens: an [event] ends a transfer that is in flight (one for a
    transfer that is not has no effect, nor has one that would complete a transfer whose
    cancellation libusb accepted: such a transfer ends as cancelled or failed, at any later
    time) or is a call of [rtlsdr_cancel_async] from elsewhere, and an [iteration] has what libusb does in one round of the event loop, each answer a
    function of the state.  The loop runs on the list of iterations there are; a run that
    needs more has no result yet.  The event handling and the statements of the loop are
    atomic; [_WIN32] is not defined. *)

From S2P Require Import Prelude.

Module Async.

Inductive rtlsdr_async_status := RTLSDR_INACTIVE | RTLSDR_CANCELING | RTLSDR_RUNNING.
Inductive libusb_transfer_status :=
  | LIBUSB_TRANSFER_COMPLETED
  | LIBUSB_TRANSFER_ERROR
  | LIBUSB_TRANSFER_TIMED_OUT
  | LIBUSB_TRANSFER_CANCELLED
  | LIBUSB_TRANSFER_STALL
  | LIBUSB_TRANSFER_NO_DEVICE
  | LIBUSB_TRANSFER_OVERFLOW.
#[global] Instance async_status_eq_dec : EqDecision rtlsdr_async_status.
Proof. solve_decision. Defined.
#[global] Instance transfer_status_eq_dec : EqDecision libusb_transfer_status.
Proof. solve_decision. Defined.

Definition DEFAULT_BUF_NUMBER : Z := 15.
Definition DEFAULT_BUF_LENGTH : Z := 16 * 32 * 512.
Definition LIBUSB_ERROR_INTERRUPTED : Z := -10.
Definition LIBUSB_ERROR_NOT_FOUND : Z := -5.
Definition ENOMEM : Z := 12.

(** A transfer: the member [status], whether libusb has it in flight, and whether libusb has
    accepted a cancellation of it. *)
Record libusb_transfer := mk_transfer { status : libusb_transfer_status; in_flight : bool; cancelling : bool }.

(** What an element of [xfer_buf] points to: nothing, memory of [malloc], memory of
    [libusb_dev_mem_alloc], or memory of the latter that was given back. *)
Inductive buffer := B_null | B_heap | B_mem | B_stale.

(** What is given back: a transfer, or a buffer by [libusb_dev_mem_free] or by [free]. *)
Inductive release :=
  | Free_transfer (i : nat)
  | Free_mem (i : nat) (b : buffer)
  | Free_heap (i : nat) (b : buffer).

(** [xfer] and [xfer_buf] are [None] for NULL.  [delivered] has the calls of the callback.
    [refused] and [early] record that a cancellation was refused for a transfer that was in
    flight, and that a transfer was released in flight; [released] has all that was given
    back. *)
Record stream := mk_stream {
  async_status : rtlsdr_async_status;
  async_cancel : bool;
  cb : bool;
  xfer_buf_num : Z;
  xfer_buf_len : Z;
  xfer : option (list (option libusb_transfer));
  xfer_buf : option (list buffer);
  use_zerocopy : bool;
  dev_lost : bool;
  xfer_errors : Z;
  delivered : list (list Z);
  refused : bool;
  early : bool;
  released : list release;
}.

Definition set_status v (s : stream) := mk_stream v (async_cancel s) (cb s) (xfer_buf_num s) (xfer_buf_len s) (xfer s)
  (xfer_buf s) (use_zerocopy s) (dev_lost s) (xfer_errors s) (delivered s) (refused s) (early s) (released s).
Definition set_cancel v (s : stream) := mk_stream (async_status s) v (cb s) (xfer_buf_num s) (xfer_buf_len s) (xfer s)
  (xfer_buf s) (use_zerocopy s) (dev_lost s) (xfer_errors s) (delivered s) (refused s) (early s) (released s).
Definition set_request c n l (s : stream) := mk_stream (async_status s) (async_cancel s) c n l (xfer s)
  (xfer_buf s) (use_zerocopy s) (dev_lost s) (xfer_errors s) (delivered s) (refused s) (early s) (released s).
Definition set_xfer v (s : stream) := mk_stream (async_status s) (async_cancel s) (cb s) (xfer_buf_num s) (xfer_buf_len s) v
  (xfer_buf s) (use_zerocopy s) (dev_lost s) (xfer_errors s) (delivered s) (refused s) (early s) (released s).
Definition set_bufs v z (s : stream) := mk_stream (async_status s) (async_cancel s) (cb s) (xfer_buf_num s) (xfer_buf_len s)
  (xfer s) v z (dev_lost s) (xfer_errors s) (delivered s) (refused s) (early s) (released s).
Definition set_lost v (s : stream) := mk_stream (async_status s) (async_cancel s) (cb s) (xfer_buf_num s) (xfer_buf_len s)
  (xfer s) (xfer_buf s) (use_zerocopy s) v (xfer_errors s) (delivered s) (refused s) (early s) (released s).
Definition set_errors v (s : stream) := mk_stream (async_status s) (async_cancel s) (cb s) (xfer_buf_num s) (xfer_buf_len s)
  (xfer s) (xfer_buf s) (use_zerocopy s) (dev_lost s) v (delivered s) (refused s) (early s) (released s).
Definition deliver v (s : stream) := mk_stream (async_status s) (async_cancel s) (cb s) (xfer_buf_num s) (xfer_buf_len s)
  (xfer s) (xfer_buf s) (use_zerocopy s) (dev_lost s) (xfer_errors s) (delivered s ++ [v]) (refused s) (early s) (released s).
Definition note_refused v (s : stream) := mk_stream (async_status s) (async_cancel s) (cb s) (xfer_buf_num s) (xfer_buf_len s)
  (xfer s) (xfer_buf s) (use_zerocopy s) (dev_lost s) (xfer_errors s) (delivered s) (refused s || v) (early s) (released s).
Definition note_early v (s : stream) := mk_stream (async_status s) (async_cancel s) (cb s) (xfer_buf_num s) (xfer_buf_len s)
  (xfer s) (xfer_buf s) (use_zerocopy s) (dev_lost s) (xfer_errors s) (delivered s) (refused s) (early s || v) (released s).
Definition note_released v (s : stream) := mk_stream (async_status s) (async_cancel s) (cb s) (xfer_buf_num s) (xfer_buf_len s)
  (xfer s) (xfer_buf s) (use_zerocopy s) (dev_lost s) (xfer_errors s) (delivered s) (refused s) (early s) (released s ++ [v]).

(** The transfer with a number, [None] also where the pointer is NULL. *)
Definition transfer (i : nat) (s : stream) : option libusb_transfer :=
  match xfer s with Some l => mjoin (l !! i) | None => None end.
Definition put_transfer (i : nat) (t : libusb_transfer) (s : stream) : stream :=
  match xfer s with Some l => set_xfer (Some (<[i := Some t]> l)) s | None => s end.
Definition flying (i : nat) (s : stream) : bool :=
  match transfer i s with Some t => in_flight t | None => false end.
(** Whether a transfer can end with a status. *)
Definition may_end (i : nat) (st : libusb_transfer_status) (s : stream) : bool :=
  match transfer i s with
  | Some t => in_flight t && negb (cancelling t && bool_decide (st = LIBUSB_TRANSFER_COMPLETED))
  | None => false
  end.

(** [libusb_submit_transfer] with result [r]. *)
Definition submit (i : nat) (r : Z) (s : stream) : stream :=
  match transfer i s with
  | Some t => if r <? 0 then s else put_transfer i (mk_transfer (status t) true false) s
  | None => s
  end.

Definition rtlsdr_cancel_async (s : stream) : Z * stream :=
  if decide (async_status s = RTLSDR_RUNNING)
  then (0, set_cancel true (set_status RTLSDR_CANCELING s))
  else (-2, s).

(** [resubmit] is what [libusb_submit_transfer] returns, [cancels] whether the caller's
    callback calls [rtlsdr_cancel_async]. *)
Definition _libusb_callback (i : nat) (st : libusb_transfer_status) (data : list Z) (resubmit : Z) (cancels : bool)
    (s : stream) : stream :=
  if decide (st = LIBUSB_TRANSFER_COMPLETED) then
    let s := if cb s then (let s := deliver data s in if cancels then (rtlsdr_cancel_async s).2 else s) else s in
    set_errors 0 (submit i resubmit s)
  else if decide (st = LIBUSB_TRANSFER_CANCELLED) then s
  else
    let s := if decide (st = LIBUSB_TRANSFER_ERROR) then set_errors (u32 (xfer_errors s + 1)) s else s in
    if (xfer_buf_num s <=? xfer_errors s) || bool_decide (st = LIBUSB_TRANSFER_NO_DEVICE)
    then set_lost true s else s.

Inductive event :=
  | Ev_transfer (i : nat) (st : libusb_transfer_status) (data : list Z) (resubmit : Z) (cancels : bool)
  | Ev_cancel.

Definition run_event (s : stream) (e : event) : stream :=
  match e with
  | Ev_transfer i st data resubmit cancels =>
      if may_end i st s
      then _libusb_callback i st data resubmit cancels (put_transfer i (mk_transfer st false false) s)
      else s
  | Ev_cancel => (rtlsdr_cancel_async s).2
  end.
Definition handle_events (l : list event) (s : stream) : stream := fold_left run_event l s.

(** [libusb_cancel_transfer] with result [r]. *)
Definition cancel_transfer (i : nat) (r : Z) (s : stream) : stream :=
  match transfer i s with
  | Some t => if r <? 0 then note_refused (in_flight t) s else put_transfer i (mk_transfer (status t) (in_flight t) true) s
  | None => s
  end.

(** *** Buffers *)

(** What the allocators yield, by number; [zerocopy] is whether the build uses
    [libusb_dev_mem_alloc], which yields nothing or memory that is zeroed or not. *)
Record memory := mk_memory {
  zerocopy : bool;
  alloc_transfer : nat -> bool;
  dev_mem_alloc : nat -> option bool;
  malloc : nat -> bool;
}.

(** The loop over [libusb_dev_mem_alloc]: the buffers, and whether all could be had. *)
Fixpoint mem_loop (m : memory) (i : nat) (bufs : list buffer) : list buffer * bool :=
  match bufs with
  | [] => ([], true)
  | b :: bufs =>
      match dev_mem_alloc m i with
      | None => (B_null :: bufs, false)
      | Some false => (B_mem :: bufs, false)
      | Some true => let '(l, ok) := mem_loop m (S i) bufs in (B_mem :: l, ok)
      end
  end.
(** The loop over [malloc]; it stops at the first that fails. *)
Fixpoint malloc_loop (m : memory) (i : nat) (bufs : list buffer) : list buffer * bool :=
  match bufs with
  | [] => ([], true)
  | b :: bufs =>
      if malloc m i then let '(l, ok) := malloc_loop m (S i) bufs in (B_heap :: l, ok)
      else (B_null :: bufs, false)
  end.

Definition _rtlsdr_alloc_async_buffers (m : memory) (s : stream) : Z * stream :=
  let n := Z.to_nat (xfer_buf_num s) in
  let s := match xfer s with
           | Some _ => s
           | None => set_xfer (Some ((fun i => if alloc_transfer m i
                       then Some (mk_transfer LIBUSB_TRANSFER_COMPLETED false false) else None) <$> seq 0 n)) s
           end in
  match xfer_buf s with
  | Some _ => (-2, s)
  | None =>
      let bufs := replicate n B_null in
      let '(bufs, zero) :=
        if zerocopy m
        then let '(bufs, ok) := mem_loop m 0 bufs in
             if ok : bool then (bufs, true)
             else ((fun b => match b with B_mem => B_stale | _ => b end) <$> bufs, false)
        else (bufs, use_zerocopy s) in
      if zero : bool then (0, set_bufs (Some bufs) zero s)
      else let '(bufs, ok) := malloc_loop m 0 bufs in
           (if ok : bool then 0 else - ENOMEM, set_bufs (Some bufs) zero s)
  end.

(** The loops that give the transfers and the buffers back. *)
Fixpoint free_transfers (n i : nat) (s : stream) : stream :=
  match n with
  | O => s
  | S n =>
      free_transfers n (S i)
        match transfer i s with
        | Some t => note_released (Free_transfer i) (note_early (in_flight t) s)
        | None => s
        end
  end.
Fixpoint free_bufs (bufs : list buffer) (n i : nat) (s : stream) : stream :=
  match n with
  | O => s
  | S n =>
      free_bufs bufs n (S i)
        match bufs !! i with
        | None | Some B_null => s
        | Some b => note_released (if use_zerocopy s then Free_mem i b else Free_heap i b) s
        end
  end.

Definition _rtlsdr_free_async_buffers (s : stream) : Z * stream :=
  let n := Z.to_nat (xfer_buf_num s) in
  let s := match xfer s with Some _ => set_xfer None (free_transfers n 0 s) | None => s end in
  (0, match xfer_buf s with Some bufs => set_bufs None (use_zerocopy s) (free_bufs bufs n 0 s) | None => s end).

(** *** Streaming *)

(** What libusb does in one round of the event loop: the result of
    [libusb_handle_events_timeout_completed] and the events it handled; for the cancellation
    of a transfer its result and the events handled behind it; the events handled at the
    end. *)
Record iteration := mk_iteration {
  it_result : Z;
  it_events : list event;
  it_cancel : nat -> stream -> Z * list event;
  it_last : list event;
}.

(** The loop that submits the transfers from number [i] on; [None] for a NULL transfer, which
    [libusb_fill_bulk_transfer] writes to. *)
Fixpoint submit_loop (results : nat -> Z) (n i : nat) (r : Z) (s : stream) : option (Z * stream) :=
  match n with
  | O => Some (r, s)
  | S n =>
      match transfer i s with
      | None => None
      | Some t =>
          let r := results i in
          let s := submit i r s in
          if r <? 0 then Some (r, set_status RTLSDR_CANCELING s) else submit_loop results n (S i) r s
      end
  end.

(** One pass over the transfers; [r] and [next] are the variables [r] and [next_status]. *)
Fixpoint cancel_pass (it : iteration) (n i : nat) (r : Z) (next : rtlsdr_async_status) (s : stream)
    : Z * rtlsdr_async_status * stream :=
  match n with
  | O => (r, next, s)
  | S n =>
      match transfer i s with
      | None => cancel_pass it n (S i) r next s
      | Some t =>
          if decide (status t = LIBUSB_TRANSFER_CANCELLED) then cancel_pass it n (S i) r next s
          else
            let '(r, events) := it_cancel it i s in
            let s := handle_events events (cancel_transfer i r s) in
            cancel_pass it n (S i) r (if r <? 0 then next else RTLSDR_CANCELING) s
      end
  end.

(** The event loop with the iterations there are: the variables [r] and [next_status] behind
    it, [None] while it goes on. *)
Fixpoint event_loop (l : list iteration) (r : Z) (next : rtlsdr_async_status) (s : stream)
    : option (Z * rtlsdr_async_status * stream) :=
  if decide (async_status s = RTLSDR_INACTIVE) then Some (r, next, s)
  else
    match l with
    | [] => None
    | it :: l =>
        let r := it_result it in
        let s := handle_events (it_events it) s in
        if r <? 0 then
          if r =? LIBUSB_ERROR_INTERRUPTED then event_loop l r next s else Some (r, next, s)
        else
          let s := if dev_lost s && bool_decide (async_status s = RTLSDR_RUNNING)
                   then set_status RTLSDR_CANCELING s else s in
          if decide (async_status s = RTLSDR_CANCELING) then
            match xfer s with
            | None => Some (r, RTLSDR_INACTIVE, s)
            | Some _ =>
                let '(r, next, s) := cancel_pass it (Z.to_nat (xfer_buf_num s)) 0 r RTLSDR_INACTIVE s in
                if dev_lost s || bool_decide (next = RTLSDR_INACTIVE)
                then Some (r, next, handle_events (it_last it) s)
                else event_loop l r next s
            end
          else event_loop l r next s
    end.

(** [has_cb] is whether the callback pointer is not NULL, [results] what the submissions
    return.  The outer [option] is undefined behaviour, the inner one a run that goes on. *)
Definition rtlsdr_read_async (m : memory) (results : nat -> Z) (l : list iteration)
    (has_cb : bool) (buf_num buf_len : Z) (s : stream) : option (option (Z * stream)) :=
  if decide (async_status s = RTLSDR_INACTIVE) then
    let s := set_cancel false (set_status RTLSDR_RUNNING s) in
    let s := set_request has_cb (if 0 <? buf_num then buf_num else DEFAULT_BUF_NUMBER)
               (if (0 <? buf_len) && (buf_len mod 512 =? 0) then buf_len else DEFAULT_BUF_LENGTH) s in
    let s := (_rtlsdr_alloc_async_buffers m s).2 in
    match submit_loop results (Z.to_nat (xfer_buf_num s)) 0 0 s with
    | None => None
    | Some (r, s) =>
        Some match event_loop l r RTLSDR_INACTIVE s with
             | None => None
             | Some (r, next, s) =>
                 let s := set_status next (_rtlsdr_free_async_buffers s).2 in
                 Some (if dev_lost s then -1 else r, s)
             end
    end
  else Some (Some (-2, s)).

Definition rtlsdr_wait_async (m : memory) (results : nat -> Z) (l : list iteration) (has_cb : bool) (s : stream) :=
  rtlsdr_read_async m results l has_cb 0 0 s.

End Async.

Module AsyncFacts.
Import Async.

(** ** What the events leave alone *)

Lemma transfer_put i j t s : transfer i s <> None ->
  transfer j (put_transfer i t s) = if decide (i = j) then Some t else transfer j s.
Proof.
  unfold transfer, put_transfer. destruct (xfer s) as [l|] eqn:E; [|done]. cbn. intros Hi.
  destruct (decide (i = j)) as [->|Hn].
  - rewrite list_lookup_insert_eq; [done|]. apply lookup_lt_is_Some. destruct (l !! j); [eauto|done].
  - by rewrite list_lookup_insert_ne by done.
Qed.
Lemma flying_some i s : flying i s = true -> exists t, transfer i s = Some t /\ in_flight t = true.
Proof. unfold flying. destruct (transfer i s) as [t|]; [|done]. eauto. Qed.
Lemma may_end_flying i st s : may_end i st s = true -> flying i s = true.
Proof. unfold may_end, flying. destruct (transfer i s) as [t|]; [|done]. by intros [? _]%andb_prop. Qed.

(** The steps a callback is made of. *)
Lemma transfer_submit i j r s :
  transfer j (submit i r s) = if decide (i = j) then (fun t => if r <? 0 then t else mk_transfer (status t) true false) <$> transfer j s
                              else transfer j s.
Proof.
  unfold submit. destruct (transfer i s) as [t|] eqn:E.
  - destruct (r <? 0); [destruct (decide (i = j)) as [<-|]; by rewrite ?E|].
    rewrite transfer_put by (by rewrite E). destruct (decide (i = j)) as [<-|]; by rewrite ?E.
  - destruct (decide (i = j)) as [<-|]; by rewrite ?E.
Qed.

Lemma transfer_ext i s s' : xfer s = xfer s' -> transfer i s = transfer i s'.
Proof. unfold transfer. by intros ->. Qed.
Lemma submit_ext i r s s' : xfer s = xfer s' -> xfer (submit i r s) = xfer (submit i r s').
Proof.
  intros E. unfold submit. rewrite (transfer_ext i s s' E). destruct (transfer i s'); [|done].
  destruct (r <? 0); [done|]. unfold put_transfer. rewrite E. destruct (xfer s') eqn:E'; cbn; congruence.
Qed.
Lemma cancel_async_xfer s : xfer (rtlsdr_cancel_async s).2 = xfer s.
Proof. unfold rtlsdr_cancel_async. by destruct (decide _). Qed.
Lemma callback_xfer i st data rs c s : xfer (_libusb_callback i st data rs c s) =
  xfer (if decide (st = LIBUSB_TRANSFER_COMPLETED) then submit i rs s else s).
Proof.
  unfold _libusb_callback. destruct (decide (st = LIBUSB_TRANSFER_COMPLETED)).
  - cbn [set_errors xfer]. apply submit_ext. destruct (cb s); [|done]. destruct c; [|done].
    by rewrite cancel_async_xfer.
  - destruct (decide (st = LIBUSB_TRANSFER_CANCELLED)); [done|].
    destruct (decide (st = LIBUSB_TRANSFER_ERROR)), (_ || _); done.
Qed.

(** An event changes no transfer but its own, and that one only from in flight. *)
Lemma event_transfer i st data rs c s j :
  transfer j (run_event s (Ev_transfer i st data rs c)) =
    if may_end i st s && bool_decide (i = j)
    then Some (mk_transfer st (bool_decide (st = LIBUSB_TRANSFER_COMPLETED) && negb (rs <? 0)) false) else transfer j s.
Proof.
  cbn [run_event]. destruct (may_end i st s) eqn:F; [|done]. apply may_end_flying, flying_some in F as (t & Et & _).
  rewrite (transfer_ext j _ _ (callback_xfer i st data rs c _)). cbn [andb].
  destruct (decide (st = LIBUSB_TRANSFER_COMPLETED)) as [->|].
  - rewrite transfer_submit, transfer_put by (by rewrite Et).
    destruct (decide (i = j)) as [->|]; [|by rewrite bool_decide_false].
    rewrite bool_decide_true by done. cbn. by destruct (rs <? 0).
  - rewrite transfer_put by (by rewrite Et). rewrite (bool_decide_false (st = _)) by done. cbn [andb].
    destruct (decide (i = j)) as [->|]; [by rewrite bool_decide_true|by rewrite bool_decide_false].
Qed.

(** What is not in flight stays so. *)
Lemma event_idle e s j : flying j s = false -> flying j (run_event s e) = false.
Proof.
  intros F. destruct e as [i st data rs c|]; unfold flying.
  - rewrite event_transfer. destruct (may_end i st s) eqn:Fi; [|done]. apply may_end_flying in Fi. cbn [andb].
    case_bool_decide as E; [subst j; congruence|done].
  - cbn [run_event]. by rewrite (transfer_ext j _ _ (cancel_async_xfer s)).
Qed.
Lemma events_idle l : forall s j, flying j s = false -> flying j (handle_events l s) = false.
Proof. induction l as [|e l IH]; intros s j F; [done|]. cbn. by apply IH, event_idle. Qed.

(** The members that only the event loop reads: none goes back. *)
Definition ahead (s s' : stream) : Prop :=
  xfer_buf_num s' = xfer_buf_num s /\ delivered s `prefix_of` delivered s' /\ use_zerocopy s' = use_zerocopy s /\
  (dev_lost s = true -> dev_lost s' = true) /\
  (refused s = true -> refused s' = true) /\ early s' = early s /\
  (async_status s <> RTLSDR_RUNNING -> async_status s' = async_status s) /\
  (async_status s <> RTLSDR_INACTIVE -> async_status s' <> RTLSDR_INACTIVE).

#[global] Instance ahead_preorder : PreOrder ahead.
Proof.
  split; [intros s; unfold ahead; split_and!; auto|]. intros x y z (A1&A2&A3&A4&A5&A6&A7&A8) (B1&B2&B3&B4&B5&B6&B7&B8).
  unfold ahead. split_and!; [congruence|by etransitivity|congruence|by auto|by auto|congruence| |by auto].
  intros Hx. rewrite B7; [by apply A7|]. by rewrite A7.
Qed.
Lemma ahead_cancel s : ahead s (rtlsdr_cancel_async s).2.
Proof. unfold rtlsdr_cancel_async. destruct (decide _) as [E|]; [|done]. unfold ahead. cbn. by rewrite E. Qed.
Lemma ahead_put i t s : ahead s (put_transfer i t s).
Proof. unfold put_transfer. by destruct (xfer s). Qed.
Lemma ahead_submit i r s : ahead s (submit i r s).
Proof. unfold submit. destruct (transfer i s); [|done]. destruct (r <? 0); [done|]. apply ahead_put. Qed.
Lemma ahead_deliver data s : ahead s (deliver data s).
Proof. unfold ahead. cbn. split_and!; auto. by apply prefix_app_r. Qed.
Lemma ahead_callback i st data rs c s : ahead s (_libusb_callback i st data rs c s).
Proof.
  unfold _libusb_callback. destruct (decide (st = LIBUSB_TRANSFER_COMPLETED)).
  - transitivity (if cb s then (let s := deliver data s in if c then (rtlsdr_cancel_async s).2 else s) else s).
    + destruct (cb s); [|done]. pose proof (ahead_deliver data s). destruct c; [|done].
      etransitivity; [done|apply ahead_cancel].
    + cbv zeta. etransitivity; [apply (ahead_submit i rs)|done].
  - destruct (decide (st = LIBUSB_TRANSFER_CANCELLED)); [done|].
    destruct (decide (st = LIBUSB_TRANSFER_ERROR)), (_ || _); done.
Qed.
Lemma ahead_event s e : ahead s (run_event s e).
Proof.
  destruct e; [|apply ahead_cancel]. cbn [run_event]. destruct (may_end i st s); [|done].
  etransitivity; [apply ahead_put|apply ahead_callback].
Qed.
Lemma ahead_events l : forall s, ahead s (handle_events l s).
Proof. induction l as [|e l IH]; intros s; [done|]. cbn. etransitivity; [apply ahead_event|apply IH]. Qed.
Lemma ahead_cancel_transfer i r s : ahead s (cancel_transfer i r s).
Proof.
  unfold cancel_transfer. destruct (transfer i s) as [t|]; [|done]. destruct (r <? 0); [|apply ahead_put].
  unfold ahead. cbn. split_and!; auto. by intros ->.
Qed.
Lemma transfer_cancel i r s j : transfer j (cancel_transfer i r s) =
  if decide (i = j) then (fun t => if r <? 0 then t else mk_transfer (status t) (in_flight t) true) <$> transfer j s
  else transfer j s.
Proof.
  unfold cancel_transfer. destruct (transfer i s) as [t|] eqn:E.
  - destruct (r <? 0); [destruct (decide (i = j)) as [<-|]; cbn; by rewrite ?E|].
    rewrite transfer_put by (by rewrite E). destruct (decide (i = j)) as [<-|]; by rewrite ?E.
  - destruct (decide (i = j)) as [<-|]; by rewrite ?E.
Qed.
Lemma flying_cancel i r s j : flying j (cancel_transfer i r s) = flying j s.
Proof.
  unfold flying. rewrite transfer_cancel. destruct (decide (i = j)); [|done]. destruct (transfer j s); [|done]. cbn.
  by destruct (r <? 0).
Qed.
Lemma refused_cancel i r s : refused (cancel_transfer i r s) = refused s || ((r <? 0) && flying i s).
Proof.
  unfold cancel_transfer, flying. destruct (transfer i s) as [t|]; [|by rewrite andb_false_r, orb_false_r].
  destruct (r <? 0); [done|]. rewrite orb_false_r. unfold put_transfer. by destruct (xfer s).
Qed.
Lemma event_refused s e : refused (run_event s e) = refused s.
Proof.
  destruct e as [i st data rs c|]; cbn [run_event].
  2: { unfold rtlsdr_cancel_async. by destruct (decide _). }
  destruct (may_end i st s); [|done].
  assert (P : refused (put_transfer i (mk_transfer st false false) s) = refused s) by (unfold put_transfer; by destruct (xfer s)).
  rewrite <- P. generalize (put_transfer i (mk_transfer st false false) s). intros s1. unfold _libusb_callback.
  destruct (decide (st = LIBUSB_TRANSFER_COMPLETED)).
  - cbn [set_errors refused]. assert (S : forall s, refused (submit i rs s) = refused s).
    { intros s2. unfold submit. destruct (transfer i s2); [|done]. destruct (rs <? 0); [done|].
      unfold put_transfer. by destruct (xfer s2). }
    rewrite S. destruct (cb s1); [|done]. destruct c; [|done]. unfold rtlsdr_cancel_async. by destruct (decide _).
  - destruct (decide (st = LIBUSB_TRANSFER_CANCELLED)); [done|].
    destruct (decide (st = LIBUSB_TRANSFER_ERROR)), (_ || _); done.
Qed.
Lemma events_refused l : forall s, refused (handle_events l s) = refused s.
Proof. induction l as [|e l IH]; intros s; [done|]. cbn. rewrite IH. apply event_refused. Qed.

(** ** The shape of the stream in the loop *)

(** The number of transfers, and that a transfer whose status is CANCELLED
    is not in flight. *)
Definition shape (n : nat) (s : stream) : Prop :=
  Z.to_nat (xfer_buf_num s) = n /\ xfer s <> None /\
  (forall i t, transfer i s = Some t -> status t = LIBUSB_TRANSFER_CANCELLED -> in_flight t = false) /\
  async_status s <> RTLSDR_INACTIVE.

Lemma event_xfer s e : xfer s <> None -> xfer (run_event s e) <> None.
Proof.
  destruct e as [j st data rs c|]; cbn [run_event]; [|by rewrite cancel_async_xfer].
  intros Hx. destruct (may_end j st s); [|done]. rewrite callback_xfer.
  assert (P : xfer (put_transfer j (mk_transfer st false false) s) <> None) by (unfold put_transfer; by destruct (xfer s)).
  destruct (decide _); [|done]. unfold submit. destruct (transfer j _); [|done]. destruct (rs <? 0); [done|].
  unfold put_transfer at 1. by destruct (xfer (put_transfer j (mk_transfer st false false) s)).
Qed.
Lemma event_shape n s e : shape n s -> shape n (run_event s e).
Proof.
  intros (H1 & H2 & H4 & H5). destruct (ahead_event s e) as (A1 & _ & _ & _ & _ & _ & _ & A8).
  split_and!; [by rewrite A1|by apply event_xfer| |by apply A8].
  intros i t. destruct e as [j st data rs c|].
  - rewrite event_transfer. destruct (may_end j st s && bool_decide (j = i)); [|apply H4]. intros [= <-]. cbn.
    by intros ->.
  - cbn [run_event]. rewrite (transfer_ext i _ _ (cancel_async_xfer s)). apply H4.
Qed.
Lemma events_shape n l : forall s, shape n s -> shape n (handle_events l s).
Proof. induction l as [|e l IH]; intros s Hs; [done|]. cbn. by apply IH, event_shape. Qed.
Lemma cancel_transfer_shape n i r s : shape n s -> shape n (cancel_transfer i r s).
Proof.
  intros (H1 & H2 & H4 & H5). destruct (ahead_cancel_transfer i r s) as (A1 & _ & _ & _ & _ & _ & _ & A8).
  split_and!; [by rewrite A1| | |by apply A8].
  - unfold cancel_transfer, put_transfer. destruct (transfer i s); [|done]. destruct (r <? 0); [done|]. by destruct (xfer s).
  - intros j t. rewrite transfer_cancel. destruct (decide (i = j)); [|apply H4].
    destruct (transfer j s) as [t0|] eqn:E; [|done]. cbn. intros [= <-]. destruct (r <? 0); apply (H4 j t0 E).
Qed.

(** ** A pass over the transfers *)

Lemma cancel_pass_shape it n : forall k i r next s, shape k s -> shape k (cancel_pass it n i r next s).2.
Proof.
  induction n as [|n IH]; intros k i r next s Hs; [done|]. cbn [cancel_pass].
  destruct (transfer i s); [|by apply IH]. destruct (decide _); [by apply IH|].
  destruct (it_cancel it i s) as [r1 ev]. by apply IH, events_shape, cancel_transfer_shape.
Qed.
Lemma cancel_pass_ahead it n : forall i r next s, ahead s (cancel_pass it n i r next s).2.
Proof.
  induction n as [|n IH]; intros i r next s; [done|]. cbn [cancel_pass].
  destruct (transfer i s); [|by apply IH]. destruct (decide _); [by apply IH|].
  destruct (it_cancel it i s) as [r1 ev]. etransitivity; [|apply IH].
  etransitivity; [apply ahead_cancel_transfer|apply ahead_events].
Qed.
Lemma cancel_pass_idle it n : forall i r next s j, flying j s = false -> flying j (cancel_pass it n i r next s).2 = false.
Proof.
  induction n as [|n IH]; intros i r next s j F; [done|]. cbn [cancel_pass].
  destruct (transfer i s); [|by apply IH]. destruct (decide _); [by apply IH|].
  destruct (it_cancel it i s) as [r1 ev]. apply IH, events_idle. by rewrite flying_cancel.
Qed.
Lemma cancel_pass_next it n : forall i r s, (cancel_pass it n i r RTLSDR_CANCELING s).1.2 = RTLSDR_CANCELING.
Proof.
  induction n as [|n IH]; intros i r s; [done|]. cbn [cancel_pass].
  destruct (transfer i s); [|by apply IH]. destruct (decide _); [by apply IH|].
  destruct (it_cancel it i s) as [r1 ev]. destruct (r1 <? 0); apply IH.
Qed.

(** A pass that finds nothing to wait for leaves nothing in flight, unless libusb refused to
    cancel a transfer in flight. *)
Lemma cancel_pass_done it k n : forall i r s, shape k s ->
  (cancel_pass it n i r RTLSDR_INACTIVE s).1.2 = RTLSDR_INACTIVE -> refused (cancel_pass it n i r RTLSDR_INACTIVE s).2 = false ->
  forall j, (i <= j < i + n)%nat -> flying j (cancel_pass it n i r RTLSDR_INACTIVE s).2 = false.
Proof.
  induction n as [|n IH]; intros i r s Hs; [intros _ _ j Hj; lia|].
  assert (Hd : forall r s, shape k s -> flying i s = false ->
    (cancel_pass it n (S i) r RTLSDR_INACTIVE s).1.2 = RTLSDR_INACTIVE ->
    refused (cancel_pass it n (S i) r RTLSDR_INACTIVE s).2 = false ->
    forall j, (i <= j < i + S n)%nat -> flying j (cancel_pass it n (S i) r RTLSDR_INACTIVE s).2 = false).
  { intros r1 s1 H1 F Hn Hr j Hj. destruct (decide (j = i)) as [->|]; [by apply cancel_pass_idle|].
    apply IH; [done..|lia]. }
  cbn [cancel_pass]. destruct (transfer i s) as [t|] eqn:Et; [|apply Hd; [done|]; unfold flying; by rewrite Et].
  destruct (decide (status t = LIBUSB_TRANSFER_CANCELLED)) as [Ec|].
  { apply Hd; [done|]. unfold flying. rewrite Et. destruct Hs as (_ & _ & H4 & _). by apply (H4 i). }
  destruct (it_cancel it i s) as [r1 ev]. destruct (r1 <? 0) eqn:Er; [|by rewrite cancel_pass_next].
  intros Hn Hr. apply Hd; [by apply events_shape, cancel_transfer_shape| |done|done].
  apply events_idle. rewrite flying_cancel.
  destruct (flying i s) eqn:F; [|done]. exfalso.
  destruct (cancel_pass_ahead it n (S i) r1 RTLSDR_INACTIVE (handle_events ev (cancel_transfer i r1 s)))
    as (_ & _ & _ & _ & A5 & _). rewrite Hr in A5. discriminate A5. rewrite events_refused, refused_cancel, Er, F.
  apply orb_true_r.
Qed.

(** ** The loop *)

Lemma loop_start_shape n s : shape n s ->
  shape n (if dev_lost s && bool_decide (async_status s = RTLSDR_RUNNING) then set_status RTLSDR_CANCELING s else s).
Proof. destruct (_ && _); [|done]. intros (H1&H2&H4&H5). split_and!; try done. Qed.
Lemma loop_start_ahead s :
  ahead s (if dev_lost s && bool_decide (async_status s = RTLSDR_RUNNING) then set_status RTLSDR_CANCELING s else s).
Proof.
  destruct (dev_lost s) eqn:E; [|done]. case_bool_decide as R; [|done]. unfold ahead. cbn. rewrite R. split_and!; auto; done.
Qed.

Definition no_event_error (it : iteration) : Prop := 0 <= it_result it \/ it_result it = LIBUSB_ERROR_INTERRUPTED.

Lemma event_loop_ends n l : forall r next s r' next' s', shape n s ->
  event_loop l r next s = Some (r', next', s') ->
  ahead s s' /\ (Forall no_event_error l -> dev_lost s' = false ->
    next' = RTLSDR_INACTIVE /\ (refused s' = false -> forall i, (i < n)%nat -> flying i s' = false)).
Proof.
  induction l as [|it l IH]; intros r next s r' next' s' Hs; cbn [event_loop].
  { destruct (decide _) as [E|]; [|done]. by destruct Hs as (_&_&_&[]). }
  destruct (decide _) as [E|_]; [by destruct Hs as (_&_&_&[])|].
  cbv zeta.
  pose proof (ahead_events (it_events it) s) as A1. pose proof (events_shape n (it_events it) s Hs) as S1.
  revert A1 S1. generalize (handle_events (it_events it) s). intros s1 A1 S1.
  destruct (Z.ltb_spec (it_result it) 0).
  { destruct (Z.eqb_spec (it_result it) LIBUSB_ERROR_INTERRUPTED).
    - intros E. destruct (IH _ _ _ _ _ _ S1 E) as [A2 K]. split; [by transitivity s1|].
      intros Hl. inversion Hl; subst. by apply K.
    - intros [= <- <- <-]. split; [done|]. intros Hl. inversion Hl as [|? ? [] ?]; subst; [lia|done]. }
  pose proof (loop_start_ahead s1) as A2. pose proof (loop_start_shape n s1 S1) as S2. revert A2 S2.
  generalize (if dev_lost s1 && bool_decide (async_status s1 = RTLSDR_RUNNING) then set_status RTLSDR_CANCELING s1 else s1).
  intros s2 A2 S2. assert (A : ahead s s2) by (by transitivity s1).
  assert (Hgo : forall r next s3, ahead s s3 -> shape n s3 -> event_loop l r next s3 = Some (r', next', s') ->
    ahead s s' /\ (Forall no_event_error (it :: l) -> dev_lost s' = false ->
      next' = RTLSDR_INACTIVE /\ (refused s' = false -> forall i, (i < n)%nat -> flying i s' = false))).
  { intros r3 next3 s3 A3 S3 E. destruct (IH _ _ _ _ _ _ S3 E) as [A4 K]. split; [by transitivity s3|].
    intros Hl. inversion Hl; subst. by apply K. }
  destruct (decide (async_status s2 = RTLSDR_CANCELING)); [|by apply Hgo].
  destruct (xfer s2) as [x|] eqn:Ex; [|by destruct S2 as (_&[]&_)].
  destruct S2 as (Hn & S2'). rewrite Hn. assert (S2 : shape n s2) by (by split).
  pose proof (cancel_pass_ahead it n 0 (it_result it) RTLSDR_INACTIVE s2) as A3.
  pose proof (cancel_pass_shape it n n 0 (it_result it) RTLSDR_INACTIVE s2 S2) as S3.
  pose proof (cancel_pass_done it n n 0 (it_result it) s2 S2) as D.
  destruct (cancel_pass it n 0 (it_result it) RTLSDR_INACTIVE s2) as [[r3 next3] s3]. cbn [fst snd] in *.
  destruct (dev_lost s3) eqn:L3; cbn [orb].
  - intros [= <- <- <-]. pose proof (ahead_events (it_last it) s3) as A4. split; [by rewrite A, A3|].
    destruct A4 as (_&_&_&A4&_). rewrite (A4 L3). done.
  - case_bool_decide as E3; [|apply Hgo; [by transitivity s2|done]]. intros [= <- <- <-].
    pose proof (ahead_events (it_last it) s3) as A4. split; [by rewrite A, A3|]. intros _ _. split; [done|].
    intros Hr i Hi. apply events_idle, D; [done| |lia]. by rewrite events_refused in Hr.
Qed.

(** ** Before the loop *)

Definition fresh (s : stream) : Prop := forall i t, transfer i s = Some t -> status t = LIBUSB_TRANSFER_COMPLETED.

Lemma submit_fresh i r s : fresh s -> fresh (submit i r s).
Proof.
  intros Hf j t. rewrite transfer_submit. destruct (decide (i = j)) as [->|]; [|apply Hf].
  destruct (transfer j s) as [t'|] eqn:E; [|done]. intros [= <-]. pose proof (Hf j t' E). by destruct (r <? 0).
Qed.
Lemma submit_xfer i r s : xfer s <> None -> xfer (submit i r s) <> None.
Proof.
  intros Hx. unfold submit. destruct (transfer i s); [|done]. destruct (r <? 0); [done|].
  unfold put_transfer. by destruct (xfer s).
Qed.
Lemma submit_refused i r s : refused (submit i r s) = refused s.
Proof. unfold submit, put_transfer. destruct (transfer i s), (r <? 0), (xfer s); done. Qed.
Lemma fresh_shape s : fresh s -> xfer s <> None -> async_status s <> RTLSDR_INACTIVE -> shape (Z.to_nat (xfer_buf_num s)) s.
Proof. intros Hf Hx Ha. split_and!; try done. intros i t Ht. by rewrite (Hf i t Ht). Qed.

(** Submitting: the transfers are as they were allocated, or the stream is to be cancelled. *)
Lemma submit_loop_start results n : forall i r s r' s', fresh s -> xfer s <> None -> async_status s = RTLSDR_RUNNING ->
  submit_loop results n i r s = Some (r', s') ->
  shape (Z.to_nat (xfer_buf_num s)) s' /\ ahead s s' /\ refused s' = refused s.
Proof.
  induction n as [|n IH]; intros i r s r' s' Hf Hx Hr; cbn [submit_loop].
  { intros [= <- <-]. split; [apply fresh_shape; [done..|by rewrite Hr]|done]. }
  destruct (transfer i s) as [t|]; [|done]. cbv zeta.
  pose proof (submit_fresh i (results i) s Hf) as Hf1. pose proof (submit_xfer i (results i) s Hx) as Hx1.
  pose proof (ahead_submit i (results i) s) as A1. pose proof (submit_refused i (results i) s) as R1.
  assert (Hr1 : async_status (submit i (results i) s) = RTLSDR_RUNNING).
  { unfold submit, put_transfer. by destruct (transfer i s), (results i <? 0), (xfer s). }
  pose proof A1 as (B1 & _). destruct (results i <? 0).
  - intros [= <- <-]. split_and!; [|etransitivity; [exact A1|]|done].
    + rewrite <- B1. by apply (fresh_shape (set_status RTLSDR_CANCELING (submit i (results i) s))).
    + unfold ahead. cbn. rewrite Hr1. split_and!; auto; done.
  - intros E. destruct (IH _ _ _ _ _ Hf1 Hx1 Hr1 E) as (S2 & A2 & R2). rewrite <- B1. split_and!; [done|by transitivity (submit i (results i) s)|].
    congruence.
Qed.

Lemma alloc_start m s : xfer s = None ->
  let s' := (_rtlsdr_alloc_async_buffers m s).2 in
  fresh s' /\ xfer s' <> None /\ async_status s' = async_status s /\ xfer_buf_num s' = xfer_buf_num s /\
  dev_lost s' = dev_lost s /\ refused s' = refused s /\ early s' = early s /\ delivered s' = delivered s /\ cb s' = cb s.
Proof.
  intros Hx. unfold _rtlsdr_alloc_async_buffers. rewrite Hx. cbv zeta.
  set (s1 := set_xfer _ s).
  assert (F : fresh s1 /\ xfer s1 <> None).
  { split; [|done]. intros i t. unfold transfer. cbn. rewrite list_lookup_fmap.
    destruct (seq 0 _ !! i); [|done]. cbn. destruct (alloc_transfer m _); [|done]. by intros [= <-]. }
  destruct (xfer_buf s1); [split_and!; try done; by destruct F|].
  destruct (zerocopy m); [destruct (mem_loop m 0 _) as [b []]|destruct (use_zerocopy s1)];
    try destruct (malloc_loop m 0 _) as [b' ok']; cbn [snd];
    (split; [exact (proj1 F)|]; split; [exact (proj2 F)|]; split_and!; done).
Qed.

(** ** A libusb that cancels *)

(** Whether a transfer is in flight without an accepted cancellation. *)
Definition ready (i : nat) (s : stream) : bool :=
  match transfer i s with Some t => in_flight t && negb (cancelling t) | None => false end.

(** Handling events works, and a cancellation is accepted for the transfers in flight that
    have none accepted yet, and for no other.  When an accepted one takes effect is open. *)
Definition cooperative (it : iteration) : Prop :=
  0 <= it_result it /\ forall i s, 0 <= (it_cancel it i s).1 <-> ready i s = true.

(** Events make nothing ready that was not: what was accepted stays so until the transfer
    ends, and then it is not submitted again. *)
Lemma event_unready e s j : ready j s = false -> ready j (run_event s e) = false.
Proof.
  intros F. destruct e as [i st data rs c|]; unfold ready.
  - rewrite event_transfer. destruct (may_end i st s) eqn:Fi; [|done]. cbn [andb]. case_bool_decide as E; [subst j|done].
    cbn. rewrite andb_true_r. revert F Fi. unfold ready, may_end. destruct (transfer i s) as [[t f c0]|]; [|done]. cbn.
    destruct f, c0; try done. by case_bool_decide.
  - cbn [run_event]. by rewrite (transfer_ext j _ _ (cancel_async_xfer s)).
Qed.
Lemma events_unready l : forall s j, ready j s = false -> ready j (handle_events l s) = false.
Proof. induction l as [|e l IH]; intros s j F; [done|]. cbn. by apply IH, event_unready. Qed.
Lemma cancel_unready i r s j : ready j s = false -> ready j (cancel_transfer i r s) = false.
Proof.
  unfold ready. rewrite transfer_cancel. destruct (decide (i = j)); [|done]. destruct (transfer j s) as [t|]; [|done]. cbn.
  destruct (r <? 0); [done|]. by rewrite andb_false_r.
Qed.
Lemma cancel_accepted it i s : cooperative it -> ready i (cancel_transfer i (it_cancel it i s).1 s) = false.
Proof.
  intros [_ Hc]. specialize (Hc i s). destruct (ready i s) eqn:R; [|by apply cancel_unready].
  unfold ready. rewrite transfer_cancel, decide_True by done. destruct (transfer i s) as [t|]; [|done]. cbn.
  destruct Hc as [_ Hc]. specialize (Hc eq_refl). destruct (Z.ltb_spec (it_cancel it i s).1 0); [lia|]. by rewrite andb_false_r.
Qed.
Lemma cancel_pass_unready it n : forall i r next s j, ready j s = false -> ready j (cancel_pass it n i r next s).2 = false.
Proof.
  induction n as [|n IH]; intros i r next s j F; [done|]. cbn [cancel_pass].
  destruct (transfer i s); [|by apply IH]. destruct (decide _); [by apply IH|].
  destruct (it_cancel it i s) as [r1 ev]. by apply IH, events_unready, cancel_unready.
Qed.

(** Behind one pass no transfer is ready. *)
Lemma cancel_pass_stops it k n : cooperative it -> forall i r next s, shape k s ->
  forall j, (i <= j < i + n)%nat -> ready j (cancel_pass it n i r next s).2 = false.
Proof.
  intros Hc. induction n as [|n IH]; intros i r next s Hs; [intros j Hj; lia|].
  assert (Hd : forall r next s', shape k s' -> ready i s' = false ->
    forall j, (i <= j < i + S n)%nat -> ready j (cancel_pass it n (S i) r next s').2 = false).
  { intros r1 next1 s1 H1 F j Hj.
    destruct (decide (j = i)) as [->|]; [by apply cancel_pass_unready|apply IH; [done|lia]]. }
  cbn [cancel_pass]. destruct (transfer i s) as [t|] eqn:Et; [|apply Hd; [done|]; unfold ready; by rewrite Et].
  destruct (decide (status t = LIBUSB_TRANSFER_CANCELLED)) as [Ec|].
  { apply Hd; [done|]. unfold ready. rewrite Et. destruct Hs as (_ & _ & H4 & _). by rewrite (H4 i t Et Ec). }
  pose proof (cancel_accepted it i s Hc) as F. destruct (it_cancel it i s) as [r1 ev].
  apply Hd; [by apply events_shape, cancel_transfer_shape|by apply events_unready].
Qed.

(** A pass over transfers none of which is ready has nothing to wait for. *)
Lemma cancel_pass_nothing it n : cooperative it -> forall i r s, (forall j, (i <= j < i + n)%nat -> ready j s = false) ->
  (cancel_pass it n i r RTLSDR_INACTIVE s).1.2 = RTLSDR_INACTIVE.
Proof.
  intros Hc. induction n as [|n IH]; intros i r s Hs; [done|]. cbn [cancel_pass].
  assert (Hd : forall j, (S i <= j < S i + n)%nat -> ready j s = false) by (intros; apply Hs; lia).
  destruct (transfer i s) as [t|]; [|by apply IH]. destruct (decide _); [by apply IH|].
  destruct Hc as [_ Hc]. specialize (Hc i s). rewrite Hs in Hc by lia. destruct (it_cancel it i s) as [r1 ev]. cbn [fst] in Hc.
  destruct (Z.ltb_spec r1 0); [|by destruct Hc as [Hc _]; specialize (Hc ltac:(lia))].
  apply IH. intros j Hj. by apply events_unready, cancel_unready, Hd.
Qed.

(** A libusb that is done with a transfer in the call behind its cancellation. *)
Definition at_once (it : iteration) : Prop := forall i s,
  flying i (handle_events (it_cancel it i s).2 (cancel_transfer i (it_cancel it i s).1 s)) = false.
(** No cancellation is under way. *)
Definition calm (s : stream) : Prop := forall i, flying i s = true -> ready i s = true.

Lemma event_calm s e : calm s -> calm (run_event s e).
Proof.
  intros Hc j. destruct e as [i st data rs c|]; unfold flying, ready.
  - rewrite event_transfer. destruct (_ && _); [|apply (Hc j)]. cbn. by rewrite andb_true_r.
  - cbn [run_event]. rewrite !(transfer_ext j _ _ (cancel_async_xfer s)). apply (Hc j).
Qed.
Lemma events_calm l : forall s, calm s -> calm (handle_events l s).
Proof. induction l as [|e l IH]; intros s Hc; [done|]. cbn. by apply IH, event_calm. Qed.

(** What the events do to the other transfers does not depend on the one that is cancelled. *)
Definition calm_but (i : nat) (s : stream) : Prop := forall j, j <> i -> flying j s = true -> ready j s = true.
Lemma events_calm_but i l : forall s, calm_but i s -> calm_but i (handle_events l s).
Proof.
  induction l as [|e l IH]; intros s Hc; [done|]. cbn. apply IH. intros j Hj. destruct e as [k st data rs c|]; unfold flying, ready.
  - rewrite event_transfer. destruct (_ && _); [|by apply (Hc j)]. cbn. by rewrite andb_true_r.
  - cbn [run_event]. rewrite !(transfer_ext j _ _ (cancel_async_xfer s)). by apply (Hc j).
Qed.
Lemma cancel_calm it i s : cooperative it -> at_once it -> calm s ->
  let s' := handle_events (it_cancel it i s).2 (cancel_transfer i (it_cancel it i s).1 s) in
  calm s' /\ refused s' = refused s.
Proof.
  intros [_ Hc] Ha Hs s'. split.
  - intros j Hf. destruct (decide (j = i)) as [->|]; [unfold s' in Hf; by rewrite Ha in Hf|].
    apply (events_calm_but i); [|done|done]. intros k Hk. rewrite flying_cancel. unfold ready. rewrite transfer_cancel.
    rewrite decide_False by done. apply (Hs k).
  - unfold s'. rewrite events_refused, refused_cancel. specialize (Hc i s). specialize (Hs i).
    destruct (Z.ltb_spec (it_cancel it i s).1 0); [|by rewrite orb_false_r]. destruct (flying i s); [|by rewrite orb_false_r].
    destruct Hc as [_ Hc]. specialize (Hc (Hs eq_refl)). lia.
Qed.
Lemma cancel_pass_calm it n : cooperative it -> at_once it -> forall i r next s, calm s ->
  calm (cancel_pass it n i r next s).2 /\ refused (cancel_pass it n i r next s).2 = refused s.
Proof.
  intros Hc Ha. induction n as [|n IH]; intros i r next s Hs; [done|]. cbn [cancel_pass].
  destruct (transfer i s) as [t|]; [|by apply IH]. destruct (decide _); [by apply IH|].
  pose proof (cancel_calm it i s Hc Ha Hs) as K. cbv zeta in K. destruct (it_cancel it i s) as [r1 ev]. cbn [fst snd] in K.
  destruct K as [K1 K2]. rewrite <- K2. by apply IH.
Qed.

Lemma stays_canceling s l : async_status s = RTLSDR_CANCELING -> async_status (handle_events l s) = RTLSDR_CANCELING.
Proof. intros Hs. destruct (ahead_events l s) as (_&_&_&_&_&_&A&_). rewrite A; [done|by rewrite Hs]. Qed.
Lemma cancel_seen l : forall s, In Ev_cancel l -> async_status s <> RTLSDR_INACTIVE ->
  async_status (handle_events l s) = RTLSDR_CANCELING.
Proof.
  induction l as [|e l IH]; intros s Hin Hs; [done|]. change (handle_events (e :: l) s) with (handle_events l (run_event s e)).
  destruct Hin as [->|Hin].
  - apply stays_canceling. cbn. unfold rtlsdr_cancel_async. destruct (decide _); [done|]. cbn.
    destruct (async_status s); congruence.
  - apply IH; [done|]. destruct (ahead_event s e) as (_&_&_&_&_&_&_&A). by apply A.
Qed.

(** The loop on a cancelled stream. *)
Lemma canceling_pass it l r next s n : shape n s -> cooperative it -> async_status (handle_events (it_events it) s) = RTLSDR_CANCELING ->
  event_loop (it :: l) r next s =
    let '(r, next, s) := cancel_pass it n 0 (it_result it) RTLSDR_INACTIVE (handle_events (it_events it) s) in
    if dev_lost s || bool_decide (next = RTLSDR_INACTIVE) then Some (r, next, handle_events (it_last it) s)
    else event_loop l r next s.
Proof.
  intros Hs [Hr _] Hc. cbn [event_loop]. rewrite decide_False by apply Hs. cbv zeta.
  destruct (Z.ltb_spec (it_result it) 0); [lia|]. rewrite Hc.
  rewrite (bool_decide_false (RTLSDR_CANCELING = RTLSDR_RUNNING)) by done. rewrite andb_false_r, Hc, decide_True by done.
  destruct (events_shape n (it_events it) s Hs) as (Hn & Hx & _). rewrite Hn.
  by destruct (xfer (handle_events (it_events it) s)).
Qed.

(** Two rounds after the cancellation the loop is over. *)
Lemma canceling_ends it it2 l r next s n : shape n s -> cooperative it -> cooperative it2 -> In Ev_cancel (it_events it) ->
  event_loop (it :: it2 :: l) r next s <> None.
Proof.
  intros Hs H1 H2 Hin. pose proof (cancel_seen _ s Hin ltac:(apply Hs)) as Hc.
  rewrite (canceling_pass it _ _ _ _ n) by done. pose proof (events_shape n (it_events it) s Hs) as S1.
  revert Hc S1. generalize (handle_events (it_events it) s). intros s1 Hc S1.
  pose proof (cancel_pass_stops it n n H1 0 (it_result it) RTLSDR_INACTIVE s1 S1) as Hi.
  pose proof (cancel_pass_shape it n n 0 (it_result it) RTLSDR_INACTIVE s1 S1) as S2.
  pose proof (cancel_pass_ahead it n 0 (it_result it) RTLSDR_INACTIVE s1) as (_&_&_&_&_&_&A&_).
  destruct (cancel_pass it n 0 _ _ s1) as [[r2 next2] s2]. cbn [fst snd] in *.
  destruct (dev_lost s2 || _); [done|].
  assert (C2 : async_status (handle_events (it_events it2) s2) = RTLSDR_CANCELING)
    by (apply stays_canceling; rewrite A; [done|by rewrite Hc]).
  rewrite (canceling_pass it2 _ _ _ _ n) by done.
  pose proof (cancel_pass_nothing it2 n H2 0 (it_result it2) (handle_events (it_events it2) s2)
    (fun j Hj => events_unready _ _ _ (Hi j Hj))) as N.
  destruct (cancel_pass it2 n 0 _ _ _) as [[r3 next3] s3]. cbn in N. subst next3.
  by rewrite (bool_decide_true (RTLSDR_INACTIVE = _)), orb_true_r.
Qed.
Lemma event_loop_stops l1 it it2 l2 n : cooperative it -> cooperative it2 -> In Ev_cancel (it_events it) ->
  forall r next s, shape n s -> event_loop (l1 ++ it :: it2 :: l2) r next s <> None.
Proof.
  intros H1 H2 Hin. induction l1 as [|x l1 IH]; intros r next s Hs; [by apply (canceling_ends _ _ _ _ _ _ n)|].
  cbn [app event_loop]. rewrite decide_False by apply Hs. cbv zeta.
  pose proof (events_shape n (it_events x) s Hs) as S1. revert S1. generalize (handle_events (it_events x) s). intros s1 S1.
  destruct (it_result x <? 0); [destruct (_ =? _); [by apply IH|done]|].
  pose proof (loop_start_shape n s1 S1) as S2. revert S2.
  generalize (if dev_lost s1 && bool_decide (async_status s1 = RTLSDR_RUNNING) then set_status RTLSDR_CANCELING s1 else s1).
  intros s2 S2. destruct (decide (async_status s2 = RTLSDR_CANCELING)); [|by apply IH]. destruct (xfer s2); [|done].
  pose proof (cancel_pass_shape x (Z.to_nat (xfer_buf_num s2)) n 0 (it_result x) RTLSDR_INACTIVE s2 S2) as S3.
  destruct (cancel_pass x _ 0 _ _ s2) as [[r3 next3] s3]. destruct (dev_lost s3 || _); [done|by apply IH].
Qed.

(** Where cancellations are accepted and take effect at once nothing is refused. *)
Lemma event_loop_refused l n : forall r next s r' next' s', Forall cooperative l -> Forall at_once l -> shape n s -> calm s ->
  event_loop l r next s = Some (r', next', s') -> refused s' = refused s.
Proof.
  induction l as [|it l IH]; intros r next s r' next' s' Hl Ha Hs Hk; cbn [event_loop]; (rewrite decide_False by apply Hs); [done|].
  inversion Hl as [|? ? Hit Hl']; inversion Ha as [|? ? Hat Ha']; subst. cbv zeta. rewrite <- (events_refused (it_events it) s).
  pose proof (events_shape n (it_events it) s Hs) as S1. pose proof (events_calm (it_events it) s Hk) as K1. revert S1 K1.
  generalize (handle_events (it_events it) s). intros s1 S1 K1.
  destruct (Z.ltb_spec (it_result it) 0); [destruct Hit as [Hit _]; lia|].
  pose proof (loop_start_shape n s1 S1) as S2. revert S2.
  assert (R : refused (if dev_lost s1 && bool_decide (async_status s1 = RTLSDR_RUNNING) then set_status RTLSDR_CANCELING s1 else s1) = refused s1 /\
    calm (if dev_lost s1 && bool_decide (async_status s1 = RTLSDR_RUNNING) then set_status RTLSDR_CANCELING s1 else s1))
    by (by destruct (_ && _)). destruct R as [R K2]. rewrite <- R. revert K2. clear R.
  generalize (if dev_lost s1 && bool_decide (async_status s1 = RTLSDR_RUNNING) then set_status RTLSDR_CANCELING s1 else s1).
  intros s2 K2 S2. destruct (decide (async_status s2 = RTLSDR_CANCELING)); [|by apply IH].
  destruct (xfer s2); [|by intros [= <- <- <-]].
  destruct (cancel_pass_calm it (Z.to_nat (xfer_buf_num s2)) Hit Hat 0 (it_result it) RTLSDR_INACTIVE s2 K2) as [K3 Rp].
  pose proof (cancel_pass_shape it (Z.to_nat (xfer_buf_num s2)) n 0 (it_result it) RTLSDR_INACTIVE s2 S2) as S3.
  destruct (cancel_pass it _ 0 _ _ s2) as [[r3 next3] s3]. cbn [fst snd] in *. rewrite <- Rp.
  destruct (dev_lost s3 || _); [intros [= <- <- <-]; apply events_refused|by apply IH].
Qed.

(** ** Undisturbed streaming *)

(** Every event is the completion of one of the [n] transfers, which is submitted again. *)
Definition completion (n : nat) (e : event) : Prop :=
  match e with
  | Ev_transfer i LIBUSB_TRANSFER_COMPLETED data resubmit false => (i < n)%nat /\ 0 <= resubmit
  | _ => False
  end.
Definition data_of (e : event) : list (list Z) :=
  match e with Ev_transfer _ _ data _ _ => [data] | Ev_cancel => [] end.
Definition clean (n : nat) (it : iteration) : Prop :=
  0 <= it_result it /\ Forall (completion n) (it_events it).
Definition blocks (l : list iteration) : list (list Z) :=
  concat ((fun it => concat (data_of <$> it_events it)) <$> l).

Definition streaming (n : nat) (s : stream) : Prop :=
  shape n s /\ async_status s = RTLSDR_RUNNING /\ dev_lost s = false /\ cb s = true /\ forall i, (i < n)%nat -> ready i s = true.

Lemma ready_may_end i st s : ready i s = true -> may_end i st s = true.
Proof.
  unfold ready, may_end. destruct (transfer i s) as [t|]; [|done]. intros [-> Hc]%andb_prop. apply negb_true_iff in Hc.
  by rewrite Hc.
Qed.
Lemma clean_event n i data rs s : streaming n s -> (i < n)%nat -> 0 <= rs ->
  let s' := run_event s (Ev_transfer i LIBUSB_TRANSFER_COMPLETED data rs false) in
  streaming n s' /\ delivered s' = delivered s ++ [data].
Proof.
  intros (Hs & Ha & Hl & Hc & Hf) Hi Hr s'. pose proof (event_shape n s (Ev_transfer i LIBUSB_TRANSFER_COMPLETED data rs false) Hs) as S1.
  assert (F : forall j, (j < n)%nat -> ready j s' = true).
  { intros j Hj. unfold ready, s'. rewrite event_transfer, ready_may_end by (by apply Hf). cbn [andb].
    case_bool_decide; [|by apply Hf].
    cbn. rewrite bool_decide_true by done. by destruct (Z.ltb_spec rs 0); [lia|]. }
  assert (M : async_status s' = async_status s /\ dev_lost s' = dev_lost s /\ cb s' = cb s /\ delivered s' = delivered s ++ [data]).
  { unfold s'. cbn [run_event]. rewrite ready_may_end by (by apply Hf). unfold _libusb_callback. rewrite decide_True by done.
    assert (P : forall s, async_status (submit i rs s) = async_status s /\ dev_lost (submit i rs s) = dev_lost s /\
      cb (submit i rs s) = cb s /\ delivered (submit i rs s) = delivered s).
    { intros x. unfold submit, put_transfer. by destruct (transfer i x), (rs <? 0), (xfer x). }
    assert (Q : async_status (put_transfer i (mk_transfer LIBUSB_TRANSFER_COMPLETED false false) s) = async_status s /\
      dev_lost (put_transfer i (mk_transfer LIBUSB_TRANSFER_COMPLETED false false) s) = dev_lost s /\
      cb (put_transfer i (mk_transfer LIBUSB_TRANSFER_COMPLETED false false) s) = cb s /\
      delivered (put_transfer i (mk_transfer LIBUSB_TRANSFER_COMPLETED false false) s) = delivered s)
      by (unfold put_transfer; by destruct (xfer s)).
    revert Q. generalize (put_transfer i (mk_transfer LIBUSB_TRANSFER_COMPLETED false false) s). intros x (Q1&Q2&Q3&Q4).
    rewrite Q3, Hc. cbv zeta. cbn [set_errors async_status dev_lost cb delivered].
    destruct (P (deliver data x)) as (P1&P2&P3&P4). rewrite P1, P2, P3, P4. cbn. rewrite Q1, Q2, Q3, Q4. done. }
  destruct M as (M1&M2&M3&M4). split; [|done]. split_and!; try done; congruence.
Qed.
Lemma clean_events n l : forall s, streaming n s -> Forall (completion n) l ->
  streaming n (handle_events l s) /\ delivered (handle_events l s) =
    delivered s ++ concat (data_of <$> l).
Proof.
  induction l as [|e l IH]; intros s Hs Hl; [split; [done|by rewrite app_nil_r]|].
  inversion Hl as [|? ? He Hl']; subst. destruct e as [i st data rs c|]; [|done]. destruct st; try done. destruct c; [done|].
  destruct He as [Hi Hr]. destruct (clean_event n i data rs s Hs Hi Hr) as [S1 D1].
  destruct (IH _ S1 Hl') as [S2 D2]. split; [exact S2|]. etransitivity; [exact D2|]. rewrite D1. cbn. by rewrite <- app_assoc.
Qed.
Lemma clean_loop n l2 l1 : forall r next s, streaming n s -> Forall (clean n) l1 ->
  exists r' s1, event_loop (l1 ++ l2) r next s = event_loop l2 r' next s1 /\ streaming n s1 /\
    delivered s1 = delivered s ++ blocks l1.
Proof.
  induction l1 as [|it l1 IH]; intros r next s Hs Hl.
  { exists r, s. split_and!; [done|done|]. unfold blocks. cbn. by rewrite app_nil_r. }
  inversion Hl as [|? ? [Hr He] Hl']; subst. destruct (clean_events n _ s Hs He) as [S1 D1].
  destruct (IH (it_result it) next _ S1 Hl') as (r' & s1 & E & S2 & D2). exists r', s1. split_and!; [|done|].
  - rewrite <- E. cbn [app event_loop]. rewrite decide_False by (destruct Hs as (_&->&_); done). cbv zeta.
    destruct (Z.ltb_spec (it_result it) 0); [lia|]. destruct S1 as (_&Ha&Hd&_). rewrite Hd. cbn [andb].
    by rewrite decide_False by (by rewrite Ha).
  - rewrite D2, D1. unfold blocks. cbn. by rewrite <- app_assoc.
Qed.

(** Before the loop no cancellation is under way. *)
Lemma submit_loop_calm results n : forall i r s r' s', calm s -> submit_loop results n i r s = Some (r', s') -> calm s'.
Proof.
  induction n as [|n IH]; intros i r s r' s' Hc; cbn [submit_loop]; [by intros [= <- <-]|].
  destruct (transfer i s) as [t|]; [|done]. cbv zeta.
  assert (C1 : calm (submit i (results i) s)).
  { intros j. unfold flying, ready. rewrite transfer_submit. destruct (decide (i = j)); [|apply (Hc j)].
    specialize (Hc j). unfold flying, ready in Hc. destruct (transfer j s) as [t'|]; [|done]. cbn. by destruct (results i <? 0). }
  destruct (results i <? 0); [by intros [= <- <-]|]. by apply IH.
Qed.
Lemma alloc_calm m s : xfer s = None -> calm (_rtlsdr_alloc_async_buffers m s).2.
Proof.
  intros Hx. unfold _rtlsdr_alloc_async_buffers. rewrite Hx. cbv zeta. set (s1 := set_xfer _ s).
  assert (F : calm s1).
  { intros i. unfold flying, ready, transfer. cbn. rewrite list_lookup_fmap.
    destruct (seq 0 _ !! i); [|done]. cbn. by destruct (alloc_transfer m _). }
  destruct (xfer_buf s1); [done|].
  destruct (zerocopy m); [destruct (mem_loop m 0 _) as [b []]|destruct (use_zerocopy s1)];
    try destruct (malloc_loop m 0 _) as [b' ok']; exact F.
Qed.

(** All transfers submitted. *)
Lemma submit_loop_all results n : forall i r s, (forall j, (i <= j < i + n)%nat -> transfer j s <> None) ->
  exists r' s', submit_loop results n i r s = Some (r', s') /\
    ((forall j, 0 <= results j) -> async_status s' = async_status s /\ dev_lost s' = dev_lost s /\ cb s' = cb s /\
      delivered s' = delivered s /\ (forall j, (j < i)%nat -> ready j s' = ready j s) /\
      forall j, (i <= j < i + n)%nat -> ready j s' = true).
Proof.
  induction n as [|n IH]; intros i r s Ht; cbn [submit_loop].
  { exists r, s. split; [done|]. intros _. split_and!; try done. intros; lia. }
  destruct (transfer i s) as [t|] eqn:Et; [|by destruct (Ht i); [lia|]]. cbv zeta.
  destruct (Z.ltb_spec (results i) 0).
  { eexists _, _. split; [done|]. intros Hr. specialize (Hr i). lia. }
  destruct (IH (S i) (results i) (submit i (results i) s)) as (r' & s' & E & K).
  { intros j Hj. rewrite transfer_submit. destruct (decide (i = j)); [lia|]. apply Ht. lia. }
  exists r', s'. split; [done|]. intros Hr. destruct (K Hr) as (K1&K2&K3&K4&K5&K6).
  assert (P : async_status (submit i (results i) s) = async_status s /\ dev_lost (submit i (results i) s) = dev_lost s /\
    cb (submit i (results i) s) = cb s /\ delivered (submit i (results i) s) = delivered s)
    by (unfold submit, put_transfer; by destruct (transfer i s), (results i <? 0), (xfer s)).
  destruct P as (P1&P2&P3&P4). split_and!; try congruence.
  - intros j Hj. rewrite K5 by lia. unfold ready. rewrite transfer_submit. by destruct (decide (i = j)); [lia|].
  - intros j Hj. destruct (decide (j = i)) as [->|]; [|apply K6; lia].
    rewrite K5 by lia. unfold ready. rewrite transfer_submit, decide_True, Et by done. cbn.
    by destruct (Z.ltb_spec (results i) 0); [lia|].
Qed.
Lemma alloc_all m s : xfer s = None -> (forall i, alloc_transfer m i = true) ->
  forall j, (j < Z.to_nat (xfer_buf_num s))%nat -> transfer j (_rtlsdr_alloc_async_buffers m s).2 <> None.
Proof.
  intros Hx Hm j Hj. unfold _rtlsdr_alloc_async_buffers. rewrite Hx. cbv zeta.
  set (s1 := set_xfer _ s). assert (F : transfer j s1 <> None).
  { unfold transfer. cbn. rewrite list_lookup_fmap, lookup_seq_lt by lia. cbn. by rewrite Hm. }
  destruct (xfer_buf s1); [done|].
  destruct (zerocopy m); [destruct (mem_loop m 0 _) as [b []]|destruct (use_zerocopy s1)];
    try destruct (malloc_loop m 0 _) as [b' ok']; exact F.
Qed.

Lemma none_flying n s : (forall i, (i < n)%nat -> flying i s = false) -> existsb (fun i => flying i s) (seq 0 n) = false.
Proof.
  intros Hi. apply not_true_is_false. intros Hex. apply existsb_exists in Hex as (i & Hin & Hf). apply in_seq in Hin.
  rewrite Hi in Hf; [done|lia].
Qed.

(** ** Release *)

(** What the release gives back: the buffers and which transfers there are. *)
Definition kept (s s' : stream) : Prop :=
  xfer_buf s' = xfer_buf s /\ use_zerocopy s' = use_zerocopy s /\ released s' = released s /\
  forall i, is_Some (transfer i s') <-> is_Some (transfer i s).
#[global] Instance kept_preorder : PreOrder kept.
Proof.
  split; [by intros s|]. intros x y z (A1&A2&A3&A4) (B1&B2&B3&B4). split_and!; try congruence.
  intros i. by rewrite B4, A4.
Qed.
(** Only [put_transfer] touches these members. *)
Lemma kept_put i t s : is_Some (transfer i s) -> kept s (put_transfer i t s).
Proof.
  intros Hi. unfold kept. split_and!; try (unfold put_transfer; by destruct (xfer s)).
  intros j. rewrite transfer_put by (by destruct Hi as [? ->]). destruct (decide (i = j)) as [<-|]; [|done].
  split; [done|by intros _; eexists].
Qed.
Lemma kept_submit i r s : kept s (submit i r s).
Proof.
  unfold submit. destruct (transfer i s) eqn:E; [|done]. destruct (r <? 0); [done|]. apply kept_put. by eexists.
Qed.
Lemma kept_cancel_async s : kept s (rtlsdr_cancel_async s).2.
Proof. unfold rtlsdr_cancel_async. by destruct (decide _). Qed.
Lemma kept_callback i st data rs c s : kept s (_libusb_callback i st data rs c s).
Proof.
  unfold _libusb_callback. destruct (decide (st = LIBUSB_TRANSFER_COMPLETED)).
  - cbv zeta. set (x := if cb s then _ else s).
    assert (K : kept s x) by (subst x; destruct (cb s); [|done]; destruct c; [|done]; apply (kept_cancel_async (deliver data s))).
    etransitivity; [exact K|]. apply (kept_submit i rs x).
  - destruct (decide (st = LIBUSB_TRANSFER_CANCELLED)); [done|].
    destruct (decide (st = LIBUSB_TRANSFER_ERROR)), (_ || _); done.
Qed.
Lemma kept_events l : forall s, kept s (handle_events l s).
Proof.
  induction l as [|e l IH]; intros s; [done|]. cbn. etransitivity; [|apply IH].
  destruct e as [i st data rs c|]; [|apply kept_cancel_async]. cbn [run_event]. destruct (may_end i st s) eqn:F; [|done].
  apply may_end_flying, flying_some in F as (t & Et & _). etransitivity; [apply kept_put; by eexists|apply kept_callback].
Qed.
Lemma kept_cancel i r s : kept s (cancel_transfer i r s).
Proof.
  unfold cancel_transfer. destruct (transfer i s) eqn:E; [|done]. destruct (r <? 0); [done|]. apply kept_put. by eexists.
Qed.
Lemma kept_cancel_pass it n : forall i r next s, kept s (cancel_pass it n i r next s).2.
Proof.
  induction n as [|n IH]; intros i r next s; [done|]. cbn [cancel_pass].
  destruct (transfer i s); [|by apply IH]. destruct (decide _); [by apply IH|].
  destruct (it_cancel it i s) as [r1 ev]. etransitivity; [|apply IH].
  etransitivity; [apply kept_cancel|apply kept_events].
Qed.
Lemma kept_loop l : forall r next s r' next' s', event_loop l r next s = Some (r', next', s') -> kept s s'.
Proof.
  induction l as [|it l IH]; intros r next s r' next' s'; cbn [event_loop]; (destruct (decide _); [by intros [= <- <- <-]|]); [done|].
  cbv zeta. pose proof (kept_events (it_events it) s) as K1. revert K1. generalize (handle_events (it_events it) s). intros s1 K1.
  destruct (it_result it <? 0).
  { destruct (_ =? _); [intros E; by rewrite K1, <- (IH _ _ _ _ _ _ E)|by intros [= <- <- <-]]. }
  set (s2 := if dev_lost s1 && _ then _ else s1). assert (K2 : kept s s2) by (rewrite K1; subst s2; by destruct (_ && _)).
  clearbody s2. destruct (decide (async_status s2 = RTLSDR_CANCELING)); [|intros E; by rewrite K2, <- (IH _ _ _ _ _ _ E)].
  destruct (xfer s2); [|by intros [= <- <- <-]].
  pose proof (kept_cancel_pass it (Z.to_nat (xfer_buf_num s2)) 0 (it_result it) RTLSDR_INACTIVE s2) as K3.
  destruct (cancel_pass it _ 0 _ _ s2) as [[r3 next3] s3]. cbn [snd] in K3. destruct (dev_lost s3 || _).
  - intros [= <- <- <-]. rewrite K2, K3. apply kept_events.
  - intros E. by rewrite K2, K3, <- (IH _ _ _ _ _ _ E).
Qed.
Lemma kept_submit_loop results n : forall i r s r' s', submit_loop results n i r s = Some (r', s') -> kept s s'.
Proof.
  induction n as [|n IH]; intros i r s r' s'; cbn [submit_loop]; [by intros [= <- <-]|].
  destruct (transfer i s); [|done]. cbv zeta. destruct (results i <? 0).
  - intros [= <- <-]. apply (kept_submit i (results i) s).
  - intros E. by rewrite (kept_submit i (results i) s), <- (IH _ _ _ _ _ E).
Qed.

(** The loops of the release, and the members they leave alone. *)
Definition present (s : stream) (i : nat) : bool := match transfer i s with Some _ => true | None => false end.
Lemma free_transfers_spec n : forall i s, let s' := free_transfers n i s in
  released s' = released s ++ (Free_transfer <$> List.filter (present s) (seq i n)) /\
  early s' = early s || existsb (fun i => flying i s) (seq i n) /\
  xfer_buf s' = xfer_buf s /\ use_zerocopy s' = use_zerocopy s /\ dev_lost s' = dev_lost s /\ delivered s' = delivered s /\
  refused s' = refused s.
Proof.
  induction n as [|n IH]; intros i s; cbv zeta; [split_and!; try done; [by rewrite app_nil_r|by rewrite orb_false_r]|].
  cbn [free_transfers]. set (s1 := match transfer i s with Some _ => _ | None => s end).
  assert (X : forall j, transfer j s1 = transfer j s) by (intros j; subst s1; by destruct (transfer i s)).
  destruct (IH (S i) s1) as (I1&I2&I3&I4&I5&I6&I7). rewrite I1, I2, I3, I4, I5, I6, I7. cbn [seq List.filter existsb].
  rewrite (filter_ext (present s1) (present s)) by (intros j; unfold present; by rewrite X).
  assert (Y : existsb (fun i => flying i s1) (seq (S i) n) = existsb (fun i => flying i s) (seq (S i) n)).
  { generalize (seq (S i) n). intros l. induction l as [|j l IHl]; [done|]. cbn. rewrite IHl. unfold flying. by rewrite X. }
  rewrite Y. unfold present at 2, flying at 2. subst s1. destruct (transfer i s) as [t|]; [|by split_and!].
  cbn. split_and!; try done; [by rewrite <- app_assoc|by rewrite orb_assoc].
Qed.
Lemma free_bufs_spec bufs n : forall i s, let s' := free_bufs bufs n i s in
  early s' = early s /\ dev_lost s' = dev_lost s /\ delivered s' = delivered s /\ refused s' = refused s /\
  use_zerocopy s' = use_zerocopy s /\ xfer s' = xfer s /\
  forall b, b <> B_null -> (forall j, (i <= j < i + n)%nat -> bufs !! j = Some b) ->
    released s' = released s ++ ((fun i => if use_zerocopy s then Free_mem i b else Free_heap i b) <$> seq i n).
Proof.
  induction n as [|n IH]; intros i s; cbv zeta; [split_and!; try done; intros b _ _; cbn; by rewrite app_nil_r|].
  cbn [free_bufs]. set (s1 := match bufs !! i with Some _ => _ | None => s end).
  destruct (IH (S i) s1) as (I1&I2&I3&I4&I5&I6&I7). rewrite I1, I2, I3, I4, I5, I6.
  assert (X : early s1 = early s /\ dev_lost s1 = dev_lost s /\ delivered s1 = delivered s /\ refused s1 = refused s /\
    use_zerocopy s1 = use_zerocopy s /\ xfer s1 = xfer s) by (subst s1; by destruct (bufs !! i) as [[]|]).
  destruct X as (X1&X2&X3&X4&X5&X6). split_and!; try done. intros b Hb Hall.
  rewrite (I7 b Hb) by (intros; apply Hall; lia). rewrite X5. cbn [seq fmap list_fmap].
  assert (R : released s1 = released s ++ [if use_zerocopy s then Free_mem i b else Free_heap i b])
    by (subst s1; rewrite Hall by lia; by destruct b).
  by rewrite R, <- app_assoc.
Qed.

(** What the allocation yields where [malloc] does. *)
Lemma mem_loop_all m : forall bufs i l, mem_loop m i bufs = (l, true) -> l = replicate (length bufs) B_mem.
Proof.
  induction bufs as [|b bufs IH]; intros i l; cbn [mem_loop]; [by intros [= <-]|].
  destruct (dev_mem_alloc m i) as [[]|]; [|done..]. destruct (mem_loop m (S i) bufs) as [l' ok] eqn:E.
  intros [= <- ->]. cbn. by rewrite (IH _ _ E).
Qed.
Lemma mem_loop_length m : forall bufs i, length (mem_loop m i bufs).1 = length bufs.
Proof.
  induction bufs as [|b bufs IH]; intros i; cbn [mem_loop]; [done|]. destruct (dev_mem_alloc m i) as [[]|]; [|done..].
  specialize (IH (S i)). destruct (mem_loop m (S i) bufs). cbn in *. by rewrite IH.
Qed.
Lemma malloc_loop_all m : (forall i, malloc m i = true) -> forall bufs i,
  malloc_loop m i bufs = (replicate (length bufs) B_heap, true).
Proof. intros Hm. induction bufs as [|b bufs IH]; intros i; cbn [malloc_loop]; [done|]. by rewrite Hm, IH. Qed.
Lemma alloc_bufs m s : xfer s = None -> xfer_buf s = None -> (zerocopy m = false -> use_zerocopy s = false) ->
  (forall i, malloc m i = true) -> let s' := (_rtlsdr_alloc_async_buffers m s).2 in
  xfer_buf s' = Some (replicate (Z.to_nat (xfer_buf_num s)) (if use_zerocopy s' then B_mem else B_heap)) /\
  released s' = released s /\
  forall i, (i < Z.to_nat (xfer_buf_num s))%nat -> present s' i = alloc_transfer m i.
Proof.
  intros Hx Hb Hz Hm. unfold _rtlsdr_alloc_async_buffers. rewrite Hx. cbv zeta. set (s1 := set_xfer _ s).
  assert (P : forall i, (i < Z.to_nat (xfer_buf_num s))%nat -> present s1 i = alloc_transfer m i).
  { intros i Hi. unfold present, transfer. cbn. rewrite list_lookup_fmap, lookup_seq_lt by lia. cbn.
    by destruct (alloc_transfer m i). }
  change (xfer_buf s1) with (xfer_buf s). rewrite Hb. change (use_zerocopy s1) with (use_zerocopy s).
  set (n := Z.to_nat (xfer_buf_num s)) in *. destruct (zerocopy m).
  - pose proof (mem_loop_length m (replicate n B_null) 0) as L. destruct (mem_loop m 0 (replicate n B_null)) as [b []] eqn:E; cbn in L.
    + apply mem_loop_all in E as ->. rewrite length_replicate. cbn. by split_and!.
    + rewrite malloc_loop_all by done. rewrite length_fmap, L, length_replicate. cbn. by split_and!.
  - rewrite (Hz eq_refl). rewrite malloc_loop_all by done. rewrite length_replicate. cbn. by split_and!.
Qed.

Lemma release_delivered s : delivered (_rtlsdr_free_async_buffers s).2 = delivered s.
Proof.
  unfold _rtlsdr_free_async_buffers. cbv zeta. set (n := Z.to_nat (xfer_buf_num s)).
  set (s1 := match xfer s with Some _ => _ | None => s end).
  assert (T : delivered s1 = delivered s) by (subst s1; destruct (free_transfers_spec n 0 s) as (_&_&_&_&_&I&_); by destruct (xfer s)).
  rewrite <- T. destruct (xfer_buf s1) as [bufs|]; [|done]. by destruct (free_bufs_spec bufs n 0 s1) as (_&_&I&_).
Qed.
Lemma release_spec s : let s' := (_rtlsdr_free_async_buffers s).2 in
  xfer s' = None /\ xfer_buf s' = None /\ dev_lost s' = dev_lost s /\ use_zerocopy s' = use_zerocopy s /\ refused s' = refused s /\
  early s' = early s || existsb (fun i => flying i s) (seq 0 (Z.to_nat (xfer_buf_num s))) /\
  forall b, b <> B_null -> xfer_buf s = Some (replicate (Z.to_nat (xfer_buf_num s)) b) ->
    released s' = (released s ++ (Free_transfer <$> List.filter (present s) (seq 0 (Z.to_nat (xfer_buf_num s))))) ++
      ((fun i => if use_zerocopy s then Free_mem i b else Free_heap i b) <$> seq 0 (Z.to_nat (xfer_buf_num s))).
Proof.
  unfold _rtlsdr_free_async_buffers. cbv zeta. set (n := Z.to_nat (xfer_buf_num s)).
  set (s1 := match xfer s with Some _ => _ | None => s end).
  assert (T : xfer s1 = None /\ released s1 = released s ++ (Free_transfer <$> List.filter (present s) (seq 0 n)) /\
    early s1 = early s || existsb (fun i => flying i s) (seq 0 n) /\
    xfer_buf s1 = xfer_buf s /\ use_zerocopy s1 = use_zerocopy s /\ dev_lost s1 = dev_lost s /\ refused s1 = refused s).
  { subst s1. destruct (free_transfers_spec n 0 s) as (I1&I2&I3&I4&I5&I6&I7). destruct (xfer s) eqn:Ex; [by cbn; split_and!|].
    assert (Z : forall i, transfer i s = None) by (intros i; unfold transfer; by rewrite Ex). split_and!; try done.
    - rewrite (filter_ext (present s) (fun _ => false)) by (intros i; unfold present; by rewrite Z).
      generalize (seq 0 n). intros l. induction l; [by rewrite app_nil_r|done].
    - replace (existsb _ _) with false; [by rewrite orb_false_r|]. generalize (seq 0 n). intros l.
      induction l as [|i l IH]; [done|]. cbn. rewrite <- IH. unfold flying. by rewrite Z. }
  clearbody s1. destruct T as (T1&T2&T3&T4&T5&T6&T7). rewrite T4.
  destruct (xfer_buf s) as [bufs|] eqn:Eb; cbn [snd]; [|by split_and!].
  destruct (free_bufs_spec bufs n 0 s1) as (I1&I2&I3&I4&I5&I6&I7). cbn [set_bufs xfer xfer_buf dev_lost use_zerocopy refused early released].
  split_and!; try congruence. intros b Hb [= ->]. rewrite (I7 b Hb), T2, T5; [done|]. intros j Hj. apply lookup_replicate_2. lia.
Qed.
End AsyncFacts.

Module AsyncProps.
Import Async AsyncFacts.

(** C9.  How streaming ends.  Whenever [rtlsdr_read_async], called on an inactive stream that
    holds no transfers and buffers, and has zero copy on only where the platform has it, returns, whatever libusb did and whatever callbacks and
    other threads cancelled, it holds none again, and a lost device is reported by -1.  Where
    [malloc] yields memory, what it gave back is every transfer it had allocated and every
    buffer, each once, by the function that belongs to its allocator.  If the device was not
    lost and no call that handles events failed other than by a signal, the stream is inactive
    again; if then libusb also never refused to cancel a transfer it had in flight, no
    transfer was in flight when it was released. *)
Theorem stream_ends_safely m results l has_cb buf_num buf_len s r s' :
  async_status s = RTLSDR_INACTIVE -> xfer s = None -> xfer_buf s = None -> early s = false ->
  (zerocopy m = false -> use_zerocopy s = false) ->
  rtlsdr_read_async m results l has_cb buf_num buf_len s = Some (Some (r, s')) ->
  xfer s' = None /\ xfer_buf s' = None /\ (dev_lost s' = true -> r = -1) /\
  ((forall i, malloc m i = true) ->
    let n := Z.to_nat (if 0 <? buf_num then buf_num else DEFAULT_BUF_NUMBER) in
    released s' = released s ++ (Free_transfer <$> List.filter (alloc_transfer m) (seq 0 n)) ++
      ((fun i => if use_zerocopy s' then Free_mem i B_mem else Free_heap i B_heap) <$> seq 0 n)) /\
  (Forall no_event_error l -> dev_lost s' = false ->
    async_status s' = RTLSDR_INACTIVE /\ (refused s' = false -> early s' = false)).
Proof.
  intros Hs Hx Hxb He Hz. unfold rtlsdr_read_async. rewrite decide_True by done. cbv zeta.
  set (s0 := set_request _ _ _ _). destruct (alloc_start m s0 Hx) as (F & X & A & N & L & R & E & _).
  pose proof (alloc_bufs m s0 Hx Hxb Hz) as B. cbv zeta in B. change (xfer_buf_num s0) with (if 0 <? buf_num then buf_num else DEFAULT_BUF_NUMBER) in B, N.
  revert F X A N L R E B. generalize ((_rtlsdr_alloc_async_buffers m s0).2). intros s1 F X A N L R E B.
  destruct (submit_loop results _ 0 0 s1) as [[r2 s2]|] eqn:E2; [|done].
  destruct (submit_loop_start _ _ _ _ _ _ _ F X A E2) as (S2 & A2 & R2). apply kept_submit_loop in E2.
  destruct (event_loop l r2 RTLSDR_INACTIVE s2) as [[[r3 next3] s3]|] eqn:E3; [|done].
  destruct (event_loop_ends _ _ _ _ _ _ _ _ S2 E3) as [A3 K]. assert (A23 : ahead s1 s3) by (by transitivity s2).
  apply kept_loop in E3. assert (KK : kept s1 s3) by (by transitivity s2).
  destruct (release_spec s3) as (R1&R2'&R3&R4&R5&R6&R7). revert R1 R2' R3 R4 R5 R6 R7.
  generalize (_rtlsdr_free_async_buffers s3).2. intros s4 R1 R2' R3 R4 R5 R6 R7 [= <- <-]. cbn. rewrite R1, R2', R3, R4, R5.
  split_and!; [done|done|by intros ->| |].
  - intros Hm. destruct (B Hm) as (B1&B2&B3). destruct KK as (K1&K2&K3&K4). destruct A23 as (N3&_). rewrite N in N3. rewrite N3 in R7.
    rewrite (R7 (if use_zerocopy s1 then B_mem else B_heap)); [|by destruct (use_zerocopy s1)|by rewrite K1].
    rewrite K3, B2, K2, <- app_assoc. change (released s0) with (released s). f_equal. f_equal; [f_equal|by destruct (use_zerocopy s1)].
    apply filter_ext_in. intros i Hi%in_seq. rewrite <- B3 by lia. unfold present. specialize (K4 i).
    destruct (transfer i s3), (transfer i s1); naive_solver.
  - intros Hl HL. destruct (K Hl HL) as [-> Hi]. split; [done|]. intros HR.
    destruct A23 as (B1&_&_&_&_&B6&_). rewrite R6, B6, E. change (early s0) with (early s). rewrite He, B1. cbn [orb].
    by apply none_flying, Hi.
Qed.

(** C10.  Streaming can be stopped.  Let libusb accept a cancellation exactly for the
    transfers in flight that have none accepted yet, and end an accepted one as cancelled or
    failed at any later time, or never; let handling events succeed.  Then
    [rtlsdr_read_async], called on an inactive stream with transfers that can be allocated,
    returns at the latest in the second round of its event loop behind a call of
    [rtlsdr_cancel_async], and holds no transfer; the stream is inactive unless the device was
    lost.  Where libusb is done with a transfer by the call behind its cancellation, no
    transfer was in flight when it was released ([early_release] shows the other case). *)
Theorem stream_stops m results l1 it it2 l2 has_cb buf_num buf_len s :
  async_status s = RTLSDR_INACTIVE -> xfer s = None -> early s = false -> refused s = false ->
  (forall i, alloc_transfer m i = true) ->
  Forall cooperative (l1 ++ it :: it2 :: l2) -> In Ev_cancel (it_events it) ->
  exists r s', rtlsdr_read_async m results (l1 ++ it :: it2 :: l2) has_cb buf_num buf_len s = Some (Some (r, s')) /\
    xfer s' = None /\ (dev_lost s' = false -> async_status s' = RTLSDR_INACTIVE /\
      (Forall at_once (l1 ++ it :: it2 :: l2) -> early s' = false)).
Proof.
  intros Hs Hx He Hr Hm Hl Hin. unfold rtlsdr_read_async. rewrite decide_True by done. cbv zeta.
  set (s0 := set_request _ _ _ _). destruct (alloc_start m s0 Hx) as (F & X & A & N & L & R & E & _).
  pose proof (alloc_all m s0 Hx Hm) as T. rewrite <- N in T. pose proof (alloc_calm m s0 Hx) as C.
  revert F X A N L R E T C. generalize ((_rtlsdr_alloc_async_buffers m s0).2). intros s1 F X A N L R E T C.
  destruct (submit_loop_all results (Z.to_nat (xfer_buf_num s1)) 0 0 s1) as (r2 & s2 & E2 & _); [intros; apply T; lia|].
  rewrite E2. destruct (submit_loop_start _ _ _ _ _ _ _ F X A E2) as (S2 & A2 & R2).
  assert (Ci : cooperative it /\ cooperative it2).
  { apply Forall_app in Hl as [_ Hl]. inversion Hl as [|? ? C1 Hl2]; subst. by inversion Hl2. }
  pose proof (event_loop_stops l1 it it2 l2 _ (proj1 Ci) (proj2 Ci) Hin r2 RTLSDR_INACTIVE s2 S2) as Hn.
  destruct (event_loop _ r2 RTLSDR_INACTIVE s2) as [[[r3 next3] s3]|] eqn:E3; [|done].
  eexists _, _. split; [reflexivity|]. destruct (release_spec s3) as (Q1&Q2&Q3&Q4&Q5&Q6&Q7). revert Q1 Q3 Q6. clear Q2 Q4 Q5 Q7.
  generalize (_rtlsdr_free_async_buffers s3).2. intros s4 Q1 Q3 Q6. cbn. rewrite Q1, Q3, Q6.
  split; [done|]. intros HL.
  assert (Hok : Forall no_event_error (l1 ++ it :: it2 :: l2)) by (eapply Forall_impl; [|exact Hl]; intros x [Hx0 _]; by left).
  destruct (event_loop_ends _ _ _ _ _ _ _ _ S2 E3) as [A3 K]. destruct (K Hok HL) as [-> Hi]. split; [done|]. intros Ha.
  assert (A23 : ahead s1 s3) by (by transitivity s2).
  pose proof (event_loop_refused _ _ _ _ _ _ _ _ Hl Ha S2 (submit_loop_calm _ _ _ _ _ _ _ C E2) E3) as R3.
  rewrite R2, R in R3. change (refused s0) with (refused s) in R3.
  destruct A23 as (B1&_&_&_&_&B6&_). rewrite B6, E. change (early s0) with (early s). rewrite He, B1. cbn [orb].
  apply none_flying, Hi. congruence.
Qed.

(** C11.  No sample is lost, repeated or reordered between libusb and the caller: as long as
    libusb completes transfers and accepts them again, the stream goes on, and however it
    ends later, the callback has been called with exactly the completed buffers in the order
    of their completion before anything else. *)
Theorem stream_delivers m results l1 l2 buf_num buf_len s :
  async_status s = RTLSDR_INACTIVE -> xfer s = None -> dev_lost s = false ->
  (forall i, alloc_transfer m i = true) -> (forall i, 0 <= results i) ->
  Forall (clean (Z.to_nat (if 0 <? buf_num then buf_num else DEFAULT_BUF_NUMBER))) l1 ->
  rtlsdr_read_async m results l1 true buf_num buf_len s = Some None /\
  forall r s', rtlsdr_read_async m results (l1 ++ l2) true buf_num buf_len s = Some (Some (r, s')) ->
    (delivered s ++ blocks l1) `prefix_of` delivered s'.
Proof.
  intros Hs Hx Hlost Hm Hres Hl. unfold rtlsdr_read_async. rewrite !decide_True by done. cbv zeta.
  set (s0 := set_request _ _ _ _). destruct (alloc_start m s0 Hx) as (F & X & A & N & L & R & E & D & C).
  pose proof (alloc_all m s0 Hx Hm) as T. rewrite <- N in T. change (Forall (clean (Z.to_nat (xfer_buf_num s0))) l1) in Hl.
  rewrite <- N in Hl. revert F X A N L R E D C T Hl. generalize ((_rtlsdr_alloc_async_buffers m s0).2).
  intros s1 F X A N L R E D C T Hl.
  destruct (submit_loop_all results (Z.to_nat (xfer_buf_num s1)) 0 0 s1) as (r2 & s2 & E2 & K); [intros; apply T; lia|].
  rewrite E2. destruct (submit_loop_start _ _ _ _ _ _ _ F X A E2) as (S2 & A2 & R2).
  destruct (K Hres) as (K1&K2&K3&K4&_&K6).
  assert (St : streaming (Z.to_nat (xfer_buf_num s1)) s2).
  { split_and!; [done|by rewrite K1, A|by rewrite K2, L|by rewrite K3, C|]. intros i Hi. apply K6. lia. }
  split.
  - destruct (clean_loop _ [] l1 r2 RTLSDR_INACTIVE s2 St Hl) as (r3 & s3 & E3 & S3 & _). rewrite app_nil_r in E3.
    rewrite E3. cbn [event_loop]. destruct S3 as (_&->&_). by rewrite decide_False.
  - intros r s'. destruct (clean_loop _ l2 l1 r2 RTLSDR_INACTIVE s2 St Hl) as (r3 & s3 & -> & S3 & D3).
    destruct (event_loop l2 r3 RTLSDR_INACTIVE s3) as [[[r4 next4] s4]|] eqn:E4; [|discriminate].
    pose proof (release_delivered s4) as RD. revert RD. generalize (_rtlsdr_free_async_buffers s4).2.
    intros s5 RD [= <- <-]. cbn. rewrite RD.
    destruct (event_loop_ends _ _ _ _ _ _ _ _ (proj1 S3) E4) as [(_&P&_) _]. rewrite D3, K4, D in P. exact P.
Qed.

(** *** Instances and limits *)

(** An idle device, allocators that work, submissions that work. *)
Definition demo_stream : stream :=
  mk_stream RTLSDR_INACTIVE false false 0 0 None None false false 0 [] false false [].
Definition demo_memory : memory := mk_memory false (fun _ => true) (fun _ => None) (fun _ => true).

(** A libusb that completes what it cancels at once, and one that never does. *)
Definition prompt (events : list event) : iteration :=
  mk_iteration 0 events (fun i s => (if ready i s then 0 else LIBUSB_ERROR_NOT_FOUND,
                                     [Ev_transfer i LIBUSB_TRANSFER_CANCELLED [] 0 false])) [].
Definition slow (events : list event) : iteration :=
  mk_iteration 0 events (fun i s => (if ready i s then 0 else LIBUSB_ERROR_NOT_FOUND, [])) [].
Lemma prompt_cooperative events : cooperative (prompt events).
Proof. split; [done|]. intros i s. cbn. by destruct (ready i s). Qed.
Lemma slow_cooperative events : cooperative (slow events).
Proof. split; [done|]. intros i s. cbn. by destruct (ready i s). Qed.
Lemma prompt_at_once events : at_once (prompt events).
Proof.
  intros i s. cbn [prompt it_cancel fst snd]. set (r := if ready i s then _ else _). clearbody r.
  change (handle_events [?e] ?x) with (run_event x e). unfold flying. rewrite event_transfer.
  rewrite (bool_decide_true (i = i)) by done. rewrite andb_true_r. unfold may_end. rewrite transfer_cancel, decide_True by done.
  destruct (transfer i s) as [[t f c]|]; [|done]. cbn. destruct (r <? 0); cbn; destruct f, c; done.
Qed.

Definition demo_data : list event :=
  [Ev_transfer 0 LIBUSB_TRANSFER_COMPLETED [1; 2] 0 false; Ev_transfer 1 LIBUSB_TRANSFER_COMPLETED [3; 4] 0 false;
   Ev_transfer 0 LIBUSB_TRANSFER_COMPLETED [5; 6] 0 false].
Definition demo_run : list iteration := [prompt demo_data; prompt [Ev_cancel]; prompt []].

Lemma stream_stops_witness :
  (exists r s', rtlsdr_read_async demo_memory (fun _ => 0) ([slow demo_data] ++ slow [Ev_cancel] :: slow [] :: []) true 2 512 demo_stream
    = Some (Some (r, s')) /\ xfer s' = None) /\
  exists r s', rtlsdr_read_async demo_memory (fun _ => 0) ([prompt demo_data] ++ prompt [Ev_cancel] :: prompt [] :: []) true 2 512 demo_stream
    = Some (Some (r, s')) /\ (dev_lost s' = false -> early s' = false).
Proof.
  split.
  - destruct (stream_stops demo_memory (fun _ => 0) [slow demo_data] (slow [Ev_cancel]) (slow []) [] true 2 512
      demo_stream eq_refl eq_refl eq_refl eq_refl (fun _ => eq_refl)) as (r & s' & E & X & _).
    + repeat constructor; apply slow_cooperative.
    + by left.
    + exists r, s'. split; [exact E|exact X].
  - destruct (stream_stops demo_memory (fun _ => 0) [prompt demo_data] (prompt [Ev_cancel]) (prompt []) [] true 2 512
      demo_stream eq_refl eq_refl eq_refl eq_refl (fun _ => eq_refl)) as (r & s' & E & _ & X).
    + repeat constructor; apply prompt_cooperative.
    + by left.
    + exists r, s'. split; [exact E|]. intros L. apply X; [exact L|]. repeat constructor; apply prompt_at_once.
Defined.

Lemma stream_delivers_witness :
  rtlsdr_read_async demo_memory (fun _ => 0) [prompt demo_data] true 2 512 demo_stream = Some None.
Proof.
  apply (stream_delivers demo_memory (fun _ => 0) [prompt demo_data] [] 2 512 demo_stream); try done.
  constructor; [|constructor]. split; [done|]. repeat constructor; lia.
Defined.

Lemma stream_ends_safely_witness :
  exists s', rtlsdr_read_async demo_memory (fun _ => 0) demo_run true 2 512 demo_stream = Some (Some (0, s')) /\
    delivered s' = [[1; 2]; [3; 4]; [5; 6]] /\ async_status s' = RTLSDR_INACTIVE /\ early s' = false /\
    released s' = [Free_transfer 0; Free_transfer 1; Free_heap 0 B_heap; Free_heap 1 B_heap].
Proof.
  destruct (rtlsdr_read_async demo_memory (fun _ => 0) demo_run true 2 512 demo_stream) as [[[r s']|]|] eqn:E;
    [|exfalso; revert E; vm_compute; discriminate..].
  assert (V : (r, delivered s', dev_lost s', refused s', use_zerocopy s') = (0, [[1; 2]; [3; 4]; [5; 6]], false, false, false)).
  { revert E. vm_compute. intros [= <- <-]. reflexivity. }
  injection V as -> V1 V2 V3 V4. exists s'.
  destruct (stream_ends_safely demo_memory (fun _ => 0) demo_run true 2 512 demo_stream 0 s') as (_ & _ & _ & M & K);
    [reflexivity|reflexivity|reflexivity|reflexivity|reflexivity|exact E|].
  destruct K as [K1 K2]; [|exact V2|].
  - apply Forall_cons_2; [by left|]. apply Forall_cons_2; [by left|]. apply Forall_cons_2; [by left|]. constructor.
  - specialize (M (fun _ => eq_refl)). cbv zeta in M. rewrite V4 in M. split; [reflexivity|]. split; [exact V1|]. split; [exact K1|].
    split; [exact (K2 V3)|exact M].
Defined.

(** libusb answers a second cancellation of the same transfer with NOT_FOUND, also where the
    first has not taken effect yet: then the loop ends with -5 and releases transfers that are
    in flight. *)
Lemma early_release :
  exists s', rtlsdr_read_async demo_memory (fun _ => 0) [slow [Ev_cancel]; slow []] true 2 512 demo_stream = Some (Some (-5, s')) /\
    async_status s' = RTLSDR_INACTIVE /\ early s' = true.
Proof. eexists. vm_compute. split; [reflexivity|]. by split. Qed.

(** Where [malloc] fails behind a zero-copy allocation that was given back, the release frees
    a pointer to memory that was given back. *)
Definition scarce : memory := mk_memory true (fun _ => true) (fun i => if (i <? 2)%nat then Some true else None) (fun _ => false).
Lemma stale_release :
  exists s', rtlsdr_read_async scarce (fun _ => -1) [prompt []] true 3 512 demo_stream = Some (Some (LIBUSB_ERROR_NOT_FOUND, s')) /\
    In (Free_heap 1 B_stale) (released s').
Proof. eexists. vm_compute. split; [reflexivity|]. right; right; right; by left. Qed.

(** A transfer that ends with an error is not submitted again, but every completed one resets
    the count of errors: all transfers can be gone without the device counting as lost, and
    the stream waits forever. *)
Definition errors_apart : list event :=
  [Ev_transfer 0 LIBUSB_TRANSFER_ERROR [] 0 false; Ev_transfer 1 LIBUSB_TRANSFER_COMPLETED [1; 2] 0 false;
   Ev_transfer 1 LIBUSB_TRANSFER_ERROR [] 0 false].
Lemma stalled_loop k : forall r next s, async_status s = RTLSDR_RUNNING -> dev_lost s = false ->
  event_loop (replicate k (prompt [])) r next s = None.
Proof.
  induction k as [|k IH]; intros r next s Ha Hd; cbn [replicate event_loop]; (rewrite decide_False by (by rewrite Ha)); [done|].
  cbn. rewrite Hd. cbn. rewrite decide_False by (by rewrite Ha). by apply IH.
Qed.
Lemma stalled_stream k :
  rtlsdr_read_async demo_memory (fun _ => 0) (prompt errors_apart :: replicate k (prompt [])) true 2 512 demo_stream = Some None.
Proof.
  remember (replicate k (prompt [])) as l eqn:El. unfold rtlsdr_read_async.
  cbv -[event_loop]. cbn [event_loop]. cbv -[event_loop]. subst l. by rewrite stalled_loop.
Qed.
End AsyncProps.
