(* ===== verification/RtlTcp.v ===== *)
(** * The TCP server ([src/src/rtl_tcp.c])

    [Module RtlTcp] has the ring of sample buffers between the USB callback and the clients,
    the worker that sends to a client, the worker that reads its commands, and the table of
    clients with the reaper.  The callback copies into a slot and then publishes it; the send
    worker takes the write position and then sends slot by slot, while the callback goes on:
    these are the steps of [step], whose interleavings are the runs.  What [select], [send]
    and [recv] do is a list of outcomes.  [pthread_create] is taken to succeed, as the code
    does; messages are left out. *)

From stdpp Require Import sorting relations.
From S2P Require Import Prelude Float I2c Usb TunerR82xx TunerFc TunerE4k TunerFc2580 TunerInv Librtlsdr LibrtlsdrOpen LibrtlsdrProps.

Module RtlTcp.
Import Usb Librtlsdr.

Definition RING_SLOT_COUNT : Z := 512.
Definition RING_SLOT_MASK : Z := RING_SLOT_COUNT - 1.
Definition RING_SLOT_SIZE : Z := 256 * 1024.
Definition DEFAULT_MAX_CLIENTS : Z := 8.

(** ** Ring *)

(** A slot: what has been copied to its memory, and [len]. *)
Record ring_slot := mk_slot { s_data : list Z; s_len : Z }.
Record ring_buffer := mk_ring { slots : list ring_slot; write_pos : Z }.

Definition ring_init : ring_buffer := mk_ring (replicate (Z.to_nat RING_SLOT_COUNT) (mk_slot [] 0)) 0.

Definition slot_index (pos : Z) : nat := Z.to_nat (pos &' RING_SLOT_MASK).

(** [memcpy] to [ring_write_ptr]. *)
Definition ring_copy (buf : list Z) (rb : ring_buffer) : ring_buffer :=
  mk_ring (alter (fun s => mk_slot (buf ++ drop (length buf) (s_data s)) (s_len s)) (slot_index (write_pos rb)) (slots rb))
    (write_pos rb).
Definition ring_publish (len : Z) (rb : ring_buffer) : ring_buffer :=
  mk_ring (alter (fun s => mk_slot (s_data s) len) (slot_index (write_pos rb)) (slots rb)) (u32 (write_pos rb + 1)).

(** What [rtlsdr_callback] copies of a buffer. *)
Definition to_copy (buf : list Z) : list Z := take (Z.to_nat RING_SLOT_SIZE) buf.

(** The bytes a worker sends from a position. *)
Definition slot_bytes (pos : Z) (rb : ring_buffer) : list Z :=
  match slots rb !! slot_index pos with Some s => take (Z.to_nat (s_len s)) (s_data s) | None => [] end.

(** ** Sending *)

(** What [select] and [send] do: time out, take some bytes, fail; and whether [do_exit] is
    found set. *)
Inductive send_outcome := O_exit | O_wait | O_sent (n : Z).

(** The result, and what went to the socket; [None] while it goes on. *)
Fixpoint send_all (l : list send_outcome) (buf : list Z) (out : list Z) : option (bool * list Z) :=
  match buf with
  | [] => Some (true, out)
  | _ =>
      match l with
      | [] => None
      | O_exit :: _ => Some (false, out)
      | O_wait :: l => send_all l buf out
      | O_sent n :: l =>
          if n <=? 0 then Some (false, out)
          else send_all l (drop (Z.to_nat n) buf) (out ++ take (Z.to_nat n) buf)
      end
  end.

(** The send worker between its steps: waiting, or sending up to [wp]. *)
Inductive phase := P_wait | P_send (rp wp : Z).

Record client_state := mk_client {
  read_pos : Z;
  active : bool;
  overflows : Z;
  ph : phase;
}.

(** The head of a round: [wp] is the write position that is read behind the wait. *)
Definition round_start (wp : Z) (cl : client_state) : client_state :=
  let rp := read_pos cl in
  let behind := u32 (wp - rp) in
  if RING_SLOT_COUNT <? behind
  then
    let rp := u32 (wp - RING_SLOT_COUNT / 4) in
    mk_client rp (active cl) (s32 (overflows cl + s32 (behind - RING_SLOT_COUNT / 4))) (P_send rp wp)
  else mk_client rp (active cl) (overflows cl) (P_send rp wp).
(** Behind a slot that was sent. *)
Definition slot_sent (rp wp : Z) (cl : client_state) : client_state :=
  mk_client (read_pos cl) (active cl) (overflows cl) (P_send (u32 (rp + 1)) wp).
(** The end of a round. *)
Definition round_end (rp : Z) (cl : client_state) : client_state :=
  mk_client rp (active cl) (overflows cl) P_wait.
Definition deactivate (cl : client_state) : client_state :=
  mk_client (read_pos cl) false (overflows cl) (ph cl).

(** *** The callback and one send worker, interleaved *)

(** [copied] is a buffer that has been copied and not yet published.  Of the run: all buffers
    published, the blocks sent, whether a block was sent from a slot the callback had come
    back to. *)
Record run := mk_run {
  rb : ring_buffer;
  copied : option (list Z);
  cl : client_state;
  published : list (list Z);
  sent : list (list Z);
  next : nat;
  lapped : bool;
}.

(** [next] is the number of the block at the read position, counted from the start. *)
Inductive step : run -> run -> Prop :=
  | S_copy rb cl pub sn nx lp buf : buf <> [] ->
      step (mk_run rb None cl pub sn nx lp)
        (mk_run (ring_copy (to_copy buf) rb) (Some (to_copy buf)) cl pub sn nx lp)
  | S_publish rb buf cl pub sn nx lp :
      step (mk_run rb (Some buf) cl pub sn nx lp)
        (mk_run (ring_publish (zlen buf) rb) None cl (pub ++ [buf]) sn nx lp)
  | S_round rb cp cl pub sn nx lp : ph cl = P_wait -> active cl = true ->
      step (mk_run rb cp cl pub sn nx lp)
        (mk_run rb cp (round_start (write_pos rb) cl) pub sn
           (if RING_SLOT_COUNT <? u32 (write_pos rb - read_pos cl) then (length pub - 128)%nat else nx)
           (lp || (2 ^ 32 <=? zlen pub - Z.of_nat nx)))
  | S_send rb cp cl pub sn nx lp rp wp : ph cl = P_send rp wp -> rp <> wp -> active cl = true ->
      step (mk_run rb cp cl pub sn nx lp)
        (mk_run rb cp (slot_sent rp wp cl) pub (sn ++ [slot_bytes rp rb]) (S nx)
           (lp || (RING_SLOT_COUNT <=? zlen pub - Z.of_nat nx)))
  | S_send_fails rb cp cl pub sn nx lp rp wp : ph cl = P_send rp wp -> rp <> wp ->
      step (mk_run rb cp cl pub sn nx lp) (mk_run rb cp (round_end rp (deactivate cl)) pub sn nx lp)
  | S_end rb cp cl pub sn nx lp rp wp : ph cl = P_send rp wp -> rp = wp \/ active cl = false ->
      step (mk_run rb cp cl pub sn nx lp) (mk_run rb cp (round_end rp cl) pub sn nx lp)
  | S_gone rb cp cl pub sn nx lp :
      step (mk_run rb cp cl pub sn nx lp) (mk_run rb cp (deactivate cl) pub sn nx lp).

(** The ring behind buffers [pub], and a client that connects to it. *)
Definition ring_of (pub : list (list Z)) : ring_buffer :=
  fold_left (fun rb buf => ring_publish (zlen buf) (ring_copy buf rb)) pub ring_init.
Definition connected (pub : list (list Z)) : run :=
  mk_run (ring_of pub) None (mk_client (write_pos (ring_of pub)) true 0 P_wait) pub [] (length pub) false.

End RtlTcp.

Module RtlTcpFacts.
Import RtlTcp.

Lemma mod_u32_512 n : u32 n mod 512 = n mod 512.
Proof. unfold u32. apply Z.mod_mod_divide. exists (2 ^ 23). lia. Qed.
Lemma slot_index_u32 n : slot_index (u32 n) = Z.to_nat (n mod 512).
Proof.
  unfold slot_index. change RING_SLOT_MASK with (Z.ones 9). rewrite Z.land_ones by lia.
  change (2 ^ 9) with 512. by rewrite mod_u32_512.
Qed.
Lemma slot_of_nat n : slot_index (u32 (Z.of_nat n)) = (n mod 512)%nat.
Proof. rewrite slot_index_u32. rewrite Z2Nat.inj_mod by lia. by rewrite Nat2Z.id. Qed.

(** Slot [i] holds the block [b]. *)
Definition holds (rb : ring_buffer) (i : nat) (b : list Z) : Prop :=
  exists s, slots rb !! i = Some s /\ s_len s = zlen b /\ take (length b) (s_data s) = b.

(** The ring has the last blocks of [pub]; with a copy under way the oldest one is lost. *)
Definition ring_ok (rb : ring_buffer) (pub : list (list Z)) (cp : option (list Z)) : Prop :=
  length (slots rb) = 512%nat /\ write_pos rb = u32 (zlen pub) /\
  (forall n b, pub !! n = Some b -> (length pub < n + 512)%nat -> holds rb (n mod 512) b) /\
  match cp with
  | Some buf => exists s, slots rb !! (length pub mod 512)%nat = Some s /\ take (length buf) (s_data s) = buf
  | None => True
  end.

Lemma other_slot n m : (n < m < n + 512)%nat -> (n mod 512 <> m mod 512)%nat.
Proof.
  intros H E. pose proof (Nat.div_mod_eq n 512). pose proof (Nat.div_mod_eq m 512). rewrite E in *. nia.
Qed.
Lemma holds_alter rb f i j b : holds rb j b -> i <> j -> holds (mk_ring (alter f i (slots rb)) (write_pos rb)) j b.
Proof. intros (s & H & K) Hn. exists s. split; [|done]. cbn. by rewrite list_lookup_alter_ne. Qed.

Lemma ring_copy_ok rb pub buf : ring_ok rb pub None -> ring_ok (ring_copy buf rb) pub (Some buf).
Proof.
  intros (H1 & H2 & H3 & _). unfold ring_copy. rewrite H2. unfold zlen. rewrite slot_of_nat.
  split_and!; [cbn; by rewrite length_alter|done| |].
  - intros n b Hb Hn. pose proof (lookup_lt_Some _ _ _ Hb).
    apply (holds_alter rb); [by apply H3|]. apply not_eq_sym, other_slot. lia.
  - assert (L : (length pub mod 512 < length (slots rb))%nat) by (rewrite H1; apply Nat.mod_upper_bound; lia).
    apply lookup_lt_is_Some in L as [s Es]. eexists. cbn [slots]. rewrite list_lookup_alter_eq, Es. split; [done|]. cbn [s_data].
    by rewrite take_app_length.
Qed.
Lemma ring_publish_ok rb pub buf : ring_ok rb pub (Some buf) -> ring_ok (ring_publish (zlen buf) rb) (pub ++ [buf]) None.
Proof.
  intros (H1 & H2 & H3 & s & Es & Ed). unfold ring_publish. rewrite H2. unfold zlen at 2. rewrite slot_of_nat.
  split_and!; [cbn; by rewrite length_alter|cbn| |done].
  - unfold zlen. rewrite length_app. cbn. unfold u32. rewrite Zplus_mod_idemp_l. f_equal. lia.
  - intros n b Hb Hn. rewrite length_app in Hn. cbn in Hn. destruct (decide (n = length pub)) as [->|].
    + rewrite list_lookup_middle in Hb by done. injection Hb as <-. eexists. cbn [slots]. rewrite list_lookup_alter_eq, Es. by split.
    + pose proof (lookup_lt_Some _ _ _ Hb) as Hl. rewrite length_app in Hl. cbn in Hl.
      rewrite lookup_app_l in Hb by lia. destruct (H3 n b Hb ltac:(lia)) as (s' & Hs & K). exists s'. split; [|done].
      cbn. rewrite list_lookup_alter_ne; [done|]. apply not_eq_sym, other_slot. lia.
Qed.
Lemma ring_of_ok pub : ring_ok (ring_of pub) pub None.
Proof.
  unfold ring_of. assert (G : forall l rb p, ring_ok rb p None ->
    ring_ok (fold_left (fun rb buf => ring_publish (zlen buf) (ring_copy buf rb)) l rb) (p ++ l) None).
  { induction l as [|b l IH]; intros rb p Hr; [by rewrite app_nil_r|]. cbn [fold_left].
    rewrite cons_middle, app_assoc. by apply IH, ring_publish_ok, ring_copy_ok. }
  apply (G pub ring_init []). split_and!; [done|done| |done]. intros n b Hn. done.
Qed.
Lemma slot_bytes_ok rb pub cp n b : ring_ok rb pub cp -> pub !! n = Some b -> (length pub < n + 512)%nat ->
  slot_bytes (u32 (Z.of_nat n)) rb = b.
Proof.
  intros (_ & _ & H & _) Hb Hn. destruct (H n b Hb Hn) as (s & Es & El & Ed). unfold slot_bytes. rewrite slot_of_nat, Es, El.
  unfold zlen. by rewrite Nat2Z.id.
Qed.

Lemma u32_sub a b : u32 (u32 a - u32 b) = u32 (a - b).
Proof. unfold u32. by rewrite <- Zminus_mod. Qed.
Lemma u32_sub_l a b : u32 (u32 a - b) = u32 (a - b).
Proof. unfold u32. apply Zminus_mod_idemp_l. Qed.
Lemma u32_succ n : u32 (u32 (Z.of_nat n) + 1) = u32 (Z.of_nat (S n)).
Proof. unfold u32. rewrite Zplus_mod_idemp_l. f_equal. lia. Qed.
Lemma s32_add a b : s32 (s32 a + s32 b) = s32 (a + b).
Proof.
  unfold s32. f_equal. replace ((a + 2 ^ 31) mod 2 ^ 32 - 2 ^ 31 + ((b + 2 ^ 31) mod 2 ^ 32 - 2 ^ 31) + 2 ^ 31)
    with ((a + 2 ^ 31) mod 2 ^ 32 + (b + 2 ^ 31) mod 2 ^ 32 - 2 ^ 31) by lia.
  rewrite Zminus_mod, <- Zplus_mod, <- Zminus_mod. f_equal. lia.
Qed.
Lemma sorted_snoc (l : list nat) n : StronglySorted lt l -> Forall (fun i => i < n)%nat l -> StronglySorted lt (l ++ [n]).
Proof.
  induction 1 as [|i l Hl IH Hi]; intros Hn; cbn; [by repeat constructor|]. inversion Hn; subst.
  constructor; [by apply IH|]. apply Forall_app. split; [done|by constructor].
Qed.

(** ** The invariant of a run *)

(** The positions of the worker as numbers of blocks. *)
Definition placed (c : client_state) (nx total : nat) : Prop :=
  match ph c with
  | P_wait => read_pos c = u32 (Z.of_nat nx)
  | P_send rp wp => rp = u32 (Z.of_nat nx) /\ exists m, wp = u32 (Z.of_nat m) /\ (nx <= m <= total)%nat
  end.
(** The blocks sent are blocks published, in their order. *)
Definition in_order (start nx : nat) (pub sn : list (list Z)) : Prop :=
  exists idx, StronglySorted lt idx /\ Forall (fun i => start <= i < nx)%nat idx /\ Forall2 (fun i b => pub !! i = Some b) idx sn.
Definition run_ok (start : nat) (s : run) : Prop :=
  ring_ok (rb s) (published s) (copied s) /\
  (lapped s = false ->
    (start <= next s <= length (published s))%nat /\ placed (cl s) (next s) (length (published s)) /\
    overflows (cl s) = s32 (Z.of_nat (next s) - Z.of_nat start - zlen (sent s)) /\
    in_order start (next s) (published s) (sent s)).

Lemma placed_more c nx n m : placed c nx n -> (n <= m)%nat -> placed c nx m.
Proof. unfold placed. destruct (ph c); [done|]. intros (E & k & Ek & Hk) Hm. split; [done|]. exists k. split; [done|lia]. Qed.
Lemma in_order_more start nx pub sn b : in_order start nx pub sn -> in_order start nx (pub ++ [b]) sn.
Proof.
  intros (idx & H1 & H2 & H3). exists idx. split_and!; [done..|]. eapply Forall2_impl; [|exact H3].
  intros i x Hx. by apply lookup_app_l_Some.
Qed.
Lemma in_order_next start nx m pub sn : in_order start nx pub sn -> (nx <= m)%nat -> in_order start m pub sn.
Proof.
  intros (idx & H1 & H2 & H3) Hm. exists idx. split_and!; [done| |done].
  eapply Forall_impl; [|exact H2]. intros i Hi. cbn in *. lia.
Qed.
Lemma in_order_snoc start nx pub sn b : in_order start nx pub sn -> pub !! nx = Some b -> (start <= nx)%nat ->
  in_order start (S nx) pub (sn ++ [b]).
Proof.
  intros (idx & H1 & H2 & H3) Hb Hs. exists (idx ++ [nx]). split_and!.
  - apply sorted_snoc; [done|]. eapply Forall_impl; [|exact H2]. intros i Hi. cbn in *. lia.
  - apply Forall_app. split; [|constructor; [lia|constructor]]. eapply Forall_impl; [|exact H2]. intros i Hi. cbn in *. lia.
  - apply Forall2_app; [done|]. by constructor.
Qed.

Lemma round_ok start rb0 c pub sn nx : write_pos rb0 = u32 (zlen pub) -> read_pos c = u32 (Z.of_nat nx) ->
  (start <= nx <= length pub)%nat -> zlen pub - Z.of_nat nx < 2 ^ 32 ->
  overflows c = s32 (Z.of_nat nx - Z.of_nat start - zlen sn) -> in_order start nx pub sn ->
  let nx' := if RING_SLOT_COUNT <? u32 (write_pos rb0 - read_pos c) then (length pub - 128)%nat else nx in
  let c' := round_start (write_pos rb0) c in
  (start <= nx' <= length pub)%nat /\ placed c' nx' (length pub) /\
  overflows c' = s32 (Z.of_nat nx' - Z.of_nat start - zlen sn) /\ in_order start nx' pub sn.
Proof.
  intros Hw Hr Hn Hlim Ho Hin. cbv zeta. unfold round_start. rewrite Hw, Hr, u32_sub.
  unfold zlen in Hlim |- *. rewrite (u32_id (Z.of_nat (length pub) - Z.of_nat nx)) by (unfold is_u; lia).
  change RING_SLOT_COUNT with 512. destruct (Z.ltb_spec 512 (Z.of_nat (length pub) - Z.of_nat nx)).
  - change (512 / 4) with 128. rewrite u32_sub_l.
    replace (Z.of_nat (length pub) - 128) with (Z.of_nat (length pub - 128)) by lia. split_and!; [lia|lia| | |].
    + unfold placed. cbn [ph]. split; [done|]. exists (length pub). split; [done|lia].
    + cbn [overflows]. rewrite Ho, s32_add. f_equal. unfold zlen. lia.
    + apply in_order_next with nx; [done|lia].
  - split_and!; [lia|lia| |done|done]. unfold placed. cbn [ph]. split; [done|]. exists (length pub). split; [done|lia].
Qed.

Lemma step_ok start s s' : step s s' -> run_ok start s -> run_ok start s'.
Proof.
  intros Hst [HR HK].
  destruct Hst as [r c pub sn nx lp buf Hb|r buf c pub sn nx lp|r cp c pub sn nx lp Hp Ha|r cp c pub sn nx lp rp wp Hp Hn Ha
    |r cp c pub sn nx lp rp wp Hp Hn|r cp c pub sn nx lp rp wp Hp Hn|r cp c pub sn nx lp];
    unfold run_ok in *; cbn [rb published copied lapped next cl sent] in *.
  - split; [by apply ring_copy_ok|done].
  - split; [by apply ring_publish_ok|]. intros HL. destruct (HK HL) as (K1 & K2 & K3 & K4). rewrite length_app. cbn [length].
    split_and!; [lia|lia|eapply placed_more; [done|lia]|done|by apply in_order_more].
  - split; [done|]. intros [HL HL2]%orb_false_iff. destruct (HK HL) as (K1 & K2 & K3 & K4).
    apply Z.leb_gt in HL2. unfold placed in K2. rewrite Hp in K2. apply round_ok; [apply HR|done|done|lia|done|done].
  - split; [done|]. intros [HL HL2]%orb_false_iff. destruct (HK HL) as (K1 & K2 & K3 & K4).
    apply Z.leb_gt in HL2. unfold zlen in HL2. change RING_SLOT_COUNT with 512 in HL2.
    unfold placed in K2. rewrite Hp in K2. destruct K2 as (-> & m & -> & Hm).
    assert (Hlt : (nx < m)%nat) by (destruct (decide (nx = m)) as [->|]; [done|lia]).
    destruct (lookup_lt_is_Some_2 pub nx ltac:(lia)) as [b Eb].
    rewrite (slot_bytes_ok r pub cp nx b HR Eb) by lia. split_and!; [lia|lia| | |by apply in_order_snoc; [..|lia]].
    + unfold placed, slot_sent. cbn [ph]. rewrite u32_succ. split; [done|]. exists m. split; [done|lia].
    + cbn [slot_sent overflows]. rewrite K3. f_equal. rewrite zlen_app. change (zlen [b]) with 1. lia.
  - split; [done|]. intros HL. destruct (HK HL) as (K1 & K2 & K3 & K4). split_and!; [lia|lia| |done|done].
    unfold placed in *. rewrite Hp in K2. by destruct K2 as (-> & _).
  - split; [done|]. intros HL. destruct (HK HL) as (K1 & K2 & K3 & K4). split_and!; [lia|lia| |done|done].
    unfold placed in *. rewrite Hp in K2. by destruct K2 as (-> & _).
  - split; [done|]. intros HL. by destruct (HK HL).
Qed.
End RtlTcpFacts.

Module RtlTcpProps.
Import RtlTcp RtlTcpFacts.

(** C24.  A client of the TCP server gets the samples in order: in every interleaving of the
    USB callback with the send worker, as long as the callback does not come round to the
    slot the worker is about to send (and the client is never 2^32 buffers behind), the blocks
    sent are blocks published since the client connected, unchanged and in their order, and
    the overflow counter counts, modulo its width, exactly the blocks that were skipped. *)
Theorem tcp_stream_in_order pub s : rtc step (connected pub) s -> lapped s = false ->
  (length pub <= next s <= length (published s))%nat /\
  in_order (length pub) (next s) (published s) (sent s) /\
  overflows (cl s) = s32 (Z.of_nat (next s) - Z.of_nat (length pub) - zlen (sent s)).
Proof.
  intros Hst HL. assert (I : run_ok (length pub) s).
  { assert (I0 : run_ok (length pub) (connected pub)).
    { split; [apply ring_of_ok|]. intros _. pose proof (ring_of_ok pub) as (_ & Hw & _). split_and!; [done|done| | |].
      - unfold placed. cbn. by rewrite Hw.
      - cbn. rewrite Z.sub_diag. done.
      - exists []. by repeat constructor. }
    revert I0. induction Hst as [|x y z Hs _ IH]; intros I0; [done|]. apply IH; [done|]. by apply (step_ok _ x). }
  destruct I as [_ I]. destruct (I HL) as (K1 & _ & K3 & K4). exact (conj K1 (conj K4 K3)).
Qed.

(** Publishing buffers while the worker rests. *)
Lemma publish_many c sn nx lp l : forall rb pub, Forall (fun b => b <> [] /\ zlen b <= RING_SLOT_SIZE) l ->
  rtc step (mk_run rb None c pub sn nx lp)
    (mk_run (fold_left (fun rb buf => ring_publish (zlen buf) (ring_copy buf rb)) l rb) None c (pub ++ l) sn nx lp).
Proof.
  induction l as [|b l IH]; intros rb pub Hl; [rewrite app_nil_r; apply rtc_refl|].
  inversion Hl as [|? ? [Hb Hz] Hl']; subst. eapply rtc_l; [apply (S_copy _ _ _ _ _ _ b Hb)|].
  assert (T : to_copy b = b) by (apply take_ge; unfold zlen in Hz; lia). rewrite T.
  eapply rtc_l; [apply S_publish|]. replace (pub ++ b :: l) with ((pub ++ [b]) ++ l) by (by rewrite <- app_assoc). cbn [fold_left]. by apply IH.
Qed.

Lemma tcp_stream_in_order_witness : exists s, rtc step (connected []) s /\ sent s = [[1]; [2]] /\
  in_order 0 (next s) (published s) (sent s).
Proof.
  assert (R : exists s, rtc step (connected []) s /\ sent s = [[1]; [2]] /\ lapped s = false).
  { eexists. split.
    - etransitivity; [apply (publish_many _ _ _ _ [[1]; [2]]); repeat constructor; done|].
      eapply rtc_l; [by apply S_round|]. eapply rtc_l; [by apply S_send|].
      eapply rtc_l; [|apply rtc_refl]. by apply S_send.
    - split; vm_compute; reflexivity. }
  destruct R as (s & R & E & L). exists s. split; [exact R|]. split; [exact E|].
  exact (proj1 (proj2 (tcp_stream_in_order [] s R L))).
Defined.

(** The worker does not notice when it is lapped: it takes the write position, the callback
    goes round once, and the block sent is the newest instead of the one due. *)
Lemma overwritten_block : exists s, rtc step (connected []) s /\ published s !! 0%nat = Some [1] /\
  sent s = [[2]] /\ overflows (cl s) = 0.
Proof.
  eexists. split.
  - etransitivity; [apply (publish_many _ _ _ _ [[1]]); repeat constructor; done|].
    eapply rtc_l; [by apply S_round|].
    etransitivity; [apply (publish_many _ _ _ _ (replicate 512 [2])); apply Forall_replicate; done|].
    eapply rtc_l; [|apply rtc_refl]. by apply S_send.
  - split_and!; [done| |done]. vm_compute. reflexivity.
Qed.
End RtlTcpProps.
