(* ===== verification/RtlTcpClients.v ===== *)
(** * Commands and clients of the TCP server ([src/src/rtl_tcp.c])

    [Module Commands]: the worker that collects commands of five bytes from a socket and
    calls the device library for each.  [Module Clients]: the table of clients as a state
    machine, with [main] that accepts and later disconnects clients, the workers that give up
    and the reaper, interleaved between the statements of [remove_client], which takes no lock
    for the slots.  What [select] and [recv] do is a list of outcomes. *)

From stdpp Require Import relations.
From S2P Require Import Prelude Float I2c Usb TunerR82xx TunerFc TunerE4k TunerFc2580 TunerInv Librtlsdr LibrtlsdrOpen LibrtlsdrProps RtlTcp.

Module Commands.
Import Usb Librtlsdr BusGuard.

(** [struct command], packed; [param] is in host order here ([ntohl]). *)
Record command := mk_command { cmd : Z; param : Z }.
Definition COMMAND_SIZE : Z := 5.

Definition decode_command (b : list Z) : command :=
  mk_command (rd b 0) (rd b 1 * 2 ^ 24 + rd b 2 * 2 ^ 16 + rd b 3 * 2 ^ 8 + rd b 4).

Section Device.
Context {U : Type} `{Libusb U}.

Definition set_gain_by_index (index : Z) : st (rtlsdr_dev U) Z :=
  d ← st_get;
  let gains := rtlsdr_get_tuner_gains d in
  if (0 <? zlen gains) && (index <? zlen gains) then rtlsdr_set_tuner_gain (rd gains index) else mret 0.

(** The [switch] of [client_cmd_worker]. *)
Definition run_command (c : command) : st (rtlsdr_dev U) Z :=
  let p := param c in
  let on := negb (p =? 0) in
  if cmd c =? 0x01 then rtlsdr_set_center_freq p
  else if cmd c =? 0x02 then rtlsdr_set_sample_rate p
  else if cmd c =? 0x03 then rtlsdr_set_tuner_gain_mode (s32 p)
  else if cmd c =? 0x04 then rtlsdr_set_tuner_gain (s32 p)
  else if cmd c =? 0x05 then rtlsdr_set_freq_correction (s32 p)
  else if cmd c =? 0x06 then rtlsdr_set_tuner_if_gain (p >>' 16) (s16 (p &' 0xffff))
  else if cmd c =? 0x07 then rtlsdr_set_testmode on
  else if cmd c =? 0x08 then rtlsdr_set_agc_mode on
  else if cmd c =? 0x09 then rtlsdr_set_direct_sampling (s32 p)
  else if cmd c =? 0x0a then rtlsdr_set_offset_tuning on
  else if cmd c =? 0x0b then rtlsdr_set_xtal_freq p 0
  else if cmd c =? 0x0c then rtlsdr_set_xtal_freq 0 p
  else if cmd c =? 0x0d then set_gain_by_index p
  else if cmd c =? 0x0e then on_core (rtlsdr_set_bias_tee (s32 p))
  else mret 0.

(** What a round of the inner loop meets: [do_exit] set or the client inactive behind
    [select]; no data; an error or the end of the stream; some of the bytes that have come. *)
Inductive recv_outcome := R_stop | R_wait | R_fail | R_bytes (n : nat).

(** The worker with the outcomes there are and the bytes [inp] that have come: whether it has
    left the loop, whether the client became inactive by it, the part of a command it holds,
    the bytes it has not read, the device. *)
Fixpoint client_cmd_worker (l : list recv_outcome) (got inp : list Z) (d : rtlsdr_dev U)
    : bool * bool * list Z * list Z * rtlsdr_dev U :=
  match l with
  | [] => (false, false, got, inp, d)
  | R_stop :: _ => (true, false, got, inp, d)
  | R_wait :: l => client_cmd_worker l got inp d
  | R_fail :: _ => (true, true, got, inp, d)
  | R_bytes n :: l =>
      let n := Nat.min n (Z.to_nat (COMMAND_SIZE - zlen got)) in
      let got := got ++ take n inp in
      if zlen got =? COMMAND_SIZE
      then client_cmd_worker l [] (drop n inp) (run_command (decode_command got) d).2
      else client_cmd_worker l got (drop n inp) d
  end.
End Device.
End Commands.

Module Clients.
Import RtlTcp.

(** A slot of [clients]: the socket, [active], and the threads whose handles are in
    [send_thread] and [cmd_thread], by the socket they were started for; of the run: how many
    clients the slot has had. *)
Record slot := mk_slot { sock : Z; active : bool; send_thread : option Z; cmd_thread : option Z; uses : nat }.

(** [clients] and [client_count]; of the run: the connections taken, the sockets open, the
    threads that were joined (a socket, and whether it is the command thread). *)
Record table := mk_table {
  clients : list slot; client_count : Z; taken : nat; open_socks : list Z; joined : list (Z * bool);
}.

Definition empty : table := mk_table (replicate (Z.to_nat DEFAULT_MAX_CLIENTS) (mk_slot (-1) false None None 0)) 0 0 [] [].

Definition set_slot (f : slot -> slot) (i : nat) (t : table) : table :=
  mk_table (alter f i (clients t)) (client_count t) (taken t) (open_socks t) (joined t).
Definition set_active (a : bool) (c : slot) : slot := mk_slot (sock c) a (send_thread c) (cmd_thread c) (uses c).
Definition set_sock (s : Z) (c : slot) : slot := mk_slot s (active c) (send_thread c) (cmd_thread c) (uses c).
Definition set_send (s : Z) (c : slot) : slot := mk_slot (sock c) (active c) (Some s) (cmd_thread c) (uses c).
Definition set_cmd (s : Z) (c : slot) : slot := mk_slot (sock c) (active c) (send_thread c) (Some s) (uses c).

(** The first slot of [max_clients] that is not active. *)
Fixpoint free_slot (l : list slot) (i : nat) : option nat :=
  match l with
  | [] => None
  | s :: l => if active s then free_slot l (S i) else Some i
  end.

(** [dongle_info_t] as it is sent: the magic, the tuner type, the number of gains. *)
Definition htonl_bytes (x : Z) : list Z := [u8 (x >>' 24); u8 (x >>' 16); u8 (x >>' 8); u8 x].
Definition dongle_info (tuner_type tuner_gain_count : Z) : list Z :=
  [0x52; 0x54; 0x4c; 0x30] ++ htonl_bytes tuner_type ++ htonl_bytes tuner_gain_count.

(** [add_client] up to where it gives [clients_mutex] back; [l] is what happens to the socket
    while the header is sent.  The slot or -1, and the table; a socket that is not taken is
    closed. *)
Definition add_client (max_clients tuner_type tuner_gain_count : Z) (l : list send_outcome) (s : Z) (t : table)
    : Z * table :=
  if negb (match send_all l (dongle_info tuner_type tuner_gain_count) [] with Some (ok, _) => ok | None => false end)
  then (-1, t)
  else if max_clients <=? client_count t then (-1, t)
  else
    match free_slot (take (Z.to_nat max_clients) (clients t)) 0 with
    | None => (-1, t)
    | Some i =>
        (Z.of_nat i,
         mk_table (alter (fun c => mk_slot s true (send_thread c) (cmd_thread c) (S (uses c))) i (clients t))
           (client_count t + 1) (S (taken t)) (s :: open_socks t) (joined t))
    end.

(** [remove_client] holds no lock but for the count, so other threads run between its
    statements: where it is, and one statement, with the next place or the return.  Joining a
    thread that was never started is undefined. *)
Inductive phase := P_call | P_set | P_join_send | P_join_cmd | P_close | P_count.
Definition remove_client (max_clients : Z) (i : nat) (ph : phase) (t : table) : option (table * option phase) :=
  c ← clients t !! i;
  match ph with
  | P_call => Some (t, if (max_clients <=? Z.of_nat i) || negb (active c) then None else Some P_set)
  | P_set => Some (set_slot (set_active false) i t, Some P_join_send)
  | P_join_send =>
      s ← send_thread c;
      Some (mk_table (clients t) (client_count t) (taken t) (open_socks t) ((s, false) :: joined t), Some P_join_cmd)
  | P_join_cmd =>
      s ← cmd_thread c;
      Some (mk_table (clients t) (client_count t) (taken t) (open_socks t) ((s, true) :: joined t), Some P_close)
  | P_close =>
      Some (mk_table (alter (set_sock (-1)) i (clients t)) (client_count t) (taken t)
              (list_difference (open_socks t) [sock c]) (joined t), Some P_count)
  | P_count => Some (mk_table (clients t) (client_count t - 1) (taken t) (open_socks t) (joined t), None)
  end.

(** Where [reaper_thread] is: between two tests, or in [remove_client] for a slot that had had
    [n] clients when it was tested. *)
Inductive reaper_at := R_idle | R_in (i n : nat) (ph : phase).
(** Where [main] is: in the accept loop, between the parts of [add_client] for a socket, in the
    loop that disconnects the clients, behind it with the reaper joined. *)
Inductive main_at :=
  | M_accept | M_create_send (i : nat) (s : Z) | M_create_cmd (i : nat) (s : Z)
  | M_test (i : nat) | M_in (i : nat) (ph : phase) | M_done.
Record server := mk_server { tab : table; reaper : reaper_at; main_pc : main_at }.
Definition start : server := mk_server empty R_idle M_accept.

(** What happens next: a connection is accepted, with a descriptor that is not open; [main]
    starts a thread; a worker of a slot gives up ([cl->active = 0]); the reaper tests a slot,
    in whatever order; the reaper goes on in [remove_client]; [main] sees [do_exit]; it goes on
    with the shutdown. *)
Inductive tevent :=
  | E_connect (tuner_type gains : Z) (l : list send_outcome) (s : Z)
  | E_create | E_leaves (i : nat) | E_test (i : nat) | E_reaper | E_exit | E_main.

Definition step (max : Z) (s : server) (ev : tevent) : option server :=
  let '(mk_server t r m) := s in
  match ev with
  | E_connect tuner_type gains l fd =>
      match m with
      | M_accept =>
          if bool_decide (0 <= fd /\ fd ∉ open_socks t) then
            let '(i, t) := add_client max tuner_type gains l fd t in
            Some (mk_server t r (if i <? 0 then M_accept else M_create_send (Z.to_nat i) fd))
          else None
      | _ => None
      end
  | E_create =>
      match m with
      | M_create_send i fd => Some (mk_server (set_slot (set_send fd) i t) r (M_create_cmd i fd))
      | M_create_cmd i fd => Some (mk_server (set_slot (set_cmd fd) i t) r M_accept)
      | _ => None
      end
  | E_leaves i => Some (mk_server (set_slot (set_active false) i t) r m)
  | E_test i =>
      match r with
      | R_idle =>
          if Z.of_nat i <? max then
            c ← clients t !! i;
            Some (mk_server t (if (0 <=? sock c) && negb (active c) then R_in i (uses c) P_call else R_idle) m)
          else None
      | R_in _ _ _ => None
      end
  | E_reaper =>
      match r with
      | R_idle => None
      | R_in i n ph =>
          '(t, ph) ← remove_client max i ph t;
          Some (mk_server t (match ph with Some ph => R_in i n ph | None => R_idle end) m)
      end
  | E_exit => match m with M_accept => Some (mk_server t r (M_test 0)) | _ => None end
  | E_main =>
      match m with
      | M_test i =>
          if Z.of_nat i <? max then
            c ← clients t !! i;
            Some (mk_server t r (if active c then M_in i P_call else M_test (S i)))
          else match r with R_idle => Some (mk_server t r M_done) | R_in _ _ _ => None end
      | M_in i ph =>
          '(t, ph) ← remove_client max i ph t;
          Some (mk_server t r (match ph with Some ph => M_in i ph | None => M_test (S i) end))
      | _ => None
      end
  end.

Definition run_by (step : server -> tevent -> option server) (evs : list tevent) (s : server) : option server :=
  fold_left (fun s ev => s ← s; step s ev) evs (Some s).
Abbreviation run max := (run_by (step max)).

(** The runs in which no client is taken between a test of the reaper and its call of
    [remove_client]. *)
Definition quiet_step (max : Z) (s : server) (ev : tevent) : option server :=
  match ev, reaper s with
  | E_connect _ _ _ _, R_in _ _ P_call => None
  | _, _ => step max s ev
  end.
Abbreviation quiet_run max := (run_by (quiet_step max)).

End Clients.

Module RtlTcpClientsProps.
Import Usb Librtlsdr BusGuard Commands.

Section Worker.
Context {U : Type} `{Libusb U}.

(** The calls of the library a command makes. *)
Definition ops_of (c : command) (d : rtlsdr_dev U) : list api_op :=
  let p := param c in
  let on := negb (p =? 0) in
  if cmd c =? 0x01 then [Op_set_center_freq p]
  else if cmd c =? 0x02 then [Op_set_sample_rate p]
  else if cmd c =? 0x03 then [Op_set_tuner_gain_mode (s32 p)]
  else if cmd c =? 0x04 then [Op_set_tuner_gain (s32 p)]
  else if cmd c =? 0x05 then [Op_set_freq_correction (s32 p)]
  else if cmd c =? 0x06 then [Op_set_tuner_if_gain (p >>' 16) (s16 (p &' 0xffff))]
  else if cmd c =? 0x07 then [Op_set_testmode on]
  else if cmd c =? 0x08 then [Op_set_agc_mode on]
  else if cmd c =? 0x09 then [Op_set_direct_sampling (s32 p)]
  else if cmd c =? 0x0a then [Op_set_offset_tuning on]
  else if cmd c =? 0x0b then [Op_set_xtal_freq p 0]
  else if cmd c =? 0x0c then [Op_set_xtal_freq 0 p]
  else if cmd c =? 0x0d then
    (if p <? zlen (rtlsdr_get_tuner_gains d) then [Op_set_tuner_gain (rd (rtlsdr_get_tuner_gains d) p)] else [])
  else if cmd c =? 0x0e then [Op_set_bias_tee_gpio 0 (s32 p)]
  else [].

Lemma command_is_ops c (d : rtlsdr_dev U) : (run_command c d).2 = run_session (ops_of c d) d.
Proof.
  unfold run_command, ops_of. cbv zeta.
  repeat match goal with |- context [if cmd c =? ?k then _ else _] => destruct (cmd c =? k); [try reflexivity|] end;
    [|reflexivity].
  unfold set_gain_by_index. rewrite st_bind_eq. cbn [st_get].
  assert (P : (0 <? zlen (rtlsdr_get_tuner_gains d)) = true) by (unfold rtlsdr_get_tuner_gains; by destruct (tuner_type d)).
  cbv zeta. rewrite P. cbn [andb]. by destruct (param c <? zlen (rtlsdr_get_tuner_gains d)).
Qed.
Lemma run_session_app (l k : list api_op) : forall d : rtlsdr_dev U, run_session (l ++ k) d = run_session k (run_session l d).
Proof. induction l as [|o l IH]; intros d; [done|]. cbn. apply IH. Qed.

(** The worker as a splitter into frames of five bytes. *)
Lemma cmd_worker_frames l : forall got inp (d : rtlsdr_dev U), zlen got < COMMAND_SIZE ->
  let '(_, _, got', inp', d') := client_cmd_worker l got inp d in
  exists frames ops, got ++ inp = concat frames ++ got' ++ inp' /\ Forall (fun f => zlen f = COMMAND_SIZE) frames /\
    zlen got' < COMMAND_SIZE /\
    d' = fold_left (fun d f => (run_command (decode_command f) d).2) frames d /\ d' = run_session ops d.
Proof.
  induction l as [|o l IH]; intros got inp d Hg; [by exists [], []|].
  destruct o as [| | |n]; cbn [client_cmd_worker]; [by exists [], []|by apply IH|by exists [], []|]. cbv zeta.
  set (k := Nat.min n _). assert (Hk : zlen (got ++ take k inp) <= COMMAND_SIZE).
  { unfold zlen, COMMAND_SIZE in *. rewrite length_app, length_take. unfold k, zlen. lia. }
  destruct (Z.eqb_spec (zlen (got ++ take k inp)) COMMAND_SIZE) as [E|E].
  - specialize (IH [] (drop k inp) (run_command (decode_command (got ++ take k inp)) d).2 ltac:(done)).
    destruct (client_cmd_worker l [] _ _) as [[[[? ?] got'] inp'] d']. destruct IH as (fr & ops & E1 & F & G & D1 & D2).
    exists ((got ++ take k inp) :: fr), (ops_of (decode_command (got ++ take k inp)) d ++ ops). split_and!.
    + cbn [concat]. rewrite <- app_assoc, <- E1, app_nil_l, <- app_assoc, take_drop. done.
    + by constructor.
    + done.
    + done.
    + by rewrite run_session_app, <- command_is_ops.
  - specialize (IH (got ++ take k inp) (drop k inp) d ltac:(lia)).
    destruct (client_cmd_worker l _ _ d) as [[[[? ?] got'] inp'] d']. destruct IH as (fr & ops & E1 & K).
    exists fr, ops. split; [|done]. by rewrite <- E1, <- app_assoc, take_drop.
Qed.

(** C25.  Commands arrive as they were sent: however the network cuts the stream of a client
    into pieces and whenever the worker stops, the commands carried out are exactly the
    complete groups of five bytes from the start of the stream, each once and in order, the
    rest of fewer than five bytes is kept, and the device has been used by a sequence of
    library calls only. *)
Theorem tcp_commands_exact l inp (d : rtlsdr_dev U) :
  let '(_, _, got, rest, d') := client_cmd_worker l [] inp d in
  exists frames ops, inp = concat frames ++ got ++ rest /\ Forall (fun f => zlen f = COMMAND_SIZE) frames /\
    zlen got < COMMAND_SIZE /\
    d' = fold_left (fun d f => (run_command (decode_command f) d).2) frames d /\ d' = run_session ops d.
Proof. by apply (cmd_worker_frames l []). Qed.
End Worker.
End RtlTcpClientsProps.

Module ClientsProps.
Import RtlTcp Clients.

(** What [send_all] leaves on the socket. *)
Lemma send_all_exact l : forall buf out, match send_all l buf out with
  | Some (true, out') => out' = out ++ buf
  | Some (false, out') => exists k, out' = out ++ take k buf
  | None => True
  end.
Proof.
  induction l as [|o l IH]; intros [|x buf] out; cbn [send_all]; try (by rewrite app_nil_r); [done|].
  destruct o as [| |n]; [by exists 0%nat; rewrite app_nil_r|apply IH|].
  destruct (n <=? 0); [by exists 0%nat; rewrite app_nil_r|].
  specialize (IH (drop (Z.to_nat n) (x :: buf)) (out ++ take (Z.to_nat n) (x :: buf))).
  destruct (send_all l _ _) as [[[] out']|]; [|..|done].
  - by rewrite IH, <- app_assoc, take_drop.
  - destruct IH as [k ->]. exists (Z.to_nat n + k)%nat. by rewrite <- app_assoc, <- take_take_drop.
Qed.

(** ** Runs *)

Lemma run_none {step : server -> tevent -> option server} evs : fold_left (fun s ev => s ← s; step s ev) evs (None : option server) = None.
Proof. by induction evs. Qed.
Lemma run_cons {step : server -> tevent -> option server} ev evs s s' : run_by step (ev :: evs) s = Some s' ->
  exists s1, step s ev = Some s1 /\ run_by step evs s1 = Some s'.
Proof. unfold run_by. cbn [fold_left mbind option_bind]. destruct (step s ev) as [s1|]; [eauto|by rewrite run_none]. Qed.
Lemma run_inv {step : server -> tevent -> option server} (P : server -> Prop) : (forall s ev s', P s -> step s ev = Some s' -> P s') ->
  forall evs s s', P s -> run_by step evs s = Some s' -> P s'.
Proof.
  intros HP. induction evs as [|ev evs IH]; intros s s' Hs; [by intros [= <-]|].
  intros (s1 & E & R)%run_cons. eapply IH; [|exact R]. by eapply HP.
Qed.
Lemma quiet_is_step max s ev s' : quiet_step max s ev = Some s' -> step max s ev = Some s'.
Proof. destruct ev; cbn [quiet_step]; try done. by destruct (reaper s) as [|? ? []]. Qed.
Lemma quiet_is_run max evs : forall s s', quiet_run max evs s = Some s' -> run max evs s = Some s'.
Proof.
  induction evs as [|ev evs IH]; intros s s'; [done|]. intros (s1 & E & R)%run_cons.
  apply quiet_is_step in E. unfold run_by. cbn [fold_left mbind option_bind]. rewrite E. by apply IH.
Qed.

(** ** The slots *)

(** The slots behind a change of one of them. *)
Lemma alter_slot f i (l : list slot) j c : alter f i l !! j = Some c ->
  exists c0, l !! j = Some c0 /\ c = if decide (i = j) then f c0 else c0.
Proof.
  rewrite list_lookup_alter. destruct (decide (i = j)) as [<-|Hn]; [|eauto].
  destruct (l !! i) as [c0|]; [|done]. intros [= <-]. eauto.
Qed.
Lemma free_slot_spec l : forall i k, free_slot l i = Some k -> (i <= k)%nat /\ exists c, l !! (k - i)%nat = Some c /\ active c = false.
Proof.
  induction l as [|c l IH]; intros i k; cbn [free_slot]; [done|]. destruct (active c) eqn:A.
  - intros (Hk & c' & E & F)%IH. split; [lia|]. exists c'. by replace (k - i)%nat with (S (k - S i)) by lia.
  - intros [= ->]. split; [lia|]. exists c. by rewrite Nat.sub_diag.
Qed.

(** [add_client] refuses, or takes a slot below [max] that is not active. *)
Inductive added (max : Z) (s : Z) (t : table) : Z -> table -> Prop :=
  | Refused : added max s t (-1) t
  | Taken i c : clients t !! i = Some c -> active c = false -> Z.of_nat i < max -> client_count t < max ->
      added max s t (Z.of_nat i)
        (mk_table (alter (fun c => mk_slot s true (send_thread c) (cmd_thread c) (S (uses c))) i (clients t))
           (client_count t + 1) (S (taken t)) (s :: open_socks t) (joined t)).
Lemma add_client_cases max tt g l s t : let '(i, t') := add_client max tt g l s t in added max s t i t'.
Proof.
  unfold add_client. destruct (negb _); [constructor|]. destruct (Z.leb_spec max (client_count t)); [constructor|].
  destruct (free_slot _ 0) as [i|] eqn:F; [|constructor]. apply free_slot_spec in F as (_ & c & E & A).
  rewrite Nat.sub_0_r in E. apply lookup_take_Some in E as [E Hi]. eapply Taken; [done..|lia|done].
Qed.

(** What a statement of [remove_client] does to the slots. *)
Definition slot_change (ph : phase) : slot -> slot :=
  match ph with P_set => set_active false | P_close => set_sock (-1) | _ => fun c => c end.
Lemma remove_slots max i ph t t' r : remove_client max i ph t = Some (t', r) ->
  exists c, clients t !! i = Some c /\ (forall j d, clients t' !! j = Some d ->
    exists d0, clients t !! j = Some d0 /\ d = if decide (i = j) then slot_change ph d0 else d0) /\
  taken t' = taken t.
Proof.
  unfold remove_client. intros (c & E & H)%bind_Some. exists c. split; [done|].
  assert (Same : forall j d, clients t !! j = Some d -> exists d0, clients t !! j = Some d0 /\ d = if decide (i = j) then d0 else d0)
    by (intros j d Hd; exists d; by destruct (decide (i = j))).
  destruct ph; [injection H as <- <-|injection H as <- <-|apply bind_Some in H as (s & _ & H); injection H as <- <-|
    apply bind_Some in H as (s & _ & H); injection H as <- <-|injection H as <- <-|injection H as <- <-]; cbn; (split; [|done]); try exact Same;
    intros j d Hd; by apply alter_slot in Hd.
Qed.

(** ** The reaper only ever removes newcomers *)

(** In the reaper's call the slot has as many clients as it had at the test, and is inactive, or
    more; past the test of [remove_client] it has more. *)
Definition newcomer (s : server) : Prop :=
  match reaper s with
  | R_idle => True
  | R_in i n ph => exists c, clients (tab s) !! i = Some c /\
      match ph with P_call => (n <= uses c)%nat /\ (active c = true -> (n < uses c)%nat) | _ => (n < uses c)%nat end
  end.
(** More clients and fewer active ones keep it. *)
Lemma newcomer_later r t t' m m' : newcomer (mk_server t r m) ->
  (forall i c, clients t !! i = Some c -> exists c', clients t' !! i = Some c' /\ (uses c <= uses c')%nat /\
     (active c' = true -> active c = true \/ (uses c < uses c')%nat)) -> newcomer (mk_server t' r m').
Proof.
  unfold newcomer. cbn. destruct r as [|i n ph]; [done|]. intros (c & E & H) K. destruct (K i c E) as (c' & E' & U & A).
  exists c'. split; [done|]. destruct ph; try lia. split; [lia|]. intros Ha. destruct (A Ha) as [Hc|]; [|lia]. destruct H as [_ H].
  specialize (H Hc). lia.
Qed.
Lemma alter_later (f : slot -> slot) i t t' : clients t' = alter f i (clients t) ->
  (forall c, clients t !! i = Some c -> (uses c <= uses (f c))%nat /\ (active (f c) = true -> active c = true \/ (uses c < uses (f c))%nat)) ->
  forall j c, clients t !! j = Some c -> exists c', clients t' !! j = Some c' /\ (uses c <= uses c')%nat /\
     (active c' = true -> active c = true \/ (uses c < uses c')%nat).
Proof.
  intros -> Hf j c E. destruct (decide (i = j)) as [<-|Hn].
  - rewrite list_lookup_alter_eq, E. cbn. eexists. split; [done|]. by apply Hf.
  - rewrite list_lookup_alter_ne by done. exists c. split; [done|]. split; [lia|auto].
Qed.
Lemma same_later t t' : clients t' = clients t ->
  forall j c, clients t !! j = Some c -> exists c', clients t' !! j = Some c' /\ (uses c <= uses c')%nat /\
     (active c' = true -> active c = true \/ (uses c < uses c')%nat).
Proof. intros -> j c E. exists c. split; [done|]. split; [lia|auto]. Qed.
Lemma remove_later max i ph t t' r : remove_client max i ph t = Some (t', r) ->
  forall j c, clients t !! j = Some c -> exists c', clients t' !! j = Some c' /\ (uses c <= uses c')%nat /\
     (active c' = true -> active c = true \/ (uses c < uses c')%nat).
Proof.
  unfold remove_client. intros (c & E & H)%bind_Some.
  destruct ph; [injection H as <- <-|injection H as <- <-|apply bind_Some in H as (s & _ & H); injection H as <- <-|
    apply bind_Some in H as (s & _ & H); injection H as <- <-|injection H as <- <-|injection H as <- <-]; try (by apply same_later);
    (eapply alter_later; [reflexivity|]); intros c0 _; cbn; (split; [lia|first [done|by left]]).
Qed.

Lemma newcomer_step max s ev s' : newcomer s -> step max s ev = Some s' -> newcomer s'.
Proof.
  destruct s as [t r m]. intros Hn. destruct ev as [tt g l fd| |i|i| | |]; cbn [step].
  - destruct m; try done. destruct (bool_decide _); [|done]. pose proof (add_client_cases max tt g l fd t) as Ha.
    destruct (add_client max tt g l fd t) as [i t']. intros [= <-]. destruct Ha as [|i c E A Hi Hc]; [by eapply newcomer_later, same_later|].
    eapply newcomer_later; [exact Hn|]. eapply alter_later; [reflexivity|]. intros c0 _. cbn. lia.
  - destruct m as [|i fd|i fd| | |]; try done; intros [= <-]; (eapply newcomer_later; [exact Hn|]); (eapply alter_later; [reflexivity|]);
      intros c _; cbn; (split; [lia|first [done|by left]]).
  - intros [= <-]. eapply newcomer_later; [exact Hn|]. eapply alter_later; [reflexivity|]. intros c _. cbn. split; [lia|first [done|by left]].
  - destruct r as [|? ? ?]; [|done]. destruct (_ <? _); [|done]. intros (c & E & [= <-])%bind_Some. destruct (0 <=? sock c), (active c) eqn:A; cbn; try done.
    exists c. split; [done|]. split; [lia|]. by rewrite A.
  - destruct r as [|i n ph]; [done|]. intros ([t' ph'] & E & [= <-])%bind_Some. pose proof (remove_later _ _ _ _ _ _ E) as L.
    destruct Hn as (c & Ec & Hn). destruct (L i c Ec) as (c' & Ec' & U & _). cbn in Ec, Hn. unfold remove_client in E. rewrite Ec in E.
    destruct ph; cbn [mbind option_bind] in E.
    + injection E as <- <-. destruct (active c) eqn:A; [|rewrite orb_true_r; done]. rewrite orb_false_r. destruct (_ <=? _); [done|]. cbn.
      exists c. split; [done|]. by apply Hn.
    + injection E as <- <-. cbn. exists c'. split; [done|lia].
    + apply bind_Some in E as (s & _ & [= <- <-]). cbn. exists c'. split; [done|lia].
    + apply bind_Some in E as (s & _ & [= <- <-]). cbn. exists c'. split; [done|lia].
    + injection E as <- <-. cbn. exists c'. split; [done|lia].
    + by injection E as <- <-.
  - destruct m; try done. intros [= <-]. by eapply newcomer_later, same_later.
  - destruct m as [| | |i|i ph|]; try done.
    + destruct (_ <? _); [intros (c & E & [= <-])%bind_Some; by eapply newcomer_later, same_later|]. destruct r; [|done]. by intros [= <-].
    + intros ([t' ph'] & E & [= <-])%bind_Some. eapply newcomer_later; [exact Hn|]. by eapply remove_later.
Qed.

(** ** A full table stays full *)

Definition full (max : Z) (n : nat) (s : server) : Prop :=
  taken (tab s) = n /\
  match main_pc s with M_accept => max <= client_count (tab s) | M_create_send _ _ | M_create_cmd _ _ => False | _ => True end /\
  match reaper s with
  | R_idle => True
  | R_in i _ ph => ph = P_call /\ forall c, clients (tab s) !! i = Some c -> active c = false
  end.
Lemma table_full_step max n s ev s' : full max n s -> step max s ev = Some s' -> full max n s'.
Proof.
  destruct s as [t r m]. intros (H1 & H2 & H3). cbn in H1, H2, H3. destruct ev as [tt g l fd| |i|i| | |]; cbn [step].
  - destruct m; try done. destruct (bool_decide _); [|done]. pose proof (add_client_cases max tt g l fd t) as Ha.
    destruct (add_client max tt g l fd t) as [i t']. intros [= <-]. destruct Ha as [|i c E A Hi Hc]; [done|lia].
  - by destruct m.
  - intros [= <-]. split_and!; [done|done|]. cbn. destruct r as [|j n' ph]; [done|]. destruct H3 as [-> H3]. split; [done|].
    intros c (c0 & E & ->)%alter_slot. destruct (decide (i = j)); [done|by apply H3].
  - destruct r as [|? ? ?]; [|done]. destruct (_ <? _); [|done]. intros (c & E & [= <-])%bind_Some. split_and!; [done|done|]. cbn.
    destruct (0 <=? sock c), (active c) eqn:A; cbn; try done. split; [done|]. congruence.
  - destruct r as [|i n' ph]; [done|]. destruct H3 as [-> H3]. intros ([t' ph'] & E & [= <-])%bind_Some.
    unfold remove_client in E. apply bind_Some in E as (c & Ec & E). injection E as <- <-. rewrite (H3 c Ec), orb_true_r. done.
  - destruct m; try done. intros [= <-]. done.
  - destruct m as [| | |i|i ph|]; try done.
    + destruct (_ <? _); [intros (c & E & [= <-])%bind_Some; split_and!; [done|by destruct (active c)|done]|]. destruct r; [|done]. by intros [= <-].
    + intros ([t' ph'] & E & [= <-])%bind_Some. destruct (remove_slots _ _ _ _ _ _ E) as (c & Ec & L & T). split_and!; [by cbn; rewrite T|by destruct ph'|].
      cbn. destruct r as [|j n' ph0]; [done|]. destruct H3 as [-> H3]. split; [done|]. intros d (d0 & Ed & ->)%L.
      specialize (H3 d0 Ed). destruct (decide (i = j)); [|done]. by destruct ph.
Qed.

(** ** Runs without an overlap *)

Definition held (l : list slot) : list Z := omap (fun c => if 0 <=? sock c then Some (sock c) else None) l.
Lemma held_app l k : held (l ++ k) = held l ++ held k.
Proof. apply omap_app. Qed.
Lemma held_cons c l : held (c :: l) = (if 0 <=? sock c then [sock c] else []) ++ held l.
Proof. unfold held. cbn. by destruct (0 <=? sock c). Qed.
Lemma slot_split (l : list slot) i c : l !! i = Some c ->
  exists l1 l2, l = l1 ++ c :: l2 /\ forall f, alter f i l = l1 ++ f c :: l2.
Proof.
  intros E. exists (take i l), (drop (S i) l). pose proof (lookup_lt_Some _ _ _ E) as L.
  assert (El : length (take i l) = i) by (rewrite length_take; lia).
  split; [by rewrite take_drop_middle|]. intros f.
  rewrite <- (take_drop_middle l i c E) at 1. rewrite <- El at 1. rewrite <- (Nat.add_0_r (length (take i l))).
  by rewrite alter_app_r.
Qed.
Lemma held_in l i c : l !! i = Some c -> 0 <= sock c -> sock c ∈ held l.
Proof.
  intros E H. destruct (slot_split _ _ _ E) as (l1 & l2 & -> & _). rewrite held_app, held_cons, (proj2 (Z.leb_le _ _) H).
  rewrite !elem_of_app, list_elem_of_singleton. by right; left.
Qed.
Lemma held_same f i l : (forall c, sock (f c) = sock c) -> held (alter f i l) = held l.
Proof.
  intros Hf. destruct (l !! i) as [c|] eqn:E.
  - destruct (slot_split _ _ _ E) as (l1 & l2 & -> & ->). by rewrite !held_app, !held_cons, Hf.
  - enough (alter f i l = l) as -> by done. apply list_eq. intros j. rewrite list_lookup_alter.
    destruct (decide (i = j)) as [<-|]; [by rewrite E|done].
Qed.

(** The threads joined but for sockets that are still open. *)
Definition ahead (m : main_at) : nat := match m with M_in _ P_join_cmd => 1 | M_in _ P_close => 2 | _ => 0 end.
Definition uncounted (m : main_at) : Z := match m with M_in _ P_count => 1 | _ => 0 end.
Definition accepting (m : main_at) : bool := match m with M_accept | M_create_send _ _ | M_create_cmd _ _ => true | _ => false end.

(** Every socket that is open is counted and has its two threads; a slot that holds a socket
    holds it alone, with the handles of its threads once they are started. *)
Record tidy (max : Z) (s : server) : Prop := {
  q_reaper : match reaper s with
             | R_idle => True
             | R_in i _ ph => ph = P_call /\ forall c, clients (tab s) !! i = Some c -> active c = false
             end;
  q_open : NoDup (open_socks (tab s));
  q_held : NoDup (held (clients (tab s)));
  q_sub : held (clients (tab s)) ⊆ open_socks (tab s);
  q_active : forall i c, clients (tab s) !! i = Some c -> active c = true -> 0 <= sock c /\ Z.of_nat i < max;
  q_send : forall i c, clients (tab s) !! i = Some c -> 0 <= sock c -> send_thread c = Some (sock c) \/ main_pc s = M_create_send i (sock c);
  q_cmd : forall i c, clients (tab s) !! i = Some c -> 0 <= sock c ->
    cmd_thread c = Some (sock c) \/ main_pc s = M_create_send i (sock c) \/ main_pc s = M_create_cmd i (sock c);
  q_main : match main_pc s with
           | M_create_send i fd | M_create_cmd i fd => exists c, clients (tab s) !! i = Some c /\ sock c = fd
           | M_in i ph => ph = P_call \/ ph = P_count \/ exists c, clients (tab s) !! i = Some c /\ 0 <= sock c /\ (ph = P_set \/ active c = false)
           | _ => True
           end;
  q_joined : NoDup (joined (tab s));
  q_gone : forall fd b, (fd, b) ∈ joined (tab s) -> fd ∉ open_socks (tab s) \/
    exists i c, clients (tab s) !! i = Some c /\ sock c = fd /\
      (main_pc s = M_in i P_close \/ main_pc s = M_in i P_join_cmd /\ b = false);
  q_threads : (length (joined (tab s)) + 2 * length (open_socks (tab s)) = 2 * taken (tab s) + ahead (main_pc s))%nat;
  q_count : client_count (tab s) = Z.of_nat (length (open_socks (tab s))) + uncounted (main_pc s);
  q_accept : accepting (main_pc s) = true -> joined (tab s) = [];
}.

Lemma tidy_start max : tidy max start.
Proof.
  split; cbn [start tab reaper main_pc]; try done; try (intros i c [-> _]%lookup_replicate_1; done); try (apply base.NoDup_nil_2).
  - change (held (clients empty)) with (@nil Z). set_solver.
Qed.

(** Some slot changes, but its socket does not, nor becomes it active. *)
Lemma tidy_slot max f i t r m : (forall c, sock (f c) = sock c /\ send_thread (f c) = send_thread c /\ cmd_thread (f c) = cmd_thread c /\
    (active (f c) = true -> active c = true)) -> tidy max (mk_server t r m) -> tidy max (mk_server (set_slot f i t) r m).
Proof.
  intros Hf [H1 H2 H3 H4 H5 H6 H7 H8 H9 H10 H11 H12 H13]. cbn in *.
  assert (L : forall j c, alter f i (clients t) !! j = Some c -> exists c0, clients t !! j = Some c0 /\ sock c = sock c0 /\
    send_thread c = send_thread c0 /\ cmd_thread c = cmd_thread c0 /\ (active c = true -> active c0 = true)).
  { intros j c (c0 & E & ->)%alter_slot. exists c0. split; [done|]. destruct (decide (i = j)); [apply Hf|done]. }
  split; cbn; try done.
  - destruct r as [|j n ph]; [done|]. destruct H1 as [-> H1]. split; [done|]. intros c (c0 & E & _ & _ & _ & A)%L.
    specialize (H1 c0 E). destruct (active c); [|done]. by rewrite (A eq_refl) in H1.
  - by rewrite held_same by apply Hf.
  - by rewrite held_same by apply Hf.
  - intros j c (c0 & E & -> & _ & _ & A)%L Ha. by apply (H5 j c0 E), A.
  - intros j c (c0 & E & -> & -> & _)%L Hs. by apply (H6 j c0).
  - intros j c (c0 & E & -> & _ & -> & _)%L Hs. by apply (H7 j c0).
  - destruct m as [|j fd|j fd| |j ph|]; try done.
    1-2: destruct H8 as (c & E & Hs); rewrite list_lookup_alter; destruct (decide (i = j)) as [<-|]; [rewrite E|eauto];
      eexists; split; [done|]; by rewrite (proj1 (Hf c)).
    destruct H8 as [?|[?|(c & E & Hs & Ha)]]; [by left|by right; left|]. right; right.
    rewrite list_lookup_alter. destruct (decide (i = j)) as [<-|]; [|eauto]. rewrite E. eexists. split; [done|].
    destruct (Hf c) as (-> & _ & _ & A). split; [done|]. destruct Ha as [|Ha]; [by left|right].
    destruct (active (f c)); [|done]. by rewrite (A eq_refl) in Ha.
  - intros fd b [?|(j & c & E & Es & Hm)]%H10; [by left|]. right. exists j. rewrite list_lookup_alter.
    destruct (decide (i = j)) as [<-|]; [|eauto]. rewrite E. eexists. split; [done|]. by rewrite (proj1 (Hf c)).
Qed.

Lemma tidy_connect max i c fd t r : clients t !! i = Some c -> active c = false -> Z.of_nat i < max -> 0 <= fd -> fd ∉ open_socks t ->
  r = R_idle -> tidy max (mk_server t r M_accept) ->
  tidy max (mk_server (mk_table (alter (fun c => mk_slot fd true (send_thread c) (cmd_thread c) (S (uses c))) i (clients t))
    (client_count t + 1) (S (taken t)) (fd :: open_socks t) (joined t)) r (M_create_send i fd)).
Proof.
  intros E A Hi H0 Hfd -> [H1 H2 H3 H4 H5 H6 H7 H8 H9 H10 H11 H12 H13]. cbn in *.
  destruct (slot_split _ _ _ E) as (l1 & l2 & El & Ea). rewrite El, held_app, held_cons in H3, H4.
  set (f := fun c : slot => mk_slot fd true (send_thread c) (cmd_thread c) (S (uses c))) in *. split; cbn; try done; rewrite ?(Ea f).
  - by constructor.
  - rewrite held_app, held_cons. cbn [f sock]. rewrite (proj2 (Z.leb_le _ _) H0). cbn [app]. rewrite <- Permutation_middle.
    apply list.NoDup_app in H3 as (N1 & D1 & N2). apply list.NoDup_app in N2 as (_ & _ & N2).
    constructor; [set_solver|]. apply list.NoDup_app. split; [done|]. split; [set_solver|done].
  - rewrite held_app, held_cons. cbn [f sock]. rewrite (proj2 (Z.leb_le _ _) H0). set_solver.
  - rewrite <- (Ea f). intros j d (d0 & Ed & ->)%alter_slot Hd. destruct (decide (i = j)) as [<-|]; [by cbn|by apply (H5 j d0)].
  - rewrite <- (Ea f). intros j d (d0 & Ed & ->)%alter_slot Hd. destruct (decide (i = j)) as [<-|]; [by right|].
    destruct (H6 j d0 Ed Hd); [by left|done].
  - rewrite <- (Ea f). intros j d (d0 & Ed & ->)%alter_slot Hd. destruct (decide (i = j)) as [<-|]; [by right; left|].
    destruct (H7 j d0 Ed Hd) as [|[]]; [by left|done|done].
  - rewrite <- (Ea f), list_lookup_alter_eq, E. by eexists.
  - rewrite H13 by done. intros ? ? Hn. by apply not_elem_of_nil in Hn.
  - rewrite H13 in * by done. cbn in *. lia.
  - lia.
Qed.

Lemma tidy_create max t r m f i fd : (forall c, sock (f c) = sock c /\ active (f c) = active c) ->
  (m = M_create_send i fd /\ f = set_send fd \/ m = M_create_cmd i fd /\ f = set_cmd fd) ->
  tidy max (mk_server t r m) ->
  tidy max (mk_server (set_slot f i t) r (match m with M_create_send i fd => M_create_cmd i fd | _ => M_accept end)).
Proof.
  intros Hf Hm [H1 H2 H3 H4 H5 H6 H7 H8 H9 H10 H11 H12 H13]. cbn in *.
  assert (Hc : forall c, clients t !! i = Some c -> 0 <= sock c -> sock c = fd)
    by (destruct Hm as [[-> _]|[-> _]]; destruct H8 as (c0 & E0 & <-); intros; congruence).
  assert (J : joined t = []) by (apply H13; by destruct Hm as [[-> _]|[-> _]]).
  split; cbn; try done.
  - destruct r as [|j n ph]; [done|]. destruct H1 as [-> H1]. split; [done|]. intros c (c0 & E & ->)%alter_slot.
    destruct (decide (i = j)); [rewrite (proj2 (Hf c0))|]; by apply H1.
  - by rewrite held_same by apply Hf.
  - by rewrite held_same by apply Hf.
  - intros j c (c0 & E & ->)%alter_slot. destruct (decide (i = j)); [rewrite (proj1 (Hf c0)), (proj2 (Hf c0))|]; by apply H5.
  - intros j c (c0 & E & ->)%alter_slot. specialize (H6 j c0 E). specialize (Hc c0).
    destruct Hm as [[-> ->]|[-> ->]]; destruct (decide (i = j)) as [<-|]; cbn; intros Hs; specialize (H6 Hs); try specialize (Hc E Hs);
      (left; destruct H6 as [H6|H6]; [first [done|by rewrite Hc]|congruence]).
  - intros j c (c0 & E & ->)%alter_slot. specialize (H7 j c0 E). specialize (Hc c0).
    destruct Hm as [[-> ->]|[-> ->]]; destruct (decide (i = j)) as [<-|]; cbn; intros Hs; specialize (H7 Hs); try specialize (Hc E Hs).
    + right; right. by rewrite Hc.
    + left. destruct H7 as [H7|[H7|H7]]; [done|congruence|done].
    + left. by rewrite Hc.
    + left. destruct H7 as [H7|[H7|H7]]; [done|done|congruence].
  - destruct Hm as [[-> _]|[-> _]]; [|done]. destruct H8 as (c & E & Hs). rewrite list_lookup_alter_eq, E. eexists. split; [done|].
    by rewrite (proj1 (Hf c)).
  - rewrite J. intros ? ? Hn. by apply not_elem_of_nil in Hn.
  - destruct Hm as [[-> _]|[-> _]]; cbn in *; lia.
  - destruct Hm as [[-> _]|[-> _]]; cbn in *; lia.
Qed.

(** The shutdown: [main] goes on in [remove_client]. *)
Lemma tidy_remove max i ph t t' ph' r : tidy max (mk_server t r (M_in i ph)) -> remove_client max i ph t = Some (t', ph') ->
  tidy max (mk_server t' r (match ph' with Some ph => M_in i ph | None => M_test (S i) end)).
Proof.
  intros Ht E. pose proof Ht as [H1 H2 H3 H4 H5 H6 H7 H8 H9 H10 H11 H12 H13]. cbn in *.
  assert (S6 : forall j d, clients t !! j = Some d -> 0 <= sock d -> send_thread d = Some (sock d))
    by (intros j d Ed Hd; by destruct (H6 j d Ed Hd)).
  assert (S7 : forall j d, clients t !! j = Some d -> 0 <= sock d -> cmd_thread d = Some (sock d))
    by (intros j d Ed Hd; by destruct (H7 j d Ed Hd) as [|[]]).
  unfold remove_client in E. apply bind_Some in E as (c & Ec & E). destruct ph.
  - (* the test *)
    injection E as <- <-. destruct (active c) eqn:A; [rewrite orb_false_r|rewrite orb_true_r].
    + destruct (H5 i c Ec A) as [Hs Hi]. destruct (Z.leb_spec max (Z.of_nat i)); [lia|].
      split; cbn; try done; try (intros j d Ed Hd; left; by first [apply (S6 j d)|apply (S7 j d)]). right; right; eauto 6.
      intros fd b [?|(j & d & Ed & Es & [Hj|[Hj _]])]%H10; [by left|done|done].
    + split; cbn; try done; try (intros j d Ed Hd; left; by first [apply (S6 j d)|apply (S7 j d)]). intros fd b [?|(j & d & Ed & Es & [Hj|[Hj _]])]%H10; [by left|done|done].
  - injection E as <- <-. destruct H8 as [?|[?|(d & Ed & Hs & Ha)]]; [done|done|]. rewrite Ec in Ed. injection Ed as <-.
    apply (tidy_slot max (set_active false) i t r (M_in i P_set)) in Ht; [|done]. destruct Ht as [K1 K2 K3 K4 K5 K6 K7 K8 K9 K10 K11 K12 K13]. cbn in *.
    split; cbn; try done; try (intros j d Ed Hd; left; by first [apply (S6 j d)|apply (S7 j d)]).
    + intros j d Ed Hd. left. by destruct (K6 j d Ed Hd).
    + intros j d Ed Hd. left. by destruct (K7 j d Ed Hd) as [|[]].
    + right; right. exists (set_active false c). rewrite list_lookup_alter_eq, Ec. cbn. auto.
    + intros fd b [?|(j & d & Ed & Es & [Hj|[Hj _]])]%H10; [by left|done|done].
  - apply bind_Some in E as (s & Es & [= <- <-]). destruct H8 as [?|[?|(d & Ed & Hs & Ha)]]; [done|done|]. rewrite Ec in Ed. injection Ed as <-.
    pose proof (S6 i c Ec Hs) as Ht'. rewrite Es in Ht'. injection Ht' as ->.
    assert (Hin : sock c ∈ open_socks t) by (by apply H4, (held_in _ i)).
    split; cbn; try done; try (intros j d Ed Hd; left; by first [apply (S6 j d)|apply (S7 j d)]).
    + right; right. exists c. split; [done|]. split; [done|]. right. by destruct Ha.
    + constructor; [|done]. intros [?|(j & d & Ed & Esd & [Hj|[Hj _]])]%H10; [done|done|done].
    + intros fd b [[= -> ->]|Hj]%elem_of_cons; [right; exists i, c; auto|].
      destruct (H10 fd b Hj) as [?|(j & d & Ed & Esd & [Hm|[Hm _]])]; [by left|done|done].
    + lia.
  - apply bind_Some in E as (s & Es & [= <- <-]). destruct H8 as [?|[?|(d & Ed & Hs & Ha)]]; [done|done|]. rewrite Ec in Ed. injection Ed as <-.
    pose proof (S7 i c Ec Hs) as Ht'. rewrite Es in Ht'. injection Ht' as ->.
    assert (Hin : sock c ∈ open_socks t) by (by apply H4, (held_in _ i)).
    split; cbn; try done; try (intros j d Ed Hd; left; by first [apply (S6 j d)|apply (S7 j d)]).
    + right; right. exists c. split; [done|]. split; [done|]. right. by destruct Ha.
    + constructor; [|done]. intros [?|(j & d & Ed & Esd & [Hj|[Hj Hb]])]%H10; [done|done|done].
    + intros fd b [[= -> ->]|Hj]%elem_of_cons; [right; exists i, c; auto|].
      destruct (H10 fd b Hj) as [?|(j & d & Ed & Esd & [Hm|[Hm Hb]])]; [by left|done|]. injection Hm as ->. right. exists j, d. auto.
    + lia.
  - injection E as <- <-. destruct H8 as [?|[?|(d & Ed & Hs & Ha')]]; [done|done|]. rewrite Ec in Ed. injection Ed as <-.
    assert (Hin : sock c ∈ open_socks t) by (by apply H4, (held_in _ i)).
    assert (Ho : open_socks t ≡ₚ sock c :: list_difference (open_socks t) [sock c]).
    { apply NoDup_Permutation; [done|constructor; [intros [_ Hn]%list_elem_of_difference; set_solver|by apply NoDup_list_difference]|].
      intros x. rewrite elem_of_cons, list_elem_of_difference. destruct (decide (x = sock c)); set_solver. }
    assert (Hlen : length (open_socks t) = S (length (list_difference (open_socks t) [sock c]))) by (by rewrite Ho at 1).
    destruct (slot_split _ _ _ Ec) as (l1 & l2 & El & Ea).
    rewrite El, held_app, held_cons, (proj2 (Z.leb_le _ _) Hs) in H3, H4. cbn [app] in H3, H4. rewrite <- Permutation_middle in H3.
    apply list.NoDup_cons in H3 as [Hn H3].
    assert (Eh : held (alter (set_sock (-1)) i (clients t)) = held l1 ++ held l2) by (by rewrite Ea, held_app, held_cons).
    split; cbn; try done; try (intros j d Ed Hd; left; by first [apply (S6 j d)|apply (S7 j d)]).
    + destruct r as [|j n ph]; [done|]. destruct H1 as [-> H1]. split; [done|]. intros d (d0 & Ed & ->)%alter_slot.
      specialize (H1 d0 Ed). by destruct (decide (i = j)).
    + by apply NoDup_list_difference.
    + change (NoDup (held (alter (set_sock (-1)) i (clients t)))). by rewrite Eh.
    + change (held (alter (set_sock (-1)) i (clients t)) ⊆ list_difference (open_socks t) [sock c]). rewrite Eh. intros x Hx. apply list_elem_of_difference. split; [set_solver|]. intros ->%list_elem_of_singleton. done.
    + intros j d (d0 & Ed & ->)%alter_slot. destruct (decide (i = j)) as [<-|]; [|by apply H5]. cbn. intros Ha. rewrite Ec in Ed.
      injection Ed as <-. destruct Ha' as [|Ha']; [done|congruence].
    + intros j d (d0 & Ed & ->)%alter_slot. destruct (decide (i = j)) as [<-|]; [cbn; lia|]. intros Hd. destruct (H6 j d0 Ed Hd); [by left|done].
    + intros j d (d0 & Ed & ->)%alter_slot. destruct (decide (i = j)) as [<-|]; [cbn; lia|]. intros Hd. destruct (H7 j d0 Ed Hd) as [|[|]]; [by left|done|done].
    + by right; left.
    + intros fd b Hj. left. rewrite list_elem_of_difference. destruct (H10 fd b Hj) as [?|(j & d & Ed & <- & [Hm|[Hm _]])]; [tauto| |done].
      injection Hm as ->. rewrite Ec in Ed. injection Ed as <-. intros [_ Hx]. set_solver.
    + lia.
    + lia.
  - injection E as <- <-. split; cbn; try done; try (intros j d Ed Hd; left; by first [apply (S6 j d)|apply (S7 j d)]); try lia.
    intros fd b [?|(j & d & Ed & Es & [Hj|[Hj _]])]%H10; [by left|done|done].
Qed.

Lemma tidy_step max s ev s' : tidy max s -> quiet_step max s ev = Some s' -> tidy max s'.
Proof.
  intros Ht E. assert (Hr : forall tt g l fd, ev = E_connect tt g l fd -> reaper s = R_idle).
  { intros tt g l fd ->. cbn in E. pose proof (q_reaper _ _ Ht) as H1. destruct (reaper s) as [|? ? ph]; [done|]. by destruct H1 as [-> _]. }
  apply quiet_is_step in E. destruct s as [t r m]. destruct ev as [tt g l fd| |i|i| | |]; cbn [step] in E.
  - specialize (Hr _ _ _ _ eq_refl). cbn in Hr. destruct m; try done. destruct (bool_decide_reflect (0 <= fd /\ fd ∉ open_socks t)) as [[H0 Hfd]|]; [|done].
    pose proof (add_client_cases max tt g l fd t) as Ha. destruct (add_client max tt g l fd t) as [i t']. injection E as <-.
    destruct Ha as [|i c Ec A Hi Hc]; [done|]. rewrite (proj2 (Z.ltb_ge _ _)), Nat2Z.id by lia. by eapply tidy_connect.
  - destruct m as [|i fd|i fd| | |]; try done; injection E as <-.
    + apply (tidy_create max t r (M_create_send i fd)) with (fd := fd); [done|by left|done].
    + apply (tidy_create max t r (M_create_cmd i fd)) with (fd := fd); [done|by right|done].
  - injection E as <-. by apply tidy_slot.
  - destruct r as [|? ? ?]; [|done]. destruct (_ <? _); [|done]. apply bind_Some in E as (c & Ec & [= <-]).
    destruct Ht. split; cbn in *; try done. destruct (0 <=? sock c), (active c) eqn:A; cbn; try done. split; [done|]. congruence.
  - destruct r as [|i n ph]; [done|]. pose proof (q_reaper _ _ Ht) as H1. cbn in H1. destruct H1 as [-> H1].
    apply bind_Some in E as ([t' ph'] & E & [= <-]). unfold remove_client in E. apply bind_Some in E as (c & Ec & E). injection E as <- <-.
    rewrite (H1 c Ec), orb_true_r. by destruct Ht.
  - destruct m; try done. injection E as <-. destruct Ht. split; cbn in *; try done.
    + intros j d Ed Hd. left. by destruct (q_send0 j d Ed Hd).
    + intros j d Ed Hd. left. by destruct (q_cmd0 j d Ed Hd) as [|[]].
    + rewrite q_accept0 by done. intros ? ? Hn. by apply not_elem_of_nil in Hn.
  - destruct m as [| | |i|i ph|]; try done.
    + assert (K : forall m', (exists j, m' = M_in j P_call) \/ (exists j, m' = M_test j) \/ m' = M_done -> tidy max (mk_server t r m')).
      { intros m' Hm. assert (Em : ahead m' = 0%nat /\ uncounted m' = 0 /\ accepting m' = false) by (by destruct Hm as [[? ->]|[[? ->]| ->]]).
        destruct Em as (E1 & E2 & E3), Ht. split; cbn in *; rewrite ?E1, ?E2, ?E3; try done.
        - intros j d Ed Hd. left. by destruct (q_send0 j d Ed Hd).
        - intros j d Ed Hd. left. by destruct (q_cmd0 j d Ed Hd) as [|[]].
        - destruct Hm as [[? ->]|[[? ->]| ->]]; [by left|done|done].
        - intros fd b [?|(j & d & _ & _ & [Hj|[Hj _]])]%q_gone0; [by left|done|done]. }
      destruct (_ <? _); [apply bind_Some in E as (c & Ec & [= <-]); apply K; destruct (active c); eauto|].
      destruct r; [|done]. injection E as <-. apply K. auto.
    + apply bind_Some in E as ([t' ph'] & E & [= <-]). by eapply tidy_remove.
Qed.
Lemma tidy_run max evs s : quiet_run max evs start = Some s -> tidy max s.
Proof. apply run_inv; [intros ? ? ?; apply tidy_step|apply tidy_start]. Qed.

(** C26.  The reaper does not free the clients that have gone.  [remove_client] leaves a client
    alone that is not active, and the reaper calls it only for slots it has just found so: in
    every interleaving of connections, workers that give up, the reaper and the shutdown, the
    reaper gets past the test of [remove_client] only for a slot that a new client has taken
    since the reaper's own test, and then it is this client that it removes.  Once
    [client_count] has reached the limit while [main] waits for connections and the reaper is
    between two tests, no connection is ever taken again, whoever leaves.  And in the runs in
    which no client is taken between a test of the reaper and its call, [client_count] is, while
    the server accepts, the number of connections ever taken, and all their sockets are open. *)
Theorem tcp_clients_never_freed max evs s : 1 <= max <= DEFAULT_MAX_CLIENTS -> run max evs start = Some s ->
  (forall i n ph, reaper s = R_in i n ph -> ph <> P_call -> exists c, clients (tab s) !! i = Some c /\ (n < uses c)%nat) /\
  (reaper s = R_idle -> main_pc s = M_accept -> client_count (tab s) = max ->
   forall evs' s', run max evs' s = Some s' -> taken (tab s') = taken (tab s)) /\
  (quiet_run max evs start = Some s -> accepting (main_pc s) = true ->
   client_count (tab s) = Z.of_nat (taken (tab s)) /\ length (open_socks (tab s)) = taken (tab s)).
Proof.
  intros Hm Hr. split_and!.
  - intros i n ph E Hp. assert (N : newcomer s) by (revert Hr; apply run_inv; [intros ? ? ?; apply newcomer_step|done]).
    unfold newcomer in N. rewrite E in N. destruct N as (c & Ec & N). exists c. split; [done|]. by destruct ph.
  - intros Er Em Ec evs' s' R. assert (F : full max (taken (tab s)) s) by (unfold full; rewrite Er, Em; split_and!; [done|lia|done]).
    assert (F' : full max (taken (tab s)) s') by (revert R; apply run_inv; [intros ? ? ?; apply table_full_step|done]). apply F'.
  - intros Hq Ha. pose proof (tidy_run _ _ _ Hq) as [? ? ? ? ? ? ? ? ? ? Hn Hc Hj]. rewrite (Hj Ha) in Hn. cbn in Hn.
    rewrite Hc. assert (E : ahead (main_pc s) = 0%nat /\ uncounted (main_pc s) = 0) by (by destruct (main_pc s)). destruct E as [E1 E2]. rewrite E1 in Hn. rewrite E2. lia.
Qed.

(** Eight clients connect and leave; the reaper looks at the slots in between. *)
Definition visit (fd : Z) : list tevent :=
  [E_connect 5 29 [O_wait; O_sent 12] fd; E_create; E_create; E_leaves 0; E_test 0; E_reaper].
Lemma tcp_clients_never_freed_witness : exists s,
  run 8 (concat (visit <$> seqZ 10 8)) start = Some s /\ Forall (fun c => active c = false) (clients (tab s)) /\
  length (open_socks (tab s)) = 8%nat /\
  forall evs' s', run 8 evs' s = Some s' -> taken (tab s') = taken (tab s).
Proof.
  destruct (run 8 (concat (visit <$> seqZ 10 8)) start) as [s|] eqn:E; [|exfalso; revert E; vm_compute; discriminate].
  assert (V : bool_decide (Forall (fun c => active c = false) (clients (tab s))) = true /\ reaper s = R_idle /\ main_pc s = M_accept /\
    client_count (tab s) = 8 /\ taken (tab s) = 8%nat /\ quiet_run 8 (concat (visit <$> seqZ 10 8)) start = Some s)
    by (revert E; vm_compute; intros [= <-]; split_and!; reflexivity).
  destruct V as (V1 & V2 & V3 & V4 & V5 & V6).
  destruct (tcp_clients_never_freed 8 (concat (visit <$> seqZ 10 8)) s) as (_ & Hf & Hq); [unfold DEFAULT_MAX_CLIENTS; lia|exact E|].
  exists s. split; [reflexivity|]. split; [exact (bool_decide_eq_true_1 _ V1)|]. split; [|exact (Hf V2 V3 V4)].
  rewrite <- V5. apply Hq; [exact V6|by rewrite V3].
Defined.

(** A client is taken between the test and the call: the reaper closes the socket of the new
    client, and that of the one that has gone stays open. *)
Lemma live_client_removed : exists s,
  run 8 [E_connect 5 29 [O_sent 12] 10; E_create; E_create; E_leaves 0; E_test 0;
         E_connect 5 29 [O_sent 12] 11; E_create; E_create; E_reaper; E_reaper; E_reaper; E_reaper; E_reaper; E_reaper] start = Some s /\
  open_socks (tab s) = [10] /\ joined (tab s) = [(11, true); (11, false)] /\ client_count (tab s) = 1 /\ reaper s = R_idle.
Proof. eexists. vm_compute. split_and!; reflexivity. Qed.
End ClientsProps.
