(* ===== verification/Handover.v ===== *)
(** * Handing buffers over between threads ([safe_cond_signal] and [safe_cond_wait] of
    [src/src/rtl_fm.c] and [src/src/rtl_adsb.c])

    A producer stores a value and signals a condition variable; a consumer waits for the signal
    and uses the value.  The condition variable guards no predicate: a signal that comes while
    nobody waits has no effect, a consumer may be woken without one, as POSIX allows, and when it
    is woken it uses what is there by then.

    [Module Handover]: the two macros and the loop of a consumer, with the values by number.
    [HandoverFacts]: whatever the interleaving, values are used in the order they were stored;
    each exactly once when values are stored only while the consumer waits and only signals wake
    it; otherwise values can be skipped or used twice, and the signal at the end of the program
    can be missed. *)

From stdpp Require Import relations.
From S2P Require Import Prelude.

Module Handover.

(** Where the consumer is: at the test of [do_exit]; behind it, before the mutex; in
    [pthread_cond_wait]; woken; at work; returned. *)
Inductive consumer_at := C_test | C_lock | C_wait | C_woken | C_busy | C_done.
#[global] Instance consumer_at_eq_dec : EqDecision consumer_at.
Proof. solve_decision. Defined.

(** [due]: a value was stored and its signal is still to come; [count]: how many values were
    stored; [uses]: the number of the value at each use, 0 for what was there before. *)
Record hand := mk_hand { at_ : consumer_at; due : bool; count : nat; uses : list nat }.

Definition start : hand := mk_hand C_test false 0 [].
Definition goto (p : consumer_at) (h : hand) : hand := mk_hand p (due h) (count h) (uses h).

(** [safe_cond_signal]: the mutex makes it one step. *)
Definition safe_cond_signal (h : hand) : hand :=
  mk_hand (if bool_decide (at_ h = C_wait) then C_woken else at_ h) false (count h) (uses h).
(** The producer: the store, and the signal that follows it. *)
Definition store (h : hand) : hand := mk_hand (at_ h) true (S (count h)) (uses h).

(** The consumer: [while (!do_exit)]; [safe_cond_wait], that is taking the mutex and waiting,
    and coming back from it to the first use of the value; the rest of the round. *)
Definition test (do_exit : bool) (h : hand) : hand := goto (if do_exit then C_done else C_lock) h.
Definition safe_cond_wait (h : hand) : hand := goto C_wait h.
(** [pthread_cond_wait] returns without a signal. *)
Definition wake (h : hand) : hand := goto C_woken h.
Definition use (h : hand) : hand := mk_hand C_busy (due h) (count h) (uses h ++ [count h]).
Definition back (h : hand) : hand := goto C_test h.

(** The steps, with the flag [do_exit] the consumer looks at. *)
Inductive hstep (do_exit : bool) : hand -> hand -> Prop :=
  | H_store h : due h = false -> hstep do_exit h (store h)
  | H_signal h : due h = true -> hstep do_exit h (safe_cond_signal h)
  | H_test h : at_ h = C_test -> hstep do_exit h (test do_exit h)
  | H_wait h : at_ h = C_lock -> hstep do_exit h (safe_cond_wait h)
  | H_wake h : at_ h = C_wait -> hstep do_exit h (wake h)
  | H_use h : at_ h = C_woken -> hstep do_exit h (use h)
  | H_back h : at_ h = C_busy -> hstep do_exit h (back h).

(** The discipline the programs do not enforce: values are stored only while the consumer
    waits, and it is woken by the signal that is due. *)
Definition prompt (h h' : hand) : Prop :=
  (count h' = count h \/ at_ h = C_wait) /\ (at_ h = C_wait -> at_ h' = C_woken -> due h' <> due h).
End Handover.

Create HintDb hand.

Module HandoverFacts.
Import Handover.

(** The steps that keep to the discipline. *)
Lemma prompt_same h : prompt h h.
Proof. split; [by left|congruence]. Qed.
Lemma prompt_store h : at_ h = C_wait -> prompt h (store h).
Proof. intros Ha. split; [by right|cbn; congruence]. Qed.
Lemma prompt_signal h : due h = true -> prompt h (safe_cond_signal h).
Proof. intros Hd. split; [by left|cbn; congruence]. Qed.
Lemma prompt_at h h' : count h' = count h -> at_ h <> C_wait -> prompt h h'.
Proof. intros E Ha. split; [by left|done]. Qed.

(** Each use is of a value not older than the one before. *)
Fixpoint climbs (low : nat) (l : list nat) : Prop :=
  match l with [] => True | k :: l => (low <= k)%nat /\ climbs k l end.
Definition in_order (h : hand) : Prop := climbs 0 (uses h) /\ Forall (fun k => (k <= count h)%nat) (uses h).

Lemma climbs_snoc l : forall low k, climbs low l -> Forall (fun j => (j <= k)%nat) l -> (low <= k)%nat -> climbs low (l ++ [k]).
Proof.
  induction l as [|j l IH]; intros low k Hc Hf Hl; cbn in *; [done|]. inversion Hf; subst. destruct Hc. split; [done|]. by apply IH.
Qed.
Lemma in_order_start : in_order start.
Proof. by split; [|constructor]. Qed.
Lemma in_order_same h h' : in_order h -> uses h' = uses h -> (count h <= count h')%nat -> in_order h'.
Proof. intros [H1 H2] E Hc. unfold in_order. rewrite E. split; [done|]. eapply Forall_impl; [|done]. cbn. lia. Qed.
Lemma in_order_use h : in_order h -> in_order (use h).
Proof.
  intros [H1 H2]. split; cbn; [apply climbs_snoc; auto with lia|]. apply Forall_app. split; [done|]. by repeat constructor.
Qed.
Lemma in_order_store h : in_order h -> in_order (store h).
Proof. intros I. by apply (in_order_same h); cbn; auto with lia. Qed.
Lemma in_order_signal h : in_order h -> in_order (safe_cond_signal h).
Proof. intros I. by apply (in_order_same h); cbn; auto with lia. Qed.
Lemma in_order_test e h : in_order h -> in_order (test e h).
Proof. intros I. by apply (in_order_same h); cbn; auto with lia. Qed.
Lemma in_order_wait h : in_order h -> in_order (safe_cond_wait h).
Proof. intros I. by apply (in_order_same h); cbn; auto with lia. Qed.
Lemma in_order_wake h : in_order h -> in_order (wake h).
Proof. intros I. by apply (in_order_same h); cbn; auto with lia. Qed.
Lemma in_order_back h : in_order h -> in_order (back h).
Proof. intros I. by apply (in_order_same h); cbn; auto with lia. Qed.
#[export] Hint Resolve in_order_use in_order_store in_order_signal in_order_test in_order_wait in_order_wake in_order_back : hand.
Lemma in_order_step e h h' : in_order h -> hstep e h h' -> in_order h'.
Proof. intros I H. destruct H; auto with hand. Qed.

(** With values stored only while the consumer waits, and no other wake-ups: all of them so far, but for the one on
    its way. *)
Definition exact (h : hand) : Prop :=
  match at_ h, due h with
  | C_wait, true | C_woken, false => exists n, count h = S n /\ uses h = seq 1 n
  | C_woken, true => False
  | _, false => uses h = seq 1 (count h)
  | _, true => False
  end.
#[global] Arguments exact : simpl never.
Lemma exact_start : exact start.
Proof. done. Qed.
Lemma exact_step e h h' : exact h -> hstep e h h' -> prompt h h' -> exact h'.
Proof.
  intros X H [P W]. destruct H as [h Hd|h Hd|h Ha|h Ha|h Ha|h Ha|h Ha]; unfold exact in *; cbn in *.
  - destruct P as [?|Ha]; [lia|]. rewrite Ha, Hd in *. by exists (count h).
  - rewrite Hd in X. destruct (at_ h) eqn:Ha; try done.
  - rewrite Ha in *. destruct (due h); [done|]. by destruct e.
  - rewrite Ha in *. by destruct (due h).
  - by destruct (W Ha eq_refl).
  - rewrite Ha in *. destruct (due h); [done|]. destruct X as (n & -> & ->). by rewrite <- seq_S.
  - rewrite Ha in *. by destruct (due h).
Qed.

(** How many values were used. *)
Lemma exact_length h : exact h ->
  (at_ h = C_woken \/ at_ h = C_wait /\ due h = true -> count h = S (length (uses h))) /\
  (at_ h <> C_woken -> due h = false -> count h = length (uses h)).
Proof.
  unfold exact. destruct (at_ h), (due h); intros X; try done; (split; [intros [Hx|[Hx Hy]]|intros Hx Hy]); try done.
  all: try (destruct X as (n & -> & ->); by rewrite length_seq). all: by rewrite X, length_seq.
Qed.

Lemma exact_uses h : exact h -> uses h = seq 1 (length (uses h)) /\ (length (uses h) <= count h)%nat.
Proof.
  unfold exact. assert (G : forall n, uses h = seq 1 n -> (n <= count h)%nat -> uses h = seq 1 (length (uses h)) /\ (length (uses h) <= count h)%nat).
  { intros n E Hn. by rewrite E, length_seq. }
  destruct (at_ h), (due h); intros X; try done; try (destruct X as (n & E & X); apply (G n X); lia); by apply (G (count h)).
Qed.

(** ** What the macros allow *)

(** A value is stored between the signal of the one before and its use: the first is never used,
    and the second signal makes the consumer use the second value again. *)
Lemma used_twice : exists h, rtc (hstep false) start h /\ count h = 2%nat /\ uses h = [2; 2]%nat.
Proof.
  exists (use (safe_cond_signal (safe_cond_wait (test false (back (use (store (safe_cond_signal (store (safe_cond_wait (test false start))))))))))).
  split; [|done].
  eapply rtc_l; [by apply H_test|]. eapply rtc_l; [by apply H_wait|]. eapply rtc_l; [by apply H_store|].
  eapply rtc_l; [by apply H_signal|]. eapply rtc_l; [by apply H_store|]. eapply rtc_l; [by apply H_use|].
  eapply rtc_l; [by apply H_back|]. eapply rtc_l; [by apply H_test|]. eapply rtc_l; [by apply H_wait|].
  eapply rtc_l; [by apply H_signal|]. eapply rtc_l; [by apply H_use|]. done.
Qed.

(** Waiting with no signal to come: nothing but another store or a wake-up without a signal ends
    it. *)
Lemma waits_forever e h h' : at_ h = C_wait -> due h = false -> hstep e h h' -> count h' <> count h \/ h' = wake h.
Proof. intros Ha Hd H. destruct H; cbn; first [by right|left; congruence || lia]. Qed.
(** A wake-up without a signal makes the consumer use what is there: nothing yet, here. *)
Lemma used_early : exists h, rtc (hstep false) start h /\ count h = 0%nat /\ uses h = [0]%nat.
Proof.
  exists (use (wake (safe_cond_wait (test false start)))). split; [|done].
  eapply rtc_l; [by apply H_test|]. eapply rtc_l; [by apply H_wait|]. eapply rtc_l; [by apply H_wake|]. eapply rtc_l; [by apply H_use|]. done.
Qed.
(** A consumer that waits returns on the signal at the end; one that has only tested the flag
    misses it. *)
Lemma signal_ends e h : at_ h = C_wait -> e = true ->
  exists h', rtc (hstep e) (safe_cond_signal h) h' /\ at_ h' = C_done.
Proof.
  intros Ha ->. exists (test true (back (use (safe_cond_signal h)))). split; [|done].
  eapply rtc_l; [apply H_use; cbn; by rewrite Ha|]. eapply rtc_l; [by apply H_back|]. eapply rtc_l; [by apply H_test|]. done.
Qed.
Lemma signal_missed h : at_ h = C_lock -> at_ (safe_cond_wait (safe_cond_signal h)) = C_wait /\ due (safe_cond_wait (safe_cond_signal h)) = false.
Proof. intros Ha. done. Qed.
End HandoverFacts.
