(* ===== verification/RtlAdsb.v ===== *)
(** * The ADS-B decoder ([src/src/rtl_adsb.c])

    [Module Adsb]: magnitudes of the samples, the search for preambles and Manchester coded
    bits in place, and the frames that are shown.  The buffer of magnitudes is a list of
    16-bit values that the functions rewrite as the code does; [settings] has the global
    options.  [manchester] has fuel for the rounds of its outer loop; [None] is a search that
    needs more.

    [AdsbFacts] has what a round of the search changes and that it ends: the place moves on
    within three rounds, because 255, the mark for a bad bit, is not the sum of two squares.
    [AdsbFrames] has a frame as pulses and follows it through the search and the collection of
    its bytes.  [AdsbProps] states both for a buffer of samples. *)

From S2P Require Import Prelude.

Module Adsb.

Abbreviation MESSAGEGO := (253)%Z (only parsing).
Abbreviation OVERWRITE := (254)%Z (only parsing).
Definition BADSAMPLE : Z := 255.
Definition preamble_len : Z := 16.
Definition long_frame : Z := 112.
Definition short_frame : Z := 56.

Record settings := mk_settings { quality : Z; allowed_errors : Z; short_output : bool; verbose_output : bool }.

(** ** Magnitudes *)

Definition abs8 (x : Z) : Z := if 127 <=? x then x - 127 else 127 - x.
Definition squares (i : Z) : Z := u16 (abs8 i * abs8 i).

(** The magnitudes a buffer of bytes is replaced by. *)
Fixpoint magnitute (buf : list Z) : list Z :=
  match buf with
  | i :: q :: buf => u16 (squares i + squares q) :: magnitute buf
  | _ => []
  end.

(** ** Bits *)

Definition single_manchester (s : settings) (a b c d : Z) : Z :=
  let bit_p := b <? a in
  let bit := d <? c in
  if quality s =? 0 then b2z bit
  else if quality s =? 5 then
    if bit && bit_p && (c <? b) then BADSAMPLE
    else if negb bit && negb bit_p && (b <? c) then BADSAMPLE
    else b2z bit
  else if quality s =? 10 then
    if bit && bit_p && (b <? c) then 1
    else if bit && negb bit_p && (d <? b) then 1
    else if negb bit && bit_p && (b <? d) then 0
    else if negb bit && negb bit_p && (c <? b) then 0
    else BADSAMPLE
  else
    if bit && bit_p && (b <? c) && (d <? a) then 1
    else if bit && negb bit_p && (a <? c) && (d <? b) then 1
    else if negb bit && bit_p && (c <? a) && (b <? d) then 0
    else if negb bit && negb bit_p && (c <? b) && (a <? d) then 0
    else BADSAMPLE.

(** The loop of [preamble] from [i2] on. *)
Fixpoint preamble_loop (n : nat) (i2 low high : Z) (buf : list Z) (i : Z) : bool :=
  match n with
  | O => true
  | S n =>
      let pulse := (i2 =? 0) || (i2 =? 2) || (i2 =? 7) || (i2 =? 9) in
      let high := if pulse then rd buf (i + i2) else high in
      let low := if pulse then low else rd buf (i + i2) in
      if high <=? low then false else preamble_loop n (i2 + 1) low high buf i
  end.
Definition preamble (buf : list Z) (i : Z) : bool := preamble_loop (Z.to_nat preamble_len) 0 0 65535 buf i.

Fixpoint mark_preamble (n : nat) (buf : list Z) (i : Z) : list Z :=
  match n with
  | O => buf
  | S n => mark_preamble n (wr buf i MESSAGEGO) (i + 1)
  end.

(** The state of [manchester] between its loops: [i], [a], [b] and the buffer. *)
Record scan := mk_scan { pos : Z; sa : Z; sb : Z; sbuf : list Z }.

(** The search for a preamble; [n] is the number of places left. *)
Fixpoint find_preamble (n : nat) (s : scan) : scan :=
  match n with
  | O => s
  | S n =>
      let i := pos s in
      if preamble (sbuf s) i
      then mk_scan (i + preamble_len) (rd (sbuf s) i) (rd (sbuf s) (i + 1))
             (mark_preamble (Z.to_nat preamble_len) (sbuf s) i)
      else find_preamble n (mk_scan (i + 1) (sa s) (sb s) (sbuf s))
  end.

(** The loop that marks bits; [n] bounds its rounds, [i2] and [errors] are its variables. *)
Fixpoint mark_bits (st : settings) (n : nat) (maximum_i i2 errors : Z) (s : scan) : scan :=
  match n with
  | O => s
  | S n =>
      let i := pos s in
      if negb (i <? maximum_i) then s
      else
        let c := rd (sbuf s) i in
        let d := rd (sbuf s) (i + 1) in
        let bit := single_manchester st (sa s) (sb s) c d in
        let errors := if bit =? BADSAMPLE then errors + 1 else errors in
        if (bit =? BADSAMPLE) && (allowed_errors st <? errors)
        then mk_scan i c d (wr (sbuf s) i2 BADSAMPLE)
        else
          let '(bit, a, b) := if bit =? BADSAMPLE then (b2z (d <? c), 0, 65535) else (bit, c, d) in
          let buf := wr (wr (wr (sbuf s) (i + 1) OVERWRITE) i OVERWRITE) i2 bit in
          mark_bits st n maximum_i (i2 + 1) errors (mk_scan (i + 2) a b buf)
  end.

(** One round of the outer loop. *)
Definition scan_round (st : settings) (len : Z) (s : scan) : scan :=
  let s := find_preamble (Z.to_nat (len - preamble_len - pos s)) s in
  mark_bits st (Z.to_nat len) (len - 1) (pos s) 0 s.

Fixpoint scan_loop (st : settings) (fuel : nat) (len : Z) (s : scan) : option scan :=
  if negb (pos s <? len - 1) then Some s
  else match fuel with O => None | S fuel => scan_loop st fuel len (scan_round st len s) end.

Definition manchester (st : settings) (fuel : nat) (buf : list Z) : option (list Z) :=
  match scan_loop st fuel (zlen buf) (mk_scan 0 0 0 buf) with Some s => Some (sbuf s) | None => None end.

(** ** Frames *)

(** What [display] prints of a frame: nothing, or the bytes. *)
Definition display (s : settings) (frame : list Z) (len : Z) : option (list Z) :=
  let df := (rd frame 0 >>' 3) &' 0x1f in
  if negb (short_output s) && (len <=? short_frame) then None
  else if (quality s =? 0) && negb ((df =? 11) || (df =? 17) || (df =? 18) || (df =? 19)) then None
  else Some (take (Z.to_nat ((len + 7) / 8)) frame).

(** The bits of a frame from [data_i] on: where it stops, how many bits it has, the length
    decided from the first byte, the bytes. *)
Fixpoint frame_loop (n : nat) (buf : list Z) (i data_i frame_len : Z) (frame : list Z) : Z * Z * Z * list Z :=
  match n with
  | O => (i, data_i, frame_len, frame)
  | S n =>
      if (i <? zlen buf) && (rd buf i <=? 1) && (data_i <? frame_len) then
        let frame := if rd buf i =? 0 then frame
                     else wr frame (data_i / 8) (rd frame (data_i / 8) |' u8 (1 <<' (7 - data_i mod 8))) in
        if (data_i =? 7) && (rd frame 0 =? 0) then (i, data_i, frame_len, frame)
        else
          let frame_len := if data_i =? 7 then (if rd frame 0 &' 0x80 =? 0 then short_frame else long_frame)
                           else frame_len in
          frame_loop n buf (i + 1) (data_i + 1) frame_len frame
      else (i, data_i, frame_len, frame)
  end.

(** [messages] from place [i] on; [n] is at least the places left. *)
Fixpoint messages_loop (s : settings) (n : nat) (buf : list Z) (i : Z) : list (list Z) :=
  match n with
  | O => []
  | S n =>
      if negb (i <? zlen buf) then []
      else if 1 <? rd buf i then messages_loop s n buf (i + 1)
      else
        let '(i, data_i, frame_len, frame) := frame_loop 113 buf i 0 long_frame (replicate 14 0) in
        if data_i <? frame_len - 1 then messages_loop s n buf (i + 1)
        else match display s frame frame_len with
             | Some m => m :: messages_loop s n buf (i + 1)
             | None => messages_loop s n buf (i + 1)
             end
  end.
Definition messages (s : settings) (buf : list Z) : list (list Z) := messages_loop s (length buf) buf 0.

(** A buffer of samples: what is shown of it. *)
Definition demod (s : settings) (fuel : nat) (buffer : list Z) : option (list (list Z)) :=
  match manchester s fuel (magnitute buffer) with Some bits => Some (messages s bits) | None => None end.

End Adsb.

(** * Facts about the search *)

Module AdsbFacts.
Import Adsb.

Lemma zlen_mark_preamble n buf i : zlen (mark_preamble n buf i) = zlen buf.
Proof. revert buf i; induction n as [|n IH]; intros buf i; [done|]. cbn [mark_preamble]. by rewrite IH, zlen_wr. Qed.

Lemma rd_mark_preamble n buf i j :
  0 <= i -> 0 <= j < zlen buf ->
  rd (mark_preamble n buf i) j = if (i <=? j) && (j <? i + Z.of_nat n) then MESSAGEGO else rd buf j.
Proof.
  revert buf i; induction n as [|n IH]; intros buf i Hi Hj; cbn [mark_preamble].
  { destruct (Z.leb_spec i j), (Z.ltb_spec j (i + Z.of_nat 0)); cbn [andb]; try done; lia. }
  rewrite IH by (rewrite ?zlen_wr; lia).
  destruct (decide (i = j)) as [->|Hne].
  - rewrite rd_wr_eq by lia.
    destruct (Z.leb_spec (j + 1) j), (Z.leb_spec j j), (Z.ltb_spec j (j + Z.of_nat (S n))); try lia; done.
  - rewrite rd_wr_ne by lia.
    replace (i + 1 + Z.of_nat n) with (i + Z.of_nat (S n)) by lia.
    destruct (Z.leb_spec (i + 1) j), (Z.leb_spec i j); try lia; done.
Qed.

(** What [find_preamble] leaves alone, and that it moves on when it has a place to look at. *)
Lemma find_preamble_frame n s :
  0 <= pos s ->
  let s' := find_preamble n s in
  zlen (sbuf s') = zlen (sbuf s) /\ pos s <= pos s' /\ (n <> O -> pos s < pos s') /\ (n = O -> s' = s) /\
  (forall j, 0 <= j < zlen (sbuf s) -> j < pos s \/ pos s' <= j -> rd (sbuf s') j = rd (sbuf s) j).
Proof.
  revert s; induction n as [|n IH]; intros s Hs; cbn [find_preamble]; [repeat split; try done; lia|].
  destruct (preamble (sbuf s) (pos s)).
  - cbn [pos sbuf]. rewrite zlen_mark_preamble. change preamble_len with 16. repeat split; try lia; try done.
    intros j Hj Hor. rewrite rd_mark_preamble by lia. change (Z.to_nat 16) with 16%nat.
    destruct (Z.leb_spec (pos s) j), (Z.ltb_spec j (pos s + Z.of_nat 16)); try done; lia.
  - destruct (IH (mk_scan (pos s + 1) (sa s) (sb s) (sbuf s))) as (Hz & Hp & _ & _ & Hr); [cbn; lia|].
    cbn [pos sbuf] in *. repeat split; try lia; try done. intros j Hj Hor. apply Hr; lia.
Qed.

(** [mark_bits] writes at and after [i2] and before the place it ends at; when it ends where it
    started, it has given up on the first bit. *)
Lemma mark_bits_frame st n m i2 e s :
  0 <= i2 < pos s ->
  let s' := mark_bits st n m i2 e s in
  zlen (sbuf s') = zlen (sbuf s) /\ pos s <= pos s' /\
  (forall j, 0 <= j -> j < i2 \/ pos s' <= j -> rd (sbuf s') j = rd (sbuf s) j).
Proof.
  revert i2 e s; induction n as [|n IH]; intros i2 e s Hi; cbn [mark_bits]; [repeat split; try done; lia|].
  destruct (negb (pos s <? m)); [repeat split; try done; lia|].
  set (bit := single_manchester _ _ _ _ _). set (e' := if bit =? BADSAMPLE then _ else _).
  destruct ((bit =? BADSAMPLE) && (allowed_errors st <? e')).
  - cbn [pos sbuf]. rewrite zlen_wr. repeat split; try lia. intros j Hj Hor. by rewrite rd_wr_ne by lia.
  - destruct (if bit =? BADSAMPLE then (_, _, _) else _) as [[bit' a'] b'].
    match goal with |- context [mark_bits _ _ _ _ _ ?x] => destruct (IH (i2 + 1) e' x) as (Hz & Hp & Hr) end; [cbn; lia|].
    cbn [pos sbuf] in *. rewrite !zlen_wr in Hz. repeat split; [done|lia|]. intros j Hj Hor.
    rewrite Hr by lia. by rewrite !rd_wr_ne by lia.
Qed.

Lemma mark_bits_first st n m e s :
  0 <= pos s < m -> m < zlen (sbuf s) ->
  let s' := mark_bits st (S n) m (pos s) e s in
  zlen (sbuf s') = zlen (sbuf s) /\
  (forall j, 0 <= j -> j < pos s \/ pos s' < j -> rd (sbuf s') j = rd (sbuf s) j) /\
  (pos s < pos s' \/
   single_manchester st (sa s) (sb s) (rd (sbuf s) (pos s)) (rd (sbuf s) (pos s + 1)) = BADSAMPLE /\
   s' = mk_scan (pos s) (rd (sbuf s) (pos s)) (rd (sbuf s) (pos s + 1)) (wr (sbuf s) (pos s) BADSAMPLE)).
Proof.
  intros Hp Hm. cbn [mark_bits]. destruct (Z.ltb_spec (pos s) m); [|lia]. cbn [negb].
  set (bit := single_manchester _ _ _ _ _). set (e' := if bit =? BADSAMPLE then _ else _).
  destruct ((bit =? BADSAMPLE) && (allowed_errors st <? e')) eqn:E.
  - apply andb_prop in E as [E%Z.eqb_eq _]. cbn [pos sbuf]. rewrite zlen_wr. repeat split.
    + intros j Hj Hor. by rewrite rd_wr_ne by lia.
    + by right.
  - destruct (if bit =? BADSAMPLE then (_, _, _) else _) as [[bit' a'] b'].
    match goal with |- context [mark_bits _ _ _ ?i ?e ?x] => destruct (mark_bits_frame st n m i e x) as (Hz & Hp' & Hr) end; [cbn; lia|].
    cbn [pos sbuf] in *. rewrite !zlen_wr in Hz. repeat split; [done| |lia]. intros j Hj Hor.
    rewrite Hr by lia. by rewrite !rd_wr_ne by lia.
Qed.

(** One round either moves on, or gives up on the first bit at its place. *)
Lemma scan_round_cases st s :
  let len := zlen (sbuf s) in
  0 <= pos s < len - 1 ->
  let s' := scan_round st len s in
  zlen (sbuf s') = len /\
  (forall j, 0 <= j < len -> j < pos s \/ pos s' < j -> rd (sbuf s') j = rd (sbuf s) j) /\
  (pos s < pos s' \/
   single_manchester st (sa s) (sb s) (rd (sbuf s) (pos s)) (rd (sbuf s) (pos s + 1)) = BADSAMPLE /\
   s' = mk_scan (pos s) (rd (sbuf s) (pos s)) (rd (sbuf s) (pos s + 1)) (wr (sbuf s) (pos s) BADSAMPLE)).
Proof.
  intros len Hp. unfold scan_round. subst len.
  set (n := Z.to_nat (zlen (sbuf s) - preamble_len - pos s)).
  destruct (find_preamble_frame n s) as (Hz & Hle & Hlt & H0 & Hr); [lia|].
  destruct (Z.to_nat (zlen (sbuf s))) as [|k] eqn:Ek; [lia|]. rewrite <- Hz.
  set (f := find_preamble n s) in *.
  destruct (decide (pos f < zlen (sbuf f) - 1)) as [Hlt'|Hge].
  - destruct (mark_bits_first st k (zlen (sbuf f) - 1) 0 f) as (Hz' & Hr' & Hc); [lia|lia|].
    split; [by rewrite Hz'|]. split.
    + intros j Hj Hor. assert (pos f <= pos (mark_bits st (S k) (zlen (sbuf f) - 1) (pos f) 0 f)).
      { destruct Hc as [?|[_ ->]]; cbn [pos]; lia. }
      rewrite Hr' by lia. apply Hr; lia.
    + destruct (decide (n = O)) as [->|Hn].
      * by rewrite (H0 eq_refl) in *.
      * left. specialize (Hlt Hn). destruct Hc as [?|[_ ->]]; cbn [pos]; lia.
  - cbn [mark_bits]. destruct (Z.ltb_spec (pos f) (zlen (sbuf f) - 1)); [lia|]. cbn [negb].
    split; [done|]. split.
    + intros j Hj Hor. apply Hr; lia.
    + left. destruct (decide (n = O)) as [Hn|Hn]; [|by apply Hlt]. rewrite (H0 Hn) in Hge. lia.
Qed.

(** A bit is never bad when its samples repeat those before it and the first of them is not
    equal to the second. *)
Lemma single_manchester_repeat st a b : a <> b -> single_manchester st a b a b <> BADSAMPLE.
Proof.
  intros Hne. unfold single_manchester, BADSAMPLE. intros H. revert H.
  destruct (Z.ltb_spec b a), (Z.ltb_spec a b); try lia; cbn [andb negb b2z];
  destruct (quality st =? 0), (quality st =? 5), (quality st =? 10); lia.
Qed.

(** ** Termination *)

(** No magnitude ahead of the place has the value of the mark for a bad bit. *)
Definition unmarked (buf : list Z) (p : Z) : Prop := forall j, p < j < zlen buf -> rd buf j <> BADSAMPLE.

Lemma round_unmarked st s :
  let len := zlen (sbuf s) in
  0 <= pos s < len - 1 -> unmarked (sbuf s) (pos s) -> unmarked (sbuf (scan_round st len s)) (pos (scan_round st len s)).
Proof.
  intros len Hp Hu. destruct (scan_round_cases st s Hp) as (Hz & Hr & Hc). fold len in Hz, Hr, Hc.
  assert (pos s <= pos (scan_round st len s)) by (destruct Hc as [?|[_ ->]]; cbn [pos]; lia).
  intros j Hj. rewrite Hz in Hj. rewrite Hr by lia. apply Hu. lia.
Qed.

Lemma scan_loop_more st fuel len s :
  pos s < len - 1 -> scan_loop st (S fuel) len s = scan_loop st fuel len (scan_round st len s).
Proof. intros Hx. cbn [scan_loop]. by destruct (Z.ltb_spec (pos s) (len - 1)); [|lia]. Qed.

(** A round that starts where the two before it gave up moves on. *)
Lemma third_round_moves st s1 :
  let len := zlen (sbuf s1) in
  0 <= pos s1 < len - 1 -> unmarked (sbuf s1) (pos s1) ->
  rd (sbuf s1) (pos s1) = BADSAMPLE -> sb s1 = rd (sbuf s1) (pos s1 + 1) ->
  let s2 := scan_round st len s1 in
  pos s1 < pos s2 \/ (pos s2 = pos s1 /\ pos s2 < pos (scan_round st len s2)).
Proof.
  intros len Hp Hu Hbad Hb s2. pose proof (round_unmarked st s1 Hp Hu) as Hu2.
  destruct (scan_round_cases st s1 Hp) as (Hz & Hr & [?|[_ E]]); [by left|right].
  fold len s2 in Hz, Hr, E, Hu2. assert (E' : pos s2 = pos s1) by (by rewrite E). split; [done|].
  pose proof (scan_round_cases st s2) as H. cbn zeta in H. rewrite Hz in H.
  destruct (H ltac:(lia)) as (_ & _ & [?|[Hs _]]); [done|exfalso]. revert Hs. rewrite E. cbn [pos sa sb sbuf].
  rewrite rd_wr_eq by lia. rewrite rd_wr_ne by lia. rewrite Hbad. apply single_manchester_repeat.
  intros Hc. apply (Hu (pos s1 + 1)); [lia|done].
Qed.

(** Every place costs at most three rounds. *)
Lemma scan_loop_ends st n : forall s fuel,
  0 <= pos s -> unmarked (sbuf s) (pos s) -> zlen (sbuf s) - 1 - pos s <= Z.of_nat n -> (3 * n <= fuel)%nat ->
  exists s', scan_loop st fuel (zlen (sbuf s)) s = Some s' /\ zlen (sbuf s') = zlen (sbuf s) /\
             forall j, 0 <= j < pos s -> j < zlen (sbuf s) -> rd (sbuf s') j = rd (sbuf s) j.
Proof.
  induction n as [|n IH]; intros s fuel Hp Hu Hn Hf.
  { exists s. split; [|done]. destruct fuel; cbn [scan_loop]; by destruct (Z.ltb_spec (pos s) (zlen (sbuf s) - 1)); [lia|]. }
  destruct (decide (pos s < zlen (sbuf s) - 1)) as [Hlt|Hge].
  2:{ exists s. split; [|done]. destruct fuel; cbn [scan_loop]; by destruct (Z.ltb_spec (pos s) (zlen (sbuf s) - 1)); [lia|]. }
  (** a place that has moved on *)
  assert (Hgo : forall x f, zlen (sbuf x) = zlen (sbuf s) -> unmarked (sbuf x) (pos x) -> pos s < pos x -> (3 * n <= f)%nat ->
            (forall j, 0 <= j < pos s -> rd (sbuf x) j = rd (sbuf s) j) ->
            exists s', scan_loop st f (zlen (sbuf s)) x = Some s' /\ zlen (sbuf s') = zlen (sbuf s) /\
                       forall j, 0 <= j < pos s -> j < zlen (sbuf s) -> rd (sbuf s') j = rd (sbuf s) j).
  { intros x f Hz Hux Hpx Hf' Hr. destruct (IH x f) as (s' & E & Hz' & Hr'); [lia|done|lia|done|].
    rewrite Hz in *. exists s'. split; [done|]. split; [lia|]. intros j Hj Hl. rewrite Hr' by lia. by apply Hr. }
  destruct fuel as [|[|[|fuel]]]; try lia.
  assert (Hp1 : 0 <= pos s < zlen (sbuf s) - 1) by lia.
  rewrite scan_loop_more by lia. pose proof (round_unmarked st s Hp1 Hu) as Hu1.
  destruct (scan_round_cases st s Hp1) as (Hz1 & Hr1 & Hc1).
  set (s1 := scan_round st (zlen (sbuf s)) s) in *.
  destruct (decide (pos s < pos s1)) as [Hm|Hm]; [apply Hgo; [done..|lia|intros; apply Hr1; lia]|].
  destruct Hc1 as [?|[_ E1]]; [done|]. assert (Hps : pos s1 = pos s) by (by rewrite E1).
  rewrite scan_loop_more by lia.
  pose proof (third_round_moves st s1) as H3. pose proof (round_unmarked st s1) as Hu2. pose proof (scan_round_cases st s1) as Hc2.
  cbn zeta in H3, Hu2, Hc2. rewrite Hz1 in H3, Hu2, Hc2. rewrite Hps in H3, Hu2, Hc2.
  specialize (Hu2 Hp1 ltac:(by rewrite <- Hps)). destruct (Hc2 Hp1) as (Hz2 & Hr2 & _).
  assert (H3' := H3 Hp1 ltac:(by rewrite <- Hps) ltac:(rewrite E1; cbn [sbuf]; by rewrite rd_wr_eq by lia)
    ltac:(rewrite E1; cbn [sbuf sb]; by rewrite rd_wr_ne by lia)). clear H3 Hc2.
  set (s2 := scan_round st (zlen (sbuf s)) s1) in *.
  assert (Hk2 : forall j, 0 <= j < pos s -> rd (sbuf s2) j = rd (sbuf s) j).
  { intros j Hj. rewrite Hr2 by lia. apply Hr1; lia. }
  destruct H3' as [Hm2|[Hps2 Hm2]]; [apply Hgo; [done..|lia|done]|].
  rewrite scan_loop_more by lia.
  pose proof (round_unmarked st s2) as Hu3. pose proof (scan_round_cases st s2) as Hc3. cbn zeta in Hu3, Hc3. rewrite Hz2, Hps2 in Hu3, Hc3.
  destruct (Hc3 Hp1) as (Hz3 & Hr3 & _).
  apply Hgo; [done|apply Hu3; [done|by rewrite <- Hps2]|lia|lia|]. intros j Hj. rewrite Hr3 by lia. by apply Hk2.
Qed.

(** ** Magnitudes *)

(** 255 is not the sum of two squares. *)
Lemma magnitude_not_bad i q : is_u 8 i -> is_u 8 q -> u16 (squares i + squares q) <> BADSAMPLE.
Proof.
  intros Hi Hq.
  assert (H : forallb (fun i => forallb (fun q => negb (u16 (squares i + squares q) =? BADSAMPLE)) (seqZ 0 256)) (seqZ 0 256) = true)
    by (vm_compute; reflexivity).
  assert (Hin : forall x, is_u 8 x -> In x (seqZ 0 256)) by (intros x Hx; apply list_elem_of_In, elem_of_seqZ; unfold is_u in Hx; lia).
  pose proof (proj1 (List.forallb_forall _ _) H i (Hin i Hi)) as H1.
  pose proof (proj1 (List.forallb_forall _ _) H1 q (Hin q Hq)) as H2. intros E. cbv beta in H2. by rewrite E in H2.
Qed.

Lemma magnitute_cells buf : bytes buf -> Forall (fun m => is_u 16 m /\ m <> BADSAMPLE) (magnitute buf).
Proof.
  enough (H : forall n buf, (length buf <= n)%nat -> bytes buf -> Forall (fun m => is_u 16 m /\ m <> BADSAMPLE) (magnitute buf))
    by (by apply (H (length buf))).
  induction n as [|n IH]; intros [|i [|q b]] Hn Hb; cbn [magnitute length] in *; try lia; try by constructor.
  apply Forall_cons_iff in Hb as [Hi Hb]. apply Forall_cons_iff in Hb as [Hq Hb].
  constructor; [split; [apply u16_range|by apply magnitude_not_bad]|]. apply IH; [lia|done].
Qed.

Lemma Forall_unmarked buf p : Forall (fun m => is_u 16 m /\ m <> BADSAMPLE) buf -> -1 <= p -> unmarked buf p.
Proof.
  intros H Hp j Hj. unfold rd. destruct (Z.ltb_spec j 0); [lia|]. destruct (buf !! Z.to_nat j) as [x|] eqn:E.
  - by destruct (proj1 (Forall_lookup _ _) H _ _ E).
  - apply lookup_ge_None in E. unfold zlen in Hj. lia.
Qed.

End AdsbFacts.

(** * A frame on the air and what is decoded of it *)

Module AdsbFrames.
Import Adsb AdsbFacts.

(** A preamble and bits as magnitudes: a pulse is a sample [h], no pulse a sample [l]. *)
Definition preamble_pulses (h l : Z) : list Z := [h; l; h; l; l; l; l; h; l; h; l; l; l; l; l; l].
Definition pulse (h l : Z) (b : bool) : list Z := if b then [h; l] else [l; h].
Definition manchester_code (h l : Z) (bits : list bool) : list Z := flat_map (pulse h l) bits.
Definition byte_bits (x : Z) : list bool := (fun t => Z.testbit x (7 - t)) <$> seqZ 0 8.
Definition frame_bits (frame : list Z) : list bool := flat_map byte_bits frame.

Lemma length_manchester_code h l bits : length (manchester_code h l bits) = (2 * length bits)%nat.
Proof. induction bits as [|[] bits IH]; [done|..]; unfold manchester_code in *; cbn [flat_map pulse app length]; lia. Qed.

(** ** The search *)

Lemma find_preamble_at n s p :
  pos s <= p < pos s + Z.of_nat n ->
  (forall i, pos s <= i < p -> preamble (sbuf s) i = false) -> preamble (sbuf s) p = true ->
  find_preamble n s = mk_scan (p + preamble_len) (rd (sbuf s) p) (rd (sbuf s) (p + 1)) (mark_preamble (Z.to_nat preamble_len) (sbuf s) p).
Proof.
  revert s; induction n as [|n IH]; intros s Hp Hno Hat; [lia|]. cbn [find_preamble].
  destruct (decide (pos s = p)) as [->|Hne]; [by rewrite Hat|].
  rewrite Hno by lia. rewrite (IH (mk_scan (pos s + 1) (sa s) (sb s) (sbuf s))); cbn [pos sbuf]; [done|lia| |done].
  intros i Hi. apply Hno. lia.
Qed.

Lemma preamble_loop_ext n i2 low high buf i buf' :
  (forall k, i2 <= k < i2 + Z.of_nat n -> rd buf (i + k) = rd buf' (0 + k)) ->
  preamble_loop n i2 low high buf i = preamble_loop n i2 low high buf' 0.
Proof.
  revert i2 low high; induction n as [|n IH]; intros i2 low high H; [done|]. cbn [preamble_loop].
  rewrite (H i2) by lia. destruct (_ <=? _); [done|]. apply IH. intros k Hk. apply H. lia.
Qed.

Lemma preamble_pulses_found h l pre rest :
  0 <= l < h -> preamble (pre ++ preamble_pulses h l ++ rest) (zlen pre) = true.
Proof.
  intros Hl. unfold preamble. rewrite (preamble_loop_ext _ _ _ _ _ _ (preamble_pulses h l)).
  - assert (E0 : (h <=? 0) = false) by lia. assert (El : (h <=? l) = false) by lia.
    cbv -[Z.leb]. by rewrite E0, !El.
  - intros k Hk. change (0 + Z.of_nat (Z.to_nat preamble_len)) with 16 in Hk.
    rewrite rd_app_at by lia. by rewrite rd_app_low by (change (zlen (preamble_pulses h l)) with 16; lia).
Qed.

(** A pulse is a good bit after a pulse, at every quality. *)
Lemma single_manchester_code st h l (b b' : bool) x y u v :
  l < h -> pulse h l b = [x; y] -> pulse h l b' = [u; v] -> single_manchester st x y u v = b2z b'.
Proof.
  intros Hl E E'. destruct b, b'; cbn in E, E'; injection E as <- <-; injection E' as <- <-; unfold single_manchester;
  destruct (Z.ltb_spec l h), (Z.ltb_spec h l); try lia; cbn [andb negb b2z];
  destruct (quality st =? 0), (quality st =? 5), (quality st =? 10); done.
Qed.

Lemma mark_bits_code st h l bits : l < h -> forall n m i2 s (b : bool),
  [sa s; sb s] = pulse h l b -> 0 <= i2 <= pos s -> pos s + 2 * zlen bits <= m + 1 -> m < zlen (sbuf s) ->
  (forall k, 0 <= k < 2 * zlen bits -> rd (sbuf s) (pos s + k) = rd (manchester_code h l bits) k) ->
  exists s', mark_bits st (length bits + n) m i2 0 s = mark_bits st n m (i2 + zlen bits) 0 s' /\
    pos s' = pos s + 2 * zlen bits /\ zlen (sbuf s') = zlen (sbuf s) /\
    (forall k b, bits !! k = Some b -> rd (sbuf s') (i2 + Z.of_nat k) = b2z b) /\
    (forall j, 0 <= j < i2 -> rd (sbuf s') j = rd (sbuf s) j).
Proof.
  intros Hl. induction bits as [|b' bits IH]; intros n m i2 s b Hab Hi Hm Hz Hc.
  { exists s. change (zlen []) with 0. rewrite Z.add_0_r, Z.mul_0_r, Z.add_0_r. repeat split; try done. }
  assert (E : zlen (b' :: bits) = 1 + zlen bits) by (unfold zlen; cbn [length]; lia). rewrite E in *.
  pose proof (Hc 0 ltac:(unfold zlen; lia)) as Hu. pose proof (Hc 1 ltac:(unfold zlen; lia)) as Hv. rewrite Z.add_0_r in Hu.
  assert (Hp : pulse h l b' = [rd (sbuf s) (pos s); rd (sbuf s) (pos s + 1)]) by (rewrite Hu, Hv; by destruct b').
  cbn [length Nat.add mark_bits]. destruct (Z.ltb_spec (pos s) m); [|unfold zlen in *; lia]. cbn [negb].
  rewrite (single_manchester_code st h l b b' _ _ _ _ Hl (eq_sym Hab) Hp).
  assert (Hb : (b2z b' =? BADSAMPLE) = false) by (by destruct b'). rewrite Hb. cbn [andb].
  match goal with |- context [mark_bits _ _ _ _ _ ?x] => set (s1 := x) end.
  assert (Hz1 : zlen (sbuf s1) = zlen (sbuf s)) by (subst s1; cbn [sbuf]; by rewrite !zlen_wr).
  destruct (IH n m (i2 + 1) s1 b') as (s' & Es & Hps & Hzs & Hbits & Hkeep).
  - by symmetry.
  - cbn [s1 pos]. lia.
  - cbn [s1 pos]. lia.
  - lia.
  - intros k Hk. cbn [s1 pos sbuf]. rewrite !rd_wr_ne by lia. rewrite <- Z.add_assoc, Hc by lia.
    unfold manchester_code. cbn [flat_map]. replace (2 + k) with (zlen (pulse h l b') + k) by (by destruct b'). apply rd_app_at. lia.
  - exists s'. rewrite Es. split; [f_equal; lia|]. split; [rewrite Hps; cbn [s1 pos]; lia|]. split; [lia|]. split.
    + intros [|k] b0 Hk; cbn in Hk.
      * injection Hk as <-. rewrite Z.add_0_r, Hkeep by lia. cbn [s1 sbuf]. apply rd_wr_eq. rewrite !zlen_wr. unfold zlen in *. lia.
      * rewrite <- (Hbits k b0 Hk). f_equal. lia.
    + intros j Hj. rewrite Hkeep by lia. cbn [s1 sbuf]. by rewrite !rd_wr_ne by lia.
Qed.

(** ** The frames in the marked buffer *)

Lemma frame_loop_stops n buf i d fl frame p :
  i <= p < zlen buf -> 1 < rd buf p -> i <= (frame_loop n buf i d fl frame).1.1.1 <= p.
Proof.
  revert i d fl frame; induction n as [|n IH]; intros i d fl frame Hi Hp; cbn [frame_loop]; [cbn; lia|].
  destruct ((i <? zlen buf) && (rd buf i <=? 1) && (d <? fl)) eqn:E; [|cbn; lia].
  assert (i <> p) by (intros ->; destruct (Z.leb_spec (rd buf p) 1); [lia|]; by rewrite andb_false_r in E).
  destruct ((d =? 7) && _); [cbn; lia|]. match goal with |- context [frame_loop n buf (i + 1) ?d ?f ?x] => pose proof (IH (i + 1) d f x) end. lia.
Qed.

(** Whatever is before a mark, the search for frames arrives at the place after it. *)
Lemma messages_loop_arrives s buf p q n i :
  0 <= i <= q -> p < q -> q < zlen buf -> (forall j, p <= j < q -> 1 < rd buf j) -> zlen buf - i <= Z.of_nat n ->
  exists before n', zlen buf - q <= Z.of_nat n' /\ messages_loop s n buf i = before ++ messages_loop s n' buf q.
Proof.
  intros Hi Hpq Hq Hm. revert i Hi; induction n as [|n IH]; intros i Hi Hn; [lia|].
  destruct (decide (i = q)) as [->|Hne]; [by exists [], (S n)|]. cbn [messages_loop].
  destruct (Z.ltb_spec i (zlen buf)); [|lia]. cbn [negb].
  destruct (Z.ltb_spec 1 (rd buf i)); [apply IH; lia|].
  assert (i < p) by (destruct (decide (i < p)); [done|]; specialize (Hm i); lia).
  pose proof (frame_loop_stops 113 buf i 0 long_frame (replicate 14 0) p ltac:(lia) (Hm p ltac:(lia))) as Hs.
  destruct (frame_loop 113 buf i 0 long_frame (replicate 14 0)) as [[[i' d] fl] frame]. cbn [fst] in Hs.
  destruct (IH (i' + 1)) as (before & n' & Hn' & E); [lia|lia|].
  destruct (d <? fl - 1); [by exists before, n'|].
  destruct (display s frame fl) as [m|]; [exists (m :: before), n'; by rewrite E|by exists before, n'].
Qed.

(** *** The bytes of a frame *)

(** The byte a bit is added to. *)
Definition add_bit (x t : Z) (b : bool) : Z := if b then x |' u8 (1 <<' (7 - t)) else x.

Lemma frame_loop_bit n buf i k t fl (b : bool) dn x l :
  rd buf i = b2z b -> 0 <= i < zlen buf -> k = zlen dn -> 0 <= t < 8 -> 8 * k + t < fl -> 8 * k + t <> 7 ->
  frame_loop (S n) buf i (8 * k + t) fl (dn ++ x :: l) = frame_loop n buf (i + 1) (8 * k + (t + 1)) fl (dn ++ add_bit x t b :: l).
Proof.
  intros Hb Hi -> Ht Hfl H7. cbn [frame_loop]. rewrite Hb.
  destruct (Z.ltb_spec i (zlen buf)), (Z.ltb_spec (8 * zlen dn + t) fl); try lia.
  replace (b2z b <=? 1) with true by (by destruct b). cbn [andb].
  destruct (Z.eqb_spec (8 * zlen dn + t) 7); [lia|]. cbn [andb].
  replace ((8 * zlen dn + t) / 8) with (zlen dn) by (Z.div_mod_to_equations; lia).
  replace ((8 * zlen dn + t) mod 8) with t by (Z.div_mod_to_equations; lia).
  rewrite Z.add_assoc. destruct b; cbn [b2z add_bit Z.eqb]; [|done]. by rewrite rd_mid, wr_mid.
Qed.

(** The last bit of the first byte decides the length. *)
Lemma frame_loop_length n buf i fl (b : bool) x l :
  rd buf i = b2z b -> 0 <= i < zlen buf -> 7 < fl -> add_bit x 7 b <> 0 ->
  frame_loop (S n) buf i 7 fl (x :: l) =
  frame_loop n buf (i + 1) 8 (if add_bit x 7 b &' 0x80 =? 0 then short_frame else long_frame) (add_bit x 7 b :: l).
Proof.
  intros Hb Hi Hfl Hx. cbn [frame_loop]. rewrite Hb. destruct (Z.ltb_spec i (zlen buf)), (Z.ltb_spec 7 fl); try lia.
  replace (b2z b <=? 1) with true by (by destruct b). cbn [andb]. change (7 / 8) with 0. change (7 mod 8) with 7. cbn [Z.eqb Pos.eqb].
  assert (E : (if b2z b =? 0 then x :: l else wr (x :: l) 0 (rd (x :: l) 0 |' u8 (1 <<' (7 - 7)))) = add_bit x 7 b :: l) by (by destruct b).
  rewrite E. change (rd (add_bit x 7 b :: l) 0) with (add_bit x 7 b). by destruct (Z.eqb_spec (add_bit x 7 b) 0).
Qed.

(** Adding the bits of a byte to zero. *)
Lemma add_bits_byte x : is_u 8 x ->
  add_bit (add_bit (add_bit (add_bit (add_bit (add_bit (add_bit (add_bit 0 0 (Z.testbit x 7)) 1 (Z.testbit x 6)) 2 (Z.testbit x 5))
    3 (Z.testbit x 4)) 4 (Z.testbit x 3)) 5 (Z.testbit x 2)) 6 (Z.testbit x 1)) 7 (Z.testbit x 0) = x.
Proof.
  intros Hx. assert (Hin : In x (seqZ 0 256)) by (apply list_elem_of_In, elem_of_seqZ; unfold is_u in Hx; lia).
  revert x Hx Hin. match goal with |- forall x, _ -> _ -> @?P x => enough (H : forallb (fun x => bool_decide (P x)) (seqZ 0 256) = true) end.
  - intros x _ Hin. pose proof (proj1 (List.forallb_forall _ _) H x Hin) as H'. by apply bool_decide_eq_true in H'.
  - vm_compute. reflexivity.
Qed.

(** The cells that hold a byte. *)
Definition byte_at (buf : list Z) (i x : Z) : Prop := forall t, 0 <= t < 8 -> rd buf (i + t) = b2z (Z.testbit x (7 - t)).

Ltac bits_of H :=
  let go t := pose proof (H t ltac:(lia)) in go 0; go 1; go 2; go 3; go 4; go 5; go 6; go 7.

Lemma frame_loop_byte n buf i k fl dn x l :
  byte_at buf i x -> is_u 8 x -> 0 <= i -> i + 8 <= zlen buf -> k = zlen dn -> 0 < k -> 8 * k + 8 <= fl ->
  frame_loop (8 + n) buf i (8 * k) fl (dn ++ 0 :: l) = frame_loop n buf (i + 8) (8 * (k + 1)) fl ((dn ++ [x]) ++ l).
Proof.
  intros Hb Hx Hi Hl Hk Hk0 Hfl. bits_of Hb. rewrite <- (Z.add_0_r (8 * k)), <- app_assoc. cbn [Nat.add app].
  rewrite (frame_loop_bit _ _ _ k 0 _ (Z.testbit x 7)) by (rewrite ?Z.add_0_r in *; done || lia).
  do 7 (erewrite frame_loop_bit; [|rewrite <- ?Z.add_assoc; cbn [Z.add Pos.add Pos.succ]; eassumption|lia..]).
  cbn [Z.add Pos.add Pos.succ Z.sub Z.opp Z.pos_sub Pos.pred_double] in *. rewrite add_bits_byte by done. f_equal; lia.
Qed.

Lemma frame_loop_bit0 n buf i t fl (b : bool) x l :
  rd buf i = b2z b -> 0 <= i < zlen buf -> 0 <= t < 7 -> t < fl ->
  frame_loop (S n) buf i t fl (x :: l) = frame_loop n buf (i + 1) (t + 1) fl (add_bit x t b :: l).
Proof. intros Hb Hi Ht Hf. apply (frame_loop_bit n buf i 0 t fl b [] x l); try done; lia. Qed.

Lemma frame_loop_first n buf i x l :
  byte_at buf i x -> is_u 8 x -> x <> 0 -> 0 <= i -> i + 8 <= zlen buf ->
  frame_loop (8 + n) buf i 0 long_frame (0 :: l) =
  frame_loop n buf (i + 8) 8 (if x <? 128 then short_frame else long_frame) (x :: l).
Proof.
  intros Hb Hx Hx0 Hi Hl. bits_of Hb. cbn [Nat.add].
  rewrite (frame_loop_bit0 _ _ _ 0 _ (Z.testbit x 7)) by (rewrite ?Z.add_0_r in *; done || unfold long_frame; lia).
  do 6 (erewrite frame_loop_bit0; [|rewrite <- ?Z.add_assoc; cbn [Z.add Pos.add Pos.succ]; eassumption|unfold long_frame; lia..]).
  cbn [Z.add Pos.add Pos.succ] in *.
  erewrite frame_loop_length; [|rewrite <- ?Z.add_assoc; cbn [Z.add Pos.add Pos.succ]; eassumption|unfold long_frame; lia..|];
  cbn [Z.sub Z.opp Z.add Z.pos_sub Pos.pred_double Pos.add Pos.succ] in *; rewrite add_bits_byte by done; [|done].
  f_equal; [lia|]. assert (E : (x &' 0x80 =? 0) = (x <? 128)).
  { assert (Hin : In x (seqZ 0 256)) by (apply list_elem_of_In, elem_of_seqZ; unfold is_u in Hx; lia).
    pose proof (proj1 (List.forallb_forall (fun x => Bool.eqb (x &' 0x80 =? 0) (x <? 128)) (seqZ 0 256)) ltac:(vm_compute; reflexivity) x Hin) as H'.
    by apply Bool.eqb_prop in H'. }
  by rewrite E.
Qed.

Lemma frame_loop_bytes buf fl : forall xs n i k dn l,
  (forall j x, xs !! j = Some x -> byte_at buf (i + 8 * Z.of_nat j) x) -> bytes xs -> 0 <= i -> i + 8 * zlen xs <= zlen buf ->
  k = zlen dn -> 0 < k -> 8 * (k + zlen xs) <= fl ->
  frame_loop (8 * length xs + n) buf i (8 * k) fl (dn ++ replicate (length xs) 0 ++ l) =
  frame_loop n buf (i + 8 * zlen xs) (8 * (k + zlen xs)) fl (dn ++ xs ++ l).
Proof.
  induction xs as [|x xs IH]; intros n i k dn l Hb Hx Hi Hl Hk Hk0 Hfl.
  { change (zlen []) with 0. by rewrite Z.mul_0_r, !Z.add_0_r. }
  assert (E : zlen (x :: xs) = 1 + zlen xs) by (unfold zlen; cbn [length]; lia). rewrite E in *.
  apply Forall_cons_iff in Hx as [Hx Hxs].
  replace (8 * length (x :: xs) + n)%nat with (8 + (8 * length xs + n))%nat by (cbn [length]; lia).
  change (replicate (length (x :: xs)) 0 ++ l) with (0 :: (replicate (length xs) 0 ++ l)).
  pose proof (zlen_app dn [x]) as Ez. change (zlen [x]) with 1 in Ez. pose proof (zlen_nonneg xs).
  rewrite (frame_loop_byte _ _ _ _ _ _ x); [|rewrite <- (Z.add_0_r i); apply (Hb 0%nat); done|done|lia..].
  rewrite IH; [|intros j y Hj; replace (i + 8 + 8 * Z.of_nat j) with (i + 8 * Z.of_nat (S j)) by lia; by apply Hb|done|lia..].
  rewrite <- app_assoc. f_equal; lia.
Qed.

(** The number of bytes of a frame, by its first byte. *)
Definition frame_size (x : Z) : nat := if x <? 128 then 7 else 14.

Lemma frame_loop_frame buf i frame :
  (forall j x, frame !! j = Some x -> byte_at buf (i + 8 * Z.of_nat j) x) -> bytes frame -> rd frame 0 <> 0 ->
  length frame = frame_size (rd frame 0) -> 0 <= i -> i + 8 * zlen frame <= zlen buf ->
  frame_loop 113 buf i 0 long_frame (replicate 14 0) =
  (i + 8 * zlen frame, 8 * zlen frame, 8 * zlen frame, frame ++ replicate (14 - length frame) 0).
Proof.
  intros Hb Hx H0 Hlen Hi Hl. destruct frame as [|x xs]; [done|]. change (rd (x :: xs) 0) with x in *.
  apply Forall_cons_iff in Hx as [Hx Hxs]. pose proof (Hb 0%nat x eq_refl) as Hb0. rewrite Z.add_0_r in Hb0.
  assert (E : zlen (x :: xs) = 1 + zlen xs) by (unfold zlen; cbn [length]; lia). rewrite E in *.
  pose proof (zlen_nonneg xs).
  assert (Hle : (length xs <= 13)%nat) by (unfold frame_size in Hlen; cbn [length] in Hlen; destruct (x <? 128); lia).
  assert (Hfl : (if x <? 128 then short_frame else long_frame) = 8 * (1 + zlen xs)).
  { unfold frame_size, zlen in *. cbn [length] in Hlen. unfold short_frame, long_frame. destruct (x <? 128); lia. }
  assert (Hm : exists m, 113%nat = (8 + (8 * length xs + S m))%nat) by (exists (104 - 8 * length xs)%nat; lia).
  destruct Hm as [m ->]. set (r := (14 - length (x :: xs))%nat).
  assert (Hr : replicate 14 0 = 0 :: replicate (length xs) 0 ++ replicate r 0).
  { rewrite <- replicate_add. change (replicate 14 0) with (0 :: replicate 13 0). f_equal. apply (f_equal (fun k => replicate k 0)). unfold r. cbn [length]. lia. }
  rewrite Hr, (frame_loop_first _ _ _ x), Hfl by (done || lia).
  etransitivity; [apply (frame_loop_bytes buf _ xs _ (i + 8) 1 [x]);
    [intros j y Hj; replace (i + 8 + 8 * Z.of_nat j) with (i + 8 * Z.of_nat (S j)) by lia; by apply Hb|done|lia|lia|done|lia|lia]|].
  cbn [frame_loop]. rewrite Z.ltb_irrefl, andb_false_r. replace (i + 8 + 8 * zlen xs) with (i + 8 * (1 + zlen xs)) by lia. done.
Qed.

Lemma display_padded st frame l len : 0 < zlen frame -> len = 8 * zlen frame -> display st (frame ++ l) len = display st frame len.
Proof.
  intros Hf ->. unfold display. rewrite rd_app_low by lia. destruct (_ && _); [done|]. destruct (_ && _); [done|].
  replace ((8 * zlen frame + 7) / 8) with (zlen frame) by (Z.div_mod_to_equations; lia).
  unfold zlen. by rewrite Nat2Z.id, take_app_length, firstn_all.
Qed.

(** The frame that starts after a mark is shown. *)
Lemma messages_show st buf p frame :
  0 <= p -> (forall j, p <= j < p + preamble_len -> 1 < rd buf j) ->
  (forall j x, frame !! j = Some x -> byte_at buf (p + preamble_len + 8 * Z.of_nat j) x) -> bytes frame -> rd frame 0 <> 0 ->
  length frame = frame_size (rd frame 0) -> p + preamble_len + 8 * zlen frame <= zlen buf ->
  display st frame (8 * zlen frame) = Some frame ->
  exists before after, messages st buf = before ++ frame :: after.
Proof.
  intros Hp Hm Hb Hx H0 Hlen Hl Hd. set (q := p + preamble_len) in *.
  assert (Hz : 0 < zlen frame) by (unfold zlen, frame_size in *; destruct (_ <? 128); lia).
  assert (Hpq : p < q) by (unfold q, preamble_len; lia).
  destruct (messages_loop_arrives st buf p q (length buf) 0) as (before & n & Hn & E); [lia|done|lia|done|unfold zlen; lia|].
  unfold messages. rewrite E. exists before. destruct n as [|n]; [lia|]. cbn [messages_loop].
  destruct (Z.ltb_spec q (zlen buf)); [|lia]. cbn [negb].
  assert (Hq : rd buf q <= 1).
  { destruct frame as [|x xs]; [done|]. pose proof (Hb 0%nat x eq_refl 0 ltac:(lia)) as Hc.
    replace (q + 8 * Z.of_nat 0 + 0) with q in Hc by lia. rewrite Hc. by destruct (Z.testbit _ _). }
  destruct (Z.ltb_spec 1 (rd buf q)); [lia|]. rewrite (frame_loop_frame buf q frame) by (done || lia).
  destruct (Z.ltb_spec (8 * zlen frame) (8 * zlen frame - 1)); [lia|]. rewrite display_padded by (done || lia). rewrite Hd. eauto.
Qed.

Lemma length_frame_bits frame : length (frame_bits frame) = (8 * length frame)%nat.
Proof. induction frame as [|x xs IH]; [done|]. unfold frame_bits in *. cbn [flat_map]. rewrite length_app. cbn [length byte_bits]. rewrite IH. unfold byte_bits. rewrite length_fmap, length_seqZ. lia. Qed.

Lemma frame_bits_lookup frame j x t :
  frame !! j = Some x -> 0 <= t < 8 -> frame_bits frame !! (8 * j + Z.to_nat t)%nat = Some (Z.testbit x (7 - t)).
Proof.
  revert j; induction frame as [|y ys IH]; intros [|j] Hj Ht; try done; cbn in Hj; unfold frame_bits; cbn [flat_map].
  - injection Hj as ->. rewrite lookup_app_l by (unfold byte_bits; rewrite length_fmap, length_seqZ; lia).
    unfold byte_bits. rewrite list_lookup_fmap, lookup_seqZ_lt by lia. cbn. repeat f_equal. lia.
  - assert (El : length (byte_bits y) = 8%nat) by done. rewrite lookup_app_r by lia.
    replace (8 * S j + Z.to_nat t - length (byte_bits y))%nat with (8 * j + Z.to_nat t)%nat by lia. by apply IH.
Qed.

End AdsbFrames.

(** * What the decoder does *)

Module AdsbProps.
Import Adsb AdsbFacts AdsbFrames.

Lemma scan_loop_fuel st fuel fuel' len s s' :
  scan_loop st fuel len s = Some s' -> (fuel <= fuel')%nat -> scan_loop st fuel' len s = Some s'.
Proof.
  revert fuel' s; induction fuel as [|fuel IH]; intros [|fuel'] s H Hle; try lia; cbn [scan_loop] in *;
  destruct (negb (pos s <? len - 1)); try done. apply IH; [done|lia].
Qed.

(** The search for preambles and bits in a buffer of samples ends, whatever the samples, the
    quality and the number of allowed errors (also none, or a negative one, where a round of the
    outer loop can leave the place where it was): three rounds for every magnitude are enough,
    more change nothing, and the buffer keeps its length. *)
Theorem adsb_search_ends st buffer :
  bytes buffer ->
  exists bits, length bits = length (magnitute buffer) /\
    forall fuel, (3 * length (magnitute buffer) <= fuel)%nat -> manchester st fuel (magnitute buffer) = Some bits.
Proof.
  intros Hb. set (buf := magnitute buffer). set (s := mk_scan 0 0 0 buf).
  destruct (scan_loop_ends st (length buf) s (3 * length buf)) as (s' & E & Hz & _).
  - done.
  - apply Forall_unmarked; [by apply magnitute_cells|done].
  - cbn [s sbuf pos]. unfold zlen. lia.
  - done.
  - exists (sbuf s'). split; [unfold zlen in Hz; cbn [s sbuf] in Hz; lia|]. intros fuel Hf. unfold manchester.
    pose proof (scan_loop_fuel _ _ fuel _ _ _ E Hf) as E'. cbn [s sbuf] in E'. unfold s in E'. by rewrite E'.
Qed.

Lemma adsb_search_ends_witness :
  exists bits, length bits = 20%nat /\
    manchester (mk_settings 10 0 false false) 60 (magnitute (flat_map (fun k => [k; 255 - k]) (seqZ 0 20))) = Some bits.
Proof.
  destruct (adsb_search_ends (mk_settings 10 0 false false) (flat_map (fun k => [k; 255 - k]) (seqZ 0 20))) as (bits & Hl & H).
  - unfold bytes. apply (bool_decide_unpack _). vm_compute. exact I.
  - exists bits. split; [rewrite Hl; vm_compute; reflexivity|]. apply H. vm_compute. lia.
Defined.

(** Where the samples of a preamble and its frame are. *)
Lemma coded_cells h l pre bits post :
  let buf := pre ++ preamble_pulses h l ++ manchester_code h l bits ++ post in
  let p := zlen pre in
  zlen buf = p + 16 + 2 * zlen bits + zlen post /\
  (forall k, 0 <= k < 2 * zlen bits -> rd buf (p + 16 + k) = rd (manchester_code h l bits) k) /\
  rd buf p = h /\ rd buf (p + 1) = l.
Proof.
  intros buf p. split; [|split; [|split]].
  - unfold buf. rewrite !zlen_app. change (zlen (preamble_pulses h l)) with 16. unfold p, zlen. rewrite length_manchester_code. lia.
  - intros k Hk. unfold buf. rewrite <- Z.add_assoc. unfold p. rewrite rd_app_at by lia. change 16 with (zlen (preamble_pulses h l)).
    rewrite rd_app_at by lia. apply rd_app_low. unfold zlen in *. rewrite length_manchester_code. lia.
  - unfold buf. rewrite <- (Z.add_0_r p). unfold p. by rewrite rd_app_at by lia.
  - unfold buf, p. by rewrite rd_app_at by lia.
Qed.

(** The marked buffer after a preamble and a frame. *)
Lemma manchester_marks st fuel h l pre bits post :
  let buf := pre ++ preamble_pulses h l ++ manchester_code h l bits ++ post in
  Forall (fun m => is_u 16 m /\ m <> BADSAMPLE) buf -> l < h -> bits <> [] ->
  (forall i, 0 <= i < zlen pre -> preamble buf i = false) -> (3 * length buf <= fuel)%nat ->
  exists marked, manchester st fuel buf = Some marked /\ zlen marked = zlen buf /\
    (forall j, zlen pre <= j < zlen pre + preamble_len -> rd marked j = MESSAGEGO) /\
    (forall k b, bits !! k = Some b -> rd marked (zlen pre + preamble_len + Z.of_nat k) = b2z b).
Proof.
  intros buf Hb Hl Hne Hno Hf. set (p := zlen pre) in *.
  assert (H0 : 0 <= p /\ 0 < zlen bits /\ 0 <= zlen post) by (unfold p, zlen; destruct bits; [done|]; cbn [length]; lia).
  destruct (coded_cells h l pre bits post) as (Hlen & Hcode & Hh & Hl1). fold buf in Hlen, Hcode, Hh, Hl1. fold p in Hlen, Hcode, Hh, Hl1.
  assert (Hrange : forall j, 0 <= j < zlen buf -> is_u 16 (rd buf j)).
  { intros j Hj. unfold rd. destruct (Z.ltb_spec j 0); [lia|]. destruct (buf !! Z.to_nat j) as [x|] eqn:Ex; [|done].
    by destruct (proj1 (Forall_lookup _ _) Hb _ _ Ex). }
  assert (Hl0 : 0 <= l) by (rewrite <- Hl1; apply Hrange; lia).
  set (s := mk_scan 0 0 0 buf). set (s1 := mk_scan (p + preamble_len) h l (mark_preamble (Z.to_nat preamble_len) buf p)).
  assert (E1 : find_preamble (Z.to_nat (zlen buf - preamble_len - 0)) s = s1).
  { rewrite (find_preamble_at _ s p); cbn [s pos sbuf]; [by rewrite Hh, Hl1|unfold preamble_len; lia|done|].
    apply preamble_pulses_found. lia. }
  assert (Hk : exists k, Z.to_nat (zlen buf) = (length bits + k)%nat) by (exists (Z.to_nat (zlen buf) - length bits)%nat; unfold zlen in *; lia).
  destruct Hk as [k Hk].
  assert (Hz1 : zlen (sbuf s1) = zlen buf) by apply zlen_mark_preamble.
  assert (Hr1 : forall j, 0 <= j < zlen buf -> rd (sbuf s1) j = if (p <=? j) && (j <? p + 16) then MESSAGEGO else rd buf j).
  { intros j Hj. cbn [s1 sbuf]. rewrite rd_mark_preamble by lia. done. }
  destruct (mark_bits_code st h l bits Hl k (zlen buf - 1) (pos s1) s1 true) as (s2 & E2 & Hp2 & Hz2 & Hb2 & Hk2);
    [done|cbn [s1 pos]; unfold preamble_len; lia|cbn [s1 pos]; unfold preamble_len; lia|lia|..].
  { intros j Hj. cbn [s1 pos]. change preamble_len with 16. rewrite Hr1 by lia.
    destruct (Z.ltb_spec (p + 16 + j) (p + 16)); [lia|]. rewrite andb_false_r. by apply Hcode. }
  destruct (mark_bits_frame st k (zlen buf - 1) (pos s1 + zlen bits) 0 s2) as (Hz3 & Hp3 & Hr3); [cbn [s1 pos] in *; unfold preamble_len in *; lia|].
  assert (E3 : scan_round st (zlen buf) s = mark_bits st k (zlen buf - 1) (pos s1 + zlen bits) 0 s2).
  { unfold scan_round. cbn [s pos]. fold s. by rewrite E1, Hk, E2. }
  assert (Hu : unmarked buf 0) by (by apply Forall_unmarked).
  pose proof (round_unmarked st s ltac:(cbn [s pos sbuf]; lia) Hu) as Hu3. cbn [s sbuf] in Hu3. fold s in Hu3. rewrite E3 in Hu3.
  set (s3 := mark_bits st k (zlen buf - 1) (pos s1 + zlen bits) 0 s2) in *.
  destruct fuel as [|fuel]; [unfold zlen in *; lia|].
  assert (Hps1 : pos s1 = p + 16) by done.
  destruct (scan_loop_ends st (length buf - 1) s3 fuel) as (s' & E & Hz & Hr); [lia|done|unfold zlen in *; lia|lia|].
  rewrite Hz3, Hz2, Hz1 in E, Hz, Hr.
  exists (sbuf s'). unfold manchester. fold s. rewrite scan_loop_more by (cbn [s pos]; lia). rewrite E3, E. split; [done|]. split; [done|].
  change preamble_len with 16. split.
  - intros j Hj. rewrite Hr, Hr3, Hk2, Hr1 by lia. destruct (Z.leb_spec p j), (Z.ltb_spec j (p + 16)); try lia; done.
  - intros j b Hj. assert (j < length bits)%nat by (by apply lookup_lt_Some in Hj).
    rewrite Hr, Hr3, <- Hps1 by (unfold zlen in *; lia). by apply Hb2.
Qed.

(** C28.  A frame that arrives cleanly is shown: where the magnitudes of a buffer have, after samples
    with no preamble in them, the pulses of a preamble and the Manchester code of a frame with two
    levels [l < h], and anything after that, the frame is one of those the buffer shows, byte by byte,
    at every quality and number of allowed errors, when the settings do not filter it out.  The
    length is the one its first bit announces, and the first byte is not zero. *)
Theorem adsb_frame_shown st fuel buffer h l pre frame post :
  bytes buffer -> magnitute buffer = pre ++ preamble_pulses h l ++ manchester_code h l (frame_bits frame) ++ post -> l < h ->
  (forall i, 0 <= i < zlen pre -> preamble (magnitute buffer) i = false) ->
  bytes frame -> rd frame 0 <> 0 -> length frame = frame_size (rd frame 0) -> display st frame (8 * zlen frame) = Some frame ->
  (3 * length (magnitute buffer) <= fuel)%nat ->
  exists before after, demod st fuel buffer = Some (before ++ frame :: after).
Proof.
  intros Hb E Hl Hno Hx H0 Hlen Hd Hf. pose proof (magnitute_cells buffer Hb) as Hc. rewrite E in Hc, Hno, Hf.
  assert (Hpos : (0 < length frame)%nat) by (rewrite Hlen; unfold frame_size; destruct (_ <? 128); lia).
  assert (Hne : frame_bits frame <> []) by (intros Hn; pose proof (length_frame_bits frame) as Hn'; rewrite Hn in Hn'; cbn [length] in Hn'; lia).
  destruct (manchester_marks st fuel h l pre (frame_bits frame) post Hc Hl Hne Hno Hf) as (marked & Em & Hz & Hgo & Hbits).
  destruct (messages_show st marked (zlen pre) frame) as (before & after & Es); [unfold zlen; lia|..|done| ].
  - intros j Hj. by rewrite Hgo.
  - intros j x Hj t Ht. rewrite <- (Hbits _ _ (frame_bits_lookup frame j x t Hj Ht)). f_equal. lia.
  - done.
  - done.
  - done.
  - rewrite Hz, !zlen_app. change (zlen (preamble_pulses h l)) with preamble_len. unfold zlen.
    rewrite length_manchester_code, length_frame_bits. lia.
  - exists before, after. unfold demod. by rewrite E, Em, Es.
Qed.

(** A long frame, an airborne position. *)
Definition example_frame : list Z := [0x8d; 0x40; 0x62; 0x1d; 0x58; 0xc3; 0x82; 0xd6; 0x90; 0xc8; 0xac; 0x28; 0x63; 0xa7].
Definition example_buffer : list Z :=
  flat_map (fun m => if m =? 0 then [127; 127] else [255; 127])
    ([0; 0; 0] ++ preamble_pulses 16384 0 ++ manchester_code 16384 0 (frame_bits example_frame) ++ [0; 0]).

Lemma adsb_frame_shown_witness :
  exists before after, demod (mk_settings 10 5 false false) 735 example_buffer = Some (before ++ example_frame :: after).
Proof.
  apply (adsb_frame_shown (mk_settings 10 5 false false) 735 example_buffer 16384 0 [0; 0; 0] example_frame [0; 0]).
  - unfold bytes. apply (bool_decide_unpack _). vm_compute. exact I.
  - vm_compute. reflexivity.
  - lia.
  - intros i Hi. change (zlen [0; 0; 0]) with 3 in Hi. assert (Hc : i = 0 \/ i = 1 \/ i = 2) by lia.
    destruct Hc as [->|[->| ->]]; vm_compute; reflexivity.
  - unfold bytes. apply (bool_decide_unpack _). vm_compute. exact I.
  - vm_compute. discriminate.
  - vm_compute. reflexivity.
  - vm_compute. reflexivity.
  - vm_compute. lia.
Defined.

(** [messages] does not look for a preamble: samples whose magnitudes are 0 and 1, far below any
    signal, are left in the buffer by the search and read as the bits of a frame. *)
Definition quiet_buffer : list Z :=
  flat_map (fun b : bool => if b then [128; 127] else [127; 127]) (frame_bits example_frame ++ replicate 40 false).

Lemma phantom_frame :
  forallb (fun i => negb (preamble (magnitute quiet_buffer) i)) (seqZ 0 136) = true /\
  demod (mk_settings 10 5 false false) 456 quiet_buffer = Some [example_frame].
Proof. split; vm_compute; reflexivity. Qed.

End AdsbProps.
