(* ===== verification/RtlEeprom.v ===== *)
(** * The EEPROM tool ([src/src/rtl_eeprom.c])

    [Module Eeprom]: the configuration of a dongle, reading it from and writing it to an image
    of the EEPROM, the default configurations, the options and the session with an opened
    device.  A C string is the list of its characters before the terminating zero; images are
    lists of bytes.  What the terminal answers and what is in the file are arguments of the
    session.

    [EepromFacts] and [EepromToolProps] show that an image gives back the configuration it was
    made from, that one which does not fit is refused, and what a session leaves in the
    EEPROM. *)

From Stdlib Require Import String Ascii.
From S2P Require Import Prelude I2c Usb UsbRegs.

Module Eeprom.
Import Usb.

(** ** C strings *)

Definition str (s : string) : list Z := (fun a => Z.of_N (N_of_ascii a)) <$> list_ascii_of_string s.

(** The string in an array: its characters before the first zero. *)
Fixpoint cstr (l : list Z) : list Z :=
  match l with
  | [] => []
  | c :: l => if c =? 0 then [] else c :: cstr l
  end.

(** [atoi]: white space, a sign, digits. *)
Definition isspace (c : Z) : bool := (c =? 32) || ((9 <=? c) && (c <=? 13)).
Fixpoint skip_space (l : list Z) : list Z :=
  match l with
  | c :: l' => if isspace c then skip_space l' else l
  | [] => []
  end.
Fixpoint digits (l : list Z) (n : Z) : Z :=
  match l with
  | c :: l => if (48 <=? c) && (c <=? 57) then digits l (10 * n + (c - 48)) else n
  | [] => n
  end.
Definition atoi (l : list Z) : Z :=
  match skip_space l with
  | c :: l => if c =? 45 then s32 (- digits l 0) else if c =? 43 then s32 (digits l 0) else s32 (digits (c :: l) 0)
  | [] => 0
  end.

(** ** Images and configurations *)

Definition EEPROM_SIZE : Z := 256.
Definition MAX_STR_SIZE : Z := 256.
Definition STR_OFFSET : Z := 0x09.

Record rtlsdr_config := mk_config {
  vendor_id : Z;
  product_id : Z;
  manufacturer : list Z;
  product : list Z;
  serial : list Z;
  have_serial : bool;
  enable_ir : bool;
  remote_wakeup : bool;
}.

(** The loop of [get_string_descriptor] from [i] on: what is stored in [str], and [i] behind it.
    A byte allows for at most 127 rounds. *)
Fixpoint get_loop (n : nat) (i len pos : Z) (data : list Z) : list Z * Z :=
  match n with
  | O => ([], i)
  | S n =>
      if i <? len then let '(s, i') := get_loop n (i + 2) len pos data in (rd data (pos + i) :: s, i')
      else ([], i)
  end.
Definition get_string_descriptor (pos : Z) (data : list Z) : Z * list Z :=
  let '(s, i) := get_loop 127 2 (rd data pos) pos data in (pos + i, cstr s).

(** The loop of [set_string_descriptor] from [j] on: [None] for a string that is too long. *)
Fixpoint set_loop (s : list Z) (pos j : Z) (data : list Z) : option Z * list Z :=
  match s with
  | [] => (Some j, data)
  | c :: s =>
      if 78 <=? pos + j then (None, data)
      else set_loop s pos (j + 2) (wr (wr data (pos + j) (u8 c)) (pos + j + 1) 0)
  end.
Definition set_string_descriptor (pos : Z) (data : list Z) (s : list Z) : Z * list Z :=
  if pos <? 0 then (-1, data)
  else
    match set_loop s pos 2 (wr data (pos + 1) 0x03) with
    | (None, data) => (-1, data)
    | (Some j, data) => (pos + j, wr data pos (u8 j))
    end.

Definition parse_eeprom_to_conf (dat : list Z) : rtlsdr_config :=
  let '(pos, m) := get_string_descriptor STR_OFFSET dat in
  let '(pos, p) := get_string_descriptor pos dat in
  let '(_, s) := get_string_descriptor pos dat in
  mk_config (u16 (rd dat 2 |' (rd dat 3 <<' 8))) (u16 (rd dat 4 |' (rd dat 5 <<' 8))) m p s
    (rd dat 6 =? 0xa5) (negb (rd dat 7 &' 0x02 =? 0)) (negb (rd dat 7 &' 0x01 =? 0)).

(** The fixed part of an image. *)
Definition gen_header (conf : rtlsdr_config) (dat : list Z) : list Z :=
  let dat := wr dat 0 0x28 in
  let dat := wr dat 1 0x32 in
  let dat := wr dat 2 (vendor_id conf &' 0xff) in
  let dat := wr dat 3 ((vendor_id conf >>' 8) &' 0xff) in
  let dat := wr dat 4 (product_id conf &' 0xff) in
  let dat := wr dat 5 ((product_id conf >>' 8) &' 0xff) in
  let dat := wr dat 6 (if have_serial conf then 0xa5 else 0x00) in
  let dat := wr dat 7 0x14 in
  let dat := wr dat 7 (rd dat 7 |' (if remote_wakeup conf then 0x01 else 0x00)) in
  let dat := wr dat 7 (rd dat 7 |' (if enable_ir conf then 0x02 else 0x00)) in
  wr dat 8 0x02.
Definition gen_eeprom_from_conf (conf : rtlsdr_config) (dat : list Z) : Z * list Z :=
  let dat := gen_header conf dat in
  let '(pos, dat) := set_string_descriptor STR_OFFSET dat (manufacturer conf) in
  let '(pos, dat) := set_string_descriptor pos dat (product conf) in
  let '(pos, dat) := set_string_descriptor pos dat (serial conf) in
  (pos, wr dat 78 0x00).

Inductive configs := CONF_NONE | REALTEK | REALTEK_EEPROM | TERRATEC_NOXON | TERRATEC_T_BLACK | TERRATEC_T_PLUS.
#[export] Instance configs_eq_dec : EqDecision configs.
Proof. solve_decision. Defined.

Definition gen_default_conf (conf : rtlsdr_config) (config : configs) : rtlsdr_config :=
  match config with
  | REALTEK => mk_config 0x0bda 0x2832 (str "Generic") (str "RTL2832U DVB-T") (str "0") true false true
  | REALTEK_EEPROM => mk_config 0x0bda 0x2838 (str "Realtek") (str "RTL2838UHIDIR") (str "00000001") true true false
  | TERRATEC_NOXON => mk_config 0x0ccd 0x00b3 (str "NOXON") (str "DAB Stick") (str "0") true false true
  | TERRATEC_T_BLACK => mk_config 0x0ccd 0x00a9 (str "Realtek") (str "RTL2838UHIDIR") (str "00000001") true true false
  | TERRATEC_T_PLUS => mk_config 0x0ccd 0x00d7 (str "Realtek") (str "RTL2838UHIDIR") (str "00000001") true true false
  | CONF_NONE => conf
  end.

(** ** Options *)

Record options := mk_options {
  dev_index : Z;
  manuf_str : option (list Z);
  product_str : option (list Z);
  serial_str : option (list Z);
  ir_endpoint : Z;
  default_config : configs;
  flash_file : bool;
  filename : option (list Z);
  change : bool;
}.
Definition no_options : options := mk_options 0 None None None 0 CONF_NONE false None false.

(** The configuration [-g] names; another name leaves the one there is. *)
Definition named_config (arg : list Z) (c : configs) : configs :=
  if bool_decide (arg = str "realtek") then REALTEK
  else if bool_decide (arg = str "realtek_oem") then REALTEK_EEPROM
  else if bool_decide (arg = str "noxon") then TERRATEC_NOXON
  else if bool_decide (arg = str "terratec_black") then TERRATEC_T_BLACK
  else if bool_decide (arg = str "terratec_plus") then TERRATEC_T_PLUS
  else c.

(** One option and its argument; [None] where [usage] ends the program. *)
Definition set_option (opt : ascii) (arg : list Z) (o : options) : option options :=
  match o with
  | mk_options d m p s i g w f ch =>
      if bool_decide (opt = "d"%char) then Some (mk_options (u32 (atoi arg)) m p s i g w f ch)
      else if bool_decide (opt = "m"%char) then Some (mk_options d (Some arg) p s i g w f true)
      else if bool_decide (opt = "p"%char) then Some (mk_options d m (Some arg) s i g w f true)
      else if bool_decide (opt = "s"%char) then Some (mk_options d m p (Some arg) i g w f true)
      else if bool_decide (opt = "i"%char) then Some (mk_options d m p s (if 0 <? atoi arg then 1 else -1) g w f true)
      else if bool_decide (opt = "g"%char) then
        let g := named_config arg g in
        Some (mk_options d m p s i g w f (if bool_decide (g = CONF_NONE) then ch else true))
      else if bool_decide (opt = "w"%char) then Some (mk_options d m p s i g true (Some arg) true)
      else if bool_decide (opt = "r"%char) then Some (mk_options d m p s i g w (Some arg) ch)
      else None
  end.
Fixpoint set_options (l : list (ascii * list Z)) (o : options) : option options :=
  match l with
  | [] => Some o
  | (opt, arg) :: l => match set_option opt arg o with Some o => set_options l o | None => None end
  end.

(** ** The session with an opened device *)

(** [strncpy] of [MAX_STR_SIZE - 1] characters. *)
Definition copy_str (s : list Z) : list Z := take (Z.to_nat (MAX_STR_SIZE - 1)) s.

(** The configuration behind the options. *)
Definition change_conf (o : options) (conf : rtlsdr_config) : rtlsdr_config :=
  let ir := if ir_endpoint o =? 0 then enable_ir conf else 0 <? ir_endpoint o in
  mk_config (vendor_id conf) (product_id conf)
    (match manuf_str o with Some s => copy_str s | None => manufacturer conf end)
    (match product_str o with Some s => copy_str s | None => product conf end)
    (match serial_str o with Some s => copy_str s | None => serial conf end)
    (match serial_str o with Some _ => true | None => have_serial conf end) ir (remote_wakeup conf).
Definition new_conf (o : options) (conf : rtlsdr_config) : rtlsdr_config :=
  let conf := change_conf o conf in
  if bool_decide (default_config o = CONF_NONE) then conf else gen_default_conf conf (default_config o).

Section Session.
Context {U : Type} `{Libusb U}.

(** Behind the questions: [ch] is what [getchar] returns. *)
Definition write_back (o : options) (r : Z) (buf : list Z) (ch : Z) : st (core U) Z :=
  if (ch =? 0) || (ch =? 121) then
    r ← rtlsdr_write_eeprom (if flash_file o then buf else take 128 buf) 0;
    mret (if 0 <=? r then r else - r)
  else mret (if 0 <=? r then r else - r).

(** From the first read to the end; [buf] is the array before it is filled, [file] what [fopen]
    finds under the name: nothing, or the contents. *)
Definition session (o : options) (buf : list Z) (file : option (list Z)) (ch : Z) : st (core U) Z :=
  '(r, buf) ← rtlsdr_read_eeprom buf 0 EEPROM_SIZE;
  if r <? 0 then mret (- r)
  else
    let conf := parse_eeprom_to_conf buf in
    match filename o, file with
    | Some _, None => mret r
    | _, _ =>
        let buf :=
          match filename o, file with
          | Some _, Some content => if flash_file o then blit buf 0 (take (Z.to_nat EEPROM_SIZE) content) else buf
          | _, _ => buf
          end in
        if negb (change o) then mret r
        else
          let conf := new_conf o conf in
          if flash_file o then write_back o r buf ch
          else
            let '(pos, buf) := gen_eeprom_from_conf conf buf in
            if pos <? 0 then mret r else write_back o r buf ch
    end.
End Session.

End Eeprom.

(** * Facts about images *)

Module EepromFacts.
Import Usb Eeprom.

Lemma bytes_wr l i x : bytes l -> is_u 8 x -> bytes (wr l i x).
Proof. intros Hl Hx. unfold wr. destruct (i <? 0); [done|]. by apply Forall_insert. Qed.

(** Characters of a C string. *)
Definition chars (s : list Z) : Prop := Forall (fun c => 0 < c < 256) s.

Lemma cstr_chars s : chars s -> cstr s = s.
Proof. induction 1 as [|c s Hc _ IH]; [done|]. cbn [cstr]. destruct (Z.eqb_spec c 0); [lia|]. by rewrite IH. Qed.
Lemma chars_cstr l : bytes l -> chars (cstr l).
Proof.
  induction 1 as [|c l Hc _ IH]; cbn [cstr]; [constructor|]. destruct (Z.eqb_spec c 0); [constructor|].
  constructor; [unfold is_u in Hc; lia|done].
Qed.

(** ** One descriptor *)

(** The length and the characters of a descriptor at [pos]. *)
Definition desc_at (d : list Z) (pos : Z) (s : list Z) : Prop :=
  rd d pos = 2 + 2 * zlen s /\ forall k c, s !! k = Some c -> rd d (pos + 2 + 2 * Z.of_nat k) = c.

(** A string fits behind [pos]: its last character is before cell 78. *)
Definition fits_at (pos : Z) (s : list Z) : Prop := s = [] \/ pos + 2 + 2 * zlen s < 80.
#[export] Instance fits_at_dec pos s : Decision (fits_at pos s).
Proof. unfold fits_at. apply _. Defined.

Lemma get_loop_reads s : forall n i pos d,
  (length s <= n)%nat -> (forall k c, s !! k = Some c -> rd d (pos + i + 2 * Z.of_nat k) = c) ->
  get_loop n i (i + 2 * zlen s) pos d = (s, i + 2 * zlen s).
Proof.
  induction s as [|c s IH]; intros n i pos d Hn Hc.
  { change (zlen []) with 0. rewrite Z.mul_0_r, Z.add_0_r. destruct n; cbn [get_loop]; [done|]. by rewrite Z.ltb_irrefl. }
  assert (E : zlen (c :: s) = 1 + zlen s) by (unfold zlen; cbn [length]; lia). rewrite E. pose proof (zlen_nonneg s).
  destruct n as [|n]; cbn [length] in Hn; [lia|]. cbn [get_loop]. destruct (Z.ltb_spec i (i + 2 * (1 + zlen s))); [|lia].
  replace (i + 2 * (1 + zlen s)) with (i + 2 + 2 * zlen s) by lia. rewrite IH; [|lia|].
  - replace (rd d (pos + i)) with c; [done|]. rewrite <- (Hc 0%nat c eq_refl). f_equal. lia.
  - intros k c' Hk. rewrite <- (Hc (S k) c' Hk). f_equal. lia.
Qed.

Lemma get_descriptor d pos s : desc_at d pos s -> chars s -> (length s <= 126)%nat -> get_string_descriptor pos d = (pos + 2 + 2 * zlen s, s).
Proof.
  intros [Hl Hc] Hs Hn. unfold get_string_descriptor. rewrite Hl, get_loop_reads; [|lia|done].
  rewrite cstr_chars by done. f_equal. lia.
Qed.

Lemma set_loop_fits s : forall pos j d, 0 <= pos -> 0 <= j -> chars s -> s = [] \/ pos + j + 2 * zlen s < 80 -> zlen d = 256 ->
  exists d', set_loop s pos j d = (Some (j + 2 * zlen s), d') /\ zlen d' = 256 /\
    (forall k c, s !! k = Some c -> rd d' (pos + j + 2 * Z.of_nat k) = c) /\
    (forall x, 0 <= x -> x < pos + j \/ pos + j + 2 * zlen s <= x -> rd d' x = rd d x) /\ (bytes d -> bytes d').
Proof.
  induction s as [|c s IH]; intros pos j d Hp Hj Hs Hf Hd.
  { exists d. change (zlen []) with 0. rewrite Z.mul_0_r, Z.add_0_r. split_and!; done. }
  assert (E : zlen (c :: s) = 1 + zlen s) by (unfold zlen; cbn [length]; lia). pose proof (zlen_nonneg s).
  apply Forall_cons_iff in Hs as [Hc Hs]. destruct Hf as [?|Hf]; [done|]. rewrite E in *. cbn [set_loop].
  destruct (Z.leb_spec 78 (pos + j)); [lia|]. rewrite u8_id by (unfold is_u; lia).
  set (d1 := wr (wr d (pos + j) c) (pos + j + 1) 0). assert (Hd1 : zlen d1 = 256) by (unfold d1; by rewrite !zlen_wr).
  destruct (IH pos (j + 2) d1) as (d' & Es & Hz & Hk & Ho & Hb); [lia|lia|done|destruct s; [by left|right; lia]|done|].
  exists d'. split_and!.
  - rewrite Es. do 2 f_equal. lia.
  - done.
  - intros [|k] c' Hk'; cbn in Hk'.
    + injection Hk' as <-. rewrite Ho by lia. unfold d1. rewrite rd_wr_ne by lia. replace (pos + j + 2 * Z.of_nat 0) with (pos + j) by lia.
      apply rd_wr_eq. lia.
    + rewrite <- (Hk k c' Hk'). f_equal. lia.
  - intros x Hx Hor. rewrite Ho by lia. unfold d1. by rewrite !rd_wr_ne by lia.
  - intros Hbd. apply Hb. unfold d1. repeat apply bytes_wr; try done; unfold is_u; lia.
Qed.

Lemma set_loop_long s : forall pos j d, s <> [] -> 80 <= pos + j + 2 * zlen s -> (set_loop s pos j d).1 = None.
Proof.
  induction s as [|c s IH]; intros pos j d Hne Hl; [done|]. cbn [set_loop].
  destruct (Z.leb_spec 78 (pos + j)); [done|]. assert (E : zlen (c :: s) = 1 + zlen s) by (unfold zlen; cbn [length]; lia).
  destruct s as [|c' s]; [change (zlen [c]) with 1 in *; lia|]. apply IH; [done|lia].
Qed.

Lemma set_descriptor s pos d :
  0 <= pos < 100 -> chars s -> zlen d = 256 -> fits_at pos s ->
  exists d', set_string_descriptor pos d s = (pos + 2 + 2 * zlen s, d') /\ zlen d' = 256 /\ desc_at d' pos s /\
    (forall x, 0 <= x -> x < pos \/ pos + 2 + 2 * zlen s <= x -> rd d' x = rd d x) /\ (bytes d -> bytes d').
Proof.
  intros Hp Hs Hd Hf. pose proof (zlen_nonneg s).
  assert (Hb : zlen s < 40) by (destruct Hf as [->|Hf]; [done|lia]).
  destruct (set_loop_fits s pos 2 (wr d (pos + 1) 0x03)) as (d' & E & Hz & Hk & Ho & Hby); [lia|lia|done|done|by rewrite zlen_wr|].
  unfold set_string_descriptor. destruct (Z.ltb_spec pos 0); [lia|]. rewrite E. exists (wr d' pos (u8 (2 + 2 * zlen s))).
  rewrite zlen_wr. rewrite u8_id by (unfold is_u; lia). split_and!; [f_equal; lia|done| | |].
  - split; [apply rd_wr_eq; lia|]. intros k c Hc. rewrite rd_wr_ne by lia. by apply Hk.
  - intros x Hx Hor. rewrite rd_wr_ne by lia. rewrite Ho by lia. by rewrite rd_wr_ne by lia.
  - intros Hbd. apply bytes_wr; [apply Hby, bytes_wr; [done|unfold is_u; lia]|unfold is_u; lia].
Qed.

Lemma set_descriptor_long s pos d : 0 <= pos -> ~ fits_at pos s -> (set_string_descriptor pos d s).1 = -1.
Proof.
  intros Hp Hf. unfold set_string_descriptor. destruct (Z.ltb_spec pos 0); [lia|].
  assert (s <> [] /\ 80 <= pos + 2 + 2 * zlen s) as [Hne Hl].
  { split; [intros ->; apply Hf; by left|]. destruct (decide (80 <= pos + 2 + 2 * zlen s)); [done|]. exfalso. apply Hf. right. lia. }
  pose proof (set_loop_long s pos 2 (wr d (pos + 1) 0x03) Hne Hl) as E. by destruct (set_loop _ _ _ _) as [[j|] d'].
Qed.

(** ** A whole image *)

Definition pos1 (conf : rtlsdr_config) : Z := STR_OFFSET + 2 + 2 * zlen (manufacturer conf).
Definition pos2 (conf : rtlsdr_config) : Z := pos1 conf + 2 + 2 * zlen (product conf).
Definition pos3 (conf : rtlsdr_config) : Z := pos2 conf + 2 + 2 * zlen (serial conf).

(** The strings of a configuration fit in front of the configuration of the remote control. *)
Definition fits (conf : rtlsdr_config) : Prop :=
  fits_at STR_OFFSET (manufacturer conf) /\ fits_at (pos1 conf) (product conf) /\ fits_at (pos2 conf) (serial conf).
#[export] Instance fits_dec conf : Decision (fits conf).
Proof. unfold fits. apply _. Defined.

Definition conf_ok (conf : rtlsdr_config) : Prop :=
  is_u 16 (vendor_id conf) /\ is_u 16 (product_id conf) /\
  chars (manufacturer conf) /\ chars (product conf) /\ chars (serial conf).

Lemma fits_positions conf : fits conf -> 11 <= pos1 conf <= 79 /\ pos1 conf < pos2 conf <= 81 /\ pos2 conf < pos3 conf <= 83.
Proof.
  unfold fits, fits_at, pos3, pos2, pos1, STR_OFFSET. intros (H1 & H2 & H3).
  assert (forall s : list Z, 0 <= zlen s) as Hn by (intros; unfold zlen; lia).
  pose proof (Hn (manufacturer conf)). pose proof (Hn (product conf)). pose proof (Hn (serial conf)).
  assert (zlen (manufacturer conf) <= 34) by (destruct H1 as [->|]; [done|lia]).
  assert (forall l : list Z, l = [] -> zlen l = 0) as Hz by (by intros l ->).
  destruct H2 as [H2|], H3 as [H3|]; try rewrite (Hz _ H2) in *; try rewrite (Hz _ H3) in *; lia.
Qed.

Lemma gen_header_cells conf d : zlen d = 256 ->
  let d' := gen_header conf d in
  zlen d' = 256 /\ rd d' 2 = vendor_id conf &' 0xff /\ rd d' 3 = (vendor_id conf >>' 8) &' 0xff /\
  rd d' 4 = product_id conf &' 0xff /\ rd d' 5 = (product_id conf >>' 8) &' 0xff /\
  rd d' 6 = (if have_serial conf then 0xa5 else 0) /\
  rd d' 7 = 0x14 + (if remote_wakeup conf then 1 else 0) + (if enable_ir conf then 2 else 0) /\
  (forall x, 9 <= x -> rd d' x = rd d x) /\ (is_u 16 (vendor_id conf) -> is_u 16 (product_id conf) -> bytes d -> bytes d').
Proof.
  intros Hd. unfold gen_header.
  repeat match goal with |- context [rd (wr ?l 7 ?x) 7] => rewrite (rd_wr_eq l 7 x) by (rewrite ?zlen_wr; lia) end.
  cbn zeta. split_and!.
  1: by rewrite !zlen_wr.
  1-6: repeat first [rewrite rd_wr_eq by (rewrite ?zlen_wr; lia) | rewrite rd_wr_ne by lia]; try done;
       destruct (remote_wakeup conf), (enable_ir conf); reflexivity.
  - intros x Hx. by rewrite !rd_wr_ne by lia.
  - intros Hv Hp Hb. repeat apply bytes_wr; try done; try (unfold is_u; lia).
    all: try (change 0xff with (Z.ones 8); rewrite Z.land_ones by lia; unfold is_u; apply Z.mod_pos_bound; lia).
    all: try (destruct (have_serial conf); unfold is_u; lia).
    all: destruct (remote_wakeup conf), (enable_ir conf); vm_compute; split; congruence.
Qed.

Lemma word_of_bytes v : is_u 16 v -> u16 ((v &' 0xff) |' (((v >>' 8) &' 0xff) <<' 8)) = v.
Proof.
  intros Hv. rewrite Z.lor_comm. change 0xff with (Z.ones 8). rewrite !Z.land_ones by lia.
  rewrite lor_shiftl_add by (first [lia | apply Z.mod_pos_bound; lia]). rewrite Z.shiftr_div_pow2 by lia.
  unfold is_u, u16 in *. change (2 ^ 8) with 256 in *. change (2 ^ 16) with 65536 in *. Z.div_mod_to_equations. lia.
Qed.

Lemma desc_keep d d' pos s : desc_at d pos s -> (forall x, pos <= x < pos + 2 + 2 * zlen s -> x <> 78 -> rd d' x = rd d x) ->
  pos mod 2 = 1 -> desc_at d' pos s.
Proof.
  intros [Hl Hc] Hk Hodd. split.
  - rewrite Hk; [done|unfold zlen; lia|]. intros ->. by vm_compute in Hodd.
  - intros k c Hs. assert (k < length s)%nat by (by apply lookup_lt_Some in Hs). rewrite Hk; [by apply Hc|unfold zlen; lia|].
    Z.div_mod_to_equations. lia.
Qed.

Lemma gen_fits conf d : conf_ok conf -> fits conf -> zlen d = 256 ->
  let '(r, d') := gen_eeprom_from_conf conf d in
  r = pos3 conf /\ zlen d' = 256 /\ parse_eeprom_to_conf d' = conf /\
  (forall x, 79 <= x -> pos3 conf <= x -> rd d' x = rd d x) /\ (bytes d -> bytes d').
Proof.
  intros (Hv & Hp & Hm & Hpr & Hs) Hf Hd. pose proof (fits_positions conf Hf) as Hpos. destruct Hf as (F1 & F2 & F3).
  destruct (gen_header_cells conf d Hd) as (Z0 & R2 & R3 & R4 & R5 & R6 & R7 & R9 & B0).
  unfold gen_eeprom_from_conf. set (d0 := gen_header conf d) in *.
  destruct (set_descriptor (manufacturer conf) STR_OFFSET d0) as (d1 & E1 & Z1 & D1 & K1 & B1); [done|done|done|done|].
  rewrite E1. fold (pos1 conf).
  destruct (set_descriptor (product conf) (pos1 conf) d1) as (d2 & E2 & Z2 & D2 & K2 & B2); [lia|done|done|done|].
  rewrite E2. fold (pos2 conf).
  destruct (set_descriptor (serial conf) (pos2 conf) d2) as (d3 & E3 & Z3 & D3 & K3 & B3); [lia|done|done|done|].
  rewrite E3. fold (pos3 conf). fold (pos1 conf) in K1. fold (pos2 conf) in K2. fold (pos3 conf) in K3.
  assert (Hw : forall x, 0 <= x -> x <> 78 -> rd (wr d3 78 0) x = rd d3 x) by (intros; by rewrite rd_wr_ne by lia).
  assert (Hhead : forall x, 0 <= x < 9 -> rd (wr d3 78 0) x = rd d0 x).
  { intros x Hx. unfold STR_OFFSET in K1. rewrite Hw, K3, K2, K1 by lia. done. }
  assert (O1 : pos1 conf mod 2 = 1) by (unfold pos1, STR_OFFSET; Z.div_mod_to_equations; lia).
  assert (O2 : pos2 conf mod 2 = 1) by (unfold pos2; Z.div_mod_to_equations; lia).
  assert (L : forall s pos, fits_at pos s -> 0 <= pos -> (length s <= 126)%nat).
  { intros s pos [->|Hl] H0; cbn [length]; [lia|]. unfold zlen in Hl. lia. }
  split_and!; [done|by rewrite zlen_wr| | |].
  - unfold parse_eeprom_to_conf.
    rewrite (get_descriptor (wr d3 78 0) STR_OFFSET (manufacturer conf));
      [|apply (desc_keep d1); [done|intros x Hx Hn; fold (pos1 conf) in Hx; unfold STR_OFFSET in Hx; rewrite Hw, K3, K2 by lia; done|done]|done|by apply (L _ STR_OFFSET)].
    fold (pos1 conf). rewrite (get_descriptor (wr d3 78 0) (pos1 conf) (product conf));
      [|apply (desc_keep d2); [done|intros x Hx Hn; fold (pos2 conf) in Hx; rewrite Hw, K3 by lia; done|done]|done|by apply (L _ (pos1 conf)); [|lia]].
    fold (pos2 conf). rewrite (get_descriptor (wr d3 78 0) (pos2 conf) (serial conf));
      [|apply (desc_keep d3); [done|intros x Hx Hn; rewrite Hw by lia; done|done]|done|by apply (L _ (pos2 conf)); [|lia]].
    rewrite !Hhead by lia. rewrite R2, R3, R4, R5, R6, R7, !word_of_bytes by done.
    destruct conf as [v p m pr s [] [] []]; reflexivity.
  - intros x H79 Hx. rewrite Hw, K3, K2, K1 by (unfold STR_OFFSET; lia). apply R9. lia.
  - intros Hb. apply bytes_wr; [apply B3, B2, B1, B0; done|unfold is_u; lia].
Qed.

Lemma gen_too_long conf d : conf_ok conf -> ~ fits conf -> zlen d = 256 -> (gen_eeprom_from_conf conf d).1 = -1.
Proof.
  intros (Hv & Hp & Hm & Hpr & Hs) Hf Hd. destruct (gen_header_cells conf d Hd) as (Z0 & _).
  unfold gen_eeprom_from_conf. set (d0 := gen_header conf d) in *.
  assert (Hneg : forall d s, set_string_descriptor (-1) d s = (-1, d)) by done.
  destruct (decide (fits_at STR_OFFSET (manufacturer conf))) as [F1|F1].
  2:{ pose proof (set_descriptor_long (manufacturer conf) STR_OFFSET d0 ltac:(done) F1) as E. destruct (set_string_descriptor STR_OFFSET d0 _) as [r d1].
      cbn [fst] in E. subst r. by rewrite !Hneg. }
  destruct (set_descriptor (manufacturer conf) STR_OFFSET d0) as (d1 & E1 & Z1 & _); [done|done|done|done|]. rewrite E1. fold (pos1 conf).
  assert (0 <= pos1 conf < 100) by (destruct F1 as [E|E]; unfold pos1, STR_OFFSET in *; [rewrite E; change (zlen []) with 0|unfold zlen in *]; lia).
  destruct (decide (fits_at (pos1 conf) (product conf))) as [F2|F2].
  2:{ pose proof (set_descriptor_long (product conf) (pos1 conf) d1 ltac:(lia) F2) as E. destruct (set_string_descriptor (pos1 conf) d1 _) as [r d2].
      cbn [fst] in E. subst r. by rewrite !Hneg. }
  destruct (set_descriptor (product conf) (pos1 conf) d1) as (d2 & E2 & Z2 & _); [lia|done|done|done|]. rewrite E2. fold (pos2 conf).
  assert (0 <= zlen (product conf)) by (unfold zlen; lia).
  destruct (decide (fits_at (pos2 conf) (serial conf))) as [F3|F3]; [exfalso; by apply Hf|].
  pose proof (set_descriptor_long (serial conf) (pos2 conf) d2 ltac:(unfold pos2; lia) F3) as E.
  destruct (set_string_descriptor (pos2 conf) d2 _) as [r d3]. cbn [fst] in E. by subst r.
Qed.

End EepromFacts.

(** * The tool *)

Module EepromToolProps.
Import UsbRegs UsbRegsProps FirProps Usb EepromProps Eeprom EepromFacts.

Lemma rd_byte d x : bytes d -> is_u 8 (rd d x).
Proof.
  intros Hd. unfold rd. destruct (x <? 0); [unfold is_u; lia|]. destruct (d !! Z.to_nat x) as [y|] eqn:E; [|unfold is_u; cbn; lia].
  exact (proj1 (Forall_lookup _ _) Hd _ _ E).
Qed.

Lemma get_loop_bytes d n : bytes d -> forall i len pos, bytes (get_loop n i len pos d).1.
Proof.
  intros Hd. induction n as [|n IH]; intros i len pos; cbn [get_loop]; [constructor|]. destruct (i <? len); [|constructor].
  pose proof (IH (i + 2) len pos) as H. destruct (get_loop n (i + 2) len pos d) as [s i']. constructor; [by apply rd_byte|done].
Qed.

Lemma get_descriptor_chars d pos : bytes d -> chars (get_string_descriptor pos d).2.
Proof.
  intros Hd. unfold get_string_descriptor. pose proof (get_loop_bytes d 127 Hd 2 (rd d pos) pos) as H.
  destruct (get_loop 127 2 (rd d pos) pos d) as [s i]. by apply chars_cstr.
Qed.

(** Whatever is in the EEPROM, what is read of it is a configuration. *)
Lemma parse_ok d : bytes d -> conf_ok (parse_eeprom_to_conf d).
Proof.
  intros Hd. unfold parse_eeprom_to_conf.
  pose proof (get_descriptor_chars d STR_OFFSET Hd) as H1. destruct (get_string_descriptor STR_OFFSET d) as [p1 s1].
  pose proof (get_descriptor_chars d p1 Hd) as H2. destruct (get_string_descriptor p1 d) as [p2 s2].
  pose proof (get_descriptor_chars d p2 Hd) as H3. destruct (get_string_descriptor p2 d) as [p3 s3].
  split_and!; try apply u16_range; done.
Qed.

(** The strings given as options are C strings. *)
Definition options_ok (o : options) : Prop :=
  forall s, manuf_str o = Some s \/ product_str o = Some s \/ serial_str o = Some s -> chars s.

Lemma new_conf_ok o conf : options_ok o -> conf_ok conf -> conf_ok (new_conf o conf).
Proof.
  intros Ho (Hv & Hp & Hm & Hpr & Hs). unfold new_conf.
  assert (Hc : forall s, chars s -> chars (copy_str s)) by (intros; by apply Forall_take).
  assert (H1 : conf_ok (change_conf o conf)).
  { unfold change_conf, conf_ok. cbn. split_and!; try done.
    - destruct (manuf_str o) eqn:E; [apply Hc, Ho; by left|done].
    - destruct (product_str o) eqn:E; [apply Hc, Ho; by right; left|done].
    - destruct (serial_str o) eqn:E; [apply Hc, Ho; by right; right|done]. }
  case_bool_decide; [done|]. destruct (default_config o); try done;
  unfold conf_ok, chars, is_u; cbn [gen_default_conf vendor_id product_id manufacturer product serial];
  split_and!; try lia; apply (bool_decide_unpack _); vm_compute; exact I.
Qed.

(** ** Every default configuration fits. *)
Lemma defaults_fit conf g : g <> CONF_NONE -> fits (gen_default_conf conf g).
Proof. intros Hg. destruct g; [done|..]; apply (bool_decide_unpack _); vm_compute; exact I. Qed.

(** Where the third descriptor ends; up to there [parse_eeprom_to_conf] reads the array. *)
Definition parse_end (d : list Z) : Z :=
  let '(pos, _) := get_string_descriptor STR_OFFSET d in
  let '(pos, _) := get_string_descriptor pos d in
  (get_string_descriptor pos d).1.

Section Props.
Context {U : Type} `{Libusb U} {demod i2c : U -> Z -> Z -> Z} `{!Rtl2832 U demod i2c}
  {i2c_ptr : U -> Z -> Z} `{!Rtl2832Works U i2c i2c_ptr}.

Abbreviation rom := (rom (i2c := i2c)).

(** What is in the EEPROM. *)
Definition image (c : core U) : list Z := rom c <$> seqZ 0 256.

Lemma rd_image c x : 0 <= x < 256 -> rd (image c) x = rom c x.
Proof.
  intros Hx. unfold rd, image. destruct (Z.ltb_spec x 0); [lia|]. rewrite list_lookup_fmap, lookup_seqZ_lt by lia. cbn. f_equal. lia.
Qed.

(** Writing an image. *)
Lemma image_stored l (c : core U) : bytes l -> zlen l <= 256 ->
  exists c1, rtlsdr_write_eeprom l 0 c = (0, c1) /\ forall x, rom c1 x = if (0 <=? x) && (x <? zlen l) then rd l x else rom c x.
Proof.
  intros Hb Hl. unfold rtlsdr_write_eeprom. destruct (Z.ltb_spec 256 (zlen l + 0)); [lia|].
  rewrite st_bind_eq. cbn [st_get].
  destruct (write_eeprom_stores l 0 0 (rd (uninit2 (usb c)) 1) c) as [E S]; [done|lia..|].
  destruct (write_eeprom_loop 0 0 _ l c) as [r1 c1]. cbn [fst snd] in E, S. subst r1. exists c1. split; [done|].
  intros x. rewrite S. unfold store_regs. change (0 + 0) with 0. rewrite Z.add_0_l, Z.sub_0_r. done.
Qed.
Lemma write_back_answer o d ch (c : core U) : bytes d -> zlen d = 256 ->
  exists r c', write_back o 1 d ch c = (r, c') /\
    (ch = 0 \/ ch = 121 -> r = 0 /\
      forall x, rom c' x = if (0 <=? x) && (x <? (if flash_file o then 256 else 128)) then rd d x else rom c x) /\
    (~ (ch = 0 \/ ch = 121) -> r = 1 /\ c' = c).
Proof.
  intros Hb Hz. unfold write_back. destruct ((ch =? 0) || (ch =? 121)) eqn:Ec.
  2:{ exists 1, c. rewrite st_ret_eq. split; [done|]. split; [intros [-> | ->]; by vm_compute in Ec|done]. }
  assert (Hyes : ch = 0 \/ ch = 121) by lia. set (l := if flash_file o then d else take 128 d).
  assert (Hl : bytes l /\ zlen l = (if flash_file o then 256 else 128)).
  { subst l. destruct (flash_file o); [done|]. split; [by apply Forall_take|]. unfold zlen in *. rewrite length_take. lia. }
  destruct Hl as [Hbl Hl]. destruct (image_stored l c Hbl) as (c1 & E & S); [rewrite Hl; by destruct (flash_file o)|].
  rewrite st_bind_eq, E. rewrite st_ret_eq. exists 0, c1. split; [done|]. split; [intros _|done]. split; [done|].
  intros x. rewrite S, Hl. destruct (Z.leb_spec 0 x); [|done]. cbn [andb].
  destruct (Z.ltb_spec x (if flash_file o then 256 else 128)); [|done]. subst l. destruct (flash_file o); [done|].
  unfold rd. destruct (Z.ltb_spec x 0); [lia|]. by rewrite lookup_take_lt by lia.
Qed.
Lemma image_bytes c : (forall a, is_u 8 (rom c a)) -> bytes (image c) /\ zlen (image c) = 256.
Proof.
  intros Hrom. split; [apply Forall_fmap, Forall_forall; intros a _; apply Hrom|].
  unfold zlen, image. by rewrite length_fmap, length_seqZ.
Qed.

(** The part of a session behind a generated image. *)
Lemma session_generates o ch (c c2 : core U) : let conf := new_conf o (parse_eeprom_to_conf (image c)) in
  flash_file o = false -> options_ok o -> (forall a, is_u 8 (rom c a)) -> (forall x, rom c2 x = rom c x) ->
  exists r c', (let '(pos, d) := gen_eeprom_from_conf conf (image c) in if pos <? 0 then mret 1 else write_back o 1 d ch) c2 = (r, c') /\
    (fits conf /\ (ch = 0 \/ ch = 121) ->
     r = 0 /\ parse_eeprom_to_conf (image c') = conf /\ forall x, 83 <= x -> rom c' x = rom c x) /\
    (~ (fits conf /\ (ch = 0 \/ ch = 121)) -> r = 1 /\ forall x, rom c' x = rom c x).
Proof.
  intros conf Hfl Ho Hrom K. destruct (image_bytes c Hrom) as [Hb Hz].
  assert (Hok : conf_ok conf) by (by apply new_conf_ok, parse_ok).
  destruct (decide (fits conf)) as [Hf|Hf].
  2:{ pose proof (gen_too_long conf (image c) Hok Hf Hz) as Eg. destruct (gen_eeprom_from_conf conf (image c)) as [pos d].
      cbn [fst] in Eg. subst pos. change (-1 <? 0) with true. cbv iota. exists 1, c2. rewrite st_ret_eq.
      split; [done|]. split; [by intros [? _]|done]. }
  pose proof (gen_fits conf (image c) Hok Hf Hz) as Eg. destruct (gen_eeprom_from_conf conf (image c)) as [pos d].
  destruct Eg as (-> & Hzd & Hpd & Hkd & Hbd). specialize (Hbd Hb). pose proof (fits_positions conf Hf) as Hpos.
  destruct (Z.ltb_spec (pos3 conf) 0); [lia|].
  destruct (write_back_answer o d ch c2 Hbd ltac:(lia)) as (r & c1 & E & Hy & Hn). rewrite Hfl in Hy. exists r, c1. split; [done|].
  split; [intros [_ Ha]|intros Hna; destruct Hn as [-> ->]; [tauto|done]]. destruct (Hy Ha) as [-> S].
  assert (Him : image c1 = d).
  { unfold image. rewrite <- Hzd. apply rd_fmap_seqZ. intros i Hi. rewrite Z.add_0_l, S.
    destruct (Z.leb_spec 0 i), (Z.ltb_spec i 128); try lia; [done|]. cbn [andb]. rewrite Hkd by lia. rewrite rd_image by lia. done. }
  split_and!; [done|by rewrite Him|]. intros x Hx. rewrite S. destruct (Z.leb_spec 0 x), (Z.ltb_spec x 128); try lia; [|by rewrite K].
  cbn [andb]. rewrite Hkd by lia. apply rd_image. lia.
Qed.

(** C30.  A session of the tool with well-formed options, from its first read on, on a dongle on which every transfer
    works and in whose EEPROM, read as a configuration, the descriptors lie within it.
    Where no change is asked for, or the file of -r or -w cannot be opened, the EEPROM is not
    changed.  With options that change the configuration and without -w, the new configuration
    is the one in the EEPROM with the changes that were asked for; when its strings fit and
    the question is answered with y or a zero character, the EEPROM holds exactly that
    configuration afterwards, everything behind the strings is as it was, and the exit status
    is 0; otherwise the EEPROM is not changed and the exit status is 1.  With -w, for a file
    whose descriptors lie within the EEPROM, such an answer writes the bytes of the file, up
    to 256, and leaves the rest as it was; another answer changes nothing. *)
Theorem eeprom_session o buf file ch (c : core U) :
  let conf := new_conf o (parse_eeprom_to_conf (image c)) in
  let yes := ch = 0 \/ ch = 121 in
  options_ok o -> zlen buf = 256 -> (forall a, is_u 8 (rom c a)) -> parse_end (image c) <= EEPROM_SIZE ->
  exists r c', session o buf file ch c = (r, c') /\
    (change o = false \/ (filename o <> None /\ file = None) -> r = 1 /\ forall x, rom c' x = rom c x) /\
    (change o = true -> filename o = None \/ file <> None -> flash_file o = false ->
      (fits conf /\ yes -> r = 0 /\ parse_eeprom_to_conf (image c') = conf /\ forall x, 83 <= x -> rom c' x = rom c x) /\
      (~ (fits conf /\ yes) -> r = 1 /\ forall x, rom c' x = rom c x)) /\
    (forall content, change o = true -> filename o <> None -> file = Some content -> flash_file o = true -> bytes content ->
      parse_end (blit (image c) 0 (take (Z.to_nat EEPROM_SIZE) content)) <= EEPROM_SIZE ->
      (yes -> r = 0 /\ forall x, rom c' x = if (0 <=? x) && (x <? Z.min 256 (zlen content)) then rd content x else rom c x) /\
      (~ yes -> r = 1 /\ forall x, rom c' x = rom c x)).
Proof.
  intros conf yes Ho Hbuf Hrom _. destruct (image_bytes c Hrom) as [Hb Hz].
  destruct (read_eeprom_rom 0 buf c) as (c2 & Er & K); [lia..|]. rewrite Hbuf in Er. fold (image c) in Er.
  unfold session. rewrite st_bind_eq. change EEPROM_SIZE with 256. rewrite Er. cbv beta iota. change (1 <? 0) with false. cbv iota.
  fold conf. destruct (decide (filename o <> None /\ file = None)) as [[Hn ->]|Hopen].
  { destruct (filename o) as [fn|] eqn:Efn; [|done]. exists 1, c2. rewrite st_ret_eq. split_and!; [done|done| |done].
    intros _ [?|?]; done. }
  set (d := match filename o, file with Some _, Some content => if flash_file o then _ else image c | _, _ => image c end).
  replace (match filename o, file with Some _, None => _ | _, _ => _ end) with
    (if negb (change o) then mret 1 else if flash_file o then write_back o 1 d ch
     else let '(pos, buf) := gen_eeprom_from_conf conf d in if pos <? 0 then mret 1 else write_back o 1 buf ch)
    by (subst d; destruct (filename o), file; try done; exfalso; apply Hopen; done).
  destruct (change o); cbn [negb]; cbv iota.
  2:{ exists 1, c2. rewrite st_ret_eq. split_and!; done. }
  destruct (flash_file o) eqn:Hfl; cbv iota.
  - assert (Hd : forall content, filename o <> None -> file = Some content -> d = blit (image c) 0 (take (Z.to_nat 256) content))
      by (intros content Hfn ->; subst d; by destruct (filename o)).
    destruct (write_back o 1 d ch c2) as [r c'] eqn:E. exists r, c'. split_and!; [done|intros [?|?]; [done|by destruct Hopen]|done|].
    intros content _ Hfn Hfile _ Hbc _. specialize (Hd content Hfn Hfile).
    assert (Hbt : bytes (take (Z.to_nat 256) content)) by (by apply Forall_take).
    assert (Hlt : zlen (take (Z.to_nat 256) content) = Z.min 256 (zlen content)) by (unfold zlen; rewrite length_take; lia).
    assert (Hzd : bytes d /\ zlen d = 256).
    { rewrite Hd, zlen_blit. split; [|done]. rewrite blit_0 by lia. apply Forall_app. split; [done|by apply Forall_drop]. }
    destruct (write_back_answer o d ch c2 (proj1 Hzd) (proj2 Hzd)) as (r0 & c0 & E0 & Hy & Hn). rewrite E in E0. injection E0 as <- <-.
    split; [|intros Hna; destruct (Hn Hna) as [-> ->]; done]. intros Ha. destruct (Hy Ha) as [-> S]. split; [done|]. intros x.
    rewrite S, Hfl. destruct (Z.leb_spec 0 x); [|apply K]. cbn [andb]. destruct (Z.ltb_spec x 256).
    + rewrite Hd, rd_blit by lia. rewrite Hlt. destruct (Z.leb_spec 0 x); [|lia]. cbn [andb]. rewrite Z.add_0_l, Z.sub_0_r.
      destruct (Z.ltb_spec x (Z.min 256 (zlen content))); [|apply rd_image; lia].
      unfold rd. destruct (Z.ltb_spec x 0); [lia|]. by rewrite lookup_take_lt by lia.
    + destruct (Z.ltb_spec x (Z.min 256 (zlen content))); [lia|apply K].
  - assert (Hd : d = image c) by (subst d; by destruct (filename o), file). rewrite Hd.
    destruct (session_generates o ch c c2 Hfl Ho Hrom K) as (r & c' & E & Hg). exists r, c'.
    split_and!; [exact E|intros [?|?]; [done|by destruct Hopen]|done|done].
Qed.
End Props.

(** A new serial number for a dongle with the configuration of the manufacturer. *)
Definition serial_option : options := default no_options (set_options [("s"%char, str "00000077")] no_options).
Definition oem_image : list Z :=
  (gen_eeprom_from_conf (gen_default_conf (mk_config 0 0 [] [] [] false false false) REALTEK_EEPROM) (replicate 256 0)).2.
Definition oem_core : core dongle :=
  mk_core (mk_dongle (fun _ _ => 0) (fun _ a => rd oem_image a) (fun _ => 0)) 28800000 28800000 0 EmptyString EmptyString.

Lemma eeprom_session_witness : exists c',
  session serial_option (replicate 256 0) None 121 oem_core = (0, c') /\
  parse_eeprom_to_conf (image (i2c := dg_i2c) c') =
    mk_config 0x0bda 0x2838 (str "Realtek") (str "RTL2838UHIDIR") (str "00000077") true true false.
Proof.
  destruct (eeprom_session (demod := dg_demod) (i2c := dg_i2c) (i2c_ptr := dg_ptr) serial_option (replicate 256 0) None 121 oem_core)
    as (r & c' & E & _ & Hy & _).
  - intros s [Hs|[Hs|Hs]]; cbn in Hs; try discriminate. injection Hs as <-. apply (bool_decide_unpack _). vm_compute. exact I.
  - reflexivity.
  - intros a. apply rd_byte. apply (bool_decide_unpack _). vm_compute. exact I.
  - vm_compute. congruence.
  - destruct Hy as [(-> & Hp & _) _]; [reflexivity|by left|reflexivity| |].
    + split; [apply (bool_decide_unpack _); vm_compute; exact I|by right].
    + exists c'. split; [exact E|]. rewrite Hp. vm_compute. reflexivity.
Defined.

(** An erased EEPROM: the length of its first string leads past the end of the array. *)
Lemma erased_out_of_bounds : let data := replicate 256 0xff in
  EEPROM_SIZE <= STR_OFFSET + 254 /\ 254 < rd data STR_OFFSET /\ EEPROM_SIZE <= (get_string_descriptor STR_OFFSET data).1.
Proof. vm_compute. split_and!; congruence. Qed.

(** With strings that end at cell 77 and no serial number the type of its descriptor is
    overwritten. *)
Lemma descriptor_type_lost : let conf := mk_config 0 0 (replicate 32 65) [] [] false false false in
  fits conf /\ pos2 conf + 1 = 78 /\ rd (gen_eeprom_from_conf conf (replicate 256 0)).2 (pos2 conf + 1) = 0.
Proof. split; [apply (bool_decide_unpack _); vm_compute; exact I|]. split; vm_compute; reflexivity. Qed.

End EepromToolProps.
