(* ===== verification/RtlFm.v ===== *)
(** * The FM demodulator ([src/src/rtl_fm.c])

    [Module Fm]: the integer signal chain of a buffer of samples (rotation, decimation, the
    demodulators, the audio filters), in place on arrays of 16-bit values as the code has it,
    their composition in [full_demod], the callback, one round of the demodulator thread, and
    the settings of the dongle.  Arrays are lists, an index and a length are separate; [int]
    arithmetic is taken modulo 2^32, narrowing stores modulo 2^16, divisions truncate; a division by zero ends the process and is
    [None].  The arc tangents of the C library are the interface [Arctan]. *)

From S2P Require Import Prelude Float.

Module Fm.

Definition DEFAULT_SAMPLE_RATE : Z := 24000.
Definition DEFAULT_BUF_LENGTH : Z := 16384.
Definition MAXIMUM_OVERSAMPLE : Z := 16.
Definition MAXIMUM_BUF_LENGTH : Z := MAXIMUM_OVERSAMPLE * DEFAULT_BUF_LENGTH.
Definition BUFFER_DUMP : Z := 4096.
Definition FREQUENCIES_LIMIT : Z := 1000.
Definition CIC_TABLE_MAX : Z := 10.

Definition cic_9_tables : list (list Z) := [
  [0];
  [9; -156;  -97; 2798; -15489; 61019; -15489; 2798;  -97; -156];
  [9; -128; -568; 5593; -24125; 74126; -24125; 5593; -568; -128];
  [9; -129; -639; 6187; -26281; 77511; -26281; 6187; -639; -129];
  [9; -122; -612; 6082; -26353; 77818; -26353; 6082; -612; -122];
  [9; -120; -602; 6015; -26269; 77757; -26269; 6015; -602; -120];
  [9; -120; -582; 5951; -26128; 77542; -26128; 5951; -582; -120];
  [9; -119; -580; 5931; -26094; 77505; -26094; 5931; -580; -119];
  [9; -119; -578; 5921; -26077; 77484; -26077; 5921; -578; -119];
  [9; -119; -577; 5917; -26067; 77473; -26067; 5917; -577; -119];
  [9; -199; -362; 5303; -25505; 77489; -25505; 5303; -362; -199]].

(** ** Decimation *)

(** [rotate_90] on the eight bytes from [i] on. *)
Definition rotate_8 (buf : list Z) (i : Z) : list Z :=
  let tmp := u8 (255 - rd buf (i + 3)) in
  let buf := wr buf (i + 3) (rd buf (i + 2)) in
  let buf := wr buf (i + 2) tmp in
  let buf := wr buf (i + 4) (u8 (255 - rd buf (i + 4))) in
  let buf := wr buf (i + 5) (u8 (255 - rd buf (i + 5))) in
  let tmp := u8 (255 - rd buf (i + 6)) in
  let buf := wr buf (i + 6) (rd buf (i + 7)) in
  wr buf (i + 7) tmp.
(** [n] is the number of rounds for [len]. *)
Fixpoint rotate_loop (n : nat) (i : Z) (buf : list Z) : list Z :=
  match n with
  | O => buf
  | S n => rotate_loop n (i + 8) (rotate_8 buf i)
  end.
Definition rotate_90 (buf : list Z) (len : Z) : list Z := rotate_loop (Z.to_nat ((len + 7) / 8)) 0 buf.

(** [now_r], [now_j] and [prev_index]. *)
Record box := mk_box { now_r : Z; now_j : Z; prev_index : Z }.

(** The loop of [low_pass]; [n] bounds its rounds. *)
Fixpoint low_pass_loop (n : nat) (downsample lp_len i i2 : Z) (b : box) (a : list Z) : Z * box * list Z :=
  match n with
  | O => (i2, b, a)
  | S n =>
      if negb (i <? lp_len) then (i2, b, a)
      else
        let r := s32 (now_r b + rd a i) in
        let j := s32 (now_j b + rd a (i + 1)) in
        let p := s32 (prev_index b + 1) in
        if p <? downsample then low_pass_loop n downsample lp_len (i + 2) i2 (mk_box r j p) a
        else low_pass_loop n downsample lp_len (i + 2) (i2 + 2) (mk_box 0 0 0) (wr (wr a i2 (s16 r)) (i2 + 1) (s16 j))
  end.
(** The new [lp_len], the sums, the array. *)
Definition low_pass (downsample lp_len : Z) (b : box) (a : list Z) : Z * box * list Z :=
  low_pass_loop (Z.to_nat lp_len) downsample lp_len 0 0 b a.

(** One output of [fifth_order]. *)
Definition fifth (a b c d e f : Z) : Z := s16 ((a + (b + e) * 5 + (c + d) * 10 + f) >>' 4).

(** The loop of [fifth_order] on the array from [off] on; [h] has [a] to [f]. *)
Fixpoint fifth_loop (n : nat) (off i length : Z) (h : list Z) (data : list Z) : list Z * list Z :=
  match n with
  | O => (h, data)
  | S n =>
      if negb (i <? length) then (h, data)
      else
        let h := [rd h 2; rd h 3; rd h 4; rd h 5; rd data (off + (i - 2)); rd data (off + i)] in
        fifth_loop n off (i + 4) length h
          (wr data (off + i / 2) (fifth (rd h 0) (rd h 1) (rd h 2) (rd h 3) (rd h 4) (rd h 5)))
  end.
Definition fifth_order (off length : Z) (hist data : list Z) : list Z * list Z :=
  let h := [rd hist 1; rd hist 2; rd hist 3; rd hist 4; rd hist 5; rd data off] in
  let data := wr data off (fifth (rd h 0) (rd h 1) (rd h 2) (rd h 3) (rd h 4) (rd h 5)) in
  fifth_loop (Z.to_nat length) off 4 length h data.

(** The sum of [generic_fir]. *)
Definition fir_sum (fir hist : list Z) : Z :=
  let sum := s32 ((rd hist 0 + rd hist 8) * rd fir 1) in
  let sum := s32 (sum + (rd hist 1 + rd hist 7) * rd fir 2) in
  let sum := s32 (sum + (rd hist 2 + rd hist 6) * rd fir 3) in
  let sum := s32 (sum + (rd hist 3 + rd hist 5) * rd fir 4) in
  s32 (sum + rd hist 4 * rd fir 5).
Fixpoint fir_loop (n : nat) (off d length : Z) (fir hist data : list Z) : list Z * list Z :=
  match n with
  | O => (hist, data)
  | S n =>
      if negb (d <? length) then (hist, data)
      else
        let temp := rd data (off + d) in
        fir_loop n off (d + 2) length fir (drop 1 hist ++ [temp]) (wr data (off + d) (s16 (fir_sum fir hist >>' 15)))
  end.
Definition generic_fir (off length : Z) (fir hist data : list Z) : list Z * list Z :=
  fir_loop (Z.to_nat length) off 0 length fir hist data.

(** The passes of [fifth_order] over both halves from pass [i] on; the histories of the passes. *)
Fixpoint fifth_passes (n : nat) (i lp_len : Z) (ih qh : list (list Z)) (a : list Z) : list (list Z) * list (list Z) * list Z :=
  match n with
  | O => (ih, qh, a)
  | S n =>
      let k := Z.to_nat i in
      let '(hi, a) := fifth_order 0 (lp_len >>' i) (default [] (ih !! k)) a in
      let '(hq, a) := fifth_order 1 ((lp_len >>' i) - 1) (default [] (qh !! k)) a in
      fifth_passes n (i + 1) lp_len (<[k := hi]> ih) (<[k := hq]> qh) a
  end.

(** ** Demodulation *)

Class Arctan := { libm_atan2 : flt -> flt -> flt; libm_atan : flt -> flt }.

Definition multiply (ar aj br bj : Z) : Z * Z := (s32 (ar * br - aj * bj), s32 (aj * br + ar * bj)).

Definition fast_atan2 (y x : Z) : Z :=
  let pi4 := 1 <<' 12 in
  let pi34 := 3 * (1 <<' 12) in
  if (x =? 0) && (y =? 0) then 0
  else
    let yabs := if y <? 0 then s32 (- y) else y in
    let angle :=
      if 0 <=? x then s32 (pi4 - Z.quot (s32 (pi4 * s32 (x - yabs))) (s32 (x + yabs)))
      else s32 (pi34 - Z.quot (s32 (pi4 * s32 (x + yabs))) (s32 (yabs - x))) in
    if y <? 0 then s32 (- angle) else angle.

Definition polar_disc_fast (ar aj br bj : Z) : Z :=
  let '(cr, cj) := multiply ar aj br (- bj) in fast_atan2 cj cr.

Definition atan_lut_size : Z := 131072.
Definition atan_lut_coef : Z := 8.

Section Angles.
Context `{Arctan}.

(** [3.14159], a literal. *)
Definition almost_pi : flt := f64_lit 314159 100000.

Definition polar_discriminant (ar aj br bj : Z) : Z :=
  let '(cr, cj) := multiply ar aj br (- bj) in
  let angle := libm_atan2 (f64_of_Z cj) (f64_of_Z cr) in
  f_trunc (f64_mul (f64_div angle almost_pi) (f64_of_Z (1 <<' 14))).

(** A cell of the table of [atan_lut_init]. *)
Definition atan_lut (i : Z) : Z :=
  f_trunc (f64_mul (f64_div (libm_atan (f64_div (f64_of_Z i) (f64_of_Z (1 <<' atan_lut_coef)))) almost_pi) (f64_of_Z (1 <<' 14))).

Definition polar_disc_lut (ar aj br bj : Z) : Z :=
  let '(cr, cj) := multiply ar aj br (- bj) in
  if (cr =? 0) && (cj =? 0) then 0
  else if (cr =? 0) && (0 <? cj) then 1 <<' 13
  else if (cr =? 0) && (cj <? 0) then - (1 <<' 13)
  else if (cj =? 0) && (0 <? cr) then 0
  else if (cj =? 0) && (cr <? 0) then 1 <<' 14
  else
    let x := Z.quot (s32 (cj <<' atan_lut_coef)) cr in
    let x_abs := Z.abs x in
    if atan_lut_size <=? x_abs then (if 0 <? cj then 1 <<' 13 else - (1 <<' 13))
    else if 0 <? x then (if 0 <? cj then atan_lut x else atan_lut x - (1 <<' 14))
    else (if 0 <? cj then (1 <<' 14) - atan_lut (- x) else - atan_lut (- x)).

(** [pcm] keeps its value for another [custom_atan]. *)
Definition discriminate (custom_atan pcm ar aj br bj : Z) : Z :=
  if custom_atan =? 0 then polar_discriminant ar aj br bj
  else if custom_atan =? 1 then polar_disc_fast ar aj br bj
  else if custom_atan =? 2 then polar_disc_lut ar aj br bj
  else pcm.

Fixpoint fm_loop (n : nat) (custom_atan lp_len i pcm : Z) (lp result : list Z) : list Z :=
  match n with
  | O => result
  | S n =>
      if negb (i <? lp_len - 1) then result
      else
        let pcm := discriminate custom_atan pcm (rd lp i) (rd lp (i + 1)) (rd lp (i - 2)) (rd lp (i - 1)) in
        fm_loop n custom_atan lp_len (i + 2) pcm lp (wr result (i / 2) (s16 pcm))
  end.
(** The audio samples and the new [pre_r] and [pre_j]. *)
Definition fm_demod (custom_atan lp_len pre_r pre_j : Z) (lp result : list Z) : list Z * Z * Z :=
  let pcm := polar_discriminant (rd lp 0) (rd lp 1) pre_r pre_j in
  (fm_loop (Z.to_nat lp_len) custom_atan lp_len 2 pcm lp (wr result 0 (s16 pcm)), rd lp (lp_len - 2), rd lp (lp_len - 1)).
End Angles.

(** The loop the other modes share: [f] of a sample. *)
Fixpoint mode_loop (n : nat) (f : Z -> Z -> Z) (lp_len i : Z) (lp r : list Z) : list Z :=
  match n with
  | O => r
  | S n =>
      if negb (i <? lp_len) then r
      else mode_loop n f lp_len (i + 2) lp (wr r (i / 2) (f (rd lp i) (rd lp (i + 1))))
  end.
Definition f64_sqrt : flt -> flt := SFsqrt 53 1024.
Definition am_demod (output_scale lp_len : Z) (lp r : list Z) : list Z :=
  mode_loop (Z.to_nat lp_len) (fun i q =>
    let pcm := s32 (s32 (i * i) + s32 (q * q)) in s16 (s16 (f_trunc (f64_sqrt (f64_of_Z pcm))) * output_scale)) lp_len 0 lp r.
Definition usb_demod (output_scale lp_len : Z) (lp r : list Z) : list Z :=
  mode_loop (Z.to_nat lp_len) (fun i q => s16 (s16 (i + q) * output_scale)) lp_len 0 lp r.
Definition lsb_demod (output_scale lp_len : Z) (lp r : list Z) : list Z :=
  mode_loop (Z.to_nat lp_len) (fun i q => s16 (s16 (i - q) * output_scale)) lp_len 0 lp r.
Definition raw_demod (lp_len : Z) (lp r : list Z) : list Z := blit r 0 (take (Z.to_nat lp_len) lp).

(** ** Audio *)

(** The sum of [step] samples from [i] on. *)
Fixpoint step_sum (n : nat) (i : Z) (a : list Z) (sum : Z) : Z :=
  match n with
  | O => sum
  | S n => step_sum n (i + 1) a (s32 (sum + rd a i))
  end.
Fixpoint low_pass_simple_loop (n : nat) (i len step : Z) (a : list Z) : Z * list Z :=
  match n with
  | O => (i, a)
  | S n =>
      if negb (i <? len) then (i, a)
      else low_pass_simple_loop n (i + step) len step (wr a (i / step) (s16 (step_sum (Z.to_nat step) i a 0)))
  end.
Definition low_pass_simple (len step : Z) (a : list Z) : Z * list Z :=
  let '(i, a) := low_pass_simple_loop (Z.to_nat len) 0 len step a in
  (len / step, wr a (i / step + 1) (rd a (i / step))).

Definition deemph_step (deemph_a avg x : Z) : Z :=
  let d := s32 (x - avg) in
  if 0 <? d then s32 (avg + Z.quot (s32 (d + Z.quot deemph_a 2)) deemph_a)
  else s32 (avg + Z.quot (s32 (d - Z.quot deemph_a 2)) deemph_a).
Fixpoint deemph_loop (n : nat) (deemph_a i avg : Z) (a : list Z) : Z * list Z :=
  match n with
  | O => (avg, a)
  | S n => let avg := deemph_step deemph_a avg (rd a i) in deemph_loop n deemph_a (i + 1) avg (wr a i (s16 avg))
  end.
(** Here and in the next two filters [None] is a division by zero, which kills the process. *)
Definition deemph_filter (deemph_a result_len avg : Z) (a : list Z) : option (Z * list Z) :=
  if (0 <? result_len) && (deemph_a =? 0) then None
  else Some (deemph_loop (Z.to_nat result_len) deemph_a 0 avg a).

Fixpoint sub_loop (n : nat) (i avg : Z) (a : list Z) : list Z :=
  match n with
  | O => a
  | S n => sub_loop n (i + 1) avg (wr a i (s16 (rd a i - avg)))
  end.
Definition dc_block_filter (result_len dc_avg : Z) (a : list Z) : option (Z * list Z) :=
  let sum := fold_left (fun s x => s64 (s + x)) (take (Z.to_nat result_len) a) 0 in
  if result_len =? 0 then None
  else
    let avg := s32 (Z.quot sum result_len) in
    let avg := Z.quot (s32 (avg + dc_avg * 9)) 10 in
    Some (avg, sub_loop (Z.to_nat result_len) 0 avg a).

Fixpoint lpr_loop (n : nat) (fast slow result_len i i2 now_lpr prev : Z) (a : list Z) : option (Z * Z * Z * list Z) :=
  match n with
  | O => Some (i2, now_lpr, prev, a)
  | S n =>
      if negb (i <? result_len) then Some (i2, now_lpr, prev, a)
      else
        let now_lpr := s32 (now_lpr + rd a i) in
        let prev := s32 (prev + slow) in
        if prev <? fast then lpr_loop n fast slow result_len (i + 1) i2 now_lpr prev a
        else if Z.quot fast slow =? 0 then None
        else lpr_loop n fast slow result_len (i + 1) (i2 + 1) 0 (s32 (prev - fast)) (wr a i2 (s16 (Z.quot now_lpr (Z.quot fast slow))))
  end.
(** The new [result_len], [now_lpr], [prev_lpr_index] and the array. *)
Definition low_pass_real (rate_out rate_out2 result_len now_lpr prev_lpr_index : Z) (a : list Z) : option (Z * Z * Z * list Z) :=
  lpr_loop (Z.to_nat result_len) rate_out rate_out2 result_len 0 0 now_lpr prev_lpr_index a.

(** [rms] with [step] 1. *)
Definition rms (samples : list Z) (len : Z) : Z :=
  let l := take (Z.to_nat len) samples in
  let t := fold_left (fun t s => s64 (t + s)) l 0 in
  let p := fold_left (fun p s => s64 (p + s * s)) l 0 in
  let dc := f64_div (f64_of_Z t) (f64_of_Z len) in
  let err := f64_sub (f64_mul (f64_of_Z (s64 (t * 2))) dc) (f64_mul (f64_mul dc dc) (f64_of_Z len)) in
  f_trunc (f64_sqrt (f64_div (f64_sub (f64_of_Z p) err) (f64_of_Z len))).

(** ** The demodulator *)

Inductive mode := M_fm | M_raw | M_am | M_usb | M_lsb.
#[export] Instance mode_eq_dec : EqDecision mode.
Proof. solve_decision. Defined.

(** The fields of [demod_state] the options set. *)
Record demod_config := mk_config {
  rate_in : Z; rate_out : Z; rate_out2 : Z;
  downsample : Z; post_downsample : Z; output_scale : Z;
  squelch_level : Z; conseq_squelch : Z;
  downsample_passes : Z; comp_fir_size : Z; custom_atan : Z;
  deemph : bool; deemph_a : Z; dc_block : bool;
  mode_demod : mode;
}.

(** The fields that change with the samples; [deemph_avg] is the static variable of
    [deemph_filter]. *)
Record demod_state := mk_demod {
  lowpassed : list Z; lp_len : Z;
  lp_i_hist : list (list Z); lp_q_hist : list (list Z);
  result : list Z; result_len : Z;
  droop_i_hist : list Z; droop_q_hist : list Z;
  boxed : box; pre_r : Z; pre_j : Z;
  squelch_hits : Z;
  now_lpr : Z; prev_lpr_index : Z;
  dc_avg : Z; deemph_avg : Z;
}.

Section Chain.
Context `{Arctan} (c : demod_config).

(** The head of [full_demod]: decimation of [lowpassed]. *)
Definition decimate (d : demod_state) : demod_state :=
  let ds_p := downsample_passes c in
  if negb (ds_p =? 0) then
    let '(ih, qh, a) := fifth_passes (Z.to_nat ds_p) 0 (lp_len d) (lp_i_hist d) (lp_q_hist d) (lowpassed d) in
    let len := lp_len d >>' ds_p in
    if (comp_fir_size c =? 9) && (ds_p <=? CIC_TABLE_MAX) then
      let fir := default [] (cic_9_tables !! Z.to_nat ds_p) in
      let '(di, a) := generic_fir 0 len fir (droop_i_hist d) a in
      let '(dq, a) := generic_fir 1 (len - 1) fir (droop_q_hist d) a in
      mk_demod a len ih qh (result d) (result_len d) di dq (boxed d) (pre_r d) (pre_j d) (squelch_hits d)
        (now_lpr d) (prev_lpr_index d) (dc_avg d) (deemph_avg d)
    else
      mk_demod a len ih qh (result d) (result_len d) (droop_i_hist d) (droop_q_hist d) (boxed d) (pre_r d) (pre_j d)
        (squelch_hits d) (now_lpr d) (prev_lpr_index d) (dc_avg d) (deemph_avg d)
  else
    let '(len, b, a) := low_pass (downsample c) (lp_len d) (boxed d) (lowpassed d) in
    mk_demod a len (lp_i_hist d) (lp_q_hist d) (result d) (result_len d) (droop_i_hist d) (droop_q_hist d) b
      (pre_r d) (pre_j d) (squelch_hits d) (now_lpr d) (prev_lpr_index d) (dc_avg d) (deemph_avg d).

(** The power squelch. *)
Definition squelch (d : demod_state) : demod_state :=
  if squelch_level c =? 0 then d
  else
    let low := rms (lowpassed d) (lp_len d) <? squelch_level c in
    let a := if low then blit (lowpassed d) 0 (replicate (Z.to_nat (lp_len d)) 0) else lowpassed d in
    mk_demod a (lp_len d) (lp_i_hist d) (lp_q_hist d) (result d) (result_len d) (droop_i_hist d) (droop_q_hist d) (boxed d)
      (pre_r d) (pre_j d) (if low then s32 (squelch_hits d + 1) else 0) (now_lpr d) (prev_lpr_index d) (dc_avg d) (deemph_avg d).

Definition set_result (r : list Z) (len : Z) (d : demod_state) : demod_state :=
  mk_demod (lowpassed d) (lp_len d) (lp_i_hist d) (lp_q_hist d) r len (droop_i_hist d) (droop_q_hist d) (boxed d)
    (pre_r d) (pre_j d) (squelch_hits d) (now_lpr d) (prev_lpr_index d) (dc_avg d) (deemph_avg d).

(** [mode_demod]. *)
Definition demodulate (d : demod_state) : demod_state :=
  match mode_demod c with
  | M_fm =>
      let '(r, pr, pj) := fm_demod (custom_atan c) (lp_len d) (pre_r d) (pre_j d) (lowpassed d) (result d) in
      mk_demod (lowpassed d) (lp_len d) (lp_i_hist d) (lp_q_hist d) r (Z.quot (lp_len d) 2) (droop_i_hist d) (droop_q_hist d)
        (boxed d) pr pj (squelch_hits d) (now_lpr d) (prev_lpr_index d) (dc_avg d) (deemph_avg d)
  | M_raw => set_result (raw_demod (lp_len d) (lowpassed d) (result d)) (lp_len d) d
  | M_am => set_result (am_demod (output_scale c) (lp_len d) (lowpassed d) (result d)) (Z.quot (lp_len d) 2) d
  | M_usb => set_result (usb_demod (output_scale c) (lp_len d) (lowpassed d) (result d)) (Z.quot (lp_len d) 2) d
  | M_lsb => set_result (lsb_demod (output_scale c) (lp_len d) (lowpassed d) (result d)) (Z.quot (lp_len d) 2) d
  end.

(** The filters behind the demodulator. *)
Definition audio (d : demod_state) : option demod_state :=
  let d :=
    if 1 <? post_downsample c
    then let '(len, r) := low_pass_simple (result_len d) (post_downsample c) (result d) in set_result r len d else d in
  d ← (if deemph c
       then
         '(avg, r) ← deemph_filter (deemph_a c) (result_len d) (deemph_avg d) (result d);
         Some (mk_demod (lowpassed d) (lp_len d) (lp_i_hist d) (lp_q_hist d) r (result_len d) (droop_i_hist d) (droop_q_hist d) (boxed d)
           (pre_r d) (pre_j d) (squelch_hits d) (now_lpr d) (prev_lpr_index d) (dc_avg d) avg)
       else Some d);
  d ← (if dc_block c
       then
         '(avg, r) ← dc_block_filter (result_len d) (dc_avg d) (result d);
         Some (mk_demod (lowpassed d) (lp_len d) (lp_i_hist d) (lp_q_hist d) r (result_len d) (droop_i_hist d) (droop_q_hist d) (boxed d)
           (pre_r d) (pre_j d) (squelch_hits d) (now_lpr d) (prev_lpr_index d) avg (deemph_avg d))
       else Some d);
  if 0 <? rate_out2 c
  then
    '(len, lpr, prev, r) ← low_pass_real (rate_out c) (rate_out2 c) (result_len d) (now_lpr d) (prev_lpr_index d) (result d);
    Some (mk_demod (lowpassed d) (lp_len d) (lp_i_hist d) (lp_q_hist d) r len (droop_i_hist d) (droop_q_hist d) (boxed d)
      (pre_r d) (pre_j d) (squelch_hits d) lpr prev (dc_avg d) (deemph_avg d))
  else Some d.

Definition full_demod (d : demod_state) : option demod_state :=
  let d := demodulate (squelch (decimate d)) in
  if bool_decide (mode_demod c = M_raw) then Some d else audio d.

(** One round of [demod_thread_fn] behind the wait: the state, what is handed to the output
    thread, and whether the controller is told to hop. *)
Definition demod_round (d : demod_state) : option (demod_state * option (list Z) * bool) :=
  d ← full_demod d;
  Some (if negb (squelch_level c =? 0) && (conseq_squelch c <? squelch_hits d) then
    (mk_demod (lowpassed d) (lp_len d) (lp_i_hist d) (lp_q_hist d) (result d) (result_len d) (droop_i_hist d) (droop_q_hist d)
       (boxed d) (pre_r d) (pre_j d) (conseq_squelch c + 1) (now_lpr d) (prev_lpr_index d) (dc_avg d) (deemph_avg d), None, true)
  else (d, Some (take (Z.to_nat (result_len d)) (result d)), false)).
End Chain.

(** [rtlsdr_callback]: the samples of a buffer, in [lowpassed]. *)
Definition callback_samples (offset_tuning : bool) (mute : Z) (buf : list Z) : list Z :=
  let buf := blit buf 0 (replicate (Z.to_nat mute) 127) in
  let buf := if offset_tuning then buf else rotate_90 buf (zlen buf) in
  (fun b => s16 (b - 127)) <$> buf.
Definition rtlsdr_callback (offset_tuning : bool) (mute : Z) (buf : list Z) (d : demod_state) : demod_state :=
  mk_demod (blit (lowpassed d) 0 (callback_samples offset_tuning mute buf)) (zlen buf) (lp_i_hist d) (lp_q_hist d) (result d)
    (result_len d) (droop_i_hist d) (droop_q_hist d) (boxed d) (pre_r d) (pre_j d) (squelch_hits d) (now_lpr d)
    (prev_lpr_index d) (dc_avg d) (deemph_avg d).

(** ** Settings *)

(** [optimal_settings]: the configuration with its decimation, the frequency and the rate of the
    dongle. *)
Definition optimal_settings (freq : Z) (offset_tuning : bool) (edge : Z) (c : demod_config) : demod_config * Z * Z :=
  let ds := s32 (Z.quot 1000000 (rate_in c) + 1) in
  let passes := if downsample_passes c =? 0 then 0 else Z.log2 ds + 1 in
  let ds := if downsample_passes c =? 0 then ds else s32 (1 <<' passes) in
  let capture_rate := s32 (ds * rate_in c) in
  let capture_freq := if offset_tuning then freq else s32 (freq + Z.quot capture_rate 4) in
  let capture_freq := s32 (capture_freq + Z.quot (s32 (edge * rate_in c)) 2) in
  let scale := Z.quot (1 <<' 15) (s32 (128 * ds)) in
  let scale := if scale <? 1 then 1 else scale in
  let scale := if bool_decide (mode_demod c = M_fm) then 1 else scale in
  (mk_config (rate_in c) (rate_out c) (rate_out2 c) ds (post_downsample c) scale (squelch_level c) (conseq_squelch c)
     (if downsample_passes c =? 0 then downsample_passes c else passes) (comp_fir_size c) (custom_atan c) (deemph c) (deemph_a c)
     (dc_block c) (mode_demod c),
   u32 capture_freq, u32 capture_rate).

(** [controller_state]. *)
Record controller_state := mk_controller { freqs : list Z; freq_len : Z; freq_now : Z; edge : Z; wb_mode : bool }.

(** What is stored at the end of [freqs]. *)
Definition add_freq (f : Z) (s : controller_state) : controller_state :=
  mk_controller (wr (freqs s) (freq_len s) (u32 f)) (freq_len s + 1) (freq_now s) (edge s) (wb_mode s).
(** The loop of [frequency_range] from [i] on. *)
Fixpoint range_loop (n : nat) (i stop step : Z) (s : controller_state) : controller_state :=
  match n with
  | O => s
  | S n =>
      if negb (i <=? stop) then s
      else
        let s := add_freq i s in
        if FREQUENCIES_LIMIT <=? freq_len s then s else range_loop n (s32 (i + step)) stop step s
  end.
(** The parts of the argument as numbers: start, or start and stop, or start, stop and step. *)
Inductive freq_arg := F_one (start : Z) | F_two (start stop : Z) | F_range (start stop step : Z).
Definition frequency_range (a : freq_arg) (s : controller_state) : controller_state :=
  match a with
  | F_one start => add_freq start s
  | F_two start stop => add_freq stop (add_freq start s)
  | F_range start stop step => range_loop (Z.to_nat FREQUENCIES_LIMIT) start stop step s
  end.
(** The option [-f]. *)
Definition option_f (a : freq_arg) (s : controller_state) : controller_state :=
  if FREQUENCIES_LIMIT <=? freq_len s then s else frequency_range a s.

Definition controller_init (s : controller_state) : controller_state := mk_controller (wr (freqs s) 0 100000000) 0 (freq_now s) 0 false.

(** [sanity_checks]: whether the program goes on. *)
Definition sanity_checks (s : controller_state) (squelch_level : Z) : bool :=
  negb (freq_len s =? 0) && negb (FREQUENCIES_LIMIT <=? freq_len s) && negb ((1 <? freq_len s) && (squelch_level =? 0)).

(** The head of [controller_thread_fn]. *)
Definition controller_start (s : controller_state) : controller_state :=
  if wb_mode s
  then mk_controller (((fun f => u32 (f + 16000)) <$> take (Z.to_nat (freq_len s)) (freqs s)) ++ drop (Z.to_nat (freq_len s)) (freqs s))
         (freq_len s) (freq_now s) (edge s) (wb_mode s)
  else s.
(** A round of [controller_thread_fn]: the frequency to tune to next. *)
Definition controller_hop (s : controller_state) : controller_state * option Z :=
  if freq_len s <=? 1 then (s, None)
  else
    let now := Z.rem (freq_now s + 1) (freq_len s) in
    (mk_controller (freqs s) (freq_len s) now (edge s) (wb_mode s), Some (rd (freqs s) now)).

Definition demod_init (result lowpassed : list Z) : demod_config * demod_state :=
  (mk_config DEFAULT_SAMPLE_RATE DEFAULT_SAMPLE_RATE (-1) 0 1 0 0 10 0 0 0 false 0 false M_fm,
   mk_demod lowpassed 0 (replicate 10 (replicate 6 0)) (replicate 10 (replicate 6 0)) result 0 (replicate 9 0) (replicate 9 0)
     (mk_box 0 0 0) 0 0 11 0 0 0 0).

End Fm.
