(* ===== verification/RtlFmProps.v ===== *)
(** * The signal chain of the FM demodulator

    What the routines of [RtlFm.v] compute: the square window is a sum of consecutive samples
    however the stream is cut into buffers ([Boxcar]); the half-band filter in place is the one
    of its windows ([Fifth]); the integer arc tangent is in the right octant where it does not
    overflow ([Atan]); the rate of the dongle is one the library accepts ([Rates]);
    types and bounds hold along the whole chain ([Typed]). *)

From S2P Require Import Prelude Float I2c Usb TunerR82xx TunerFc TunerE4k TunerFc2580 Librtlsdr RtlFm.

(** ** The square window *)

Module Boxcar.
Import Fm.

(** Samples as they are in the arrays. *)
Definition interleave (l : list (Z * Z)) : list Z := flat_map (fun s => [s.1; s.2]) l.

(** The samples of a buffer of bytes are small. *)
Definition small (s : Z * Z) : Prop := -128 <= s.1 <= 128 /\ -128 <= s.2 <= 128.

(** The sums of consecutive groups of [ds] samples, [p] of them already in [r] and [j]; and what
    is left. *)
Fixpoint sums (ds p r j : Z) (l : list (Z * Z)) : list (Z * Z) * box :=
  match l with
  | [] => ([], mk_box r j p)
  | (x, y) :: l =>
      if p + 1 <? ds then sums ds (p + 1) (r + x) (j + y) l
      else let '(out, b) := sums ds 0 0 0 l in ((r + x, j + y) :: out, b)
  end.

(** The sums are those of [p] samples. *)
Definition box_ok (ds : Z) (b : box) : Prop :=
  0 <= prev_index b < ds /\ Z.abs (now_r b) <= 128 * prev_index b /\ Z.abs (now_j b) <= 128 * prev_index b.

Lemma sums_app ds p r j l k :
  sums ds p r j (l ++ k) =
  let '(o1, b1) := sums ds p r j l in let '(o2, b2) := sums ds (prev_index b1) (now_r b1) (now_j b1) k in (o1 ++ o2, b2).
Proof.
  revert p r j; induction l as [|[x y] l IH]; intros p r j; cbn [sums app].
  { cbn [prev_index now_r now_j]. by destruct (sums ds p r j k). }
  destruct (p + 1 <? ds); [apply IH|]. rewrite IH. destruct (sums ds 0 0 0 l) as [o1 b1].
  by destruct (sums ds (prev_index b1) (now_r b1) (now_j b1) k).
Qed.

Lemma sums_ok ds l : forall p r j, Forall small l -> box_ok ds (mk_box r j p) -> box_ok ds (sums ds p r j l).2.
Proof.
  induction l as [|[x y] l IH]; intros p r j Hl Hb; cbn [sums]; [done|]. apply Forall_cons_iff in Hl as [[Hx Hy] Hl].
  unfold box_ok in Hb. cbn [prev_index now_r now_j fst snd] in *. destruct (Z.ltb_spec (p + 1) ds).
  - apply IH; [done|]. unfold box_ok. cbn [prev_index now_r now_j]. lia.
  - assert (H0 : box_ok ds (mk_box 0 0 0)) by (unfold box_ok; cbn [prev_index now_r now_j]; lia).
    specialize (IH 0 0 0 Hl H0). by destruct (sums ds 0 0 0 l).
Qed.

Lemma length_interleave l : length (interleave l) = (2 * length l)%nat.
Proof. induction l as [|s l IH]; [done|]. unfold interleave in *. cbn [flat_map app length]. lia. Qed.

(** The samples are in the array from [i] on. *)
Definition samples_at (a : list Z) (i : Z) (l : list (Z * Z)) : Prop :=
  forall k s, l !! k = Some s -> rd a (i + 2 * Z.of_nat k) = s.1 /\ rd a (i + 2 * Z.of_nat k + 1) = s.2.

Lemma samples_at_cons a i s l : samples_at a i (s :: l) <-> (rd a i = s.1 /\ rd a (i + 1) = s.2) /\ samples_at a (i + 2) l.
Proof.
  split.
  - intros H. split; [pose proof (H 0%nat s eq_refl) as H0; by rewrite Z.add_0_r in H0|]. intros k t Hk.
    replace (i + 2 + 2 * Z.of_nat k) with (i + 2 * Z.of_nat (S k)) by lia. by apply H.
  - intros [H0 H] [|k] t Hk; cbn in Hk.
    + injection Hk as <-. by rewrite Z.add_0_r.
    + replace (i + 2 * Z.of_nat (S k)) with (i + 2 + 2 * Z.of_nat k) by lia. by apply H.
Qed.

Lemma samples_at_ext a a' i l : (forall x, i <= x < i + 2 * zlen l -> rd a' x = rd a x) -> samples_at a i l -> samples_at a' i l.
Proof.
  intros He H k s Hk. assert (k < length l)%nat by (by apply lookup_lt_Some in Hk). unfold zlen in He.
  rewrite !He by lia. by apply H.
Qed.

Lemma zlen_cons {A} (x : A) l : zlen (x :: l) = 1 + zlen l.
Proof. unfold zlen. cbn [length]. lia. Qed.

Lemma low_pass_loop_sums ds l : 1 <= ds <= 255 -> Forall small l -> forall n i i2 b a,
  (length l <= n)%nat -> 0 <= i2 <= i -> box_ok ds b -> i + 2 * zlen l <= zlen a -> samples_at a i l ->
  let '(out, b') := sums ds (prev_index b) (now_r b) (now_j b) l in
  exists a', low_pass_loop n ds (i + 2 * zlen l) i i2 b a = (i2 + 2 * zlen out, b', a') /\
    zlen a' = zlen a /\ samples_at a' i2 out /\ (zlen out <= zlen l) /\
    (forall x, 0 <= x -> x < i2 \/ i2 + 2 * zlen out <= x -> rd a' x = rd a x).
Proof.
  intros Hds Hl. induction Hl as [|[x y] l [Hx Hy] Hl IH]; intros n i i2 b a Hn Hi Hb Hz Ha.
  { cbn [sums]. change (zlen []) with 0. rewrite !Z.mul_0_r, !Z.add_0_r. exists a. split_and!; try done.
    destruct b. destruct n; cbn [low_pass_loop]; [done|]. by rewrite Z.ltb_irrefl. }
  rewrite zlen_cons in *. pose proof (zlen_nonneg l) as Hl0. apply samples_at_cons in Ha as [[H0 H1] Ha]. cbn [fst snd] in *.
  destruct n as [|n]; cbn [length] in Hn; [lia|]. cbn [low_pass_loop].
  destruct (Z.ltb_spec i (i + 2 * (1 + zlen l))); [|lia]. cbn [negb]. rewrite H0, H1.
  destruct Hb as (Hp & Hr & Hj). rewrite (s32_id (now_r b + x)), (s32_id (now_j b + y)), (s32_id (prev_index b + 1)) by clia.
  replace (i + 2 * (1 + zlen l)) with (i + 2 + 2 * zlen l) in * by lia. cbn [sums].
  destruct (Z.ltb_spec (prev_index b + 1) ds).
  - specialize (IH n (i + 2) i2 (mk_box (now_r b + x) (now_j b + y) (prev_index b + 1)) a). cbn [prev_index now_r now_j] in IH.
    destruct (sums ds (prev_index b + 1) (now_r b + x) (now_j b + y) l) as [out b'].
    destruct IH as (a' & E & Hza & Hs & Hlen & Hk); [lia|lia|unfold box_ok; cbn [prev_index now_r now_j]; lia|lia|done|].
    exists a'. split_and!; try done. lia.
  - rewrite (s16_id (now_r b + x)), (s16_id (now_j b + y)) by clia. set (a1 := wr (wr a i2 _) _ _).
    assert (Hz1 : zlen a1 = zlen a) by (unfold a1; by rewrite !zlen_wr).
    specialize (IH n (i + 2) (i2 + 2) (mk_box 0 0 0) a1). cbn [prev_index now_r now_j] in IH.
    destruct (sums ds 0 0 0 l) as [out b'].
    destruct IH as (a' & E & Hza & Hs & Hlen & Hk); [lia|lia|unfold box_ok; cbn [prev_index now_r now_j]; lia|lia| |].
    { apply (samples_at_ext a); [|done]. intros k Hk. unfold a1. by rewrite !rd_wr_ne by lia. }
    exists a'. rewrite zlen_cons. pose proof (zlen_nonneg out). split_and!; [rewrite E; do 2 f_equal; lia|lia| |lia|].
    + apply samples_at_cons. split; [|done]. rewrite !Hk by lia. unfold a1. cbn [fst snd].
      split; [rewrite rd_wr_ne by lia|]; by rewrite rd_wr_eq by (rewrite ?zlen_wr; lia).
    + intros k Hk0 Hor. rewrite Hk by lia. unfold a1. by rewrite !rd_wr_ne by lia.
Qed.

(** Buffers one after the other: the samples each call leaves in its array. *)
Definition samples_of (a : list Z) (len : Z) : list (Z * Z) :=
  (fun k => (rd a (2 * k), rd a (2 * k + 1))) <$> seqZ 0 (len / 2).
Fixpoint feed (ds : Z) (b : box) (blocks : list (list Z)) : list (Z * Z) * box :=
  match blocks with
  | [] => ([], b)
  | a :: blocks =>
      let '(len, b, a') := low_pass ds (zlen a) b a in
      let '(out, b) := feed ds b blocks in (samples_of a' len ++ out, b)
  end.

Lemma samples_of_at a l : samples_at a 0 l -> samples_of a (2 * zlen l) = l.
Proof.
  intros H. unfold samples_of. replace (2 * zlen l / 2) with (zlen l) by (Z.div_mod_to_equations; lia).
  apply list_eq. intros k. destruct (l !! k) as [s|] eqn:E.
  - destruct (H k s E) as [H0 H1]. assert (k < length l)%nat by (by apply lookup_lt_Some in E).
    rewrite list_lookup_fmap, lookup_seqZ_lt by (unfold zlen; lia). cbn. rewrite !Z.add_0_l in *. rewrite H0, H1. by destruct s.
  - apply lookup_ge_None in E. apply lookup_ge_None. rewrite length_fmap, length_seqZ. unfold zlen. lia.
Qed.

Lemma interleave_at l : samples_at (interleave l) 0 l.
Proof.
  induction l as [|s l IH]; [intros k t Hk; by rewrite lookup_nil in Hk|]. apply samples_at_cons. split; [done|].
  intros k t Hk. destruct (IH k t Hk) as [H0 H1]. change (interleave (s :: l)) with ([s.1; s.2] ++ interleave l).
  replace (0 + 2 + 2 * Z.of_nat k) with (zlen [s.1; s.2] + 2 * Z.of_nat k) by done. rewrite <- Z.add_assoc, !rd_app_at by lia.
  by rewrite !Z.add_0_l in *.
Qed.

(** The square window filter sums consecutive groups of [downsample] samples, however the
    stream is cut into buffers: after any buffers the outputs are exactly the sums of the
    complete groups of all samples so far, and what is left over is kept for the next buffer.
    With at most 255 samples in a group nothing overflows, neither the sums nor the 16-bit
    cells they are stored in. *)
Theorem fm_boxcar_stream ds blocks b :
  1 <= ds <= 255 -> box_ok ds b -> Forall (Forall small) blocks ->
  feed ds b (interleave <$> blocks) = sums ds (prev_index b) (now_r b) (now_j b) (concat blocks) /\
  box_ok ds (feed ds b (interleave <$> blocks)).2.
Proof.
  intros Hds Hb Hbl. revert b Hb. induction Hbl as [|l blocks Hl _ IH]; intros b Hb; cbn [fmap list_fmap feed concat].
  { destruct b. by split. }
  assert (Ez : zlen (interleave l) = 0 + 2 * zlen l) by (unfold zlen; rewrite length_interleave; lia).
  pose proof (low_pass_loop_sums ds l Hds Hl (Z.to_nat (zlen (interleave l))) 0 0 b (interleave l)) as H.
  pose proof (sums_ok ds l (prev_index b) (now_r b) (now_j b) Hl) as Hok. rewrite sums_app. unfold low_pass.
  destruct (sums ds (prev_index b) (now_r b) (now_j b) l) as [o1 b1]. cbn [snd] in Hok.
  destruct H as (a' & E & _ & Hs & _); [unfold zlen in *; lia|lia|done|lia|apply interleave_at|]. rewrite <- Ez in E. rewrite E.
  rewrite Z.add_0_l, samples_of_at by done. specialize (Hok ltac:(by destruct b)). destruct (IH b1 Hok) as [Ef Ho].
  rewrite Ef in *. by destruct (sums ds (prev_index b1) (now_r b1) (now_j b1) (concat blocks)).
Qed.

Lemma fm_boxcar_stream_witness :
  feed 3 (mk_box 0 0 0) (interleave <$> [[(1, -1); (2, 5)]; [(100, 128); (-127, 0); (7, 7)]]) = ([(103, 132)], mk_box (-120) 7 2).
Proof.
  destruct (fm_boxcar_stream 3 [[(1, -1); (2, 5)]; [(100, 128); (-127, 0); (7, 7)]] (mk_box 0 0 0)) as [-> _].
  - lia.
  - unfold box_ok. cbn. lia.
  - repeat constructor; cbn; lia.
  - vm_compute. reflexivity.
Defined.

(** With 256 samples of the largest value the sum does not fit: the comment at [downsample] has
    256 as its maximum. *)
Lemma boxcar_256 : (feed 256 (mk_box 0 0 0) [interleave (replicate 256 (128, 0))]).1 = [(-32768, 0)].
Proof. vm_compute. reflexivity. Qed.

End Boxcar.

(** ** The half-band filter *)

Module Fifth.
Import Fm.

(** The stream a call sees: five samples of its history, then those of its half of the array. *)
Definition ext (off : Z) (hist data : list Z) (j : Z) : Z := if j <? 5 then rd hist (j + 1) else rd data (off + 2 * (j - 5)).
(** The window of output [k], the samples up to number [2 k]. *)
Definition window (off : Z) (hist data : list Z) (k : Z) : list Z := (fun j => ext off hist data (2 * k + j)) <$> seqZ 0 6.
Definition fifth6 (w : list Z) : Z := fifth (rd w 0) (rd w 1) (rd w 2) (rd w 3) (rd w 4) (rd w 5).

Lemma window_next off hist data k a : 1 <= k ->
  rd a (off + (4 * k - 2)) = rd data (off + (4 * k - 2)) -> rd a (off + 4 * k) = rd data (off + 4 * k) ->
  let h := window off hist data (k - 1) in
  [rd h 2; rd h 3; rd h 4; rd h 5; rd a (off + (4 * k - 2)); rd a (off + 4 * k)] = window off hist data k.
Proof.
  intros Hk E1 E2 h. rewrite E1, E2.
  assert (Eh : forall j, 0 <= j < 4 -> rd h (j + 2) = ext off hist data (2 * k + j)).
  { intros j Hj. unfold h, window, rd. destruct (Z.ltb_spec (j + 2) 0); [lia|].
    rewrite list_lookup_fmap, lookup_seqZ_lt by lia. cbn [fmap option_fmap option_map default from_option id]. f_equal. lia. }
  pose proof (Eh 0 ltac:(lia)) as H0. pose proof (Eh 1 ltac:(lia)) as H1. pose proof (Eh 2 ltac:(lia)) as H2. pose proof (Eh 3 ltac:(lia)) as H3.
  change (0 + 2) with 2 in H0. change (1 + 2) with 3 in H1. change (2 + 2) with 4 in H2. change (3 + 2) with 5 in H3. rewrite H0, H1, H2, H3. unfold window. change (seqZ 0 6) with [0; 1; 2; 3; 4; 5].
  cbn [fmap list_fmap].
  assert (E4 : rd data (off + (4 * k - 2)) = ext off hist data (2 * k + 4)) by (unfold ext; destruct (Z.ltb_spec (2 * k + 4) 5); [lia|]; f_equal; lia).
  assert (E5 : rd data (off + 4 * k) = ext off hist data (2 * k + 5)) by (unfold ext; destruct (Z.ltb_spec (2 * k + 5) 5); [lia|]; f_equal; lia).
  by rewrite E4, E5.
Qed.

Lemma fifth_loop_windows off hist data m L : 0 <= off -> 1 <= m -> 4 * (m - 1) < L <= 4 * m -> off + 4 * m - 2 < zlen data + 2 ->
  forall n k a, 1 <= k <= m -> m - k <= Z.of_nat n -> zlen a = zlen data ->
  (forall x, 0 <= x -> off + 2 * (k - 1) < x -> rd a x = rd data x) ->
  exists a', fifth_loop n off (4 * k) L (window off hist data (k - 1)) a = (window off hist data (m - 1), a') /\ zlen a' = zlen data /\
    (forall j, k <= j < m -> rd a' (off + 2 * j) = fifth6 (window off hist data j)) /\
    (forall x, 0 <= x -> (forall j, k <= j < m -> x <> off + 2 * j) -> rd a' x = rd a x).
Proof.
  intros Ho Hm HL Hz. induction n as [|n IH]; intros k a Hk Hn Hza Ha.
  { assert (k = m) as -> by lia. cbn [fifth_loop]. exists a. split_and!; try done. intros; lia. }
  cbn [fifth_loop]. destruct (Z.ltb_spec (4 * k) L) as [Hlt|Hge]; cbn [negb].
  2:{ assert (k = m) as -> by lia. exists a. split_and!; try done. intros; lia. }
  rewrite (window_next off hist data k a) by (try apply Ha; lia). fold (fifth6 (window off hist data k)).
  replace (off + 4 * k / 2) with (off + 2 * k) by (Z.div_mod_to_equations; lia). replace (4 * k + 4) with (4 * (k + 1)) by lia.
  destruct (IH (k + 1) (wr a (off + 2 * k) (fifth6 (window off hist data k)))) as (a' & E & Hz' & Hw & Hr); [lia|lia|by rewrite zlen_wr| |].
  { intros x Hx Hlt'. rewrite rd_wr_ne by lia. apply Ha; lia. }
  replace (k + 1 - 1) with k in E by lia. exists a'. split_and!; [exact E|done| |].
  - intros j Hj. destruct (decide (j = k)) as [->|]; [|apply Hw; lia]. rewrite Hr by lia. apply rd_wr_eq. lia.
  - intros x Hx Hne. rewrite Hr by (try lia; intros j Hj; apply Hne; lia). apply rd_wr_ne; [lia|lia|]. specialize (Hne k). lia.
Qed.

Lemma fifth_small a b c d e f B : 0 <= B <= 16383 -> Z.abs a <= B -> Z.abs b <= B -> Z.abs c <= B -> Z.abs d <= B -> Z.abs e <= B -> Z.abs f <= B ->
  fifth a b c d e f = (a + 5 * b + 10 * c + 10 * d + 5 * e + f) / 16 /\ Z.abs (fifth a b c d e f) <= 2 * B.
Proof.
  intros. unfold fifth. rewrite Z.shiftr_div_pow2 by lia. change (2 ^ 4) with 16.
  replace (a + (b + e) * 5 + (c + d) * 10 + f) with (a + 5 * b + 10 * c + 10 * d + 5 * e + f) by lia.
  assert (Hr : - (2 * B) <= (a + 5 * b + 10 * c + 10 * d + 5 * e + f) / 16 <= 2 * B) by (Z.div_mod_to_equations; lia).
  rewrite s16_id by (unfold is_s; change (2 ^ (16 - 1)) with 32768; lia). lia.
Qed.

(** The half-band filter works in place on one half of the interleaved samples and computes
    its windows: with [2 m] samples in the half, cell [k < m] gets the weights 1, 5, 10, 10, 5, 1
    of the six samples up to number [2 k], those before the first from the history, although the
    results overwrite the samples; the other half and the rest of the array are as before, and
    the history is the last window.  With samples up to 16383 the result is the exact sum over
    16, rounded down, and at most twice as large. *)
Theorem fm_halfband_reference off m L hist data :
  0 <= off -> 1 <= m -> L = 4 * m \/ L = 4 * m - 1 -> off + 4 * m - 2 < zlen data ->
  exists h' data', fifth_order off L hist data = (h', data') /\ zlen data' = zlen data /\ h' = window off hist data (m - 1) /\
    (forall k, 0 <= k < m -> rd data' (off + 2 * k) = fifth6 (window off hist data k)) /\
    (forall x, 0 <= x -> (forall k, 0 <= k < m -> x <> off + 2 * k) -> rd data' x = rd data x) /\
    (forall B k, 0 <= B <= 16383 -> 0 <= k < m -> (forall j, 2 * k <= j < 2 * k + 6 -> Z.abs (ext off hist data j) <= B) ->
       let e := ext off hist data in
       rd data' (off + 2 * k) =
         (e (2 * k) + 5 * e (2 * k + 1) + 10 * e (2 * k + 2) + 10 * e (2 * k + 3) + 5 * e (2 * k + 4) + e (2 * k + 5)) / 16 /\
       Z.abs (rd data' (off + 2 * k)) <= 2 * B).
Proof.
  intros Ho Hm HL Hz. unfold fifth_order.
  assert (E0 : [rd hist 1; rd hist 2; rd hist 3; rd hist 4; rd hist 5; rd data off] = window off hist data 0).
  { unfold window. change (seqZ 0 6) with [0; 1; 2; 3; 4; 5]. cbn [fmap list_fmap]. unfold ext. replace (rd data off) with (rd data (off + 0)) by (f_equal; lia). reflexivity. }
  rewrite E0. fold (fifth6 (window off hist data 0)).
  destruct (fifth_loop_windows off hist data m L) with (n := Z.to_nat L) (k := 1) (a := wr data off (fifth6 (window off hist data 0)))
    as (a' & E & Hz' & Hw & Hr); [lia|lia|lia|lia|lia|lia|by rewrite zlen_wr| |].
  { intros x Hx Hlt. apply rd_wr_ne; lia. }
  change (4 * 1) with 4 in E. change (1 - 1) with 0 in E. eexists _, a'. split; [exact E|].
  assert (Hcell : forall k, 0 <= k < m -> rd a' (off + 2 * k) = fifth6 (window off hist data k)).
  { intros k Hk. destruct (decide (k = 0)) as [->|]; [|apply Hw; lia]. rewrite Hr by lia. replace (off + 2 * 0) with off by lia.
    apply rd_wr_eq. lia. }
  split; [done|]. split; [done|]. split; [done|]. split.
  - intros x Hx Hne. rewrite Hr by (try lia; intros j Hj; apply Hne; lia). apply rd_wr_ne; [lia|lia|]. specialize (Hne 0). lia.
  - intros B k HB Hk Hb. cbn zeta. rewrite Hcell by done.
    unfold fifth6, window. change (seqZ 0 6) with [0; 1; 2; 3; 4; 5]. cbn [fmap list_fmap]. unfold rd. cbn.
    rewrite Z.add_0_r. apply fifth_small; [done|..]; apply Hb; lia.
Qed.

Lemma fm_halfband_reference_witness :
  exists h' data', fifth_order 0 8 [0; 0; 0; 0; 0; 0] [100; 7; 100; 7; 100; 7; 100; 7] = (h', data') /\
    rd data' 0 = 6 /\ rd data' 2 = 100 /\ rd data' 1 = 7 /\ rd data' 4 = 100.
Proof.
  destruct (fm_halfband_reference 0 2 8 [0; 0; 0; 0; 0; 0] [100; 7; 100; 7; 100; 7; 100; 7]) as (h' & d' & E & _ & _ & Hc & Hk & _).
  - lia.
  - lia.
  - by left.
  - vm_compute. reflexivity.
  - exists h', d'. split; [exact E|]. pose proof (Hc 0 ltac:(lia)) as C0. pose proof (Hc 1 ltac:(lia)) as C1.
    pose proof (Hk 1 ltac:(lia) ltac:(lia)) as K1. pose proof (Hk 4 ltac:(lia) ltac:(lia)) as K4.
    split_and!; [etransitivity; [exact C0|]|etransitivity; [exact C1|]|etransitivity; [exact K1|]|etransitivity; [exact K4|]]; vm_compute; reflexivity.
Defined.

(** The last sample of a buffer is not in the history: an impulse there is lost, while the same
    impulse one sample earlier is not. *)
Lemma last_sample_lost :
  let filter data hist := fifth_order 0 8 hist data in
  let '(h, d) := filter [0; 0; 0; 0; 0; 0; 1000; 0] (replicate 6 0) in
  (forall x, In x [0; 2] -> rd d x = 0) /\ h = replicate 6 0 /\
  let '(h', _) := filter [0; 0; 0; 0; 1000; 0; 0; 0] (replicate 6 0) in h' = [0; 0; 0; 0; 0; 1000].
Proof. vm_compute. split_and!; try reflexivity. intros x [<-|[<-|[]]]; reflexivity. Qed.

End Fifth.

(** ** The integer arc tangent *)

Module Atan.
Import Fm.

(** Where nothing overflows: the formula. *)
Lemma fast_atan2_formula y x : Z.abs x + Z.abs y < 2 ^ 19 -> (x <> 0 \/ y <> 0) -> 0 <= y ->
  fast_atan2 y x = if 0 <=? x then 4096 - Z.quot (4096 * (x - y)) (x + y) else 12288 - Z.quot (4096 * (x + y)) (y - x).
Proof.
  intros Hs Hne Hy. change (2 ^ 19) with 524288 in Hs. unfold fast_atan2. change (1 <<' 12) with 4096. change (3 * 4096) with 12288.
  assert (E : (x =? 0) && (y =? 0) = false) by lia. rewrite E. clear E.
  destruct (Z.ltb_spec y 0); [lia|]. unfold s32. change (2 ^ 31) with 2147483648. change (2 ^ 32) with 4294967296.
  assert (W : forall z, -2147483648 <= z < 2147483648 -> (z + 2147483648) mod 4294967296 - 2147483648 = z)
    by (intros z Hz; rewrite Z.mod_small by lia; lia).
  destruct (Z.leb_spec 0 x).
  - rewrite (W (x - y)), (W (x + y)), (W (4096 * (x - y))) by lia. apply W.
    assert (Z.abs (Z.quot (4096 * (x - y)) (x + y)) <= 4096); [|lia].
    rewrite <- Z.quot_abs by lia. apply Z.quot_le_upper_bound; lia.
  - rewrite (W (x + y)), (W (y - x)), (W (4096 * (x + y))) by lia. apply W.
    assert (Z.abs (Z.quot (4096 * (x + y)) (y - x)) <= 4096); [|lia].
    rewrite <- Z.quot_abs by lia. apply Z.quot_le_upper_bound; lia.
Qed.

Lemma quot_between a b : 0 <= a <= b -> 0 < b -> 0 <= Z.quot (4096 * a) b <= 4096.
Proof. intros Ha Hb. split; [apply Z.quot_pos; lia|apply Z.quot_le_upper_bound; lia]. Qed.

Lemma fast_atan2_odd y x : - 2 ^ 31 < y < 2 ^ 31 -> y <> 0 -> fast_atan2 (- y) x = s32 (- fast_atan2 y x).
Proof.
  intros Hs Hy. unfold fast_atan2. change (1 <<' 12) with 4096.
  assert (E1 : (x =? 0) && (- y =? 0) = false) by lia. assert (E2 : (x =? 0) && (y =? 0) = false) by lia. rewrite E1, E2.
  assert (Ey : (if - y <? 0 then s32 (- - y) else - y) = (if y <? 0 then s32 (- y) else y)).
  { destruct (Z.ltb_spec (- y) 0), (Z.ltb_spec y 0); try lia; rewrite s32_id by clia; lia. }
  rewrite Ey. assert (Ha : exists a, (if 0 <=? x then s32 (4096 - Z.quot (s32 (4096 * s32 (x - (if y <? 0 then s32 (- y) else y)))) (s32 (x + (if y <? 0 then s32 (- y) else y))))
      else s32 (3 * 4096 - Z.quot (s32 (4096 * s32 (x + (if y <? 0 then s32 (- y) else y)))) (s32 ((if y <? 0 then s32 (- y) else y) - x)))) = s32 a)
    by (destruct (0 <=? x); eexists; reflexivity).
  destruct Ha as [a ->]. destruct (Z.ltb_spec (- y) 0), (Z.ltb_spec y 0); try lia; try done. cdlia.
Qed.

(** Where the sum of the coordinates is below 2^19, so that nothing overflows, the integer
    arc tangent puts a point into its octant (a full turn is 2^15 and the octants end at multiples
    of 2^12), is odd in [y], mirrors the left half plane onto the right one exactly, and is exact
    on the axes and the diagonals. *)
Theorem fm_atan_octants y x : Z.abs x + Z.abs y < 2 ^ 19 -> 0 < x \/ x < 0 \/ 0 < y \/ y < 0 ->
  (0 <= y <= x -> 0 <= fast_atan2 y x <= 4096) /\
  (0 <= x <= y -> 4096 <= fast_atan2 y x <= 8192) /\
  (0 <= - x <= y -> 8192 <= fast_atan2 y x <= 12288) /\
  (0 <= y <= - x -> 12288 <= fast_atan2 y x <= 16384) /\
  (y <> 0 -> fast_atan2 (- y) x = - fast_atan2 y x) /\
  (0 <= y -> x < 0 -> fast_atan2 y x = 16384 - fast_atan2 y (- x)) /\
  (y = 0 -> 0 < x -> fast_atan2 y x = 0) /\ (0 < y -> x = y -> fast_atan2 y x = 4096) /\
  (0 < y -> x = 0 -> fast_atan2 y x = 8192) /\ (0 < y -> x = - y -> fast_atan2 y x = 12288) /\
  (y = 0 -> x < 0 -> fast_atan2 y x = 16384).
Proof.
  intros Hs Hn. assert (Hne : x <> 0 \/ y <> 0) by lia.
  assert (Up : forall x' y', Z.abs x' + Z.abs y' < 2 ^ 19 -> x' <> 0 \/ y' <> 0 -> 0 <= y' -> 0 <= x' ->
    fast_atan2 y' x' = 4096 - Z.quot (4096 * (x' - y')) (x' + y')).
  { intros x' y' H1 H2 H3 H4. rewrite fast_atan2_formula by done. by destruct (Z.leb_spec 0 x'); [|lia]. }
  assert (Left : forall x' y', Z.abs x' + Z.abs y' < 2 ^ 19 -> x' < 0 -> 0 <= y' ->
    fast_atan2 y' x' = 12288 - Z.quot (4096 * (x' + y')) (y' - x')).
  { intros x' y' H1 H2 H3. rewrite fast_atan2_formula by (done || lia). by destruct (Z.leb_spec 0 x'); [lia|]. }
  assert (Neg : forall a b, Z.quot (4096 * - a) b = - Z.quot (4096 * a) b).
  { intros a b. rewrite Z.mul_opp_r. destruct (decide (b = 0)) as [->|]; [by rewrite !Z.quot_0_r_ext|]. by apply Z.quot_opp_l. }
  split_and!.
  - intros Hr. rewrite Up by (done || lia). pose proof (quot_between (x - y) (x + y)). lia.
  - intros Hr. rewrite Up by (done || lia). replace (x - y) with (- (y - x)) by lia. rewrite Neg. pose proof (quot_between (y - x) (x + y)). lia.
  - intros Hr. destruct (decide (x = 0)) as [->|].
    + rewrite Up by (done || lia). replace (0 - y) with (- y) by lia. rewrite Neg, Z.add_0_l. rewrite Z.quot_mul by lia. lia.
    + rewrite Left by (done || lia). pose proof (quot_between (x + y) (y - x)). lia.
  - intros Hr. rewrite Left by (done || lia). replace (x + y) with (- (- x - y)) by lia. rewrite Neg.
    pose proof (quot_between (- x - y) (y - x)). lia.
  - intros Hy. rewrite fast_atan2_odd by (change (2 ^ 19) with 524288 in Hs; lia). apply s32_id.
    assert (Ha : Z.abs (fast_atan2 y x) <= 16384); [|clia].
    assert (Hpos : forall y', 0 < y' -> Z.abs x + Z.abs y' < 2 ^ 19 -> 0 <= fast_atan2 y' x <= 16384).
    { intros y' Hy' Hs'. destruct (Z.leb_spec 0 x).
      - rewrite Up by (done || lia). destruct (Z.leb_spec y' x); [pose proof (quot_between (x - y') (x + y')); lia|].
        replace (x - y') with (- (y' - x)) by lia. rewrite Neg. pose proof (quot_between (y' - x) (x + y')). lia.
      - rewrite Left by (done || lia). destruct (Z.leb_spec 0 (x + y')); [pose proof (quot_between (x + y') (y' - x)); lia|].
        replace (x + y') with (- (- x - y')) by lia. rewrite Neg. pose proof (quot_between (- x - y') (y' - x)). lia. }
    destruct (decide (0 < y)); [pose proof (Hpos y); lia|]. replace y with (- - y) by lia.
    rewrite fast_atan2_odd by (change (2 ^ 19) with 524288 in Hs; lia). pose proof (Hpos (- y) ltac:(lia) ltac:(lia)). rewrite s32_id by clia. lia.
  - intros Hy Hx. rewrite Left by (done || lia). rewrite (Up (- x) y) by (done || lia). 
    replace (- x - y) with (- (x + y)) by lia. rewrite Neg. replace (- x + y) with (y - x) by lia. lia.
  - intros -> Hx. rewrite Up by (done || lia). rewrite Z.sub_0_r, Z.add_0_r, Z.quot_mul by lia. lia.
  - intros Hy ->. rewrite Up by (done || lia). rewrite Z.sub_diag, Z.mul_0_r, Z.quot_0_l by lia. lia.
  - intros Hy ->. rewrite Up by (done || lia). replace (0 - y) with (- y) by lia. rewrite Neg, Z.add_0_l, Z.quot_mul by lia. lia.
  - intros Hy ->. rewrite Left by (done || lia). replace (- y + y) with 0 by lia. rewrite Z.mul_0_r, Z.quot_0_l by lia. lia.
  - intros -> Hx. rewrite Left by (done || lia). rewrite Z.add_0_r, Z.sub_0_l. replace x with (- - x) at 1 by lia.
    rewrite Neg, Z.quot_mul by lia. lia.
Qed.

Lemma fm_atan_octants_witness : fast_atan2 (-300000) 200000 = - fast_atan2 300000 200000 /\ 4096 <= fast_atan2 300000 200000 <= 8192.
Proof.
  destruct (fm_atan_octants 300000 200000) as (_ & H2 & _ & _ & Hodd & _); [change (2 ^ 19) with 524288; lia|lia|].
  split; [apply Hodd; lia|apply H2; lia].
Defined.

(** In wide band mode six samples are added up, each at most 128: with an unmodulated carrier of
    nearly full strength the product is beyond that bound, and an angle of about 70 comes out as
    7445, close to a quarter of a turn. *)
Lemma fast_atan2_overflow : 760 <= 6 * 128 /\ polar_disc_fast 760 10 760 0 = 7445 /\ 2 ^ 19 <= 760 * 760.
Proof. vm_compute. split_and!; congruence. Qed.

End Atan.

(** ** The rate of the dongle *)

Module Rates.
Import Fm.

(** The capture rate the demodulator computes is one the library takes: for every rate
    from 3937 Hz to 2.2 MHz without the decimating filter, and to 600 kHz with it, the rate is a
    multiple of the one asked for by the decimation, above 1 MHz, and [rtlsdr_set_sample_rate]
    does not refuse it; the square window never has more than 255 samples. *)
Theorem fm_rate_accepted freq ot e c :
  3937 <= rate_in c -> (if downsample_passes c =? 0 then rate_in c <= 2200000 else rate_in c <= 600000) ->
  let '(c', f, rate) := optimal_settings freq ot e c in
  rate = downsample c' * rate_in c /\ 1000000 < rate /\ Librtlsdr.rate_refused rate = false /\
  (downsample_passes c = 0 -> 1 <= downsample c' <= 255) /\
  (downsample_passes c <> 0 -> downsample c' = 2 ^ downsample_passes c' /\ 1 <= downsample_passes c' <= 8).
Proof.
  intros Hlo Hhi. unfold optimal_settings. set (q := Z.quot 1000000 (rate_in c)).
  assert (Hq : 0 <= q <= 254 /\ q * rate_in c <= 1000000 < (q + 1) * rate_in c).
  { unfold q. rewrite Z.quot_div_nonneg by (destruct (downsample_passes c =? 0); lia).
    assert (Hp : 0 < rate_in c) by lia. pose proof (Z.mul_div_le 1000000 (rate_in c) Hp). pose proof (Z.mul_succ_div_gt 1000000 (rate_in c) Hp).
    split; [split; [apply Z.div_pos; lia|]|lia]. apply Z.lt_succ_r. apply Z.div_lt_upper_bound; lia. }
  rewrite (s32_id (q + 1)) by clia.
  destruct (Z.eqb_spec (downsample_passes c) 0) as [E|E].
  - rewrite (s32_id ((q + 1) * rate_in c)) by clia. cbn [downsample downsample_passes]. rewrite u32_id by clia.
    split_and!; [done|lia| |lia|done]. unfold Librtlsdr.rate_refused. lia.
  - assert (Hlog : 0 <= Z.log2 (q + 1) <= 7).
    { split; [apply Z.log2_nonneg|]. change 7 with (Z.log2 255). apply Z.log2_le_mono. lia. }
    pose proof (Z.log2_spec (q + 1) ltac:(lia)) as [L1 L2]. rewrite Z.shiftl_1_l. unfold Z.succ in L2.
    set (k := Z.log2 (q + 1)) in *. assert (Hk : 2 ^ (k + 1) = 2 * 2 ^ k) by (rewrite Z.pow_add_r by lia; lia).
    assert (2 ^ (k + 1) <= 256) by (change 256 with (2 ^ 8); apply Z.pow_le_mono_r; lia).
    rewrite (s32_id (2 ^ (k + 1))) by clia. assert (Hup : 2 ^ (k + 1) * rate_in c <= 2 * 1000000 + 2 * rate_in c) by nia.
    assert (Hdn : 1000000 < 2 ^ (k + 1) * rate_in c) by nia.
    rewrite (s32_id (2 ^ (k + 1) * rate_in c)) by clia. cbn [downsample downsample_passes]. rewrite u32_id by clia.
    split_and!; [done|lia| |done|]; [unfold Librtlsdr.rate_refused; lia|]. intros _. split; [done|lia].
Qed.

Lemma fm_rate_accepted_witness :
  let '(c', f, rate) := optimal_settings 100000000 false 0 (demod_init [] []).1 in
  rate = 1008000 /\ downsample c' = 42 /\ Librtlsdr.rate_refused rate = false.
Proof.
  pose proof (fm_rate_accepted 100000000 false 0 (demod_init [] []).1 ltac:(vm_compute; congruence) ltac:(vm_compute; congruence)) as H.
  destruct (optimal_settings 100000000 false 0 (demod_init [] []).1) as [[c' f] rate] eqn:E. destruct H as (_ & _ & H & _).
  vm_compute in E. injection E as <- <- <-. split_and!; [reflexivity|reflexivity|exact H].
Defined.

(** Frequencies above 2^31 - 1 Hz are converted to [int] and back: without an offset nothing is
    lost. *)
Lemma capture_freq_exact freq e c : is_u 32 freq -> e = 0 -> (optimal_settings (s32 freq) true e c).1.2 = freq.
Proof.
  intros Hf ->. unfold optimal_settings. cbn [fst snd]. rewrite Z.mul_0_l. change (Z.quot (s32 0) 2) with 0. rewrite Z.add_0_r. cdlia.
Qed.
End Rates.

(** ** Types and bounds of the whole chain *)

Module Typed.
Import Fm.

(** An array of [n] 16-bit samples. *)
Definition arr (n : Z) (a : list Z) : Prop := zlen a = n /\ Forall (is_s 16) a.

Lemma rd_s16 n a i : arr n a -> is_s 16 (rd a i).
Proof.
  intros [_ H]. unfold rd. destruct (i <? 0); [clia|]. destruct (a !! Z.to_nat i) as [x|] eqn:E; [|cbn; clia].
  exact (proj1 (Forall_lookup _ _) H _ _ E).
Qed.
Lemma arr_wr n a i x : arr n a -> is_s 16 x -> arr n (wr a i x).
Proof. intros [Hz H] Hx. split; [by rewrite zlen_wr|]. unfold wr. destruct (i <? 0); [done|]. by apply Forall_insert. Qed.
Lemma arr_blit n a i k : arr n a -> Forall (is_s 16) k -> arr n (blit a i k).
Proof.
  intros [Hz H] Hk. split; [by rewrite zlen_blit|]. unfold blit. generalize (Z.to_nat i). clear Hz i.
  revert a H. induction Hk as [|x k Hx _ IH]; intros a H j; cbn [list_inserts]; [done|]. apply Forall_insert; [by apply IH|done].
Qed.

Create HintDb arr.
#[local] Hint Resolve arr_wr arr_blit s16_range rd_s16 : arr.

Ltac arr_cells := repeat (apply List.Forall_cons; [eapply rd_s16; eassumption|]); apply List.Forall_nil.

(** Every routine that works in place keeps the array. *)
Lemma low_pass_loop_arr N n ds len : forall i i2 b a, arr N a -> arr N (low_pass_loop n ds len i i2 b a).2.
Proof.
  induction n as [|n IH]; intros i i2 b a Ha; cbn [low_pass_loop]; [done|].
  destruct (negb (i <? len)); [done|]. destruct (_ <? ds); apply IH; auto with arr.
Qed.

(** With an even length the result is no longer than the input. *)
Lemma low_pass_loop_len n ds m : forall k k2 b a, 0 <= k2 <= k -> k <= m ->
  exists m', (low_pass_loop n ds (2 * m) (2 * k) (2 * k2) b a).1.1 = 2 * m' /\ k2 <= m' <= m.
Proof.
  induction n as [|n IH]; intros k k2 b a Hk Hm; cbn [low_pass_loop]; [exists k2; cbn; lia|].
  destruct (Z.ltb_spec (2 * k) (2 * m)); cbn [negb]; [|exists k2; cbn; lia].
  replace (2 * k + 2) with (2 * (k + 1)) by lia. replace (2 * k2 + 2) with (2 * (k2 + 1)) by lia.
  destruct (_ <? ds); [apply IH; lia|]. match goal with |- context [low_pass_loop n ds _ _ _ ?b ?a] => destruct (IH (k + 1) (k2 + 1) b a) as (m' & E & Hm') end; [lia|lia|].
  exists m'. lia.
Qed.

Lemma fifth_loop_arr N n off len : forall i h a, arr 6 h -> arr N a ->
  arr 6 (fifth_loop n off i len h a).1 /\ arr N (fifth_loop n off i len h a).2.
Proof.
  induction n as [|n IH]; intros i h a Hh Ha; cbn [fifth_loop]; [done|]. destruct (negb (i <? len)); [done|].
  apply IH; [split; [done|]; arr_cells|]. apply arr_wr; [done|apply s16_range].
Qed.
Lemma fifth_order_arr N off len h a : arr 6 h -> arr N a -> arr 6 (fifth_order off len h a).1 /\ arr N (fifth_order off len h a).2.
Proof.
  intros Hh Ha. apply fifth_loop_arr; [split; [done|]; arr_cells|]. apply arr_wr; [done|apply s16_range].
Qed.

Lemma fir_loop_arr N n off len fir : forall d h a, arr 9 h -> arr N a ->
  arr 9 (fir_loop n off d len fir h a).1 /\ arr N (fir_loop n off d len fir h a).2.
Proof.
  induction n as [|n IH]; intros d h a Hh Ha; cbn [fir_loop]; [done|]. destruct (negb (d <? len)); [done|]. apply IH.
  - destruct Hh as [Hz Hf]. split; [unfold zlen in *; rewrite length_app, length_drop; cbn [length]; lia|].
    apply Forall_app. split; [by apply Forall_drop|]. apply List.Forall_cons; [by apply (rd_s16 N)|constructor].
  - apply arr_wr; [done|apply s16_range].
Qed.

(** The histories of the passes. *)
Definition hists (l : list (list Z)) : Prop := length l = 10%nat /\ Forall (arr 6) l.
Lemma hists_get l k : hists l -> (k < 10)%nat -> arr 6 (default [] (l !! k)).
Proof.
  intros [Hl Hf] Hk. destruct (lookup_lt_is_Some_2 l k) as [h E]; [lia|]. rewrite E. exact (proj1 (Forall_lookup _ _) Hf _ _ E).
Qed.
Lemma hists_set l k h : hists l -> arr 6 h -> hists (<[k := h]> l).
Proof. intros [Hl Hf] Hh. split; [by rewrite length_insert|by apply Forall_insert]. Qed.

Lemma fifth_passes_arr N n len : forall i ih qh a, 0 <= i -> i + Z.of_nat n <= 10 -> hists ih -> hists qh -> arr N a ->
  let '(ih', qh', a') := fifth_passes n i len ih qh a in hists ih' /\ hists qh' /\ arr N a'.
Proof.
  induction n as [|n IH]; intros i ih qh a Hi Hn Hih Hqh Ha; cbn [fifth_passes]; [done|].
  destruct (fifth_order_arr N 0 (len >>' i) _ a (hists_get ih (Z.to_nat i) Hih ltac:(lia)) Ha) as [H1 H2].
  destruct (fifth_order 0 (len >>' i) _ a) as [hi a1]. cbn [fst snd] in H1, H2.
  destruct (fifth_order_arr N 1 ((len >>' i) - 1) _ a1 (hists_get qh (Z.to_nat i) Hqh ltac:(lia)) H2) as [H3 H4].
  destruct (fifth_order 1 ((len >>' i) - 1) _ a1) as [hq a2]. cbn [fst snd] in H3, H4.
  apply IH; try done; try lia; by apply hists_set.
Qed.

Lemma mode_loop_arr N n f len lp : (forall i q, is_s 16 (f i q)) -> forall i r, arr N r -> arr N (mode_loop n f len i lp r).
Proof.
  intros Hf. induction n as [|n IH]; intros i r Hr; cbn [mode_loop]; [done|]. destruct (negb (i <? len)); [done|].
  apply IH. by apply arr_wr.
Qed.
Lemma fm_loop_arr `{Arctan} N n ca len lp : forall i pcm r, arr N r -> arr N (fm_loop n ca len i pcm lp r).
Proof.
  induction n as [|n IH]; intros i pcm r Hr; cbn [fm_loop]; [done|]. destruct (negb (i <? len - 1)); [done|]. apply IH. auto with arr.
Qed.
Lemma lps_loop_arr N n len step : forall i a, arr N a -> arr N (low_pass_simple_loop n i len step a).2.
Proof.
  induction n as [|n IH]; intros i a Ha; cbn [low_pass_simple_loop]; [done|]. destruct (negb (i <? len)); [done|]. apply IH. auto with arr.
Qed.
Lemma deemph_loop_arr N n da : forall i avg a, arr N a -> arr N (deemph_loop n da i avg a).2.
Proof. induction n as [|n IH]; intros i avg a Ha; cbn [deemph_loop]; [done|]. apply IH. auto with arr. Qed.
Lemma sub_loop_arr N n avg : forall i a, arr N a -> arr N (sub_loop n i avg a).
Proof. induction n as [|n IH]; intros i a Ha; cbn [sub_loop]; [done|]. apply IH. auto with arr. Qed.
Lemma lpr_loop_arr N n fast slow len : forall i i2 lpr prev a, 0 <= i2 <= i -> i <= len -> arr N a ->
  match lpr_loop n fast slow len i i2 lpr prev a with
  | Some (i2', _, _, a') => 0 <= i2' <= len /\ arr N a'
  | None => Z.quot fast slow = 0
  end.
Proof.
  induction n as [|n IH]; intros i i2 lpr prev a Hi Hl Ha; cbn [lpr_loop]; [split; [lia|done]|].
  destruct (Z.ltb_spec i len); cbn [negb]; [|split; [lia|done]]. destruct (_ <? fast); [apply IH; try lia; auto with arr|].
  destruct (Z.eqb_spec (Z.quot fast slow) 0); [done|]. apply IH; try lia; auto with arr.
Qed.

(** *** The state *)

Record typed (d : demod_state) : Prop := mk_typed {
  t_low : arr MAXIMUM_BUF_LENGTH (lowpassed d);
  t_res : arr MAXIMUM_BUF_LENGTH (result d);
  t_len : 0 <= lp_len d <= MAXIMUM_BUF_LENGTH;
  t_rlen : 0 <= result_len d <= MAXIMUM_BUF_LENGTH;
  t_ih : hists (lp_i_hist d);
  t_qh : hists (lp_q_hist d);
  t_di : arr 9 (droop_i_hist d);
  t_dq : arr 9 (droop_q_hist d);
}.

Ltac typed_go := constructor; cbn [lowpassed lp_len lp_i_hist lp_q_hist result result_len droop_i_hist droop_q_hist]; try done.

(** The settings that index arrays. *)
Definition config_ok (c : demod_config) : Prop := 0 <= downsample_passes c <= CIC_TABLE_MAX /\ 1 <= post_downsample c.

(** The square window takes whole samples. *)
Definition whole (c : demod_config) (d : demod_state) : Prop := downsample_passes c = 0 -> lp_len d mod 2 = 0.

Lemma decimate_typed c d : config_ok c -> typed d -> whole c d -> typed (decimate c d) /\ whole c (decimate c d).
Proof.
  intros [Hp _] [Tl Tr Tn Trn Ti Tq Tdi Tdq] Hev. unfold whole, decimate, CIC_TABLE_MAX in *.
  destruct (Z.eqb_spec (downsample_passes c) 0) as [E|E]; cbn [negb]; [specialize (Hev E)|split; [|done]].
  - unfold low_pass. pose proof (low_pass_loop_arr _ (Z.to_nat (lp_len d)) (downsample c) (lp_len d) 0 0 (boxed d) _ Tl) as Ha.
    destruct (low_pass_loop_len (Z.to_nat (lp_len d)) (downsample c) (lp_len d / 2) 0 0 (boxed d) (lowpassed d)) as (m' & El & Hm');
      [lia|apply Z.div_pos; lia|]. change (2 * 0) with 0 in El. replace (2 * (lp_len d / 2)) with (lp_len d) in El by (Z.div_mod_to_equations; lia).
    destruct (low_pass_loop _ _ _ _ _ _ _) as [[len b] a]. cbn [fst snd] in *. split; [typed_go|intros _; cbn [lp_len]].
    + subst len. Z.div_mod_to_equations. lia.
    + subst len. rewrite Z.mul_comm. apply Z_mod_mult.
  - pose proof (fifth_passes_arr _ (Z.to_nat (downsample_passes c)) (lp_len d) 0 _ _ _ ltac:(lia) ltac:(lia) Ti Tq Tl) as Hf.
    destruct (fifth_passes _ _ _ _ _ _) as [[ih qh] a]. destruct Hf as (Hi & Hq & Ha).
    assert (Hlen : 0 <= lp_len d >>' downsample_passes c <= MAXIMUM_BUF_LENGTH).
    { rewrite Z.shiftr_div_pow2 by lia. split; [apply Z.div_pos; lia|]. transitivity (lp_len d); [|lia].
      apply Z.div_le_upper_bound; [lia|]. pose proof (Z.pow_pos_nonneg 2 (downsample_passes c)). nia. }
    destruct (_ && _); [|typed_go].
    destruct (fir_loop_arr _ (Z.to_nat (lp_len d >>' downsample_passes c)) 0 (lp_len d >>' downsample_passes c)
      (default [] (cic_9_tables !! Z.to_nat (downsample_passes c))) 0 _ _ Tdi Ha) as [H1 H2].
    unfold generic_fir. destruct (fir_loop _ 0 _ _ _ _ _) as [di a1]. cbn [fst snd] in H1, H2.
    destruct (fir_loop_arr _ (Z.to_nat ((lp_len d >>' downsample_passes c) - 1)) 1 ((lp_len d >>' downsample_passes c) - 1)
      (default [] (cic_9_tables !! Z.to_nat (downsample_passes c))) 0 _ _ Tdq H2) as [H3 H4].
    destruct (fir_loop _ 1 _ _ _ _ _) as [dq a2]. cbn [fst snd] in H3, H4. typed_go.
Qed.

Lemma squelch_typed c d : typed d -> typed (squelch c d).
Proof.
  intros T. unfold squelch. destruct (squelch_level c =? 0); [done|]. destruct T. typed_go.
  destruct (_ <? _); [|done]. apply arr_blit; [done|]. apply Forall_replicate. clia.
Qed.

Lemma set_result_typed r len d : typed d -> arr MAXIMUM_BUF_LENGTH r -> 0 <= len <= MAXIMUM_BUF_LENGTH -> typed (set_result r len d).
Proof. intros [] Hr Hl. typed_go. Qed.

Lemma demodulate_typed `{Arctan} c d : typed d -> typed (demodulate c d).
Proof.
  intros T. pose proof T as T'. destruct T' as [Tl Tr Tn Trn Ti Tq Tdi Tdq]. unfold demodulate.
  assert (Hq : 0 <= Z.quot (lp_len d) 2 <= MAXIMUM_BUF_LENGTH) by (rewrite Z.quot_div_nonneg by lia; Z.div_mod_to_equations; lia).
  destruct (mode_demod c).
  - unfold fm_demod. typed_go. apply fm_loop_arr. auto with arr.
  - apply set_result_typed; [done| |done]. apply arr_blit; [done|]. apply Forall_take. by destruct Tl.
  - apply set_result_typed; [done| |done]. apply mode_loop_arr; [intros; apply s16_range|done].
  - apply set_result_typed; [done| |done]. apply mode_loop_arr; [intros; apply s16_range|done].
  - apply set_result_typed; [done| |done]. apply mode_loop_arr; [intros; apply s16_range|done].
Qed.

(** The settings with which nothing is divided by zero, whatever the samples: the factor of the
    de-emphasis is not zero, the output is not resampled to a higher rate, and the blocking of
    direct current, which divides by the length of the block, is off. *)
Definition divides (c : demod_config) : Prop :=
  (deemph c = true -> deemph_a c <> 0) /\ dc_block c = false /\ (0 < rate_out2 c -> rate_out2 c <= rate_out c).

Lemma audio_typed c d : config_ok c -> typed d ->
  match audio c d with Some d' => typed d' /\ lp_len d' = lp_len d | None => ~ divides c end.
Proof.
  intros [_ Hp] T. unfold audio. set (d1 := if 1 <? post_downsample c then _ else _).
  assert (T1 : typed d1 /\ lp_len d1 = lp_len d).
  { unfold d1. destruct (Z.ltb_spec 1 (post_downsample c)); [|done]. destruct T as [Tl Tr Tn Trn Ti Tq Tdi Tdq]. unfold low_pass_simple.
    pose proof (lps_loop_arr _ (Z.to_nat (result_len d)) (result_len d) (post_downsample c) 0 _ Tr) as Ha.
    destruct (low_pass_simple_loop _ _ _ _ _) as [i a]. cbn [snd] in Ha. split; [|done]. apply set_result_typed; [done|apply arr_wr; [done|by eapply rd_s16]|].
    split; [apply Z.div_pos; lia|]. transitivity (result_len d); [|lia]. apply Z.div_le_upper_bound; nia. }
  clearbody d1. destruct T1 as [T1 E1]. set (o2 := if deemph c then _ else Some d1).
  assert (T2 : match o2 with Some d2 => typed d2 /\ lp_len d2 = lp_len d | None => ~ divides c end).
  { unfold o2. destruct (deemph c) eqn:Ed; [|done]. destruct T1 as [Tl Tr Tn Trn Ti Tq Tdi Tdq]. unfold deemph_filter.
    pose proof (deemph_loop_arr _ (Z.to_nat (result_len d1)) (deemph_a c) 0 (deemph_avg d1) _ Tr) as Ha.
    destruct (Z.eqb_spec (deemph_a c) 0) as [E0|]; [|rewrite andb_false_r]; [destruct (_ && _); [by intros [H _]; apply H|]|];
      cbn [mbind option_bind]; destruct (deemph_loop _ _ _ _ _) as [avg r]; (split; [typed_go|done]). }
  clearbody o2. destruct o2 as [d2|]; [|done]. destruct T2 as [T3 E3]. cbn [mbind option_bind]. set (o3 := if dc_block c then _ else Some d2).
  assert (T4 : match o3 with Some d3 => typed d3 /\ lp_len d3 = lp_len d | None => ~ divides c end).
  { unfold o3. destruct (dc_block c) eqn:Ed; [|done]. destruct T3 as [Tl Tr Tn Trn Ti Tq Tdi Tdq]. unfold dc_block_filter.
    destruct (_ =? _); cbn [mbind option_bind]; [intros (_ & H & _); congruence|]. split; [|done]. typed_go. by apply sub_loop_arr. }
  clearbody o3. destruct o3 as [d3|]; [|done]. destruct T4 as [T5 E5]. cbn [mbind option_bind].
  destruct (Z.ltb_spec 0 (rate_out2 c)) as [Hr|]; [|done]. destruct T5 as [Tl Tr Tn Trn Ti Tq Tdi Tdq]. unfold low_pass_real.
  pose proof (lpr_loop_arr _ (Z.to_nat (result_len d3)) (rate_out c) (rate_out2 c) (result_len d3) 0 0 (now_lpr d3) (prev_lpr_index d3) _ ltac:(lia) ltac:(lia) Tr) as Ha.
  destruct (lpr_loop _ _ _ _ _ _ _ _ _) as [[[[len lpr] prev] r]|]; cbn [mbind option_bind].
  - destruct Ha as [Hl Ha]. split; [|done]. typed_go. lia.
  - intros (_ & _ & H). specialize (H Hr). rewrite Z.quot_div_nonneg in Ha by lia. assert (1 <= rate_out c / rate_out2 c) by (apply Z.div_le_lower_bound; lia). lia.
Qed.

Lemma callback_typed ot mute buf d : bytes buf -> zlen buf <= MAXIMUM_BUF_LENGTH -> typed d -> typed (rtlsdr_callback ot mute buf d).
Proof.
  intros Hb Hl [Tl Tr Tn Trn Ti Tq Tdi Tdq]. unfold rtlsdr_callback. typed_go; [|unfold zlen in *; lia].
  apply arr_blit; [done|]. unfold callback_samples. apply Forall_fmap, Forall_forall. intros x _. apply s16_range.
Qed.

(** One round, whatever is in the buffer. *)
Definition block_ok (o : list Z) : Prop := zlen o <= MAXIMUM_BUF_LENGTH /\ Forall (is_s 16) o.
Lemma demod_round_typed `{Arctan} c d : config_ok c -> typed d -> whole c d ->
  match demod_round c d with
  | Some (d', out, _) => typed d' /\ whole c d' /\ (forall o, out = Some o -> block_ok o)
  | None => ~ divides c
  end.
Proof.
  intros Hc Td Hw. destruct (decimate_typed c d Hc Td Hw) as [T1 W1]. unfold demod_round.
  assert (Tf : match full_demod c d with Some d' => typed d' /\ lp_len d' = lp_len (decimate c d) | None => ~ divides c end).
  { unfold full_demod. assert (T2 := demodulate_typed c _ (squelch_typed c _ T1)). set (e := decimate c d) in *.
    assert (E1 : lp_len (demodulate c (squelch c e)) = lp_len e).
    { unfold demodulate, fm_demod, squelch. by repeat case_match. }
    case_bool_decide; [done|]. rewrite <- E1. by apply audio_typed. }
  destruct (full_demod c d) as [d'|]; [|done]. destruct Tf as [Tf El]. cbn [mbind option_bind]. destruct (_ && _).
  - split; [destruct Tf; typed_go|]. split; [|done]. intros E. cbn [lp_len]. rewrite El. by apply W1.
  - split; [done|]. split; [intros E; rewrite El; by apply W1|]. intros o [= <-].
    destruct Tf as [_ [Tz Tr] _ Trn _ _ _ _]. split; [unfold zlen in *; rewrite length_take; lia|by apply Forall_take].
Qed.

(** With such settings a round never divides by zero. *)
Lemma lpr_loop_total n fast slow len : Z.quot fast slow <> 0 -> forall i i2 lpr prev a, is_Some (lpr_loop n fast slow len i i2 lpr prev a).
Proof.
  intros Hq. induction n as [|n IH]; intros i i2 lpr prev a; cbn [lpr_loop]; [by eexists|].
  destruct (negb _); [by eexists|]. destruct (_ <? fast); [apply IH|]. rewrite (proj2 (Z.eqb_neq _ _) Hq). apply IH.
Qed.
Lemma demod_round_total `{Arctan} c d : divides c -> is_Some (demod_round c d).
Proof.
  intros (D1 & D2 & D3). unfold demod_round, full_demod. assert (A : forall d, is_Some (audio c d)).
  { clear d. intros d. unfold audio. rewrite D2. set (d1 := if 1 <? post_downsample c then _ else _). clearbody d1. cbn [mbind option_bind].
    set (o2 := if deemph c then _ else Some d1). assert (Ho : is_Some o2).
    { unfold o2. destruct (deemph c); [|by eexists]. unfold deemph_filter. rewrite (proj2 (Z.eqb_neq _ _) (D1 eq_refl)), andb_false_r.
      cbn [mbind option_bind]. destruct (deemph_loop _ _ _ _ _). by eexists. }
    clearbody o2. destruct Ho as [d2 ->]. cbn [mbind option_bind]. destruct (Z.ltb_spec 0 (rate_out2 c)) as [Hr|]; [|by eexists].
    specialize (D3 Hr). unfold low_pass_real. assert (Hq : Z.quot (rate_out c) (rate_out2 c) <> 0).
    { rewrite Z.quot_div_nonneg by lia. assert (1 <= rate_out c / rate_out2 c) by (apply Z.div_le_lower_bound; lia). lia. }
    match goal with |- context [lpr_loop ?n ?x ?y ?l ?i ?j ?u ?v ?a] => destruct (lpr_loop_total n x y l Hq i j u v a) as [[[[? ?] ?] ?] ->] end.
    by eexists. }
  case_bool_decide; cbn [mbind option_bind]; [by eexists|].
  destruct (A (demodulate c (squelch c (decimate c d)))) as [d' ->]. by eexists.
Qed.

(** A session: buffers with how much of each is muted; the blocks handed to the output. *)
Fixpoint rounds `{Arctan} (c : demod_config) (ot : bool) (l : list (Z * list Z)) (d : demod_state) : option (demod_state * list (list Z)) :=
  match l with
  | [] => Some (d, [])
  | (mute, buf) :: l =>
      '(d, out, _) ← demod_round c (rtlsdr_callback ot mute buf d);
      '(d, outs) ← rounds c ot l d;
      Some (d, match out with Some o => o :: outs | None => outs end)
  end.

(** The types and bounds of the demodulator hold for every buffer, every mode and all
    filters: from a well-formed state, whatever the samples and whatever the arc tangents of the
    C library answer, each round leaves a well-formed state (arrays of their length with 16-bit
    cells, lengths within them, histories of their shape), and every block handed to the output
    thread has 16-bit samples and fits into its array; and only settings outside [divides] can
    make it divide by zero. *)
Theorem fm_chain_typed `{Arctan} c ot l d :
  config_ok c -> typed d -> Forall (fun x => bytes x.2 /\ zlen x.2 mod 2 = 0 /\ zlen x.2 <= MAXIMUM_BUF_LENGTH) l ->
  match rounds c ot l d with
  | Some (d', outs) => typed d' /\ Forall (fun o => zlen o <= MAXIMUM_BUF_LENGTH /\ Forall (is_s 16) o) outs
  | None => ~ divides c
  end.
Proof.
  intros Hc Td Hl. revert d Td. induction Hl as [|[mute buf] l (Hb & Hev & Hz) _ IH]; intros d Td; cbn [rounds]; [done|].
  cbn [snd] in *. pose proof (callback_typed ot mute buf d Hb Hz Td) as Tc.
  pose proof (demod_round_typed c (rtlsdr_callback ot mute buf d) Hc Tc (fun _ => Hev)) as H1.
  destruct (demod_round c _) as [[[d1 out] hop]|]; [|done]. cbn [mbind option_bind]. destruct H1 as (T1 & _ & Ho). specialize (IH d1 T1).
  destruct (rounds c ot l d1) as [[d2 outs]|]; [|done]. destruct IH as [T2 Hs]. split; [done|]. destruct out as [o|]; [|done].
  constructor; [by apply Ho|done].
Qed.

(** *** The start of the program *)

Lemma arr_replicate n : 0 <= n -> arr n (replicate (Z.to_nat n) 0).
Proof. intros Hn. split; [unfold zlen; rewrite length_replicate; lia|]. apply Forall_replicate. clia. Qed.

Lemma demod_init_typed res low :
  arr MAXIMUM_BUF_LENGTH res -> arr MAXIMUM_BUF_LENGTH low -> typed (demod_init res low).2.
Proof.
  intros Hr Hl. assert (0 <= 0 <= MAXIMUM_BUF_LENGTH) by (split; [lia|vm_compute; congruence]).
  assert (Hh : hists (replicate 10 (replicate 6 0))) by (split; [done|]; apply Forall_replicate, (arr_replicate 6); lia).
  unfold demod_init. cbn [snd]. typed_go; apply (arr_replicate 9); lia.
Qed.

(** Upper side band, with arc tangents that are not used. *)
Definition no_atan : Arctan := {| libm_atan2 := fun _ _ => f_zero; libm_atan := fun _ => f_zero |}.
Definition silence : list Z := replicate (Z.to_nat MAXIMUM_BUF_LENGTH) 0.
Definition usb_config : demod_config := mk_config 24000 24000 (-1) 2 1 2 0 10 0 0 0 false 0 false M_usb.

Lemma fm_chain_typed_witness : config_ok usb_config /\
  match rounds (H := no_atan) usb_config true [(0, [130; 120; 255; 0])] (demod_init silence silence).2 with
  | Some (d, _) => typed d
  | None => False
  end.
Proof.
  assert (Hc : config_ok usb_config) by (split; [split; vm_compute; congruence|vm_compute; congruence]).
  assert (Hs : arr MAXIMUM_BUF_LENGTH silence) by (apply arr_replicate; vm_compute; congruence).
  split; [exact Hc|].
  pose proof (fm_chain_typed (H := no_atan) usb_config true [(0, [130; 120; 255; 0])] (demod_init silence silence).2 Hc (demod_init_typed silence silence Hs Hs)) as T.
  destruct (rounds _ _ _ _) as [[d outs]|].
  - apply T. apply List.Forall_cons; [|apply List.Forall_nil]. cbn [snd]. split; [|split; vm_compute; congruence].
    unfold bytes. apply (bool_decide_unpack _). vm_compute. exact I.
  - apply T; [|split; [|split]; vm_compute; congruence]. apply List.Forall_cons; [|apply List.Forall_nil]. cbn [snd]. split; [|split; vm_compute; congruence].
    unfold bytes. apply (bool_decide_unpack _). vm_compute. exact I.
Defined.

(** Resampling 24000 samples a second to 32000 divides by zero. *)
Lemma resampling_up_traps : low_pass_real 24000 32000 2 0 0 [1; 2] = None.
Proof. reflexivity. Qed.
End Typed.
