(* ===== verification/Convenience.v ===== *)
(** * Helpers of the command line tools ([src/src/convenience/convenience.c])

    [Module Convenience]: numbers with suffixes, the listed gain next to a requested one, the
    settings that report on the terminal (the messages are left out), and the search for the
    device a string stands for.  [atof] is the C library's.

    [ConvenienceProps] shows that the gain which is set is a listed one as near to the request
    as any. *)

From Stdlib Require Import String Ascii.
From S2P Require Import Prelude Float I2c Usb TunerR82xx TunerFc TunerE4k TunerFc2580 Librtlsdr LibrtlsdrOpen RtlEeprom.

Module Convenience.
Import Usb Librtlsdr LibrtlsdrOpen.

(** ** Suffixes *)

Section Suffix.
Context (atof : list Z -> flt).

(** A string without its last character, and that; [None] for an empty string, where the
    functions access the character before it. *)
Definition split_last (s : list Z) : option (list Z * Z) :=
  match s with [] => None | _ :: _ => Some (removelast s, List.last s 0) end.

Definition is_char (c : Z) (lower upper : ascii) : bool :=
  (c =? Z.of_N (N_of_ascii lower)) || (c =? Z.of_N (N_of_ascii upper)).
Definition times (a b : flt) : flt := f64_mul a b.

Definition atofs (s : list Z) : option flt :=
  '(body, c) ← split_last s;
  let one := f64_of_Z 1 in
  let k := f64_of_Z 1000 in
  Some (if is_char c "g" "G" then times (times (times (times one k) k) k) (atof body)
        else if is_char c "m" "M" then times (times (times one k) k) (atof body)
        else if is_char c "k" "K" then times (times one k) (atof body)
        else atof s).

Definition atoft (s : list Z) : option flt :=
  '(body, c) ← split_last s;
  let one := f64_of_Z 1 in
  let m := f64_of_Z 60 in
  Some (if is_char c "h" "H" then times (times (times one m) m) (atof body)
        else if is_char c "m" "M" then times (times one m) (atof body)
        else if is_char c "s" "S" then times one (atof body)
        else atof s).

Definition atofp (s : list Z) : option flt :=
  '(body, c) ← split_last s;
  Some (if is_char c "%" "%" then times (times (f64_of_Z 1) (f64_lit 1 100)) (atof body) else atof s).
End Suffix.

(** ** Settings *)

Section Settings.
Context {U : Type} `{Libusb U}.
Abbreviation M := (st (rtlsdr_dev U)).

Fixpoint nearest_loop (target nearest : Z) (gains : list Z) : Z :=
  match gains with
  | [] => nearest
  | g :: gains =>
      let err1 := Z.abs (target - nearest) in
      let err2 := Z.abs (target - g) in
      nearest_loop target (if err2 <? err1 then g else nearest) gains
  end.
Definition nearest_gain (target_gain : Z) : M Z :=
  r ← rtlsdr_set_tuner_gain_mode 1;
  if r <? 0 then mret r
  else
    d ← st_get;
    let gains := rtlsdr_get_tuner_gains d in
    if zlen gains <=? 0 then mret 0 else mret (nearest_loop target_gain (rd gains 0) gains).

Definition verbose_set_frequency (frequency : Z) : M Z := rtlsdr_set_center_freq frequency.
Definition verbose_set_sample_rate (samp_rate : Z) : M Z := rtlsdr_set_sample_rate samp_rate.
Definition verbose_direct_sampling (on : Z) : M Z := rtlsdr_set_direct_sampling on.
Definition verbose_offset_tuning : M Z := rtlsdr_set_offset_tuning true.
Definition verbose_auto_gain : M Z := rtlsdr_set_tuner_gain_mode 0.
Definition verbose_gain_set (gain : Z) : M Z :=
  r ← rtlsdr_set_tuner_gain_mode 1;
  if r <? 0 then mret r else rtlsdr_set_tuner_gain gain.
Definition verbose_ppm_set (ppm_error : Z) : M Z :=
  if ppm_error =? 0 then mret 0 else rtlsdr_set_freq_correction ppm_error.
Definition verbose_reset_buffer : M Z := on_core rtlsdr_reset_buffer.
End Settings.

(** ** The device a string stands for *)

(** [strtol] with base 0: white space, a sign, a number in C notation; the value, within the
    range of a [long], and the rest of the string. *)
Definition digit_val (c : Z) : Z :=
  if (48 <=? c) && (c <=? 57) then c - 48
  else if (97 <=? c) && (c <=? 122) then c - 87
  else if (65 <=? c) && (c <=? 90) then c - 55
  else 36.
Fixpoint take_digits (base : Z) (l : list Z) (v : Z) : Z * list Z :=
  match l with
  | c :: l' => if digit_val c <? base then take_digits base l' (base * v + digit_val c) else (v, l)
  | [] => (v, [])
  end.
Definition strtol_unsigned (l : list Z) : option (Z * list Z) :=
  match l with
  | [] => None
  | c :: l' =>
      if c =? 48 then
        match l' with
        | x :: h :: l'' =>
            if is_char x "x" "X" && (digit_val h <? 16) then Some (take_digits 16 (h :: l'') 0)
            else Some (take_digits 8 l' 0)
        | _ => Some (take_digits 8 l' 0)
        end
      else if digit_val c <? 10 then Some (take_digits 10 l 0)
      else None
  end.
Definition clamp_long (v : Z) : Z := Z.max (- 2 ^ 63) (Z.min (2 ^ 63 - 1) v).
Definition strtol (s : list Z) : Z * list Z :=
  let l := Eeprom.skip_space s in
  let '(neg, l) := match l with
                   | c :: l' => if c =? 45 then (true, l') else if c =? 43 then (false, l') else (false, l)
                   | [] => (false, l)
                   end in
  match strtol_unsigned l with
  | Some (v, rest) => (clamp_long (if neg then - v else v), rest)
  | None => (0, s)
  end.

(** [strncmp(s, t, strlen(s)) == 0]. *)
Fixpoint starts (s t : list Z) : bool :=
  match s, t with
  | [], _ => true
  | c :: s, d :: t => (c =? d) && starts s t
  | _ :: _, [] => false
  end.

Section Search.
Context {U : Type} `{LibusbHost U}.

(** The array [serial] keeps what it holds when a device cannot be read. *)
Definition read_serial (i : Z) (serial : list Z) : st U (list Z) :=
  '(_, (_, _, s)) ← rtlsdr_get_device_usb_strings i true true true;
  mret (match s with Some s => Eeprom.str s | None => serial end).
Fixpoint show_loop (n : nat) (i : Z) (serial : list Z) : st U (list Z) :=
  match n with
  | O => mret serial
  | S n => serial ← read_serial i serial; show_loop n (i + 1) serial
  end.
(** A loop that looks for the first device whose serial passes a test. *)
Fixpoint match_loop (n : nat) (i : Z) (test : list Z -> bool) (serial : list Z) : st U (option Z * list Z) :=
  match n with
  | O => mret (None, serial)
  | S n =>
      serial ← read_serial i serial;
      if test serial then mret (Some i, serial) else match_loop n (i + 1) test serial
  end.
Definition exact (s serial : list Z) : bool := bool_decide (s = serial).
Definition prefix (s serial : list Z) : bool := starts s serial.
Definition suffix (s serial : list Z) : bool :=
  let offset := zlen serial - zlen s in
  if offset <? 0 then false else starts s (drop (Z.to_nat offset) serial).

(** [serial] is what is in the array before. *)
Definition verbose_device_search (s serial : list Z) : st U Z :=
  device_count ← rtlsdr_get_device_count;
  if device_count =? 0 then mret (-1)
  else
    let n := Z.to_nat device_count in
    serial ← show_loop n 0 serial;
    let '(v, s2) := strtol s in
    let device := s32 v in
    if bool_decide (s2 = []) && (0 <=? device) && (device <? device_count) then
      _ ← rtlsdr_get_device_name (u32 device);
      mret device
    else
      '(r, serial) ← match_loop n 0 (exact s) serial;
      match r with
      | Some i => _ ← rtlsdr_get_device_name (u32 i); mret i
      | None =>
          '(r, serial) ← match_loop n 0 (prefix s) serial;
          match r with
          | Some i => _ ← rtlsdr_get_device_name (u32 i); mret i
          | None =>
              '(r, _) ← match_loop n 0 (suffix s) serial;
              match r with
              | Some i => _ ← rtlsdr_get_device_name (u32 i); mret i
              | None => mret (-1)
              end
          end
      end.
End Search.

End Convenience.

Module ConvenienceProps.
Import Usb Librtlsdr LibrtlsdrOpen Convenience.

(** [g] is the first of the gains with the smallest distance. *)
Definition first_nearest (target g : Z) (gains : list Z) : Prop :=
  exists i, gains !! i = Some g /\
    forall j h, gains !! j = Some h -> Z.abs (target - g) <= Z.abs (target - h) /\ (Z.abs (target - h) = Z.abs (target - g) -> (i <= j)%nat).

Lemma nearest_loop_first target : forall rest seen g, first_nearest target g seen ->
  first_nearest target (nearest_loop target g rest) (seen ++ rest).
Proof.
  induction rest as [|x rest IH]; intros seen g (i & Hi & Hmin); cbn [nearest_loop]; [rewrite app_nil_r; by exists i|].
  replace (seen ++ x :: rest) with ((seen ++ [x]) ++ rest) by (by rewrite <- app_assoc). apply IH.
  pose proof (lookup_lt_Some _ _ _ Hi) as Hlt.
  destruct (Z.ltb_spec (Z.abs (target - x)) (Z.abs (target - g))); [exists (length seen)|exists i].
  - split; [by rewrite lookup_app_r, Nat.sub_diag by lia|]. intros j h Hj.
    apply lookup_app_Some in Hj as [Hj|[Hge Hj]]; [destruct (Hmin j h Hj); lia|].
    apply list_lookup_singleton_Some in Hj as [Hj <-]. lia.
  - split; [by rewrite lookup_app_l by lia|]. intros j h Hj. apply lookup_app_Some in Hj as [Hj|[Hge Hj]]; [by apply Hmin|].
    apply list_lookup_singleton_Some in Hj as [Hj <-]. lia.
Qed.

Lemma gains_listed {U} (d : rtlsdr_dev U) : exists g l, rtlsdr_get_tuner_gains d = g :: l.
Proof. unfold rtlsdr_get_tuner_gains. destruct (tuner_type d); eauto. Qed.

(** A gain that is asked for on the command line: when manual gain cannot be switched on
    the error is returned; otherwise the answer is a gain the tuner lists, no listed gain is
    nearer to the request, and of two equally near ones it is the one listed first. *)
Theorem gain_request_nearest {U : Type} `{Libusb U} (target : Z) (d : rtlsdr_dev U) :
  let '(r, d') := nearest_gain target d in
  let '(mode, d1) := rtlsdr_set_tuner_gain_mode 1 d in
  d' = d1 /\ (if mode <? 0 then r = mode else first_nearest target r (rtlsdr_get_tuner_gains d1)).
Proof.
  unfold nearest_gain. rewrite st_bind_eq. destruct (rtlsdr_set_tuner_gain_mode 1 d) as [mode d1].
  destruct (mode <? 0); [by rewrite st_ret_eq|]. rewrite st_bind_eq. cbn [st_get].
  destruct (gains_listed d1) as (g & l & ->). cbv beta iota zeta.
  replace (zlen (g :: l) <=? 0) with false by (symmetry; apply Z.leb_gt; unfold zlen; cbn [length]; lia).
  rewrite st_ret_eq. split; [done|]. change (rd (g :: l) 0) with g. cbn [nearest_loop].
  rewrite Z.ltb_irrefl. apply (nearest_loop_first target l [g] g). exists 0%nat. split; [done|]. intros j h Hj.
  apply list_lookup_singleton_Some in Hj as [-> <-]. lia.
Qed.

(** Two dongles of which the first is in use and cannot be opened; the state is the one that is
    open. *)
#[local] Instance busy_host : LibusbHost nat := {
  libusb_init u := (0, u);
  libusb_exit u := (tt, u);
  libusb_get_device_list _ := [(0x0bda, 0x2838); (0x0bda, 0x2838)];
  libusb_free_device_list u := (tt, u);
  libusb_open i u := match i with O => (-6, u) | S _ => (0, i) end;
  libusb_close u := (tt, 0%nat);
  libusb_kernel_driver_active u := (0, u);
  libusb_detach_kernel_driver u := (0, u);
  libusb_attach_kernel_driver u := (0, u);
  libusb_claim_interface u := (0, u);
  libusb_release_interface u := (0, u);
  libusb_reset_device u := (0, u);
  libusb_get_device_descriptor u := (0, u);
  libusb_get_string_descriptor_ascii _ u := ("77"%string, u);
}.

(** Asked for the serial of the second dongle the search answers with the first: what was read
    of the second is still in the array. *)
Lemma busy_device_matches : (verbose_device_search (Eeprom.str "77") [] 0%nat).1 = 0.
Proof. vm_compute. reflexivity. Qed.

End ConvenienceProps.
