(* ===== verification/Getopt.v ===== *)
(** * Options of the command line ([src/src/getopt/getopt.c])

    [Module Getopt]: the bundled [getopt] with its permutation of the arguments, short options,
    long options with abbreviations, and [-W].  Strings are lists of characters without the
    final zero; [nextchar] is the rest of the argument it points into.  The messages are left
    out.

    [GetoptProps]: called until it returns -1, [getopt] returns the options of a plain parser
    of the arguments and leaves them sorted, options first. *)

From S2P Require Import Prelude.

Module Getopt.

Inductive ordering_t := REQUIRE_ORDER | PERMUTE | RETURN_IN_ORDER.

(** [struct option]; [flag] is the address of a variable. *)
Record option_t := mk_option { name : list Z; has_arg : Z; flag : option Z; val : Z }.

(** The static variables and those for the communication with the caller; [flags_set] are the
    writes through [flag]. *)
Record state := mk_state {
  argv : list (list Z);
  optind : Z;
  first_nonopt : Z;
  last_nonopt : Z;
  nextchar : option (list Z);
  ordering : ordering_t;
  initialized : bool;
  optarg : option (list Z);
  optopt : Z;
  longind : option Z;
  flags_set : list (Z * Z);
}.
Definition set_optind (i : Z) (s : state) : state :=
  mk_state (argv s) i (first_nonopt s) (last_nonopt s) (nextchar s) (ordering s) (initialized s) (optarg s) (optopt s) (longind s) (flags_set s).
Definition set_nonopt (a b : Z) (s : state) : state :=
  mk_state (argv s) (optind s) a b (nextchar s) (ordering s) (initialized s) (optarg s) (optopt s) (longind s) (flags_set s).
Definition set_argv (l : list (list Z)) (s : state) : state :=
  mk_state l (optind s) (first_nonopt s) (last_nonopt s) (nextchar s) (ordering s) (initialized s) (optarg s) (optopt s) (longind s) (flags_set s).
Definition set_next (n : option (list Z)) (s : state) : state :=
  mk_state (argv s) (optind s) (first_nonopt s) (last_nonopt s) n (ordering s) (initialized s) (optarg s) (optopt s) (longind s) (flags_set s).
Definition set_arg (a : option (list Z)) (s : state) : state :=
  mk_state (argv s) (optind s) (first_nonopt s) (last_nonopt s) (nextchar s) (ordering s) (initialized s) a (optopt s) (longind s) (flags_set s).
Definition set_opt (c : Z) (s : state) : state :=
  mk_state (argv s) (optind s) (first_nonopt s) (last_nonopt s) (nextchar s) (ordering s) (initialized s) (optarg s) c (longind s) (flags_set s).
Definition set_found (i : Z) (f : option Z) (v : Z) (s : state) : state :=
  mk_state (argv s) (optind s) (first_nonopt s) (last_nonopt s) (nextchar s) (ordering s) (initialized s) (optarg s) (optopt s)
    (Some i) (flags_set s ++ match f with Some a => [(a, v)] | None => [] end).

Abbreviation dash := (45)%Z (only parsing).
Abbreviation colon := (58)%Z (only parsing).
Abbreviation question := (63)%Z (only parsing).

(** [strchr]: the string from the first [chr] on. *)
Fixpoint my_index (str : list Z) (chr : Z) : option (list Z) :=
  match str with [] => None | c :: str' => if c =? chr then Some str else my_index str' chr end.

(** ** Permutation *)

Definition arg (l : list (list Z)) (i : Z) : list Z := default [] (l !! Z.to_nat i).
Definition swap_args (i j : Z) (l : list (list Z)) : list (list Z) :=
  let tem := arg l i in <[Z.to_nat j := tem]> (<[Z.to_nat i := arg l j]> l).
(** [for (i = 0; i < len; i++)] from [i] on: exchange the elements at [a + i] and [b + i]. *)
Fixpoint swap_loop (rounds : nat) (a b : Z) (l : list (list Z)) : list (list Z) :=
  match rounds with O => l | S r => swap_loop r (a + 1) (b + 1) (swap_args a b l) end.
(** Each round makes the distance from [bottom] to [top] smaller, which is the fuel. *)
Fixpoint exchange_loop (fuel : nat) (bottom middle top : Z) (l : list (list Z)) : list (list Z) :=
  match fuel with
  | O => l
  | S fuel =>
      if (middle <? top) && (bottom <? middle) then
        if middle - bottom <? top - middle then
          let len := middle - bottom in
          exchange_loop fuel bottom middle (top - len) (swap_loop (Z.to_nat len) bottom (top - (middle - bottom)) l)
        else
          let len := top - middle in
          exchange_loop fuel (bottom + len) middle top (swap_loop (Z.to_nat len) bottom middle l)
      else l
  end.
Definition exchange (s : state) : state :=
  let l := exchange_loop (Z.to_nat (optind s - first_nonopt s)) (first_nonopt s) (last_nonopt s) (optind s) (argv s) in
  set_nonopt (first_nonopt s + (optind s - last_nonopt s)) (optind s) (set_argv l s).

(** ** Initialisation *)

(** The state, and [optstring] without its first character where that selects the order. *)
Definition _getopt_initialize (posixly_correct : bool) (optstring : list Z) (s : state) : list Z * state :=
  let start o := mk_state (argv s) (optind s) (optind s) (optind s) None o true (optarg s) (optopt s) (longind s) (flags_set s) in
  match optstring with
  | c :: rest =>
      if c =? dash then (rest, start RETURN_IN_ORDER)
      else if c =? 43 then (rest, start REQUIRE_ORDER)
      else (optstring, start (if posixly_correct then REQUIRE_ORDER else PERMUTE))
  | [] => (optstring, start (if posixly_correct then REQUIRE_ORDER else PERMUTE))
  end.

Definition NONOPTION_P (a : list Z) : bool := negb (rd a 0 =? dash) || (rd a 1 =? 0).
Definition is_dashes (a : list Z) : bool := bool_decide (a = [dash; dash]).

(** [while (optind < argc && NONOPTION_P)] on the elements from [optind] on. *)
Fixpoint skip_nonoptions (l : list (list Z)) : Z :=
  match l with a :: l => if NONOPTION_P a then 1 + skip_nonoptions l else 0 | [] => 0 end.

(** ** Long options *)

(** Up to a [=]. *)
Fixpoint name_end (l : list Z) : list Z * list Z :=
  match l with
  | c :: l' => if c =? 61 then ([], l) else let '(a, b) := name_end l' in (c :: a, b)
  | [] => ([], [])
  end.
(** The search: the option found with its index, whether it is exact, and whether there is
    another; [differs] decides when another one counts. *)
Fixpoint long_loop (differs : option_t -> option_t -> bool) (typed : list Z) (l : list option_t) (i : Z)
    (found : option (option_t * Z)) (ambig : bool) : option (option_t * Z) * bool * bool :=
  match l with
  | [] => (found, false, ambig)
  | p :: l =>
      if bool_decide (take (length typed) (name p) = typed) then
        if zlen typed =? zlen (name p) then (Some (p, i), true, ambig)
        else match found with
             | None => long_loop differs typed l (i + 1) (Some (p, i)) ambig
             | Some (q, _) => long_loop differs typed l (i + 1) found (ambig || differs q p)
             end
      else long_loop differs typed l (i + 1) found ambig
  end.
Definition differs_long (long_only : bool) (q p : option_t) : bool :=
  long_only || negb (has_arg q =? has_arg p) || negb (bool_decide (flag q = flag p)) || negb (val q =? val p).

(** What happens with an option that was found; [tail] is what follows its name, [colon_first]
    whether [optstring] starts with a colon; [set_optopt] whether [optopt] is set on an error. *)
Definition long_found (p : option_t) (i : Z) (tail : list Z) (colon_first set_optopt : bool) (argc : Z) (s : state) : Z * state :=
  let err c s := (c, if set_optopt then set_opt (val p) s else s) in
  let done s := (match flag p with Some _ => 0 | None => val p end, set_found i (flag p) (val p) (set_next (Some []) s)) in
  match tail with
  | _ :: value =>
      if negb (has_arg p =? 0) then done (set_arg (Some value) s)
      else err question (set_next (Some []) s)
  | [] =>
      if has_arg p =? 1 then
        if optind s <? argc then done (set_optind (optind s + 1) (set_arg (Some (arg (argv s) (optind s))) s))
        else err (if colon_first then colon else question) (set_next (Some []) s)
      else done s
  end.

(** ** Short options *)

(** [-W]: [None] for the access through a NULL pointer when there are no long options. *)
Definition w_option (longopts : option (list option_t)) (c : Z) (colon_first : bool) (argc : Z) (next : list Z) (s : state) : option (Z * state) :=
  let search (value : list Z) (s : state) :=
    match longopts with
    | None => None
    | Some l =>
        let '(typed, tail) := name_end value in
        let '(found, exact, ambig) := long_loop (fun _ _ => true) typed l 0 None false in
        if ambig && negb exact then Some (question, set_optind (optind s + 1) (set_next (Some []) s))
        else match found with
             | Some (p, i) => Some (long_found p i tail colon_first false argc s)
             | None => Some (87, set_next None s)
             end
    end in
  match next with
  | _ :: _ => search next (set_optind (optind s + 1) (set_arg (Some next) s))
  | [] =>
      if optind s =? argc then Some (if colon_first then colon else question, set_opt c s)
      else let a := arg (argv s) (optind s) in search a (set_optind (optind s + 1) (set_arg (Some a) s))
  end.

(** The short option [c] with [next] behind it in its argument. *)
Definition short_option (optstring : list Z) (longopts : option (list option_t)) (argc c : Z) (next : list Z) (s : state) : option (Z * state) :=
  let colon_first := rd optstring 0 =? colon in
  let temp := my_index optstring c in
  let s := set_next (Some next) s in
  let s := match next with [] => set_optind (optind s + 1) s | _ => s end in
  match temp with
  | None => Some (question, set_opt c s)
  | Some temp =>
      if c =? colon then Some (question, set_opt c s)
      else if (rd temp 0 =? 87) && (rd temp 1 =? 59) then w_option longopts c colon_first argc next s
      else if rd temp 1 =? colon then
        if rd temp 2 =? colon then
          Some (c, set_next None (match next with _ :: _ => set_optind (optind s + 1) (set_arg (Some next) s) | [] => set_arg None s end))
        else
          match next with
          | _ :: _ => Some (c, set_next None (set_optind (optind s + 1) (set_arg (Some next) s)))
          | [] =>
              if optind s =? argc then Some (if colon_first then colon else question, set_next None (set_opt c s))
              else Some (c, set_next None (set_optind (optind s + 1) (set_arg (Some (arg (argv s) (optind s))) s)))
          end
      else Some (c, s)
  end.

(** ** The whole function *)

(** Options behind skipped non-options are moved before them, and further ones are skipped. *)
Definition permute (s : state) : state :=
  let s := if negb (first_nonopt s =? last_nonopt s) && negb (last_nonopt s =? optind s) then exchange s
           else if negb (last_nonopt s =? optind s) then set_nonopt (optind s) (last_nonopt s) s
           else s in
  let i := optind s + skip_nonoptions (drop (Z.to_nat (optind s)) (argv s)) in
  set_nonopt (first_nonopt s) i (set_optind i s).
(** Two dashes end the options. *)
Definition end_of_options (argc : Z) (s : state) : state :=
  if negb (optind s =? argc) && is_dashes (arg (argv s) (optind s)) then
    let s := set_optind (optind s + 1) s in
    let s := if negb (first_nonopt s =? last_nonopt s) && negb (last_nonopt s =? optind s) then exchange s
             else if first_nonopt s =? last_nonopt s then set_nonopt (optind s) (last_nonopt s) s
             else s in
    set_optind argc (set_nonopt (first_nonopt s) argc s)
  else s.

(** Advancing to the next element: the result to return, or [None] to go on. *)
Definition advance (longopts : option (list option_t)) (argc : Z) (s : state) : option Z * state :=
  let s := if optind s <? last_nonopt s then set_nonopt (first_nonopt s) (optind s) s else s in
  let s := if optind s <? first_nonopt s then set_nonopt (optind s) (last_nonopt s) s else s in
  let s := match ordering s with PERMUTE => permute s | _ => s end in
  let s := end_of_options argc s in
  if optind s =? argc then (Some (-1), if negb (first_nonopt s =? last_nonopt s) then set_optind (first_nonopt s) s else s)
  else
    let a := arg (argv s) (optind s) in
    if NONOPTION_P a then
      match ordering s with
      | REQUIRE_ORDER => (Some (-1), s)
      | _ => (Some 1, set_optind (optind s + 1) (set_arg (Some a) s))
      end
    else
      let skip := match longopts with Some _ => if rd a 1 =? dash then 2%nat else 1%nat | None => 1%nat end in
      (None, set_next (Some (drop skip a)) s).

(** Behind it: the current element is decoded. *)
Definition decode (optstring : list Z) (longopts : option (list option_t)) (long_only : bool) (argc : Z) (s : state) : option (Z * state) :=
  let a := arg (argv s) (optind s) in
  let next := default [] (nextchar s) in
  let short := short_option optstring longopts argc (rd next 0) (drop 1 next) in
  match longopts with
  | Some l =>
      if (rd a 1 =? dash)
         || (long_only && (negb (rd a 2 =? 0) || match my_index optstring (rd a 1) with None => true | Some _ => false end)) then
        let '(typed, tail) := name_end next in
        let '(found, exact, ambig) := long_loop (differs_long long_only) typed l 0 None false in
        if ambig && negb exact then Some (question, set_opt 0 (set_optind (optind s + 1) (set_next (Some []) s)))
        else match found with
             | Some (p, i) => Some (long_found p i tail (rd optstring 0 =? colon) true argc (set_optind (optind s + 1) s))
             | None =>
                 if negb long_only || (rd a 1 =? dash) || match my_index optstring (rd next 0) with None => true | Some _ => false end
                 then Some (question, set_opt 0 (set_optind (optind s + 1) (set_next (Some []) s)))
                 else short s
             end
      else short s
  | None => short s
  end.

(** [argc] is the length of [argv]; [None] for an access through NULL. *)
Definition _getopt_internal (posixly_correct : bool) (optstring : list Z) (longopts : option (list option_t)) (long_only : bool) (s : state)
    : option (Z * state) :=
  let argc := zlen (argv s) in
  if argc <? 1 then Some (-1, s)
  else
    let s := set_arg None s in
    let '(optstring, s) :=
      if (optind s =? 0) || negb (initialized s)
      then _getopt_initialize posixly_correct optstring (if optind s =? 0 then set_optind 1 s else s)
      else (optstring, s) in
    match nextchar s with
    | Some (_ :: _) => decode optstring longopts long_only argc s
    | _ =>
        match advance longopts argc s with
        | (Some r, s) => Some (r, s)
        | (None, s) => decode optstring longopts long_only argc s
        end
    end.

Definition getopt (posixly_correct : bool) (optstring : list Z) (s : state) : option (Z * state) :=
  _getopt_internal posixly_correct optstring None false s.

(** Before the first call. *)
Definition start (argv : list (list Z)) : state :=
  mk_state argv 1 0 0 None REQUIRE_ORDER false None question None [].

End Getopt.

Module GetoptFacts.
Import Getopt.

(** ** The exchange *)

Lemma arg_app_r (a b : list (list Z)) x c i : i = zlen a -> arg (a ++ x :: c) i = x.
Proof. intros ->. unfold arg, zlen. by rewrite Nat2Z.id, lookup_app_r, Nat.sub_diag by lia. Qed.

(** Two elements with a stretch between them. *)
Lemma swap_args_app pre x mid y post i j : i = zlen pre -> j = zlen pre + 1 + zlen mid ->
  swap_args i j (pre ++ x :: mid ++ y :: post) = pre ++ y :: mid ++ x :: post.
Proof.
  intros -> ->. unfold swap_args, arg.
  assert (Ej : Z.to_nat (zlen pre + 1 + zlen mid) = length (pre ++ x :: mid)) by (rewrite length_app; unfold zlen; cbn [length]; lia).
  assert (Ei : Z.to_nat (zlen pre) = length pre) by (unfold zlen; lia). rewrite Ei, Ej.
  assert (L1 : (pre ++ x :: mid ++ y :: post) !! length pre = Some x) by (by apply list_lookup_middle).
  assert (L2 : (pre ++ x :: mid ++ y :: post) !! length (pre ++ x :: mid) = Some y)
    by (change (x :: mid ++ y :: post) with ((x :: mid) ++ y :: post); rewrite app_assoc; by apply list_lookup_middle).
  rewrite L1, L2. cbn [default from_option id].
  assert (I1 : <[length pre := y]> (pre ++ x :: mid ++ y :: post) = pre ++ y :: mid ++ y :: post)
    by (rewrite insert_app_r_alt, Nat.sub_diag by lia; done).
  rewrite I1. replace (length (pre ++ x :: mid)) with (length (pre ++ y :: mid)) by (by rewrite !length_app).
  change (y :: mid ++ ?l) with ((y :: mid) ++ l). rewrite (app_assoc pre (y :: mid)), (app_assoc pre (y :: mid)).
  by rewrite insert_app_r_alt, Nat.sub_diag by lia.
Qed.

Lemma swap_loop_app X : forall Y pre mid post i j, length X = length Y -> i = zlen pre -> j = zlen pre + zlen X + zlen mid ->
  swap_loop (length X) i j (pre ++ X ++ mid ++ Y ++ post) = pre ++ Y ++ mid ++ X ++ post.
Proof.
  induction X as [|x X IH]; intros Y pre mid post i j Hl Hi Hj; destruct Y as [|y Y]; try done. cbn [length swap_loop].
  assert (E : pre ++ (x :: X) ++ mid ++ (y :: Y) ++ post = pre ++ x :: (X ++ mid) ++ y :: (Y ++ post)) by (rewrite <- !app_assoc; done).
  rewrite E, swap_args_app by (rewrite ?zlen_app; unfold zlen in *; cbn [length] in *; lia).
  replace (pre ++ y :: (X ++ mid) ++ x :: Y ++ post) with ((pre ++ [y]) ++ X ++ (mid ++ [x]) ++ Y ++ post) by (rewrite <- !app_assoc; done).
  rewrite IH; [|by injection Hl|..].
  - rewrite <- !app_assoc. done.
  - rewrite zlen_app. unfold zlen in *. cbn [length] in *. lia.
  - rewrite !zlen_app. unfold zlen in *. cbn [length] in *. lia.
Qed.

(** Two adjacent stretches change places. *)
Lemma exchange_loop_app fuel : forall A B pre post b m t,
  b = zlen pre -> m = b + zlen A -> t = m + zlen B -> (length A + length B <= fuel)%nat ->
  exchange_loop fuel b m t (pre ++ A ++ B ++ post) = pre ++ B ++ A ++ post.
Proof.
  induction fuel as [|fuel IH]; intros A B pre post b m t Hb Hm Ht Hf.
  { destruct A, B; cbn in Hf; try lia. done. }
  cbn [exchange_loop]. destruct A as [|x A'].
  { rewrite (proj2 (Z.ltb_ge b m)), andb_false_r by (unfold zlen in *; cbn in *; lia). done. }
  destruct B as [|y B'].
  { rewrite (proj2 (Z.ltb_ge m t)) by (unfold zlen in *; cbn in *; lia). done. }
  set (A := x :: A') in *. set (B := y :: B') in *. assert (0 < zlen A) by (unfold zlen; cbn; lia). assert (0 < zlen B) by (unfold zlen; cbn; lia).
  rewrite (proj2 (Z.ltb_lt m t)), (proj2 (Z.ltb_lt b m)) by lia. cbn [andb]. destruct (Z.ltb_spec (m - b) (t - m)) as [Hlt|Hge].
  - (* the first stretch goes behind, in place of the end of the second *)
    rewrite <- (take_drop (length B - length A) B). set (B1 := take _ B). set (B2 := drop _ B).
    assert (H1 : zlen B1 = zlen B - zlen A) by (unfold B1, zlen in *; rewrite length_take; lia).
    assert (H2 : length A = length B2) by (unfold B2, zlen in *; rewrite length_drop; lia).
    replace (Z.to_nat (m - b)) with (length A) by (unfold zlen in *; lia). rewrite <- (app_assoc B1).
    rewrite swap_loop_app by (done || lia). rewrite <- (app_assoc B1).
    apply IH; unfold zlen in *; lia.
  - (* the second goes in front, in place of the start of the first *)
    rewrite <- (take_drop (length B) A). set (A1 := take _ A). set (A2 := drop _ A).
    assert (H1 : length A1 = length B) by (unfold A1, zlen in *; rewrite length_take; lia).
    assert (H2 : zlen A2 = zlen A - zlen B) by (unfold A2, zlen in *; rewrite length_drop; lia).
    replace (Z.to_nat (t - m)) with (length A1) by (unfold zlen in *; lia). rewrite <- (app_assoc A1).
    rewrite (swap_loop_app A1 B pre A2 post) by (rewrite ?H1; unfold zlen in *; lia).
    rewrite (app_assoc pre B), <- (app_assoc A1). rewrite (app_assoc pre B).
    rewrite IH; [done|rewrite ?zlen_app; unfold zlen in *; lia..].
Qed.

Lemma exchange_app s p O N E rest : argv s = p :: O ++ N ++ E ++ rest -> first_nonopt s = 1 + zlen O ->
  last_nonopt s = 1 + zlen O + zlen N -> optind s = 1 + zlen O + zlen N + zlen E ->
  exchange s = set_nonopt (1 + zlen O + zlen E) (optind s) (set_argv (p :: O ++ E ++ N ++ rest) s).
Proof.
  intros Ha Hf Hl Ho. unfold exchange. rewrite Ha, Hf, Hl, Ho. change (p :: O ++ N ++ E ++ rest) with ((p :: O) ++ N ++ E ++ rest).
  rewrite exchange_loop_app; [|unfold zlen; cbn [length]; lia..]. unfold set_nonopt, set_argv. cbn. f_equal. lia.
Qed.

(** ** Between two elements *)

(** The leading non-options. *)
Fixpoint lead (l : list (list Z)) : list (list Z) * list (list Z) :=
  match l with
  | a :: l' => if NONOPTION_P a then let '(m, r) := lead l' in (a :: m, r) else ([], l)
  | [] => ([], [])
  end.
Lemma lead_spec l : let '(m, r) := lead l in
  l = m ++ r /\ skip_nonoptions l = zlen m /\ match r with a :: _ => NONOPTION_P a = false | [] => True end.
Proof.
  induction l as [|a l IH]; [done|]. cbn [lead skip_nonoptions]. destruct (NONOPTION_P a) eqn:E; [|done].
  destruct (lead l) as [m r]. destruct IH as (-> & -> & H). split_and!; auto. unfold zlen. cbn [length]. lia.
Qed.

(** Options [O] in place, non-options [N] skipped, options [E] behind them, and the rest. *)
Record shape (s : state) (p : list Z) (O N E rest : list (list Z)) : Prop := {
  sh_argv : argv s = p :: O ++ N ++ E ++ rest;
  sh_some : N <> [] -> first_nonopt s = 1 + zlen O /\ last_nonopt s = 1 + zlen O + zlen N;
  sh_none : N = [] -> first_nonopt s = last_nonopt s /\ last_nonopt s <= optind s;
  sh_optind : optind s = 1 + zlen O + zlen N + zlen E;
  sh_order : ordering s = PERMUTE;
  sh_init : initialized s = true;
}.

(** What [permute] and what follows leaves alone. *)
Definition same (s t : state) : Prop :=
  nextchar s = nextchar t /\ ordering s = ordering t /\ initialized s = initialized t /\ optarg s = optarg t.

Lemma permute_spec s p O N E rest : shape s p O N E rest -> let '(m, r) := lead rest in
  argv (permute s) = p :: (O ++ E) ++ (N ++ m) ++ r /\ first_nonopt (permute s) = 1 + zlen (O ++ E) /\
  last_nonopt (permute s) = optind (permute s) /\ optind (permute s) = 1 + zlen (O ++ E) + zlen (N ++ m) /\ same (permute s) s.
Proof.
  intros []. pose proof (lead_spec rest) as Hl. destruct (lead rest) as [m r]. destruct Hl as (Hr & Hs & _).
  assert (H : exists t, (if negb (first_nonopt s =? last_nonopt s) && negb (last_nonopt s =? optind s) then exchange s
             else if negb (last_nonopt s =? optind s) then set_nonopt (optind s) (last_nonopt s) s else s) = t /\
    argv t = p :: (O ++ E) ++ N ++ rest /\ first_nonopt t = 1 + zlen (O ++ E) /\ optind t = optind s /\ same t s).
  { eexists. split; [reflexivity|]. rewrite zlen_app. destruct N as [|x N'].
    - destruct (sh_none0 eq_refl) as [E1 E2]. rewrite E1, Z.eqb_refl. cbn [negb andb]. unfold zlen in sh_optind0 at 2. cbn [length] in sh_optind0.
      cbn [app] in *. rewrite <- app_assoc. destruct (Z.eqb_spec (last_nonopt s) (optind s)) as [E3|]; cbn; split_and!; try done; lia.
    - destruct (sh_some0 ltac:(done)) as [E1 E2]. set (N := x :: N') in *. assert (0 < zlen N) by (unfold zlen; cbn; lia).
      destruct (Z.eqb_spec (first_nonopt s) (last_nonopt s)); [lia|]. cbn [negb andb].
      destruct (Z.eqb_spec (last_nonopt s) (optind s)) as [E3|E3]; cbn [negb].
      + assert (zlen E = 0) as H0 by lia. apply nil_length_inv_zlen in H0 as ->. rewrite app_nil_r in *. cbn [app] in *.
        split_and!; try done. rewrite E1. unfold zlen. cbn [length]. lia.
      + rewrite (exchange_app s p O N E rest) by done. cbn. rewrite <- app_assoc. split_and!; done || lia. }
  destruct H as (t & Et & Ha & Hf & Ho & Hsame). unfold permute. cbv zeta. rewrite Et. cbn.
  rewrite Ha, Ho. assert (Hd : drop (Z.to_nat (optind s)) (p :: (O ++ E) ++ N ++ rest) = rest).
  { rewrite sh_optind0. change (p :: (O ++ E) ++ N ++ rest) with ((p :: O ++ E) ++ N ++ rest). rewrite (app_assoc _ N rest).
    apply drop_app_length'. rewrite !length_app. cbn [length]. rewrite length_app. unfold zlen. lia. }
  rewrite Hd, Hs. split_and!; try done.
  - by rewrite Hr, <- (app_assoc N).
  - rewrite sh_optind0, !zlen_app. lia.
Qed.

(** Where the options end at two dashes: at an element [a] behind options [O'] and skipped [N']. *)
Lemma end_at_dashes s p O' N' a q argc : argv s = p :: O' ++ N' ++ a :: q -> first_nonopt s = 1 + zlen O' -> last_nonopt s = optind s ->
  optind s = 1 + zlen O' + zlen N' -> argc = zlen (argv s) -> is_dashes a = true ->
  let t := end_of_options argc s in
  argv t = p :: (O' ++ [a]) ++ N' ++ q /\ optind t = argc /\ last_nonopt t = argc /\ first_nonopt t = 2 + zlen O'.
Proof.
  intros Ha Hf Hl Ho Hc Hd. unfold end_of_options.
  assert (Hz : argc = 2 + zlen O' + zlen N' + zlen q).
  { rewrite Hc, Ha. unfold zlen. cbn [length]. rewrite !length_app. cbn [length]. lia. }
  pose proof (zlen_nonneg q). pose proof (zlen_nonneg O'). pose proof (zlen_nonneg N').
  destruct (Z.eqb_spec (optind s) argc); [lia|]. cbn [negb andb].
  assert (Harg : arg (argv s) (optind s) = a).
  { unfold arg. rewrite Ha, Ho. change (p :: O' ++ N' ++ a :: q) with ((p :: O') ++ N' ++ a :: q). rewrite app_assoc.
    replace (Z.to_nat (1 + zlen O' + zlen N')) with (length ((p :: O') ++ N')) by (rewrite length_app; unfold zlen; cbn [length]; lia).
    by rewrite list_lookup_middle. }
  rewrite Harg, Hd. cbv zeta. cbn [set_optind first_nonopt last_nonopt optind]. rewrite Hf, Hl.
  destruct (Z.eqb_spec (1 + zlen O') (optind s)) as [E|E]; cbn [negb andb].
  - assert (zlen N' = 0) as Hn0 by lia. apply nil_length_inv_zlen in Hn0 as ->. cbn [app] in *. cbn. rewrite Ha, <- app_assoc.
    split_and!; try done; lia.
  - destruct (Z.eqb_spec (optind s) (optind s + 1)); [lia|]. cbn [negb].
    rewrite (exchange_app (set_optind (optind s + 1) s) p O' N' [a] q).
    + cbn. rewrite <- app_assoc. split_and!; try done. unfold zlen. cbn [length]. lia.
    + exact Ha.
    + exact Hf.
    + cbn. lia.
    + cbn. rewrite Ho. unfold zlen. cbn [length]. lia.
Qed.

Lemma getopt_advance_spec s p O N E rest : shape s p O N E rest -> let '(m, r) := lead rest in
  match r with
  | [] => exists t, advance None (zlen (argv s)) s = (Some (-1), t) /\ argv t = p :: (O ++ E) ++ N ++ m /\ optind t = 1 + zlen (O ++ E)
  | a :: q =>
      if is_dashes a then
        exists t, advance None (zlen (argv s)) s = (Some (-1), t) /\ argv t = p :: (O ++ E ++ [a]) ++ (N ++ m) ++ q /\
          optind t = 1 + zlen (O ++ E ++ [a])
      else
        exists t, advance None (zlen (argv s)) s = (None, t) /\ shape t p (O ++ E) (N ++ m) [] (a :: q) /\
          nextchar t = Some (drop 1 a) /\ optarg t = optarg s
  end.
Proof.
  intros Hs. pose proof (permute_spec _ _ _ _ _ _ Hs) as Hp. pose proof (lead_spec rest) as Hl. destruct (lead rest) as [m r].
  destruct Hl as (Hr & _ & Hhead). destruct Hp as (Ha & Hf & Hla & Ho & Hnx & Hor & Hin & Hoa). pose proof Hs as [].
  assert (Hlen : zlen (argv s) = 1 + zlen (O ++ E) + zlen (N ++ m) + zlen r).
  { rewrite sh_argv0, Hr. unfold zlen. cbn [length]. rewrite !length_app. lia. }
  assert (Hle : last_nonopt s <= optind s /\ first_nonopt s <= optind s).
  { pose proof (zlen_nonneg O). pose proof (zlen_nonneg N). pose proof (zlen_nonneg E).
    destruct N as [|x N']; [destruct (sh_none0 eq_refl); lia|destruct (sh_some0 ltac:(done)); lia]. }
  unfold advance. rewrite (proj2 (Z.ltb_ge (optind s) (last_nonopt s))), (proj2 (Z.ltb_ge (optind s) (first_nonopt s))) by lia.
  rewrite sh_order0. cbv zeta. destruct r as [|a q].
  - unfold end_of_options. assert (optind (permute s) = zlen (argv s)) as E1 by (rewrite Ho, Hlen; unfold zlen; cbn [length]; lia).
    rewrite E1, Z.eqb_refl. cbn [negb andb]. rewrite E1, Z.eqb_refl. eexists. split; [reflexivity|].
    rewrite app_nil_r in Ha. destruct (Z.eqb_spec (first_nonopt (permute s)) (last_nonopt (permute s))) as [E2|]; cbn [negb set_optind argv optind]; (split; [done|]); congruence.
  - destruct (is_dashes a) eqn:Hd.
    + destruct (end_at_dashes (permute s) p (O ++ E) (N ++ m) a q (zlen (argv s))) as (H1 & H2 & H3 & H4); try done.
      { rewrite Hlen, Ha. unfold zlen. cbn [length]. rewrite !length_app. cbn [length]. lia. }
      rewrite H2, Z.eqb_refl. eexists. split; [reflexivity|]. rewrite H3, H4.
      assert (Hx : zlen (O ++ E ++ [a]) = 1 + zlen (O ++ E)) by (rewrite !zlen_app; unfold zlen; cbn [length]; lia). rewrite Hx, (app_assoc O E [a]).
      destruct (Z.eqb_spec (2 + zlen (O ++ E)) (zlen (argv s))) as [E2|]; cbn [negb set_optind argv optind]; split; try done; lia.
    + assert (Harg : arg (argv (permute s)) (optind (permute s)) = a).
      { unfold arg. rewrite Ha, Ho. change (p :: (O ++ E) ++ (N ++ m) ++ a :: q) with ((p :: O ++ E) ++ (N ++ m) ++ a :: q). rewrite app_assoc.
        replace (Z.to_nat (1 + zlen (O ++ E) + zlen (N ++ m))) with (length ((p :: O ++ E) ++ N ++ m))
          by (unfold zlen; cbn [app length]; rewrite !length_app; lia).
        by rewrite list_lookup_middle. }
      unfold end_of_options. rewrite Harg, Hd, andb_false_r. pose proof (zlen_nonneg q).
      destruct (Z.eqb_spec (optind (permute s)) (zlen (argv s))) as [E1|]; [rewrite Ho, Hlen in E1; unfold zlen in E1; cbn [length] in E1; lia|].
      rewrite Harg, Hhead. eexists. split; [reflexivity|]. cbn [set_next nextchar optarg]. split; [|done].
      split; cbn [set_next argv first_nonopt last_nonopt optind ordering initialized].
      * exact Ha.
      * intros _. split; [done|lia].
      * intros E0. rewrite E0 in Ho. unfold zlen in Ho at 2. cbn [length] in Ho. lia.
      * rewrite Ho. unfold zlen at 5. cbn [length]. lia.
      * congruence.
      * congruence.
Qed.

End GetoptFacts.

(** ** A plain parser *)

Module GetoptSpec.
Import Getopt.

Section Spec.
Context (optstring : list Z).

(** The characters of one element: the options, and the one that still needs an argument. *)
Fixpoint cluster (chars : list Z) : list (Z * option (list Z)) * option Z :=
  match chars with
  | [] => ([], None)
  | c :: more =>
      let next r := let '(l, need) := cluster more in (r :: l, need) in
      match my_index optstring c with
      | None => next (question, None)
      | Some temp =>
          if c =? colon then next (question, None)
          else if rd temp 1 =? colon then
            if rd temp 2 =? colon then ([(c, match more with [] => None | _ => Some more end)], None)
            else match more with [] => ([], Some c) | _ => ([(c, Some more)], None) end
          else next (c, None)
      end
  end.
Definition missing : Z := if rd optstring 0 =? colon then colon else question.

(** What is returned, the elements that belong to options, and the others. *)
Fixpoint parse (args : list (list Z)) : list (Z * option (list Z)) * list (list Z) * list (list Z) :=
  match args with
  | [] => ([], [], [])
  | a :: rest =>
      if NONOPTION_P a then let '(r, o, n) := parse rest in (r, o, a :: n)
      else if is_dashes a then ([], [a], rest)
      else
        let '(l, need) := cluster (drop 1 a) in
        match need with
        | None => let '(r, o, n) := parse rest in (l ++ r, a :: o, n)
        | Some c =>
            match rest with
            | [] => (l ++ [(missing, None)], [a], [])
            | b :: rest' => let '(r, o, n) := parse rest' in (l ++ (c, Some b) :: r, a :: b :: o, n)
            end
        end
  end.
End Spec.

(** Calls until -1: what they return, with [optarg]. *)
Fixpoint getopt_all (fuel : nat) (optstring : list Z) (s : state) : option (list (Z * option (list Z)) * state) :=
  match fuel with
  | O => None
  | S fuel =>
      '(r, s) ← getopt false optstring s;
      if r =? -1 then Some ([], s) else '(l, t) ← getopt_all fuel optstring s; Some ((r, optarg s) :: l, t)
  end.
End GetoptSpec.

Module GetoptProps.
Import Getopt GetoptFacts GetoptSpec.

Section Run.
Context (optstring : list Z).
Hypothesis Hchars : Forall (fun c => 0 < c) optstring.
(** [-W] for long options is not used. *)
Hypothesis HW : forall t, my_index optstring 87 = Some t -> rd t 1 <> 59.

Definition runs (s : state) (l : list (Z * option (list Z))) (v : list (list Z)) (i : Z) : Prop :=
  forall fuel, (length l < fuel)%nat -> exists t, getopt_all fuel optstring s = Some (l, t) /\ argv t = v /\ optind t = i.

Lemma runs_end s t : getopt false optstring s = Some (-1, t) -> runs s [] (argv t) (optind t).
Proof. intros H [|fuel] Hf; [lia|]. cbn [getopt_all]. rewrite H. cbn. eauto. Qed.
Lemma runs_step s r t l v i : getopt false optstring s = Some (r, t) -> r <> -1 -> runs t l v i -> runs s ((r, optarg t) :: l) v i.
Proof.
  intros H Hr Hl [|fuel] Hf; cbn [length] in Hf; [lia|]. cbn [getopt_all]. rewrite H. cbn [mbind option_bind].
  destruct (Z.eqb_spec r (-1)); [done|]. destruct (Hl fuel ltac:(lia)) as (u & -> & Hu). cbn. eauto.
Qed.

Lemma my_index_in l c t : Forall (fun c => 0 < c) l -> my_index l c = Some t -> 0 < c.
Proof. induction 1 as [|d l Hd _ IH]; [done|]. cbn [my_index]. destruct (Z.eqb_spec d c) as [<-|]; [done|exact IH]. Qed.
Lemma my_index_head l c t : my_index l c = Some t -> rd t 0 = c.
Proof. induction l as [|d l IH]; [done|]. cbn [my_index]. destruct (Z.eqb_spec d c) as [->|]; [intros [= <-]; done|done]. Qed.

Lemma runs_same s t l v i : getopt false optstring s = getopt false optstring t -> runs t l v i -> runs s l v i.
Proof. intros H Hr [|fuel] Hf; [lia|]. cbn [getopt_all]. rewrite H. exact (Hr (S fuel) Hf). Qed.
Lemma set_arg_none t : optarg t = None -> set_arg None t = t.
Proof. destruct t. cbn. by intros ->. Qed.
Lemma option_rest a : NONOPTION_P a = false -> drop 1 a <> [].
Proof. destruct a as [|c [|d a]]; try done. unfold NONOPTION_P. change (rd [c] 1) with 0. by rewrite orb_true_r. Qed.

(** A call within an element is [short_option]. *)
Lemma getopt_inside s c more : initialized s = true -> 1 <= optind s -> nextchar s = Some (c :: more) -> 1 <= zlen (argv s) ->
  getopt false optstring s = short_option optstring None (zlen (argv s)) c more (set_arg None s).
Proof.
  intros Hi Ho Hn Hl. unfold getopt, _getopt_internal. cbv zeta. rewrite (proj2 (Z.ltb_ge (zlen (argv s)) 1)) by lia.
  cbn [set_arg optind initialized nextchar]. rewrite Hi. destruct (Z.eqb_spec (optind s) 0); [lia|]. cbn [orb negb].
  change (nextchar (set_arg None s)) with (nextchar s). rewrite Hn. unfold decode. cbn [set_arg nextchar]. rewrite Hn. done.
Qed.
Lemma getopt_between s : initialized s = true -> 1 <= optind s -> (nextchar s = None \/ nextchar s = Some []) -> 1 <= zlen (argv s) ->
  getopt false optstring s
  = match advance None (zlen (argv s)) (set_arg None s) with
    | (Some r, t) => Some (r, t)
    | (None, t) => decode optstring None false (zlen (argv s)) t
    end.
Proof.
  intros Hi Ho Hn Hl. unfold getopt, _getopt_internal. cbv zeta. rewrite (proj2 (Z.ltb_ge (zlen (argv s)) 1)) by lia.
  cbn [set_arg optind initialized nextchar]. rewrite Hi. destruct (Z.eqb_spec (optind s) 0); [lia|]. cbn [orb negb].
  change (nextchar (set_arg None s)) with (nextchar s). by destruct Hn as [-> | ->].
Qed.

(** A state whose next call starts with the rest. *)
Definition between (s : state) (p : list Z) (O N E rest : list (list Z)) : Prop :=
  shape s p O N E rest /\ (nextchar s = None \/ nextchar s = Some []).
(** What is to be shown of it. *)
Definition finishes (s : state) (p : list Z) (O N E rest : list (list Z)) : Prop :=
  let '(r, o, n) := parse optstring rest in runs s r (p :: (O ++ E ++ o) ++ N ++ n) (1 + zlen (O ++ E ++ o)).

(** The parser skips leading non-options. *)
Lemma parse_lead rest : let '(m, r) := lead rest in let '(l, o, n) := parse optstring r in parse optstring rest = (l, o, m ++ n).
Proof.
  induction rest as [|a rest IH]; [done|]. cbn [lead]. destruct (NONOPTION_P a) eqn:E.
  - destruct (lead rest) as [m r]. destruct (parse optstring r) as [[l o] n]. cbn [parse]. by rewrite E, IH.
  - by destruct (parse optstring (a :: rest)) as [[l o] n].
Qed.

(** The parser on an element with options [l], which is [a], before [q]. *)
Definition element (a : list Z) (q : list (list Z)) (l : list (Z * option (list Z))) (need : option Z)
    : list (Z * option (list Z)) * list (list Z) * list (list Z) :=
  match need with
  | None => let '(r, o, n) := parse optstring q in (l ++ r, a :: o, n)
  | Some c =>
      match q with
      | [] => (l ++ [(missing optstring, None)], [a], [])
      | b :: q' => let '(r, o, n) := parse optstring q' in (l ++ (c, Some b) :: r, a :: b :: o, n)
      end
  end.
Lemma element_cons a q x l need : let '(r, o, n) := element a q l need in element a q (x :: l) need = (x :: r, o, n).
Proof.
  unfold element. destruct need; [destruct q as [|b q]; [done|destruct (parse optstring q) as [[? ?] ?]; done]|].
  by destruct (parse optstring q) as [[? ?] ?].
Qed.

(** States of a call that leaves the arguments alone. *)
Definition moved (s t : state) (k : Z) : Prop :=
  argv t = argv s /\ ordering t = ordering s /\ initialized t = initialized s /\ first_nonopt t = first_nonopt s /\
  last_nonopt t = last_nonopt s /\ optind t = optind s + k.
Lemma moved_shape s t p O N e rest : shape s p O N [] (e ++ rest) -> moved s t (zlen e) -> shape t p O N e rest.
Proof.
  intros [] (E1 & E2 & E3 & E4 & E5 & E6). split; rewrite ?E1, ?E2, ?E3, ?E4, ?E5, ?E6; auto.
  - intros HN. destruct (sh_none0 HN). pose proof (zlen_nonneg e). split; lia.
  - rewrite sh_optind0. unfold zlen. cbn [length]. lia.
Qed.

(** What is still to be shown behind the element. *)
Definition onwards (p : list Z) (O N : list (list Z)) (a : list Z) (q : list (list Z)) : Prop :=
  (forall t, between t p O N [a] q -> finishes t p O N [a] q) /\
  (forall t b q', q = b :: q' -> between t p O N [a; b] q' -> finishes t p O N [a; b] q').

(** The element ends with this call. *)
Lemma last_call s t p O N a q c : shape s p O N [] (a :: q) -> onwards p O N a q -> getopt false optstring s = Some (c, t) -> c <> -1 ->
  moved s t 1 -> (nextchar t = None \/ nextchar t = Some []) ->
  let '(r, o, n) := element a q [(c, optarg t)] None in runs s r (p :: (O ++ o) ++ N ++ n) (1 + zlen (O ++ o)).
Proof.
  intros Hs [Hend _] Hg Hc Hm Hn. assert (B : between t p O N [a] q) by (split; [by eapply (moved_shape s)|done]).
  specialize (Hend t B). unfold finishes in Hend. cbn [element]. destruct (parse optstring q) as [[r o] n].
  cbn [app] in Hend |- *. by eapply runs_step.
Qed.
(** Its last option takes the next element. *)
Lemma arg_call s t p O N a b q c : shape s p O N [] (a :: b :: q) -> onwards p O N a (b :: q) -> getopt false optstring s = Some (c, t) -> c <> -1 ->
  moved s t 2 -> (nextchar t = None \/ nextchar t = Some []) -> optarg t = Some b ->
  let '(r, o, n) := element a (b :: q) [] (Some c) in runs s r (p :: (O ++ o) ++ N ++ n) (1 + zlen (O ++ o)).
Proof.
  intros Hs [_ Harg] Hg Hc Hm Hn Ha. assert (B : between t p O N [a; b] q) by (split; [by eapply (moved_shape s)|done]).
  specialize (Harg t b q eq_refl B). unfold finishes in Harg. cbn [element]. destruct (parse optstring q) as [[r o] n].
  cbn [app] in Harg |- *. rewrite <- Ha. by eapply runs_step.
Qed.

(** An element that is an option: call by call. *)
Lemma cluster_runs chars : forall s p O N a q l need, chars <> [] -> shape s p O N [] (a :: q) -> nextchar s = Some chars ->
  onwards p O N a q -> cluster optstring chars = (l, need) ->
  let '(r, o, n) := element a q l need in runs s r (p :: (O ++ o) ++ N ++ n) (1 + zlen (O ++ o)).
Proof.
  induction chars as [|c more IH]; intros s p O N a q l need Hne Hs Hn Hon; [done|]. clear Hne.
  assert (Hlen : zlen (argv s) = optind s + 1 + zlen q /\ 1 <= optind s).
  { destruct Hs. rewrite sh_argv0, sh_optind0. unfold zlen. cbn [length app]. rewrite !length_app. cbn [length]. lia. }
  destruct Hlen as [Hlen Ho]. pose proof (zlen_nonneg q).
  assert (Hget := getopt_inside s c more (sh_init _ _ _ _ _ _ Hs) Ho Hn ltac:(lia)). unfold short_option in Hget. cbv zeta in Hget.
  (* an option without argument *)
  assert (Hgo : forall cc t, getopt false optstring s = Some (cc, t) -> cc <> -1 -> optarg t = None -> nextchar t = Some more ->
    moved s t (match more with [] => 1 | _ => 0 end) -> forall l' need', cluster optstring more = (l', need') ->
    let '(r, o, n) := element a q ((cc, None) :: l') need' in runs s r (p :: (O ++ o) ++ N ++ n) (1 + zlen (O ++ o))).
  { intros cc t Hg Hcc Ha Hnt Hm l' need' Hcl. rewrite <- Ha. destruct more as [|d more'].
    - injection Hcl as <- <-. eapply last_call; eauto.
    - pose proof (element_cons a q (cc, optarg t) l' need') as He.
      assert (St : shape t p O N [] (a :: q)) by (by eapply (moved_shape s)).
      pose proof (IH t p O N a q l' need' ltac:(done) St Hnt Hon Hcl) as Hr.
      destruct (element a q l' need') as [[r o] n]. rewrite He. by eapply runs_step. }
  assert (Hcases : cluster optstring (c :: more) = (l, need) -> my_index optstring c = None \/ c = 58 ->
    let '(r, o, n) := element a q l need in runs s r (p :: (O ++ o) ++ N ++ n) (1 + zlen (O ++ o))).
  { intros Hcl Hbad. cbn [cluster] in Hcl. destruct (cluster optstring more) as [l' need'] eqn:Em.
    assert (Hq : getopt false optstring s = Some (63, set_opt c (match more with [] => set_optind (optind s + 1) (set_next (Some more) (set_arg None s))
      | _ => set_next (Some more) (set_arg None s) end))).
    { rewrite Hget. destruct (my_index optstring c); [destruct Hbad as [?| ->]; [done|]|]; by destruct more. }
    assert ((l, need) = ((63, None) :: l', need')) as [= -> ->].
    { rewrite <- Hcl. destruct (my_index optstring c); [destruct Hbad as [?| ->]; done|done]. }
    apply (Hgo _ _ Hq); [done|by destruct more|by destruct more|destruct more; unfold moved; cbn; split_and!; done || lia|done]. }
  intros Hcl. destruct (my_index optstring c) as [temp|] eqn:Et; [|apply Hcases; auto].
  destruct (Z.eqb_spec c 58) as [->|Hc]; [apply Hcases; auto|]. clear Hcases.
  pose proof (my_index_in _ _ _ Hchars Et) as Hpos. assert (Hw : (rd temp 0 =? 87) && (rd temp 1 =? 59) = false).
  { rewrite (my_index_head _ _ _ Et). destruct (Z.eqb_spec c 87) as [->|]; [|done]. apply Z.eqb_neq. by apply HW. }
  rewrite Hw in Hget. cbn [cluster] in Hcl. rewrite Et in Hcl. destruct (Z.eqb_spec c 58); [done|].
  destruct (rd temp 1 =? 58).
  - destruct (rd temp 2 =? 58).
    + (* an optional argument *)
      injection Hcl as <- <-. destruct more as [|d more'];
        apply (last_call _ _ _ _ _ _ _ _ Hs Hon Hget); try lia; cbn; auto; unfold moved; cbn; split_and!; done || lia.
    + destruct more as [|d more'].
      * (* its argument is the next element *)
        injection Hcl as <- <-. destruct q as [|b q].
        -- unfold zlen in Hlen at 2. cbn [length] in Hlen. rewrite (proj2 (Z.eqb_eq _ _)) in Hget by (cbn; lia).
           apply (last_call _ _ _ _ _ _ _ _ Hs Hon Hget); [destruct (rd optstring 0 =? 58); lia|unfold moved; cbn; split_and!; done || lia|cbn; auto].
        -- assert (Hz : zlen (b :: q) = 1 + zlen q) by (unfold zlen; cbn [length]; lia). pose proof (zlen_nonneg q).
           rewrite (proj2 (Z.eqb_neq _ _)) in Hget by (cbn; lia).
           assert (Hb : arg (argv s) (optind s + 1) = b).
           { destruct Hs. unfold arg. rewrite sh_argv0, sh_optind0. change (p :: O ++ N ++ [] ++ a :: b :: q) with ((p :: O) ++ N ++ [a] ++ b :: q).
             rewrite !app_assoc.
             erewrite list_lookup_middle; [done|]. rewrite !length_app. unfold zlen. cbn [length]. lia. }
           apply (arg_call _ _ _ _ _ _ _ _ _ Hs Hon Hget); try lia; cbn; auto; [unfold moved; cbn; split_and!; done || lia|]. f_equal. exact Hb.
      * (* the rest of the element is its argument *)
        injection Hcl as <- <-. apply (last_call _ _ _ _ _ _ _ _ Hs Hon Hget); try lia; cbn; auto; unfold moved; cbn; split_and!; done || lia.
  - destruct (cluster optstring more) as [l' need'] eqn:Em. injection Hcl as <- <-.
    eapply Hgo; [exact Hget|lia|by destruct more|by destruct more|destruct more; unfold moved; cbn; split_and!; done || lia|done].
Qed.

(** From between two elements to the end. *)
Lemma between_finishes k : forall s p O N E rest, (length rest <= k)%nat -> between s p O N E rest -> finishes s p O N E rest.
Proof.
  induction k as [k IH] using lt_wf_ind. intros s p O N E rest Hk [Hs Hn]. unfold finishes.
  assert (Hs' : shape (set_arg None s) p O N E rest) by (by destruct Hs).
  pose proof (getopt_advance_spec _ _ _ _ _ _ Hs') as Ha. pose proof (parse_lead rest) as Hp. pose proof (lead_spec rest) as Hl.
  destruct (lead rest) as [m r]. destruct Hl as (Hr & _ & Hhead).
  assert (Hlen : 1 <= zlen (argv s) /\ 1 <= optind s).
  { destruct Hs. rewrite sh_argv0, sh_optind0. unfold zlen. cbn [length]. lia. }
  assert (Hget := getopt_between s (sh_init _ _ _ _ _ _ Hs) (proj2 Hlen) Hn (proj1 Hlen)). change (argv (set_arg None s)) with (argv s) in Ha.
  destruct r as [|a q].
  - cbn [parse] in Hp. rewrite Hp. destruct Ha as (t & Et & Ea & Eo). rewrite Et in Hget. rewrite !app_nil_r, <- Ea, <- Eo. by apply runs_end.
  - cbn [parse] in Hp. rewrite Hhead in Hp. destruct (is_dashes a).
    + rewrite Hp. destruct Ha as (t & Et & Ea & Eo). rewrite Et in Hget. rewrite <- (app_assoc N) in Ea. rewrite <- Ea, <- Eo. by apply runs_end.
    + destruct Ha as (t & Et & St & En & Eo). rewrite Et in Hget.
      destruct (cluster optstring (drop 1 a)) as [l need] eqn:Ec. fold (element a q l need) in Hp.
      assert (Hne : drop 1 a <> []) by (by apply option_rest).
      assert (Hsame : getopt false optstring s = getopt false optstring t).
      { rewrite Hget. destruct (drop 1 a) as [|c more] eqn:Ed; [done|].
        assert (Hlt : zlen (argv t) = zlen (argv s)).
        { rewrite (sh_argv _ _ _ _ _ _ St), (sh_argv _ _ _ _ _ _ Hs), Hr. unfold zlen. cbn [length]. rewrite !length_app. cbn [length]. lia. }
        assert (Hti : 1 <= optind t).
        { rewrite (sh_optind _ _ _ _ _ _ St). unfold zlen. lia. }
        rewrite (getopt_inside t c more (sh_init _ _ _ _ _ _ St) Hti En) by lia. rewrite Hlt.
        rewrite (set_arg_none t Eo).
        unfold decode. by rewrite En. }
      assert (Hon : onwards p (O ++ E) (N ++ m) a q).
      { assert (Hk' : (length q < k)%nat) by (rewrite Hr, length_app in Hk; cbn [length] in Hk; lia). split.
        - intros u Hu. by apply (IH (length q)).
        - intros u b q' -> Hu. cbn [length] in Hk'. apply (IH (length q')); [lia|lia|done]. }
      pose proof (cluster_runs (drop 1 a) t p (O ++ E) (N ++ m) a q l need Hne St En Hon Ec) as Hruns.
      destruct (element a q l need) as [[r o] n]. rewrite Hp. cbv beta iota. rewrite <- (app_assoc O E o), <- (app_assoc N m n) in Hruns. by eapply runs_same.
Qed.

(** Before the first call. *)
Lemma start_finishes p args : rd optstring 0 <> 45 -> rd optstring 0 <> 43 ->
  let '(r, o, n) := parse optstring args in runs (start (p :: args)) r (p :: o ++ n) (1 + zlen o).
Proof.
  intros H1 H2. set (t := mk_state (p :: args) 1 1 1 None PERMUTE true None 63 None []).
  assert (Hsame : getopt false optstring (start (p :: args)) = getopt false optstring t).
  { unfold getopt, _getopt_internal. cbv zeta. cbn [start t argv]. rewrite (proj2 (Z.ltb_ge (zlen (p :: args)) 1)) by (unfold zlen; cbn [length]; lia).
    cbn [set_arg optind initialized orb negb Z.eqb]. unfold _getopt_initialize. destruct optstring as [|c rest]; [done|].
    change (rd (c :: rest) 0) with c in *. destruct (Z.eqb_spec c 45); [done|]. destruct (Z.eqb_spec c 43); [done|]. done. }
  assert (B : between t p [] [] [] args) by (split; [by split|by left]).
  pose proof (between_finishes _ t p [] [] [] args (Nat.le_refl _) B) as H. unfold finishes in H.
  destruct (parse optstring args) as [[r o] n]. cbn [app] in H. by eapply runs_same.
Qed.

End Run.

(** C36.  Without POSIXLY_CORRECT in the environment, and for an option string that starts with
    neither - nor + and in which no W is followed by a semicolon: called until it returns -1,
    the bundled [getopt] returns exactly the options a plain parser finds in the arguments, with their arguments and with unknown options and missing
    arguments in their places; behind it the elements that belong to options come first and
    all others after them, each in its order, and [optind] is the index of the first of the
    others.  It ends: one call per option and one more. *)
Theorem getopt_parses optstring p args :
  Forall (fun c => 0 < c) optstring -> rd optstring 0 <> 45 -> rd optstring 0 <> 43 ->
  (forall t, my_index optstring 87 = Some t -> rd t 1 <> 59) ->
  let '(results, opts, others) := parse optstring args in
  forall fuel, (length results < fuel)%nat ->
    exists t, getopt_all fuel optstring (start (p :: args)) = Some (results, t) /\
      argv t = p :: opts ++ others /\ optind t = 1 + zlen opts.
Proof.
  intros Hc H1 H2 HW. pose proof (start_finishes optstring Hc HW p args H1 H2) as H.
  destruct (parse optstring args) as [[r o] n]. exact H.
Qed.

(** Options d: and b, the arguments: x -bd 7 y -- -b. *)
Lemma getopt_parses_witness :
  exists t, getopt_all 10 [100; 58; 98] (start [[0]; [120]; [45; 98; 100]; [55]; [121]; [45; 45]; [45; 98]])
    = Some ([(98, None); (100, Some [55])], t) /\ argv t = [[0]; [45; 98; 100]; [55]; [45; 45]; [120]; [121]; [45; 98]] /\ optind t = 4.
Proof.
  apply (getopt_parses [100; 58; 98] [0] [[120]; [45; 98; 100]; [55]; [121]; [45; 45]; [45; 98]]); try done.
  - by repeat constructor.
  - cbn. lia.
Defined.

End GetoptProps.
