(* ===== verification/Options.v ===== *)
(** * Command lines of the programs

    [Module Options]: the loop [while ((opt = getopt(...)) != -1) switch (opt)] that all programs
    share, over the bundled [getopt], and the conversions of the arguments they use.  What a case
    of the switch does is a parameter; [None] is a call of [usage], which exits with 1.

    [OptionsProps]: the loop does to the settings what the options of a plain parser of the
    arguments say, in their order. *)

From Stdlib Require Import String Ascii.
From S2P Require Import Prelude Float I2c Usb TunerR82xx TunerFc TunerE4k TunerFc2580 Librtlsdr LibrtlsdrOpen RtlEeprom Convenience Getopt.

Module Options.
Import Getopt GetoptSpec.

(** A program that goes on, or that has called [exit]. *)
Inductive outcome (A : Type) := Exit (code : Z) | Run (a : A).
Arguments Exit {A} code.
Arguments Run {A} a.

Section Loop.
Context {S : Type} (case : Z -> option (list Z) -> S -> option S).

(** The loop from a call of [getopt] on; the first [None] is a lack of fuel. *)
Fixpoint option_loop (fuel : nat) (optstring : list Z) (g : state) (s : S) : option (outcome (S * state)) :=
  match fuel with
  | O => None
  | Datatypes.S fuel =>
      '(opt, g) ← getopt false optstring g;
      if opt =? -1 then Some (Run (s, g))
      else match case opt (optarg g) s with None => Some (Exit 1) | Some s => option_loop fuel optstring g s end
  end.

(** The options one after the other. *)
Fixpoint cases (l : list (Z * option (list Z))) (s : S) : option S :=
  match l with [] => Some s | (opt, arg) :: l => s ← case opt arg s; cases l s end.
End Loop.

(** Characters and strings of the source; [strcmp(a, b) == 0]. *)
Definition chr (c : ascii) : Z := Z.of_N (N_of_ascii c).
Definition is_opt (c : ascii) (opt : Z) : bool := opt =? chr c.
Definition same (s : string) (arg : list Z) : bool := bool_decide (Eeprom.str s = arg).

(** What a program takes over of the command line behind its options: the file name, [-] when
    there is none. *)
Definition file_name (g : state) : list Z :=
  if zlen (argv g) <=? optind g then Eeprom.str "-" else arg (argv g) (optind g).

(** The conversions: [(int)(atof(x) * 10)], [(uint32_t)atofs(x)] and the like; [None] is the
    access before an empty string in [atofs]. *)
Section Numbers.
Context (atof : list Z -> flt).
Definition tenths (x : list Z) : Z := s32 (f_trunc (f64_mul (atof x) (f64_of_Z 10))).
Definition atof_int (x : list Z) : Z := s32 (f_trunc (atof x)).
Definition atof_u32 (x : list Z) : Z := u32 (f_trunc (atof x)).
Definition atofs_u32 (x : list Z) : option Z := v ← Convenience.atofs atof x; Some (u32 (f_trunc v)).
Definition atofs_int (x : list Z) : option Z := v ← Convenience.atofs atof x; Some (s32 (f_trunc v)).
End Numbers.
End Options.

Module OptionsProps.
Import Getopt GetoptSpec GetoptProps Options.

Lemma option_loop_all {S} (case : Z -> option (list Z) -> S -> option S) fuel optstring :
  forall g s l t, getopt_all fuel optstring g = Some (l, t) ->
  option_loop case fuel optstring g s = Some (match cases case l s with Some s => Run (s, t) | None => Exit 1 end).
Proof.
  induction fuel as [|fuel IH]; intros g s l t; cbn [getopt_all option_loop]; [done|].
  destruct (getopt false optstring g) as [[opt g']|]; cbn [mbind option_bind]; [|done].
  destruct (opt =? -1); [by intros [= <- <-]|]. destruct (getopt_all fuel optstring g') as [[l' t']|] eqn:E; cbn [mbind option_bind]; [|done].
  intros [= <- <-]. cbn [cases]. destruct (case opt (optarg g') s) as [s'|]; cbn [mbind option_bind]; [|done]. by apply IH.
Qed.

(** The settings of a program are those of the options of a plain parser, taken in order, and the
    file name is the first argument that belongs to no option. *)
Theorem options_in_order {S} (case : Z -> option (list Z) -> S -> option S) optstring p args s :
  Forall (fun c => 0 < c) optstring -> rd optstring 0 <> 45 -> rd optstring 0 <> 43 ->
  (forall t, my_index optstring 87 = Some t -> rd t 1 <> 59) ->
  let '(l, opts, others) := parse optstring args in
  forall fuel, (length l < fuel)%nat ->
    match cases case l s with
    | None => option_loop case fuel optstring (start (p :: args)) s = Some (Exit 1)
    | Some s' => exists g, option_loop case fuel optstring (start (p :: args)) s = Some (Run (s', g)) /\
        file_name g = match others with [] => Eeprom.str "-" | x :: _ => x end
    end.
Proof.
  intros H1 H2 H3 H4. pose proof (start_finishes optstring H1 H4 p args H2 H3) as H.
  destruct (parse optstring args) as [[l o] n]. intros fuel Hf. destruct (H fuel Hf) as (t & Ht & Ea & Ei).
  pose proof (option_loop_all case fuel optstring _ s _ _ Ht) as E. destruct (cases case l s) as [s'|]; [|done].
  exists t. split; [done|]. unfold file_name, arg, zlen in *. rewrite Ea, Ei. rewrite app_comm_cons, length_app. destruct n as [|x n]; cbn [length].
  - by rewrite (proj2 (Z.leb_le _ _)) by lia.
  - rewrite (proj2 (Z.leb_gt _ _)) by lia. rewrite lookup_app_r by (cbn [length]; lia). cbn [length].
    replace (Z.to_nat (1 + Z.of_nat (length o)) - Datatypes.S (length o))%nat with O by lia. done.
Qed.
End OptionsProps.
