(* ===== verification/RtlFmRun.v ===== *)
(** * The program around the FM demodulator ([src/src/rtl_fm.c])

    [Module FmMain]: the options, the checks behind them and what [main] and the head of
    [controller_thread_fn] set on the device.  [Module FmThreads]: the four threads with the
    condition variables of [Handover], wake-ups without a signal, the states of the reader that a
    cancellation depends on, the signal handler and the end of [main], as steps between critical
    sections.

    [FmMainProps]: what the options allow the demodulator to assume.  [FmThreadsProps]: the blocks
    written are blocks of the demodulator, in their order; all of them when each thread is back in
    time; nothing runs any more when [main] returns; when it returns, and how it can hang. *)

From Stdlib Require Import String Ascii.
From stdpp Require Import relations.
From S2P Require Import Prelude Float I2c Usb TunerR82xx TunerFc TunerE4k TunerFc2580 Librtlsdr LibrtlsdrOpen RtlEeprom Convenience Getopt Options Handover RtlFm RtlFmProps.

Module FmMain.
Import Getopt Options Fm.

Abbreviation AUTO_GAIN := (-100)%Z (only parsing).
Definition optstring : list Z := Eeprom.str "d:f:g:s:b:l:o:t:r:p:E:F:A:M:hT".
Definition lcm_post : list Z := [1; 1; 1; 3; 1; 5; 3; 7; 1; 9; 5; 11; 3; 13; 7; 15; 1].

(** What the options set of [dongle], [controller], [demod] and [output]; [o_lut]: the table of
    arc tangents was computed. *)
Record options := mk_options {
  o_dev : Z; o_dev_given : bool; o_gain : Z; o_ppm : Z; o_offset : bool; o_direct : Z; o_biastee : bool;
  o_ctl : controller_state; o_cfg : demod_config; o_terminate : bool; o_rate : Z; o_lut : bool;
}.
Definition set_ctl (c : controller_state) (o : options) : options :=
  mk_options (o_dev o) (o_dev_given o) (o_gain o) (o_ppm o) (o_offset o) (o_direct o) (o_biastee o) c (o_cfg o) (o_terminate o) (o_rate o) (o_lut o).
Definition set_cfg (c : demod_config) (o : options) : options :=
  mk_options (o_dev o) (o_dev_given o) (o_gain o) (o_ppm o) (o_offset o) (o_direct o) (o_biastee o) (o_ctl o) c (o_terminate o) (o_rate o) (o_lut o).
Definition set_dongle (dev : Z) (given : bool) (gain ppm : Z) (offset : bool) (direct : Z) (biastee : bool) (o : options) : options :=
  mk_options dev given gain ppm offset direct biastee (o_ctl o) (o_cfg o) (o_terminate o) (o_rate o) (o_lut o).
Definition set_rest (terminate : bool) (rate : Z) (lut : bool) (o : options) : options :=
  mk_options (o_dev o) (o_dev_given o) (o_gain o) (o_ppm o) (o_offset o) (o_direct o) (o_biastee o) (o_ctl o) (o_cfg o) terminate rate lut.

(** [dongle_init], [demod_init], [output_init] and [controller_init] on static memory. *)
Definition options_init : options :=
  mk_options 0 false AUTO_GAIN 0 false 0 false
    (Fm.controller_init (mk_controller (replicate (Z.to_nat FREQUENCIES_LIMIT) 0) 0 0 0 false))
    (demod_init [] []).1 false DEFAULT_SAMPLE_RATE false.

Section Options.
(** [atof], and the answers of [verbose_device_search]. *)
Context (atof : list Z -> flt) (search : list Z -> Z).

(** The string up to a colon, and behind it. *)
Fixpoint colon_split (s : list Z) : list Z * option (list Z) :=
  match s with
  | [] => ([], None)
  | c :: s => if c =? chr ":" then ([], Some s) else let '(a, r) := colon_split s in (c :: a, r)
  end.
(** The parts of a range, as [frequency_range] cuts and converts them. *)
Definition freq_parts (arg : list Z) : option freq_arg :=
  let '(start, rest) := colon_split arg in
  match rest with
  | None => v ← atofs_u32 atof start; Some (F_one v)
  | Some rest =>
      let '(stop, rest) := colon_split rest in
      match rest with
      | None => v ← atofs_u32 atof start; w ← atofs_u32 atof stop; Some (F_two v w)
      | Some step => v ← atofs_int atof start; w ← atofs_int atof stop; x ← atofs_int atof step; Some (F_range v w x)
      end
  end.

(** The modes [-M] knows. *)
Definition option_M (arg : list Z) (o : options) : options :=
  let '(mk_config ri ro ro2 ds pd sc sl cs dp cf ca de da dc m) := o_cfg o in
  let with_mode m := set_cfg (mk_config ri ro ro2 ds pd sc sl cs dp cf ca de da dc m) o in
  if same "fm" arg then with_mode M_fm
  else if same "raw" arg then with_mode M_raw
  else if same "am" arg then with_mode M_am
  else if same "usb" arg then with_mode M_usb
  else if same "lsb" arg then with_mode M_lsb
  else if same "wbfm" arg then
    set_ctl (mk_controller (freqs (o_ctl o)) (freq_len (o_ctl o)) (freq_now (o_ctl o)) (edge (o_ctl o)) true)
      (set_cfg (mk_config 170000 170000 32000 ds pd sc 0 cs dp cf 1 true da dc M_fm) o)
  else o.
Definition option_E (arg : list Z) (o : options) : options :=
  let '(mk_config ri ro ro2 ds pd sc sl cs dp cf ca de da dc m) := o_cfg o in
  if same "edge" arg then set_ctl (mk_controller (freqs (o_ctl o)) (freq_len (o_ctl o)) (freq_now (o_ctl o)) 1 (wb_mode (o_ctl o))) o
  else if same "dc" arg then set_cfg (mk_config ri ro ro2 ds pd sc sl cs dp cf ca de da true m) o
  else if same "deemp" arg then set_cfg (mk_config ri ro ro2 ds pd sc sl cs dp cf ca true da dc m) o
  else if same "direct" arg then set_dongle (o_dev o) (o_dev_given o) (o_gain o) (o_ppm o) (o_offset o) 1 (o_biastee o) o
  else if same "direct2" arg then set_dongle (o_dev o) (o_dev_given o) (o_gain o) (o_ppm o) (o_offset o) 2 (o_biastee o) o
  else if same "offset" arg then set_dongle (o_dev o) (o_dev_given o) (o_gain o) (o_ppm o) true (o_direct o) (o_biastee o) o
  else o.
Definition option_A (arg : list Z) (o : options) : options :=
  let '(mk_config ri ro ro2 ds pd sc sl cs dp cf ca de da dc m) := o_cfg o in
  let with_atan a := set_cfg (mk_config ri ro ro2 ds pd sc sl cs dp cf a de da dc m) o in
  if same "std" arg then with_atan 0
  else if same "fast" arg then with_atan 1
  else if same "lut" arg then set_rest (o_terminate o) (o_rate o) true (with_atan 2)
  else o.

(** The switch of [main]. *)
Definition fm_case (opt : Z) (a : option (list Z)) (o : options) : option options :=
  let arg := default [] a in
  let '(mk_config ri ro ro2 ds pd sc sl cs dp cf ca de da dc m) := o_cfg o in
  if is_opt "d" opt then Some (set_dongle (search arg) true (o_gain o) (o_ppm o) (o_offset o) (o_direct o) (o_biastee o) o)
  else if is_opt "f" opt then
    if FREQUENCIES_LIMIT <=? freq_len (o_ctl o) then Some o
    else p ← freq_parts arg; Some (set_ctl (option_f p (o_ctl o)) o)
  else if is_opt "g" opt then
    Some (set_dongle (o_dev o) (o_dev_given o) (tenths atof arg) (o_ppm o) (o_offset o) (o_direct o) (o_biastee o) o)
  else if is_opt "l" opt then Some (set_cfg (mk_config ri ro ro2 ds pd sc (atof_int atof arg) cs dp cf ca de da dc m) o)
  else if is_opt "s" opt then
    v ← atofs_u32 atof arg; Some (set_cfg (mk_config (s32 v) (s32 v) ro2 ds pd sc sl cs dp cf ca de da dc m) o)
  else if is_opt "r" opt then
    v ← atofs_int atof arg;
    Some (set_rest (o_terminate o) v (o_lut o) (set_cfg (mk_config ri ro v ds pd sc sl cs dp cf ca de da dc m) o))
  else if is_opt "o" opt then Some (set_cfg (mk_config ri ro ro2 ds (atof_int atof arg) sc sl cs dp cf ca de da dc m) o)
  else if is_opt "t" opt then
    let v := atof_int atof arg in
    if v <? 0 then Some (set_rest true (o_rate o) (o_lut o) (set_cfg (mk_config ri ro ro2 ds pd sc sl (s32 (- v)) dp cf ca de da dc m) o))
    else Some (set_cfg (mk_config ri ro ro2 ds pd sc sl v dp cf ca de da dc m) o)
  else if is_opt "p" opt then
    Some (set_dongle (o_dev o) (o_dev_given o) (o_gain o) (Eeprom.atoi arg) (o_offset o) (o_direct o) (o_biastee o) o)
  else if is_opt "E" opt then Some (option_E arg o)
  else if is_opt "F" opt then Some (set_cfg (mk_config ri ro ro2 ds pd sc sl cs 1 (Eeprom.atoi arg) ca de da dc m) o)
  else if is_opt "A" opt then Some (option_A arg o)
  else if is_opt "M" opt then Some (option_M arg o)
  else if is_opt "T" opt then
    Some (set_dongle (o_dev o) (o_dev_given o) (o_gain o) (o_ppm o) (o_offset o) (o_direct o) true o)
  else None.

(** From the options to [rtlsdr_open]: the settings, [ACTUAL_BUF_LENGTH] and the device; the
    access to [lcm_post] behind its end is a fault. *)
Definition settle (o : options) : option (outcome (options * Z)) :=
  let '(mk_config ri ro ro2 ds pd sc sl cs dp cf ca de da dc m) := o_cfg o in
  let o := set_cfg (mk_config (s32 (ri * pd)) ro ro2 ds pd sc sl cs dp cf ca de da dc m) o in
  let o := if o_rate o =? 0 then set_rest (o_terminate o) ro (o_lut o) o else o in
  if negb (sanity_checks (o_ctl o) sl) then Some (Exit 1)
  else
    let o := if 1 <? freq_len (o_ctl o) then set_rest false (o_rate o) (o_lut o) o else o in
    if negb ((0 <=? pd) && (pd <? zlen lcm_post)) then None
    else
      let len := rd lcm_post pd * DEFAULT_BUF_LENGTH in
      let o := if o_dev_given o then o
               else set_dongle (search (Eeprom.str "0")) false (o_gain o) (o_ppm o) (o_offset o) (o_direct o) (o_biastee o) o in
      if o_dev o <? 0 then Some (Exit 1) else Some (Run (o, len)).
End Options.

(** The settings behind [rtlsdr_open]. *)
Definition deemphasis `{Libm} (c : demod_config) : demod_config :=
  let '(mk_config ri ro ro2 ds pd sc sl cs dp cf ca de da dc m) := c in
  let one := f64_of_Z 1 in
  let tau := f64_mul (f64_of_Z ro) (f64_lit 75 1000000) in
  let a := s32 (f_round (f64_div one (f64_sub one (exp (f64_div (f64_of_Z (-1)) tau))))) in
  mk_config ri ro ro2 ds pd sc sl cs dp cf ca de (if de then a else da) dc m.

Section Device.
Context {U : Type} `{Libusb U}.
Import Usb Librtlsdr Convenience.
(** What [main] sets, and what the controller sets before its loop. *)
Definition device_settings (o : options) : st (rtlsdr_dev U) unit :=
  _ ← (if o_gain o =? AUTO_GAIN then verbose_auto_gain else g ← nearest_gain (o_gain o); verbose_gain_set g);
  _ ← on_core (rtlsdr_set_bias_tee (b2z (o_biastee o)));
  _ ← verbose_ppm_set (o_ppm o);
  _ ← verbose_reset_buffer;
  mret tt.
Definition first_channel (o : options) : st (rtlsdr_dev U) demod_config :=
  let ctl := controller_start (o_ctl o) in
  let '(cfg, freq, rate) := optimal_settings (s32 (rd (freqs ctl) 0)) (o_offset o) (edge ctl) (o_cfg o) in
  _ ← (if o_direct o =? 0 then mret 0 else verbose_direct_sampling (o_direct o));
  _ ← (if o_offset o then verbose_offset_tuning else mret 0);
  _ ← verbose_set_frequency freq;
  _ ← verbose_set_sample_rate rate;
  mret cfg.
End Device.
End FmMain.

Module FmThreads.
Import Fm Handover.

(** What the demodulator does between two waits: told to hop; a block to copy; its signal to
    send. *)
Inductive stage := B_none | B_hop | B_copy (block : list Z) | B_signal.
(** The thread of the dongle in [rtlsdr_read_async]: [async_status] is not yet
    [RTLSDR_RUNNING]; it is; it is [RTLSDR_CANCELING]; the thread has returned. *)
Inductive dongle_at := D_starting | D_running | D_canceling | D_ended.
#[global] Instance dongle_at_eq_dec : EqDecision dongle_at.
Proof. solve_decision. Defined.
(** Where [main] is, from its loop on. *)
Inductive main_at := M_loop | M_cancel | M_join_dongle | M_signal_demod | M_join_demod
  | M_signal_output | M_join_output | M_signal_hop | M_join_hop | M_returned.

(** [do_exit]; where the thread of the dongle is; how much is to be muted, the demodulator and
    the controller; the three condition variables with the threads
    that wait; what is in [output.result], what was stored there so far and what is in the file;
    the frequencies tuned to.  [got] are the buffers stored for the demodulator, with how much of
    them was muted. *)
Record fm := mk_fm {
  do_exit : bool; dongle : dongle_at;
  mute : Z; cfg : demod_config; dm : demod_state; ctl : controller_state;
  h_demod : hand; h_output : hand; h_hop : hand; busy : stage;
  output : list Z; stored : list (list Z); file : list (list Z); tuned : list Z;
  got : list (Z * list Z); main : main_at;
}.

Section Threads.
Context `{Arctan} (offset_tuning : bool).

Definition set_exit (e : bool) (f : fm) : fm :=
  mk_fm e (dongle f) (mute f) (cfg f) (dm f) (ctl f) (h_demod f) (h_output f) (h_hop f) (busy f) (output f) (stored f) (file f) (tuned f) (got f) (main f).
Definition set_dongle (d : dongle_at) (f : fm) : fm :=
  mk_fm (do_exit f) d (mute f) (cfg f) (dm f) (ctl f) (h_demod f) (h_output f) (h_hop f) (busy f) (output f) (stored f) (file f) (tuned f) (got f) (main f).
Definition set_demod (h : hand) (b : stage) (f : fm) : fm :=
  mk_fm (do_exit f) (dongle f) (mute f) (cfg f) (dm f) (ctl f) h (h_output f) (h_hop f) b (output f) (stored f) (file f) (tuned f) (got f) (main f).
Definition set_output (h : hand) (f : fm) : fm :=
  mk_fm (do_exit f) (dongle f) (mute f) (cfg f) (dm f) (ctl f) (h_demod f) h (h_hop f) (busy f) (output f) (stored f) (file f) (tuned f) (got f) (main f).
Definition set_hop (h : hand) (f : fm) : fm :=
  mk_fm (do_exit f) (dongle f) (mute f) (cfg f) (dm f) (ctl f) (h_demod f) (h_output f) h (busy f) (output f) (stored f) (file f) (tuned f) (got f) (main f).
Definition set_main (m : main_at) (f : fm) : fm :=
  mk_fm (do_exit f) (dongle f) (mute f) (cfg f) (dm f) (ctl f) (h_demod f) (h_output f) (h_hop f) (busy f) (output f) (stored f) (file f) (tuned f) (got f) m.

(** [rtlsdr_callback] up to the release of the lock; its signal follows. *)
Definition callback (buf : list Z) (f : fm) : fm :=
  if do_exit f then f
  else
    mk_fm (do_exit f) (dongle f) 0 (cfg f) (rtlsdr_callback offset_tuning (mute f) buf (dm f)) (ctl f)
      (store (h_demod f)) (h_output f) (h_hop f) (busy f) (output f) (stored f) (file f) (tuned f) (got f ++ [(mute f, buf)]) (main f).
Definition callback_signal (f : fm) : fm := set_demod (safe_cond_signal (h_demod f)) (busy f) f.
(** [dongle_thread_fn] behind [rtlsdr_read_async]. *)
Definition dongle_ends (r : Z) (f : fm) : fm :=
  set_dongle D_ended (if negb (r =? 0) && negb (do_exit f) then set_exit true f else f).
(** [rtlsdr_cancel_async]: it has no effect but on a reader that is [RTLSDR_RUNNING]. *)
Definition rtlsdr_cancel_async (f : fm) : fm := if bool_decide (dongle f = D_running) then set_dongle D_canceling f else f.

(** [demod_thread_fn]: the work under the lock; the hop; the copy under the lock of the output,
    and its signal.  [exit_flag] is never set.  [None] is a division by zero, which ends the
    process. *)
Definition demod_work (f : fm) : option fm :=
  '(d, out, hop) ← demod_round (cfg f) (dm f);
  let b := match out with Some o => B_copy o | None => B_hop end in
  Some (mk_fm (do_exit f) (dongle f) (mute f) (cfg f) d (ctl f) (use (h_demod f)) (h_output f) (h_hop f) b
    (output f) (stored f) (file f) (tuned f) (got f) (main f)).
Definition demod_hop (f : fm) : fm := set_hop (safe_cond_signal (h_hop f)) (set_demod (back (h_demod f)) B_none f).
Definition demod_copy (o : list Z) (f : fm) : fm :=
  mk_fm (do_exit f) (dongle f) (mute f) (cfg f) (dm f) (ctl f) (h_demod f) (store (h_output f)) (h_hop f) B_signal
    o (stored f ++ [o]) (file f) (tuned f) (got f) (main f).
Definition demod_signal (f : fm) : fm := set_output (safe_cond_signal (h_output f)) (set_demod (back (h_demod f)) B_none f).

(** [output_thread_fn]: the write under the lock. *)
Definition output_write (f : fm) : fm :=
  mk_fm (do_exit f) (dongle f) (mute f) (cfg f) (dm f) (ctl f) (h_demod f) (use (h_output f)) (h_hop f) (busy f)
    (output f) (stored f) (file f ++ [output f]) (tuned f) (got f) (main f).

(** [controller_thread_fn] behind its wait. *)
Definition controller_work (f : fm) : fm :=
  let h := use (h_hop f) in
  match controller_hop (ctl f) with
  | (c, None) =>
      mk_fm (do_exit f) (dongle f) (mute f) (cfg f) (dm f) c (h_demod f) (h_output f) h (busy f)
        (output f) (stored f) (file f) (tuned f) (got f) (main f)
  | (c, Some freq) =>
      let '(cfg', freq, _) := optimal_settings (s32 freq) offset_tuning (edge c) (cfg f) in
      mk_fm (do_exit f) (dongle f) BUFFER_DUMP cfg' (dm f) c (h_demod f) (h_output f) h (busy f)
        (output f) (stored f) (file f) (tuned f ++ [freq]) (got f) (main f)
  end.

(** [sighandler]. *)
Definition sighandler (f : fm) : fm := rtlsdr_cancel_async (set_exit true f).

(** A step of [main] behind the creation of the threads; [None] while it waits in
    [pthread_join]. *)
Definition joined (h : hand) (m : main_at) (f : fm) : option fm := if bool_decide (at_ h = C_done) then Some (set_main m f) else None.
Definition main_step (f : fm) : option fm :=
  match main f with
  | M_loop => Some (if do_exit f then set_main M_cancel f else f)
  | M_cancel => Some (set_main M_join_dongle (rtlsdr_cancel_async f))
  | M_join_dongle => if bool_decide (dongle f = D_ended) then Some (set_main M_signal_demod f) else None
  | M_signal_demod => Some (set_main M_join_demod (set_demod (safe_cond_signal (h_demod f)) (busy f) f))
  | M_join_demod => joined (h_demod f) M_signal_output f
  | M_signal_output => Some (set_main M_join_output (set_output (safe_cond_signal (h_output f)) f))
  | M_join_output => joined (h_output f) M_signal_hop f
  | M_signal_hop => Some (set_main M_join_hop (set_hop (safe_cond_signal (h_hop f)) f))
  | M_join_hop => joined (h_hop f) M_returned f
  | M_returned => None
  end.

(** What may happen: the buffers the reader hands over, whether [pthread_cond_wait] may return
    without a signal, whether reading may fail, whether signals may arrive. *)
Record world := mk_world { w_ok : list Z -> Prop; w_wakes : Prop; w_fails : Prop; w_signals : Prop }.

(** The interleavings, until the process returns from [main] or divides by zero.  The reader
    calls the callback once at a time, and returns when it was cancelled or with an error. *)
Inductive fstep (w : world) : fm -> fm -> Prop :=
  | S_running f : dongle f = D_starting -> fstep w f (set_dongle D_running f)
  | S_callback f buf : w_ok w buf -> dongle f = D_running \/ dongle f = D_canceling -> due (h_demod f) = false -> fstep w f (callback buf f)
  | S_callback_signal f : due (h_demod f) = true -> fstep w f (callback_signal f)
  | S_dongle f r : dongle f <> D_ended -> due (h_demod f) = false -> dongle f = D_canceling \/ r <> 0 /\ w_fails w -> fstep w f (dongle_ends r f)
  | S_demod_test f : at_ (h_demod f) = C_test -> fstep w f (set_demod (test (do_exit f) (h_demod f)) (busy f) f)
  | S_demod_wait f : at_ (h_demod f) = C_lock -> fstep w f (set_demod (safe_cond_wait (h_demod f)) (busy f) f)
  | S_demod_wake f : w_wakes w -> at_ (h_demod f) = C_wait -> fstep w f (set_demod (wake (h_demod f)) (busy f) f)
  | S_demod_work f f' : at_ (h_demod f) = C_woken -> demod_work f = Some f' -> fstep w f f'
  | S_demod_hop f : busy f = B_hop -> fstep w f (demod_hop f)
  | S_demod_copy f o : busy f = B_copy o -> fstep w f (demod_copy o f)
  | S_demod_signal f : busy f = B_signal -> fstep w f (demod_signal f)
  | S_output_test f : at_ (h_output f) = C_test -> fstep w f (set_output (test (do_exit f) (h_output f)) f)
  | S_output_wait f : at_ (h_output f) = C_lock -> fstep w f (set_output (safe_cond_wait (h_output f)) f)
  | S_output_wake f : w_wakes w -> at_ (h_output f) = C_wait -> fstep w f (set_output (wake (h_output f)) f)
  | S_output_write f : at_ (h_output f) = C_woken -> fstep w f (output_write f)
  | S_output_back f : at_ (h_output f) = C_busy -> fstep w f (set_output (back (h_output f)) f)
  | S_hop_test f : at_ (h_hop f) = C_test -> fstep w f (set_hop (test (do_exit f) (h_hop f)) f)
  | S_hop_wait f : at_ (h_hop f) = C_lock -> fstep w f (set_hop (safe_cond_wait (h_hop f)) f)
  | S_hop_wake f : w_wakes w -> at_ (h_hop f) = C_wait -> fstep w f (set_hop (wake (h_hop f)) f)
  | S_hop_work f : at_ (h_hop f) = C_woken -> fstep w f (controller_work f)
  | S_hop_back f : at_ (h_hop f) = C_busy -> fstep w f (set_hop (back (h_hop f)) f)
  | S_signal f : w_signals w -> fstep w f (sighandler f)
  | S_main f f' : main_step f = Some f' -> fstep w f f'.

(** The threads at their start, with the controller behind the settings of its first channel. *)
Definition fm_start (c : demod_config) (d : demod_state) (k : controller_state) : fm :=
  mk_fm false D_starting 0 c d k Handover.start Handover.start Handover.start B_none [] [] [] [] [] M_loop.
End Threads.
End FmThreads.

Module FmThreadsProps.
Import Fm Typed Handover HandoverFacts FmThreads.

Section Threads.
Context `{Arctan} (ot : bool).

(** What the reader hands over. *)
Definition buffer_ok (b : list Z) : Prop := bytes b /\ zlen b mod 2 = 0 /\ zlen b <= MAXIMUM_BUF_LENGTH.
(** Everything may happen. *)
Definition anything : world := mk_world buffer_ok True True True.
Abbreviation steps := (fstep ot anything).

(** The rates for which [fm_rate_accepted] holds. *)
Definition rate_ok (c : demod_config) : Prop :=
  3937 <= rate_in c /\ (if downsample_passes c =? 0 then rate_in c <= 2200000 else rate_in c <= 600000).

(** The block with a number. *)
Definition block (l : list (list Z)) (k : nat) : list Z := match k with O => [] | S k => default [] (l !! k) end.

Record finv (f : fm) : Prop := {
  fi_cfg : config_ok (cfg f) /\ rate_ok (cfg f);
  fi_typed : typed (dm f) /\ whole (cfg f) (dm f);
  fi_demod : in_order (h_demod f);
  fi_output : in_order (h_output f);
  fi_count : count (h_output f) = length (stored f);
  fi_last : output f = block (stored f) (length (stored f));
  fi_file : file f = block (stored f) <$> uses (h_output f);
  fi_stored : Forall block_ok (stored f);
  fi_copy : forall o, busy f = B_copy o -> block_ok o;
}.

Lemma block_snoc l o k : (k <= length l)%nat -> block (l ++ [o]) k = block l k.
Proof. intros Hk. destruct k as [|k]; [done|]. cbn. by rewrite lookup_app_l by lia. Qed.
Lemma block_last l o : block (l ++ [o]) (length (l ++ [o])) = o.
Proof. rewrite length_app. cbn. rewrite Nat.add_1_r. cbn. by rewrite lookup_app_r, Nat.sub_diag by lia. Qed.

Lemma settings_keep freq e c : config_ok c -> rate_ok c ->
  let '(c', _, _) := optimal_settings freq ot e c in config_ok c' /\ rate_ok c' /\ (downsample_passes c' = 0 <-> downsample_passes c = 0).
Proof.
  intros [Hp Hq] [R1 R2]. pose proof (Rates.fm_rate_accepted freq ot e c R1 R2) as Hf. unfold optimal_settings in *.
  destruct Hf as (_ & _ & _ & _ & Hd). unfold config_ok, rate_ok, CIC_TABLE_MAX in *. cbn [rate_in downsample_passes post_downsample] in *.
  destruct (Z.eqb_spec (downsample_passes c) 0) as [E|E].
  - rewrite E. split_and!; try lia; done.
  - destruct (Hd E) as [_ H8]. rewrite (proj2 (Z.eqb_neq _ 0)) by lia. split_and!; try lia.
Qed.

Lemma finv_start c d k : config_ok c -> rate_ok c -> typed d -> whole c d -> finv (fm_start c d k).
Proof. intros. split; cbn; auto using in_order_start; done. Qed.

Lemma finv_main f f' : finv f -> main_step f = Some f' -> finv f'.
Proof.
  intros [] . unfold main_step, joined, rtlsdr_cancel_async. destruct (main f); repeat case_match; intros [= <-]; split; cbn; auto with hand.
Qed.

Lemma finv_step f f' : finv f -> steps f f' -> finv f'.
Proof.
  intros I S. destruct S as [f|f b Hb Hr Hd|f Hd|f r Hr Hd Hc|f Ha|f Ha|f _ Ha|f f' Ha Hw|f Hb|f o Hb|f Hb|f Ha|f Ha|f _ Ha|f Ha|f Ha|f Ha|f Ha|f _ Ha|f Ha|f Ha|f _|f f' Hm];
    try (by eapply finv_main); try (destruct I; split; cbn; auto with hand; done).
  - unfold callback. destruct (do_exit f); [done|]. destruct Hb as (H1 & H2 & H3). destruct I as [? [Ht Hw]]. split; cbn; auto with hand.
    split; [by apply callback_typed|]. intros _. done.
  - unfold dongle_ends. destruct (_ && _), I; split; cbn; auto with hand.
  - unfold demod_work in Hw. destruct I as [[Hc Hr] [Ht Hl]]. pose proof (demod_round_typed (cfg f) (dm f) Hc Ht Hl) as Hx.
    destruct (demod_round (cfg f) (dm f)) as [[[d out] hop]|]; [|done]. destruct Hx as (T1 & W1 & Ho). injection Hw as <-. split; cbn; auto with hand.
    intros o. destruct out as [o'|]; [|done]. intros [= <-]. by apply Ho.
  - destruct I. split; cbn; auto with hand.
    + rewrite length_app, fi_count0. cbn. lia.
    + by rewrite block_last.
    + rewrite fi_file0. apply list_fmap_ext. intros i k Hk. rewrite block_snoc; [done|]. rewrite <- fi_count0.
      destruct fi_output0 as [_ Hu]. rewrite Forall_lookup in Hu. by apply (Hu i).
    + apply Forall_app. split; [done|]. constructor; [by apply fi_copy0|constructor].
    + done.
  - destruct I. split; cbn; auto with hand. rewrite fmap_app, fi_file0. cbn. by rewrite fi_last0, fi_count0.
  - unfold controller_work. destruct (controller_hop (ctl f)) as [k [freq|]]; [|destruct I; split; cbn; auto with hand].
    destruct I as [[Hc Hr] [Ht Hw]]. pose proof (settings_keep (s32 freq) (edge k) (cfg f) Hc Hr) as Hx.
    destruct (optimal_settings _ _ _ _) as [[c' fr] rate]. destruct Hx as (H1 & H2 & H3). split; cbn; auto with hand.
    split; [done|]. intros E. by apply Hw, H3.
  - unfold sighandler, rtlsdr_cancel_async. destruct I. case_bool_decide; split; cbn; auto with hand.
Qed.

Lemma finv_reachable c d k f : config_ok c -> rate_ok c -> typed d -> whole c d -> rtc steps (fm_start c d k) f -> finv f.
Proof. intros H1 H2 H3 H4 R. pose proof (finv_start c d k H1 H2 H3 H4) as I. induction R; eauto using finv_step. Qed.

(** *** Every thread back in time *)

Lemma rounds_snoc c l m b : forall d,
  rounds c ot (l ++ [(m, b)]) d =
    '(e, outs) ← rounds c ot l d;
    '(e', out, _) ← demod_round c (rtlsdr_callback ot m b e);
    Some (e', outs ++ match out with Some o => [o] | None => [] end).
Proof.
  induction l as [|[m' b'] l IH]; intros d; cbn [rounds app].
  - cbn [mbind option_bind]. destruct (demod_round c _) as [[[e' out] hop]|]; [|done]. by destruct out.
  - destruct (demod_round c (rtlsdr_callback ot m' b' d)) as [[[d1 out] hop]|]; [|done]. cbn [mbind option_bind]. rewrite IH.
    destruct (rounds c ot l d1) as [[e outs]|]; [|done]. cbn [mbind option_bind].
    destruct (demod_round c _) as [[[e' out'] hop']|]; [|done]. by destruct out.
Qed.

(** Steps in which values are stored only for a thread that waits, and the demodulator and the
    output are woken only by signals, while [main] is in its loop. *)
Definition prompt_step (f f' : fm) : Prop :=
  steps f f' /\ prompt (h_demod f) (h_demod f') /\ prompt (h_output f) (h_output f') /\ main f' = M_loop.

Definition copying (b : stage) : list (list Z) := match b with B_copy o => [o] | _ => [] end.
Definition idle (b : stage) : Prop := match b with B_none => True | _ => False end.

Record xinv (c : demod_config) (d : demod_state) (k : controller_state) (f : fm) : Prop := {
  x_cfg : cfg f = c;
  x_ctl : ctl f = k;
  x_demod : exact (h_demod f);
  x_output : exact (h_output f);
  x_got : count (h_demod f) = length (got f);
  x_busy : ~ idle (busy f) -> at_ (h_demod f) = C_busy;
  x_due : due (h_output f) = match busy f with B_signal => true | _ => false end;
  x_data : exists e, rounds c ot (take (length (uses (h_demod f))) (got f)) d = Some (e, stored f ++ copying (busy f)) /\
    dm f = match drop (length (uses (h_demod f))) (got f) with [] => e | (m, b) :: _ => rtlsdr_callback ot m b e end;
}.

Lemma xinv_start c d k : xinv c d k (fm_start c d k).
Proof. split; cbn; try done. by exists d. Qed.

Lemma xinv_callback c d k f b : xinv c d k f -> due (h_demod f) = false -> prompt (h_demod f) (h_demod (callback ot b f)) ->
  xinv c d k (callback ot b f).
Proof.
  intros X Hd P. unfold callback in *. destruct (do_exit f); [done|]. destruct X. pose proof P as [[?|Ha] _]; [cbn in *; lia|].
  split; cbn; auto.
  - apply (exact_step false (h_demod f)); [done|by constructor|exact P].
  - rewrite length_app. cbn. lia.
  - assert (Hn : count (h_demod f) = length (uses (h_demod f))) by (apply (exact_length _ x_demod0); [rewrite Ha; done|done]).
    destruct x_data0 as (e & H1 & H2). exists e. rewrite take_app_le, drop_app_ge by lia. split; [done|].
    rewrite <- Hn, x_got0, Nat.sub_diag. cbn. rewrite H2, drop_ge by lia. done.
Qed.

Lemma xinv_work c d k f f' : xinv c d k f -> at_ (h_demod f) = C_woken -> demod_work f = Some f' -> xinv c d k f'.
Proof.
  intros X Ha. unfold demod_work. destruct X.
  assert (Hn : count (h_demod f) = S (length (uses (h_demod f)))) by (apply (exact_length _ x_demod0); by left).
  set (n := length (uses (h_demod f))) in *. destruct x_data0 as (e & H1 & H2).
  assert (Hb : busy f = B_none).
  { destruct (busy f) eqn:E; try done; exfalso; assert (Hx : at_ (h_demod f) = C_busy) by (apply x_busy0; tauto); congruence. }
  destruct (drop n (got f)) as [|[m b] rest] eqn:Ed.
  { apply (f_equal length) in Ed. rewrite length_drop in Ed. cbn in Ed. lia. }
  assert (Hrest : rest = []).
  { apply (f_equal length) in Ed. rewrite length_drop in Ed. cbn in Ed. destruct rest; [done|]. cbn in Ed. lia. }
  subst rest. assert (Eg : got f = take n (got f) ++ [(m, b)]) by (by rewrite <- Ed, take_drop).
  pose proof (rounds_snoc c (take n (got f)) m b d) as Hr. rewrite <- Eg, H1, Hb in Hr. cbn [copying] in Hr. rewrite app_nil_r in Hr.
  rewrite x_cfg0, H2. cbn [mbind option_bind] in Hr. destruct (demod_round c (rtlsdr_callback ot m b e)) as [[[e' out] hop]|]; [|done].
  intros [= <-]. cbn [mbind option_bind] in Hr. split; cbn; auto.
  - apply (exact_step false (h_demod f)); [done|by constructor|]. apply prompt_at; [done|congruence].
  - rewrite x_due0, Hb. by destruct out.
  - exists e'. rewrite length_app. cbn. fold n. rewrite take_ge, drop_ge by lia. rewrite Hr. split; [|done]. by destruct out.
Qed.

Lemma xinv_step c d k f f' : freq_len k <= 1 -> main f = M_loop -> xinv c d k f -> prompt_step f f' -> xinv c d k f'.
Proof.
  intros Hk Hm X (S & P1 & P2 & M).
  destruct S as [f|f b Hb Hr Hd|f Hd|f r Hr Hd Hc|f Ha|f Ha|f _ Ha|f f' Ha Hw|f Hb|f o Hb|f Hb|f Ha|f Ha|f _ Ha|f Ha|f Ha|f Ha|f Ha|f _ Ha|f Ha|f Ha|f _|f f' Hs].
  - destruct X. by split.
  - by apply xinv_callback.
  - destruct X. split; cbn; auto; [apply (exact_step false (h_demod f)); [done|by constructor|exact P1]|].
    intros Hi. specialize (x_busy0 Hi). by rewrite x_busy0.
  - unfold dongle_ends. destruct (_ && _), X; by split.
  - destruct X. split; cbn; auto; [apply (exact_step (do_exit f) (h_demod f)); [done|by constructor|exact P1]|].
    intros Hi. specialize (x_busy0 Hi). congruence.
  - destruct X. split; cbn; auto; [apply (exact_step false (h_demod f)); [done|by constructor|exact P1]|].
    intros Hi. specialize (x_busy0 Hi). congruence.
  - destruct X. split; cbn; auto; [apply (exact_step false (h_demod f)); [done|by constructor|exact P1]|].
    intros Hi. specialize (x_busy0 Hi). congruence.
  - by eapply xinv_work.
  - destruct X. rewrite Hb in *. cbn in *. specialize (x_busy0 ltac:(tauto)). split; cbn; auto; try done.
    apply (exact_step false (h_demod f)); [done|by constructor|exact P1].
  - destruct X. rewrite Hb in *. cbn in *. specialize (x_busy0 ltac:(tauto)). split; cbn; auto; try done.
    + apply (exact_step false (h_output f)); [done|by constructor|exact P2].
    + by rewrite app_nil_r.
  - destruct X. rewrite Hb in *. cbn in *. specialize (x_busy0 ltac:(tauto)). split; cbn; auto; try done.
    + apply (exact_step false (h_demod f)); [done|by constructor|exact P1].
    + apply (exact_step false (h_output f)); [done|by constructor|exact P2].
  - destruct X. split; cbn; auto. apply (exact_step (do_exit f) (h_output f)); [done|by constructor|exact P2].
  - destruct X. split; cbn; auto. apply (exact_step false (h_output f)); [done|by constructor|exact P2].
  - destruct X. split; cbn; auto. apply (exact_step false (h_output f)); [done|by constructor|exact P2].
  - destruct X. split; cbn; auto. apply (exact_step false (h_output f)); [done|by constructor|exact P2].
  - destruct X. split; cbn; auto. apply (exact_step false (h_output f)); [done|by constructor|exact P2].
  - destruct X. by split.
  - destruct X. by split.
  - destruct X. by split.
  - destruct X. unfold controller_work, controller_hop. rewrite x_ctl0, (proj2 (Z.leb_le _ _) Hk). by split.
  - destruct X. by split.
  - unfold sighandler, rtlsdr_cancel_async. destruct X. case_bool_decide; by split.
  - unfold main_step in Hs. rewrite Hm in Hs. injection Hs as <-. destruct (do_exit f); [done|by destruct X].
Qed.

Lemma prompt_main c d k f : rtc prompt_step (fm_start c d k) f -> main f = M_loop.
Proof. intros R. apply rtc_inv_r in R as [<-|(f' & _ & _ & _ & _ & M)]; done. Qed.
Lemma prompt_steps f f' : rtc prompt_step f f' -> rtc steps f f'.
Proof. intros R. induction R as [|? ? ? [? _]]; [done|]. by eapply rtc_l. Qed.
Lemma xinv_reachable c d k f : freq_len k <= 1 -> rtc prompt_step (fm_start c d k) f -> xinv c d k f.
Proof.
  intros Hk R. assert (G : forall g, rtc prompt_step g f -> main g = M_loop -> xinv c d k g -> xinv c d k f).
  { clear R. intros g Rg. induction Rg as [|x y z Hxy Hyz IH]; [done|]. intros M X. apply IH; [apply Hxy|by eapply xinv_step]. }
  apply (G _ R); [done|apply xinv_start].
Qed.

Lemma rounds_prefix c l l' : forall d e outs e' outs',
  rounds c ot l d = Some (e, outs) -> rounds c ot (l ++ l') d = Some (e', outs') -> outs `prefix_of` outs'.
Proof.
  induction l as [|[m b] l IH]; intros d e outs e' outs'; cbn [rounds app]; [intros [= <- <-] _; apply prefix_nil|].
  destruct (demod_round c _) as [[[d1 out] hop]|]; [|done]. cbn [mbind option_bind].
  intros ([e1 o1] & E1 & [= <- <-])%bind_Some ([e2 o2] & E2 & [= <- <-])%bind_Some.
  specialize (IH _ _ _ _ _ E1 E2). destruct out; [by apply prefix_cons|done].
Qed.
Lemma rounds_total c l : forall d, divides c -> is_Some (rounds c ot l d).
Proof.
  induction l as [|[m b] l IH]; intros d Hd; cbn [rounds]; [by eexists|].
  destruct (demod_round_total c (rtlsdr_callback ot m b d) Hd) as [[[d1 out] hop] E]. rewrite E. cbn [mbind option_bind].
  destruct (IH d1 Hd) as [[d2 outs] E2]. rewrite E2. by eexists.
Qed.
Lemma blocks_seq l n : (n <= length l)%nat -> block l <$> seq 1 n = take n l.
Proof.
  induction n as [|n IH]; intros Hn; [done|]. rewrite seq_S, fmap_app, IH by lia. cbn.
  destruct (lookup_lt_is_Some_2 l n) as [x Hx]; [lia|]. rewrite Hx. symmetry. by apply take_S_r.
Qed.

(** The controller changes none of the settings that matter for divisions. *)
Lemma settings_divide freq e c : divides c -> divides (optimal_settings freq ot e c).1.1.
Proof. done. Qed.
Lemma divides_step f f' : divides (cfg f) -> steps f f' -> divides (cfg f').
Proof.
  intros D S. destruct S; try done.
  - unfold callback. by destruct (do_exit f).
  - unfold dongle_ends. by destruct (_ && _).
  - match goal with H : demod_work _ = _ |- _ => unfold demod_work in H; apply bind_Some in H as ([[d out] hop] & _ & [= <-]) end. done.
  - unfold controller_work. by destruct (controller_hop (ctl f)) as [k [freq|]].
  - unfold sighandler, rtlsdr_cancel_async. by case_bool_decide.
  - match goal with H : main_step _ = _ |- _ => revert H end. unfold main_step, joined, rtlsdr_cancel_async.
    destruct (main f); repeat case_match; by intros [= <-].
Qed.
Lemma divides_run f f' : divides (cfg f) -> rtc steps f f' -> divides (cfg f').
Proof. intros D R. induction R; eauto using divides_step. Qed.
Lemma work_total f : divides (cfg f) -> is_Some (demod_work f).
Proof. intros D. unfold demod_work. destruct (demod_round_total (cfg f) (dm f) D) as [[[d out] hop] E]. rewrite E. by eexists. Qed.

(** C31.  The threads of rtl_fm, from settings and a state of the demodulator that are well formed,
    with a rate from 3937 Hz to 2.2 MHz (600 kHz with the decimating filters), for buffers of an
    even number of bytes up to the size of the array.  Whatever the interleaving of the dongle,
    the demodulator, the output, the controller, signals, wake-ups without a signal and [main],
    also where a buffer is overwritten before it was used or used twice, and while the controller
    changes channels: the state of the demodulator stays well formed, every block it stores for
    the output is one, and the file consists of whole blocks as they were stored, in their order;
    none is torn, though some may be missing or repeated.  No round of the demodulator divides by
    zero if the output is not resampled to a higher rate, the factor of the de-emphasis is not
    zero and the blocking of direct current is off.  If on one channel buffers and
    blocks arrive only while the next thread waits for them and only signals wake it, nothing is
    missing: as far as [main] is in its loop and the demodulator gets through the received buffers
    one after the other without a division by zero, the file is at any time the beginning of what
    it makes of them, and all of it when both threads wait again. *)
Theorem fm_threads_output c d k f :
  config_ok c -> rate_ok c -> typed d -> whole c d ->
  (rtc steps (fm_start c d k) f ->
   typed (dm f) /\ Forall block_ok (stored f) /\ file f = block (stored f) <$> uses (h_output f) /\
   climbs 0 (uses (h_output f)) /\ Forall (fun i => (i <= length (stored f))%nat) (uses (h_output f)) /\
   (divides c -> is_Some (demod_work f))) /\
  (freq_len k <= 1 -> rtc prompt_step (fm_start c d k) f ->
   match rounds c ot (got f) d with
   | Some (_, outs) =>
       file f `prefix_of` outs /\
       (at_ (h_demod f) = C_wait -> due (h_demod f) = false -> at_ (h_output f) = C_wait -> due (h_output f) = false -> file f = outs)
   | None => ~ divides c
   end).
Proof.
  intros H1 H2 H3 H4. split.
  - intros R. destruct (finv_reachable c d k f H1 H2 H3 H4 R) as [_ [Ht _] _ [Hc Hf] Hn _ Hfile Hs _]. rewrite Hn in Hf. split_and!; try done.
    intros D. by apply work_total, (divides_run (fm_start c d k)).
  - intros Hk R. pose proof (xinv_reachable c d k f Hk R) as X.
    destruct (rounds c ot (got f) d) as [[e' outs]|] eqn:Eo; [|intros D; destruct (rounds_total c (got f) d D); congruence].
    destruct (finv_reachable c d k f H1 H2 H3 H4 (prompt_steps _ _ R)) as [_ _ _ _ Hn _ Hfile _ _]. destruct X.
    destruct x_data0 as (e & Hr & _).
    destruct (exact_uses _ x_output0) as [Hu Hl]. assert (Ef : file f = take (length (uses (h_output f))) (stored f)).
    { rewrite Hfile. rewrite Hu at 1. apply blocks_seq. lia. }
    split.
    + rewrite Ef. etrans; [apply prefix_take|]. rewrite <- (take_drop (length (uses (h_demod f))) (got f)) in Eo.
      pose proof (rounds_prefix _ _ _ _ _ _ _ _ Hr Eo) as Hp. etrans; [|exact Hp]. by apply prefix_app_r.
    + intros A1 D1 A2 D2. assert (N1 : count (h_demod f) = length (uses (h_demod f))) by (apply (exact_length _ x_demod0); [by rewrite A1|done]).
      assert (N2 : count (h_output f) = length (uses (h_output f))) by (apply (exact_length _ x_output0); [by rewrite A2|done]).
      assert (Hi : busy f = B_none).
      { destruct (busy f) eqn:E; try done; exfalso; assert (at_ (h_demod f) = C_busy) by (apply x_busy0; tauto); congruence. }
      rewrite Ef, take_ge by lia. rewrite take_ge, Eo in Hr by lia. injection Hr as _ ->. rewrite Hi. cbn. by rewrite app_nil_r.
Qed.

(** *** The end *)

(** How many calls [main] has behind it. *)
Definition rank (m : main_at) : nat :=
  match m with
  | M_loop => 0 | M_cancel => 1 | M_join_dongle => 2 | M_signal_demod => 3 | M_join_demod => 4
  | M_signal_output => 5 | M_join_output => 6 | M_signal_hop => 7 | M_join_hop => 8 | M_returned => 9
  end.
Record sinv (f : fm) : Prop := {
  s_exit : (1 <= rank (main f))%nat -> do_exit f = true;
  s_dongle : (3 <= rank (main f))%nat -> dongle f = D_ended;
  s_demod : (5 <= rank (main f))%nat -> at_ (h_demod f) = C_done;
  s_output : (7 <= rank (main f))%nat -> at_ (h_output f) = C_done;
  s_hop : (9 <= rank (main f))%nat -> at_ (h_hop f) = C_done;
  s_busy : idle (busy f) <-> at_ (h_demod f) <> C_busy;
  s_due : dongle f = D_starting \/ dongle f = D_ended -> due (h_demod f) = false;
}.

Lemma signal_done h : at_ h = C_done -> at_ (safe_cond_signal h) = C_done.
Proof. intros E. cbn. by rewrite E. Qed.
Lemma signal_busy h : at_ (safe_cond_signal h) <> C_busy <-> at_ h <> C_busy.
Proof. cbn. case_bool_decide as E; [|done]. by rewrite E. Qed.

Ltac by_at Ha := intros Hr; exfalso; match goal with
  | H : (?n <= rank (main _))%nat -> at_ _ = C_done |- _ => specialize (H Hr); congruence end.

Lemma sinv_main f f' : sinv f -> main_step f = Some f' -> sinv f'.
Proof.
  intros I. unfold main_step, joined. destruct (main f) eqn:Em.
  - destruct (do_exit f) eqn:Ex; intros [= <-]; [|done]. destruct I. rewrite Em in *. cbn in *. split; cbn; auto with lia; try (intros; exfalso; lia).
  - unfold rtlsdr_cancel_async. destruct I. rewrite Em in *. cbn in *.
    case_bool_decide; intros [= <-]; split; cbn; auto with lia; try (intros; exfalso; lia). intros [|]; done.
  - case_bool_decide; intros [= <-]. destruct I. rewrite Em in *. cbn in *. split; cbn; auto with lia; try (intros; exfalso; lia).
  - intros [= <-]. destruct I. rewrite Em in *. cbn in *. split; cbn; auto with lia; try (intros; exfalso; lia). rewrite s_busy0. symmetry. apply (signal_busy (h_demod f)).
  - case_bool_decide; intros [= <-]. destruct I. rewrite Em in *. cbn in *. split; cbn; auto with lia; try (intros; exfalso; lia).
  - intros [= <-]. destruct I. rewrite Em in *. cbn in *. split; cbn; auto with lia; try (intros; exfalso; lia).
  - case_bool_decide; intros [= <-]. destruct I. rewrite Em in *. cbn in *. split; cbn; auto with lia; try (intros; exfalso; lia).
  - intros [= <-]. destruct I. rewrite Em in *. cbn in *. split; cbn; auto with lia; try (intros; exfalso; lia).
  - case_bool_decide; intros [= <-]. destruct I. rewrite Em in *. cbn in *. split; cbn; auto with lia; try (intros; exfalso; lia).
  - done.
Qed.

Lemma sinv_step f f' : sinv f -> steps f f' -> sinv f'.
Proof.
  intros I S. destruct S as [f|f b Hb Hr Hd|f Hd|f r Hr Hd Hc|f Ha|f Ha|f _ Ha|f f' Ha Hw|f Hb|f o Hb|f Hb|f Ha|f Ha|f _ Ha|f Ha|f Ha|f Ha|f Ha|f _ Ha|f Ha|f Ha|f _|f f' Hm];
    [..|by eapply sinv_main].
  - destruct I. split; cbn; auto. intros Hk. specialize (s_dongle0 Hk). congruence.
  - unfold callback. destruct (do_exit f) eqn:Ex; [done|]. destruct I. split; cbn; auto; [intros Hk; specialize (s_exit0 Hk); congruence|].
    intros [|]; destruct Hr; congruence.
  - destruct I. split; cbn; auto.
    + intros Hr. apply (signal_done (h_demod f)). auto.
    + rewrite s_busy0. symmetry. apply (signal_busy (h_demod f)).
  - unfold dongle_ends. destruct (negb (r =? 0) && negb (do_exit f)), I; split; cbn; auto.
  - destruct I. split; cbn; auto; [by_at Ha|]. rewrite s_busy0, Ha. by destruct (do_exit f).
  - destruct I. split; cbn; auto; [by_at Ha|]. by rewrite s_busy0, Ha.
  - destruct I. split; cbn; auto; [by_at Ha|]. by rewrite s_busy0, Ha.
  - unfold demod_work in Hw. apply bind_Some in Hw as ([[d out] hop] & _ & [= <-]). destruct I. split; cbn; auto; [by_at Ha|].
    destruct out; cbn; split; intros Hx; try done.
  - assert (Ha : at_ (h_demod f) = C_busy) by (destruct (decide (at_ (h_demod f) = C_busy)); [done|]; destruct I as [_ _ _ _ _ Hx _]; apply Hx in n; by rewrite Hb in n).
    destruct I. split; cbn; auto; [by_at Ha| |by split].
    intros Hr. apply (signal_done (h_hop f)). auto.
  - destruct I. split; cbn; auto. rewrite <- s_busy0, Hb. done.
  - assert (Ha : at_ (h_demod f) = C_busy) by (destruct (decide (at_ (h_demod f) = C_busy)); [done|]; destruct I as [_ _ _ _ _ Hx _]; apply Hx in n; by rewrite Hb in n).
    destruct I. split; cbn; auto; [by_at Ha| |by split].
    intros Hr. apply (signal_done (h_output f)). auto.
  - destruct I. split; cbn; auto. by_at Ha.
  - destruct I. split; cbn; auto. by_at Ha.
  - destruct I. split; cbn; auto. by_at Ha.
  - destruct I. split; cbn; auto. by_at Ha.
  - destruct I. split; cbn; auto. by_at Ha.
  - destruct I. split; cbn; auto. by_at Ha.
  - destruct I. split; cbn; auto. by_at Ha.
  - destruct I. split; cbn; auto. by_at Ha.
  - unfold controller_work. destruct I. destruct (controller_hop (ctl f)) as [k [freq|]].
    + destruct (optimal_settings _ _ _ _) as [[c' fr] rate]. split; cbn; auto. by_at Ha.
    + split; cbn; auto. by_at Ha.
  - destruct I. split; cbn; auto. by_at Ha.
  - unfold sighandler, rtlsdr_cancel_async. destruct I. case_bool_decide as E; cbn in E; split; cbn; auto; [|by intros [|]].
    intros Hk. specialize (s_dongle0 Hk). congruence.
Qed.

Lemma sinv_reachable c d k f : rtc steps (fm_start c d k) f -> sinv f.
Proof.
  intros R. assert (I : sinv (fm_start c d k)) by (split; cbn; try done; lia). induction R; eauto using sinv_step.
Qed.

(** [do_exit] is set while no thread is between its test of it and its wait, and while the reader
    is running, so that a cancellation is not lost; and nothing is divided by zero. *)
Record lively (f : fm) : Prop := {
  l_exit : do_exit f = true;
  l_divides : divides (cfg f);
  l_dongle : dongle f <> D_starting /\ ((2 <= rank (main f))%nat -> dongle f <> D_running);
  l_lock : at_ (h_demod f) <> C_lock /\ at_ (h_output f) <> C_lock /\ at_ (h_hop f) <> C_lock;
  l_demod : (4 <= rank (main f))%nat -> at_ (h_demod f) <> C_wait;
  l_output : (6 <= rank (main f))%nat -> at_ (h_output f) <> C_wait;
  l_hop : (8 <= rank (main f))%nat -> at_ (h_hop f) <> C_wait;
}.

(** How much is left to do. *)
Definition hand_left (a : consumer_at) : nat :=
  match a with C_lock => 7 | C_wait => 6 | C_woken => 5 | C_busy => 4 | C_test => 1 | C_done => 0 end.
Definition stage_done (b : stage) : nat := match b with B_hop | B_signal => 2 | B_copy _ => 1 | B_none => 0 end.
Definition dongle_left (d : dongle_at) : nat := match d with D_ended => 0 | _ => 1 end.
Definition cost (f : fm) : nat :=
  (9 - rank (main f)) + hand_left (at_ (h_demod f)) - stage_done (busy f) + hand_left (at_ (h_output f)) + hand_left (at_ (h_hop f)) +
  (if due (h_demod f) then 1 else 0) + dongle_left (dongle f).

Lemma signal_left h : (hand_left (at_ (safe_cond_signal h)) <= hand_left (at_ h))%nat.
Proof. cbn. case_bool_decide as E; [rewrite E; cbn; lia|lia]. Qed.
Lemma signal_wakes h : at_ (safe_cond_signal h) <> C_wait /\ (at_ (safe_cond_signal h) = C_lock -> at_ h = C_lock).
Proof. cbn. case_bool_decide as E; [by rewrite E|done]. Qed.
Lemma busy_stage f : sinv f -> (stage_done (busy f) <= 2)%nat /\ (at_ (h_demod f) <> C_busy -> busy f = B_none) /\
  (at_ (h_demod f) = C_busy -> busy f <> B_none) /\ (busy f <> B_none -> at_ (h_demod f) = C_busy).
Proof.
  intros [_ _ _ _ _ Hb _]. split; [by destruct (busy f); cbn; lia|]. split; [|split].
  - intros Hn. apply Hb in Hn. by destruct (busy f).
  - intros Ha E. rewrite E in Hb. by apply Hb.
  - intros Hn. destruct (decide (at_ (h_demod f) = C_busy)) as [|Hx]; [done|]. apply Hb in Hx. by destruct (busy f).
Qed.

Lemma stage_signal f : sinv f -> (stage_done (busy f) <= hand_left (at_ (safe_cond_signal (h_demod f))))%nat.
Proof.
  intros I. destruct (busy_stage f I) as (B1 & B2 & _ & _). destruct (decide (at_ (h_demod f) = C_busy)) as [Ha|Ha]; [|rewrite (B2 Ha); cbn; lia].
  assert (X : at_ (safe_cond_signal (h_demod f)) = C_busy) by (cbn; by rewrite Ha). rewrite X. cbn. lia.
Qed.
Ltac live_by G1 G2 W1 W2 W3 := first [by split_and!; auto|intros _; first [apply W1; lia|apply W2; lia|apply W3; lia]|
  split; [first [done|exact G1]|intros; first [exfalso; lia|assumption|apply G2; lia|done]]].
Lemma lively_main f f' : sinv f -> lively f -> main_step f = Some f' -> lively f' /\ (cost f' < cost f)%nat.
Proof.
  intros I [E D (G1 & G2) (L1 & L2 & L3) W1 W2 W3]. destruct (busy_stage f I) as (B1 & B2 & B3 & _).
  pose proof (signal_left (h_demod f)) as S1. pose proof (signal_left (h_output f)) as S2. pose proof (signal_left (h_hop f)) as S3.
  pose proof (signal_wakes (h_demod f)) as [V1 V1']. pose proof (signal_wakes (h_output f)) as [V2 V2']. pose proof (signal_wakes (h_hop f)) as [V3 V3'].
  assert (Hd : (rank (main f) = 3)%nat -> due (h_demod f) = false) by (intros Hr; apply (s_due _ I); right; apply (s_dongle _ I); lia).
  assert (Hs : at_ (h_demod f) = C_busy \/ busy f = B_none) by (destruct (decide (at_ (h_demod f) = C_busy)); auto).
  pose proof (stage_signal f I) as Hs'.
  assert (Hs2 : (stage_done (busy f) <= hand_left (at_ (h_demod f)))%nat) by lia.
  unfold main_step, joined, rtlsdr_cancel_async.
  destruct (main f) eqn:Em; cbn [rank] in *; rewrite ?E; repeat (case_bool_decide as Eg || case_match); try done; intros [= <-];
    (split; [split; cbn -[safe_cond_signal]; auto; try (intros; exfalso; lia); live_by G1 G2 W1 W2 W3|]);
    unfold cost; rewrite Em; cbn -[hand_left safe_cond_signal Nat.sub dongle_left]; rewrite ?Eg; cbn [dongle_left].
  all: try (rewrite (Hd eq_refl); change (due (safe_cond_signal (h_demod f))) with false; cbn match); lia.
Qed.

Lemma lively_step f f' : sinv f -> lively f -> steps f f' -> lively f' /\ (f' = f \/ f' = sighandler f \/ (cost f' < cost f)%nat).
Proof.
  intros I L S. pose proof (busy_stage f I) as (B1 & B2 & B3 & B4).
  destruct S as [f|f b Hb Hr Hd|f Hd|f r Hr Hd Hc|f Ha|f Ha|f _ Ha|f f' Ha Hw|f Hb|f o Hb|f Hb|f Ha|f Ha|f _ Ha|f Ha|f Ha|f Ha|f Ha|f _ Ha|f Ha|f Ha|f _|f f' Hm].
  all: try (destruct (lively_main f f' I L Hm); by auto).
  all: pose proof (signal_left (h_demod f)) as S1; pose proof (signal_left (h_output f)) as S2; pose proof (signal_left (h_hop f)) as S3;
    pose proof (signal_wakes (h_demod f)) as [V1 V1']; pose proof (signal_wakes (h_output f)) as [V2 V2']; pose proof (signal_wakes (h_hop f)) as [V3 V3'];
    pose proof L as L0; destruct L as [E D (G1 & G2) (L1 & L2 & L3) W1 W2 W3]; try congruence.
  - unfold callback. rewrite E. auto.
  - pose proof (stage_signal f I) as Hs.
    split; [split; cbn -[safe_cond_signal]; auto|]. right; right. unfold cost. cbn -[hand_left safe_cond_signal Nat.sub]. rewrite Hd.
    change (due (safe_cond_signal (h_demod f))) with false. cbn match. lia.
  - unfold dongle_ends. rewrite E, andb_false_r. split; [split; cbn; auto|]. right; right. unfold cost. cbn -[hand_left Nat.sub]. destruct (dongle f); try done; cbn [dongle_left]; lia.
  - rewrite E. assert (Hn : busy f = B_none) by (apply B2; congruence). split; [by split|]. right; right. unfold cost.
    cbn -[Nat.sub]. rewrite Ha, Hn. cbn -[Nat.sub]. lia.
  - assert (Hn : busy f = B_none) by (apply B2; congruence). split; [by split|]. right; right. unfold cost.
    cbn -[Nat.sub]. rewrite Ha, Hn. cbn -[Nat.sub]. lia.
  - assert (Hn : busy f = B_none) by (apply B2; congruence). unfold demod_work in Hw. apply bind_Some in Hw as ([[d out] hop] & _ & [= <-]).
    split; [by split|]. right; right. unfold cost. cbn -[Nat.sub]. rewrite Ha, Hn. cbn -[Nat.sub]. destruct out; cbn -[Nat.sub]; lia.
  - assert (Ha : at_ (h_demod f) = C_busy) by (apply B4; by rewrite Hb). split; [split; cbn -[safe_cond_signal]; auto; by split_and!; auto|].
    right; right. unfold cost. cbn -[hand_left safe_cond_signal Nat.sub]. rewrite Ha, Hb. cbn -[hand_left safe_cond_signal Nat.sub]. cbn [hand_left stage_done]. lia.
  - assert (Ha : at_ (h_demod f) = C_busy) by (apply B4; by rewrite Hb). split; [by split|]. right; right. unfold cost. cbn -[Nat.sub].
    rewrite Ha, Hb. cbn -[Nat.sub]. lia.
  - assert (Ha : at_ (h_demod f) = C_busy) by (apply B4; by rewrite Hb). split; [split; cbn -[safe_cond_signal]; auto; by split_and!; auto|].
    right; right. unfold cost. cbn -[hand_left safe_cond_signal Nat.sub]. rewrite Ha, Hb. cbn [hand_left stage_done]. lia.
  - rewrite E. split; [by split|]. right; right. unfold cost. cbn -[Nat.sub]. rewrite Ha. cbn -[Nat.sub]. lia.
  - split; [by split|]. right; right. unfold cost. cbn -[Nat.sub]. rewrite Ha. cbn -[Nat.sub]. lia.
  - split; [by split|]. right; right. unfold cost. cbn -[Nat.sub]. rewrite Ha. cbn -[Nat.sub]. lia.
  - split; [by split|]. right; right. unfold cost. cbn -[Nat.sub]. rewrite Ha. cbn -[Nat.sub]. lia.
  - rewrite E. split; [by split|]. right; right. unfold cost. cbn -[Nat.sub]. rewrite Ha. cbn -[Nat.sub]. lia.
  - split; [by split|]. right; right. unfold cost. cbn -[Nat.sub]. rewrite Ha. cbn -[Nat.sub]. lia.
  - unfold controller_work. destruct (controller_hop (ctl f)) as [k [freq|]];
      [pose proof (settings_divide (s32 freq) (edge k) (cfg f) D) as D'; destruct (optimal_settings _ _ _ _) as [[c' fr] rate]; cbn [fst] in D'|];
      (split; [by split|]; right; right; unfold cost; cbn -[Nat.sub]; rewrite Ha; cbn -[Nat.sub]; lia).
  - split; [by split|]. right; right. unfold cost. cbn -[Nat.sub]. rewrite Ha. cbn -[Nat.sub]. lia.
  - split; [|auto]. unfold sighandler, rtlsdr_cancel_async. case_bool_decide; split; cbn; auto.
Qed.

(** A step that changes where a thread is. *)
Lemma lively_moves_by f f' : sinv f -> lively f -> steps f f' ->
  h_demod f' <> h_demod f \/ h_output f' <> h_output f \/ h_hop f' <> h_hop f \/ busy f' <> busy f \/ dongle_left (dongle f') <> dongle_left (dongle f) ->
  exists f', steps f f' /\ (cost f' < cost f)%nat.
Proof.
  intros I L S Hn. exists f'. split; [done|]. destruct (lively_step f f' I L S) as [_ [->|[->|Hc]]]; [tauto| |done].
  unfold sighandler, rtlsdr_cancel_async in Hn. case_bool_decide as Eg; cbn in Eg, Hn; rewrite ?Eg in Hn; cbn in Hn; tauto.
Qed.
Lemma lively_moves f : sinv f -> lively f -> main f <> M_returned -> exists f', steps f f' /\ (cost f' < cost f)%nat.
Proof.
  intros I L Hm. pose proof (busy_stage f I) as (_ & _ & B3 & _). pose proof L as [E D (G1 & G2) (L1 & L2 & L3) W1 W2 W3].
  assert (Hmain : forall f', main_step f = Some f' -> exists f', steps f f' /\ (cost f' < cost f)%nat).
  { intros f' Hs. exists f'. split; [by apply S_main|]. by apply lively_main. }
  destruct (main f) eqn:Em; cbn [rank] in *; try done.
  - eapply Hmain. unfold main_step. by rewrite Em.
  - eapply Hmain. unfold main_step. by rewrite Em.
  - destruct (decide (dongle f = D_ended)) as [Eg|Eg]; [eapply Hmain; unfold main_step; by rewrite Em, Eg|].
    destruct (due (h_demod f)) eqn:Ed.
    + eapply lively_moves_by; [done|done|by apply S_callback_signal|]. left. intros Hx. apply (f_equal due) in Hx. cbn in Hx. congruence.
    + assert (Ec : dongle f = D_canceling) by (specialize (G2 ltac:(lia)); by destruct (dongle f)).
      eapply (lively_moves_by f _ I L); [apply (S_dongle _ _ f 0); [done|done|by left]|].
      do 4 right. rewrite Ec. unfold dongle_ends. by destruct (_ && _).
  - eapply Hmain. unfold main_step. by rewrite Em.
  - specialize (W1 ltac:(lia)). destruct (at_ (h_demod f)) eqn:Ha; try done.
    + eapply lively_moves_by; [done|done|by apply S_demod_test|]. left. intros Hx. apply (f_equal at_) in Hx. rewrite E in Hx. cbn in Hx. congruence.
    + destruct (work_total f D) as [f' Ew]. eapply (lively_moves_by f f'); [done|done|by eapply S_demod_work|]. left.
      unfold demod_work in Ew. apply bind_Some in Ew as ([[d out] hop] & _ & [= <-]). intros Hx. apply (f_equal at_) in Hx. cbn in Hx. congruence.
    + destruct (busy f) eqn:Eb; [by destruct (B3 eq_refl)|..].
      * eapply lively_moves_by; [done|done|by apply S_demod_hop|]. left. intros Hx. apply (f_equal at_) in Hx. cbn in Hx. congruence.
      * eapply lively_moves_by; [done|done|by apply S_demod_copy|]. do 3 right. left. cbn. congruence.
      * eapply lively_moves_by; [done|done|by apply S_demod_signal|]. left. intros Hx. apply (f_equal at_) in Hx. cbn in Hx. congruence.
    + eapply Hmain. unfold main_step, joined. by rewrite Em, Ha.
  - eapply Hmain. unfold main_step. by rewrite Em.
  - specialize (W2 ltac:(lia)). destruct (at_ (h_output f)) eqn:Ha; try done.
    + eapply lively_moves_by; [done|done|by apply S_output_test|]. right; left. intros Hx. apply (f_equal at_) in Hx. rewrite E in Hx. cbn in Hx. congruence.
    + eapply lively_moves_by; [done|done|by apply S_output_write|]. right; left. intros Hx. apply (f_equal at_) in Hx. cbn in Hx. congruence.
    + eapply lively_moves_by; [done|done|by apply S_output_back|]. right; left. intros Hx. apply (f_equal at_) in Hx. cbn in Hx. congruence.
    + eapply Hmain. unfold main_step, joined. by rewrite Em, Ha.
  - eapply Hmain. unfold main_step. by rewrite Em.
  - specialize (W3 ltac:(lia)). destruct (at_ (h_hop f)) eqn:Ha; try done.
    + eapply lively_moves_by; [done|done|by apply S_hop_test|]. do 2 right; left. intros Hx. apply (f_equal at_) in Hx. rewrite E in Hx. cbn in Hx. congruence.
    + eapply lively_moves_by; [done|done|by apply S_hop_work|]. do 2 right; left. unfold controller_work.
      destruct (controller_hop (ctl f)) as [k [freq|]]; [destruct (optimal_settings _ _ _ _) as [[c' fr] rate]|];
        intros Hx; apply (f_equal at_) in Hx; cbn in Hx; congruence.
    + eapply lively_moves_by; [done|done|by apply S_hop_back|]. do 2 right; left. intros Hx. apply (f_equal at_) in Hx. cbn in Hx. congruence.
    + eapply Hmain. unfold main_step, joined. by rewrite Em, Ha.
Qed.

(** The demodulator waits for a signal nobody sends, and [main] for the demodulator. *)
Definition calm : world := mk_world buffer_ok False True True.
Definition stuck (f : fm) : Prop :=
  main f = M_join_demod /\ at_ (h_demod f) = C_wait /\ due (h_demod f) = false /\ dongle f = D_ended /\ busy f = B_none.
Lemma stuck_step f f' : stuck f -> fstep ot calm f f' -> stuck f'.
Proof.
  intros (Hm & Ha & Hd & Hr & Hb) S.
  destruct S as [f|f b Hok [Hr'|Hr']|f Hd'|f r Hr'|f Ha'|f Ha'|f []|f f' Ha'|f Hb'|f o Hb'|f Hb'|f Ha'|f Ha'|f []|f Ha'|f Ha'|f Ha'|f Ha'|f []|f Ha'|f Ha'|f|f f' Hs];
    try congruence; try done.
  - unfold controller_work. destruct (controller_hop (ctl f)) as [k [freq|]]; [|done]. by destruct (optimal_settings _ _ _ _) as [[c' fr] rate].
  - unfold sighandler, rtlsdr_cancel_async. case_bool_decide as Eg; [cbn in Eg; congruence|done].
  - unfold main_step, joined in Hs. by rewrite Hm, Ha in Hs.
Qed.

(** [main] waits for a reader it has cancelled before it was running. *)
Definition silent : world := mk_world buffer_ok True False False.
Definition reading_on (f : fm) : Prop := main f = M_join_dongle /\ (dongle f = D_starting \/ dongle f = D_running).
Lemma reading_on_step f f' : reading_on f -> fstep ot silent f f' -> reading_on f'.
Proof.
  intros (Hm & Hr) S.
  destruct S as [f|f b|f Hd'|f r Hr' _ [Hc|[_ []]]|f Ha'|f Ha'|f Ha'|f f' Ha' Hw|f Hb'|f o Hb'|f Hb'|f Ha'|f Ha'|f Ha'|f Ha'|f Ha'|f Ha'|f Ha'|f Ha'|f Ha'|f Ha'|f []|f f' Hs]; try done.
  - split; [done|by right].
  - unfold callback. by destruct (do_exit f).
  - destruct Hr; congruence.
  - unfold demod_work in Hw. by apply bind_Some in Hw as ([[d out] hop] & _ & [= <-]).
  - unfold controller_work. destruct (controller_hop (ctl f)) as [k [freq|]]; [|done]. by destruct (optimal_settings _ _ _ _) as [[c' fr] rate].
  - unfold main_step in Hs. rewrite Hm in Hs. case_bool_decide; [destruct Hr; congruence|done].
Qed.

(** C32.  The end of rtl_fm.  When [main] gets to the release of its locks, of the file and of the
    device, no thread runs any more.  If [do_exit] is set while no thread is between its test of
    it and its wait and while the reader is [RTLSDR_RUNNING] or has been cancelled or has
    returned, and the settings rule divisions by zero out, the program ends, given that a
    cancelled reader returns: there is always a step that brings it nearer, and no step but a
    further signal leaves it as far away.  Otherwise it may hang: there are runs behind which
    [main] waits in [pthread_join], whatever happens but a wake-up without a signal, for a
    demodulator that missed the signal; and runs behind which, whatever happens but an error of
    the device or a further signal, it waits for a reader that was not running yet when
    [rtlsdr_cancel_async] was called. *)
Theorem fm_shutdown c d k :
  (forall f, rtc steps (fm_start c d k) f -> main f = M_returned ->
     dongle f = D_ended /\ at_ (h_demod f) = C_done /\ at_ (h_output f) = C_done /\ at_ (h_hop f) = C_done /\ busy f = B_none) /\
  (forall f, rtc steps (fm_start c d k) f -> lively f ->
     (main f = M_returned \/ exists f', steps f f' /\ (cost f' < cost f)%nat) /\
     (forall f', steps f f' -> lively f' /\ (f' = f \/ f' = sighandler f \/ (cost f' < cost f)%nat))) /\
  (exists f, rtc steps (fm_start c d k) f /\ forall f', rtc (fstep ot calm) f f' -> main f' = M_join_demod) /\
  (exists f, rtc steps (fm_start c d k) f /\ forall f', rtc (fstep ot silent) f f' -> main f' = M_join_dongle).
Proof.
  split_and!.
  - intros f R Hm. pose proof (sinv_reachable c d k f R) as I. destruct (busy_stage f I) as (_ & B2 & _ & _).
    destruct I as [_ H3 H4 H5 H6 _ _]. rewrite Hm in *. cbn [rank] in *. specialize (H4 ltac:(lia)).
    split_and!; auto with lia. apply B2. congruence.
  - intros f R L. pose proof (sinv_reachable c d k f R) as I. split; [|by intros f'; apply lively_step].
    destruct (main f) eqn:Em; [..|by left]; right; apply lively_moves; auto; congruence.
  - set (f0 := set_dongle D_running (fm_start c d k)). set (f1 := set_demod (test false (h_demod f0)) (busy f0) f0).
    set (f2 := sighandler f1). set (f3 := set_main M_join_dongle (set_main M_cancel f2)). set (f4 := dongle_ends 0 f3).
    set (f5 := set_main M_join_demod (set_demod (safe_cond_signal (h_demod f4)) (busy f4) (set_main M_signal_demod f4))).
    set (f6 := set_demod (safe_cond_wait (h_demod f5)) (busy f5) f5). exists f6.
    assert (R : rtc steps (fm_start c d k) f6).
    { eapply rtc_l; [by apply S_running|]. eapply rtc_l; [apply (S_demod_test _ _ f0); done|]. eapply rtc_l; [by apply (S_signal _ _ f1)|].
      eapply rtc_l; [by apply (S_main _ _ f2)|]. eapply rtc_l; [apply (S_main _ _ (set_main M_cancel f2) f3); done|].
      eapply rtc_l; [apply (S_dongle _ _ f3 0); [done|done|by left]|]. eapply rtc_l; [apply (S_main _ _ f4); done|].
      eapply rtc_l; [apply (S_main _ _ (set_main M_signal_demod f4) f5); done|]. eapply rtc_l; [apply (S_demod_wait _ _ f5); done|]. done. }
    split; [exact R|]. assert (St : stuck f6) by (by split_and!). clearbody f6. intros f' R'. assert (G : stuck f'); [|apply G].
    clear R. induction R'; eauto using stuck_step.
  - set (f1 := sighandler (fm_start c d k)). set (f2 := set_main M_join_dongle (set_main M_cancel f1)). exists f2.
    assert (R : rtc steps (fm_start c d k) f2).
    { eapply rtc_l; [by apply S_signal|]. eapply rtc_l; [by apply (S_main _ _ f1)|].
      eapply rtc_l; [apply (S_main _ _ (set_main M_cancel f1) f2); done|]. done. }
    split; [exact R|]. assert (St : reading_on f2) by (split; [done|by left]). clearbody f2. intros f' R'. assert (G : reading_on f'); [|apply G].
    clear R. induction R'; eauto using reading_on_step.
Qed.
End Threads.

(** ** A session *)

(** One buffer on its way from the dongle to the file, in upper side band; both threads wait
    before and behind it. *)
Definition demo_start : fm := fm_start usb_config (demod_init silence silence).2 (mk_controller [100000000] 1 0 0 false).
Definition demod_waits (f : fm) : fm :=
  let f := set_demod (test false (h_demod f)) (busy f) f in set_demod (safe_cond_wait (h_demod f)) (busy f) f.
Definition output_waits (f : fm) : fm :=
  let f := set_output (test false (h_output f)) f in set_output (safe_cond_wait (h_output f)) f.
Definition demo_wait : fm := output_waits (demod_waits (set_dongle D_running demo_start)).
Definition demo_got : fm := callback_signal (callback true [130; 120; 255; 0; 0; 0; 7; 9] demo_wait).
Definition demo_worked : fm := default demo_got (demod_work (H := no_atan) demo_got).
Definition demo_stored : fm := demod_signal (demod_copy [-6; -984] demo_worked).
Definition demo_written : fm := output_write demo_stored.
Definition demo_rest : fm := output_waits (set_output (back (h_output demo_written)) (demod_waits demo_written)).

Abbreviation demo_step := (prompt_step (H := no_atan) true).
Ltac demo_prompt := split_and!; first [by apply prompt_same|by apply prompt_store|by apply prompt_signal|apply prompt_at; vm_compute; congruence|vm_compute; reflexivity].

Lemma demod_waits_rtc f : at_ (h_demod f) = C_test -> do_exit f = false -> main f = M_loop -> rtc demo_step f (demod_waits f).
Proof.
  intros Ha He Hm. pose proof (S_demod_test (H := no_atan) true anything f Ha) as S1. rewrite He in S1.
  eapply rtc_l; [split; [exact S1|]; split_and!; [apply prompt_at; [done|congruence]|apply prompt_same|done]|].
  apply rtc_once. split; [by apply S_demod_wait|]. split_and!; [by apply prompt_at|apply prompt_same|done].
Qed.
Lemma output_waits_rtc f : at_ (h_output f) = C_test -> do_exit f = false -> main f = M_loop -> rtc demo_step f (output_waits f).
Proof.
  intros Ha He Hm. pose proof (S_output_test (H := no_atan) true anything f Ha) as S1. rewrite He in S1.
  eapply rtc_l; [split; [exact S1|]; split_and!; [apply prompt_same|apply prompt_at; [done|congruence]|done]|].
  apply rtc_once. split; [by apply S_output_wait|]. split_and!; [apply prompt_same|by apply prompt_at|done].
Qed.

Lemma demo_got_rtc : rtc demo_step demo_start demo_got.
Proof.
  eapply (rtc_l _ _ (set_dongle D_running demo_start)); [split; [by apply S_running|]; demo_prompt|].
  etrans; [apply demod_waits_rtc; done|]. etrans; [apply output_waits_rtc; done|]. fold demo_wait.
  eapply rtc_l; [|apply rtc_once; split; [apply S_callback_signal; vm_compute; reflexivity|]; demo_prompt].
  split; [apply S_callback; [|by left|done]|demo_prompt].
  split; [|split; vm_compute; congruence]. unfold bytes. apply (bool_decide_unpack _). vm_compute. exact I.
Qed.
Lemma demo_works : demod_work (H := no_atan) demo_got = Some demo_worked.
Proof.
  unfold demo_worked. destruct (work_total (H := no_atan) demo_got) as [f' E]; [split_and!; vm_compute; congruence|]. by rewrite E.
Qed.
Lemma demo_written_rtc : rtc demo_step demo_got demo_written.
Proof.
  eapply (rtc_l _ _ demo_worked).
  { split; [apply (S_demod_work (H := no_atan) true anything demo_got); [done|apply demo_works]|]. demo_prompt. }
  eapply (rtc_l _ _ (demod_copy [-6; -984] demo_worked)).
  { split; [apply S_demod_copy; vm_compute; reflexivity|]. demo_prompt. }
  eapply (rtc_l _ _ demo_stored).
  { split; [apply S_demod_signal; vm_compute; reflexivity|]. demo_prompt. }
  apply rtc_once. split; [apply S_output_write; vm_compute; reflexivity|]. demo_prompt.
Qed.
Lemma demo_rest_rtc : rtc demo_step demo_written demo_rest.
Proof.
  etrans; [apply demod_waits_rtc; vm_compute; reflexivity|]. eapply (rtc_l _ _ (set_output (back (h_output demo_written)) (demod_waits demo_written))).
  { split; [apply (S_output_back _ _ (demod_waits demo_written)); vm_compute; reflexivity|]. demo_prompt. }
  apply output_waits_rtc; vm_compute; reflexivity.
Qed.

Lemma fm_threads_output_witness :
  file demo_rest = [[-6; -984]] /\
  (rounds (H := no_atan) usb_config true (got demo_rest) (demod_init silence silence).2 ≫= fun r => Some r.2) = Some [[-6; -984]].
Proof.
  assert (Hs : arr MAXIMUM_BUF_LENGTH silence) by (apply arr_replicate; vm_compute; congruence).
  assert (R : rtc demo_step demo_start demo_rest)
    by (etrans; [apply demo_got_rtc|]; etrans; [apply demo_written_rtc|apply demo_rest_rtc]).
  destruct (fm_threads_output (H := no_atan) true usb_config (demod_init silence silence).2 (mk_controller [100000000] 1 0 0 false) demo_rest) as [_ Hx].
  - split; [split; vm_compute; congruence|vm_compute; congruence].
  - split; vm_compute; congruence.
  - exact (demod_init_typed silence silence Hs Hs).
  - intros _. reflexivity.
  - assert (Ef : file demo_rest = [[-6; -984]]) by (vm_compute; reflexivity). specialize (Hx ltac:(vm_compute; congruence) R).
    destruct (rounds _ _ _ _) as [[e outs]|]; [|destruct Hx; split_and!; vm_compute; congruence].
    destruct Hx as [_ Hy]. split; [exact Ef|]. cbn [mbind option_bind snd]. rewrite <- Ef. f_equal. symmetry. apply Hy; vm_compute; reflexivity.
Defined.
End FmThreadsProps.

Module FmMainProps.
Import Getopt GetoptSpec Options OptionsProps Fm Typed FmMain FmThreadsProps.

Section Options.
Context (atof : list Z -> flt) (search : list Z -> Z).

(** What every command line leaves. *)
Record oinv (o : options) : Prop := {
  oi_passes : downsample_passes (o_cfg o) = 0 \/ downsample_passes (o_cfg o) = 1;
  oi_len : 0 <= freq_len (o_ctl o) <= FREQUENCIES_LIMIT + 1;
  oi_freqs : zlen (freqs (o_ctl o)) = FREQUENCIES_LIMIT;
}.
Lemma range_len n : forall i stop step s, 0 <= freq_len s < FREQUENCIES_LIMIT ->
  0 <= freq_len (range_loop n i stop step s) <= FREQUENCIES_LIMIT /\ zlen (freqs (range_loop n i stop step s)) = zlen (freqs s).
Proof.
  induction n as [|n IH]; intros i stop step s Hs; cbn [range_loop]; [split; [lia|done]|].
  destruct (negb (i <=? stop)); [split; [lia|done]|]. cbn [freq_len add_freq]. destruct (Z.leb_spec FREQUENCIES_LIMIT (freq_len s + 1)); cbn [freq_len freqs add_freq].
  - rewrite zlen_wr. split; [lia|done].
  - destruct (IH (s32 (i + step)) stop step (add_freq i s)) as [H1 H2]; [cbn; lia|]. rewrite H2. cbn [freqs add_freq]. by rewrite zlen_wr.
Qed.
Lemma option_f_len a s : 0 <= freq_len s <= FREQUENCIES_LIMIT + 1 ->
  0 <= freq_len (option_f a s) <= FREQUENCIES_LIMIT + 1 /\ zlen (freqs (option_f a s)) = zlen (freqs s).
Proof.
  intros Hs. unfold option_f. destruct (Z.leb_spec FREQUENCIES_LIMIT (freq_len s)); [done|].
  destruct a as [v|v w|v w x]; cbn [Fm.frequency_range add_freq freq_len freqs]; rewrite ?zlen_wr; try (split; [lia|done]).
  destruct (range_len (Z.to_nat FREQUENCIES_LIMIT) v w x s); [lia|]. split; [lia|done].
Qed.

Lemma oinv_case opt a o o' : oinv o -> fm_case atof search opt a o = Some o' -> oinv o'.
Proof.
  intros I. unfold fm_case. destruct (o_cfg o) as [ri ro ro2 ds pd sc sl cs dp cf ca de da dc m] eqn:Ec.
  assert (Hc : forall c, o_cfg o' = c -> downsample_passes c = dp \/ downsample_passes c = 1 -> o_ctl o' = o_ctl o -> oinv o').
  { intros c E Hd Ek. destruct I as [I1 I2 I3]. rewrite Ec in I1. cbn in I1. split; rewrite ?E, ?Ek; auto. destruct Hd as [-> | ->]; auto. }
  repeat match goal with |- (if ?b then _ else _) = _ -> _ => destruct b end; try done;
    try (intros [= <-]; eapply Hc; [reflexivity|cbn; rewrite ?Ec; by auto|reflexivity]).
  - destruct (freq_parts atof _) as [p|]; [|done]. intros [= <-]. destruct I as [I1 I2 I3].
    destruct (option_f_len p (o_ctl o) I2) as [H1 H2]. split; cbn; [done|done|by rewrite H2].
  - destruct (atofs_u32 atof _); [|done]. intros [= <-]. eapply Hc; [reflexivity|by auto|reflexivity].
  - destruct (atofs_int atof _); [|done]. intros [= <-]. eapply Hc; [reflexivity|by auto|reflexivity].
  - intros [= <-]. unfold option_E. rewrite Ec. destruct I as [I1 I2 I3]. rewrite Ec in I1. repeat case_match; split; cbn; rewrite ?Ec; auto.
  - intros [= <-]. unfold option_A. rewrite Ec. destruct I as [I1 I2 I3]. rewrite Ec in I1. repeat case_match; split; cbn; rewrite ?Ec; auto.
  - intros [= <-]. unfold option_M. rewrite Ec. destruct I as [I1 I2 I3]. rewrite Ec in I1. repeat case_match; split; cbn; rewrite ?Ec; auto.
Qed.
Lemma oinv_cases l : forall o o', oinv o -> cases (fm_case atof search) l o = Some o' -> oinv o'.
Proof.
  induction l as [|[opt a] l IH]; intros o o' I; cbn [cases]; [by intros [= <-]|].
  destruct (fm_case atof search opt a o) as [o1|] eqn:E; cbn [mbind option_bind]; [|done]. apply IH. by eapply oinv_case.
Qed.
Lemma oinv_init : oinv options_init.
Proof. split; [by left|vm_compute; split; congruence|vm_compute; reflexivity]. Qed.

(** What the checks behind the options let through. *)
Lemma settle_run o o' len : settle search o = Some (Run (o', len)) ->
  1 <= freq_len (o_ctl o) < FREQUENCIES_LIMIT \/ freq_len (o_ctl o) < 0.
Proof.
  unfold settle. destruct (o_cfg o) as [ri ro ro2 ds pd sc sl cs dp cf ca de da dc m].
  match goal with |- context [sanity_checks ?k sl] => assert (Ek : k = o_ctl o) by (by case_match) end. rewrite Ek.
  destruct (sanity_checks (o_ctl o) sl) eqn:Es; cbn [negb]; [|done]. intros _. unfold sanity_checks in Es. lia.
Qed.
Lemma lcm_post_range pd : 0 <= pd <= 16 -> 0 < rd lcm_post pd <= 16.
Proof.
  intros Hp. assert (Hl : Forall (fun i => 0 < rd lcm_post i <= 16) (seqZ 0 17)) by (apply (bool_decide_unpack _); vm_compute; exact I).
  rewrite list.Forall_forall in Hl. apply Hl, elem_of_seqZ. lia.
Qed.
Lemma settle_keeps o o' len : settle search o = Some (Run (o', len)) ->
  o_ctl o' = o_ctl o /\ downsample_passes (o_cfg o') = downsample_passes (o_cfg o) /\
  post_downsample (o_cfg o') = post_downsample (o_cfg o) /\ rate_in (o_cfg o') = s32 (rate_in (o_cfg o) * post_downsample (o_cfg o)) /\
  0 <= post_downsample (o_cfg o) <= 16 /\ 0 <= o_dev o' /\ 0 < len <= MAXIMUM_BUF_LENGTH.
Proof.
  unfold settle. destruct (o_cfg o) as [ri ro ro2 ds pd sc sl cs dp cf ca de da dc m] eqn:Ec. destruct (negb _); [done|].
  destruct ((0 <=? pd) && (pd <? zlen lcm_post)) eqn:Ep; cbn [negb]; [|done]. change (zlen lcm_post) with 17 in Ep.
  match goal with |- context [o_dev ?x <? 0] => set (q := x) end. destruct (Z.ltb_spec (o_dev q) 0) as [|Hd]; [done|]. intros [= <- <-].
  assert (Hq : o_ctl q = o_ctl o /\ o_cfg q = mk_config (s32 (ri * pd)) ro ro2 ds pd sc sl cs dp cf ca de da dc m) by (unfold q; by repeat case_match).
  destruct Hq as [-> ->]. assert (Hp : 0 <= pd <= 16) by lia. cbn [downsample_passes post_downsample rate_in]. split_and!; auto; try lia.
  - pose proof (lcm_post_range pd Hp). unfold DEFAULT_BUF_LENGTH. lia.
  - pose proof (lcm_post_range pd Hp). unfold MAXIMUM_BUF_LENGTH, MAXIMUM_OVERSAMPLE, DEFAULT_BUF_LENGTH. lia.
Qed.

(** What a command line gives the demodulator: when the program goes on to open the device with a
    rate in the range of the dongle, there are from 1 to 999 frequencies in their array, and the
    settings of every channel are those the demodulator needs for its types and bounds
    ([fm_threads_output]).  With a factor 0 for [-o] the rate is 0. *)
Theorem fm_command_line args o o' len freq :
  let '(l, _, _) := parse optstring args in
  cases (fm_case atof search) l options_init = Some o -> settle search o = Some (Run (o', len)) ->
  1 <= freq_len (o_ctl o') < FREQUENCIES_LIMIT /\ zlen (freqs (o_ctl o')) = FREQUENCIES_LIMIT /\ 0 <= o_dev o' /\
  0 < len <= MAXIMUM_BUF_LENGTH /\
  (rate_ok (o_cfg o') ->
   let '(c, _, _) := optimal_settings freq (o_offset o') (edge (o_ctl o')) (o_cfg o') in config_ok c /\ rate_ok c).
Proof.
  destruct (parse optstring args) as [[l op] n]. intros Hc Hs. pose proof (oinv_cases l _ _ oinv_init Hc) as [I1 I2 I3].
  destruct (settle_run _ _ _ Hs) as [Hr|Hr]; [|lia]. destruct (settle_keeps _ _ _ Hs) as (E1 & E2 & E3 & E4 & Hp & Hd & Hl).
  rewrite E1. split_and!; auto; try lia. intros Hrate.
  assert (Hcfg : config_ok (o_cfg o')).
  { split; [rewrite E2; unfold CIC_TABLE_MAX; lia|]. rewrite E3. destruct (decide (post_downsample (o_cfg o) = 0)) as [Ez|]; [|lia].
    rewrite Ez, Z.mul_0_r in E4. destruct Hrate as [H0 _]. rewrite E4 in H0. vm_compute in H0. congruence. }
  pose proof (settings_keep (o_offset o') freq (edge (o_ctl o)) (o_cfg o') Hcfg Hrate) as Hk.
  destruct (optimal_settings _ _ _ _) as [[c fr] rate]. tauto.
Qed.

End Options.

(** [atof] on plain decimal integers. *)
Definition atof_digits (s : list Z) : flt := f64_of_Z (Eeprom.atoi s).
(** The usage text gives [wbfm] as -M fm -s 170k -o 4 -A fast -r 32k -l 0 -E deemp; the factor 4 is
    not set, the rest is. *)
Lemma wbfm_documented :
  let documented := [(chr "M", Some (Eeprom.str "fm")); (chr "s", Some (Eeprom.str "170k")); (chr "o", Some (Eeprom.str "4"));
    (chr "A", Some (Eeprom.str "fast")); (chr "r", Some (Eeprom.str "32k")); (chr "l", Some (Eeprom.str "0"));
    (chr "E", Some (Eeprom.str "deemp"))] in
  exists a b, cases (fm_case atof_digits (fun _ => 0)) documented options_init = Some a /\
    cases (fm_case atof_digits (fun _ => 0)) [(chr "M", Some (Eeprom.str "wbfm"))] options_init = Some b /\
    post_downsample (o_cfg a) = 4 /\ post_downsample (o_cfg b) = 1 /\
    o_cfg b = mk_config (rate_in (o_cfg a)) (rate_out (o_cfg a)) (rate_out2 (o_cfg a)) (downsample (o_cfg a)) 1 (output_scale (o_cfg a))
      (squelch_level (o_cfg a)) (conseq_squelch (o_cfg a)) (downsample_passes (o_cfg a)) (comp_fir_size (o_cfg a))
      (custom_atan (o_cfg a)) (deemph (o_cfg a)) (deemph_a (o_cfg a)) (dc_block (o_cfg a)) (mode_demod (o_cfg a)).
Proof. intros documented. eexists; eexists. split; [vm_compute; reflexivity|]. split; [vm_compute; reflexivity|]. by vm_compute. Qed.

(** -f 100M -o 0: the rate of the demodulator is 0, by which the controller divides. *)
Lemma zero_oversampling :
  exists o o' len, cases (fm_case atof_digits (fun _ => 0)) [(chr "f", Some (Eeprom.str "100M")); (chr "o", Some (Eeprom.str "0"))] options_init = Some o /\
    settle (fun _ => 0) o = Some (Run (o', len)) /\ rate_in (o_cfg o') = 0.
Proof. do 3 eexists. split; [vm_compute; reflexivity|]. split; [vm_compute; reflexivity|]. reflexivity. Qed.
End FmMainProps.
