(* ===== verification/RtlTcpRun.v ===== *)
(** * The program around the TCP server ([main] of [src/src/rtl_tcp.c])

    [Module TcpMain]: the options, what is set on the device, the search for an address to listen
    at, and all of [main] from the options on as its exit status and its actions; the accept loop
    and the shutdown of the clients in it are the steps of [main] in [Clients].

    [TcpMainProps]: behind the shutdown no client is active, and what is left are the sockets and
    the threads of clients whose workers gave up ([tcp_shutdown]); where there are none, [main]
    uses the device, the ring and its threads in order, and leaves behind the sockets whose [bind]
    failed. *)

From Stdlib Require Import String Ascii.
From stdpp Require Import relations.
From S2P Require Import Prelude Float I2c Usb TunerR82xx TunerFc TunerE4k TunerFc2580 Librtlsdr LibrtlsdrOpen LibrtlsdrProps RtlTcp RtlTcpClients RtlEeprom Convenience Getopt Options.

Module TcpMain.
Import Getopt Options RtlTcp Clients.

Abbreviation DEFAULT_SAMPLE_RATE_HZ := (2048000)%Z (only parsing).
Definition optstring : list Z := Eeprom.str "a:p:f:g:s:b:n:d:P:TDc:".
Record options := mk_options {
  dev_index : Z; dev_given : bool; t_addr : list Z; t_port : list Z; t_frequency : Z; t_gain : Z; t_rate : Z;
  buf_num : Z; t_ppm : Z; enable_biastee : bool; t_direct : bool; max_clients : Z;
}.
Definition options_init : options :=
  mk_options 0 false (Eeprom.str "127.0.0.1") (Eeprom.str "1234") 100000000 0 DEFAULT_SAMPLE_RATE_HZ 0 0 false false DEFAULT_MAX_CLIENTS.

(** [max_clients] from [-c]. *)
Definition clamp_clients (n : Z) : Z :=
  let n := if n <? 1 then 1 else n in if DEFAULT_MAX_CLIENTS <? n then DEFAULT_MAX_CLIENTS else n.

Section Options.
Context (atof : list Z -> flt) (search : list Z -> Z).
Definition tcp_case (opt : Z) (a : option (list Z)) (o : options) : option options :=
  let arg := default [] a in
  let '(mk_options d dg ad po f g s b p bt ds c) := o in
  if is_opt "d" opt then Some (mk_options (search arg) true ad po f g s b p bt ds c)
  else if is_opt "f" opt then v ← atofs_u32 atof arg; Some (mk_options d dg ad po v g s b p bt ds c)
  else if is_opt "g" opt then Some (mk_options d dg ad po f (tenths atof arg) s b p bt ds c)
  else if is_opt "s" opt then v ← atofs_u32 atof arg; Some (mk_options d dg ad po f g v b p bt ds c)
  else if is_opt "a" opt then Some (mk_options d dg arg po f g s b p bt ds c)
  else if is_opt "p" opt then Some (mk_options d dg ad arg f g s b p bt ds c)
  else if is_opt "b" opt then Some (mk_options d dg ad po f g s (u32 (Eeprom.atoi arg)) p bt ds c)
  else if is_opt "n" opt then Some o
  else if is_opt "P" opt then Some (mk_options d dg ad po f g s b (Eeprom.atoi arg) bt ds c)
  else if is_opt "T" opt then Some (mk_options d dg ad po f g s b p true ds c)
  else if is_opt "D" opt then Some (mk_options d dg ad po f g s b p bt true c)
  else if is_opt "c" opt then Some (mk_options d dg ad po f g s b p bt ds (clamp_clients (Eeprom.atoi arg)))
  else None.
End Options.

Section Device.
Context {U : Type} `{Libusb U}.
Import Usb Librtlsdr Convenience.
Definition settings (o : options) : st (rtlsdr_dev U) unit :=
  _ ← (if t_direct o then verbose_direct_sampling 2 else mret 0);
  _ ← verbose_ppm_set (t_ppm o);
  _ ← rtlsdr_set_sample_rate (t_rate o);
  _ ← rtlsdr_set_center_freq (t_frequency o);
  _ ← (if t_gain o =? 0 then rtlsdr_set_tuner_gain_mode 0
       else _ ← rtlsdr_set_tuner_gain_mode 1; rtlsdr_set_tuner_gain (t_gain o));
  _ ← on_core (rtlsdr_set_bias_tee (b2z (enable_biastee o)));
  _ ← on_core rtlsdr_reset_buffer;
  mret tt.
End Device.

(** ** Listening *)

(** The loop over the addresses: for each what [socket] answers and whether [bind] succeeds.  The
    result is [listensocket], the sockets that were opened and whether the last is bound. *)
Fixpoint listen_loop (addrs : list (Z * bool)) (listensocket : Z) : Z * list Z * bool :=
  match addrs with
  | [] => (listensocket, [], false)
  | (s, bound) :: addrs =>
      if s <? 0 then listen_loop addrs s
      else if bound then (s, [s], true)
      else let '(l, socks, ok) := listen_loop addrs s in (l, s :: socks, ok)
  end.

(** ** Clients *)

(** The threads of clients that were started, and those that were not joined. *)
Definition started (s : server) : nat := 2 * taken (tab s).
Definition unjoined (s : server) : nat := started s - length (joined (tab s)).

(** ** All of it *)

(** [A_clients]: the accept loop, with the threads that were started for clients in it;
    [A_disconnect]: the shutdown of the clients, with the threads that are not joined then. *)
Inductive act :=
  | A_open | A_use | A_close | A_ring_init | A_ring_destroy | A_socket (s : Z) | A_closesocket (s : Z)
  | A_reaper | A_join_reaper | A_async | A_join_async | A_clients (n : nat) | A_disconnect (n : nat) | A_exit.
(** What the process holds; the threads of the clients read the ring and set the device. *)
Record held := mk_held { h_dev : bool; h_ring : bool; h_reaper : bool; h_async : bool; h_clients : nat; h_socks : list Z }.
Definition nothing : held := mk_held false false false false 0 [].

Definition perform (a : act) (h : held) : option held :=
  let '(mk_held dev ring reaper async clients socks) := h in
  let idle := negb async && (clients =? 0)%nat in
  match a with
  | A_open => if dev then None else Some (mk_held true ring reaper async clients socks)
  | A_use => if dev then Some h else None
  | A_close => if dev && idle then Some (mk_held false ring reaper async clients socks) else None
  | A_ring_init => if ring then None else Some (mk_held dev true reaper async clients socks)
  | A_ring_destroy => if ring && idle then Some (mk_held dev false reaper async clients socks) else None
  | A_socket s => Some (mk_held dev ring reaper async clients (s :: socks))
  | A_closesocket s => Some (mk_held dev ring reaper async clients (list_difference socks [s]))
  | A_reaper => if reaper then None else Some (mk_held dev ring true async clients socks)
  | A_join_reaper => if reaper then Some (mk_held dev ring false async clients socks) else None
  | A_async => if dev && ring && negb async then Some (mk_held dev ring reaper true clients socks) else None
  | A_join_async => if async then Some (mk_held dev ring reaper false clients socks) else None
  | A_clients n => if dev && ring then Some (mk_held dev ring reaper async n socks) else None
  | A_disconnect n => if (n <=? clients)%nat then Some (mk_held dev ring reaper async n socks) else None
  | A_exit => Some nothing
  end.
Abbreviation performs := (perform_all perform).

(** The device index, whether [rtlsdr_open] gave a device, [ring_init], [getaddrinfo], the
    addresses. *)
Record env := mk_env { e_dev : Z; e_opened : bool; e_ring : bool; e_addr_ok : bool; e_addrs : list (Z * bool) }.

(** [s] is the server when the loops over the clients are done and the reaper has ended. *)
Definition main (e : env) (s : server) : Z * list act :=
  if e_dev e <? 0 then (1, [A_exit])
  else if negb (e_opened e) then (1, [A_exit])
  else if negb (e_ring e) then (1, [A_open; A_use; A_close; A_exit])
  else if negb (e_addr_ok e) then (-1, [A_open; A_use; A_ring_init; A_ring_destroy; A_close])
  else
    let '(listensocket, socks, _) := listen_loop (e_addrs e) 0 in
    (0, [A_open; A_use; A_ring_init] ++ map A_socket socks ++
        [A_reaper; A_async; A_clients (started s); A_join_async; A_disconnect (unjoined s);
         A_join_reaper; A_ring_destroy; A_close; A_closesocket listensocket]).
End TcpMain.

Module TcpMainProps.
Import RtlTcp Clients ClientsProps TcpMain.

(** ** No client is active behind the shutdown *)

(** The slots [main] has dealt with, and those it never uses, are not active. *)
Definition dealt (max : Z) (m : main_at) (i : nat) : Prop :=
  max <= Z.of_nat i \/
  match m with
  | M_test j => (i < j)%nat
  | M_in j ph => (i < j)%nat \/ i = j /\ ph <> P_call /\ ph <> P_set
  | M_done => True
  | _ => False
  end.
Definition off (max : Z) (s : server) : Prop :=
  forall i c, clients (tab s) !! i = Some c -> dealt max (main_pc s) i -> active c = false.

(** Behind the accept loop no slot becomes active. *)
Lemma off_later max t t' r r' m : off max (mk_server t r m) ->
  (forall i c', clients t' !! i = Some c' -> exists c, clients t !! i = Some c /\ (active c' = true -> active c = true)) ->
  off max (mk_server t' r' m).
Proof.
  intros H L i c' E' D. destruct (L i c' E') as (c & E & A). specialize (H i c E D). destruct (active c'); [|done]. by rewrite A in H.
Qed.
Lemma alter_inactive (f : slot -> slot) i t t' : clients t' = alter f i (clients t) -> (forall c, active (f c) = true -> active c = true) ->
  forall j c', clients t' !! j = Some c' -> exists c, clients t !! j = Some c /\ (active c' = true -> active c = true).
Proof. intros -> Hf j c' (c & E & ->)%alter_slot. exists c. split; [done|]. destruct (decide (i = j)); [apply Hf|done]. Qed.
Lemma remove_inactive max i ph t t' r : remove_client max i ph t = Some (t', r) ->
  forall j c', clients t' !! j = Some c' -> exists c, clients t !! j = Some c /\ (active c' = true -> active c = true).
Proof.
  intros E j c' E'. destruct (remove_slots _ _ _ _ _ _ E) as (_ & _ & L & _). destruct (L j c' E') as (c & Ec & ->). exists c. split; [done|].
  destruct (decide (i = j)); [|done]. by destruct ph.
Qed.

Lemma off_step max s ev s' : off max s -> step max s ev = Some s' -> off max s'.
Proof.
  destruct s as [t r m]. intros H. destruct ev as [tt g l fd| |i|i| | |]; cbn [step].
  - destruct m; try done. destruct (bool_decide _); [|done]. pose proof (add_client_cases max tt g l fd t) as Ha.
    destruct (add_client max tt g l fd t) as [i t']. intros [= <-]. destruct Ha as [|i c E A Hi Hc]; [done|].
    intros j d (d0 & Ed & ->)%alter_slot [D|D]; [|cbn in D; destruct (_ <? _); done]. destruct (decide (i = j)) as [<-|]; [lia|].
    apply (H j d0 Ed). by left.
  - destruct m as [|i fd|i fd| | |]; try done; intros [= <-]; intros j d (d0 & Ed & ->)%alter_slot [D|D]; try done;
      specialize (H j d0 Ed (or_introl D)); by destruct (decide (i = j)).
  - intros [= <-]. eapply off_later; [exact H|]. by eapply alter_inactive.
  - destruct r; [|done]. destruct (_ <? _); [|done]. by intros (c & E & [= <-])%bind_Some.
  - destruct r as [|i n ph]; [done|]. intros ([t' ph'] & E & [= <-])%bind_Some. eapply off_later; [exact H|]. by eapply remove_inactive.
  - destruct m; try done. intros [= <-]. intros j d Ed [D|D]; [|cbn in D; lia]. apply (H j d Ed). by left.
  - destruct m as [| | |i|i ph|]; try done.
    + destruct (Z.ltb_spec (Z.of_nat i) max).
      * intros (c & E & [= <-])%bind_Some. intros j d Ed D. cbn in Ed, D. destruct (active c) eqn:A.
        -- apply (H j d Ed). destruct D as [D|[D|(_ & D & _)]]; [by left|by right|done].
        -- destruct D as [D|D]; [apply (H j d Ed); by left|]. destruct (decide (j = i)) as [->|]; [congruence|]. apply (H j d Ed). right. cbn in *. lia.
      * destruct r; [|done]. intros [= <-]. intros j d Ed _. apply (H j d Ed). destruct (decide (j < i)%nat); [by right|left; lia].
    + intros ([t' ph'] & E & [= <-])%bind_Some. pose proof (remove_inactive _ _ _ _ _ _ E) as L. intros j d Ed D. cbn in Ed, D.
      destruct (L j d Ed) as (d0 & Ed0 & A). assert (K : dealt max (M_in i ph) j -> active d = false).
      { intros D0. specialize (H j d0 Ed0 D0). destruct (active d); [|done]. by rewrite A in H. }
      destruct (decide (j = i)) as [->|Hn].
      * unfold remove_client in E. apply bind_Some in E as (c & Ec & E). rewrite Ed0 in Ec. injection Ec as ->.
        destruct ph; try (apply K; right; right; done); injection E as <- <-.
        -- rewrite Ed in Ed0. injection Ed0 as ->. destruct (Z.leb_spec max (Z.of_nat i)); [apply K; by left|].
           destruct (active c); [|done]. destruct D as [D|[D|(_ & _ & D)]]; [lia|lia|done].
        -- cbn in Ed. rewrite list_lookup_alter_eq, Ed0 in Ed. by injection Ed as <-.
      * apply K. destruct D as [D|D]; [by left|]. right. destruct ph'; cbn in *; lia.
Qed.
Lemma off_run max evs s : run max evs start = Some s -> off max s.
Proof. apply run_inv; [intros ? ? ?; apply off_step|]. by intros i c [-> _]%lookup_replicate_1. Qed.

(** ** The sockets that stay open *)

(** A worker of the client at a socket gave up while the client was active. *)
Definition departed (max : Z) (evs : list tevent) (fd : Z) : Prop :=
  exists evs1 i evs2 s c, evs = evs1 ++ E_leaves i :: evs2 /\ run max evs1 start = Some s /\
    clients (tab s) !! i = Some c /\ active c = true /\ sock c = fd.
Lemma departed_snoc max evs ev fd : departed max evs fd -> departed max (evs ++ [ev]) fd.
Proof. intros (evs1 & i & evs2 & s & c & -> & H). exists evs1, i, (evs2 ++ [ev]), s, c. by rewrite <- app_assoc. Qed.

(** [main] is about to close the socket of a slot. *)
Definition closing (m : main_at) (i : nat) : Prop := m = M_in i P_join_send \/ m = M_in i P_join_cmd \/ m = M_in i P_close.
Definition kept (s : server) (fd : Z) : Prop :=
  exists i c, clients (tab s) !! i = Some c /\ sock c = fd /\ (active c = true \/ closing (main_pc s) i).

Lemma kept_same t t' r r' m m' fd : clients t' = clients t -> (forall i, closing m i -> closing m' i) ->
  kept (mk_server t r m) fd -> kept (mk_server t' r' m') fd.
Proof. intros E Hm (i & c & Ei & Es & H). exists i, c. cbn. rewrite E. split_and!; [done..|]. destruct H; [by left|right; by apply Hm]. Qed.
Lemma kept_alter f i t t' r m m' fd : clients t' = alter f i (clients t) -> (forall c, sock (f c) = sock c) ->
  (forall j c, clients t !! j = Some c -> sock c = fd -> active c = true \/ closing m j ->
     active (if decide (i = j) then f c else c) = true \/ closing m' j) ->
  kept (mk_server t r m) fd -> kept (mk_server t' r m') fd.
Proof.
  intros E Hf H (j & c & Ej & Es & Hk). exists j, (if decide (i = j) then f c else c). cbn. split_and!.
  - rewrite E, list_lookup_alter. case_decide; [subst|done]. cbn in Ej. by rewrite Ej.
  - case_decide; [by rewrite Hf|done].
  - by apply (H j c).
Qed.

Lemma remove_open max i ph t t' r : remove_client max i ph t = Some (t', r) -> open_socks t' ⊆ open_socks t.
Proof.
  unfold remove_client. intros (c & _ & E)%bind_Some. destruct ph; try (apply bind_Some in E as (v & _ & E)); injection E as <- <-; try done.
  intros fd. cbn. rewrite list_elem_of_difference. tauto.
Qed.
Lemma kept_remove max i ph t t' ph' r fd : remove_client max i ph t = Some (t', ph') -> kept (mk_server t r (M_in i ph)) fd ->
  fd ∈ open_socks t' -> kept (mk_server t' r (match ph' with Some ph => M_in i ph | None => M_test (S i) end)) fd.
Proof.
  unfold remove_client. intros (c & Ec & E)%bind_Some K Hfd. destruct ph.
  - injection E as <- <-. revert K. apply kept_same; [done|]. by intros j [|[|]].
  - injection E as <- <-. revert K. eapply kept_alter; [done..|]. intros j d Ej _ Hj. case_decide; [subst; right; by left|].
    destruct Hj as [|[|[|]]]; [by left|done..].
  - apply bind_Some in E as (v & _ & E). injection E as <- <-. revert K. apply kept_same; [done|].
    intros j [[= ->]|[|]]; [right; by left|done..].
  - apply bind_Some in E as (v & _ & E). injection E as <- <-. revert K. apply kept_same; [done|].
    intros j [|[[= ->]|]]; [done|right; by right|done].
  - injection E as <- <-. cbn in Hfd. apply list_elem_of_difference in Hfd as [_ Hfd]. destruct K as (j & d & Ej & Es & Hj).
    cbn in Ej. destruct (decide (i = j)) as [<-|Hn]; [rewrite Ec in Ej; injection Ej as ->; set_solver|].
    exists j, d. cbn. rewrite list_lookup_alter_ne by done. split_and!; [done..|]. left. destruct Hj as [|[|[|[= ]]]]; done.
  - injection E as <- <-. revert K. apply kept_same; [done|]. by intros j [|[|]].
Qed.

Lemma kept_step max evs s ev s' fd : tidy max s -> run max evs start = Some s -> quiet_step max s ev = Some s' ->
  (forall fd, fd ∈ open_socks (tab s) -> departed max evs fd \/ kept s fd) ->
  fd ∈ open_socks (tab s') -> departed max (evs ++ [ev]) fd \/ kept s' fd.
Proof.
  intros Hi Hr Hq Hk. apply quiet_is_step in Hq. destruct s as [t r m].
  assert (same : forall t' r' m', s' = mk_server t' r' m' -> open_socks t' = open_socks t ->
    (kept (mk_server t r m) fd -> kept (mk_server t' r' m') fd) -> fd ∈ open_socks (tab s') -> departed max (evs ++ [ev]) fd \/ kept s' fd).
  { intros t' r' m' -> Eo Hs Hfd. cbn in Hfd. rewrite Eo in Hfd. destruct (Hk fd Hfd); [left; by apply departed_snoc|right; by apply Hs]. }
  revert Hq. destruct ev as [tt g l fd'| |i|i| | |]; cbn [step].
  - destruct m; try done. destruct (bool_decide _); [|done]. pose proof (add_client_cases max tt g l fd' t) as Ha.
    destruct (add_client max tt g l fd' t) as [i t']. intros [= <-]. destruct Ha as [|i c E A Hi' Hc]; [by eapply same|].
    intros Hfd. cbn in Hfd. apply elem_of_cons in Hfd as [->|Hfd].
    + right. eexists i, _. cbn. rewrite list_lookup_alter_eq, E. split; [done|]. split; [done|]. by left.
    + destruct (Hk fd Hfd) as [|(j & d & Ej & Es & [Ad|[|[|]]])]; [left; by apply departed_snoc| |done..].
      right. exists j, d. cbn. rewrite list_lookup_alter_ne by (intros <-; cbn in Ej; congruence). split_and!; [done..|by left].
  - destruct m as [|i fd'|i fd'| | |]; try done; intros [= <-]; eapply same; try done; eapply kept_alter; try done;
      intros j d _ _ [|[|[|]]]; try done; left; by case_decide.
  - intros [= <-] Hfd. destruct (Hk fd Hfd) as [|(j & d & Ej & Es & Hj)]; [left; by apply departed_snoc|].
    assert (Hd : {closing m j \/ i <> j} + {i = j /\ ~ closing m j}).
    { destruct (decide (i = j)) as [->|]; [|left; by right]. destruct m as [| | | |k ph|];
        try (right; split; [done|]; by intros [|[|]]). destruct (decide (k = j)) as [->|]; [|right; split; [done|]; intros [|[|]]; congruence].
      unfold closing. destruct ph; try (right; split; [done|]; by intros [|[|]]); left; left; auto. }
    destruct Hd as [Hc|[<- Hc]].
    + right. exists j, (if decide (i = j) then set_active false d else d). cbn. split_and!.
      * rewrite list_lookup_alter. cbn in Ej. case_decide; [subst; by rewrite Ej|done].
      * by case_decide.
      * destruct Hc as [Hc|Hn]; [by right|]. rewrite decide_False by done. exact Hj.
    + left. exists evs, i, [], (mk_server t r m), d.
      split_and!; [done..| |done]. by destruct Hj.
  - destruct r; [|done]. destruct (_ <? _); [|done]. intros (c & E & [= <-])%bind_Some. by eapply same.
  - destruct r as [|i n ph]; [done|]. intros ([t' ph'] & E & [= <-])%bind_Some. destruct (q_reaper _ _ Hi) as [-> Ha].
    unfold remove_client in E. apply bind_Some in E as (c & Ec & E). injection E as <- <-. by eapply same.
  - destruct m; try done. intros [= <-]. eapply same; [done..|]. apply kept_same; [done|]. by intros j [|[|]].
  - destruct m as [| | |i|i ph|]; try done.
    + destruct (Z.ltb_spec (Z.of_nat i) max).
      * intros (c & E & [= <-])%bind_Some. eapply same; [done..|]. apply kept_same; [done|]. by intros j [|[|]].
      * destruct r; [|done]. intros [= <-]. eapply same; [done..|]. apply kept_same; [done|]. by intros j [|[|]].
    + intros ([t' ph'] & E & [= <-])%bind_Some Hfd. cbn in Hfd. destruct (Hk fd) as [|K]; [|left; by apply departed_snoc|].
      * by apply (remove_open _ _ _ _ _ _ E).
      * right. by eapply kept_remove.
Qed.

Lemma quiet_kept max evs s : quiet_run max evs start = Some s ->
  forall fd, fd ∈ open_socks (tab s) -> departed max evs fd \/ kept s fd.
Proof.
  revert s. induction evs as [|ev evs IH] using rev_ind; intros s.
  - intros [= <-] fd. set_solver.
  - unfold run_by. rewrite fold_left_app. fold (run_by (quiet_step max) evs start). cbn [fold_left].
    intros (s0 & E & Es)%bind_Some fd. eapply kept_step; [by eapply tidy_run|by apply quiet_is_run|done|by apply IH].
Qed.

(** ** [main] *)

Lemma clamp_range n : 1 <= clamp_clients n <= DEFAULT_MAX_CLIENTS.
Proof. unfold clamp_clients, DEFAULT_MAX_CLIENTS. ztests; lia. Qed.

Lemma case_range atof search opt a o o' : tcp_case atof search opt a o = Some o' ->
  1 <= max_clients o <= DEFAULT_MAX_CLIENTS -> 1 <= max_clients o' <= DEFAULT_MAX_CLIENTS.
Proof.
  destruct o. unfold tcp_case. intros E Hm. cbn [max_clients] in Hm.
  repeat (case_match; [try (apply bind_Some in E as (v & _ & E)); injection E as <-; first [exact Hm|apply clamp_range]|]). done.
Qed.

Lemma cases_range atof search l : forall o o', Options.cases (tcp_case atof search) l o = Some o' ->
  1 <= max_clients o <= DEFAULT_MAX_CLIENTS -> 1 <= max_clients o' <= DEFAULT_MAX_CLIENTS.
Proof.
  induction l as [|[opt a] l IH]; intros o o'; cbn [Options.cases]; [by intros [= <-]|].
  intros (o1 & E1 & E2)%bind_Some Hm. eapply IH; [exact E2|]. by eapply case_range.
Qed.

Lemma performs_sockets socks : forall dev ring reaper async n l,
  performs (map A_socket socks) (mk_held dev ring reaper async n l) = Some (mk_held dev ring reaper async n (rev socks ++ l)).
Proof.
  induction socks as [|s socks IH]; intros; [done|]. cbn [map perform_all perform mbind option_bind]. rewrite IH. cbn [rev]. by rewrite <- app_assoc.
Qed.

Lemma main_performs e s : unjoined s = 0%nat ->
  exists socks, performs (main e s).2 nothing = Some (mk_held false false false false 0 socks) /\
    forall fd, fd ∈ socks -> fd ∈ (listen_loop (e_addrs e) 0).1.2 /\ fd <> (listen_loop (e_addrs e) 0).1.1.
Proof.
  intros H0. unfold main.
  destruct (e_dev e <? 0); [by exists []; split; [done|set_solver]|].
  destruct (e_opened e); [|by exists []; split; [done|set_solver]].
  destruct (e_ring e); [|by exists []; split; [done|set_solver]].
  destruct (e_addr_ok e); [|by exists []; split; [done|set_solver]].
  cbn [negb]. destruct (listen_loop (e_addrs e) 0) as [[ls socks] ok]. cbn [fst snd]. rewrite H0.
  exists (list_difference (rev socks) [ls]). split.
  - rewrite performs_app. cbn [perform_all perform nothing mbind option_bind andb negb]. rewrite performs_app, performs_sockets.
    cbn [perform_all perform mbind option_bind andb negb Nat.leb Nat.eqb]. by rewrite app_nil_r.
  - intros fd [Hs Hn]%list_elem_of_difference. apply list_elem_of_In, in_rev, list_elem_of_In in Hs. set_solver.
Qed.

(** When no address can be bound the program goes on all the same: it listens at a socket without
    an address, and the other sockets are lost. *)
Lemma bind_fails s : let e := mk_env 0 true true true [(3, false); (4, false)] in
  listen_loop (e_addrs e) 0 = (4, [3; 4], false) /\ (main e s).1 = 0.
Proof. done. Qed.

(** C27.  The shutdown of rtl_tcp, for every command line and every interleaving of [main], the
    workers and the reaper in which [main] gets past the loop over the clients and joins the
    reaper: no client is active then.  Where moreover no client was taken between a test of the
    reaper and its call of [remove_client]: every socket that is still open is that of a client
    one of whose workers gave up while it was active, before the shutdown or during it, and
    each comes with two threads that nobody has joined.  When there is none, all of [main] on
    every path uses the device, the ring and the threads in order, with nothing closed while a
    thread uses it, and gives everything back but the sockets at which [bind] failed, given that
    the thread that reads the device returns. *)
Theorem tcp_shutdown atof search args o evs s e :
  let '(l, _, _) := GetoptSpec.parse optstring args in
  Options.cases (tcp_case atof search) l options_init = Some o ->
  let max := max_clients o in
  run max evs start = Some s -> main_pc s = M_done ->
  Forall (fun c => active c = false) (clients (tab s)) /\
  (quiet_run max evs start = Some s ->
   (forall fd, fd ∈ open_socks (tab s) -> departed max evs fd) /\
   unjoined s = (2 * length (open_socks (tab s)))%nat /\
   (open_socks (tab s) = [] ->
    exists socks, performs (main e s).2 nothing = Some (mk_held false false false false 0 socks) /\
      forall fd, fd ∈ socks -> fd ∈ (listen_loop (e_addrs e) 0).1.2 /\ fd <> (listen_loop (e_addrs e) 0).1.1)).
Proof.
  destruct (GetoptSpec.parse optstring args) as [[l op] n]. intros Hc. cbn zeta. intros Hr Hd.
  assert (Hoff : forall i c, clients (tab s) !! i = Some c -> active c = false)
    by (intros i c Hi; apply (off_run _ _ _ Hr i c Hi); rewrite Hd; by right).
  split; [by apply Forall_lookup|]. intros Hq.
  assert (Hu : unjoined s = (2 * length (open_socks (tab s)))%nat).
  { pose proof (q_threads _ _ (tidy_run _ _ _ Hq)) as T. rewrite Hd in T. cbn [ahead] in T. unfold unjoined, started. lia. }
  split_and!; [|exact Hu|intros E; apply main_performs; by rewrite Hu, E].
  intros fd Hfd. destruct (quiet_kept _ _ _ Hq fd Hfd) as [|(i & c & Ei & _ & [A|A])]; [done| |].
  - by rewrite (Hoff i c Ei) in A.
  - rewrite Hd in A. by destruct A as [|[|]].
Qed.

(** Three clients connect.  One goes by itself, another gives up while [main] joins the threads
    of the third: two sockets and four threads are left. *)
Definition session : list tevent :=
  [E_connect 5 29 [O_sent 12] 7; E_create; E_create; E_connect 5 29 [O_wait; O_sent 12] 8; E_create; E_create;
   E_connect 5 29 [O_sent 12] 9; E_create; E_create; E_leaves 0; E_test 0; E_reaper; E_exit; E_main;
   E_main; E_main; E_main; E_leaves 2; E_main; E_main; E_main; E_main; E_main; E_main].
Lemma tcp_shutdown_witness : exists s, run 3 session start = Some s /\ open_socks (tab s) = [9; 7] /\ unjoined s = 4%nat /\
  Forall (fun c => active c = false) (clients (tab s)) /\ departed 3 session 9.
Proof.
  destruct (run 3 session start) as [s|] eqn:E; [|exfalso; revert E; vm_compute; discriminate].
  assert (V : main_pc s = M_done /\ open_socks (tab s) = [9; 7] /\ unjoined s = 4%nat /\ quiet_run 3 session start = Some s)
    by (revert E; vm_compute; intros [= <-]; split_and!; reflexivity).
  destruct V as (V1 & V2 & V3 & V4). exists s.
  destruct (tcp_shutdown (fun _ => f64_of_Z 0) (fun _ => 0) [Eeprom.str "-c"; Eeprom.str "3"]
    (mk_options 0 false (Eeprom.str "127.0.0.1") (Eeprom.str "1234") 100000000 0 2048000 0 0 false false 3)
    session s (mk_env 0 true true true [(3, true)])) as (T1 & T2); [vm_compute; reflexivity|exact E|exact V1|].
  destruct (T2 V4) as (T3 & _). split_and!; [reflexivity|exact V2|exact V3|exact T1|]. apply T3. rewrite V2. apply elem_of_cons. by left.
Defined.
End TcpMainProps.
