(* ===== verification/RtlTools.v ===== *)
(** * The recorder and the test tool ([src/src/rtl_sdr.c], [src/src/rtl_test.c])

    [Module RtlSdr]: the callback and the synchronous loop of the recorder with the limit on
    the number of bytes, and the settings [main] makes.  [Module RtlTest]: the search for lost
    bytes in the counting test pattern, the measurement of the sample rate, and the benchmark
    of the E4000.

    [RtlToolsProps]: what the recorder writes, and what the test tool counts. *)

From S2P Require Import Prelude Float I2c Usb TunerR82xx TunerFc TunerE4k TunerFc2580 Librtlsdr LibrtlsdrOpen Convenience.

Module RtlSdr.
Import Usb Librtlsdr Convenience.

Abbreviation DEFAULT_BUF_LENGTH := (262144)%Z (only parsing).
Abbreviation MINIMAL_BUF_LENGTH := (512)%Z (only parsing).
Abbreviation MAXIMAL_BUF_LENGTH := (4194304)%Z (only parsing).

(** [bytes_to_read] and [do_exit]; how often [rtlsdr_cancel_async] was called, and what is in
    the file. *)
Record recorder := mk_rec {
  bytes_to_read : Z;
  do_exit : bool;
  cancels : Z;
  file : list Z;
}.

(** [ctx] is whether there is a file; [fwrite] takes [written] of the bytes it is given. *)
Definition rtlsdr_callback (ctx : bool) (written : Z -> Z) (buf : list Z) (len : Z) (s : recorder) : recorder :=
  if negb ctx then s
  else if do_exit s then s
  else
    let '(len, exit, n) :=
      if (0 <? bytes_to_read s) && (bytes_to_read s <? len) then (bytes_to_read s, true, cancels s + 1)
      else (len, do_exit s, cancels s) in
    let w := written len in
    let n := if negb (w =? len) then n + 1 else n in
    mk_rec (if 0 <? bytes_to_read s then u32 (bytes_to_read s - len) else bytes_to_read s) exit n
      (file s ++ take (Z.to_nat w) (take (Z.to_nat len) buf)).

(** The loop of the synchronous mode over what [rtlsdr_read_sync] and [fwrite] answer; behind
    the end of the answers a signal has arrived. *)
Fixpoint sync_loop (out_block_size : Z) (reads : list (Z * list Z * (Z -> Z))) (s : recorder) : recorder :=
  match reads with
  | [] => s
  | (r, buf, written) :: reads =>
      if do_exit s then s
      else if r <? 0 then s
      else
        let n_read := zlen buf in
        let '(n_read, exit) :=
          if (0 <? bytes_to_read s) && (bytes_to_read s <? n_read) then (bytes_to_read s, true) else (n_read, do_exit s) in
        let w := written n_read in
        let s' := mk_rec (bytes_to_read s) exit (cancels s) (file s ++ take (Z.to_nat w) (take (Z.to_nat n_read) buf)) in
        if negb (w =? n_read) then s'
        else if n_read <? out_block_size then s'
        else
          sync_loop out_block_size reads
            (mk_rec (if 0 <? bytes_to_read s then u32 (bytes_to_read s - n_read) else bytes_to_read s) exit (cancels s) (file s'))
  end.

Definition block_size (out_block_size : Z) : Z :=
  if (out_block_size <? MINIMAL_BUF_LENGTH) || (MAXIMAL_BUF_LENGTH <? out_block_size) then DEFAULT_BUF_LENGTH else out_block_size.

Section Settings.
Context {U : Type} `{Libusb U}.
(** The settings [main] makes on the opened device; none of the results is looked at. *)
Definition settings (direct_sampling : bool) (samp_rate frequency gain ppm_error : Z) : st (rtlsdr_dev U) unit :=
  _ ← (if direct_sampling then verbose_direct_sampling 2 else mret 0);
  _ ← verbose_set_sample_rate samp_rate;
  _ ← verbose_set_frequency frequency;
  _ ← (if gain =? 0 then verbose_auto_gain else gain ← nearest_gain gain; verbose_gain_set gain);
  _ ← verbose_ppm_set ppm_error;
  mret tt.
End Settings.
End RtlSdr.

Module RtlTest.

(** ** Lost bytes *)

(** [bcnt], [uninit], [total_samples] and [dropped_samples]. *)
Record counter := mk_counter { bcnt : Z; uninit : bool; total_samples : Z; dropped_samples : Z }.

Fixpoint underrun_loop (buf : list Z) (bcnt lost : Z) : Z * Z :=
  match buf with
  | [] => (bcnt, lost)
  | x :: buf =>
      let '(bcnt, lost) :=
        if negb (bcnt =? x) then (x, u32 (lost + (if bcnt <? x then x - bcnt else bcnt - x))) else (bcnt, lost) in
      underrun_loop buf (u8 (bcnt + 1)) lost
  end.
(** The new state and [lost], which is reported when it is not 0; [buf] is not empty. *)
Definition underrun_test (buf : list Z) (s : counter) : counter * Z :=
  let '(b, u) := if uninit s then (rd buf 0, false) else (bcnt s, uninit s) in
  let '(b, lost) := underrun_loop buf b 0 in
  (mk_counter b u (u32 (total_samples s + zlen buf)) (u32 (dropped_samples s + lost)), lost).

(** The share that is printed at the end; [None] for the division by zero. *)
Definition per_million (s : counter) : option Z :=
  if total_samples s =? 0 then None else Some (s32 (1000000 * dropped_samples s ÷ total_samples s)).

(** ** The sample rate *)

Inductive ppm_init := PPM_INIT_NO | PPM_INIT_DUMP | PPM_INIT_RUN.
(** The static variables of [ppm_test]; the time as seconds and nanoseconds. *)
Record ppm_state := mk_ppm {
  nsamples : Z; nsamples_total : Z; interval_total : Z; recent_sec : Z; recent_nsec : Z; init : ppm_init;
}.
Definition ppm_start : ppm_state := mk_ppm 0 0 0 0 0 PPM_INIT_NO.

Definition ppm_report (samp_rate nsamples interval : Z) : Z :=
  let real_rate := f64_div (f64_mul (f64_of_Z nsamples) (f64_of_Z 1000000000)) (f64_of_Z interval) in
  let ppm := f64_mul (f64_of_Z 1000000) (f64_sub (f64_div real_rate (f64_of_Z samp_rate)) (f64_of_Z 1)) in
  f_round ppm.

(** A call at the time [now]: the new state, and what is reported: samples and interval,
    without and with the ones before. *)
Definition ppm_test (ppm_duration len : Z) (now : Z * Z) (s : ppm_state) : ppm_state * option (Z * Z * Z * Z) :=
  let '(sec, nsec) := now in
  match init s with
  | PPM_INIT_NO => (mk_ppm (nsamples s) (nsamples_total s) (interval_total s) (sec + 5) (recent_nsec s) PPM_INIT_DUMP, None)
  | PPM_INIT_DUMP =>
      if recent_sec s <? sec then (s, None)
      else (mk_ppm (nsamples s) (nsamples_total s) (interval_total s) sec nsec PPM_INIT_RUN, None)
  | PPM_INIT_RUN =>
      let n := u64 (nsamples s + len / 2) in
      let interval := u64 (sec - recent_sec s) in
      if interval <? ppm_duration then
        (mk_ppm n (nsamples_total s) (interval_total s) (recent_sec s) (recent_nsec s) PPM_INIT_RUN, None)
      else
        let interval := u64 (u64 (interval * 1000000000) + (nsec - recent_nsec s)) in
        let nt := u64 (nsamples_total s + n) in
        let it := u64 (interval_total s + interval) in
        (mk_ppm 0 nt it sec nsec PPM_INIT_RUN, Some (n, interval, nt, it))
  end.

(** ** The E4000 *)

Section Benchmark.
(** Whether the device can be tuned to a frequency, with the state of the device. *)
Context {D : Type} (set_center_freq : Z -> D -> Z * D).

(** The first frequency that is refused, in steps of 1 MHz while [more] holds. *)
Fixpoint search (rounds : nat) (more : Z -> bool) (step freq : Z) (d : D) : option Z * D :=
  match rounds with
  | O => (None, d)
  | S rounds =>
      if negb (more freq) then (None, d)
      else
        let '(r, d) := set_center_freq freq d in
        if r <? 0 then (Some freq, d) else search rounds more step (u32 (freq + step)) d
  end.

(** Range and gap in MHz, as they are printed. *)
Definition e4k_benchmark (d : D) : (Z * Z) * (Z * Z) * D :=
  let MHZ := 1000000 in
  let '(range_start, d) := search 70 (fun f => 1 * MHZ <? f) (- MHZ) (70 * MHZ) d in
  let '(range_end, d) := search 300 (fun f => f <? 2300 * MHZ) MHZ (2000 * MHZ) d in
  let '(gap_start, d) := search 300 (fun f => f <? 1300 * MHZ) MHZ (1000 * MHZ) d in
  let '(gap_end, d) := search 300 (fun f => 1000 * MHZ <? f) (- MHZ) (1300 * MHZ) d in
  ((default 0 range_start / MHZ + 1, s32 (default 0 range_end / MHZ - 1)),
   (default 0 gap_start / MHZ, default 0 gap_end / MHZ), d).
End Benchmark.

End RtlTest.

Module RtlToolsProps.
Import RtlSdr RtlTest.

(** ** The recorder *)

(** All bytes are written. *)
Definition record (s : recorder) (blocks : list (list Z)) : recorder :=
  fold_left (fun s b => rtlsdr_callback true id b (zlen b) s) blocks s.
Definition record_sync (size : Z) (s : recorder) (blocks : list (list Z)) : recorder :=
  sync_loop size ((fun b => (0, b, fun n => n)) <$> blocks) s.

(** Whether a limit is reached exactly at the end of a block. *)
Fixpoint hits (limit : Z) (blocks : list (list Z)) : bool :=
  (limit =? 0) || match blocks with [] => false | b :: blocks => hits (limit - zlen b) blocks end.

Lemma hits_neg limit bs : limit < 0 -> hits limit bs = false.
Proof.
  revert limit. induction bs as [|b bs IH]; intros limit Hl; cbn [hits]; (destruct (Z.eqb_spec limit 0); [lia|]); cbn [orb]; [done|].
  apply IH. pose proof (zlen_nonneg b). lia.
Qed.
Lemma hits_zero bs : hits 0 bs = true.
Proof. by destruct bs. Qed.

(** The bytes of the file and whether the recording has ended. *)
Definition recorded (limit : Z) (bs : list (list Z)) : list Z :=
  if hits limit bs then mjoin bs else take (Z.to_nat limit) (mjoin bs).
Definition finished (limit : Z) (bs : list (list Z)) : bool := negb (hits limit bs) && (limit <? zlen (mjoin bs)).

Lemma recorded_cut limit b bs : 0 < limit < zlen b -> recorded limit (b :: bs) = take (Z.to_nat limit) b /\ finished limit (b :: bs) = true.
Proof.
  intros Hl. unfold recorded, finished. cbn [hits]. destruct (Z.eqb_spec limit 0); [lia|]. cbn [orb].
  rewrite hits_neg by lia. change (mjoin (b :: bs)) with (b ++ mjoin bs). split.
  - rewrite take_app_le; [done|]. unfold zlen in Hl. lia.
  - rewrite zlen_app. pose proof (zlen_nonneg (mjoin bs)). cbn [negb andb]. apply Z.ltb_lt. lia.
Qed.
Lemma recorded_more limit b bs : limit = 0 \/ zlen b <= limit ->
  let rest := if 0 <? limit then limit - zlen b else limit in
  recorded limit (b :: bs) = b ++ recorded rest bs /\ finished limit (b :: bs) = finished rest bs.
Proof.
  intros Hl rest. assert (E : hits limit (b :: bs) = hits rest bs).
  { unfold rest. cbn [hits]. pose proof (zlen_nonneg b).
    destruct (Z.ltb_spec 0 limit), (Z.eqb_spec limit 0) as [->|]; try lia; [done|]. by rewrite hits_zero. }
  unfold recorded, finished. rewrite E. change (mjoin (b :: bs)) with (b ++ mjoin bs). split.
  - destruct (hits rest bs) eqn:Hh; [done|].
    assert (limit <> 0) by (intros ->; unfold rest in Hh; cbn [Z.ltb Z.compare] in Hh; by rewrite hits_zero in Hh).
    unfold rest. destruct (Z.ltb_spec 0 limit); [|pose proof (zlen_nonneg b); lia].
    rewrite take_app_ge by (unfold zlen in Hl; lia). do 2 f_equal. unfold zlen in *. lia.
  - destruct (hits rest bs) eqn:Hh; [done|]. cbn [negb andb].
    assert (limit <> 0) by (intros ->; unfold rest in Hh; cbn [Z.ltb Z.compare] in Hh; by rewrite hits_zero in Hh).
    unfold rest. rewrite zlen_app. pose proof (zlen_nonneg b). destruct (Z.ltb_spec 0 limit); [|lia].
    destruct (Z.ltb_spec limit (zlen b + zlen (mjoin bs))), (Z.ltb_spec (limit - zlen b) (zlen (mjoin bs))); lia || done.
Qed.
Lemma recorded_nil limit : 0 <= limit -> recorded limit [] = [] /\ finished limit [] = false.
Proof.
  intros Hl. unfold recorded, finished. cbn [hits mjoin list_join]. split; [by destruct (_ || _); rewrite ?take_nil|].
  destruct (Z.eqb_spec limit 0); [done|]. cbn [orb negb andb]. apply Z.ltb_ge. unfold zlen. cbn. lia.
Qed.

Lemma record_stops bs s : do_exit s = true -> record s bs = s.
Proof. intros Hs. unfold record. induction bs as [|b bs IH]; cbn [fold_left]; [done|]. unfold rtlsdr_callback at 2. by rewrite Hs. Qed.

Lemma take_zlen (b : list Z) : take (Z.to_nat (zlen b)) b = b.
Proof. apply take_ge. unfold zlen. lia. Qed.

Lemma record_spec bs : forall limit n f, 0 <= limit < 2 ^ 32 ->
  file (record (mk_rec limit false n f) bs) = f ++ recorded limit bs /\
  do_exit (record (mk_rec limit false n f) bs) = finished limit bs /\
  cancels (record (mk_rec limit false n f) bs) = n + Z.b2z (finished limit bs).
Proof.
  induction bs as [|b bs IH]; intros limit n f Hl.
  { destruct (recorded_nil limit) as [-> ->]; [lia|]. cbn. by rewrite app_nil_r, Z.add_0_r. }
  unfold record. cbn [fold_left]. fold (record (rtlsdr_callback true id b (zlen b) (mk_rec limit false n f)) bs).
  unfold rtlsdr_callback. cbn [negb do_exit bytes_to_read cancels file]. unfold id.
  destruct (decide (0 < limit < zlen b)) as [H|H].
  - destruct (recorded_cut limit b bs H) as [-> ->].
    rewrite (proj2 (Z.ltb_lt 0 limit)), (proj2 (Z.ltb_lt limit (zlen b))) by lia. cbn [andb]. rewrite Z.eqb_refl. cbn [negb].
    rewrite record_stops by done. cbn [file do_exit cancels Z.b2z]. split_and!; auto. by rewrite take_take, Nat.min_id.
  - destruct (recorded_more limit b bs) as [-> ->]; [lia|].
    assert ((0 <? limit) && (limit <? zlen b) = false) as ->.
    { destruct (Z.ltb_spec 0 limit), (Z.ltb_spec limit (zlen b)); try done. lia. }
    rewrite Z.eqb_refl. cbn [negb]. rewrite !take_zlen, app_assoc. pose proof (zlen_nonneg b).
    destruct (Z.ltb_spec 0 limit); [rewrite u32_id by clia|]; apply IH; lia.
Qed.

Lemma record_sync_spec size bs : forall limit n f, 0 <= limit < 2 ^ 32 -> Forall (fun b => zlen b = size) bs ->
  file (record_sync size (mk_rec limit false n f) bs) = f ++ recorded limit bs.
Proof.
  induction bs as [|b bs IH]; intros limit n f Hl Hb.
  { destruct (recorded_nil limit) as [-> _]; [lia|]. cbn. by rewrite app_nil_r. }
  apply Forall_cons_1 in Hb as [Hb Hbs]. unfold record_sync. cbn [fmap list_fmap sync_loop do_exit bytes_to_read cancels file]. unfold id.
  cbn [Z.ltb Z.compare]. destruct (decide (0 < limit < zlen b)) as [H|H].
  - destruct (recorded_cut limit b bs H) as [-> _].
    rewrite (proj2 (Z.ltb_lt 0 limit)), (proj2 (Z.ltb_lt limit (zlen b))) by lia. cbn [andb]. rewrite Z.eqb_refl. cbn [negb].
    rewrite (proj2 (Z.ltb_lt limit size)) by lia. cbn [file]. by rewrite take_take, Nat.min_id.
  - destruct (recorded_more limit b bs) as [-> _]; [lia|].
    assert ((0 <? limit) && (limit <? zlen b) = false) as ->.
    { destruct (Z.ltb_spec 0 limit), (Z.ltb_spec limit (zlen b)); try done. lia. }
    rewrite Z.eqb_refl, (proj2 (Z.ltb_ge (zlen b) size)) by lia. cbn [negb file]. rewrite !take_zlen, app_assoc. pose proof (zlen_nonneg b).
    destruct (Z.ltb_spec 0 limit); [rewrite u32_id by clia|]; apply IH; lia || done.
Qed.

(** What the recorder writes when every write succeeds: with a limit, the first so many
    bytes of the stream, and the recording then ends - unless the limit falls exactly on the
    end of a block.  It is then 0, which stands for no limit: everything is written and the
    recording goes on.  Both modes of reading write the same when blocks are full. *)
Theorem recorder_limit limit blocks :
  0 <= limit < 2 ^ 32 ->
  let s := record (mk_rec limit false 0 []) blocks in
  file s = (if hits limit blocks then mjoin blocks else take (Z.to_nat limit) (mjoin blocks)) /\
  do_exit s = negb (hits limit blocks) && (limit <? zlen (mjoin blocks)) /\ cancels s = Z.b2z (do_exit s) /\
  forall size, Forall (fun b => zlen b = size) blocks -> file (record_sync size (mk_rec limit false 0 []) blocks) = file s.
Proof.
  intros Hl s. destruct (record_spec blocks limit 0 [] Hl) as (E1 & E2 & E3). cbn [app] in E1. subst s.
  split_and!; [exact E1|exact E2|by rewrite E3, E2|]. intros size Hs. rewrite E1. by apply record_sync_spec.
Qed.

Lemma recorder_limit_witness :
  file (record (mk_rec 3 false 0 []) [[1; 2]; [3; 4]; [5; 6]]) = [1; 2; 3] /\
  file (record (mk_rec 4 false 0 []) [[1; 2]; [3; 4]; [5; 6]]) = [1; 2; 3; 4; 5; 6].
Proof.
  split.
  - rewrite (proj1 (recorder_limit 3 [[1; 2]; [3; 4]; [5; 6]] ltac:(lia))). reflexivity.
  - rewrite (proj1 (recorder_limit 4 [[1; 2]; [3; 4]; [5; 6]] ltac:(lia))). reflexivity.
Defined.

(** ** The test pattern *)

Definition dist (a b : Z) : Z := Z.abs (b - a).
(** The distances between what follows a byte of the pattern and what came. *)
Fixpoint gaps (prev : Z) (xs : list Z) : Z :=
  match xs with [] => 0 | x :: xs => dist (u8 (prev + 1)) x + gaps x xs end.
Fixpoint last_of (prev : Z) (xs : list Z) : Z := match xs with [] => prev | x :: xs => last_of x xs end.

Lemma underrun_loop_gaps xs : forall prev lost, is_u 32 lost ->
  underrun_loop xs (u8 (prev + 1)) lost = (u8 (last_of prev xs + 1), u32 (lost + gaps prev xs)).
Proof.
  induction xs as [|x xs IH]; intros prev lost Hl; cbn [underrun_loop last_of gaps]; [by rewrite Z.add_0_r, u32_id|].
  unfold dist. destruct (Z.eqb_spec (u8 (prev + 1)) x) as [E|E]; cbn [negb].
  - rewrite E, IH by done. rewrite Z.sub_diag. done.
  - rewrite IH by auto with cint. f_equal. unfold u32. rewrite Zplus_mod_idemp_l. f_equal.
    destruct (Z.ltb_spec (u8 (prev + 1)) x); lia.
Qed.

Definition test_run (s : counter) (bufs : list (list Z)) : counter := fold_left (fun s b => (underrun_test b s).1) bufs s.
Definition test_start : counter := mk_counter 0 true 0 0.

Lemma gaps_app prev xs ys : gaps prev (xs ++ ys) = gaps prev xs + gaps (last_of prev xs) ys.
Proof. revert prev. induction xs as [|x xs IH]; intros prev; cbn [app gaps last_of]; [done|]. rewrite IH. lia. Qed.
Lemma last_of_app prev xs ys : last_of prev (xs ++ ys) = last_of (last_of prev xs) ys.
Proof. revert prev. induction xs as [|x xs IH]; intros prev; cbn [app last_of]; [done|]. apply IH. Qed.

Lemma test_run_gaps bufs : forall prev t d,
  test_run (mk_counter (u8 (prev + 1)) false t d) bufs
  = match bufs with
    | [] => mk_counter (u8 (prev + 1)) false t d
    | _ => mk_counter (u8 (last_of prev (mjoin bufs) + 1)) false (u32 (t + zlen (mjoin bufs))) (u32 (d + gaps prev (mjoin bufs)))
    end.
Proof.
  induction bufs as [|b bufs IH]; intros prev t d; [done|]. unfold test_run. cbn [fold_left].
  unfold underrun_test at 2. cbn [uninit bcnt total_samples dropped_samples]. rewrite underrun_loop_gaps by done. cbn [fst].
  fold (test_run (mk_counter (u8 (last_of prev b + 1)) false (u32 (t + zlen b)) (u32 (d + u32 (0 + gaps prev b)))) bufs).
  rewrite IH. change (mjoin (b :: bufs)) with (b ++ mjoin bufs). rewrite last_of_app, zlen_app, gaps_app, Z.add_0_l.
  assert (Hd : u32 (d + u32 (gaps prev b)) = u32 (d + gaps prev b)) by (unfold u32; by rewrite Zplus_mod_idemp_r).
  rewrite Hd. destruct bufs as [|b' bufs].
  - cbn [mjoin list_join last_of gaps]. unfold zlen. cbn [length]. by rewrite !Z.add_0_r.
  - f_equal; unfold u32; rewrite Zplus_mod_idemp_l; f_equal; lia.
Qed.

(** However the stream of the test pattern is cut into buffers, the tool counts all its
    bytes and adds up the distance of every byte from the one the pattern has behind the byte
    before it, also from one buffer to the next.  Where [k] bytes of the pattern are missing
    the distance is [k] when the pattern does not come round between them; otherwise it is
    [256 - k], although the tool calls the sum a minimum. *)
Theorem test_counts_gaps x bufs :
  is_u 8 x -> Forall (fun b => b <> []) bufs -> forall xs, mjoin bufs = x :: xs ->
  dropped_samples (test_run test_start bufs) = u32 (gaps x xs) /\
  total_samples (test_run test_start bufs) = u32 (zlen (x :: xs)) /\
  forall prev k, 0 <= k < 256 -> let next := u8 (prev + 1) in
    dist next (u8 (next + k)) = if next + k <? 256 then k else 256 - k.
Proof.
  intros Hx Hne xs Hj. apply Logic.and_assoc. split.
  - destruct bufs as [|b bufs]; [done|]. apply Forall_cons_1 in Hne as [Hb _]. destruct b as [|y b]; [done|].
    change (mjoin ((y :: b) :: bufs)) with (y :: (b ++ mjoin bufs)) in Hj. injection Hj as -> <-.
    assert (Hs : test_run test_start ((x :: b) :: bufs) = test_run (mk_counter (u8 (x - 1 + 1)) false 0 0) ((x :: b) :: bufs)).
    { unfold test_run. cbn [fold_left]. unfold underrun_test. cbn [test_start uninit bcnt]. change (rd (x :: b) 0) with x.
      by rewrite Z.sub_add, (u8_id x) by done. }
    rewrite Hs, test_run_gaps. cbn [dropped_samples total_samples]. rewrite !Z.add_0_l.
    change (mjoin ((x :: b) :: bufs)) with (x :: (b ++ mjoin bufs)). split; [|done]. cbn [gaps]. unfold dist.
    by rewrite Z.sub_add, (u8_id x), Z.sub_diag by done.
  - intros prev k Hk next. assert (0 <= next < 256) by (unfold next; cdlia). unfold dist.
    destruct (Z.ltb_spec (next + k) 256); [rewrite u8_id by clia; lia|].
    assert (u8 (next + k) = next + k - 256) as -> by cdlia. lia.
Qed.

Lemma test_counts_gaps_witness :
  dropped_samples (test_run test_start [[250; 251]; [252; 254; 255; 0]]) = 1 /\
  dropped_samples (test_run test_start [[250]; [2; 3]]) = 249.
Proof.
  split.
  - rewrite (proj1 (test_counts_gaps 250 [[250; 251]; [252; 254; 255; 0]] ltac:(done) ltac:(by repeat constructor) _ eq_refl)). reflexivity.
  - rewrite (proj1 (test_counts_gaps 250 [[250]; [2; 3]] ltac:(done) ltac:(by repeat constructor) _ eq_refl)). reflexivity.
Defined.

(** The seconds that are to be thrown away: the second call starts the measurement when it is
    within them; when it is not, the measurement never starts. *)
Lemma dump_time_inverted duration len t0 t1 ns0 ns1 :
  let s := (ppm_test duration len (t0, ns0) ppm_start).1 in
  (t1 <= t0 + 5 -> init (ppm_test duration len (t1, ns1) s).1 = PPM_INIT_RUN) /\
  (t0 + 5 < t1 -> (ppm_test duration len (t1, ns1) s).1 = s).
Proof.
  cbn. destruct (Z.ltb_spec (t0 + 5) t1); split; intros; done || lia.
Qed.

(** A session that is cancelled before the first buffer ends with a division by zero. *)
Lemma nothing_received : per_million test_start = None.
Proof. done. Qed.

(** Once it runs, the reported intervals join: the sum of all is the time from the first to the
    last report, and no sample is counted twice or left out. *)
Definition ppm_run (duration : Z) (s : ppm_state) (calls : list (Z * (Z * Z))) : ppm_state :=
  fold_left (fun s c => (ppm_test duration c.1 c.2 s).1) calls s.
Definition ns (sec nsec : Z) : Z := sec * 1000000000 + nsec.
Theorem ppm_intervals_join duration calls s :
  init s = PPM_INIT_RUN ->
  let s' := ppm_run duration s calls in
  u64 (interval_total s' - ns (recent_sec s') (recent_nsec s')) = u64 (interval_total s - ns (recent_sec s) (recent_nsec s)) /\
  u64 (nsamples_total s' + nsamples s') = u64 (nsamples_total s + nsamples s + foldr (fun c n => c.1 / 2 + n) 0 calls).
Proof.
  revert s. induction calls as [|[len [sec nsec]] calls IH]; intros s Hs; cbn [ppm_run fold_left foldr fst snd]; [by rewrite Z.add_0_r|].
  fold (ppm_run duration (ppm_test duration len (sec, nsec) s).1 calls).
  assert (H : let t := (ppm_test duration len (sec, nsec) s).1 in init t = PPM_INIT_RUN /\
    u64 (interval_total t - ns (recent_sec t) (recent_nsec t)) = u64 (interval_total s - ns (recent_sec s) (recent_nsec s)) /\
    u64 (nsamples_total t + nsamples t) = u64 (nsamples_total s + nsamples s + len / 2)).
  { unfold ppm_test. rewrite Hs. destruct (_ <? _); cbn [fst init interval_total recent_sec recent_nsec nsamples_total nsamples ns];
      (split; [done|]); split; unfold ns; cdlia. }
  cbn zeta in H. destruct H as (Hr & H1 & H2). destruct (IH _ Hr) as [-> H3]. split; [done|]. rewrite H3.
  transitivity (u64 (u64 (nsamples_total (ppm_test duration len (sec, nsec) s).1 + nsamples (ppm_test duration len (sec, nsec) s).1)
    + foldr (fun c n => c.1 / 2 + n) 0 calls)); [by unfold u64; rewrite Zplus_mod_idemp_l|].
  rewrite H2. unfold u64. rewrite Zplus_mod_idemp_l. f_equal. lia.
Qed.

End RtlToolsProps.
