(* ===== verification/RtlList.v ===== *)
(** * Listing the devices ([src/src/rtl_list.c])

    [Module RtlList]: what the tool prints for the devices the library enumerates, as text and
    as JSON, as bytes.  [Module Json] reads JSON text into tokens, as the format has them.

    [RtlListProps]: both forms of the JSON output are the same, intended tokens, as long as no
    string needs an escape. *)

From Stdlib Require Import String Ascii.
From S2P Require Import Prelude.

Module RtlList.

Definition bytes (s : string) : list Z := (fun a => Z.of_N (N_of_ascii a)) <$> list_ascii_of_string s.
Abbreviation quote := (34)%Z (only parsing).
Abbreviation newline := (10)%Z (only parsing).

(** [%d] for a number that is not negative. *)
Fixpoint digits (fuel : nat) (n : Z) : list Z :=
  match fuel with
  | O => []
  | S fuel => if n <? 10 then [48 + n] else digits fuel (n / 10) ++ [48 + n mod 10]
  end.
Definition decimal (n : Z) : list Z := digits (S (Z.to_nat (Z.log2 n))) n.
(** [%*s] with an empty string. *)
Definition spaces (n : Z) : list Z := replicate (Z.to_nat n) 32.

(** What the library passes to a callback; [None] for a NULL pointer. *)
Record entry := mk_entry {
  index : Z;
  name : option (list Z);
  manufact : option (list Z);
  product : option (list Z);
  serial : option (list Z);
}.

Definition text_line (label : string) (v : option (list Z)) : list Z :=
  match v with Some v => bytes label ++ v ++ [newline] | None => [] end.
Definition text_cb (e : entry) : list Z :=
  bytes "  " ++ decimal (index e) ++ bytes ":  " ++ default (bytes "unknown") (name e) ++
  match serial e with Some s => bytes ", SN: " ++ s | None => [] end ++ [newline] ++
  text_line "       Manufacturer: " (manufact e) ++ text_line "       Product: " (product e) ++
  text_line "       Serial: " (serial e) ++ [newline].

(** [*comma] is 1 behind both. *)
Definition json_field (label : string) (val : option (list Z)) (comma pretty : bool) (indent : Z) : list Z :=
  (if comma then bytes "," else []) ++ (if pretty then newline :: spaces indent else []) ++
  [quote] ++ bytes label ++ [quote] ++ bytes ": " ++
  match val with Some v => [quote] ++ v ++ [quote] | None => bytes "null" end.
Definition json_index (val : Z) (comma pretty : bool) (indent : Z) : list Z :=
  (if comma then bytes "," else []) ++ (if pretty then newline :: spaces indent else []) ++
  [quote] ++ bytes "index" ++ [quote] ++ bytes ": " ++ decimal val.

Definition json_fields (e : entry) (pretty : bool) (indent : Z) : list Z :=
  json_field "name" (name e) true pretty indent ++ json_field "manufacturer" (manufact e) true pretty indent ++
  json_field "product" (product e) true pretty indent ++ json_field "serial" (serial e) true pretty indent.
(** [js->first] and [js->pretty]; the first is 0 behind it. *)
Definition json_cb (first pretty : bool) (e : entry) : list Z :=
  (if first then [] else bytes ",") ++
  if pretty then
    [newline] ++ bytes "    {" ++ json_index (index e) false true 6 ++ json_fields e true 6 ++ [newline] ++ bytes "    }"
  else
    bytes "{" ++ [quote] ++ bytes "index" ++ [quote] ++ bytes ":" ++ decimal (index e) ++ json_fields e false 0 ++ bytes "}".

Fixpoint json_loop (first pretty : bool) (l : list entry) : list Z :=
  match l with [] => [] | e :: l => json_cb first pretty e ++ json_loop false pretty l end.

(** What [main] prints for the devices the library enumerates. *)
Definition main (json_mode pretty : bool) (devices : list entry) : list Z :=
  if json_mode then
    (if pretty then bytes "{" ++ [newline] ++ bytes "  " ++ [quote] ++ bytes "devices" ++ [quote] ++ bytes ": ["
     else bytes "{" ++ [quote] ++ bytes "devices" ++ [quote] ++ bytes ":[") ++
    json_loop true pretty devices ++
    (if pretty then [newline] ++ bytes "  ]" ++ [newline] ++ bytes "}" ++ [newline] else bytes "]}" ++ [newline])
  else if 0 <? zlen devices then
    bytes "Found " ++ decimal (zlen devices) ++ bytes " device(s):" ++ [newline; newline] ++ mjoin (text_cb <$> devices)
  else bytes "No supported devices found." ++ [newline].

End RtlList.

(** ** JSON *)

Module Json.
Import RtlList.

Inductive token := Punct (c : Z) | Str (s : list Z) | Num (n : Z) | Null.
(** What has been read of a token. *)
Inductive state := Between | InStr (s : list Z) | InNum (n : Z) | InNull (rest : list Z).

Definition white (c : Z) : bool := (c =? 32) || (c =? 9) || (c =? 10) || (c =? 13).
Definition punct (c : Z) : bool := (c =? 123) || (c =? 125) || (c =? 91) || (c =? 93) || (c =? 58) || (c =? 44).
Definition digit (c : Z) : bool := (48 <=? c) && (c <=? 57).

Definition begin_token (c : Z) : option (list token * state) :=
  if white c then Some ([], Between)
  else if punct c then Some ([Punct c], Between)
  else if c =? quote then Some ([], InStr [])
  else if digit c then Some ([], InNum (c - 48))
  else if c =? 110 then Some ([], InNull (bytes "ull"))
  else None.
(** The next character; a string is read up to its quote, control characters and escapes are
    refused. *)
Definition next_char (s : state) (c : Z) : option (list token * state) :=
  match s with
  | Between => begin_token c
  | InStr r =>
      if c =? quote then Some ([Str r], Between)
      else if (c <? 32) || (c =? 92) then None
      else Some ([], InStr (r ++ [c]))
  | InNum n =>
      if digit c then Some ([], InNum (10 * n + (c - 48)))
      else '(t, s) ← begin_token c; Some (Num n :: t, s)
  | InNull [] => None
  | InNull (d :: rest) =>
      if c =? d then Some (match rest with [] => ([Null], Between) | _ => ([], InNull rest) end) else None
  end.
Fixpoint lex_from (s : state) (l : list Z) : option (list token * state) :=
  match l with
  | [] => Some ([], s)
  | c :: l => '(t, s) ← next_char s c; '(ts, s) ← lex_from s l; Some (t ++ ts, s)
  end.
Definition lex (l : list Z) : option (list token) :=
  '(ts, s) ← lex_from Between l; match s with Between => Some ts | InNum n => Some (ts ++ [Num n]) | _ => None end.

End Json.

Module RtlListProps.
Import RtlList Json.

(** ** Reading pieces *)

Definition reads (s : state) (l : list Z) (ts : list token) (s' : state) : Prop := lex_from s l = Some (ts, s').

Lemma reads_app s a ts s1 b us s2 : reads s a ts s1 -> reads s1 b us s2 -> reads s (a ++ b) (ts ++ us) s2.
Proof.
  unfold reads. revert s ts. induction a as [|c a IH]; intros s ts; cbn [app lex_from].
  - intros [= <- <-]. done.
  - destruct (next_char s c) as [[t s']|]; [|done]. cbn [mbind option_bind].
    destruct (lex_from s' a) as [[us' s'']|] eqn:E; [|done]. cbn [mbind option_bind]. intros [= <- ->] Hb.
    rewrite (IH s' us' E Hb). cbn [mbind option_bind]. by rewrite app_assoc.
Qed.
Lemma reads_nil s : reads s [] [] s.
Proof. done. Qed.

(** A string without quotes, escapes and control characters. *)
Definition plain (v : list Z) : Prop := Forall (fun c => 32 <= c /\ c <> 34 /\ c <> 92) v.

Lemma reads_chars r v : plain v -> reads (InStr r) v [] (InStr (r ++ v)).
Proof.
  intros Hv. revert r. induction Hv as [|c v (H1 & H2 & H3) _ IH]; intros r; [by rewrite app_nil_r|].
  unfold reads. cbn [lex_from next_char]. destruct (Z.eqb_spec c 34); [done|]. destruct (Z.ltb_spec c 32); [lia|].
  destruct (Z.eqb_spec c 92); [done|]. cbn [orb mbind option_bind]. rewrite IH. cbn [mbind option_bind app]. by rewrite <- app_assoc.
Qed.
Lemma reads_str v : plain v -> reads Between ([34] ++ v ++ [34]) [Str v] Between.
Proof.
  intros Hv. change [Str v] with ([] ++ ([] ++ [Str v])). eapply reads_app; [done|]. eapply reads_app; [by apply reads_chars|]. done.
Qed.

Lemma reads_digits fuel n : 0 <= n < 2 ^ Z.of_nat fuel ->
  forall s, (s = Between \/ s = InNum 0) -> reads s (digits fuel n) [] (InNum n) \/ fuel = O.
Proof.
  revert n. induction fuel as [|fuel IH]; intros n Hn s Hs; [by right|]. left. cbn [digits].
  assert (Hd : forall d, 0 <= d < 10 -> digit (48 + d) = true).
  { intros d Hd. unfold digit. apply andb_true_iff. split; apply Z.leb_le; lia. }
  assert (Hb : forall d, 0 <= d < 10 -> begin_token (48 + d) = Some ([], InNum d)).
  { intros d Hd0. assert (d = 0 \/ d = 1 \/ d = 2 \/ d = 3 \/ d = 4 \/ d = 5 \/ d = 6 \/ d = 7 \/ d = 8 \/ d = 9) by lia.
    destruct_or?; subst d; done. }
  destruct (Z.ltb_spec n 10).
  - unfold reads. cbn [lex_from]. destruct Hs as [->| ->]; cbn [next_char]; [by rewrite Hb by lia|].
    rewrite Hd by lia. cbn [mbind option_bind]. do 3 f_equal. lia.
  - rewrite Nat2Z.inj_succ, Z.pow_succ_r in Hn by lia. pose proof (Z.mod_pos_bound n 10 ltac:(lia)) as Hm.
    pose proof (Z.div_mod n 10 ltac:(lia)) as Hdm. destruct (IH (n / 10) ltac:(lia) s Hs) as [Hr| ->]; [|cbn in Hn; lia].
    change (@nil token) with (@nil token ++ []). eapply reads_app; [exact Hr|]. unfold reads. cbn [lex_from next_char].
    rewrite Hd by lia. cbn [mbind option_bind]. do 3 f_equal. lia.
Qed.
Lemma reads_decimal n : 0 <= n -> reads Between (decimal n) [] (InNum n).
Proof.
  intros Hn. destruct (reads_digits (S (Z.to_nat (Z.log2 n))) n) with (s := Between) as [H|H]; auto; [|done].
  destruct (decide (n = 0)) as [->|]; [done|]. pose proof (Z.log2_spec n ltac:(lia)). pose proof (Z.log2_nonneg n).
  rewrite Nat2Z.inj_succ, Z2Nat.id by lia. lia.
Qed.

(** A number ends before a comma, a brace or white space. *)
Lemma reads_after_num n c l ts s : digit c = false -> reads Between (c :: l) ts s -> reads (InNum n) (c :: l) (Num n :: ts) s.
Proof.
  unfold reads. intros Hc. cbn [lex_from next_char]. rewrite Hc. destruct (begin_token c) as [[t s']|]; [|done]. cbn [mbind option_bind].
  destruct (lex_from s' l) as [[us s'']|]; [|done]. cbn [mbind option_bind]. intros [= <- ->]. done.
Qed.
Lemma reads_spaces n : reads Between (spaces n) [] Between.
Proof. unfold spaces. induction (Z.to_nat n) as [|k IH]; [done|]. unfold reads in *. cbn [replicate lex_from].
  change (next_char Between 32) with (Some (@nil token, Between)). cbn [mbind option_bind]. by rewrite IH.
Qed.

(** ** The intended tokens *)

Definition value (v : option (list Z)) : token := match v with Some v => Str v | None => Null end.
Definition field (label : string) (v : token) : list token := [Str (bytes label); Punct 58; v].
Definition entry_tokens (e : entry) : list token :=
  [Punct 123] ++ field "index" (Num (index e)) ++ [Punct 44] ++ field "name" (value (name e)) ++ [Punct 44] ++
  field "manufacturer" (value (manufact e)) ++ [Punct 44] ++ field "product" (value (product e)) ++ [Punct 44] ++
  field "serial" (value (serial e)) ++ [Punct 125].
Fixpoint entries_tokens (l : list entry) : list token :=
  match l with [] => [] | [e] => entry_tokens e | e :: l => entry_tokens e ++ [Punct 44] ++ entries_tokens l end.
Definition json_tokens (l : list entry) : list token :=
  [Punct 123; Str (bytes "devices"); Punct 58; Punct 91] ++ entries_tokens l ++ [Punct 93; Punct 125].

Definition plain_opt (v : option (list Z)) : Prop := match v with Some v => plain v | None => True end.
Definition plain_entry (e : entry) : Prop :=
  0 <= index e /\ plain_opt (name e) /\ plain_opt (manufact e) /\ plain_opt (product e) /\ plain_opt (serial e).

Definition is_plain (v : list Z) : bool := forallb (fun c => (32 <=? c) && negb (c =? 34) && negb (c =? 92)) v.
Lemma is_plain_spec v : is_plain v = true -> plain v.
Proof.
  unfold is_plain, plain. induction v as [|c v IH]; cbn [forallb]; [constructor|]. rewrite !andb_true_iff, !negb_true_iff, Z.leb_le, !Z.eqb_neq.
  intros [[[? ?] ?] Hv]. constructor; [done|by apply IH].
Qed.

Lemma reads_value v : plain_opt v -> reads Between (match v with Some v => [34] ++ v ++ [34] | None => bytes "null" end) [value v] Between.
Proof. destruct v as [v|]; cbn [plain_opt]; [apply reads_str|done]. Qed.

(** What stands before a label. *)
Lemma reads_lead (comma pretty : bool) (indent : Z) :
  reads Between ((if comma then bytes "," else []) ++ (if pretty then 10 :: spaces indent else [])) (if comma then [Punct 44] else []) Between.
Proof.
  rewrite <- (app_nil_r (if comma then [Punct 44] else [] : list token)). eapply reads_app; [by destruct comma|].
  destruct pretty; [|done]. change (10 :: spaces indent) with ([10] ++ spaces indent). change (@nil token) with (@nil token ++ []).
  eapply reads_app; [done|apply reads_spaces].
Qed.
Lemma reads_label label : is_plain (bytes label) = true -> forall sep, sep = bytes ": " \/ sep = bytes ":" ->
  reads Between ([34] ++ bytes label ++ [34] ++ sep) [Str (bytes label); Punct 58] Between.
Proof.
  intros Hl sep Hs. replace ([34] ++ bytes label ++ [34] ++ sep) with (([34] ++ bytes label ++ [34]) ++ sep) by (by rewrite <- !app_assoc).
  change [Str (bytes label); Punct 58] with ([Str (bytes label)] ++ [Punct 58]).
  eapply reads_app; [by apply reads_str, is_plain_spec|]. by destruct Hs as [->| ->].
Qed.

Lemma reads_field label v (comma pretty : bool) indent : is_plain (bytes label) = true -> plain_opt v ->
  reads Between (json_field label v comma pretty indent) ((if comma then [Punct 44] else []) ++ field label (value v)) Between.
Proof.
  intros Hl Hv. unfold json_field. rewrite app_assoc. eapply reads_app; [apply reads_lead|].
  change (field label (value v)) with ([Str (bytes label); Punct 58] ++ [value v]).
  rewrite (app_assoc (bytes label)), (app_assoc [34]). rewrite (app_assoc ([34] ++ _)).
  eapply reads_app; [|by apply reads_value]. rewrite <- !app_assoc. apply reads_label; auto.
Qed.

Lemma reads_fields e pretty indent : plain_entry e ->
  reads Between (json_fields e pretty indent)
    ([Punct 44] ++ field "name" (value (name e)) ++ [Punct 44] ++ field "manufacturer" (value (manufact e)) ++ [Punct 44] ++
     field "product" (value (product e)) ++ [Punct 44] ++ field "serial" (value (serial e))) Between.
Proof.
  intros (_ & Hn & Hm & Hp & Hs). unfold json_fields.
  rewrite (app_assoc [Punct 44] (field "name" _)). eapply reads_app; [by apply (reads_field "name")|].
  rewrite (app_assoc [Punct 44] (field "manufacturer" _)). eapply reads_app; [by apply (reads_field "manufacturer")|].
  rewrite (app_assoc [Punct 44] (field "product" _)). eapply reads_app; [by apply (reads_field "product")|].
  by apply (reads_field "serial").
Qed.

(** The fields behind the number of the device. *)
Lemma reads_rest n e pretty indent l : plain_entry e -> reads Between l [Punct 125] Between ->
  reads (InNum n) (json_fields e pretty indent ++ l)
    (Num n :: [Punct 44] ++ field "name" (value (name e)) ++ [Punct 44] ++ field "manufacturer" (value (manufact e)) ++ [Punct 44] ++
     field "product" (value (product e)) ++ [Punct 44] ++ field "serial" (value (serial e)) ++ [Punct 125]) Between.
Proof.
  intros He Hl. pose proof (reads_app _ _ _ _ _ _ _ (reads_fields e pretty indent He) Hl) as H. rewrite <- !app_assoc in H.
  unfold json_fields, json_field in *. change (bytes ",") with [44] in *. cbn [app] in *. by apply reads_after_num.
Qed.

Lemma reads_entry first pretty e : plain_entry e ->
  reads Between (json_cb first pretty e) ((if first then [] else [Punct 44]) ++ entry_tokens e) Between.
Proof.
  intros He. pose proof He as (Hi & _). unfold json_cb. eapply reads_app; [by destruct first|]. unfold entry_tokens.
  change (field "index" (Num (index e))) with ([Str (bytes "index"); Punct 58] ++ [Num (index e)]). rewrite <- (app_assoc [Str _; _]). destruct pretty.
  - rewrite (app_assoc [10]). eapply reads_app; [done|]. unfold json_index. rewrite <- !app_assoc. cbn [app].
    change (10 :: spaces 6 ++ ?l) with ((10 :: spaces 6) ++ l).
    match goal with |- reads _ ((10 :: spaces 6) ++ 34 :: bytes "index" ++ 34 :: bytes ": " ++ ?l) _ _ =>
      replace ((10 :: spaces 6) ++ 34 :: bytes "index" ++ 34 :: bytes ": " ++ l)
        with (((10 :: spaces 6) ++ 34 :: bytes "index" ++ 34 :: bytes ": ") ++ l) by (by rewrite <- !app_assoc; cbn [app]) end.
    change (Str (bytes "index") :: Punct 58 :: ?l) with ([Str (bytes "index"); Punct 58] ++ l). eapply reads_app; [done|].
    match goal with |- reads _ _ ?ts _ => change ts with ([] ++ ts) end. eapply reads_app; [by apply reads_decimal|].
    by apply reads_rest.
  - eapply reads_app; [done|].
    match goal with |- reads _ ([34] ++ bytes "index" ++ [34] ++ bytes ":" ++ ?l) _ _ =>
      replace ([34] ++ bytes "index" ++ [34] ++ bytes ":" ++ l) with (([34] ++ bytes "index" ++ [34] ++ bytes ":") ++ l) by (by rewrite <- !app_assoc) end.
    eapply reads_app; [by apply reads_label; auto|].
    match goal with |- reads _ _ ?ts _ => change ts with ([] ++ ts) end. eapply reads_app; [by apply reads_decimal|]. by apply reads_rest.
Qed.

Lemma entries_tokens_cons e l : entries_tokens (e :: l) = entry_tokens e ++ match l with [] => [] | _ => [Punct 44] ++ entries_tokens l end.
Proof. destruct l; [by rewrite app_nil_r|done]. Qed.
Lemma reads_loop pretty l : Forall plain_entry l -> forall first,
  reads Between (json_loop first pretty l) (match l with [] => [] | _ => (if first then [] else [Punct 44]) ++ entries_tokens l end) Between.
Proof.
  induction 1 as [|e l He _ IH]; intros first; [done|]. cbn [json_loop]. rewrite entries_tokens_cons, app_assoc.
  eapply reads_app; [by apply reads_entry|]. specialize (IH false). by destruct l.
Qed.

(** The JSON output, pretty or not, is one text: read as JSON it has exactly the tokens of
    an object with the list of the devices, each with its number and its four strings or null,
    in order - as long as no string of a device holds a quote, a backslash or a control
    character, which the tool does not escape. *)
Theorem list_json_tokens pretty devices :
  Forall plain_entry devices -> lex (main true pretty devices) = Some (json_tokens devices).
Proof.
  intros Hd. assert (H : reads Between (main true pretty devices) (json_tokens devices) Between); [|unfold lex; by rewrite H].
  unfold main, json_tokens. assert (Ht : (match devices with [] => [] | _ => entries_tokens devices end) = entries_tokens devices) by (by destruct devices).
  eapply reads_app; [by destruct pretty|]. apply (reads_app _ _ _ Between); [|by destruct pretty]. rewrite <- Ht. apply (reads_loop pretty devices Hd true).
Qed.

Definition demo_entry : entry := mk_entry 12 (Some (bytes "Generic RTL2832U")) (Some (bytes "Realtek")) None (Some (bytes "00000001")).
Lemma list_json_tokens_witness :
  lex (main true true [demo_entry; demo_entry]) = Some (json_tokens [demo_entry; demo_entry]) /\
  lex (main true false [demo_entry]) = Some (json_tokens [demo_entry]).
Proof.
  assert (plain_entry demo_entry) by (split; [done|]; split_and!; try apply is_plain_spec; done).
  split; apply list_json_tokens; by repeat constructor.
Defined.

(** A serial number with a quote makes output that is not JSON. *)
Lemma quote_not_escaped (l := [mk_entry 0 None None None (Some [49; 34; 50])]) : lex (main true false l) <> Some (json_tokens l).
Proof. by vm_compute. Qed.

End RtlListProps.
