(* ===== verification/Programs.v ===== *)
(** * The programs around the library ([src/src/rtl_sdr.c], [src/src/rtl_test.c],
    [src/src/rtl_biast.c], [src/src/rtl_adsb.c], [src/src/rtl_fm.c], [src/src/rtl_stream.c])

    [Module Life]: what a program holds and the actions that take and release it.  One module per
    program: its options, what it sets on the device as calls of the library, and [main] from the
    options on as its exit status and its actions; every call that can fail has its answer in an
    environment.  [Module AdsbThreads]: the callback and the decoder of rtl_adsb with the condition
    variable of [Handover]; [Module StreamMain]: the options of rtl_stream and its list of devices.
    What holds of them is in [ProgramsProps]. *)

From Stdlib Require Import String Ascii.
From stdpp Require Import relations.
From S2P Require Import Prelude Float I2c Usb UsbRegs TunerR82xx TunerFc TunerE4k TunerFc2580 Librtlsdr LibrtlsdrOpen LibrtlsdrProps RtlEeprom Convenience Getopt Options Handover RtlAdsb RtlTools RtlList RtlStream.

Module Life.

(** [A_use]: settings, resets and readings; [A_exit]: the process ends and the system takes
    everything back; [A_thread], [A_join]: a thread that uses the device. *)
Inductive act :=
  | A_malloc | A_free | A_open | A_close | A_fopen | A_fclose | A_use | A_thread | A_join | A_exit.
Record held := mk_held { h_dev : bool; h_buf : bool; h_file : bool; h_thread : bool }.
Definition nothing : held := mk_held false false false false.

Definition perform (a : act) (h : held) : option held :=
  let '(mk_held dev buf file thread) := h in
  match a with
  | A_malloc => if buf then None else Some (mk_held dev true file thread)
  | A_free => if buf && negb thread then Some (mk_held dev false file thread) else None
  | A_open => if dev then None else Some (mk_held true buf file thread)
  | A_close => if dev && negb thread then Some (mk_held false buf file thread) else None
  | A_fopen => if file then None else Some (mk_held dev buf true thread)
  | A_fclose => if file && negb thread then Some (mk_held dev buf false thread) else None
  | A_use => if dev then Some h else None
  | A_thread => if dev && negb thread then Some (mk_held dev buf file true) else None
  | A_join => if thread then Some (mk_held dev buf file false) else None
  | A_exit => Some nothing
  end.
Abbreviation performs := (perform_all perform).

(** [r >= 0 ? r : -r]. *)
Definition status (r : Z) : Z := if 0 <=? r then r else s32 (- r).

(** The answers most programs need: the device index of [-d] or of the search for 0,
    [rtlsdr_open], whether the file is the standard output, [fopen], and [r] behind the
    stream. *)
Record env := mk_env { e_dev : Z; e_open : Z; e_stdout : bool; e_fopen : bool; e_r : Z }.
Definition open_file (e : env) : list act := if e_stdout e then [] else [A_fopen].
Definition close_file (e : env) : list act := if e_stdout e then [] else [A_fclose].
End Life.

Module RtlSdrMain.
Import Getopt Options Life.

Definition optstring : list Z := Eeprom.str "d:f:g:s:b:n:p:SD".
Record options := mk_options {
  dev_index : Z; dev_given : bool; frequency : Z; gain : Z; samp_rate : Z; ppm_error : Z;
  out_block_size : Z; bytes_to_read : Z; sync_mode : bool; direct_sampling : bool;
}.
Definition options_init : options := mk_options 0 false 100000000 0 2048000 0 262144 0 false false.

Section Options.
Context (atof : list Z -> flt) (search : list Z -> Z).
Definition sdr_case (opt : Z) (a : option (list Z)) (o : options) : option options :=
  let arg := default [] a in
  let '(mk_options d dg f g s p b n sy ds) := o in
  if is_opt "d" opt then Some (mk_options (search arg) true f g s p b n sy ds)
  else if is_opt "f" opt then v ← atofs_u32 atof arg; Some (mk_options d dg v g s p b n sy ds)
  else if is_opt "g" opt then Some (mk_options d dg f (tenths atof arg) s p b n sy ds)
  else if is_opt "s" opt then v ← atofs_u32 atof arg; Some (mk_options d dg f g v p b n sy ds)
  else if is_opt "p" opt then Some (mk_options d dg f g s (Eeprom.atoi arg) b n sy ds)
  else if is_opt "b" opt then Some (mk_options d dg f g s p (atof_u32 atof arg) n sy ds)
  else if is_opt "n" opt then Some (mk_options d dg f g s p b (u32 (atof_u32 atof arg * 2)) sy ds)
  else if is_opt "S" opt then Some (mk_options d dg f g s p b n true ds)
  else if is_opt "D" opt then Some (mk_options d dg f g s p b n sy true)
  else None.
End Options.

(** [main] behind the options; [no_file]: no argument is left for the file name. *)
Definition main (no_file : bool) (e : env) : Z * list act :=
  if no_file then (1, [A_exit])
  else if e_dev e <? 0 then (1, [A_malloc; A_exit])
  else if e_open e <? 0 then (1, [A_malloc; A_exit])
  else if negb (e_stdout e) && negb (e_fopen e) then (status (e_open e), [A_malloc; A_open; A_use])
  else (status (e_r e), [A_malloc; A_open; A_use] ++ open_file e ++ [A_use; A_use] ++ close_file e ++ [A_close; A_free]).
End RtlSdrMain.

Module RtlTestMain.
Import Getopt Options Life.

Inductive test_mode := NO_BENCHMARK | TUNER_BENCHMARK | PPM_BENCHMARK.
#[global] Instance test_mode_eq_dec : EqDecision test_mode.
Proof. solve_decision. Defined.

Definition optstring : list Z := Eeprom.str "d:s:b:tp::Sh".
Record options := mk_options {
  dev_index : Z; dev_given : bool; samp_rate : Z; out_block_size : Z; mode : test_mode; ppm_duration : Z; sync_mode : bool;
}.
Definition options_init : options := mk_options 0 false 2048000 262144 NO_BENCHMARK 10 false.

Section Options.
Context (atof : list Z -> flt) (search : list Z -> Z).
Definition test_case (opt : Z) (a : option (list Z)) (o : options) : option options :=
  let arg := default [] a in
  let '(mk_options d dg s b m p sy) := o in
  if is_opt "d" opt then Some (mk_options (search arg) true s b m p sy)
  else if is_opt "s" opt then Some (mk_options d dg (atof_u32 atof arg) b m p sy)
  else if is_opt "b" opt then Some (mk_options d dg s (atof_u32 atof arg) m p sy)
  else if is_opt "t" opt then Some (mk_options d dg s b TUNER_BENCHMARK p sy)
  else if is_opt "p" opt then
    Some (mk_options d dg s b PPM_BENCHMARK (match a with Some x => u32 (Eeprom.atoi x) | None => p end) sy)
  else if is_opt "S" opt then Some (mk_options d dg s b m p true)
  else None.
End Options.

Section Device.
Context {U : Type} `{Libusb U}.
Import Usb Librtlsdr Convenience.
(** What is set before the stream is read. *)
Definition settings (o : options) : st (rtlsdr_dev U) unit :=
  _ ← verbose_set_sample_rate (samp_rate o);
  if bool_decide (mode o = TUNER_BENCHMARK) then mret tt
  else
    _ ← rtlsdr_set_testmode true;
    _ ← verbose_reset_buffer;
    mret tt.
End Device.

(** The loop of the synchronous mode over what [rtlsdr_read_sync] answers: the counters, and [r]
    behind it; behind the end of the answers a signal has arrived. *)
Fixpoint sync_loop (size : Z) (reads : list (Z * list Z)) (r : Z) (s : RtlTest.counter) : Z * RtlTest.counter :=
  match reads with
  | [] => (r, s)
  | (r, buf) :: reads =>
      if r <? 0 then (r, s)
      else if zlen buf <? size then (r, s)
      else sync_loop size reads r (RtlTest.underrun_test buf s).1
  end.

(** [rtlsdr_callback]: the counters and the measurement; [now] is what the clock answers. *)
Definition rtlsdr_callback (o : options) (now : Z * Z) (buf : list Z) (s : RtlTest.counter) (p : RtlTest.ppm_state) :
  RtlTest.counter * RtlTest.ppm_state :=
  ((RtlTest.underrun_test buf s).1,
   if bool_decide (mode o = PPM_BENCHMARK) then (RtlTest.ppm_test (ppm_duration o) (zlen buf) now p).1 else p).

(** [main] behind the options; [benchmark]: that of the tuner was asked for, and whether the tuner
    is an E4000. *)
Definition main (benchmark : option bool) (e : env) : Z * list act :=
  if e_dev e <? 0 then (1, [A_malloc; A_exit])
  else if e_open e <? 0 then (1, [A_malloc; A_exit])
  else
    match benchmark with
    | Some e4000 => (status (e_open e), [A_malloc; A_open; A_use] ++ (if e4000 : bool then [A_use] else []) ++ [A_close; A_free])
    | None => (status (e_r e), [A_malloc; A_open; A_use; A_use; A_use; A_close; A_free])
    end.
End RtlTestMain.

Module RtlBiast.
Import Getopt Options Life.

Definition optstring : list Z := Eeprom.str "d:b:g:h?".
Record options := mk_options { dev_index : Z; dev_given : bool; bias_on : Z; gpio_pin : Z }.
Definition options_init : options := mk_options 0 false 0 0.
Definition biast_case (search : list Z -> Z) (opt : Z) (a : option (list Z)) (o : options) : option options :=
  let arg := default [] a in
  let '(mk_options d dg b g) := o in
  if is_opt "d" opt then Some (mk_options (search arg) true b g)
  else if is_opt "b" opt then Some (mk_options d dg (u32 (Eeprom.atoi arg)) g)
  else if is_opt "g" opt then Some (mk_options d dg b (u32 (Eeprom.atoi arg)))
  else None.

Section Device.
Context {U : Type} `{Libusb U}.
Import Usb Librtlsdr.
Definition settings (o : options) : st (rtlsdr_dev U) unit :=
  _ ← on_core (set_bias_tee_gpio (s32 (gpio_pin o)) (s32 (bias_on o)));
  mret tt.
End Device.

(** Behind a failed [rtlsdr_open] there is no device, and the two calls that follow return. *)
Definition main (e : env) : Z * list act :=
  if e_dev e <? 0 then (1, [A_exit])
  else (status (e_open e), if e_open e <? 0 then [] else [A_open; A_use; A_close]).
End RtlBiast.

Module AdsbMain.
Import Getopt Options Life Adsb.

Abbreviation AUTO_GAIN := (-100)%Z (only parsing).
Abbreviation ADSB_FREQ := (1090000000)%Z (only parsing).
Abbreviation ADSB_RATE := (2000000)%Z (only parsing).
Definition optstring : list Z := Eeprom.str "d:g:p:e:Q:VST".
Record options := mk_options {
  dev_index : Z; dev_given : bool; a_gain : Z; a_ppm : Z; a_biastee : bool; decoder : Adsb.settings;
}.
Definition options_init : options := mk_options 0 false AUTO_GAIN 0 false (mk_settings 10 5 false false).

Section Options.
Context (atof : list Z -> flt) (search : list Z -> Z).
Definition adsb_case (opt : Z) (a : option (list Z)) (o : options) : option options :=
  let arg := default [] a in
  let '(mk_options d dg g p b (mk_settings q e sh v)) := o in
  if is_opt "d" opt then Some (mk_options (search arg) true g p b (mk_settings q e sh v))
  else if is_opt "g" opt then Some (mk_options d dg (tenths atof arg) p b (mk_settings q e sh v))
  else if is_opt "p" opt then Some (mk_options d dg g (Eeprom.atoi arg) b (mk_settings q e sh v))
  else if is_opt "V" opt then Some (mk_options d dg g p b (mk_settings q e sh true))
  else if is_opt "S" opt then Some (mk_options d dg g p b (mk_settings q e true v))
  else if is_opt "e" opt then Some (mk_options d dg g p b (mk_settings q (Eeprom.atoi arg) sh v))
  else if is_opt "Q" opt then Some (mk_options d dg g p b (mk_settings (tenths atof arg) e sh v))
  else if is_opt "T" opt then Some (mk_options d dg g p true (mk_settings q e sh v))
  else None.
End Options.

Section Device.
Context {U : Type} `{Libusb U}.
Import Usb Librtlsdr Convenience.
(** The settings; the result is that of [rtlsdr_set_agc_mode]. *)
Definition settings (o : options) : st (rtlsdr_dev U) Z :=
  _ ← (if a_gain o =? AUTO_GAIN then verbose_auto_gain else g ← nearest_gain (a_gain o); verbose_gain_set g);
  _ ← verbose_ppm_set (a_ppm o);
  r ← rtlsdr_set_agc_mode true;
  _ ← verbose_set_frequency ADSB_FREQ;
  _ ← verbose_set_sample_rate ADSB_RATE;
  _ ← on_core (rtlsdr_set_bias_tee (b2z (a_biastee o)));
  _ ← verbose_reset_buffer;
  mret r.
End Device.

(** [main] behind the options: [e_r] is the result of [rtlsdr_set_agc_mode], that of the stream is
    not looked at. *)
Definition main (e : env) : Z * list act :=
  if e_dev e <? 0 then (1, [A_malloc; A_exit])
  else if e_open e <? 0 then (1, [A_malloc; A_exit])
  else if negb (e_stdout e) && negb (e_fopen e) then (1, [A_malloc; A_open; A_exit])
  else (status (e_r e), [A_malloc; A_open] ++ open_file e ++ [A_use; A_thread; A_use; A_join] ++ close_file e ++ [A_close; A_free]).

(** ** What [display] prints *)

Definition hex_digit (n : Z) : Z := if n <? 10 then 48 + n else 87 + n.
(** [%0<w>x] of a value below [16 ^ w]. *)
Fixpoint hex (w : nat) (v : Z) : list Z :=
  match w with O => [] | S w => hex w (v / 16) ++ [hex_digit (v mod 16)] end.
Definition crlf : list Z := [13; 10].
Definition lf : list Z := [10].
(** All that is printed of a frame. *)
Definition text (s : Adsb.settings) (frame : list Z) (len : Z) : list Z :=
  match display s frame len with
  | None => []
  | Some m =>
      let b := rd frame in
      Eeprom.str "*" ++ flat_map (hex 2) m ++ Eeprom.str ";" ++ crlf ++
      (if negb (verbose_output s) then []
       else
         Eeprom.str "DF=" ++ RtlList.decimal ((b 0 >>' 3) &' 0x1f) ++ Eeprom.str " CA=" ++ RtlList.decimal (b 0 &' 7) ++ lf ++
         Eeprom.str "ICAO Address=" ++ hex 6 ((b 1 <<' 16) |' (b 2 <<' 8) |' b 3) ++ lf ++
         (if len <=? short_frame then []
          else
            Eeprom.str "PI=0x" ++ hex 6 ((b 11 <<' 16) |' (b 12 <<' 8) |' b 13) ++ lf ++
            Eeprom.str "Type Code=" ++ RtlList.decimal ((b 4 >>' 3) &' 0x1f) ++ Eeprom.str " S.Type/Ant.=" ++ hex 1 (b 4 &' 7) ++ lf ++
            Eeprom.str "--------------" ++ lf))
  end.
End AdsbMain.

Module AdsbThreads.
Import Adsb Handover.

Abbreviation DEFAULT_BUF_LENGTH := (262144)%Z (only parsing).

(** The condition variable with the decoder, [do_exit], the buffer, whether it was written in the
    current round of the decoder, the frames shown, the buffers received. *)
Record adsb := mk_adsb { hd : hand; do_exit : bool; buffer : list Z; torn : bool; shown : list (list Z); got : list (list Z) }.

Section Threads.
Context (st : settings).

(** [rtlsdr_callback]: [memcpy], without a lock; its signal follows.  The step is its end. *)
Definition callback (buf : list Z) (s : adsb) : adsb :=
  if do_exit s then s
  else mk_adsb (store (hd s)) (do_exit s) (buf ++ drop (length buf) (buffer s))
         (torn s || bool_decide (at_ (hd s) = C_busy)) (shown s) (got s ++ [buf]).

(** The bytes of an array of [uint16_t] on a little endian machine. *)
Definition le16 (l : list Z) : list Z := flat_map (fun x => [u8 x; u8 (x >>' 8)]) l.
(** A round of [demod_thread_fn] begins; it ends: the three passes work in place, so that the
    buffer holds the marks behind it.  [None] is a search that does not end. *)
Definition begin_round (s : adsb) : adsb := mk_adsb (use (hd s)) (do_exit s) (buffer s) false (shown s) (got s).
Definition decode (s : adsb) : option adsb :=
  let mags := magnitute (buffer s) in
  bits ← manchester st (3 * length mags) mags;
  Some (mk_adsb (back (hd s)) (do_exit s) (le16 bits) false (shown s ++ messages st bits) (got s)).
Definition set_hand (h : hand) (s : adsb) : adsb := mk_adsb h (do_exit s) (buffer s) (torn s) (shown s) (got s).

(** The interleavings for buffers with [ok].  A copy may end at any time, also in a round of the
    decoder, which it may also overlap from before: the passes then read and write the bytes
    while they change, and the round leaves whatever bytes and shows whatever frames, if it
    ends. *)
Inductive astep (ok : list Z -> Prop) : adsb -> adsb -> Prop :=
  | T_callback s buf : ok buf -> due (hd s) = false -> astep ok s (callback buf s)
  | T_signal s : due (hd s) = true -> astep ok s (set_hand (safe_cond_signal (hd s)) s)
  | T_test s : at_ (hd s) = C_test -> astep ok s (set_hand (test (do_exit s) (hd s)) s)
  | T_wait s : at_ (hd s) = C_lock -> astep ok s (set_hand (safe_cond_wait (hd s)) s)
  | T_wake s : at_ (hd s) = C_wait -> astep ok s (set_hand (wake (hd s)) s)
  | T_begin s : at_ (hd s) = C_woken -> astep ok s (begin_round s)
  | T_decode s s' : at_ (hd s) = C_busy -> torn s = false -> decode s = Some s' -> astep ok s s'
  | T_torn s buf l : at_ (hd s) = C_busy -> torn s = true -> ok buf ->
      astep ok s (mk_adsb (back (hd s)) (do_exit s) buf false (shown s ++ l) (got s))
  | T_exit s : astep ok s (mk_adsb (hd s) true (buffer s) (torn s) (shown s) (got s)).
Definition adsb_start (buf : list Z) : adsb := mk_adsb start false buf false [] [].
End Threads.
End AdsbThreads.

Module FmProgram.
Import Life.
(** [main] of rtl_fm behind its options: the device, the file, the threads of [FmThreads] with
    their end, and what is given back; the status is that of [rtlsdr_open]. *)
Definition main (e : env) : Z * list act :=
  if e_dev e <? 0 then (1, [A_exit])
  else if e_open e <? 0 then (1, [A_exit])
  else if negb (e_stdout e) && negb (e_fopen e) then (1, [A_open; A_use; A_exit])
  else (status (e_open e), [A_open; A_use] ++ open_file e ++ [A_use; A_thread; A_join] ++ close_file e ++ [A_close]).
End FmProgram.

Module StreamMain.
Import Options RtlStream.

(** The options of rtl_stream; [getopt_long] is that of the C library, so that its results are
    what [cases] runs over. *)
Record options := mk_options { s_freq : flt; s_rate : flt; iq_port : Z; fft_port : Z; dev_index : Z; list_only : bool }.
Definition options_init : options := mk_options f_zero (f64_of_Z 2400000) 1234 0 0 false.
Definition stream_case (strtod : list Z -> option (flt * list Z)) (opt : Z) (a : option (list Z)) (o : options) : option options :=
  let arg := default [] a in
  let '(mk_options f s p q i l) := o in
  if is_opt "f" opt then Some (mk_options (parse_freq strtod arg) s p q i l)
  else if is_opt "s" opt then Some (mk_options f (parse_freq strtod arg) p q i l)
  else if is_opt "p" opt then Some (mk_options f s (Eeprom.atoi arg) q i l)
  else if is_opt "P" opt then Some (mk_options f s p (Eeprom.atoi arg) i l)
  else if is_opt "i" opt then Some (mk_options f s p q (Eeprom.atoi arg) l)
  else if is_opt "l" opt then Some (mk_options f s p q i true)
  else None.

(** [%d], and the end of a line. *)
Definition signed (n : Z) : list Z := if n <? 0 then Eeprom.str "-" ++ RtlList.decimal (- n) else RtlList.decimal n.
Definition lf : list Z := [10].
Definition labelled (label : string) (v : list Z) : list Z :=
  match v with [] => [] | _ => Eeprom.str label ++ v ++ lf end.

(** What [--list] prints of a device: its name and the three strings, which stay empty when they
    cannot be read. *)
Definition device_text (dev_index i : Z) (x : list Z * (list Z * list Z * list Z)) : list Z :=
  let '(name, (vendor, product, serial)) := x in
  Eeprom.str "  " ++ RtlList.decimal i ++ Eeprom.str ":  " ++ name ++ (if s32 i =? dev_index then Eeprom.str " (default)" else []) ++ lf ++
  labelled "       Manufacturer: " vendor ++ labelled "       Product: " product ++ labelled "       Serial: " serial ++ lf.
Definition listing (o : options) (devices : list (list Z * (list Z * list Z * list Z))) : list Z :=
  (match devices with
   | [] => Eeprom.str "No supported devices found." ++ lf
   | _ => Eeprom.str "Found " ++ RtlList.decimal (zlen devices) ++ Eeprom.str " device(s):" ++ lf ++ lf ++
          concat (imap (fun i => device_text (dev_index o) (Z.of_nat i)) devices)
   end) ++
  Eeprom.str "Configuration:" ++ lf ++ Eeprom.str "  I/Q port:  " ++ signed (iq_port o) ++ lf ++
  Eeprom.str "  FFT port:  " ++ signed (fft_port o) ++ (if fft_port o =? 0 then Eeprom.str " (disabled)" else []) ++ lf ++
  Eeprom.str "  Device:    " ++ signed (dev_index o) ++ lf.

(** How the program goes on behind its options: what it prints and ends with, or the settings it
    runs with. *)
Inductive going := G_list (text : list Z) | G_usage | G_run (freq sample_rate : flt) (iq_port fft_port dev_index : Z).
Definition behind_options (o : options) (devices : list (list Z * (list Z * list Z * list Z))) : going :=
  if list_only o then G_list (listing o devices)
  else if refused (s_freq o) (s_rate o) (iq_port o) (fft_port o) (dev_index o) then G_usage
  else G_run (s_freq o) (s_rate o) (iq_port o) (fft_port o) (dev_index o).
End StreamMain.
