(* ===== verification/Radix2.v ===== *)
(** * Transforms by halving

    The reference the two transforms of the repository ([rtl_power.c] in fixed point,
    [fft/fft_cpu.c] in floats) are compared with: [dit] computes a transform from those of the
    even and of the odd samples.  The programs work in place, over an array in bit-reversed
    order, stage by stage; here an array is the function from places to samples, and the lemmas
    say when a swap ([reorder_step]) or a butterfly ([partial_step]) brings it one step further,
    and that all stages together are [dit] ([stage_dit]). *)

From S2P Require Import Prelude.

Module Radix2.

(** ** Bit reversal *)

(** The [k] low bits of [x] in the opposite order. *)
Fixpoint bitrev (k : nat) (x : Z) : Z :=
  match k with O => 0 | S k => 2 ^ Z.of_nat k * (x mod 2) + bitrev k (x / 2) end.

Lemma pow2_S k : 2 ^ Z.of_nat (S k) = 2 * 2 ^ Z.of_nat k.
Proof. rewrite Nat2Z.inj_succ, Z.pow_succ_r by lia. done. Qed.
Lemma pow2_pos (k : nat) : 0 < 2 ^ Z.of_nat k.
Proof. apply Z.pow_pos_nonneg; lia. Qed.

Lemma bitrev_range k : forall x, 0 <= bitrev k x < 2 ^ Z.of_nat k.
Proof.
  induction k as [|k IH]; intros x; cbn [bitrev]; [done|]. specialize (IH (x / 2)). rewrite pow2_S.
  pose proof (Z.mod_pos_bound x 2). pose proof (pow2_pos k). nia.
Qed.

Lemma bitrev_even k x : bitrev (S k) (2 * x) = bitrev k x.
Proof. cbn [bitrev]. rewrite (Z.mul_comm 2 x), Z.mod_mul, Z.div_mul by lia. lia. Qed.
Lemma bitrev_odd k x : bitrev (S k) (2 * x + 1) = 2 ^ Z.of_nat k + bitrev k x.
Proof.
  cbn [bitrev]. replace ((2 * x + 1) mod 2) with 1 by (Z.div_mod_to_equations; lia).
  replace ((2 * x + 1) / 2) with x by (Z.div_mod_to_equations; lia). lia.
Qed.

Lemma bitrev_0 k : bitrev k 0 = 0.
Proof. induction k as [|k IH]; cbn [bitrev]; [done|]. rewrite Zmod_0_l, Zdiv_0_l, IH. lia. Qed.

Lemma bitrev_testbit k : forall x i, 0 <= i < Z.of_nat k -> Z.testbit (bitrev k x) i = Z.testbit x (Z.of_nat k - 1 - i).
Proof.
  induction k as [|k IH]; intros x i Hi; [lia|]. cbn [bitrev]. pose proof (bitrev_range k (x / 2)) as Hr.
  pose proof (pow2_pos k) as Hp. set (r := bitrev k (x / 2)) in *. set (v := 2 ^ Z.of_nat k * (x mod 2) + r).
  destruct (decide (i < Z.of_nat k)).
  - rewrite <- (Z.mod_pow2_bits_low v (Z.of_nat k) i) by lia.
    replace (v mod 2 ^ Z.of_nat k) with r by (apply Z.mod_unique with (x mod 2); unfold v; lia).
    unfold r. rewrite IH by lia. rewrite Z.div2_bits by lia. f_equal. lia.
  - replace i with (0 + Z.of_nat k) by lia. rewrite <- Z.div_pow2_bits by lia.
    replace (v / 2 ^ Z.of_nat k) with (x mod 2) by (apply Z.div_unique with r; unfold v; lia).
    replace (Z.of_nat (S k) - 1 - (0 + Z.of_nat k)) with 0 by lia. rewrite !Z.bit0_odd, !Zmod_odd. by destruct (Z.odd x).
Qed.

Lemma bitrev_invol k x : 0 <= x < 2 ^ Z.of_nat k -> bitrev k (bitrev k x) = x.
Proof.
  intros Hx. pose proof (bitrev_range k (bitrev k x)) as Hr. apply Z.bits_inj'. intros i Hi.
  destruct (decide (i < Z.of_nat k)).
  - rewrite !bitrev_testbit by lia. f_equal. lia.
  - assert (Hh : forall y, 0 <= y < 2 ^ Z.of_nat k -> Z.testbit y i = false).
    { intros y Hy. rewrite <- (Z.mod_small y (2 ^ Z.of_nat k)) by done. by rewrite Z.mod_pow2_bits_high by lia. }
    by rewrite !Hh by lia.
Qed.


(** ** Reordering *)

Section Reorder.
Context {A : Type} (k : nat).

(** After the rounds up to [m] the pairs that begin at most at [m] have changed places. *)
Definition reordered (m : Z) (orig v : Z -> A) : Prop :=
  forall i, 0 <= i < 2 ^ Z.of_nat k -> v i = if Z.min i (bitrev k i) <=? m then orig (bitrev k i) else orig i.

Lemma reordered_0 orig : reordered 0 orig orig.
Proof.
  intros i Hi. pose proof (bitrev_range k i). pose proof (bitrev_invol k i Hi).
  destruct (Z.leb_spec (Z.min i (bitrev k i)) 0); [|done].
  assert (i = 0 \/ bitrev k i = 0) as [->|E] by lia; [by rewrite bitrev_0|]. rewrite E in *. by rewrite <- H0, bitrev_0.
Qed.

Lemma reorder_step m orig v v' : 0 <= m -> m + 1 < 2 ^ Z.of_nat k -> reordered m orig v ->
  (forall i, 0 <= i < 2 ^ Z.of_nat k ->
     v' i = if bitrev k (m + 1) <=? m + 1 then v i
            else if i =? m + 1 then v (bitrev k (m + 1)) else if i =? bitrev k (m + 1) then v (m + 1) else v i) ->
  reordered (m + 1) orig v'.
Proof.
  intros H0 Hm Hv Hv' i Hin. rewrite Hv' by done. clear Hv'.
  pose proof (bitrev_range k (m + 1)) as Hr. pose proof (bitrev_invol k (m + 1) ltac:(lia)) as Hi. pose proof (bitrev_invol k i Hin).
  destruct (Z.leb_spec (bitrev k (m + 1)) (m + 1)) as [Hle|Hlt].
  - rewrite Hv by done.
    destruct (Z.leb_spec (Z.min i (bitrev k i)) m), (Z.leb_spec (Z.min i (bitrev k i)) (m + 1)); try done; try lia.
    assert (i = m + 1 \/ bitrev k i = m + 1) as [->|E] by lia; [|rewrite E in *]; f_equal; lia.
  - destruct (Z.eqb_spec i (m + 1)) as [->|].
    + rewrite Hv by lia. rewrite Hi. ztests. done.
    + destruct (Z.eqb_spec i (bitrev k (m + 1))) as [->|].
      * rewrite Hv by lia. rewrite Hi. ztests. done.
      * rewrite Hv by done. assert (bitrev k i <> m + 1) by (intros E; rewrite E in *; lia).
        destruct (Z.leb_spec (Z.min i (bitrev k i)) m), (Z.leb_spec (Z.min i (bitrev k i)) (m + 1)); try done; lia.
Qed.

Lemma reordered_all orig v : reordered (2 ^ Z.of_nat k - 1) orig v ->
  forall i, 0 <= i < 2 ^ Z.of_nat k -> v i = orig (bitrev k i).
Proof. intros Hv i Hi. rewrite Hv by done. pose proof (bitrev_range k i). ztests. done. Qed.
End Reorder.

(** ** Stages *)

Section Stages.
Context {A T : Type} (butterfly : T -> A -> A -> A * A).

(** The first place of the pair [x] is in. *)
Definition base (l x : Z) : Z := if x mod (2 * l) <? l then x else x - l.

(** The values after a stage. *)
Definition stage (l : Z) (tw : Z -> T) (v : Z -> A) (x : Z) : A :=
  let p := base l x in
  let r := butterfly (tw (x mod l)) (v p) (v (p + l)) in
  if x =? p then r.1 else r.2.

(** ... and while only the pairs in [D] are done. *)
Definition partial (l : Z) (tw : Z -> T) (D : Z -> bool) (v : Z -> A) (x : Z) : A :=
  if D (base l x) then stage l tw v x else v x.

Lemma mod_shift L i l : 0 < L -> 0 <= i mod L -> i mod L + l < L -> 0 <= l -> (i + l) mod L = i mod L + l.
Proof.
  intros HL H0 H1 Hl. symmetry. apply Z.mod_unique with (i / L); [left; lia|]. pose proof (Z.div_mod i L ltac:(lia)). lia.
Qed.
Lemma mod_twice l x : 0 < l ->
  (x mod (2 * l) < l /\ x mod l = x mod (2 * l)) \/ (l <= x mod (2 * l) /\ x mod l = x mod (2 * l) - l).
Proof.
  intros Hl. pose proof (Z.div_mod x (2 * l) ltac:(lia)). pose proof (Z.mod_pos_bound x (2 * l) ltac:(lia)).
  destruct (Z.lt_ge_cases (x mod (2 * l)) l); [left|right]; (split; [done|]); symmetry.
  - apply Z.mod_unique with (2 * (x / (2 * l))); lia.
  - apply Z.mod_unique with (2 * (x / (2 * l)) + 1); lia.
Qed.

Lemma base_lo l p : p mod (2 * l) < l -> base l p = p.
Proof. intros. unfold base. destruct (Z.ltb_spec (p mod (2 * l)) l); lia. Qed.
Lemma base_hi l p : 0 < l -> p mod (2 * l) < l -> base l (p + l) = p.
Proof.
  intros Hl Hp. unfold base. rewrite mod_shift by (pose proof (Z.mod_pos_bound p (2 * l)); lia).
  pose proof (Z.mod_pos_bound p (2 * l)). destruct (Z.ltb_spec (p mod (2 * l) + l) l); lia.
Qed.
Lemma base_mod l x : 0 < l -> base l x mod (2 * l) < l.
Proof.
  intros Hl. unfold base. destruct (Z.ltb_spec (x mod (2 * l)) l); [done|].
  pose proof (Z.div_mod x (2 * l) ltac:(lia)). pose proof (Z.mod_pos_bound x (2 * l) ltac:(lia)).
  replace ((x - l) mod (2 * l)) with (x mod (2 * l) - l); [lia|]. apply Z.mod_unique with (x / (2 * l)); lia.
Qed.
Lemma base_cases l x : base l x = x \/ base l x = x - l.
Proof. unfold base. destruct (_ <? _); tauto. Qed.

(** The pair stays within a number of whole blocks. *)
Lemma base_inside l n x : 0 < l -> n mod (2 * l) = 0 -> 0 <= x < n -> 0 <= base l x /\ base l x + l < n.
Proof.
  intros Hl Hn Hx. pose proof (Z.div_mod x (2 * l) ltac:(lia)). pose proof (Z.mod_pos_bound x (2 * l) ltac:(lia)).
  pose proof (Z.div_mod n (2 * l) ltac:(lia)). assert (x / (2 * l) < n / (2 * l)) by nia.
  assert (0 <= x / (2 * l)) by (apply Z.div_pos; lia). unfold base. destruct (Z.ltb_spec (x mod (2 * l)) l); nia.
Qed.

Lemma partial_step l n tw D D' v v1 v2 p : 0 < l -> n mod (2 * l) = 0 -> 0 <= p -> p + l < n ->
  p mod (2 * l) < l -> D p = false -> (forall q, 0 <= q < n -> q mod (2 * l) < l -> D' q = D q || (q =? p)) ->
  (forall x, 0 <= x < n -> v1 x = partial l tw D v x) ->
  v2 p = (butterfly (tw (p mod l)) (v1 p) (v1 (p + l))).1 ->
  v2 (p + l) = (butterfly (tw (p mod l)) (v1 p) (v1 (p + l))).2 ->
  (forall y, 0 <= y < n -> y <> p -> y <> p + l -> v2 y = v1 y) ->
  forall x, 0 <= x < n -> v2 x = partial l tw D' v x.
Proof.
  intros Hl Hn H0 Hpn Hp HD HD' Hv1 Ha Hb Ho x Hx.
  assert (Epl : (p + l) mod l = p mod l) by (rewrite <- (Z.mul_1_l l) at 1; apply Z.mod_add; lia).
  assert (Dp : D' p = true) by (rewrite HD' by lia; by rewrite Z.eqb_refl, orb_true_r).
  rewrite !Hv1 in Ha, Hb by lia. unfold partial in Ha, Hb. rewrite base_lo, base_hi, HD in Ha, Hb by done.
  destruct (decide (x = p)) as [->|Hxp].
  { rewrite Ha. unfold partial, stage. rewrite base_lo, Dp by done. by rewrite Z.eqb_refl. }
  destruct (decide (x = p + l)) as [->|Hxl].
  { rewrite Hb. unfold partial, stage. rewrite base_hi, Dp, Epl by done. destruct (Z.eqb_spec (p + l) p); [lia|done]. }
  rewrite Ho, Hv1 by done. unfold partial. pose proof (base_inside l n x Hl Hn Hx).
  rewrite HD' by (try lia; by apply base_mod). destruct (base_cases l x) as [E|E];
    (destruct (Z.eqb_spec (base l x) p); [lia|]); by rewrite orb_false_r.
Qed.

Lemma partial_none l tw D v x : D (base l x) = false -> partial l tw D v x = v x.
Proof. intros H. unfold partial. by rewrite H. Qed.
Lemma partial_all l tw D v x : D (base l x) = true -> partial l tw D v x = stage l tw v x.
Proof. intros H. unfold partial. by rewrite H. Qed.

(** ** The recursive transform *)

(** Point [j] of the transform of [2 ^ s] samples: the transforms of the even and of the odd
    samples, and one butterfly. *)
Fixpoint dit (tw : nat -> Z -> T) (s : nat) (x : Z -> A) (j : Z) : A :=
  match s with
  | O => x 0
  | S s =>
      let l := 2 ^ Z.of_nat s in
      let '(lo, hi) := butterfly (tw s (j mod l)) (dit tw s (fun t => x (2 * t)) (j mod l)) (dit tw s (fun t => x (2 * t + 1)) (j mod l)) in
      if j <? l then lo else hi
  end.

Lemma dit_ext tw s : forall x y j, (forall t, x t = y t) -> dit tw s x j = dit tw s y j.
Proof.
  induction s as [|s IH]; intros x y j Hxy; cbn [dit]; [done|].
  rewrite (IH (fun t => x (2 * t)) (fun t => y (2 * t))), (IH (fun t => x (2 * t + 1)) (fun t => y (2 * t + 1))) by done. done.
Qed.

(** The samples that reach the block of [2 ^ s] points [x] is in. *)
Definition block_input (k s : nat) (orig : Z -> A) (x t : Z) : A :=
  orig (bitrev (k - s) (x / 2 ^ Z.of_nat s) + 2 ^ Z.of_nat (k - s) * t).

Lemma stage_dit tw k s orig v x : (s < k)%nat -> 0 <= x < 2 ^ Z.of_nat k ->
  (forall y, 0 <= y < 2 ^ Z.of_nat k -> v y = dit tw s (block_input k s orig y) (y mod 2 ^ Z.of_nat s)) ->
  stage (2 ^ Z.of_nat s) (tw s) v x = dit tw (S s) (block_input k (S s) orig x) (x mod 2 ^ Z.of_nat (S s)).
Proof.
  intros Hs Hx Hv. cbn [dit]. rewrite pow2_S. set (l := 2 ^ Z.of_nat s) in *. pose proof (pow2_pos s) as Hl. fold l in Hl.
  assert (Ek : (k - s = S (k - S s))%nat) by lia.
  assert (Hn : 2 ^ Z.of_nat k = 2 * l * 2 ^ Z.of_nat (k - S s)).
  { unfold l. rewrite <- pow2_S, <- Z.pow_add_r by lia. f_equal. lia. }
  pose proof (Z.mod_pos_bound x (2 * l) ltac:(lia)). pose proof (Z.div_mod x (2 * l) ltac:(lia)) as Hd.
  set (B := x / (2 * l)) in *. assert (HB : 0 <= B < 2 ^ Z.of_nat (k - S s)).
  { split; [apply Z.div_pos; lia|]. apply Z.div_lt_upper_bound; lia. }
  (* the two halves of the block *)
  assert (Ev : forall t, block_input k (S s) orig x (2 * t) = orig (bitrev (k - s) (2 * B) + 2 ^ Z.of_nat (k - s) * t)).
  { intros t. unfold block_input. rewrite pow2_S. fold l B. rewrite Ek, bitrev_even, pow2_S. f_equal. lia. }
  assert (Od : forall t, block_input k (S s) orig x (2 * t + 1) = orig (bitrev (k - s) (2 * B + 1) + 2 ^ Z.of_nat (k - s) * t)).
  { intros t. unfold block_input. rewrite pow2_S. fold l B. rewrite Ek, bitrev_odd, pow2_S. f_equal. lia. }
  assert (Hlo : forall j, 0 <= j < l -> v (2 * l * B + j) = dit tw s (fun t => block_input k (S s) orig x (2 * t)) j).
  { intros j Hj. rewrite Hv by nia. fold l. replace ((2 * l * B + j) mod l) with j by (apply Z.mod_unique with (2 * B); lia).
    apply dit_ext. intros t. rewrite Ev. unfold block_input. fold l.
    by replace ((2 * l * B + j) / l) with (2 * B) by (apply Z.div_unique with j; lia). }
  assert (Hhi : forall j, 0 <= j < l -> v (2 * l * B + l + j) = dit tw s (fun t => block_input k (S s) orig x (2 * t + 1)) j).
  { intros j Hj. rewrite Hv by nia. fold l. replace ((2 * l * B + l + j) mod l) with j by (apply Z.mod_unique with (2 * B + 1); lia).
    apply dit_ext. intros t. rewrite Od. unfold block_input. fold l.
    by replace ((2 * l * B + l + j) / l) with (2 * B + 1) by (apply Z.div_unique with j; lia). }
  unfold stage, base. destruct (mod_twice l x Hl) as [[Hh E]|[Hh E]].
  - rewrite (Z.mod_small (x mod (2 * l)) l) by lia. rewrite E. destruct (Z.ltb_spec (x mod (2 * l)) l); [|lia].
    rewrite <- Hlo, <- Hhi, Z.eqb_refl by lia. replace (2 * l * B + l + x mod (2 * l)) with (x + l) by lia. rewrite <- Hd.
    by destruct (butterfly _ (v x) (v (x + l))).
  - replace ((x mod (2 * l)) mod l) with (x mod (2 * l) - l) by (apply Z.mod_unique with 1; lia). rewrite E.
    destruct (Z.ltb_spec (x mod (2 * l)) l); [lia|]. destruct (Z.eqb_spec x (x - l)); [lia|].
    rewrite <- Hlo, <- Hhi by lia. replace (2 * l * B + l + (x mod (2 * l) - l)) with (x - l + l) by lia.
    replace (2 * l * B + (x mod (2 * l) - l)) with (x - l) by lia.
    by destruct (butterfly _ (v (x - l)) (v (x - l + l))).
Qed.

(** The input of the first stage is the reordered array, that of the only block left at the end
    the array before. *)
Lemma block_input_0 k orig x : block_input k 0 orig x 0 = orig (bitrev k x).
Proof. unfold block_input. by rewrite Nat.sub_0_r, Z.mul_0_r, Z.add_0_r, Z.div_1_r. Qed.
Lemma block_input_all k orig x t : block_input k k orig x t = orig t.
Proof. unfold block_input. rewrite Nat.sub_diag. cbn [bitrev]. f_equal. lia. Qed.
End Stages.

End Radix2.
