(* ===== verification/FftCpu.v ===== *)
(** * The CPU back end of the spectrum ([src/src/fft/fft_cpu.c], [fft_backend.h])

    [Module FftCpu]: plans and the transform of complex floats, in place over an array of
    [2 * nfft] values.  Every operation on floats rounds to single precision.

    [FftCpuProps]: plans exist for exactly the sizes of the header when there is memory, and
    executing one computes the recursive transform of [Radix2]. *)

From S2P Require Import Prelude Float Radix2.

Module FftCpu.

Abbreviation FFT_MAX_NFFT := (16384)%Z (only parsing).

Definition is_pow2 (n : Z) : bool := (0 <? n) && (n &' (n - 1) =? 0).
(** [fuel] bounds the number of halvings. *)
Fixpoint log2_loop (fuel : nat) (n l : Z) : Z :=
  match fuel with
  | O => l
  | S fuel => let n := n >>' 1 in if n =? 0 then l else log2_loop fuel n (l + 1)
  end.
Definition log2_int (n : Z) : Z := log2_loop (Z.to_nat n) n 0.

(** Samples of an array. *)
Definition fget (i : Z) (a : list flt) : flt * flt := (frd a (2 * i), frd a (2 * i + 1)).
Definition fput (i : Z) (x : flt * flt) (a : list flt) : list flt := fwr (fwr a (2 * i) x.1) (2 * i + 1) x.2.

Definition swap (i j : Z) (data : list flt) : list flt :=
  let tr := frd data (2 * i) in
  let ti := frd data (2 * i + 1) in
  let data := fwr data (2 * i) (frd data (2 * j)) in
  let data := fwr data (2 * i + 1) (frd data (2 * j + 1)) in
  fwr (fwr data (2 * j) tr) (2 * j + 1) ti.
(** The [while] loop over [m] and what follows it; [fuel] bounds the rounds. *)
Fixpoint carry (fuel : nat) (m j : Z) : Z :=
  match fuel with
  | O => j + m
  | S fuel => if (1 <=? m) && (m <=? j) then carry fuel (m >>' 1) (j - m) else j + m
  end.
(** [rounds] are left from [i] on. *)
Fixpoint bit_reverse_loop (rounds : nat) (i j n : Z) (data : list flt) : list flt :=
  match rounds with
  | O => data
  | S rounds =>
      let data := if i <? j then swap i j data else data in
      bit_reverse_loop rounds (i + 1) (carry (Z.to_nat n) (n >>' 1) j) n data
  end.
Definition bit_reverse (data : list flt) (n : Z) : list flt := bit_reverse_loop (Z.to_nat n) 0 0 n data.

Record fft_plan := mk_plan {
  nfft : Z;
  log2n : Z;
  window : list flt;
  twiddle_r : list flt;
  twiddle_i : list flt;
}.

(** Which allocations succeed: the plan, its two tables, its window. *)
Record allocs := mk_allocs { a_plan : bool; a_twiddle_r : bool; a_twiddle_i : bool; a_window : bool }.

Section Plan.
Context `{Libm}.

Definition bh_coeff (n N : Z) : flt :=
  let x := f64_div (f64_mul (f64_mul (f64_of_Z 2) M_PI) (f64_of_Z n)) (f64_of_Z (N - 1)) in
  f64_sub
    (f64_add
       (f64_sub (f64_lit 35875 100000) (f64_mul (f64_lit 48829 100000) (cos x)))
       (f64_mul (f64_lit 14128 100000) (cos (f64_mul (f64_of_Z 2) x))))
    (f64_mul (f64_lit 1168 100000) (cos (f64_mul (f64_of_Z 3) x))).

Definition angle (i n : Z) : flt := f64_div (f64_mul (f64_mul (f64_of_Z (-2)) M_PI) (f64_of_Z i)) (f64_of_Z n).
Definition fft_plan_create (mem : allocs) (n : Z) : option fft_plan :=
  if (n <? 2) || (FFT_MAX_NFFT <? n) || negb (is_pow2 n) then None
  else if negb (a_plan mem) then None
  else if negb (a_twiddle_r mem) || negb (a_twiddle_i mem) || negb (a_window mem) then None
  else
    let len := Z.quot n 2 in
    Some (mk_plan n (log2_int n)
            ((fun i => f32_of_f64 (bh_coeff i n)) <$> seqZ 0 n)
            ((fun i => f32_of_f64 (cos (angle i n))) <$> seqZ 0 len)
            ((fun i => f32_of_f64 (sin (angle i n))) <$> seqZ 0 len)).
End Plan.

(** The butterfly with the factor [w]. *)
Definition bfly (w x0 x1 : flt * flt) : (flt * flt) * (flt * flt) :=
  let tr := f32_sub (f32_mul w.1 x1.1) (f32_mul w.2 x1.2) in
  let ti := f32_add (f32_mul w.1 x1.2) (f32_mul w.2 x1.1) in
  ((f32_add x0.1 tr, f32_add x0.2 ti), (f32_sub x0.1 tr, f32_sub x0.2 ti)).

(** The loops over [j], [i] and [k]; [rounds] are left, or bound them. *)
Fixpoint fft_j (rounds : nat) (p : fft_plan) (i j half : Z) (out : list flt) : list flt :=
  match rounds with
  | O => out
  | S rounds =>
      let t_idx := Z.quot (j * nfft p) (half * 2) in
      let '(a, b) := bfly (frd (twiddle_r p) t_idx, frd (twiddle_i p) t_idx) (fget (i + j) out) (fget (i + j + half) out) in
      fft_j rounds p i (j + 1) half (fput (i + j) a (fput (i + j + half) b out))
  end.
Fixpoint fft_i (rounds : nat) (p : fft_plan) (i half : Z) (out : list flt) : list flt :=
  match rounds with
  | O => out
  | S rounds =>
      if negb (i <? nfft p) then out
      else fft_i rounds p (i + half * 2) half (fft_j (Z.to_nat half) p i 0 half out)
  end.
Fixpoint fft_k (rounds : nat) (p : fft_plan) (step : Z) (out : list flt) : list flt :=
  match rounds with
  | O => out
  | S rounds => fft_k rounds p (step <<' 1) (fft_i (Z.to_nat (nfft p)) p 0 step out)
  end.

(** [apart] is the distance of [in] and [out] in bytes, 0 when they are the same array; [None]
    is the result -1, where [out] is unchanged. *)
Definition fft_execute (p : fft_plan) (apart : Z) (inp : list flt) : option (list flt) :=
  if negb (apart =? 0) && (apart <? nfft p * 2 * 4) then None
  else Some (fft_k (Z.to_nat (log2n p)) p 1 (bit_reverse inp (nfft p))).

End FftCpu.

Module FftCpuProps.
Import FftCpu Radix2.

(** ** Samples *)

Lemma zlen_fwr l i x : zlen (fwr l i x) = zlen l.
Proof. unfold zlen. by rewrite length_fwr. Qed.
Lemma fget_fput_eq i x a : 0 <= i -> 2 * i + 1 < zlen a -> fget i (fput i x a) = x.
Proof. intros. unfold fget, fput. rewrite (frd_fwr_ne _ (2 * i + 1)), !frd_fwr_eq by (rewrite ?zlen_fwr; lia). by destruct x. Qed.
Lemma fget_fput_ne i j x a : 0 <= i -> 0 <= j -> i <> j -> fget j (fput i x a) = fget j a.
Proof. intros. unfold fget, fput. by rewrite !frd_fwr_ne by lia. Qed.
Lemma zlen_fput i x a : zlen (fput i x a) = zlen a.
Proof. unfold fput. by rewrite !zlen_fwr. Qed.

Lemma zlen_fswap i j a : zlen (swap i j a) = zlen a.
Proof. unfold swap. by rewrite !zlen_fwr. Qed.
Lemma fget_swap i j a x : 0 <= i -> 0 <= j -> 2 * i + 1 < zlen a -> 2 * j + 1 < zlen a -> i <> j -> 0 <= x ->
  fget x (swap i j a) = if x =? i then fget j a else if x =? j then fget i a else fget x a.
Proof.
  intros Hi Hj Hil Hjl Hne Hx. assert (E : swap i j a = fput j (fget i a) (fput i (fget j a) a)).
  { unfold swap, fput, fget. cbn [fst snd]. cbn zeta. by rewrite (frd_fwr_ne _ (2 * i) (2 * j + 1)) by lia. }
  rewrite E. destruct (Z.eqb_spec x i) as [->|].
  - by rewrite fget_fput_ne, fget_fput_eq by lia.
  - destruct (Z.eqb_spec x j) as [->|]; [|by rewrite !fget_fput_ne by lia]. apply fget_fput_eq; [done|]. by rewrite zlen_fput.
Qed.

(** ** Reordering *)

Lemma carry_rev k : forall fuel x, (k <= fuel)%nat -> 0 <= x -> x + 1 < 2 ^ Z.of_nat k ->
  carry fuel (2 ^ Z.of_nat k >>' 1) (bitrev k x) = bitrev k (x + 1).
Proof.
  induction k as [|k IH]; intros fuel x Hf H0 Hx; [cbn in Hx; lia|]. destruct fuel as [|fuel]; [lia|].
  cbn [carry]. rewrite pow2_S in *. pose proof (pow2_pos k) as Hp.
  replace ((2 * 2 ^ Z.of_nat k) >>' 1) with (2 ^ Z.of_nat k)
    by (rewrite Z.shiftr_div_pow2 by lia; change (2 ^ 1) with 2; Z.div_mod_to_equations; lia).
  destruct (Z.leb_spec 1 (2 ^ Z.of_nat k)); [|lia]. cbn [andb].
  destruct (Z.Even_or_Odd x) as [[y ->]|[y ->]]; pose proof (bitrev_range k y).
  - rewrite bitrev_even, bitrev_odd. destruct (Z.leb_spec (2 ^ Z.of_nat k) (bitrev k y)); lia.
  - rewrite bitrev_odd. replace (2 * y + 1 + 1) with (2 * (y + 1)) by lia. rewrite bitrev_even.
    destruct (Z.leb_spec (2 ^ Z.of_nat k) (2 ^ Z.of_nat k + bitrev k y)); [|lia].
    rewrite <- (IH fuel y) by lia. f_equal. lia.
Qed.

Lemma bit_reverse_loop_rev k a0 : forall rounds i j a, 1 <= i -> i + Z.of_nat rounds = 2 ^ Z.of_nat k ->
  (i < 2 ^ Z.of_nat k -> j = bitrev k i) -> zlen a = 2 * 2 ^ Z.of_nat k ->
  reordered k (i - 1) (fun x => fget x a0) (fun x => fget x a) ->
  let a' := bit_reverse_loop rounds i j (2 ^ Z.of_nat k) a in
  zlen a' = 2 * 2 ^ Z.of_nat k /\ reordered k (2 ^ Z.of_nat k - 1) (fun x => fget x a0) (fun x => fget x a').
Proof.
  induction rounds as [|rounds IH]; intros i j a Hi Hn Hj Hz Hr; cbn [bit_reverse_loop].
  - by replace (2 ^ Z.of_nat k) with i in * by lia.
  - rewrite Hj by lia. pose proof (bitrev_range k i). apply IH; [lia|lia| | |].
    + intros. apply carry_rev; [|lia|lia]. pose proof (Z.pow_gt_lin_r 2 (Z.of_nat k)). lia.
    + destruct (i <? bitrev k i); [by rewrite zlen_fswap|done].
    + replace (i + 1 - 1) with (i - 1 + 1) by lia. apply (reorder_step k (i - 1) _ (fun x => fget x a)); [lia|lia|done|].
      intros x Hx. rewrite Z.sub_add. destruct (Z.ltb_spec i (bitrev k i)), (Z.leb_spec (bitrev k i) i); try lia; [|done].
      rewrite fget_swap by lia. done.
Qed.

Lemma bit_reverse_rev k a : zlen a = 2 * 2 ^ Z.of_nat k ->
  let a' := bit_reverse a (2 ^ Z.of_nat k) in
  zlen a' = 2 * 2 ^ Z.of_nat k /\ forall x, 0 <= x < 2 ^ Z.of_nat k -> fget x a' = fget (bitrev k x) a.
Proof.
  intros Hz. unfold bit_reverse. pose proof (pow2_pos k). destruct (Z.to_nat (2 ^ Z.of_nat k)) as [|r] eqn:E; [lia|].
  cbn [bit_reverse_loop]. change (0 <? 0) with false. cbn iota. change (0 + 1) with 1.
  destruct (bit_reverse_loop_rev k a r 1 (carry (Z.to_nat (2 ^ Z.of_nat k)) (2 ^ Z.of_nat k >>' 1) 0) a) as [Hl Hr];
    [lia|lia| |done|apply reordered_0|].
  { intros. rewrite <- (bitrev_0 k) at 1. apply (carry_rev k _ 0); [|lia|lia]. pose proof (Z.pow_gt_lin_r 2 (Z.of_nat k)). lia. }
  split; [done|]. intros x Hx. by apply (reordered_all k (fun x => fget x a) _ Hr).
Qed.

(** ** Stages *)

Section Stages.
Context (p : fft_plan) (k : nat) (Hn : nfft p = 2 ^ Z.of_nat k).

(** The factor a stage of half size [l] uses for place [j] of a block. *)
Definition table (l j : Z) : flt * flt :=
  let t := Z.quot (j * nfft p) (l * 2) in (frd (twiddle_r p) t, frd (twiddle_i p) t).

Lemma fft_j_block l i v : 0 < l -> nfft p mod (2 * l) = 0 -> 0 <= i -> i mod (2 * l) = 0 -> i + 2 * l <= nfft p -> forall rounds j a,
  0 <= j -> j + Z.of_nat rounds = l -> zlen a = 2 * nfft p ->
  (forall x, 0 <= x < nfft p -> fget x a = partial bfly l (table l) (fun q => q <? i + j) v x) ->
  let a' := fft_j rounds p i j l a in
  zlen a' = 2 * nfft p /\ forall x, 0 <= x < nfft p -> fget x a' = partial bfly l (table l) (fun q => q <? i + l) v x.
Proof.
  intros Hl Hd Hi Him Hin. induction rounds as [|rounds IH]; intros j a Hj Hr Hz Hv; cbn [fft_j].
  { by replace l with j in * by lia. }
  assert (Em : (i + j) mod (2 * l) = j) by (rewrite mod_shift; lia).
  assert (Em1 : (i + j) mod l = j) by (destruct (mod_twice l (i + j) Hl); lia).
  fold (table l j). destruct (bfly (table l j) (fget (i + j) a) (fget (i + j + l) a)) as [x0 x1] eqn:Eb.
  apply IH; [lia|lia|by rewrite !zlen_fput|].
  apply (partial_step bfly l (nfft p) (table l) (fun q => q <? i + j) _ v (fun x => fget x a)
           (fun x => fget x (fput (i + j) x0 (fput (i + j + l) x1 a))) (i + j)); try done; try lia; cbv beta; rewrite ?Em1, ?Eb; cbn [fst snd].
  - apply fget_fput_eq; [lia|]. rewrite zlen_fput. lia.
  - rewrite fget_fput_ne by lia. apply fget_fput_eq; lia.
  - intros y Hy Hy1 Hy2. by rewrite !fget_fput_ne by lia.
Qed.

Lemma fft_i_stage l v : 0 < l -> nfft p mod (2 * l) = 0 -> forall rounds i a,
  0 <= i -> i mod (2 * l) = 0 -> nfft p <= i + Z.of_nat rounds -> zlen a = 2 * nfft p ->
  (forall x, 0 <= x < nfft p -> fget x a = partial bfly l (table l) (fun q => q <? i) v x) ->
  let a' := fft_i rounds p i l a in
  zlen a' = 2 * nfft p /\ forall x, 0 <= x < nfft p -> fget x a' = stage bfly l (table l) v x.
Proof.
  intros Hl Hd. assert (Hend : forall i a, nfft p <= i ->
    (forall x, 0 <= x < nfft p -> fget x a = partial bfly l (table l) (fun q => q <? i) v x) ->
    forall x, 0 <= x < nfft p -> fget x a = stage bfly l (table l) v x).
  { intros i a Hi Hv x Hx. rewrite Hv by done. apply partial_all. pose proof (base_inside l (nfft p) x Hl Hd Hx).
    apply Z.ltb_lt. lia. }
  induction rounds as [|rounds IH]; intros i a Hi Him Hr Hz Hv; cbn [fft_i]; [split; [done|]; by apply (Hend i); [lia|]|].
  destruct (Z.ltb_spec i (nfft p)); cbn [negb]; [|split; [done|]; by apply (Hend i); [lia|]].
  assert (Hin : i + 2 * l <= nfft p).
  { pose proof (Z.div_mod i (2 * l) ltac:(lia)). pose proof (Z.div_mod (nfft p) (2 * l) ltac:(lia)).
    assert (i / (2 * l) < nfft p / (2 * l)) by nia. nia. }
  destruct (fft_j_block l i v Hl Hd Hi Him Hin (Z.to_nat l) 0 a) as [Hz' Hv']; [lia|lia|done| |].
  { intros x Hx. rewrite Hv by done. by rewrite Z.add_0_r. }
  apply IH; [lia| |lia|done|].
  { rewrite <- Him. replace (i + l * 2) with (i + 1 * (2 * l)) by lia. apply Z.mod_add. lia. }
  intros x Hx. rewrite Hv' by done. unfold partial. pose proof (base_mod l x Hl) as Hb.
  destruct (Z.ltb_spec (base l x) (i + l)), (Z.ltb_spec (base l x) (i + l * 2)); try done; [lia|]. exfalso.
  pose proof (Z.div_mod i (2 * l) ltac:(lia)).
  replace (base l x mod (2 * l)) with (base l x - i) in Hb; [lia|]. apply Z.mod_unique with (i / (2 * l)); lia.
Qed.

(** The factors of stage [s]. *)
Definition factors (s : nat) (j : Z) : flt * flt := table (2 ^ Z.of_nat s) j.

Lemma fft_k_dit orig : forall todo s a, (s + todo = k)%nat -> zlen a = 2 * nfft p ->
  (forall x, 0 <= x < nfft p -> fget x a = dit bfly factors s (block_input k s orig x) (x mod 2 ^ Z.of_nat s)) ->
  let a' := fft_k todo p (2 ^ Z.of_nat s) a in
  zlen a' = 2 * nfft p /\
  forall x, 0 <= x < nfft p -> fget x a' = dit bfly factors k (block_input k k orig x) (x mod 2 ^ Z.of_nat k).
Proof.
  induction todo as [|todo IH]; intros s a Hs Hz Hv; cbn [fft_k].
  - by replace k with s in * by lia.
  - assert (Hd : nfft p mod (2 * 2 ^ Z.of_nat s) = 0).
    { rewrite Hn, <- pow2_S. replace (Z.of_nat k) with (Z.of_nat (k - S s) + Z.of_nat (S s)) by lia.
      rewrite Z.pow_add_r by lia. apply Z.mod_mul. pose proof (pow2_pos (S s)). lia. }
    rewrite Z.shiftl_mul_pow2 by lia. change (2 ^ 1) with 2. rewrite (Z.mul_comm _ 2), <- pow2_S. pose proof (pow2_pos s).
    pose proof (pow2_pos k).
    destruct (fft_i_stage (2 ^ Z.of_nat s) (fun x => fget x a) ltac:(lia) Hd (Z.to_nat (nfft p)) 0 a) as [Hz' Hv'];
      [lia|done|lia|done| |].
    { intros x Hx. rewrite partial_none; [done|]. pose proof (base_inside (2 ^ Z.of_nat s) (nfft p) x ltac:(lia) Hd Hx).
      apply Z.ltb_ge. lia. }
    apply IH; [lia|done|]. intros x Hx. rewrite Hv' by done. rewrite Hn in Hx, Hv.
    apply (stage_dit bfly factors); [lia|done|done].
Qed.
End Stages.

(** ** Plans *)

Lemma pow2_sound n : 0 < n -> n &' (n - 1) = 0 -> n = 2 ^ Z.log2 n.
Proof.
  intros Hn Hl. pose proof (Z.log2_spec n Hn) as [H1 H2]. pose proof (Z.log2_nonneg n) as H0.
  destruct (decide (n = 2 ^ Z.log2 n)) as [|Hne]; [done|]. exfalso.
  assert (T : Z.testbit (n &' (n - 1)) (Z.log2 n) = true).
  { rewrite Z.land_spec, Z.bit_log2 by lia. cbn [andb].
    rewrite <- (Z.log2_unique (n - 1) (Z.log2 n)) by lia. apply Z.bit_log2. lia. }
  rewrite Hl, Z.bits_0 in T. done.
Qed.
Lemma pow2_complete k : is_pow2 (2 ^ Z.of_nat k) = true.
Proof.
  unfold is_pow2. pose proof (pow2_pos k). destruct (Z.ltb_spec 0 (2 ^ Z.of_nat k)); [|lia]. cbn [andb].
  rewrite Z.sub_1_r, <- Z.ones_equiv, Z.land_ones by lia. by rewrite Z.mod_same by lia.
Qed.
Lemma log2_loop_pow2 k : forall fuel l, (k < fuel)%nat -> log2_loop fuel (2 ^ Z.of_nat k) l = l + Z.of_nat k.
Proof.
  induction k as [|k IH]; intros fuel l Hf; (destruct fuel as [|fuel]; [lia|]); cbn [log2_loop]; rewrite Z.shiftr_div_pow2 by lia.
  - change (2 ^ Z.of_nat 0 / 2 ^ 1) with 0. cbn. lia.
  - pose proof (pow2_pos k). rewrite pow2_S.
    replace (2 * 2 ^ Z.of_nat k / 2 ^ 1) with (2 ^ Z.of_nat k) by (change (2 ^ 1) with 2; Z.div_mod_to_equations; lia).
    destruct (Z.eqb_spec (2 ^ Z.of_nat k) 0); [lia|]. rewrite IH by lia. lia.
Qed.

Section Execute.
Context `{Libm}.

(** The factor of stage [s] of a transform of [2 ^ m] samples for place [j]: a root of unity,
    rounded. *)
Definition root (m : nat) (s : nat) (j : Z) : flt * flt :=
  let a := angle (j * 2 ^ Z.of_nat (m - S s)) (2 ^ Z.of_nat m) in (f32_of_f64 (cos a), f32_of_f64 (sin a)).

Lemma frd_fmap (f : Z -> flt) len i : 0 <= i < len -> frd (f <$> seqZ 0 len) i = f i.
Proof.
  intros Hi. unfold frd. destruct (Z.ltb_spec i 0); [lia|]. rewrite list_lookup_fmap, lookup_seqZ_lt by lia. cbn. f_equal. lia.
Qed.

Lemma created_factors mem m p s j : fft_plan_create mem (2 ^ Z.of_nat m) = Some p -> (s < m)%nat -> 0 <= j < 2 ^ Z.of_nat s ->
  factors p s j = root m s j.
Proof.
  unfold fft_plan_create. destruct (_ || _); [done|]. destruct (negb (a_plan mem)); [done|]. destruct (_ || _); [done|]. intros <-%(inj Some) Hs Hj. unfold factors, table, root. cbn [nfft twiddle_r twiddle_i].
  pose proof (pow2_pos s). pose proof (pow2_pos (m - S s)).
  assert (Em : 2 ^ Z.of_nat m = 2 ^ Z.of_nat (m - S s) * (2 ^ Z.of_nat s * 2)).
  { rewrite (Z.mul_comm (2 ^ Z.of_nat s)), <- pow2_S, <- Z.pow_add_r by lia. f_equal. lia. }
  assert (Et : Z.quot (j * 2 ^ Z.of_nat m) (2 ^ Z.of_nat s * 2) = j * 2 ^ Z.of_nat (m - S s)).
  { rewrite Z.quot_div_nonneg, Em, Z.mul_assoc, Z.div_mul by lia. done. }
  assert (Hh : Z.quot (2 ^ Z.of_nat m) 2 = 2 ^ Z.of_nat (m - S s) * 2 ^ Z.of_nat s).
  { rewrite Z.quot_div_nonneg, Em, Z.mul_assoc, Z.div_mul by lia. done. }
  assert (j * 2 ^ Z.of_nat (m - S s) < 2 ^ Z.of_nat (m - S s) * 2 ^ Z.of_nat s) by nia.
  rewrite Et, Hh, !frd_fmap by lia. done.
Qed.

Lemma dit_factors tw tw' m : (forall s j, (s < m)%nat -> 0 <= j < 2 ^ Z.of_nat s -> tw s j = tw' s j) ->
  forall (x : Z -> flt * flt) j, dit bfly tw m x j = dit bfly tw' m x j.
Proof.
  induction m as [|m IH]; intros Ht x j; cbn [dit]; [done|]. pose proof (pow2_pos m).
  rewrite Ht by (try apply Z.mod_pos_bound; lia). rewrite !IH by (intros; apply Ht; lia). done.
Qed.

(** C19.  The CPU back end: a plan is made for exactly the powers of two from 2 to 16384, when its
    four allocations succeed, and executing it in place on an array of that many samples succeeds and computes, float for
    float, the transform of the even samples and of the odd samples joined by butterflies with
    the roots of unity e^(-2 pi i t / nfft). *)
Theorem fft_cpu_reference (mem : allocs) (n : Z) :
  match fft_plan_create mem n with
  | None => ~ (mem = mk_allocs true true true true /\ exists m, (1 <= m <= 14)%nat /\ n = 2 ^ Z.of_nat m)
  | Some p => exists m, (1 <= m <= 14)%nat /\ n = 2 ^ Z.of_nat m /\
      forall inp, zlen inp = 2 * n -> exists out, fft_execute p 0 inp = Some out /\ zlen out = 2 * n /\
        forall j, 0 <= j < n -> fget j out = dit bfly (root m) m (fun t => fget t inp) j
  end.
Proof.
  destruct (fft_plan_create mem n) as [p|] eqn:E.
  - pose proof E as E0. unfold fft_plan_create in E.
    destruct (Z.ltb_spec n 2); [done|]. destruct (Z.ltb_spec FFT_MAX_NFFT n); [done|]. cbn [orb] in E.
    destruct (is_pow2 n) eqn:Ep; [|done]. cbn [negb] in E. destruct (negb (a_plan mem)); [done|]. destruct (_ || _) in E; [done|]. unfold is_pow2 in Ep. apply andb_prop in Ep as [_ Ep]. apply Z.eqb_eq in Ep.
    apply pow2_sound in Ep; [|lia]. pose proof (Z.log2_nonneg n) as Hl0. set (m := Z.to_nat (Z.log2 n)).
    assert (En : n = 2 ^ Z.of_nat m) by (unfold m; rewrite Z2Nat.id; lia). clearbody m. clear Ep Hl0. subst n.
    exists m. split.
    { destruct m; [cbn in *; lia|]. change FFT_MAX_NFFT with (2 ^ 14) in *.
      assert (Z.of_nat (S m) <= 14) by (apply (Z.pow_le_mono_r_iff 2); lia). lia. }
    split; [done|]. intros inp Hz. apply (inj Some) in E as Ep. assert (Hp : nfft p = 2 ^ Z.of_nat m) by (by rewrite <- Ep).
    assert (Hlg : log2n p = Z.of_nat m).
    { rewrite <- Ep. cbn [log2n]. unfold log2_int. rewrite log2_loop_pow2; [lia|]. pose proof (Z.pow_gt_lin_r 2 (Z.of_nat m)). lia. }
    unfold fft_execute. change (0 =? 0) with true. cbn [negb andb]. eexists. split; [done|].
    destruct (bit_reverse_rev m inp Hz) as [Hz1 Hv1]. rewrite Hlg, Nat2Z.id, Hp.
    destruct (fft_k_dit p m Hp (fun t => fget t inp) m 0%nat (bit_reverse inp (2 ^ Z.of_nat m))) as [Hz2 Hv2]; [lia|by rewrite Hp| |].
    { intros x Hx. cbn [dit]. rewrite block_input_0. apply Hv1. by rewrite <- Hp. }
    change (2 ^ Z.of_nat 0) with 1 in *. rewrite Hp in Hz2, Hv2. split; [done|]. intros j Hj. rewrite Hv2 by done.
    rewrite Z.mod_small by done. rewrite (dit_factors _ (root m) m) by (intros; by apply (created_factors mem)).
    apply dit_ext. intros t. by rewrite block_input_all.
  - intros (-> & m & Hm & ->). unfold fft_plan_create in E. rewrite pow2_complete in E.
    assert (2 ^ 1 <= 2 ^ Z.of_nat m <= 2 ^ 14) by (split; apply Z.pow_le_mono_r; lia). 
    destruct (Z.ltb_spec (2 ^ Z.of_nat m) 2); [lia|]. destruct (Z.ltb_spec FFT_MAX_NFFT (2 ^ Z.of_nat m)); [lia|]. done.
Qed.
End Execute.

End FftCpuProps.
