(* ===== verification/FftVk.v ===== *)
(** * The Vulkan back end of the transform ([src/src/fft/fft_vkfft.c])

    [Module FftVk]: making, running and destroying a plan.  What Vulkan, VkFFT and the C
    library answer is in environments; what the code acquires, releases, submits and awaits is
    a list of actions.  The commands of a transform, its barriers among them, are recorded as the
    code records them and take effect when the submission completes; what a command reads that
    no barrier made visible to it is undefined.  The transform itself is VkFFT's, a parameter.

    [FftVkProps]: whatever fails, everything is released once, parents behind their children,
    and nothing that the device still uses, but where [initializeVkFFT] fails with an upload
    pending; the barriers suffice for the transform of the input to be what is read back. *)

From S2P Require Import Prelude Float.

Module FftVk.

Inductive handle :=
  | HPlan | HWindow | HInstance | HDevices | HTemp | HDevice | HFence | HPool
  | HBuffer | HMemory | HStaging | HStagingMemory | HMap | HLocale | HApp.
#[global] Instance handle_eq_dec : EqDecision handle.
Proof. solve_decision. Defined.

(** [Upload] is work of the device that [initializeVkFFT] has started and not awaited. *)
Inductive act := Acquire (h : handle) | Release (h : handle) | Submit | Complete | Upload.

(** ** Queries *)

Abbreviation HOST_VISIBLE := (2)%Z (only parsing).
Abbreviation HOST_COHERENT := (4)%Z (only parsing).
Abbreviation DEVICE_LOCAL := (1)%Z (only parsing).
Abbreviation COMPUTE_BIT := (2)%Z (only parsing).

(** [types] are the property flags of the memory types of a device. *)
Fixpoint memory_type_loop (types : list Z) (i bits flags : Z) : option Z :=
  match types with
  | [] => None
  | t :: types =>
      if negb (bits &' u32 (1 <<' i) =? 0) && (t &' flags =? flags) then Some i
      else memory_type_loop types (i + 1) bits flags
  end.
Definition memory_type (types : list Z) (bits flags : Z) : option Z := memory_type_loop types 0 bits flags.

(** Counting the extensions, the array for them, and the names. *)
Record ext_env := mk_ext { x_count : bool; x_calloc : bool; x_names : option (list (list Z)) }.
Definition extension_present (e : ext_env) (name : list Z) : Z * list act :=
  if negb (x_count e) then (-1, [])
  else if negb (x_calloc e) then (-1, [])
  else
    (match x_names e with
     | Some names => if existsb (fun n => bool_decide (n = name)) names then 1 else 0
     | None => -1
     end, [Acquire HTemp; Release HTemp]).

(** ** Buffers *)

Record buffer_env := mk_buffer { b_create : bool; b_bits : Z; b_allocate : bool; b_bind : bool }.
Definition create_buffer (types : list Z) (e : buffer_env) (flags : Z) (hb hm : handle) : bool * list act :=
  if negb (b_create e) then (false, [])
  else match memory_type types (b_bits e) flags with
       | None => (false, [Acquire hb; Release hb])
       | Some _ =>
           if negb (b_allocate e) then (false, [Acquire hb; Release hb])
           else if negb (b_bind e) then (false, [Acquire hb; Acquire hm; Release hb; Release hm])
           else (true, [Acquire hb; Acquire hm])
       end.

(** ** Devices *)

(** A queue family: its number of queues and flags, and whether a device can be made on it. *)
Record family_env := mk_family { f_count : Z; f_flags : Z; f_create : bool }.
Record physical_env := mk_physical {
  ph_ext : ext_env; ph_types : list Z; ph_calloc : bool; ph_families : list family_env;
}.
Fixpoint family_loop (l : list family_env) (i : Z) : option Z :=
  match l with
  | [] => None
  | f :: l =>
      if (f_count f =? 0) || (f_flags f &' COMPUTE_BIT =? 0) then family_loop l (i + 1)
      else if f_create f then Some i
      else family_loop l (i + 1)
  end.
(** The family of the device that was made. *)
Definition create_device (name : list Z) (e : physical_env) : option Z * list act :=
  let '(portable, a) := extension_present (ph_ext e) name in
  if portable <? 0 then (None, a)
  else match memory_type (ph_types e) (2 ^ 32 - 1) (HOST_VISIBLE |' HOST_COHERENT), memory_type (ph_types e) (2 ^ 32 - 1) DEVICE_LOCAL with
       | Some _, Some _ =>
           if negb (ph_calloc e) then (None, a)
           else
             let r := family_loop (ph_families e) 0 in
             (r, a ++ [Acquire HTemp] ++ match r with Some _ => [Acquire HDevice] | None => [] end ++ [Release HTemp])
       | _, _ => (None, a)
       end.
(** The first physical device that works. *)
Fixpoint device_loop (name : list Z) (l : list physical_env) : option physical_env * list act :=
  match l with
  | [] => (None, [])
  | e :: l =>
      let '(r, a) := create_device name e in
      match r with
      | Some _ => (Some e, a)
      | None => let '(r, b) := device_loop name l in (r, a ++ b)
      end
  end.

(** ** Plans *)

Record fft_plan := mk_plan {
  nfft : Z; failed : bool; pending : bool; app_initialized : bool;
  window : bool; instance : bool; device : bool; fence : bool; pool : bool;
  buffer : bool; memory : bool; staging : bool; staging_memory : bool; mapped : bool;
}.
Definition set_run (p : fft_plan) (f d : bool) : fft_plan :=
  mk_plan (nfft p) f d (app_initialized p) (window p) (instance p) (device p) (fence p) (pool p)
    (buffer p) (memory p) (staging p) (staging_memory p) (mapped p).

(** What waiting answers. *)
Inductive vk_result := VkSuccess | VkDeviceLost | VkOther.
(** [None] when waiting for an idle device never ends. *)
Fixpoint wait_idle (answers : list vk_result) : option vk_result :=
  match answers with [] => None | VkOther :: l => wait_idle l | r :: _ => Some r end.
Definition complete_submission (waits : vk_result) (idles : list vk_result) (p : fft_plan) : option (Z * fft_plan * list act) :=
  if negb (pending p) then Some (0, p, [])
  else match waits with
       | VkSuccess => Some (if failed p then -1 else 0, set_run p (failed p) false, [Complete])
       | VkDeviceLost => Some (-1, set_run p true false, [Complete])
       | VkOther => _ ← wait_idle idles; Some (-1, set_run p true false, [Complete])
       end.

Definition release_if (b : bool) (h : handle) : list act := if b then [Release h] else [].
Definition destroy_tail (p : fft_plan) : list act :=
  release_if (app_initialized p) HApp ++
  (if device p then
     release_if (mapped p) HMap ++ release_if (buffer p) HBuffer ++ release_if (memory p) HMemory ++
     release_if (staging p) HStaging ++ release_if (staging_memory p) HStagingMemory ++ release_if (pool p) HPool ++
     release_if (fence p) HFence ++ [Release HDevice]
   else []) ++
  release_if (instance p) HInstance ++ release_if (window p) HWindow ++ [Release HPlan].
Definition fft_plan_destroy (waits : vk_result) (idles : list vk_result) (p : option fft_plan) : option (list act) :=
  match p with
  | None => Some []
  | Some p => '(_, p, a) ← complete_submission waits idles p; Some (a ++ destroy_tail p)
  end.

(** What [initializeVkFFT] answers; where the wait for the upload of its tables ends too early it
    fails with the device at work. *)
Inductive vkfft_init := InitSuccess | InitFailed | InitPending.
#[global] Instance vkfft_init_eq_dec : EqDecision vkfft_init.
Proof. solve_decision. Defined.

(** The answers of the calls of [fft_plan_create], in its order; [e_ready] and [e_init] are
    the compiler and [initializeVkFFT]. *)
Record env := mk_env {
  e_plan : bool; e_window : bool; e_port : ext_env; e_props : ext_env; e_instance : bool; e_count : Z;
  e_devices : bool; e_list : option (list physical_env); e_fence : bool; e_pool : bool; e_command : bool;
  e_buffer : buffer_env; e_staging : buffer_env; e_map : bool; e_locale : bool; e_uselocale : bool; e_ready : bool; e_init : vkfft_init;
}.

(** The end of a failed creation: nothing is pending. *)
Definition fail (p : fft_plan) (devices : bool) (acts : list act) : option fft_plan * list act :=
  (None, acts ++ release_if devices HDevices ++ destroy_tail p).

Definition no_plan (n : Z) : fft_plan :=
  mk_plan n false false false false false false false false false false false false false.

(** Behind the fence: command buffer, buffers, mapping and VkFFT. *)
Definition create_rest (types : list Z) (e : env) (p : fft_plan) (acts : list act) : option fft_plan * list act :=
  if negb (e_command e) then fail p false acts
  else
    let '(ok, b) := create_buffer types (e_buffer e) DEVICE_LOCAL HBuffer HMemory in
    if negb ok then fail p false (acts ++ b)
    else
      let p := mk_plan (nfft p) false false false (window p) (instance p) (device p) (fence p) (pool p) true true false false false in
      let acts := acts ++ b in
      let '(ok, b) := create_buffer types (e_staging e) (HOST_VISIBLE |' HOST_COHERENT) HStaging HStagingMemory in
      if negb ok then fail p false (acts ++ b)
      else
        let p := mk_plan (nfft p) false false false (window p) (instance p) (device p) (fence p) (pool p) true true true true false in
        let acts := acts ++ b in
        if negb (e_map e) then fail p false acts
        else
          let p := mk_plan (nfft p) false false false (window p) (instance p) (device p) (fence p) (pool p) true true true true true in
          let acts := acts ++ [Acquire HMap] in
          if negb (e_locale e) then fail p false acts
          else if negb (e_uselocale e) then fail p false (acts ++ [Acquire HLocale; Release HLocale])
          else
            let initialized := if e_ready e then e_init e else InitFailed in
            let done := match initialized with InitSuccess => [Acquire HApp] | InitFailed => [] | InitPending => [Upload] end in
            let acts := acts ++ [Acquire HLocale] ++ done ++ [Release HLocale] in
            if negb (bool_decide (initialized = InitSuccess)) then fail p false acts
            else (Some (mk_plan (nfft p) false false true (window p) (instance p) (device p) (fence p) (pool p) true true true true true), acts).

(** From the instance on. *)
Definition create_instance (subset : list Z) (e : env) (p : fft_plan) (acts : list act) : option fft_plan * list act :=
  if negb (e_instance e) then fail p false acts
  else
    let p := mk_plan (nfft p) false false false true true false false false false false false false false in
    let acts := acts ++ [Acquire HInstance] in
    if e_count e <=? 0 then fail p false acts
    else if negb (e_devices e) then fail p false acts
    else
      let acts := acts ++ [Acquire HDevices] in
      match e_list e with
      | None => fail p true acts
      | Some l =>
          let '(r, d) := device_loop subset l in
          let acts := acts ++ d ++ [Release HDevices] in
          match r with
          | None => fail p false acts
          | Some phys =>
              let p := mk_plan (nfft p) false false false true true true false false false false false false false in
              if negb (e_fence e) then fail p false acts
              else
                let p := mk_plan (nfft p) false false false true true true true false false false false false false in
                let acts := acts ++ [Acquire HFence] in
                if negb (e_pool e) then fail p false acts
                else
                  let p := mk_plan (nfft p) false false false true true true true true false false false false false in
                  create_rest (ph_types phys) e p (acts ++ [Acquire HPool])
          end
      end.

(** [enumeration], [properties2] and [subset] are the names of the extensions. *)
Definition fft_plan_create (enumeration properties2 subset : list Z) (n : Z) (e : env) : option fft_plan * list act :=
  if (n <? 2) || (16384 <? n) || negb (n &' (n - 1) =? 0) then (None, [])
  else if negb (e_plan e) then (None, [])
  else
    let p := no_plan n in
    let acts := [Acquire HPlan] in
    if negb (e_window e) then fail p false acts
    else
      let p := mk_plan n false false false true false false false false false false false false false in
      let acts := acts ++ [Acquire HWindow] in
      let '(portable, a) := extension_present (e_port e) enumeration in
      let acts := acts ++ a in
      if portable <? 0 then fail p false acts
      else if negb (portable =? 0) then
        let '(r, a) := extension_present (e_props e) properties2 in
        if negb (r =? 1) then fail p false (acts ++ a) else create_instance subset e p (acts ++ a)
      else create_instance subset e p acts.

(** ** Execution *)

(** The buffers of a plan, pipeline stages and kinds of access. *)
Inductive vk_buffer := Buffer | Staging.
#[global] Instance vk_buffer_eq_dec : EqDecision vk_buffer.
Proof. solve_decision. Defined.
Inductive vk_stage := STAGE_TRANSFER | STAGE_COMPUTE_SHADER | STAGE_HOST.
#[global] Instance vk_stage_eq_dec : EqDecision vk_stage.
Proof. solve_decision. Defined.
Inductive vk_access := TRANSFER_READ | TRANSFER_WRITE | SHADER_READ | SHADER_WRITE | HOST_READ.
#[global] Instance vk_access_eq_dec : EqDecision vk_access.
Proof. solve_decision. Defined.

(** Recorded commands: the copies between the staging buffer and the buffer, the transform, and
    [barrier]. *)
Inductive command :=
  | CopyIn | Transform | CopyOut
  | Barrier (b : vk_buffer) (src : vk_stage) (read : vk_access) (dst : vk_stage) (write : list vk_access).

(** A buffer: its contents, [None] when they are undefined; who wrote last in this submission,
    and to which accesses the write was made visible.  What was there before the submission is
    visible to all. *)
Record content := mk_content {
  data : option (list flt); writer : option (vk_stage * vk_access); visible : list (vk_stage * vk_access);
}.
Definition sees (a : vk_stage * vk_access) (c : content) : bool :=
  match writer c with None => true | Some _ => bool_decide (a ∈ visible c) end.
Definition get (a : vk_stage * vk_access) (c : content) : option (list flt) := if sees a c then data c else None.
Definition put (a : vk_stage * vk_access) (d : option (list flt)) (c : content) : content :=
  mk_content (if sees a c then d else None) (Some a) [].
Definition settled (d : option (list flt)) : content := mk_content d None [].

Record memories := mk_memories { m_staging : content; m_buffer : content }.
Definition make_visible (src : vk_stage * vk_access) (dst : list (vk_stage * vk_access)) (c : content) : content :=
  if bool_decide (writer c = Some src) then mk_content (data c) (writer c) (visible c ++ dst) else c.
Definition run_command (transform : list flt -> list flt) (m : memories) (c : command) : memories :=
  match c with
  | CopyIn =>
      mk_memories (m_staging m) (put (STAGE_TRANSFER, TRANSFER_WRITE) (get (STAGE_TRANSFER, TRANSFER_READ) (m_staging m)) (m_buffer m))
  | Transform =>
      mk_memories (m_staging m)
        (put (STAGE_COMPUTE_SHADER, SHADER_WRITE) (transform <$> get (STAGE_COMPUTE_SHADER, SHADER_READ) (m_buffer m)) (m_buffer m))
  | CopyOut =>
      mk_memories (put (STAGE_TRANSFER, TRANSFER_WRITE) (get (STAGE_TRANSFER, TRANSFER_READ) (m_buffer m)) (m_staging m)) (m_buffer m)
  | Barrier Buffer src read dst write => mk_memories (m_staging m) (make_visible (src, read) (pair dst <$> write) (m_buffer m))
  | Barrier Staging src read dst write => mk_memories (make_visible (src, read) (pair dst <$> write) (m_staging m)) (m_buffer m)
  end.

Record exec_env := mk_exec {
  x_reset : bool; x_fences : bool; x_begin : bool; x_append : bool; x_end : bool; x_submit : bool;
  x_wait : vk_result; x_idle : list vk_result;
}.
(** [inp] is [None] and [out] false for a null pointer; [apart] is the distance of input and
    output in bytes.  The output where it returns 0, with undefined contents as [None]; the
    plan, the contents of the staging buffer and of the buffer, the actions; [None] when it does
    not return. *)
Definition fft_execute (transform : list flt -> list flt) (e : exec_env) (p : option fft_plan) (inp : option (list flt)) (out : bool) (apart : Z)
    (m : option (list flt) * option (list flt))
    : option (option (option (list flt)) * option fft_plan * (option (list flt) * option (list flt)) * list act) :=
  let poison q m a := Some (None, Some (set_run q true (pending q)), m, a) in
  match p, inp with
  | Some p, Some inp =>
      if negb out || failed p then Some (None, Some p, m, [])
      else if negb (apart =? 0) && (apart <? nfft p * 8) then Some (None, Some p, m, [])
      else if negb (x_reset e) || negb (x_fences e) || negb (x_begin e) then poison p m []
      else
        let m := (Some inp, m.2) in
        let commands := [CopyIn; Barrier Buffer STAGE_TRANSFER TRANSFER_WRITE STAGE_COMPUTE_SHADER [SHADER_READ; SHADER_WRITE]] in
        if negb (x_append e) then poison p m []
        else
          let commands := commands ++ [Transform] ++
            [Barrier Buffer STAGE_COMPUTE_SHADER SHADER_WRITE STAGE_TRANSFER [TRANSFER_READ]; CopyOut;
             Barrier Staging STAGE_TRANSFER TRANSFER_WRITE STAGE_HOST [HOST_READ]] in
          if negb (x_end e) || negb (x_submit e) then poison p m []
          else
            let p := set_run p (failed p) true in
            '(r, p, a) ← complete_submission (x_wait e) (x_idle e) p;
            let r' := fold_left (run_command transform) commands (mk_memories (settled m.1) (settled m.2)) in
            let m := (data (m_staging r'), data (m_buffer r')) in
            if r <? 0 then poison p m (Submit :: a)
            else Some (Some (get (STAGE_HOST, HOST_READ) (m_staging r')), Some p, m, Submit :: a)
  | p, _ => Some (None, p, m, [])
  end.

End FftVk.

Module FftVkProps.
Import FftVk.

(** ** What the actions need *)

(** What must outlive a handle. *)
Definition parents (h : handle) : list handle :=
  match h with
  | HDevice => [HInstance]
  | HFence | HPool | HBuffer | HMemory | HStaging | HStagingMemory => [HDevice]
  | HMap => [HStagingMemory]
  | HApp => [HDevice; HPool; HFence; HBuffer]
  | _ => []
  end.
Definition mem (h : handle) (l : list handle) : bool := existsb (fun x => bool_decide (x = h)) l.
Fixpoint remove (h : handle) (l : list handle) : list handle :=
  match l with [] => [] | x :: l => if bool_decide (x = h) then l else x :: remove h l end.

(** The objects a device at work may use; the others are memory of the host. *)
Definition of_device (h : handle) : bool :=
  match h with HPlan | HWindow | HDevices | HTemp | HLocale => false | _ => true end.
(** What is held, and whether the device is at work. *)
Record held := mk_held { live : list handle; busy : bool }.
Definition perform (a : act) (s : held) : option held :=
  match a with
  | Acquire h => if mem h (live s) || negb (forallb (fun p => mem p (live s)) (parents h)) then None else Some (mk_held (h :: live s) (busy s))
  | Release h =>
      if negb (mem h (live s)) || existsb (fun c => mem h (parents c)) (live s) || busy s && of_device h then None
      else Some (mk_held (remove h (live s)) (busy s))
  | Submit => if busy s || negb (mem HApp (live s)) then None else Some (mk_held (live s) true)
  | Complete => if busy s then Some (mk_held (live s) false) else None
  | Upload => if mem HDevice (live s) then Some (mk_held (live s) true) else None
  end.
Abbreviation performs := (perform_all perform).
Definition nothing : held := mk_held [] false.

(** ** Creation *)

Definition listed : list handle := [HDevices; HInstance; HWindow; HPlan].
(** A query leaves everything as it was. *)
Lemma ext_neutral e name l : l = [HWindow; HPlan] \/ l = listed ->
  performs (extension_present e name).2 (mk_held l false) = Some (mk_held l false).
Proof. intros [->| ->]; unfold extension_present; by destruct (x_count e), (x_calloc e). Qed.

Lemma device_made name e r a : create_device name e = (r, a) ->
  performs a (mk_held listed false) = Some (mk_held (match r with Some _ => HDevice :: listed | None => listed end) false).
Proof.
  unfold create_device. pose proof (ext_neutral (ph_ext e) name listed (or_intror eq_refl)) as Hx.
  destruct (extension_present (ph_ext e) name) as [portable x]. cbn [snd] in Hx.
  destruct (_ <? _); [by intros [= <- <-]|]. destruct (memory_type _ _ _); [|by intros [= <- <-]].
  destruct (memory_type _ _ _); [|by intros [= <- <-]]. destruct (ph_calloc e); [|by intros [= <- <-]]. cbn [negb].
  intros [= <- <-]. eapply performs_step; [exact Hx|]. by destruct (family_loop _ _).
Qed.
Lemma devices_made name l : forall r a, device_loop name l = (r, a) ->
  performs a (mk_held listed false) = Some (mk_held (match r with Some _ => HDevice :: listed | None => listed end) false).
Proof.
  induction l as [|e l IH]; intros r a; cbn [device_loop]; [by intros [= <- <-]|].
  destruct (create_device name e) as [r1 a1] eqn:E. pose proof (device_made _ _ _ _ E) as H1.
  destruct r1; [by intros [= <- <-]|]. destruct (device_loop name l) as [r2 a2]. intros [= <- <-].
  eapply performs_step; [exact H1|]. by apply IH.
Qed.

(** What a creation has done: everything is given back, or a plan holds all of it, if
    [initializeVkFFT] leaves the device idle. *)
Definition whole (n : Z) : fft_plan := mk_plan n false false true true true true true true true true true true true.
Definition all_held : list handle :=
  [HApp; HMap; HStagingMemory; HStaging; HMemory; HBuffer; HPool; HFence; HDevice; HInstance; HWindow; HPlan].
Definition made (n : Z) (res : option fft_plan * list act) : Prop :=
  match res.1 with
  | None => performs res.2 nothing = Some nothing
  | Some p => p = whole n /\ performs res.2 nothing = Some (mk_held all_held false)
  end.

Lemma fail_made n p devices acts l : performs acts nothing = Some (mk_held l false) ->
  performs (release_if devices HDevices ++ destroy_tail p) (mk_held l false) = Some nothing -> made n (fail p devices acts).
Proof. intros Ha Hd. unfold made, fail. cbn [fst snd]. by eapply performs_step. Qed.

(** The steps of a buffer. *)
Definition fenced : list handle := [HPool; HFence; HDevice; HInstance; HWindow; HPlan].
Lemma buffer_made types e : let r := create_buffer types e DEVICE_LOCAL HBuffer HMemory in
  performs r.2 (mk_held fenced false) = Some (mk_held (if r.1 then HMemory :: HBuffer :: fenced else fenced) false).
Proof. unfold create_buffer. destruct (b_create e), (memory_type _ _ _), (b_allocate e), (b_bind e); done. Qed.
Lemma staging_made types e (l := HMemory :: HBuffer :: fenced) :
  let r := create_buffer types e (HOST_VISIBLE |' HOST_COHERENT) HStaging HStagingMemory in
  performs r.2 (mk_held l false) = Some (mk_held (if r.1 then HStagingMemory :: HStaging :: l else l) false).
Proof. unfold create_buffer. destruct (b_create e), (memory_type _ _ _), (b_allocate e), (b_bind e); done. Qed.

Lemma rest_made types e n acts : e_init e <> InitPending -> performs acts nothing = Some (mk_held fenced false) ->
  made n (create_rest types e (mk_plan n false false false true true true true true false false false false false) acts).
Proof.
  intros Hi Ha. unfold create_rest. destruct (e_command e); [|by eapply fail_made]. cbn [negb].
  pose proof (buffer_made types (e_buffer e)) as Hb. destruct (create_buffer _ (e_buffer e) _ _ _) as [ok b]. cbn [fst snd] in Hb.
  pose proof (performs_step perform _ _ _ _ _ Ha Hb) as H1. destruct ok; [|by eapply fail_made]. cbn [negb nfft window instance device fence pool].
  pose proof (staging_made types (e_staging e)) as Hs. destruct (create_buffer _ (e_staging e) _ _ _) as [ok c]. cbn [fst snd] in Hs.
  pose proof (performs_step perform _ _ _ _ _ H1 Hs) as H2. destruct ok; [|by eapply fail_made]. cbn [negb nfft window instance device fence pool].
  destruct (e_map e); [|by eapply fail_made]. cbn [negb].
  assert (H3 : performs (((acts ++ b) ++ c) ++ [Acquire HMap]) nothing
    = Some (mk_held (HMap :: HStagingMemory :: HStaging :: HMemory :: HBuffer :: fenced) false)) by (by eapply performs_step).
  destruct (e_locale e); [|by eapply fail_made]. cbn [negb].
  destruct (e_uselocale e); [|eapply fail_made; [eapply performs_step; [exact H3|reflexivity]|done]]. cbn [negb].
  assert (Hf : made n (fail (mk_plan n false false false true true true true true true true true true true) false
    ((((acts ++ b) ++ c) ++ [Acquire HMap]) ++ [Acquire HLocale] ++ [] ++ [Release HLocale])))
    by (eapply fail_made; [eapply performs_step; [exact H3|reflexivity]|done]).
  destruct (e_ready e); [|exact Hf]. destruct (e_init e); [|exact Hf|done]. split; [done|]. by eapply performs_step.
Qed.

Lemma instance_made subset e n acts : e_init e <> InitPending -> performs acts nothing = Some (mk_held [HWindow; HPlan] false) ->
  made n (create_instance subset e (mk_plan n false false false true false false false false false false false false false) acts).
Proof.
  intros Hi Ha. unfold create_instance. destruct (e_instance e); [|by eapply fail_made]. cbn [negb nfft].
  assert (H1 : performs (acts ++ [Acquire HInstance]) nothing = Some (mk_held [HInstance; HWindow; HPlan] false)) by (by eapply performs_step).
  destruct (_ <=? _); [by eapply fail_made|]. destruct (e_devices e); [|by eapply fail_made]. cbn [negb].
  assert (H2 : performs ((acts ++ [Acquire HInstance]) ++ [Acquire HDevices]) nothing = Some (mk_held listed false)) by (by eapply performs_step).
  destruct (e_list e) as [l|]; [|by eapply fail_made].
  destruct (device_loop subset l) as [r d] eqn:Ed. pose proof (devices_made _ _ _ _ Ed) as H3.
  assert (H4 : performs (((acts ++ [Acquire HInstance]) ++ [Acquire HDevices]) ++ d ++ [Release HDevices]) nothing
    = Some (mk_held (match r with Some _ => [HDevice] | None => [] end ++ [HInstance; HWindow; HPlan]) false)).
  { eapply performs_step; [exact H2|]. eapply performs_step; [exact H3|]. by destruct r. }
  destruct r as [phys|]; [|by eapply fail_made]. destruct (e_fence e); [|by eapply fail_made]. cbn [negb].
  assert (H5 : performs ((((acts ++ [Acquire HInstance]) ++ [Acquire HDevices]) ++ d ++ [Release HDevices]) ++ [Acquire HFence]) nothing
    = Some (mk_held [HFence; HDevice; HInstance; HWindow; HPlan] false)) by (by eapply performs_step).
  destruct (e_pool e); [|by eapply fail_made]. cbn [negb]. apply rest_made; [done|]. by eapply performs_step.
Qed.

Lemma create_made enumeration properties2 subset n e : e_init e <> InitPending -> made n (fft_plan_create enumeration properties2 subset n e).
Proof.
  intros Hi. unfold fft_plan_create. destruct (_ || _); [done|]. destruct (e_plan e); [|done]. cbn [negb].
  destruct (e_window e); [|by eapply fail_made]. cbn [negb].
  assert (H0 : performs ([Acquire HPlan] ++ [Acquire HWindow]) nothing = Some (mk_held [HWindow; HPlan] false)) by done.
  pose proof (ext_neutral (e_port e) enumeration _ (or_introl eq_refl)) as Hx. destruct (extension_present (e_port e) enumeration) as [portable a].
  pose proof (performs_step perform _ _ _ _ _ H0 Hx) as H1. destruct (_ <? _); [by eapply fail_made|].
  destruct (negb (portable =? 0)); [|by apply instance_made].
  pose proof (ext_neutral (e_props e) properties2 _ (or_introl eq_refl)) as Hy. destruct (extension_present (e_props e) properties2) as [r b].
  pose proof (performs_step perform _ _ _ _ _ H1 Hy) as H2. destruct (negb (r =? 1)); [by eapply fail_made|by apply instance_made].
Qed.

(** ** Execution *)

Section Execute.
Context (transform : list flt -> list flt).

(** A plan between calls. *)
Definition rests (n : Z) (p : fft_plan) : Prop := exists f, p = set_run (whole n) f false.

(** The barriers suffice. *)
Lemma commands_transform inp old :
  let r := fold_left (run_command transform)
    [CopyIn; Barrier Buffer STAGE_TRANSFER TRANSFER_WRITE STAGE_COMPUTE_SHADER [SHADER_READ; SHADER_WRITE]; Transform;
     Barrier Buffer STAGE_COMPUTE_SHADER SHADER_WRITE STAGE_TRANSFER [TRANSFER_READ]; CopyOut;
     Barrier Staging STAGE_TRANSFER TRANSFER_WRITE STAGE_HOST [HOST_READ]] (mk_memories (settled (Some inp)) (settled old)) in
  get (STAGE_HOST, HOST_READ) (m_staging r) = Some (transform inp).
Proof. reflexivity. Qed.

Lemma execute_step n e p inp out apart m r q m' a : rests n p -> fft_execute transform e (Some p) inp out apart m = Some (r, q, m', a) ->
  exists q', q = Some q' /\ rests n q' /\ performs a (mk_held all_held false) = Some (mk_held all_held false) /\
  (failed p = true -> r = None /\ q' = p) /\ (forall res, r = Some res -> exists x, inp = Some x /\ res = Some (transform x) /\ failed q' = false).
Proof.
  assert (G : forall f q a, performs a (mk_held all_held false) = Some (mk_held all_held false) -> q = Some (set_run (whole n) f false) ->
    exists q', q = Some q' /\ rests n q' /\ performs a (mk_held all_held false) = Some (mk_held all_held false) /\
      (failed (set_run (whole n) false false) = true -> (None : option (option (list flt))) = None /\ q' = set_run (whole n) false false) /\
      (forall res, (None : option (option (list flt))) = Some res -> exists x, inp = Some x /\ res = Some (transform x) /\ failed q' = false)).
  { intros f q0 a0 Ha ->. eexists. split; [done|]. split; [by exists f|]. done. }
  intros [f ->]. unfold fft_execute. destruct inp as [inp|].
  2: { intros [= <- <- <- <-]. eexists. split; [done|]. split; [by exists f|]. done. }
  cbn [failed set_run nfft whole pending]. destruct f; [rewrite orb_true_r; intros [= <- <- <- <-]; eexists; split; [done|]; split; [by exists true|done]|].
  destruct (_ || _); [intros [= <- <- <- <-]; by apply (G false)|].
  destruct (_ && _); [intros [= <- <- <- <-]; by apply (G false)|].
  destruct (_ || _); [intros [= <- <- <- <-]; by apply (G true)|].
  destruct (x_append e); [|intros [= <- <- <- <-]; by apply (G true)]. cbn [negb].
  destruct (_ || _); [intros [= <- <- <- <-]; by apply (G true)|].
  pose proof (commands_transform inp m.2) as Hc. cbv zeta in Hc. cbn [app fst snd].
  generalize dependent (fold_left (run_command transform)
    [CopyIn; Barrier Buffer STAGE_TRANSFER TRANSFER_WRITE STAGE_COMPUTE_SHADER [SHADER_READ; SHADER_WRITE]; Transform;
     Barrier Buffer STAGE_COMPUTE_SHADER SHADER_WRITE STAGE_TRANSFER [TRANSFER_READ]; CopyOut;
     Barrier Staging STAGE_TRANSFER TRANSFER_WRITE STAGE_HOST [HOST_READ]] (mk_memories (settled (Some inp)) (settled m.2))). intros mem Hc.
  unfold complete_submission. cbn [pending set_run negb failed].
  destruct (x_wait e); cbn [mbind option_bind Z.ltb Z.compare];
    [|intros [= <- <- <- <-]; by apply (G true)|
      destruct (wait_idle (x_idle e)); [|done]; cbn [mbind option_bind Z.ltb Z.compare]; intros [= <- <- <- <-]; by apply (G true)].
  intros [= <- <- <- <-]. eexists. split; [done|]. split; [by exists false|]. split_and!; [done|done|]. intros res [= <-]. by exists inp.
Qed.

(** Transforms one after the other: inputs with what Vulkan answers; the results, and the plan. *)
Fixpoint executes (p : option fft_plan) (m : option (list flt) * option (list flt)) (runs : list (exec_env * option (list flt) * bool * Z))
    : option (list (option (option (list flt))) * option fft_plan * list act) :=
  match runs with
  | [] => Some ([], p, [])
  | (e, inp, out, apart) :: runs =>
      '(r, p, m, a) ← fft_execute transform e p inp out apart m;
      '(rs, p, b) ← executes p m runs;
      Some (r :: rs, p, a ++ b)
  end.

(** Right results: none, or the transform of the input, with defined contents. *)
Fixpoint right_results (rs : list (option (option (list flt)))) (runs : list (exec_env * option (list flt) * bool * Z)) : Prop :=
  match rs, runs with
  | [], [] => True
  | r :: rs, (_, inp, _, _) :: runs => (r = None \/ exists x, inp = Some x /\ r = Some (Some (transform x))) /\ right_results rs runs
  | _, _ => False
  end.
Lemma executes_right n runs : forall p m rs q a, rests n p -> executes (Some p) m runs = Some (rs, q, a) ->
  exists q', q = Some q' /\ rests n q' /\ performs a (mk_held all_held false) = Some (mk_held all_held false) /\ right_results rs runs /\
  (failed p = true -> Forall (eq None) rs).
Proof.
  induction runs as [|[[[e inp] out] apart] runs IH]; intros p m rs q a Hp; cbn [executes].
  { intros [= <- <- <-]. exists p. split_and!; auto; done. }
  destruct (fft_execute transform e (Some p) inp out apart m) as [[[[r p1] m1] a1]|] eqn:E; [|done]. cbn [mbind option_bind].
  destruct (execute_step n _ _ _ _ _ _ _ _ _ _ Hp E) as (p1' & -> & H1 & H2 & H3 & H4).
  destruct (executes (Some p1') m1 runs) as [[[rs1 p2] a2]|] eqn:E2; [|done]. cbn [mbind option_bind]. intros [= <- <- <-].
  destruct (IH _ _ _ _ _ H1 E2) as (q' & -> & H5 & H6 & H7 & H8). exists q'. split_and!; auto.
  - by eapply performs_step.
  - split; [|done]. destruct r as [res|]; [|by left]. right. destruct (H4 res eq_refl) as (x & -> & -> & _). by exists x.
  - intros Hf. destruct (H3 Hf) as [-> ->]. constructor; auto.
Qed.
End Execute.

Lemma destroy_releases n waits idles p d : rests n p -> fft_plan_destroy waits idles (Some p) = Some d ->
  performs d (mk_held all_held false) = Some nothing.
Proof.
  intros [f ->]. unfold fft_plan_destroy, complete_submission. cbn [pending set_run negb mbind option_bind app]. intros [= <-].
  by destruct f.
Qed.

(** C37.  Whatever Vulkan, VkFFT and the C library answer, as long as [initializeVkFFT] does not
    fail with an upload of its own pending: a plan that cannot be made leaves
    nothing behind; one that is made holds all its objects, every transform that succeeds
    returns the transform of its input, read where the barriers made it visible, and destroying
    the plan behind any number of transforms, failed ones included, releases everything, if the
    waits for the device end.  At no time is an object released twice, before
    what depends on it, or, for the objects of the device, while the device is at work. *)
Theorem vk_plan_life transform enumeration properties2 subset n e :
  e_init e <> InitPending ->
  match fft_plan_create enumeration properties2 subset n e with
  | (None, acts) => performs acts nothing = Some nothing
  | (Some p, acts) =>
      performs acts nothing = Some (mk_held all_held false) /\
      forall m runs rs q used waits idles d,
        executes transform (Some p) m runs = Some (rs, q, used) -> fft_plan_destroy waits idles q = Some d ->
        right_results transform rs runs /\ performs (acts ++ used ++ d) nothing = Some nothing
  end.
Proof.
  intros Hi. pose proof (create_made enumeration properties2 subset n e Hi) as H. unfold made in H.
  destruct (fft_plan_create enumeration properties2 subset n e) as [[p|] acts]; [|exact H]. cbn [fst snd] in H. destruct H as [-> Ha].
  split; [done|]. intros m runs rs q used waits idles d Hx Hd.
  destruct (executes_right transform n runs (whole n) m rs q used) as (q' & -> & Hq & Hu & Hr & _); [by exists false|done|]. split; [done|].
  eapply performs_step; [exact Ha|]. eapply performs_step; [exact Hu|]. by eapply destroy_releases.
Qed.

(** One working device; a transform that succeeds, one on a lost device, one behind it. *)
Definition demo_ext : ext_env := mk_ext true true (Some []).
Definition demo_physical : physical_env := mk_physical demo_ext [1; 6] true [mk_family 1 1 true; mk_family 2 2 true].
Definition demo_buffer : buffer_env := mk_buffer true 3 true true.
Definition demo_env (i : vkfft_init) : env :=
  mk_env true true demo_ext demo_ext true 1 true (Some [demo_physical]) true true true demo_buffer demo_buffer true true true true i.
Definition demo_runs : list (exec_env * option (list flt) * bool * Z) :=
  [(mk_exec true true true true true true VkSuccess [], Some [f_zero], true, 0);
   (mk_exec true true true true true true VkDeviceLost [], Some [f_zero], true, 0);
   (mk_exec true true true true true true VkSuccess [], Some [f_zero], true, 0)].
Lemma vk_plan_life_witness :
  (fft_plan_create [1] [2] [3] 1024 (demo_env InitSuccess)).1 = Some (whole 1024) /\
  right_results id [Some (Some [f_zero]); None; None] demo_runs.
Proof.
  split; [reflexivity|]. pose proof (vk_plan_life id [1] [2] [3] 1024 (demo_env InitSuccess)) as H. cbn in H. destruct H as [_ H]; [done|].
  eapply (H (None, None) demo_runs _ _ _ VkSuccess []); reflexivity.
Defined.

(** Where [initializeVkFFT] fails with an upload pending, the objects of the device are released
    while it is at work. *)
Lemma upload_pending : let r := fft_plan_create [1] [2] [3] 1024 (demo_env InitPending) in
  r.1 = None /\ performs r.2 nothing = None.
Proof. split; reflexivity. Qed.

(** Without the barrier behind the transform what is read back is undefined. *)
Lemma barrier_needed inp :
  let r := fold_left (run_command id)
    [CopyIn; Barrier Buffer STAGE_TRANSFER TRANSFER_WRITE STAGE_COMPUTE_SHADER [SHADER_READ; SHADER_WRITE]; Transform; CopyOut;
     Barrier Staging STAGE_TRANSFER TRANSFER_WRITE STAGE_HOST [HOST_READ]] (mk_memories (settled (Some inp)) (settled None)) in
  get (STAGE_HOST, HOST_READ) (m_staging r) = None.
Proof. reflexivity. Qed.

End FftVkProps.
