(* ===== verification/RtlPower.v ===== *)
(** * The spectrum logger ([src/src/rtl_power.c])

    [Module Power]: the fixed point transform with its table, the windows, the plan of the
    frequency hops, the decimation of a buffer of samples and its accumulation, and the row that
    is logged for a hop.  As in [RtlFm.v] arrays are lists of values of their width and routines
    work in place; an array from an offset on is the array and the offset.  What the dongle
    delivers for a hop is an argument, the functions of the C library are [Libm] and [pow]. *)

From S2P Require Import Prelude Float Convenience RtlFm.

Module Power.

Abbreviation DEFAULT_BUF_LENGTH := (16384)%Z (only parsing).
Abbreviation BUFFER_DUMP := (4096)%Z (only parsing).
Abbreviation MAXIMUM_RATE := (2800000)%Z (only parsing).
Abbreviation MINIMUM_RATE := (1000000)%Z (only parsing).
Abbreviation MAX_TUNES := (3000)%Z (only parsing).

(** ** The transform *)

Section Table.
Context `{Libm}.
(** [Sinewave] for [1 << size] points, three quarters of a turn. *)
Definition sine_table (size : Z) : list Z :=
  let n := 1 <<' size in
  (fun i => s16 (f_round (f64_mul (f64_of_Z 32767) (sin (f64_div (f64_mul (f64_mul (f64_of_Z i) (f64_of_Z 2)) M_PI) (f64_of_Z n))))))
    <$> seqZ 0 (Z.quot (n * 3) 4).
End Table.

Definition FIX_MPY (a b : Z) : Z :=
  let c := (a * b) >>' 14 in
  let b := s16 (c &' 0x01) in
  s16 ((c >>' 1) + b).

(** The [do] loop: the first half of [l] that can be added to [mr]; [fuel] bounds its rounds. *)
Fixpoint half_until (fuel : nat) (l mr nn : Z) : Z :=
  match fuel with
  | O => l
  | S fuel => let l := l >>' 1 in if nn <? mr + l then half_until fuel l mr nn else l
  end.

(** Samples [m] and [mr] change places. *)
Definition swap_samples (off m mr : Z) (iq : list Z) : list Z :=
  let tr := rd iq (off + 2 * m) in
  let iq := wr iq (off + 2 * m) (rd iq (off + 2 * mr)) in
  let iq := wr iq (off + 2 * mr) tr in
  let ti := rd iq (off + (2 * m + 1)) in
  let iq := wr iq (off + (2 * m + 1)) (rd iq (off + (2 * mr + 1))) in
  wr iq (off + (2 * mr + 1)) ti.

(** The loop that puts the samples in order, from [m] on; [rounds] are those left. *)
Fixpoint reorder (rounds : nat) (off n m mr : Z) (iq : list Z) : list Z :=
  match rounds with
  | O => iq
  | S rounds =>
      let l := half_until (Z.to_nat n) n mr (n - 1) in
      let mr := (mr &' (l - 1)) + l in
      reorder rounds off n (m + 1) mr (if mr <=? m then iq else swap_samples off m mr iq)
  end.

(** One butterfly; samples are pairs. *)
Definition butterfly (wr_ wi : Z) (q s : Z * Z) : (Z * Z) * (Z * Z) :=
  let tr := s16 (FIX_MPY wr_ s.1 - FIX_MPY wi s.2) in
  let ti := s16 (FIX_MPY wr_ s.2 + FIX_MPY wi s.1) in
  let qr := q.1 >>' 1 in
  let qi := q.2 >>' 1 in
  ((s16 (qr + tr), s16 (qi + ti)), (s16 (qr - tr), s16 (qi - ti))).

Definition get (off i : Z) (iq : list Z) : Z * Z := (rd iq (off + 2 * i), rd iq (off + (2 * i + 1))).
Definition put (off i : Z) (x : Z * Z) (iq : list Z) : list Z := wr (wr iq (off + 2 * i) x.1) (off + (2 * i + 1)) x.2.

(** The loop over [i]; [rounds] bounds it. *)
Fixpoint fft_i (rounds : nat) (off n l i wr_ wi : Z) (iq : list Z) : list Z :=
  match rounds with
  | O => iq
  | S rounds =>
      if negb (i <? n) then iq
      else
        let '(a, b) := butterfly wr_ wi (get off i iq) (get off (i + l) iq) in
        fft_i rounds off n l (i + (l <<' 1)) wr_ wi (put off i a (put off (i + l) b iq))
  end.
(** The factors of a column. *)
Definition twiddle (sw : list Z) (n_wave k m : Z) : Z * Z :=
  let j := m <<' k in
  (rd sw (j + Z.quot n_wave 4) >>' 1, s16 (- rd sw j) >>' 1).
Fixpoint fft_m (rounds : nat) (off n l k m : Z) (sw : list Z) (n_wave : Z) (iq : list Z) : list Z :=
  match rounds with
  | O => iq
  | S rounds =>
      let '(wr_, wi) := twiddle sw n_wave k m in
      fft_m rounds off n l k (m + 1) sw n_wave (fft_i (Z.to_nat n) off n l m wr_ wi iq)
  end.
(** The stages from [l] on. *)
Fixpoint fft_l (rounds : nat) (off n l k : Z) (sw : list Z) (n_wave : Z) (iq : list Z) : list Z :=
  match rounds with
  | O => iq
  | S rounds =>
      if negb (l <? n) then iq
      else fft_l rounds off n (l <<' 1) (k - 1) sw n_wave (fft_m (Z.to_nat l) off n l k 0 sw n_wave iq)
  end.

(** The result and the array; the table is for [1 << log2_n_wave] points. *)
Definition fix_fft (sw : list Z) (log2_n_wave off : Z) (iq : list Z) (m : Z) : Z * list Z :=
  let n_wave := 1 <<' log2_n_wave in
  let n := 1 <<' m in
  if n_wave <? n then (-1, iq)
  else
    let iq := reorder (Z.to_nat (n - 1)) off n 1 0 iq in
    (0, fft_l (Z.to_nat n) off n 1 (log2_n_wave - 1) sw n_wave iq).

(** ** Windows *)

Section Windows.
Context `{Libm} (pow : flt -> flt -> flt).

(** [M_E] as a [double]: 0x1.5BF0A8B145769p+1. *)
Definition M_E : flt := S754_finite false 6121026514868073 (-51).
Definition neg_pi_cos (c i length : Z) : flt :=
  cos (f64_div (f64_mul (f64_of_Z (s32 (c * i))) M_PI) (f64_of_Z (length - 1))).

Definition rectangle (i length : Z) : flt := f64_of_Z 1.
Definition hamming (i length : Z) : flt :=
  f64_sub (f64_lit 25 46) (f64_mul (f64_lit 21 46) (neg_pi_cos 2 i length)).
Definition blackman (i length : Z) : flt :=
  f64_add (f64_sub (f64_lit 7938 18608) (f64_mul (f64_lit 9240 18608) (neg_pi_cos 2 i length)))
    (f64_mul (f64_lit 1430 18608) (neg_pi_cos 4 i length)).
Definition blackman_harris (i length : Z) : flt :=
  f64_sub
    (f64_add (f64_sub (f64_lit 35875 100000) (f64_mul (f64_lit 48829 100000) (neg_pi_cos 2 i length)))
       (f64_mul (f64_lit 14128 100000) (neg_pi_cos 4 i length)))
    (f64_mul (f64_lit 1168 100000) (neg_pi_cos 6 i length)).
(** The exponent of the Poisson windows for [a]; [abs] of an [int]. *)
Definition poisson (a : flt) (i length : Z) : flt :=
  let n1 := f64_of_Z (length - 1) in
  let d := f64_of_Z (Z.abs (f_trunc (f64_sub (f64_sub n1 (f64_of_Z 1)) (f64_of_Z (s32 (2 * i)))))) in
  pow M_E (f64_div (f64_mul (SFopp a) d) n1).
Definition hann_poisson (i length : Z) : flt :=
  f64_mul
    (f64_mul (f64_lit 1 2)
       (f64_sub (f64_of_Z 1)
          (cos (f64_div (f64_mul (f64_mul (f64_of_Z 2) M_PI) (f64_of_Z i)) (f64_of_Z (length - 1))))))
    (poisson (f64_of_Z 2) i length).
Definition youssef (i length : Z) : flt := f64_mul (blackman_harris i length) (poisson (f64_lit 25 10000) i length).
Definition kaiser (i length : Z) : flt := f64_of_Z 1.
Definition bartlett (i length : Z) : flt :=
  let l := f64_of_Z length in
  let n1 := f64_sub l (f64_of_Z 1) in
  let w := f64_div (f64_sub (f64_of_Z i) (f64_div n1 (f64_of_Z 2))) (f64_div l (f64_of_Z 2)) in
  let w := if f_lt w f_zero then SFopp w else w in
  f64_sub (f64_of_Z 1) w.
(** [window_coefs]. *)
Definition window_coefs (window_fn : Z -> Z -> flt) (length : Z) : list Z :=
  (fun i => s32 (f_trunc (f64_mul (f64_of_Z 256) (window_fn i length)))) <$> seqZ 0 length.
End Windows.

(** ** The plan *)

Record tuning_state := mk_ts {
  freq : Z;
  rate : Z;
  bin_e : Z;
  avg : list Z;
  samples : Z;
  downsample : Z;
  downsample_passes : Z;
  crop : flt;
  buf8 : list Z;
  buf_len : Z;
}.
Definition set_avg (a : list Z) (n : Z) (t : tuning_state) : tuning_state :=
  mk_ts (freq t) (rate t) (bin_e t) a n (downsample t) (downsample_passes t) (crop t) (buf8 t) (buf_len t).
Definition set_buf8 (b : list Z) (t : tuning_state) : tuning_state :=
  mk_ts (freq t) (rate t) (bin_e t) (avg t) (samples t) (downsample t) (downsample_passes t) (crop t) b (buf_len t).

(** How planning ends: the hops, [exit(1)], or undefined behaviour (a division by zero). *)
Inductive plan :=
  | Plan (tunes : list tuning_state)
  | Exit
  | Fault.

(** [(int)((double)bw / (1.0 - crop))]. *)
Definition uncropped (bw : Z) (crop : flt) : Z := s32 (f_trunc (f64_div (f64_of_Z bw) (f64_sub (f64_of_Z 1) crop))).

(** The loop over the number of ranges: [tune_count], [bw_seen] and [bw_used] after it.  The
    first argument is the number of rounds left, the last ones the values before it. *)
Fixpoint ranges_loop (n : nat) (i width : Z) (crop : flt) (tune_count bw_seen bw_used : Z) : Z * Z * Z :=
  match n with
  | O => (tune_count, bw_seen, bw_used)
  | S n =>
      let bw_seen := Z.quot width i in
      let bw_used := uncropped bw_seen crop in
      if MAXIMUM_RATE <? bw_used then ranges_loop n (i + 1) width crop tune_count bw_seen bw_used
      else (i, bw_seen, bw_used)
  end.

(** The loop over the number of bins: [bin_e] after it. *)
Fixpoint bins_loop (n : nat) (i downsample max_size bw_used bin_e : Z) : Z :=
  match n with
  | O => bin_e
  | S n =>
      let bin_size := f64_div (f64_of_Z bw_used) (f64_of_Z (s32 ((1 <<' i) * downsample))) in
      if f_le bin_size (f64_of_Z max_size) then i else bins_loop n (i + 1) downsample max_size bw_used i
  end.

(** One hop. *)
Definition hop (lower bw_seen bw_used bin_e downsample passes buf_len : Z) (crop : flt) (buf : list Z) (i : Z) : tuning_state :=
  mk_ts (s32 (lower + i * bw_seen + Z.quot bw_seen 2)) bw_used bin_e (replicate (Z.to_nat (1 <<' bin_e)) 0) 0 downsample passes crop
    buf buf_len.

Section Plan.
Context (log2 : flt -> flt).

(** From the numbers of the option on; [buf] is what a fresh buffer of a length holds. *)
Definition make_tunes (boxcar : bool) (crop : flt) (lower upper max_size : Z) (buf : Z -> list Z) : plan :=
  let width := s32 (upper - lower) in
  let '(tune_count, bw_seen, bw_used) := ranges_loop 1499 1 width crop 0 0 0 in
  if (bw_used <? MINIMUM_RATE) && (bw_used =? 0) then Fault
  else
    let '(tune_count, downsample, bw_used) :=
      if bw_used <? MINIMUM_RATE
      then (1, Z.quot MAXIMUM_RATE bw_used, s32 (bw_used * Z.quot MAXIMUM_RATE bw_used))
      else (tune_count, 1, bw_used) in
    let '(passes, downsample, bw_used) :=
      if negb boxcar && (1 <? downsample)
      then
        let passes := f_trunc (log2 (f64_of_Z downsample)) in
        let downsample := 1 <<' passes in
        (passes, downsample, uncropped (s32 (bw_seen * downsample)) crop)
      else (0, downsample, bw_used) in
    let bin_e := bins_loop 21 1 downsample max_size bw_used 0 in
    let '(bw_seen, bw_used, tune_count, bin_e, crop) :=
      if MINIMUM_RATE <=? max_size then (max_size, max_size, Z.quot width max_size, 0, f_zero)
      else (bw_seen, bw_used, tune_count, bin_e, crop) in
    if MAX_TUNES <? tune_count then Exit
    else
      let buf_len := s32 (2 * (1 <<' bin_e) * downsample) in
      let buf_len := if buf_len <? DEFAULT_BUF_LENGTH then DEFAULT_BUF_LENGTH else buf_len in
      Plan (hop lower bw_seen bw_used bin_e downsample passes buf_len crop (buf buf_len) <$> seqZ 0 tune_count).

(** The fields of the option are separated by colons. *)
Fixpoint split_colon (l : list Z) : option (list Z * list Z) :=
  match l with
  | [] => None
  | c :: l => if c =? 58 then Some ([], l) else '(a, b) ← split_colon l; Some (c :: a, b)
  end.
(** A field that is empty is read at the character before it. *)
Definition frequency_range (atof : list Z -> flt) (boxcar : bool) (arg : list Z) (crop : flt) (buf : Z -> list Z) : plan :=
  match split_colon arg with
  | None => Exit
  | Some (start, stop) =>
      match split_colon stop with
      | None => Exit
      | Some (stop, step) =>
          match Convenience.atofs atof start, Convenience.atofs atof stop, Convenience.atofs atof step with
          | Some lower, Some upper, Some max_size =>
              make_tunes boxcar crop (s32 (f_trunc lower)) (s32 (f_trunc upper)) (s32 (f_trunc max_size)) buf
          | _, _, _ => Fault
          end
      end
  end.
End Plan.

(** ** A buffer of samples *)

(** [t] and [p] of the bytes. *)
Definition power_sums (buf : list Z) : Z * Z :=
  foldl (fun '(t, p) b => let s := b - 127 in (s64 (t + s), s64 (p + s * s))) (0, 0) buf.
Definition rms_power (peak_hold : bool) (ts : tuning_state) : tuning_state :=
  let '(t, p) := power_sums (take (Z.to_nat (buf_len ts)) (buf8 ts)) in
  let dc := f64_div (f64_of_Z t) (f64_of_Z (buf_len ts)) in
  let err := f64_sub (f64_mul (f64_of_Z (t * 2)) dc) (f64_mul (f64_mul dc dc) (f64_of_Z (buf_len ts))) in
  let p := s64 (p - s64 (f_round err)) in
  set_avg (wr (avg ts) 0 (if peak_hold then Z.max (rd (avg ts) 0) p else s64 (rd (avg ts) 0 + p))) (s32 (samples ts + 1)) ts.

(** The values [c], [d], [e], [f] of the round before become [a], [b], [c], [d]. *)
Fixpoint fifth_loop (n : nat) (off i length a b c d : Z) (data : list Z) : list Z :=
  match n with
  | O => data
  | S n =>
      if negb (i <? length) then data
      else
        let e := rd data (off + (i - 2)) in
        let f := rd data (off + i) in
        fifth_loop n off (i + 4) length c d e f (wr data (off + Z.quot i 2) (s16 ((a + (b + e) * 5 + (c + d) * 10 + f) >>' 4)))
  end.
Definition fifth_order (off length : Z) (data : list Z) : list Z :=
  let a := rd data off in
  let b := rd data (off + 2) in
  let c := rd data (off + 4) in
  let d := rd data (off + 6) in
  let e := rd data (off + 8) in
  let f := rd data (off + 10) in
  let data := wr data off (s16 (((a + b) * 10 + (c + d) * 5 + d + f) >>' 4)) in
  let data := wr data (off + 2) (s16 (((b + c) * 10 + (a + d) * 5 + e + f) >>' 4)) in
  let data := wr data (off + 4) (s16 ((a + (b + e) * 5 + (c + d) * 10 + f) >>' 4)) in
  fifth_loop (Z.to_nat length) off 12 length c d e f data.
Definition downsample_iq (length : Z) (data : list Z) : list Z := fifth_order 1 (length - 1) (fifth_order 0 length data).

(** Both loops over every other value. *)
Fixpoint sum_loop (n : nat) (off i length : Z) (data : list Z) (sum : Z) : Z :=
  match n with
  | O => sum
  | S n => if negb (i <? length) then sum else sum_loop n off (i + 2) length data (s64 (sum + rd data (off + i)))
  end.
Fixpoint sub_loop (n : nat) (off i length ave : Z) (data : list Z) : list Z :=
  match n with
  | O => data
  | S n =>
      if negb (i <? length) then data
      else sub_loop n off (i + 2) length ave (wr data (off + i) (s16 (rd data (off + i) - ave)))
  end.
Definition remove_dc (off length : Z) (data : list Z) : list Z :=
  let sum := sum_loop (Z.to_nat length) off 0 length data 0 in
  let ave := s16 (Z.quot sum length) in
  if ave =? 0 then data else sub_loop (Z.to_nat length) off 0 length ave data.

(** The loop is that of [rtl_fm.c], after nine values that are not filtered. *)
Definition generic_fir (off length : Z) (fir data : list Z) : list Z :=
  let hist := (fun k => rd data (off + 2 * k)) <$> seqZ 0 9 in
  (Fm.fir_loop (Z.to_nat length) off 18 length fir hist data).2.

Definition real_conj (real imag : Z) : Z := s64 (real * real + imag * imag).

(** The square window, in place. *)
Fixpoint boxcar_loop (n : nat) (j j2 ds buf_len : Z) (buf : list Z) : list Z :=
  match n with
  | O => buf
  | S n =>
      if negb (j <? buf_len) then buf
      else
        let buf := wr buf j2 (s16 (rd buf j2 + rd buf j)) in
        let buf := wr buf (j2 + 1) (s16 (rd buf (j2 + 1) + rd buf (j + 1))) in
        let buf := wr (wr buf j 0) (j + 1) 0 in
        boxcar_loop n (j + 2) (if Z.rem (j + 2) (ds * 2) =? 0 then j2 + 2 else j2) ds buf_len buf
  end.
Fixpoint passes_loop (n : nat) (j buf_len : Z) (buf : list Z) : list Z :=
  match n with O => buf | S n => passes_loop n (j + 1) buf_len (downsample_iq (buf_len >>' j) buf) end.

(** The decimation of a buffer. *)
Definition decimate (boxcar : bool) (comp_fir_size ds ds_p buf_len : Z) (buf : list Z) : list Z :=
  if boxcar && (1 <? ds) then boxcar_loop (Z.to_nat buf_len) 2 0 ds buf_len buf
  else if negb (ds_p =? 0) then
    let buf := passes_loop (Z.to_nat ds_p) 0 buf_len buf in
    if (comp_fir_size =? 9) && (ds_p <=? Fm.CIC_TABLE_MAX) then
      let fir := default [] (Fm.cic_9_tables !! Z.to_nat ds_p) in
      generic_fir 1 ((buf_len >>' ds_p) - 1) fir (generic_fir 0 (buf_len >>' ds_p) fir buf)
    else buf
  else buf.

(** The window over a block. *)
Fixpoint window_loop (n : nat) (off j : Z) (coefs buf : list Z) : list Z :=
  match n with
  | O => buf
  | S n =>
      let w := s32 (rd buf (off + j * 2) * rd coefs j) in
      let buf := wr buf (off + j * 2) (s16 w) in
      let w := s32 (rd buf (off + j * 2 + 1) * rd coefs j) in
      window_loop n off (j + 1) coefs (wr buf (off + j * 2 + 1) (s16 w))
  end.
(** The powers of a block go to [avg]. *)
Fixpoint avg_loop (n : nat) (peak_hold : bool) (off j : Z) (buf avg : list Z) : list Z :=
  match n with
  | O => avg
  | S n =>
      let p := real_conj (rd buf (off + j * 2)) (rd buf (off + j * 2 + 1)) in
      avg_loop n peak_hold off (j + 1) buf (wr avg j (if peak_hold then Z.max p (rd avg j) else s64 (rd avg j + p)))
  end.

(** What the scan does not change. *)
Record setup := mk_setup {
  boxcar : bool;
  comp_fir_size : Z;
  peak_hold : bool;
  window : list Z;
  Sinewave : list Z;
  LOG2_N_WAVE : Z;
}.

(** The blocks of the decimated buffer from [offset] on. *)
Fixpoint blocks_loop (n : nat) (s : setup) (offset limit bin_e : Z) (buf : list Z) (ts : tuning_state) : list Z * tuning_state :=
  match n with
  | O => (buf, ts)
  | S n =>
      if negb (offset <? limit) then (buf, ts)
      else
        let bin_len := 1 <<' bin_e in
        let buf := window_loop (Z.to_nat bin_len) offset 0 (window s) buf in
        let buf := (fix_fft (Sinewave s) (LOG2_N_WAVE s) offset buf bin_e).2 in
        let a := avg_loop (Z.to_nat bin_len) (peak_hold s) offset 0 buf (avg ts) in
        blocks_loop n s (offset + 2 * bin_len) limit bin_e buf (set_avg a (s32 (samples ts + downsample ts)) ts)
  end.

(** A hop whose samples have been read; [fft_buf] is shared by the hops. *)
Definition scan_hop (s : setup) (bin_e buf_len : Z) (fft_buf : list Z) (ts : tuning_state) : list Z * tuning_state :=
  if (1 <<' bin_e) =? 1 then (fft_buf, rms_power (peak_hold s) ts)
  else
    let fft_buf := blit fft_buf 0 ((fun b => s16 (b - 127)) <$> take (Z.to_nat buf_len) (buf8 ts)) in
    let ds := downsample ts in
    let fft_buf := decimate (boxcar s) (comp_fir_size s) ds (downsample_passes ts) buf_len fft_buf in
    let fft_buf := remove_dc 0 (Z.quot buf_len ds) fft_buf in
    let fft_buf := remove_dc 1 (Z.quot buf_len ds - 1) fft_buf in
    blocks_loop (Z.to_nat buf_len) s 0 (Z.quot buf_len ds) bin_e fft_buf ts.

(** ** The scan

    The device: its frequency, changing it, and reading a number of bytes; [do_exit] may be set
    before any hop. *)
Section Scan.
Context {D : Type} (get_center_freq : D -> Z) (set_center_freq : Z -> D -> D) (read_sync : Z -> D -> list Z * D) (do_exit : D -> bool).

Definition retune (f : Z) (d : D) : D := (read_sync BUFFER_DUMP (set_center_freq (u32 f) d)).2.

Fixpoint scan_loop (s : setup) (bin_e buf_len : Z) (fft_buf : list Z) (todo : list tuning_state) (d : D)
    : list Z * list tuning_state * D :=
  match todo with
  | [] => (fft_buf, [], d)
  | ts :: todo' =>
      if do_exit d then (fft_buf, todo, d)
      else
        let d := if s32 (get_center_freq d) =? freq ts then d else retune (freq ts) d in
        let '(got, d) := read_sync buf_len d in
        let ts := set_buf8 (blit (buf8 ts) 0 got) ts in
        let '(fft_buf, ts) := scan_hop s bin_e buf_len fft_buf ts in
        let '(fft_buf, done_, d) := scan_loop s bin_e buf_len fft_buf todo' d in
        (fft_buf, ts :: done_, d)
  end.
Definition scanner (s : setup) (fft_buf : list Z) (tunes : list tuning_state) (d : D) : list Z * list tuning_state * D :=
  match tunes with
  | [] => (fft_buf, tunes, d)
  | t0 :: _ => scan_loop s (bin_e t0) (buf_len t0) fft_buf tunes d
  end.
End Scan.

(** ** The log *)

(** The fields of a row; [dbm] includes the value that ends the line. *)
Record row := mk_row {
  hz_low : Z;
  hz_high : Z;
  hz_step : flt;
  row_samples : Z;
  dbm : list flt;
}.

(** The first half and the second half change places. *)
Fixpoint swap_loop (n : nat) (i half : Z) (a : list Z) : list Z :=
  match n with
  | O => a
  | S n => swap_loop n (i + 1) half (wr (wr a i (rd a (i + half))) (i + half) (rd a i))
  end.

Section Log.
Context `{Libm}.

Definition decibel (x : flt) : flt := f64_mul (f64_of_Z 10) (log10 x).
Definition csv_dbm (ts : tuning_state) : row * tuning_state :=
  let len := 1 <<' bin_e ts in
  let a :=
    if 0 <? bin_e ts
    then swap_loop (Z.to_nat (Z.quot len 2)) 0 (Z.quot len 2) (wr (avg ts) 0 (rd (avg ts) 1))
    else avg ts in
  let bin_count := s32 (f_trunc (f64_mul (f64_of_Z len) (f64_sub (f64_of_Z 1) (crop ts)))) in
  let bw2 := s32 (f_trunc (f64_div (f64_mul (f64_of_Z (rate ts)) (f64_of_Z bin_count)) (f64_of_Z (s32 (len * 2 * downsample ts))))) in
  let cut := s32 (f_trunc (f64_mul (f64_mul (f64_of_Z len) (crop ts)) (f64_lit 1 2))) in
  let i1 := 0 + cut in
  let i2 := (len - 1) - cut in
  let one i := decibel (f64_div (f64_div (f64_of_Z (rd a i)) (f64_of_Z (rate ts))) (f64_of_Z (samples ts))) in
  let last i := decibel (f64_div (f64_of_Z (rd a i)) (f64_mul (f64_of_Z (rate ts)) (f64_of_Z (samples ts)))) in
  (mk_row (s32 (freq ts - bw2)) (s32 (freq ts + bw2)) (f64_div (f64_of_Z (rate ts)) (f64_of_Z (s32 (len * downsample ts))))
     (samples ts)
     ((one <$> seqZ i1 (i2 - i1 + 1)) ++ [last (if bin_e ts =? 0 then 0 else i2)]),
   set_avg (replicate (Z.to_nat len) 0) 0 ts).
End Log.

End Power.
