(* ===== verification/RtlPowerProps.v ===== *)
(** * The spectrum logger: what its routines compute

    [Fft]: the transform in place is the recursive one that splits a signal into its even and
    odd samples, with the same fixed point butterfly at every node.  [PowerFacts]: samples at full
    scale and offsets.  [PowerPlan]: what the hops of a plan cover. *)

From S2P Require Import Prelude Float FloatFacts Radix2 Convenience RtlFm RtlPower.

Module Fft.
Import Power Radix2.

(** The [do] loop ends at the bit that changes: it counts with the bits reversed. *)
Lemma half_until_rev k : forall fuel x h, (k <= fuel)%nat -> 0 <= x -> x + 1 < 2 ^ Z.of_nat k ->
  exists j, (j < k)%nat /\ half_until fuel (2 ^ Z.of_nat k) (h + bitrev k x) (h + 2 ^ Z.of_nat k - 1) = 2 ^ Z.of_nat j /\
    bitrev k x mod 2 ^ Z.of_nat j + 2 ^ Z.of_nat j = bitrev k (x + 1).
Proof.
  induction k as [|k IH]; intros fuel x h Hf H0 Hx; [cbn in Hx; lia|]. destruct fuel as [|fuel]; [lia|].
  cbn [half_until]. rewrite Z.shiftr_div_pow2 by lia. rewrite pow2_S in *. pose proof (pow2_pos k) as Hp.
  replace (2 * 2 ^ Z.of_nat k / 2 ^ 1) with (2 ^ Z.of_nat k) by (change (2 ^ 1) with 2; Z.div_mod_to_equations; lia).
  destruct (Z.Even_or_Odd x) as [[y ->]|[y ->]].
  - pose proof (bitrev_range k y). rewrite bitrev_even, bitrev_odd.
    destruct (Z.ltb_spec (h + 2 * 2 ^ Z.of_nat k - 1) (h + bitrev k y + 2 ^ Z.of_nat k)); [lia|].
    exists k. split; [lia|]. split; [done|]. rewrite Z.mod_small by lia. lia.
  - pose proof (bitrev_range k y). rewrite bitrev_odd. replace (2 * y + 1 + 1) with (2 * (y + 1)) by lia. rewrite bitrev_even.
    destruct (Z.ltb_spec (h + 2 * 2 ^ Z.of_nat k - 1) (h + (2 ^ Z.of_nat k + bitrev k y) + 2 ^ Z.of_nat k)); [|lia].
    destruct (IH fuel y (h + 2 ^ Z.of_nat k)) as (j & Hj & E & V); [lia|lia|lia|]. exists j. split; [lia|]. split.
    + rewrite <- E. f_equal; lia.
    + rewrite <- V. f_equal. replace (Z.of_nat k) with (Z.of_nat (k - j) + Z.of_nat j) by lia.
      rewrite Z.pow_add_r, Z.add_comm by lia. apply Z.mod_add. pose proof (pow2_pos j). lia.
Qed.
Lemma reversed_count k x : 0 <= x -> x + 1 < 2 ^ Z.of_nat k ->
  let l := half_until (Z.to_nat (2 ^ Z.of_nat k)) (2 ^ Z.of_nat k) (bitrev k x) (2 ^ Z.of_nat k - 1) in
  (bitrev k x &' (l - 1)) + l = bitrev k (x + 1).
Proof.
  intros H0 Hx. destruct (half_until_rev k (Z.to_nat (2 ^ Z.of_nat k)) x 0) as (j & Hj & E & V); [|done|done|].
  { pose proof (Z.pow_gt_lin_r 2 (Z.of_nat k)). lia. }
  cbn zeta. rewrite !Z.add_0_l in E. rewrite E, <- V. f_equal.
  rewrite <- Z.land_ones by lia. by rewrite Z.ones_equiv, <- Z.sub_1_r.
Qed.

(** ** Samples *)

(** Sample [i] is in the array. *)
Definition inside (off i : Z) (iq : list Z) : Prop := 0 <= off /\ 0 <= i /\ off + (2 * i + 1) < zlen iq.

Lemma get_put_eq off i x iq : inside off i iq -> get off i (put off i x iq) = x.
Proof.
  intros (? & ? & ?). unfold get, put. rewrite (rd_wr_ne _ (off + (2 * i + 1))), !rd_wr_eq by (rewrite ?zlen_wr; lia).
  by destruct x.
Qed.
Lemma get_put_ne off i j x iq : 0 <= off -> 0 <= i -> 0 <= j -> i <> j -> get off j (put off i x iq) = get off j iq.
Proof. intros. unfold get, put. by rewrite !rd_wr_ne by lia. Qed.
Lemma zlen_put off i x iq : zlen (put off i x iq) = zlen iq.
Proof. unfold put. by rewrite !zlen_wr. Qed.
Lemma rd_put off i x iq k : 0 <= off -> 0 <= i -> 0 <= k -> k < off + 2 * i \/ off + 2 * i + 1 < k -> rd (put off i x iq) k = rd iq k.
Proof. intros. unfold put. by rewrite !rd_wr_ne by lia. Qed.

Lemma swap_samples_put off m mr iq : inside off m iq -> inside off mr iq -> m <> mr ->
  forall k, 0 <= k -> rd (swap_samples off m mr iq) k = rd (put off mr (get off m iq) (put off m (get off mr iq) iq)) k.
Proof.
  intros (? & ? & ?) (_ & ? & ?) ? k Hk. unfold swap_samples, put, get. cbn [fst snd]. cbn zeta.
  rewrite !(rd_wr_ne _ _ (off + (2 * m + 1))), !(rd_wr_ne _ _ (off + (2 * mr + 1))) by lia.
  destruct (decide (k = off + (2 * mr + 1))) as [->|]; [by rewrite !rd_wr_eq by (rewrite ?zlen_wr; lia)|].
  destruct (decide (k = off + (2 * m + 1))) as [->|];
    [|destruct (decide (k = off + 2 * mr)) as [->|]; [|destruct (decide (k = off + 2 * m)) as [->|]]];
    repeat first [rewrite rd_wr_eq by (rewrite ?zlen_wr; lia) | rewrite rd_wr_ne by lia]; done.
Qed.

Lemma zlen_swap off m mr iq : zlen (swap_samples off m mr iq) = zlen iq.
Proof. unfold swap_samples. by rewrite !zlen_wr. Qed.
Lemma get_swap off m mr iq j : inside off m iq -> inside off mr iq -> m <> mr -> 0 <= j ->
  get off j (swap_samples off m mr iq) =
  if j =? m then get off mr iq else if j =? mr then get off m iq else get off j iq.
Proof.
  intros Hm Hr Hne Hj. pose proof Hm as (? & ? & ?). pose proof Hr as (_ & ? & ?).
  transitivity (get off j (put off mr (get off m iq) (put off m (get off mr iq) iq))).
  { unfold get at 1. rewrite !swap_samples_put by (try done; lia). done. }
  destruct (Z.eqb_spec j m) as [->|].
  - rewrite get_put_ne, get_put_eq by (try done; lia). done.
  - destruct (Z.eqb_spec j mr) as [->|]; [|by rewrite !get_put_ne by lia].
    apply get_put_eq. unfold inside. rewrite zlen_put. lia.
Qed.

(** A routine on [n] samples from [off] on leaves the rest of the array alone. *)
Definition frame (off n : Z) (iq iq' : list Z) : Prop :=
  zlen iq' = zlen iq /\ forall k, 0 <= k -> k < off \/ off + 2 * n <= k -> rd iq' k = rd iq k.
Lemma frame_refl off n iq : frame off n iq iq.
Proof. done. Qed.
Lemma frame_trans off n a b c : frame off n a b -> frame off n b c -> frame off n a c.
Proof. intros [Hl Hr] [Hl' Hr']. split; [lia|]. intros. rewrite Hr' by done. by apply Hr. Qed.
Lemma frame_put off n i x iq : 0 <= off -> 0 <= i < n -> frame off n iq (put off i x iq).
Proof. intros. split; [apply zlen_put|]. intros. apply rd_put; lia. Qed.
Lemma frame_swap off n m mr iq : 0 <= off -> off + 2 * n <= zlen iq -> 0 <= m < n -> 0 <= mr < n -> m <> mr ->
  frame off n iq (swap_samples off m mr iq).
Proof.
  intros. split; [apply zlen_swap|]. intros k Hk Ho. rewrite swap_samples_put by (unfold inside; lia). by rewrite !rd_put by lia.
Qed.

Lemma reorder_loop k off iq0 : 0 <= off -> off + 2 * 2 ^ Z.of_nat k <= zlen iq0 -> forall rounds m iq,
  0 <= m -> m + Z.of_nat rounds = 2 ^ Z.of_nat k - 1 ->
  frame off (2 ^ Z.of_nat k) iq0 iq -> reordered k m (fun i => get off i iq0) (fun i => get off i iq) ->
  let iq' := reorder rounds off (2 ^ Z.of_nat k) (m + 1) (bitrev k m) iq in
  frame off (2 ^ Z.of_nat k) iq0 iq' /\ reordered k (2 ^ Z.of_nat k - 1) (fun i => get off i iq0) (fun i => get off i iq').
Proof.
  intros Ho Hz. induction rounds as [|rounds IH]; intros m iq H0 Hm Hf Hr; cbn [reorder].
  - by replace (2 ^ Z.of_nat k - 1) with m by lia.
  - rewrite reversed_count by lia. pose proof (bitrev_range k (m + 1)). pose proof Hf as [Hl _].
    apply IH; [lia|lia| |].
    + destruct (Z.leb_spec (bitrev k (m + 1)) (m + 1)); [done|].
      apply (frame_trans _ _ _ iq); [done|]. apply frame_swap; lia.
    + apply (reorder_step k m _ (fun i => get off i iq)); [done|lia|done|]. intros i Hi.
      destruct (Z.leb_spec (bitrev k (m + 1)) (m + 1)); [done|]. apply get_swap; unfold inside; lia.
Qed.

Lemma reorder_rev k off iq : 0 <= off -> off + 2 * 2 ^ Z.of_nat k <= zlen iq ->
  let iq' := reorder (Z.to_nat (2 ^ Z.of_nat k - 1)) off (2 ^ Z.of_nat k) 1 0 iq in
  frame off (2 ^ Z.of_nat k) iq iq' /\ forall i, 0 <= i < 2 ^ Z.of_nat k -> get off i iq' = get off (bitrev k i) iq.
Proof.
  intros Ho Hz. pose proof (pow2_pos k) as Hp.
  pose proof (reorder_loop k off iq Ho Hz (Z.to_nat (2 ^ Z.of_nat k - 1)) 0 iq) as H. rewrite bitrev_0 in H.
  destruct H as [Hf Hv]; [done|lia|apply frame_refl|apply reordered_0|]. split; [done|].
  intros i Hi. by apply (reordered_all k (fun i => get off i iq) _ Hv).
Qed.

(** ** Butterflies *)

(** The butterfly with its factors as a pair. *)
Definition bfly (w : Z * Z) : Z * Z -> Z * Z -> (Z * Z) * (Z * Z) := butterfly w.1 w.2.

(** The pairs that are done in column [m] before round [i]. *)
Definition done_before (l m i p : Z) : bool := (p mod l <? m) || ((p mod l =? m) && (p <? i)).

Lemma lo_mod l p : 0 < l -> p mod (2 * l) < l -> p mod l = p mod (2 * l).
Proof. intros. destruct (mod_twice l p); lia. Qed.
Lemma step_ge L i x : 0 < L -> x mod L = i mod L -> i < x -> i + L <= x.
Proof.
  intros HL E Hx. pose proof (Z.div_mod x L ltac:(lia)). pose proof (Z.div_mod i L ltac:(lia)). rewrite E in *.
  assert (i / L < x / L) by nia. nia.
Qed.

Lemma fft_i_column off n l m tw iq0 : 0 <= off -> 0 < l -> 0 <= m < l -> n mod (2 * l) = 0 -> forall rounds i iq,
  off + 2 * n <= zlen iq -> 0 <= i -> i mod (2 * l) = m -> n <= i + Z.of_nat rounds ->
  (forall x, 0 <= x < n -> get off x iq = partial bfly l tw (done_before l m i) iq0 x) ->
  let iq' := fft_i rounds off n l i (tw m).1 (tw m).2 iq in
  frame off n iq iq' /\ forall x, 0 <= x < n -> get off x iq' = partial bfly l tw (fun p => p mod l <? m + 1) iq0 x.
Proof.
  intros Ho Hl Hm Hn. assert (Hend : forall i iq, n <= i ->
    (forall x, 0 <= x < n -> get off x iq = partial bfly l tw (done_before l m i) iq0 x) ->
    forall x, 0 <= x < n -> get off x iq = partial bfly l tw (fun p => p mod l <? m + 1) iq0 x).
  { intros i iq Hi Hv x Hx. rewrite Hv by done. unfold partial, done_before. pose proof (base_inside l n x Hl Hn Hx).
    replace (base l x <? i) with true by (symmetry; apply Z.ltb_lt; lia). rewrite andb_true_r.
    replace ((base l x mod l <? m) || (base l x mod l =? m)) with (base l x mod l <? m + 1); [done|]. ztests. }
  induction rounds as [|rounds IH]; intros i iq Hz Hi Him Hr Hv; cbn [fft_i].
  { split; [apply frame_refl|]. apply (Hend i); [lia|done]. }
  destruct (Z.ltb_spec i n) as [Hin|]; cbn [negb]; [|split; [apply frame_refl|]; apply (Hend i); [lia|done]].
  assert (Hil : i + l < n) by (pose proof (base_inside l n i Hl Hn ltac:(lia)); rewrite base_lo in * by lia; lia).
  rewrite Z.shiftl_mul_pow2 by lia. change (2 ^ 1) with 2. rewrite (Z.mul_comm l 2).
  change (butterfly (tw m).1 (tw m).2) with (bfly (tw m)).
  destruct (bfly (tw m) (get off i iq) (get off (i + l) iq)) as [a b] eqn:Eb.
  set (iq1 := put off i a (put off (i + l) b iq)).
  assert (Hf : frame off n iq iq1).
  { apply (frame_trans _ _ _ (put off (i + l) b iq)); apply frame_put; lia. }
  destruct (IH (i + 2 * l) iq1) as [Hf' Hv']; [destruct Hf; lia|lia| |lia| |].
  { rewrite <- Him. replace (i + 2 * l) with (i + 1 * (2 * l)) by lia. apply Z.mod_add. lia. }
  2:{ split; [by apply (frame_trans _ _ _ iq1)|done]. }
  assert (Eim : i mod l = m) by (rewrite lo_mod; lia).
  apply (partial_step bfly l n tw (done_before l m i) _ iq0 (fun x => get off x iq) (fun x => get off x iq1) i);
    try done; try lia; cbv beta; rewrite ?Eim, ?Eb; cbn [fst snd].
  - unfold done_before. rewrite Eim, Z.ltb_irrefl, Z.eqb_refl, Z.ltb_irrefl. done.
  - intros q Hq Hqm. unfold done_before. destruct (Z.ltb_spec (q mod l) m); [done|]. cbn [orb].
    destruct (Z.eqb_spec (q mod l) m) as [E|]; cbn [andb]; [|destruct (Z.eqb_spec q i) as [->|]; lia || done].
    pose proof (lo_mod l q Hl Hqm). destruct (decide (i < q)); [pose proof (step_ge (2 * l) i q ltac:(lia) ltac:(lia) ltac:(lia))|]; ztests.
  - unfold iq1. by rewrite get_put_eq by (unfold inside; rewrite zlen_put; lia).
  - unfold iq1. by rewrite get_put_ne, get_put_eq by (unfold inside; lia).
  - intros y Hy Hy1 Hy2. unfold iq1. by rewrite !get_put_ne by lia.
Qed.

Lemma fft_m_stage off n l k sw n_wave iq0 : 0 <= off -> 0 < l -> n mod (2 * l) = 0 -> forall rounds m iq,
  off + 2 * n <= zlen iq -> 0 <= m -> m + Z.of_nat rounds = l ->
  (forall x, 0 <= x < n -> get off x iq = partial bfly l (twiddle sw n_wave k) (fun p => p mod l <? m) iq0 x) ->
  let iq' := fft_m rounds off n l k m sw n_wave iq in
  frame off n iq iq' /\ forall x, 0 <= x < n -> get off x iq' = stage bfly l (twiddle sw n_wave k) iq0 x.
Proof.
  intros Ho Hl Hn. induction rounds as [|rounds IH]; intros m iq Hz H0 Hm Hv; cbn [fft_m].
  { split; [apply frame_refl|]. intros x Hx. rewrite Hv by done. apply partial_all.
    pose proof (Z.mod_pos_bound (base l x) l ltac:(lia)). apply Z.ltb_lt. lia. }
  destruct (twiddle sw n_wave k m) as [wr_ wi] eqn:Et.
  destruct (fft_i_column off n l m (twiddle sw n_wave k) iq0 Ho Hl ltac:(lia) Hn (Z.to_nat n) m iq Hz H0) as [Hf Hv1].
  { apply Z.mod_small. lia. } { lia. }
  { intros x Hx. rewrite Hv by done. unfold partial, done_before. pose proof (base_inside l n x Hl Hn Hx).
    destruct (Z.eqb_spec (base l x mod l) m) as [E|]; [|by rewrite orb_false_r].
    replace (base l x <? m) with false; [by rewrite orb_false_r|]. symmetry. apply Z.ltb_ge. rewrite <- E. apply Z.mod_le; lia. }
  rewrite Et in *. cbn [fst snd] in *. set (iq1 := fft_i _ _ _ _ _ _ _ _) in *.
  destruct (IH (m + 1) iq1) as [Hf' Hv']; [destruct Hf; lia|lia|lia|done|].
  split; [by apply (frame_trans _ _ _ iq1)|done].
Qed.

(** The factors of the stages of a transform. *)
Definition factors (sw : list Z) (log2_n_wave : Z) (s : nat) (m : Z) : Z * Z :=
  twiddle sw (1 <<' log2_n_wave) (log2_n_wave - 1 - Z.of_nat s) m.

Lemma fft_l_dit off k sw lw orig : 0 <= off -> forall todo s iq rounds, (s + todo = k)%nat -> (todo < rounds)%nat ->
  off + 2 * 2 ^ Z.of_nat k <= zlen iq ->
  (forall x, 0 <= x < 2 ^ Z.of_nat k -> get off x iq = dit bfly (factors sw lw) s (block_input k s orig x) (x mod 2 ^ Z.of_nat s)) ->
  let iq' := fft_l rounds off (2 ^ Z.of_nat k) (2 ^ Z.of_nat s) (lw - 1 - Z.of_nat s) sw (1 <<' lw) iq in
  frame off (2 ^ Z.of_nat k) iq iq' /\
  forall x, 0 <= x < 2 ^ Z.of_nat k -> get off x iq' = dit bfly (factors sw lw) k (block_input k k orig x) (x mod 2 ^ Z.of_nat k).
Proof.
  intros Ho. induction todo as [|todo IH]; intros s iq rounds Hs Hr Hz Hv; (destruct rounds as [|rounds]; [lia|]); cbn [fft_l].
  - replace s with k in * by lia. rewrite Z.ltb_irrefl. cbn [negb]. split; [apply frame_refl|done].
  - assert (Hlt : 2 ^ Z.of_nat s < 2 ^ Z.of_nat k) by (apply Z.pow_lt_mono_r; lia).
    destruct (Z.ltb_spec (2 ^ Z.of_nat s) (2 ^ Z.of_nat k)); [|lia]. cbn [negb].
    assert (Hd : 2 ^ Z.of_nat k mod (2 * 2 ^ Z.of_nat s) = 0).
    { rewrite <- pow2_S. replace (Z.of_nat k) with (Z.of_nat (k - S s) + Z.of_nat (S s)) by lia.
      rewrite Z.pow_add_r by lia. apply Z.mod_mul. pose proof (pow2_pos (S s)). lia. }
    rewrite Z.shiftl_mul_pow2 by lia. change (2 ^ 1) with 2. rewrite (Z.mul_comm _ 2), <- pow2_S.
    replace (lw - 1 - Z.of_nat s - 1) with (lw - 1 - Z.of_nat (S s)) by lia. pose proof (pow2_pos s).
    destruct (fft_m_stage off (2 ^ Z.of_nat k) (2 ^ Z.of_nat s) (lw - 1 - Z.of_nat s) sw (1 <<' lw) (fun x => get off x iq) Ho
                ltac:(lia) Hd (Z.to_nat (2 ^ Z.of_nat s)) 0 iq Hz ltac:(lia) ltac:(lia)) as [Hf Hg].
    { intros x Hx. rewrite partial_none; [done|]. apply Z.ltb_ge. apply Z.mod_pos_bound. lia. }
    destruct (IH (S s) (fft_m (Z.to_nat (2 ^ Z.of_nat s)) off (2 ^ Z.of_nat k) (2 ^ Z.of_nat s) (lw - 1 - Z.of_nat s) 0 sw (1 <<' lw) iq)
                rounds) as [Hf' Hv']; [lia|lia|destruct Hf; lia| |].
    + intros x Hx. rewrite Hg by done. by apply (stage_dit bfly (factors sw lw)); [lia| |].
    + split; [by eapply frame_trans|done].
Qed.

(** C33.  The transform of rtl_power in place - reordering by a counter that runs with its bits
    reversed, then stages of butterflies over the array - is, sample for sample and rounding for
    rounding, the recursive transform of the even and the odd samples.  The rest of the array is
    untouched, and the result is 0. *)
Theorem power_fft_reference (sw iq : list Z) (lw off : Z) (m : nat)
  (Hm : Z.of_nat m <= lw) (Ho : 0 <= off) (Hz : off + 2 * 2 ^ Z.of_nat m <= zlen iq) :
  let '(r, iq') := fix_fft sw lw off iq (Z.of_nat m) in
  r = 0 /\ frame off (2 ^ Z.of_nat m) iq iq' /\
  forall j, 0 <= j < 2 ^ Z.of_nat m -> get off j iq' = dit bfly (factors sw lw) m (fun t => get off t iq) j.
Proof.
  unfold fix_fft. rewrite !Z.shiftl_1_l.
  assert (2 ^ Z.of_nat m <= 2 ^ lw) by (apply Z.pow_le_mono_r; lia). destruct (Z.ltb_spec (2 ^ lw) (2 ^ Z.of_nat m)); [lia|].
  destruct (reorder_rev m off iq Ho Hz) as [Hf Hv]. set (iq1 := reorder _ _ _ _ _ _) in *.
  destruct (fft_l_dit off m sw lw (fun t => get off t iq) Ho m 0%nat iq1 (Z.to_nat (2 ^ Z.of_nat m))) as [Hf' Hv'].
  - lia.
  - pose proof (Z.pow_gt_lin_r 2 (Z.of_nat m)). lia.
  - destruct Hf. lia.
  - intros x Hx. cbn [dit]. rewrite block_input_0. by apply Hv.
  - change (2 ^ Z.of_nat 0) with 1 in *. rewrite Z.sub_0_r, Z.shiftl_1_l in *. split; [done|].
    split; [by apply (frame_trans _ _ _ iq1)|]. intros j Hj. rewrite Hv' by done. rewrite Z.mod_small by done.
    apply dit_ext. intros t. by rewrite block_input_all.
Qed.

(** Four samples of a table for eight points, behind two values that stay. *)
Lemma power_fft_reference_witness :
  let iq := [7; 7; 4000; 0; 0; 4000; -4000; 0; 0; -4000] in
  let sw := [0; 23170; 32767; 23170; 0; -23170] in
  (fix_fft sw 3 2 iq 2).1 = 0 /\ get 2 1 (fix_fft sw 3 2 iq 2).2 = dit bfly (factors sw 3) 2 (fun t => get 2 t iq) 1.
Proof.
  cbn zeta. pose proof (power_fft_reference [0; 23170; 32767; 23170; 0; -23170] [7; 7; 4000; 0; 0; 4000; -4000; 0; 0; -4000] 3 2 2
    ltac:(lia) ltac:(lia) ltac:(vm_compute; discriminate)) as H.
  change (Z.of_nat 2) with 2 in H. destruct (fix_fft _ 3 2 _ 2) as [r iq']. destruct H as (Hr & _ & Hv).
  split; [exact Hr|apply Hv; vm_compute; split; (discriminate || reflexivity)].
Defined.

(** With two bins the table has one entry, and the cosine is read from where the sine of zero is:
    the second sample does not count. *)
Lemma two_bins_blind `{Libm} a b c d : sin f_zero = f_zero ->
  fix_fft (sine_table 1) 1 0 [a; b; c; d] 1 =
  (0, [s16 (a >>' 1 + 0); s16 (b >>' 1 + 0); s16 (a >>' 1 - 0); s16 (b >>' 1 - 0)]).
Proof.
  intros Hs. assert (E : sine_table 1 = [0]).
  { unfold sine_table. change (seqZ 0 _) with [0]. cbn [fmap list_fmap].
    replace (f64_div _ _) with f_zero by (vm_compute; reflexivity). by rewrite Hs. }
  rewrite E. reflexivity.
Qed.

End Fft.

(** ** Where the arithmetic is not what is meant *)

Module PowerFacts.
Import Power.

(** The byte 255 is the sample 128; the rectangular window makes it the most negative value. *)
Lemma full_scale_wraps : window_loop 1 0 0 [256] [s16 (255 - 127); 0] = [-32768; 0].
Proof. reflexivity. Qed.

(** Half of a constant offset remains: the sum over every other value is divided by the length
    in values. *)
Lemma half_dc_remains : remove_dc 0 4 [100; 0; 100; 0] = [50; 0; 50; 0].
Proof. reflexivity. Qed.

End PowerFacts.

(** ** The plan of the hops *)

Module PowerPlan.
Import Power.

Lemma uncropped_0 bw : 0 <= bw < 2 ^ 31 -> uncropped bw f_zero = bw.
Proof.
  intros Hb. unfold uncropped. replace (f64_sub (f64_of_Z 1) f_zero) with (f64_of_Z 1) by (vm_compute; reflexivity).
  rewrite div_trunc by lia. rewrite Z.div_1_r. apply s32_id. clia.
Qed.

(** The fewest ranges of at most [MAXIMUM_RATE]. *)
Lemma ranges_fewest width : 0 < width < 2 ^ 31 -> forall n i c s u, 1 <= i -> width / (i + Z.of_nat n - 1) <= MAXIMUM_RATE -> (0 < n)%nat ->
  exists k, ranges_loop n i width f_zero c s u = (k, width / k, width / k) /\ i <= k /\ width / k <= MAXIMUM_RATE /\
    (k = i \/ MAXIMUM_RATE < width / (k - 1)).
Proof.
  intros Hw. induction n as [|n IH]; intros i c s u Hi Hend Hn; [lia|]. cbn [ranges_loop].
  rewrite Z.quot_div_nonneg by lia.
  assert (Hq : 0 <= width / i < 2 ^ 31) by (split; [apply Z.div_pos; lia|]; apply Z.le_lt_trans with width; [|lia]; apply Z.div_le_upper_bound; nia).
  rewrite uncropped_0 by done. destruct (Z.ltb_spec MAXIMUM_RATE (width / i)).
  - destruct n as [|n]; [replace (i + Z.of_nat 1 - 1) with i in Hend by lia; lia|].
    destruct (IH (i + 1) c (width / i) (width / i)) as (k & E & Hk & Hle & Hp); [lia| |lia|].
    { replace (i + 1 + Z.of_nat (S n) - 1) with (i + Z.of_nat (S (S n)) - 1) by lia. done. }
    exists k. split; [done|]. split; [lia|]. split; [done|]. right. destruct Hp as [->|]; [|done]. by rewrite Z.add_simpl_r.
  - exists i. split; [done|]. split; [lia|]. split; [done|]. by left.
Qed.

(** The number of bins is a power of two, and the bins are under the limit. *)
Lemma bins_under bw ds size : 0 < bw <= MAXIMUM_RATE -> 1 <= ds -> bw * ds <= MAXIMUM_RATE -> 2 <= size < MINIMUM_RATE ->
  forall n i e0, 1 <= i -> i + Z.of_nat n = 22 -> (i = 1 \/ size * 2 ^ (i - 1) <= bw) -> (i = 22 -> False) ->
  let e := bins_loop n i ds size (bw * ds) e0 in
  i <= e <= 21 /\ bw <= size * 2 ^ e /\ (e = 1 \/ size * 2 ^ (e - 1) <= bw).
Proof.
  intros Hbw Hds Hr Hs. induction n as [|n IH]; intros i e0 Hi Hn Hprev Hi22; [lia|]. cbn [bins_loop].
  rewrite Z.shiftl_1_l. assert (P : 0 < 2 ^ (i - 1)) by (apply Z.pow_pos_nonneg; lia).
  assert (Ep : 2 ^ i = 2 * 2 ^ (i - 1)) by (rewrite <- Z.pow_succ_r by lia; f_equal; lia).
  assert (Hb : 2 ^ i * ds <= 2 * MAXIMUM_RATE).
  { destruct Hprev as [->|Hp]; [change (2 ^ 1) with 2; nia|]. assert (2 ^ i <= bw) by nia. nia. }
  rewrite s32_id by clia. destruct (div_le_int (bw * ds) (2 ^ i * ds) size) as [Hsound Hcomp]; [nia|nia|lia|].
  destruct (f_le _ _).
  - specialize (Hsound eq_refl). split; [lia|]. split; [nia|]. destruct Hprev; [by left|by right].
  - assert (size * 2 ^ i <= bw).
    { destruct (Z.le_gt_cases (size * 2 ^ i) bw) as [|Hlt]; [done|]. discriminate Hcomp. nia. }
    assert (i <> 21) by (intros ->; lia). specialize (IH (i + 1) i). rewrite Z.add_simpl_r in IH.
    destruct IH as (H1 & H2 & H3); [lia|lia|by right|lia|]. split; [lia|]. done.
Qed.

(** The blocks of the transform stay in the buffer. *)
Lemma blocks_inside len ds N b : 0 < N -> 1 <= ds -> N * ds <= len -> (ds = 1 -> (N | len)) -> 0 <= b ->
  b * N < len / ds -> (b + 1) * N <= len.
Proof.
  intros HN Hds HL Hdiv Hb Hlt. destruct (decide (ds = 1)) as [->|].
  - rewrite Z.div_1_r in Hlt. destruct (Hdiv eq_refl) as [q ->]. apply Z.mul_lt_mono_pos_r in Hlt; [|done].
    apply Z.mul_le_mono_nonneg_r; lia.
  - assert (b * N * ds < len) by (pose proof (Z.mul_div_le len ds); nia). nia.
Qed.

(** A small range is seen at a multiple of its width. *)
Lemma downsampled bw k : 0 < bw <= MAXIMUM_RATE -> k = 1 \/ MINIMUM_RATE <= bw ->
  exists ds, (if bw <? MINIMUM_RATE then (1, Z.quot MAXIMUM_RATE bw, s32 (bw * Z.quot MAXIMUM_RATE bw)) else (k, 1, bw)) = (k, ds, bw * ds) /\
    1 <= ds /\ bw * ds <= MAXIMUM_RATE /\ MINIMUM_RATE <= bw * ds.
Proof.
  intros Hbw Hk. destruct (Z.ltb_spec bw MINIMUM_RATE); [|exists 1; rewrite Z.mul_1_r; split; [done|lia]]. rewrite Z.quot_div_nonneg by lia.
  destruct Hk as [->|]; [|lia]. pose proof (Z.mul_div_le MAXIMUM_RATE bw ltac:(lia)).
  pose proof (Z.mul_succ_div_gt MAXIMUM_RATE bw ltac:(lia)). assert (1 <= MAXIMUM_RATE / bw) by (apply Z.div_le_lower_bound; lia).
  exists (MAXIMUM_RATE / bw). rewrite s32_id; [|clia]. split; [done|]. lia.
Qed.

(** What planning promises for a hop. *)
Definition hop_ok (lower bw size : Z) (i : nat) (ts : tuning_state) : Prop :=
  freq ts = lower + Z.of_nat i * bw + bw / 2 /\
  MINIMUM_RATE <= rate ts <= MAXIMUM_RATE /\ rate ts = bw * downsample ts /\
  1 <= bin_e ts <= 21 /\ bw <= size * 2 ^ bin_e ts /\
  zlen (avg ts) = 2 ^ bin_e ts /\
  (forall b, 0 <= b -> b * (2 * 2 ^ bin_e ts) < buf_len ts / downsample ts -> (b + 1) * (2 * 2 ^ bin_e ts) <= buf_len ts).

Lemma hop_buffer e ds bw size : 0 < bw -> 1 <= ds -> bw * ds <= MAXIMUM_RATE -> 2 <= size -> 1 <= e <= 21 ->
  (e = 1 \/ size * 2 ^ (e - 1) <= bw) ->
  let len := s32 (2 * (1 <<' e) * ds) in
  let len := if len <? DEFAULT_BUF_LENGTH then DEFAULT_BUF_LENGTH else len in
  forall b, 0 <= b -> b * (2 * 2 ^ e) < len / ds -> (b + 1) * (2 * 2 ^ e) <= len.
Proof.
  intros Hbw Hds Hr Hs He Hprev. cbn zeta. rewrite Z.shiftl_1_l. assert (P : 0 < 2 ^ (e - 1)) by (apply Z.pow_pos_nonneg; lia).
  assert (Ep : 2 ^ e = 2 * 2 ^ (e - 1)) by (rewrite <- Z.pow_succ_r by lia; f_equal; lia).
  assert (Hb : 2 ^ e * ds <= 2 * MAXIMUM_RATE).
  { destruct Hprev as [->|Hp]; [change (2 ^ 1) with 2; nia|]. assert (2 ^ e <= bw) by nia. nia. }
  rewrite s32_id by clia. intros b H0 Hlt. apply (blocks_inside _ ds); try done; try lia.
  - destruct (Z.ltb_spec (2 * 2 ^ e * ds) DEFAULT_BUF_LENGTH); lia.
  - intros ->. rewrite Z.mul_1_r. destruct (Z.ltb_spec (2 * 2 ^ e) DEFAULT_BUF_LENGTH) as [Hl|]; [|apply Z.divide_refl].
    rewrite <- Z.pow_succ_r in * by lia. change DEFAULT_BUF_LENGTH with (2 ^ 14) in *.
    apply Z.pow_lt_mono_r_iff in Hl; [|lia|lia]. exists (2 ^ (14 - Z.succ e)). rewrite <- Z.pow_add_r by lia. f_equal. lia.
Qed.

(** C34.  Planning a scan without cropping, with the square window: for every range of at least
    1 Hz that ends below 2^31 Hz and every limit of the bins from 2 Hz to below 1 MHz (for
    1 Hz see [one_hertz_missed]) there are hops; they are next to
    each other from the lower end on and leave at most one Hz each uncovered; the rate of the
    dongle is between 1 MHz and 2.8 MHz and a multiple of the range that is seen; bins are not
    larger than asked for; and the blocks of the transform stay inside the buffer. *)
Theorem power_plan (log2 : flt -> flt) (lower upper size : Z) (buf : Z -> list Z)
  (Hl : 0 <= lower) (Hu : lower < upper < 2 ^ 31) (Hs : 2 <= size < MINIMUM_RATE) :
  exists bw tunes, make_tunes log2 true f_zero lower upper size buf = Plan tunes /\ 0 < bw /\ 1 <= zlen tunes /\
    zlen tunes * bw <= upper - lower < zlen tunes * (bw + 1) /\
    forall i ts, tunes !! i = Some ts -> hop_ok lower bw size i ts.
Proof.
  unfold make_tunes. rewrite (s32_id (upper - lower)) by clia. set (w := upper - lower).
  destruct (ranges_fewest w ltac:(unfold w; lia) 1499 1 0 0 0) as (k & -> & Hk & Hmax & Hp); [lia| |lia|].
  { apply Z.div_le_upper_bound; unfold w; lia. }
  set (bw := w / k) in *. pose proof (Z.div_mod w k ltac:(lia)) as Hd. pose proof (Z.mod_pos_bound w k ltac:(lia)) as Hm.
  fold bw in Hd.
  assert (Hpk : k = 1 \/ MINIMUM_RATE <= bw /\ k <= 767).
  { destruct Hp as [->|Hp]; [by left|]. destruct (decide (k = 1)) as [->|]; [by left|]. right.
    pose proof (Z.mul_div_le w (k - 1) ltac:(lia)). assert (2800001 * (k - 1) <= w) by nia.
    split; [apply Z.div_le_lower_bound; lia|unfold w in *; lia]. }
  assert (Hbw : 0 < bw) by (destruct Hpk as [->|[? _]]; [unfold bw; rewrite Z.div_1_r; unfold w; lia|lia]).
  destruct (Z.eqb_spec bw 0); [lia|]. rewrite andb_false_r.
  (* downsampling *)
  destruct (downsampled bw k) as (ds & -> & Hds & Hrmax & Hrmin); [lia|lia|].
  cbn [negb andb]. destruct (bins_under bw ds size ltac:(lia) Hds Hrmax ltac:(lia) 21 1 0) as (He & Hunder & Hprev);
    [lia|lia|by left|lia|].
  set (e := bins_loop 21 1 ds size (bw * ds) 0) in *. destruct (Z.leb_spec MINIMUM_RATE size); [lia|].
  destruct (Z.ltb_spec MAX_TUNES k); [lia|].
  pose proof (hop_buffer e ds bw size Hbw Hds Hrmax ltac:(lia) He Hprev) as Hbuf. cbn zeta in Hbuf.
  set (len := if _ <? DEFAULT_BUF_LENGTH then _ else _) in *.
  eexists bw, _. split; [done|]. assert (Hz : zlen (hop lower bw (bw * ds) e ds 0 len f_zero (buf len) <$> seqZ 0 k) = k).
  { unfold zlen. rewrite length_fmap, length_seqZ. lia. }
  rewrite Hz. split; [done|]. split; [lia|]. split; [fold w; lia|].
  intros i ts Hi. rewrite list_lookup_fmap in Hi. destruct (seqZ 0 k !! i) as [j|] eqn:Ej; [|done].
  apply lookup_seqZ in Ej as [-> Hik]. injection Hi as <-. unfold hop_ok, hop. cbn [freq rate bin_e avg downsample buf_len].
  rewrite Z.quot_div_nonneg by lia. rewrite Z.shiftl_1_l. split_and!; try done; try lia.
  - rewrite s32_id; [lia|]. assert ((0 + Z.of_nat i) * bw + bw / 2 < w) by (pose proof (Z.div_lt bw 2); nia).
    pose proof (Z.div_pos bw 2). unfold w in *. assert (0 <= Z.of_nat i * bw) by nia. clia.
  - unfold zlen. rewrite length_replicate. pose proof (Z.pow_pos_nonneg 2 e). lia.
Qed.

(** The FM band in bins of at most 10 kHz. *)
Lemma power_plan_witness : exists bw tunes,
  make_tunes (fun x => x) true f_zero 88000000 108000000 10000 (fun _ => []) = Plan tunes /\ 0 < bw /\ 1 <= zlen tunes /\
    zlen tunes * bw <= 108000000 - 88000000 < zlen tunes * (bw + 1) /\
    forall i ts, tunes !! i = Some ts -> hop_ok 88000000 bw 10000 i ts.
Proof. apply (power_plan (fun x => x) 88000000 108000000 10000 (fun _ => [])); lia. Defined.

(** With a limit of 1 Hz the loop ends before the bins are small enough. *)
Lemma one_hertz_missed : bins_loop 21 1 1 1 MAXIMUM_RATE 0 = 21 /\ 1 * 2 ^ 21 < MAXIMUM_RATE.
Proof. split; [vm_compute; reflexivity|lia]. Qed.

(** An empty range is a division by zero. *)
Lemma empty_range_faults log2 boxcar f size buf : make_tunes log2 boxcar f_zero f f size buf = Fault.
Proof. unfold make_tunes. rewrite Z.sub_diag. reflexivity. Qed.

End PowerPlan.
