(* ===== verification/RtlPowerRun.v ===== *)
(** * The program around the spectrum logger ([main] of [src/src/rtl_power.c])

    [Module PowerMain]: the options and what they are turned into, what is set on the device, the
    logging loop with its clock, and [main] from the options on as its actions.  The clock is the
    sequence of values that the calls of [time] return.

    [PowerMainProps]: a report is made at most once per interval with a row for every hop, and the
    loop ends for [-1] and for [-e] ([power_log_schedule]). *)

From Stdlib Require Import String Ascii.
From stdpp Require Import sorting.
From S2P Require Import Prelude Float I2c Usb TunerR82xx TunerFc TunerE4k TunerFc2580 Librtlsdr LibrtlsdrOpen RtlEeprom Convenience Getopt Options Programs RtlPower RtlPowerProps.

Module PowerMain.
Import Options Power Life.

Abbreviation AUTO_GAIN := (-100)%Z (only parsing).
Definition optstring : list Z := Eeprom.str "f:i:s:t:d:g:p:e:w:c:F:1PDOhT".

(** The windows by the names of [-w]. *)
Inductive window_name := W_rectangle | W_hamming | W_blackman | W_blackman_harris | W_hann_poisson | W_youssef | W_kaiser | W_bartlett.
Definition window_named (arg : list Z) (w : window_name) : window_name :=
  let w := if same "rectangle" arg then W_rectangle else w in
  let w := if same "hamming" arg then W_hamming else w in
  let w := if same "blackman" arg then W_blackman else w in
  let w := if same "blackman-harris" arg then W_blackman_harris else w in
  let w := if same "hann-poisson" arg then W_hann_poisson else w in
  let w := if same "youssef" arg then W_youssef else w in
  let w := if same "kaiser" arg then W_kaiser else w in
  if same "bartlett" arg then W_bartlett else w.
Definition window_fn `{Libm} (pow : flt -> flt -> flt) (w : window_name) : Z -> Z -> flt :=
  match w with
  | W_rectangle => rectangle
  | W_hamming => hamming
  | W_blackman => blackman
  | W_blackman_harris => blackman_harris
  | W_hann_poisson => hann_poisson pow
  | W_youssef => youssef pow
  | W_kaiser => kaiser
  | W_bartlett => bartlett
  end.

(** [fft_threads] and [smoothing] are set and not used. *)
Record options := mk_options {
  freq_optarg : option (list Z); dev_index : Z; dev_given : bool; p_gain : Z; p_crop : flt; p_interval : Z; p_exit : Z;
  p_window : window_name; p_ppm : Z; p_single : bool; p_peak : bool; p_direct : bool; p_offset : bool; p_boxcar : bool;
  p_fir : Z; p_biastee : bool; fft_threads : Z; smoothing : Z;
}.
Definition options_init : options :=
  mk_options None 0 false AUTO_GAIN f_zero 10 0 W_rectangle 0 false false false false true 0 false 1 0.

Section Options.
Context (atof : list Z -> flt) (search : list Z -> Z).
(** [(int)round(atoft(x))]. *)
Definition seconds (arg : list Z) : option Z := v ← Convenience.atoft atof arg; Some (s32 (f_round v)).
Definition power_case (opt : Z) (a : option (list Z)) (o : options) : option options :=
  let arg := default [] a in
  let '(mk_options f d dg g c i e w p sg pk ds os bx fir bt th sm) := o in
  if is_opt "f" opt then Some (mk_options (Some arg) d dg g c i e w p sg pk ds os bx fir bt th sm)
  else if is_opt "d" opt then Some (mk_options f (search arg) true g c i e w p sg pk ds os bx fir bt th sm)
  else if is_opt "g" opt then Some (mk_options f d dg (tenths atof arg) c i e w p sg pk ds os bx fir bt th sm)
  else if is_opt "c" opt then v ← Convenience.atofp atof arg; Some (mk_options f d dg g v i e w p sg pk ds os bx fir bt th sm)
  else if is_opt "i" opt then v ← seconds arg; Some (mk_options f d dg g c v e w p sg pk ds os bx fir bt th sm)
  else if is_opt "e" opt then v ← seconds arg; Some (mk_options f d dg g c i v w p sg pk ds os bx fir bt th sm)
  else if is_opt "s" opt then
    Some (mk_options f d dg g c i e w p sg pk ds os bx fir bt th
            (let sm := if same "avg" arg then 0 else sm in if same "iir" arg then 1 else sm))
  else if is_opt "w" opt then Some (mk_options f d dg g c i e (window_named arg w) p sg pk ds os bx fir bt th sm)
  else if is_opt "t" opt then Some (mk_options f d dg g c i e w p sg pk ds os bx fir bt (Eeprom.atoi arg) sm)
  else if is_opt "p" opt then Some (mk_options f d dg g c i e w (Eeprom.atoi arg) sg pk ds os bx fir bt th sm)
  else if is_opt "1" opt then Some (mk_options f d dg g c i e w p true pk ds os bx fir bt th sm)
  else if is_opt "P" opt then Some (mk_options f d dg g c i e w p sg true ds os bx fir bt th sm)
  else if is_opt "D" opt then Some (mk_options f d dg g c i e w p sg pk true os bx fir bt th sm)
  else if is_opt "O" opt then Some (mk_options f d dg g c i e w p sg pk ds true bx fir bt th sm)
  else if is_opt "F" opt then Some (mk_options f d dg g c i e w p sg pk ds os false (Eeprom.atoi arg) bt th sm)
  else if is_opt "T" opt then Some (mk_options f d dg g c i e w p sg pk ds os bx fir true th sm)
  else None.

(** What [main] does with the options before it looks for the device: the hops and the interval;
    [None] is the undefined behaviour of planning. *)
Definition settle (log2 : flt -> flt) (buf : Z -> list Z) (o : options) : option (outcome (list tuning_state * Z)) :=
  match freq_optarg o with
  | None => Some (Options.Exit 1)
  | Some arg =>
      if f_lt (p_crop o) f_zero || f_lt (f64_of_Z 1) (p_crop o) then Some (Options.Exit 1)
      else
        match frequency_range log2 atof (p_boxcar o) arg (p_crop o) buf with
        | Fault => None
        | Exit => Some (Options.Exit 1)
        | Plan [] => Some (Options.Exit 1)
        | Plan tunes => Some (Run (tunes, if p_interval o <? 1 then 1 else p_interval o))
        end
  end.
End Options.

Section Device.
Context {U : Type} `{Libusb U}.
Import Usb Librtlsdr Convenience.
Definition settings (o : options) : st (rtlsdr_dev U) unit :=
  _ ← (if p_direct o then verbose_direct_sampling 1 else mret 0);
  _ ← (if p_offset o then verbose_offset_tuning else mret 0);
  _ ← (if p_gain o =? AUTO_GAIN then verbose_auto_gain else g ← nearest_gain (p_gain o); verbose_gain_set g);
  _ ← verbose_ppm_set (p_ppm o);
  _ ← on_core (rtlsdr_set_bias_tee (b2z (p_biastee o)));
  mret tt.
(** Behind the log file. *)
Definition start_settings (tunes : list tuning_state) : st (rtlsdr_dev U) unit :=
  _ ← verbose_reset_buffer;
  _ ← rtlsdr_set_sample_rate (u32 (match tunes with t :: _ => Power.rate t | [] => 0 end));
  mret tt.
End Device.

(** The tables and the flags the scan uses. *)
Definition scan_setup `{Libm} (pow : flt -> flt -> flt) (o : options) (tunes : list tuning_state) : setup :=
  let e := match tunes with t :: _ => bin_e t | [] => 0 end in
  mk_setup (p_boxcar o) (p_fir o) (p_peak o) (window_coefs (window_fn pow (p_window o)) (1 <<' e)) (sine_table e) e.

(** ** The log *)

Section Log.
Context `{Libm} {D : Type} (get_center_freq : D -> Z) (set_center_freq : Z -> D -> D) (read_sync : Z -> D -> list Z * D).
(** Whether one signal, or two, have arrived. *)
Context (stopped twice : D -> bool).
(** What the calls of [time] return. *)
Context (clock : nat -> Z).
Context (s : setup) (interval : Z) (single : bool).

(** [next_tick], [exit_time], the calls of [time] so far, whether the loop has set [do_exit], the
    hops, the buffer of the transform, the device, and the reports: when, and the rows. *)
Record log := mk_log {
  next_tick : Z; exit_time : Z; reads : nat; ended : bool;
  hops : list tuning_state; fft_buf : list Z; dev : D; reports : list (Z * list row);
}.

(** [while (time(NULL) >= next_tick) next_tick += interval]; [None] when the fuel is used up. *)
Fixpoint catch_up (fuel : nat) (k : nat) (next : Z) : option (Z * nat) :=
  match fuel with
  | O => None
  | S fuel => if next <=? clock k then catch_up fuel (S k) (next + interval) else Some (next, S k)
  end.

(** A round of the loop. *)
Definition log_round (fuel : nat) (l : log) : option log :=
  let '(buf, tunes, d) := scanner get_center_freq set_center_freq read_sync twice s (fft_buf l) (hops l) (dev l) in
  let time_now := clock (reads l) in
  let k := S (reads l) in
  if time_now <? next_tick l then Some (mk_log (next_tick l) (exit_time l) k (ended l) tunes buf d (reports l))
  else
    let rows := csv_dbm <$> tunes in
    '(next, k) ← catch_up fuel k (next_tick l);
    let ended := ended l || single in
    let '(ended, k) := if exit_time l =? 0 then (ended, k) else (ended || (exit_time l <=? clock k), S k) in
    Some (mk_log next (exit_time l) k ended (snd <$> rows) buf d (reports l ++ [(time_now, fst <$> rows)])).

Fixpoint log_loop (fuel : nat) (l : log) : option log :=
  match fuel with
  | O => None
  | S n => if ended l || stopped (dev l) then Some l else l ← log_round fuel l; log_loop n l
  end.

(** The state before the loop; [exit_in] is the number of [-e]. *)
Definition log_start (exit_in : Z) (tunes : list tuning_state) (buf : list Z) (d : D) : log :=
  mk_log (clock 0 + interval) (if exit_in =? 0 then 0 else clock 1 + exit_in) (if exit_in =? 0 then 1 else 2) false tunes buf d [].
End Log.
#[global] Arguments mk_log {D}.
#[global] Arguments next_tick {D}.
#[global] Arguments exit_time {D}.
#[global] Arguments reads {D}.
#[global] Arguments ended {D}.
#[global] Arguments hops {D}.
#[global] Arguments fft_buf {D}.
#[global] Arguments dev {D}.
#[global] Arguments reports {D}.

(** [main] behind [settle]; the buffers are those of the scan. *)
Definition main (e : env) : Z * list act :=
  if e_dev e <? 0 then (1, [A_exit])
  else if e_open e <? 0 then (1, [A_exit])
  else if negb (e_stdout e) && negb (e_fopen e) then (1, [A_open; A_use; A_exit])
  else (status (e_open e), [A_open; A_use] ++ open_file e ++ [A_use; A_malloc; A_use] ++ close_file e ++ [A_close; A_free]).
End PowerMain.

Module PowerMainProps.
Import Power PowerMain.

Section Clock.
Context (clock : nat -> Z) (interval : Z).

Abbreviation catch_up := (catch_up clock interval).

Lemma catch_up_spec fuel : forall k next next' k', catch_up fuel k next = Some (next', k') ->
  exists m, next' = next + Z.of_nat m * interval /\ k' = (k + m + 1)%nat /\ clock (k + m) < next'.
Proof.
  induction fuel as [|fuel IH]; intros k next next' k'; cbn [PowerMain.catch_up]; [done|]. destruct (Z.leb_spec next (clock k)).
  - intros (m & -> & -> & Hm)%IH. exists (S m). split_and!; [lia..|]. by replace (k + S m)%nat with (S k + m)%nat by lia.
  - intros [= <- <-]. exists 0%nat. rewrite Nat.add_0_r. split_and!; lia.
Qed.

Lemma catch_up_ends n : forall fuel k next, (n < fuel)%nat -> clock (k + n) < next + Z.of_nat n * interval ->
  exists r, forall fuel', (fuel <= fuel')%nat -> catch_up fuel' k next = Some r.
Proof.
  induction n as [|n IH]; intros fuel k next Hf Hn.
  - exists (next, S k). intros [|f] ?; [lia|]. cbn [PowerMain.catch_up]. rewrite Nat.add_0_r in Hn. by rewrite (proj2 (Z.leb_gt _ _)) by lia.
  - destruct (IH (pred fuel) (S k) (next + interval)) as [r Hr]; [lia|replace (S k + n)%nat with (k + S n)%nat by lia; lia|].
    exists (if next <=? clock k then r else (next, S k)). intros [|f] ?; [lia|]. cbn [PowerMain.catch_up].
    destruct (next <=? clock k); [|done]. apply Hr. lia.
Qed.
End Clock.

Section Log.
Context `{Libm} {D : Type} (get_center_freq : D -> Z) (set_center_freq : Z -> D -> D) (read_sync : Z -> D -> list Z * D).
Context (stopped twice : D -> bool) (clock : nat -> Z) (s : setup) (interval : Z) (single : bool).
(** The clock does not go back, it goes on, and its values follow each other faster than the
    interval. *)
Context (mono : forall i j, (i <= j)%nat -> clock i <= clock j) (grows : forall x, exists k, x <= clock k).
Context (slow : forall k x, exists n, clock (k + n)%nat < x + Z.of_nat n * interval) (Hi : 1 <= interval).

Abbreviation round := (log_round get_center_freq set_center_freq read_sync twice clock s interval single).
Abbreviation loop := (log_loop get_center_freq set_center_freq read_sync stopped twice clock s interval single).
Abbreviation start := (log_start clock interval).

Lemma scan_length bin_e buf_len : forall todo buf d, length (scan_loop get_center_freq set_center_freq read_sync twice s bin_e buf_len buf todo d).1.2 = length todo.
Proof.
  induction todo as [|ts todo IH]; intros buf d; cbn [scan_loop]; [done|]. destruct (twice d); [done|].
  destruct (read_sync _ _) as [got d1]. destruct (scan_hop _ _ _ _ _) as [b ts']. specialize (IH b d1).
  destruct (scan_loop _ _ _ _ _ _ _ _ _ _) as [[b' l'] d2]. cbn in *. by rewrite IH.
Qed.

(** ** Reports *)

(** The interval a time is in. *)
Definition cell (t : Z) : Z := (t - clock 0) / interval.

Record scheduled (n : nat) (l : log (D := D)) (m : Z) : Prop := {
  s_next : next_tick l = clock 0 + m * interval;
  s_cells : StronglySorted Z.lt ((fun r => cell r.1) <$> reports l);
  s_range : Forall (fun r => 1 <= cell r.1 < m /\ length r.2 = n) (reports l);
  s_hops : length (hops l) = n;
  s_m : 1 <= m;
}.

Lemma cell_le t u : t <= u -> cell t <= cell u.
Proof. intros. apply Z.div_le_mono; lia. Qed.
Lemma cell_ge t m : clock 0 + m * interval <= t -> m <= cell t.
Proof. intros. apply Z.div_le_lower_bound; lia. Qed.
Lemma cell_lt t m : t < clock 0 + m * interval -> cell t < m.
Proof. intros. apply Z.div_lt_upper_bound; lia. Qed.

Lemma round_scheduled n fuel l l' m : scheduled n l m -> round fuel l = Some l' -> exists m', scheduled n l' m'.
Proof.
  intros [S1 S2 S3 S4 S5]. unfold log_round.
  pose proof (scan_length (match hops l with t :: _ => bin_e t | [] => 0 end) (match hops l with t :: _ => buf_len t | [] => 0 end) (hops l) (fft_buf l) (dev l)) as L.
  replace (scanner get_center_freq set_center_freq read_sync twice s (fft_buf l) (hops l) (dev l)) with
    (scan_loop get_center_freq set_center_freq read_sync twice s (match hops l with t :: _ => bin_e t | [] => 0 end)
       (match hops l with t :: _ => buf_len t | [] => 0 end) (fft_buf l) (hops l) (dev l)) by by (unfold scanner; destruct (hops l)).
  destruct (scan_loop _ _ _ _ _ _ _ _ _ _) as [[buf tunes] d]. cbn [fst snd] in L.
  destruct (Z.ltb_spec (clock (reads l)) (next_tick l)) as [Hn|Hn]; [intros [= <-]; exists m; by split; cbn; try lia|].
  intros ([next k] & E & El)%bind_Some. apply catch_up_spec in E as (j & -> & -> & Hj).
  assert (Hc : m <= cell (clock (reads l)) < m + Z.of_nat j).
  { split; [apply cell_ge; lia|]. apply cell_lt. pose proof (mono (reads l) (S (reads l) + j) ltac:(lia)). lia. }
  assert (R : exists m', scheduled n (mk_log (next_tick l + Z.of_nat j * interval) (exit_time l) 0 false (snd <$> (csv_dbm <$> tunes)) buf d
    (reports l ++ [(clock (reads l), fst <$> (csv_dbm <$> tunes))])) m').
  { exists (m + Z.of_nat j). split; cbn [next_tick reports hops].
    - lia.
    - rewrite fmap_app. apply StronglySorted_app_2; [|done|repeat constructor].
      intros x1 x2 (r & -> & Hr)%list_elem_of_fmap ->%list_elem_of_singleton. cbn [fst].
      destruct (proj1 (list.Forall_forall _ _) S3 r Hr) as [Hr1 _]. lia.
    - apply Forall_app. split; [eapply list.Forall_impl; [exact S3|]; cbn; intros r ?; lia|]. apply Forall_singleton. cbn. rewrite !length_fmap. lia.
    - rewrite !length_fmap. lia.
    - lia. }
  destruct R as [m' [R1 R2 R3 R4 R5]]. destruct (exit_time l =? 0); injection El as <-; by exists m'.
Qed.

Lemma loop_scheduled n fuel : forall l l' m, scheduled n l m -> loop fuel l = Some l' -> exists m', scheduled n l' m'.
Proof.
  induction fuel as [|fuel IH]; intros l l' m Hs; cbn [log_loop]; [done|]. destruct (ended l || stopped (dev l)); [intros [= <-]; by exists m|].
  intros (l1 & E1 & E2)%bind_Some. destruct (round_scheduled _ _ _ _ _ Hs E1) as [m1 H1]. by eapply IH.
Qed.

Lemma start_scheduled exit_in tunes buf d : scheduled (length tunes) (start exit_in tunes buf d) 1.
Proof. split; cbn; [lia|constructor|done..]. Qed.

(** ** The end *)

Definition halts (l : log) : Prop := exists fuel l', (forall fuel', (fuel <= fuel')%nat -> loop fuel' l = Some l').

Lemma halts_ended l : ended l || stopped (dev l) = true -> halts l.
Proof. intros E. exists 1%nat, l. intros [|f] ?; [lia|]. cbn [log_loop]. by rewrite E. Qed.

Lemma halts_round l : (forall fuel l', round fuel l = Some l' ->
    exit_time l' = exit_time l /\ (reads l < reads l')%nat -> 
    (next_tick l' = next_tick l /\ reads l' = S (reads l) /\ clock (reads l) < next_tick l \/
     (single = true \/ exit_time l <> 0 /\ exit_time l <= clock (reads l) -> ended l' = true)) -> halts l') -> halts l.
Proof.
  intros Hh. destruct (ended l || stopped (dev l)) eqn:En; [by apply halts_ended|].
  assert (Hr : exists f l', (forall f', (f <= f')%nat -> round f' l = Some l') /\ exit_time l' = exit_time l /\ (reads l < reads l')%nat /\
    (next_tick l' = next_tick l /\ reads l' = S (reads l) /\ clock (reads l) < next_tick l \/
     (single = true \/ exit_time l <> 0 /\ exit_time l <= clock (reads l) -> ended l' = true))).
  { unfold log_round. destruct (scanner _ _ _ _ _ _ _ _) as [[buf tunes] d].
    destruct (Z.ltb_spec (clock (reads l)) (next_tick l)) as [Hn|Hn].
    - exists 0%nat. eexists. split; [done|]. cbn. split_and!; [done|lia|left; lia].
    - destruct (slow (S (reads l)) (next_tick l)) as [n Hsl].
      destruct (catch_up_ends clock interval n (S n) _ _ ltac:(lia) Hsl) as [[next k] Hc].
      pose proof (Hc _ (le_n _)) as Es. apply catch_up_spec in Es as (j & _ & -> & _).
      exists (S n). destruct (Z.eqb_spec (exit_time l) 0); (eexists; split; [intros f' Hf; by rewrite (Hc f' Hf)|]);
        cbn [exit_time reads next_tick ended]; (split; [done|]; split; [lia|right]).
      + intros [->|[? _]]; [by rewrite orb_true_r|done].
      + intros [->|[_ He]]; [by rewrite orb_true_r|].
        rewrite (proj2 (Z.leb_le _ _)); [by rewrite orb_true_r|]. etrans; [exact He|]. apply mono. lia. }
  destruct Hr as (f & l' & Hf & R1 & R2 & R3). destruct (Hh f l' (Hf f (le_n _)) (conj R1 R2) R3) as (g & l2 & Hg).
  exists (S (f + g)), l2. intros [|k] Hk; [lia|]. cbn [log_loop]. rewrite En, (Hf (S k)) by lia. cbn [mbind option_bind]. apply Hg. lia.
Qed.

(** When every report ends the loop, it ends. *)
Lemma halts_at_report n : forall l, single = true \/ exit_time l <> 0 /\ exit_time l <= clock (reads l) ->
  (exists k, next_tick l <= clock k /\ (k < reads l + n)%nat) -> halts l.
Proof.
  induction n as [|n IH]; intros l He (k & Hk & Hn).
  - apply halts_round. intros f l' _ _ [(_ & _ & Hl)|Hl]; [|apply halts_ended; by rewrite (Hl He)].
    pose proof (mono k (reads l) ltac:(lia)). lia.
  - apply halts_round. intros f l' _ [E1 E2] [(E3 & E4 & _)|Hl]; [|apply halts_ended; by rewrite (Hl He)].
    apply IH; [|exists k; rewrite E3, E4; split; [done|lia]]. destruct He as [->|[He1 He2]]; [by left|right].
    rewrite E1. split; [done|]. pose proof (mono (reads l) (reads l') ltac:(lia)). lia.
Qed.

Lemma halts_exit n : forall l, exit_time l <> 0 -> (exists k, exit_time l <= clock k /\ (k < reads l + n)%nat) -> halts l.
Proof.
  induction n as [|n IH]; intros l He (k & Hk & Hn).
  - destruct (grows (next_tick l)) as [j Hj]. apply (halts_at_report (S j)); [|exists j; split; [done|lia]]. right. split; [done|].
    pose proof (mono k (reads l) ltac:(lia)). lia.
  - apply halts_round. intros f l' _ [E1 E2] _. apply IH; [by rewrite E1|]. exists k. rewrite E1. split; [done|lia].
Qed.

(** With [-1] the first report is the last. *)
Lemma single_once fuel : single = true -> forall l l', reports l = [] \/ ended l = true /\ length (reports l) = 1%nat ->
  loop fuel l = Some l' -> (length (reports l') <= 1)%nat.
Proof.
  intros Hs. induction fuel as [|fuel IH]; intros l l' Hl; cbn [log_loop]; [done|].
  destruct (ended l || stopped (dev l)) eqn:En; [intros [= <-]; destruct Hl as [->|[_ ->]]; cbn; lia|].
  intros (l1 & E1 & E2)%bind_Some. eapply IH; [|exact E2]. destruct Hl as [Hl|[Hl _]]; [|by rewrite Hl in En].
  revert E1. unfold log_round. destruct (scanner _ _ _ _ _ _ _ _) as [[b tunes] d]. destruct (_ <? _); [intros [= <-]; by left|].
  intros ([next k] & _ & El)%bind_Some. right. rewrite Hl, Hs, orb_true_r in El. by destruct (exit_time l =? 0); injection El as <-.
Qed.

(** C35.  The log of rtl_power, whatever the device delivers and whenever signals arrive: in an
    interval of the clock from the start on there is at most one report, there is none before the
    first interval has passed, and every report has a row for every hop; with [-1] there is at
    most one report; and with [-1] or a time for [-e] the loop ends, the loop that moves
    [next_tick] over missed intervals included. *)
Theorem power_log_schedule exit_in tunes buf d : 0 <= clock 0 ->
  (forall fuel l, loop fuel (start exit_in tunes buf d) = Some l ->
     StronglySorted Z.lt ((fun r => cell r.1) <$> reports l) /\
     Forall (fun r => 1 <= cell r.1 /\ length r.2 = length tunes) (reports l) /\
     (single = true -> (length (reports l) <= 1)%nat)) /\
  (single = true \/ 0 < exit_in -> exists fuel l, loop fuel (start exit_in tunes buf d) = Some l).
Proof.
  intros H0. split.
  - intros fuel l El. destruct (loop_scheduled _ _ _ _ _ (start_scheduled exit_in tunes buf d) El) as [m [_ S2 S3 _ _]].
    split_and!; [done|eapply list.Forall_impl; [exact S3|]; cbn; intros r ?; lia|].
    intros Hs. eapply single_once; [done| |exact El]. by left.
  - intros Hse. assert (halts (start exit_in tunes buf d)) as (f & l & Hf); [|exists f, l; by apply Hf].
    destruct Hse as [Hs|He].
    + destruct (grows (next_tick (start exit_in tunes buf d))) as [k Hk]. apply (halts_at_report (S k)); [by left|]. exists k. split; [done|lia].
    + assert (Hx : exit_time (start exit_in tunes buf d) <> 0).
      { cbn. rewrite (proj2 (Z.eqb_neq _ _)) by lia. pose proof (mono 0 1 ltac:(lia)). lia. }
      destruct (grows (exit_time (start exit_in tunes buf d))) as [k Hk]. apply (halts_exit (S k)); [done|]. exists k. split; [done|lia].
Qed.
End Log.

(** A hop of one bin on a device that always delivers the same, with a clock in seconds and a
    report every three. *)
Definition toy_libm : Libm := {| cos := fun x => x; sin := fun x => x; exp := fun x => x; log10 := fun x => x |}.
Definition toy_hop : tuning_state := mk_ts 100000000 1000000 0 [0] 0 1 0 f_zero [1; 2; 3; 4] 4.
Definition toy_setup : setup := mk_setup true 0 false [] [] 0.
Lemma power_log_schedule_witness : exists l,
  @log_loop toy_libm unit (fun _ => 100000000) (fun _ d => d) (fun _ d => ([10; 20; 30; 40], d)) (fun _ => false) (fun _ => false)
    Z.of_nat toy_setup 3 false 30 (log_start Z.of_nat 3 10 [toy_hop] [] tt) = Some l /\
  length (reports l) = 2%nat /\ StronglySorted Z.lt ((fun r => cell Z.of_nat 3 r.1) <$> reports l).
Proof.
  set (run := @log_loop toy_libm unit (fun _ => 100000000) (fun _ d => d) (fun _ d => ([10; 20; 30; 40], d)) (fun _ => false) (fun _ => false)
    Z.of_nat toy_setup 3 false 30 (log_start Z.of_nat 3 10 [toy_hop] [] tt)).
  assert (Hrun : exists l, run = Some l /\ length (reports l) = 2%nat).
  { exists (default (mk_log 0 0 0 false [] [] tt []) run). vm_compute. split; reflexivity. }
  destruct Hrun as (l & El & Hl). exists l. split; [exact El|]. split; [exact Hl|].
  refine (proj1 (proj1 (@power_log_schedule toy_libm unit (fun _ => 100000000) (fun _ d => d) (fun _ d => ([10; 20; 30; 40], d))
    (fun _ => false) (fun _ => false) Z.of_nat toy_setup 3 false _ _ _ _ 10 [toy_hop] [] tt _) 30%nat l El)).
  - lia.
  - intros x. exists (Z.to_nat x). lia.
  - intros k x. exists (S (Z.to_nat (Z.of_nat k - x))). lia.
  - lia.
  - lia.
Defined.
End PowerMainProps.
