(* ===== verification/ProgramsProps.v ===== *)
(** * What holds of the programs

    [Module Sessions]: what a program sets on the device, for every command line, is a sequence of
    library calls, so that what holds of all of these holds of every program ([programs_set_up]).
    [Module LifeProps]: every program uses its device, its file and its thread only while it has
    them, and gives back what it holds; rtl_sdr does not when it cannot open its file.
    [Module AdsbProgram]: what the decoder thread of rtl_adsb shows ([adsb_threads_shown]), and
    that the printed frames read back. *)

From Stdlib Require Import String Ascii.
From stdpp Require Import relations.
From S2P Require Import Prelude Float I2c Usb UsbRegs TunerR82xx TunerFc TunerE4k TunerFc2580 TunerInv Librtlsdr LibrtlsdrOpen LibrtlsdrProps LibrtlsdrSettings RtlTcp RtlTcpClients RtlEeprom Convenience Getopt Options Handover RtlAdsb RtlFm RtlFmRun RtlTcpRun RtlTools RtlList Programs RtlPower RtlPowerRun.

Create HintDb session.

Module Sessions.
Import Usb Librtlsdr LibrtlsdrOpen BusGuard Convenience.

Section Sessions.
Context {U : Type} `{Libusb U}.

(** The state behind [m] is that behind a sequence of library calls. *)
Definition session {A} (m : st (rtlsdr_dev U) A) : Prop := forall d, exists ops, (m d).2 = run_session ops d.

Lemma session_ret {A} (a : A) : session (mret a).
Proof. intros d. by exists []. Qed.
Lemma session_get : session st_get.
Proof. intros d. by exists []. Qed.
Lemma session_bind {A B} (m : st (rtlsdr_dev U) A) (f : A -> st (rtlsdr_dev U) B) :
  session m -> (forall a, session (f a)) -> session (m ≫= f).
Proof.
  intros Hm Hf d. rewrite st_bind_eq. destruct (Hm d) as [ops E]. destruct (m d) as [a d1]. cbn in E. subst d1.
  destruct (Hf a (run_session ops d)) as [ops' E']. exists (ops ++ ops'). by rewrite RtlTcpClientsProps.run_session_app.
Qed.
Lemma session_api o : session (run_api o).
Proof. intros d. by exists [o]. Qed.

Lemma session_if {A} (b : bool) (m k : st (rtlsdr_dev U) A) : session m -> session k -> session (if b then m else k).
Proof. by destruct b. Qed.

Lemma session_center_freq f : session (rtlsdr_set_center_freq f).
Proof. exact (session_api (Op_set_center_freq f)). Qed.
Lemma session_correction p : session (rtlsdr_set_freq_correction p).
Proof. exact (session_api (Op_set_freq_correction p)). Qed.
Lemma session_sample_rate r : session (rtlsdr_set_sample_rate r).
Proof. exact (session_api (Op_set_sample_rate r)). Qed.
Lemma session_gain g : session (rtlsdr_set_tuner_gain g).
Proof. exact (session_api (Op_set_tuner_gain g)). Qed.
Lemma session_gain_mode m : session (rtlsdr_set_tuner_gain_mode m).
Proof. exact (session_api (Op_set_tuner_gain_mode m)). Qed.
Lemma session_testmode on : session (rtlsdr_set_testmode on).
Proof. exact (session_api (Op_set_testmode on)). Qed.
Lemma session_agc on : session (rtlsdr_set_agc_mode on).
Proof. exact (session_api (Op_set_agc_mode on)). Qed.
Lemma session_direct on : session (rtlsdr_set_direct_sampling on).
Proof. exact (session_api (Op_set_direct_sampling on)). Qed.
Lemma session_offset on : session (rtlsdr_set_offset_tuning on).
Proof. exact (session_api (Op_set_offset_tuning on)). Qed.
Lemma session_bias_gpio pin on : session (on_core (set_bias_tee_gpio pin on)).
Proof. exact (session_api (Op_set_bias_tee_gpio pin on)). Qed.
Lemma session_bias on : session (on_core (rtlsdr_set_bias_tee on)).
Proof. apply session_bias_gpio. Qed.
Lemma session_reset : session (on_core rtlsdr_reset_buffer).
Proof. exact (session_api Op_reset_buffer). Qed.
End Sessions.
#[export] Hint Resolve session_ret session_get session_bind session_if session_center_freq session_correction session_sample_rate
  session_gain session_gain_mode session_testmode session_agc session_direct session_offset session_bias_gpio session_bias
  session_reset : session.
#[export] Hint Unfold verbose_set_frequency verbose_set_sample_rate verbose_direct_sampling verbose_offset_tuning verbose_auto_gain
  verbose_gain_set verbose_ppm_set verbose_reset_buffer nearest_gain : session.

Section Programs.
Context {U : Type} `{Libusb U}.

(** The programs that set a device up, with what their command lines were turned into. *)
Inductive program :=
  | P_sdr (o : RtlSdrMain.options)
  | P_test (o : RtlTestMain.options)
  | P_biast (o : RtlBiast.options)
  | P_adsb (o : AdsbMain.options)
  | P_fm (o : FmMain.options)
  | P_power (o : PowerMain.options) (tunes : list Power.tuning_state)
  | P_tcp (o : TcpMain.options).
Definition set_up (p : program) : st (rtlsdr_dev U) unit :=
  match p with
  | P_sdr o => RtlSdr.settings (RtlSdrMain.direct_sampling o) (RtlSdrMain.samp_rate o) (RtlSdrMain.frequency o) (RtlSdrMain.gain o)
      (RtlSdrMain.ppm_error o)
  | P_test o => RtlTestMain.settings o
  | P_biast o => RtlBiast.settings o
  | P_adsb o => _ ← AdsbMain.settings o; mret tt
  | P_fm o => _ ← FmMain.device_settings o; _ ← FmMain.first_channel o; mret tt
  | P_power o tunes => _ ← PowerMain.settings o; PowerMain.start_settings tunes
  | P_tcp o => TcpMain.settings o
  end.

Lemma set_up_session p : session (set_up p).
Proof.
  destruct p; cbn [set_up]; unfold RtlSdr.settings, RtlTestMain.settings, RtlBiast.settings, AdsbMain.settings, FmMain.device_settings,
    FmMain.first_channel, PowerMain.settings, PowerMain.start_settings, TcpMain.settings; repeat autounfold with session;
    try (destruct (Fm.optimal_settings _ _ _ _) as [[c f] r]); auto 30 with session.
Qed.
End Programs.
End Sessions.

Module SessionProps.
Import Usb Librtlsdr LibrtlsdrOpen BusGuard Clocks Sessions.

Section Programs.
Context {U : Type} `{Libusb U} `{LibusbHost U}.
(** What a program sets on its device leaves it sound: take a device from [rtlsdr_open], any
    of rtl_sdr, rtl_test, rtl_biast, rtl_adsb, rtl_fm, rtl_power and rtl_tcp with any options, and
    any calls of the library behind its set-up, such as those for the commands of clients or the
    next hop.  Whatever libusb and the device answer, every transfer to the tuner came while the
    last command to the I2C repeater was to switch it on, the last command of all switches it off,
    and the driver of the tuner works with the corrected clock. *)
Theorem programs_set_up (u : U) malloc detach index r d p (ops : list api_op) :
  rtlsdr_open malloc detach index (mk_logged u []) = (r, inr d) ->
  let d' := run_session ops (set_up p d).2 in
  let log := l_log (usb (d_core d')) in
  guarded log = true /\ commanded log = Some false /\ clocked d'.
Proof.
  intros Ho. destruct (set_up_session p d) as [ops' E]. cbn zeta. rewrite E.
  destruct (guard_session ops _ (guard_session ops' d (guard_open _ _ _ _ _ _ Ho))) as [H1 H2].
  split_and!; [done..|]. apply clocked_session, clocked_session. by eapply open_clocked.
Qed.
End Programs.

(** rtl_tcp on the dongle with an R820T. *)
Lemma programs_set_up_witness :
  exists r d, rtlsdr_open true false 0 (mk_logged sim_r820t []) = (r, inr d) /\ tuner_type d = RTLSDR_TUNER_R820T /\
    let d' := run_session demo_ops (set_up (P_tcp TcpMain.options_init) d).2 in
    guarded (l_log (usb (d_core d'))) = true /\ clocked d'.
Proof.
  assert (T : match rtlsdr_open true false 0 (mk_logged sim_r820t []) with
              | (_, inr d) => bool_decide (tuner_type d = RTLSDR_TUNER_R820T)
              | _ => false
              end = true) by (vm_compute; reflexivity).
  destruct (rtlsdr_open true false 0 (mk_logged sim_r820t [])) as [r [u|d]] eqn:E; [discriminate T|].
  exists r, d. split; [reflexivity|]. split; [exact (bool_decide_eq_true_1 _ T)|].
  destruct (programs_set_up sim_r820t true false 0 r d (P_tcp TcpMain.options_init) demo_ops E) as (H1 & _ & H3). exact (conj H1 H3).
Defined.
End SessionProps.

Module LifeProps.
Import Life.

(** What is left behind: nothing, but for rtl_sdr when it cannot open its file. *)
Definition left (no_file : bool) (e : env) : held :=
  if negb no_file && (0 <=? e_dev e) && (0 <=? e_open e) && negb (e_stdout e) && negb (e_fopen e) then mk_held true true false false
  else nothing.

(** On every path the programs take, use and release in order: the device, the buffer and the file
    are used only while they are held and released once, not while a thread uses them. *)
Theorem programs_release no_file benchmark e :
  performs (RtlSdrMain.main no_file e).2 nothing = Some (left no_file e) /\
  performs (RtlTestMain.main benchmark e).2 nothing = Some nothing /\
  performs (RtlBiast.main e).2 nothing = Some nothing /\
  performs (AdsbMain.main e).2 nothing = Some nothing /\
  performs (FmProgram.main e).2 nothing = Some nothing /\
  performs (PowerMain.main e).2 nothing = Some nothing.
Proof.
  destruct e as [dv op so fo r]. unfold left. cbn [e_dev e_open e_stdout e_fopen].
  unfold RtlSdrMain.main, RtlTestMain.main, RtlBiast.main, AdsbMain.main, FmProgram.main, PowerMain.main, open_file, close_file.
  cbn [e_dev e_open e_stdout e_fopen]. rewrite !Z.ltb_antisym.
  destruct (0 <=? dv), (0 <=? op), so, fo, no_file, benchmark as [[]|]; done.
Qed.

(** rtl_sdr reports success when it could not open its file. *)
Lemma sdr_no_file dv : 0 <= dv -> (RtlSdrMain.main false (mk_env dv 0 false false 0)).1 = 0.
Proof. intros. unfold RtlSdrMain.main. cbn. by rewrite (proj2 (Z.ltb_ge _ _)) by lia. Qed.
End LifeProps.

Module AdsbProgram.
Import Adsb Handover HandoverFacts AdsbThreads.

Section Threads.
Context (st : settings).

Definition marks (buf : list Z) : option (list Z) := manchester st (3 * length (magnitute buf)) (magnitute buf).
(** What a buffer shows. *)
Definition frames (buf : list Z) : list (list Z) := from_option (messages st) [] (marks buf).
Definition full (buf : list Z) : Prop := bytes buf /\ zlen buf = DEFAULT_BUF_LENGTH.

Lemma marks_total buf : bytes buf -> exists bits, marks buf = Some bits /\ zlen bits = zlen (magnitute buf).
Proof.
  intros Hb. unfold marks, manchester. set (m := magnitute buf).
  destruct (AdsbFacts.scan_loop_ends st (length m) (mk_scan 0 0 0 m) (3 * length m)) as (s' & E & Hz & _); [done|..].
  - apply AdsbFacts.Forall_unmarked; [by apply AdsbFacts.magnitute_cells|done].
  - cbn [sbuf pos]. unfold zlen. lia.
  - done.
  - exists (sbuf s'). cbn [sbuf] in E, Hz. by rewrite E.
Qed.
Lemma bytes_le16 l : bytes (le16 l).
Proof.
  unfold le16. induction l as [|x l IH]; [constructor|]. cbn [flat_map app]. constructor; [apply u8_range|]. by constructor; [apply u8_range|].
Qed.
Lemma zlen_le16 l : zlen (le16 l) = 2 * zlen l.
Proof. unfold le16, zlen. induction l as [|x l IH]; [done|]. cbn [flat_map app length]. lia. Qed.
Lemma zlen_magnitute buf : zlen (magnitute buf) = zlen buf / 2.
Proof.
  enough (forall n buf, (length buf <= n)%nat -> zlen (magnitute buf) = zlen buf / 2) as G by by apply (G (length buf)).
  clear buf. induction n as [|n IH]; intros [|i [|q buf]] Hn; cbn [length] in Hn; try lia; try done.
  cbn [magnitute]. specialize (IH buf ltac:(lia)). unfold zlen in *. cbn [length].
  replace (Z.of_nat (S (S (length buf)))) with (Z.of_nat (length buf) + 1 * 2) by lia. rewrite Z.div_add by lia. lia.
Qed.

Abbreviation steps := (astep st full).
Definition prompt_step (s s' : adsb) : Prop := steps s s' /\ prompt (hd s) (hd s').

Lemma full_callback buf b : full buf -> full b -> buf ++ drop (length buf) b = buf.
Proof. intros [_ H1] [_ H2]. rewrite drop_ge by (unfold zlen in *; lia). apply app_nil_r. Qed.

Lemma full_step s s' : full (buffer s) -> steps s s' -> full (buffer s').
Proof.
  intros Hf Hst. destruct Hst as [s buf Hb _|s _|s _|s _|s _|s _|s s' _ _ Hd|s buf l _ _ Hb|s]; try done.
  - unfold callback. destruct (do_exit s); [done|]. cbn [buffer]. by rewrite full_callback.
  - unfold decode in Hd. destruct (marks_total (buffer s) (proj1 Hf)) as (bits & E & Hz). unfold marks in E. rewrite E in Hd. injection Hd as <-.
    cbn [buffer]. split; [apply bytes_le16|]. rewrite zlen_le16, Hz, zlen_magnitute, (proj2 Hf). reflexivity.
Qed.

(** A run in which buffers arrive while the decoder waits: all buffers so far were shown, but for
    the one in the buffer. *)
Record ainv (s : adsb) : Prop := {
  ai_exact : exact (hd s);
  ai_full : full (buffer s);
  ai_whole : torn s = false;
  ai_count : count (hd s) = length (got s);
  ai_buffer : at_ (hd s) = C_woken \/ at_ (hd s) = C_wait /\ due (hd s) = true -> got s !! length (uses (hd s)) = Some (buffer s);
  ai_busy : at_ (hd s) = C_busy -> exists n, length (uses (hd s)) = S n /\ got s !! n = Some (buffer s);
  ai_shown : shown s = concat (frames <$> take (length (uses (hd s)) - (if bool_decide (at_ (hd s) = C_busy) then 1 else 0)) (got s));
}.

(** The steps of the hand alone: neither to nor from a round. *)
Lemma ainv_hand h s : ainv s -> exact h -> count h = count (hd s) -> uses h = uses (hd s) -> at_ (hd s) <> C_busy -> at_ h <> C_busy ->
  (at_ h = C_woken \/ at_ h = C_wait /\ due h = true -> at_ (hd s) = C_woken \/ at_ (hd s) = C_wait /\ due (hd s) = true) ->
  ainv (set_hand h s).
Proof.
  intros [X F W N B Y Sh] Xh Ec Eu H1 H2 Hb. split; cbn [hd set_hand buffer got shown torn]; rewrite ?Ec, ?Eu; try done; [auto|].
  rewrite Sh, !bool_decide_eq_false_2; done.
Qed.

Lemma ainv_step s s' : ainv s -> prompt_step s s' -> ainv s'.
Proof.
  intros I [Hst P]. pose proof (full_step s s' (ai_full _ I) Hst) as F'. pose proof I as [X F W N B Y Sh].
  destruct Hst as [s buf Hb Hd|s Hd|s Ha|s Ha|s Ha|s Ha|s s' Ha _ Hw|s buf l Ha Ht|s].
  - unfold callback in *. destruct (do_exit s) eqn:Ex; [done|]. cbn [hd buffer] in *.
    assert (X' : exact (store (hd s))) by (eapply (exact_step false); [done|by apply H_store|done]).
    destruct P as [[P|P] _]; [cbn in P; lia|]. destruct (exact_length _ X) as [_ L]. specialize (L ltac:(congruence) Hd).
    split; cbn [hd buffer count store uses got shown at_ due torn]; try done.
    + by rewrite W, P.
    + rewrite length_app. cbn. lia.
    + intros _. rewrite full_callback by done. rewrite <- L, N, lookup_app_r, Nat.sub_diag by lia. done.
    + congruence.
    + rewrite take_app_le; [done|]. rewrite <- N, L. apply Nat.le_sub_l.
  - apply ainv_hand; try done; [eapply (exact_step false); [done|by apply H_signal|done]|..]; unfold exact in X; rewrite Hd in X.
    + by destruct (at_ (hd s)).
    + cbn. by destruct (at_ (hd s)).
    + intros _. destruct (at_ (hd s)); try done; tauto.
  - apply ainv_hand; try done; [eapply (exact_step (do_exit s)); [done|by apply H_test|done]|by rewrite Ha|cbn; by destruct (do_exit s)|].
    cbn. destruct (do_exit s); intros [?|[? _]]; done.
  - apply ainv_hand; try done; [eapply (exact_step (do_exit s)); [done|by apply H_wait|done]|by rewrite Ha|].
    cbn. intros [?|[_ Hd]]; [done|]. unfold exact in X. by rewrite Ha, Hd in X.
  - by destruct (proj2 P Ha eq_refl).
  - specialize (B (or_introl Ha)). split; cbn [begin_round hd buffer got shown torn]; try done.
    + eapply (exact_step false); [done|by apply H_use|done].
    + cbn. by intros [?|[? _]].
    + intros _. exists (length (uses (hd s))). cbn. rewrite length_app. cbn. split; [lia|done].
    + cbn -[Nat.sub take]. by rewrite Sh, Ha, length_app, Nat.add_sub, bool_decide_eq_false_2, Nat.sub_0_r.
  - destruct (Y Ha) as (n & En & Eb). unfold decode in Hw. destruct (marks_total (buffer s) (proj1 F)) as (bits & E & Hz).
    assert (Ef : frames (buffer s) = messages st bits) by (unfold frames; by rewrite E). unfold marks in E. rewrite E in Hw.
    injection Hw as <-. cbn [hd buffer] in *. split; cbn [hd buffer got shown torn]; try done.
    + eapply (exact_step (do_exit s)); [done|by apply H_back|by apply prompt_at; [|congruence]].
    + cbn. by intros [?|[? _]].
    + change (uses (back (hd s))) with (uses (hd s)). rewrite Sh, Ha, En, bool_decide_eq_true_2, bool_decide_eq_false_2 by done.
      rewrite Nat.sub_0_r. cbn [Nat.sub]. rewrite Nat.sub_0_r, (take_S_r _ _ _ Eb), fmap_app, concat_app, <- Ef. cbn. by rewrite app_nil_r.
  - congruence.
  - split; try done.
Qed.

(** C29.  The decoder thread of rtl_adsb, for buffers of the full length.  Whatever the
    interleaving of the callback, the decoder, signals and wake-ups without a signal, copies in
    the middle of a round of the decoder included with whatever bytes such a round leaves: a
    round that no copy overlaps ends, also on a buffer that it has been through before.  If
    buffers arrive only while the decoder waits for them and only their signals wake it, no
    round is overlapped, and what it has shown is at any time the beginning of the frames of the
    received buffers, one buffer after the other, and all of them when it waits again. *)
Theorem adsb_threads_shown buf s :
  full buf ->
  (rtc steps (adsb_start buf) s -> exists s', decode st s = Some s') /\
  (rtc prompt_step (adsb_start buf) s ->
   torn s = false /\ shown s `prefix_of` concat (frames <$> got s) /\
   (at_ (hd s) = C_wait -> due (hd s) = false -> shown s = concat (frames <$> got s))).
Proof.
  intros Hf. split.
  - intros R. assert (full (buffer s)) as [Hb _].
    { remember (adsb_start buf) as s0 eqn:E0. assert (Hs : full (buffer s0)) by by subst. clear E0.
      induction R as [|x y z Hxy _ IH]; [done|]. apply IH. by eapply full_step. }
    destruct (marks_total (buffer s) Hb) as (bits & E & _). unfold decode. unfold marks in E. rewrite E. by eexists.
  - intros R. assert (ainv s) as [X F W N _ _ Sh].
    { assert (I0 : ainv (adsb_start buf)) by (split; try done; intros [?|[? _]]; done). revert I0.
      induction R as [|x y z Hxy _ IH]; [done|]. intros I. apply IH. by eapply ainv_step. }
    split; [done|]. set (n := (length (uses (hd s)) - _)%nat) in Sh. split.
    + rewrite Sh. rewrite <- (take_drop n (got s)) at 2. rewrite fmap_app, concat_app. by apply prefix_app_r.
    + intros Ha Hd. unfold n in Sh. rewrite Ha, bool_decide_eq_false_2, Nat.sub_0_r, take_ge in Sh; [done| |done].
      rewrite <- N. rewrite (proj2 (exact_length _ X)); [done|congruence|done].
Qed.

(** A buffer on its way through the threads. *)
Lemma one_buffer buf : full buf ->
  exists s, rtc prompt_step (adsb_start buf) s /\ at_ (hd s) = C_wait /\ due (hd s) = false /\ got s = [buf].
Proof.
  intros Hb. set (s0 := set_hand (safe_cond_wait (test false start)) (adsb_start buf)).
  set (s1 := set_hand (safe_cond_signal (store (hd s0))) (callback buf s0)). set (s2 := begin_round s1).
  assert (F : full (buffer s2)) by (cbn [s2 begin_round s1 s0 set_hand callback do_exit adsb_start buffer]; by rewrite full_callback).
  destruct (marks_total (buffer s2) (proj1 F)) as (bits & E & _). unfold marks in E.
  set (s3 := mk_adsb (back (hd s2)) (do_exit s2) (le16 bits) false (shown s2 ++ messages st bits) (got s2)).
  assert (Ed : decode st s2 = Some s3) by (unfold decode; by rewrite E).
  exists (set_hand (safe_cond_wait (test false (hd s3))) s3). split; [|done].
  eapply rtc_l; [split; [by apply T_test|by apply prompt_at]|]. eapply rtc_l; [split; [by apply T_wait|by apply prompt_at]|].
  eapply (rtc_l _ _ (callback buf s0)); [split; [by apply T_callback|by apply prompt_store]|].
  eapply (rtc_l _ _ s1); [split; [by apply (T_signal st full (callback buf s0))|by apply prompt_signal]|].
  eapply (rtc_l _ _ s2); [split; [by apply T_begin|by apply prompt_at]|].
  eapply (rtc_l _ _ s3); [split; [by eapply T_decode|by apply prompt_at]|].
  eapply rtc_l; [split; [by apply T_test|by apply prompt_at]|]. eapply rtc_l; [split; [by apply T_wait|by apply prompt_at]|]. apply rtc_refl.
Qed.
End Threads.

(** A buffer of silence. *)
Lemma constant_full n x : is_u 8 x -> Z.of_nat n = DEFAULT_BUF_LENGTH -> full (replicate n x).
Proof.
  intros Hx Hn. split; [|unfold zlen; by rewrite length_replicate]. apply list.Forall_forall. by intros y [-> _]%elem_of_replicate.
Qed.
Definition silent : list Z := replicate (Z.to_nat DEFAULT_BUF_LENGTH) 127.
Lemma silent_full : full silent.
Proof. unfold silent. apply constant_full; [split; lia|by rewrite Z2Nat.id]. Qed.

Lemma adsb_threads_shown_witness : let st := mk_settings 10 5 false false in
  exists s, rtc (prompt_step st) (adsb_start silent) s /\ got s = [silent] /\ shown s = concat (frames st <$> [silent]).
Proof.
  cbn zeta. destruct (one_buffer (mk_settings 10 5 false false) silent silent_full) as (s & R & Ha & Hd & Eg).
  exists s. split; [exact R|]. split; [exact Eg|]. rewrite <- Eg.
  exact (proj2 (proj2 (proj2 (adsb_threads_shown (mk_settings 10 5 false false) silent s silent_full) R)) Ha Hd).
Defined.

(** ** Reading the output back *)

Definition unhex (c : Z) : option Z :=
  if (48 <=? c) && (c <=? 57) then Some (c - 48) else if (97 <=? c) && (c <=? 102) then Some (c - 87) else None.
(** The bytes in front, and the rest. *)
Fixpoint read_hex (l : list Z) : list Z * list Z :=
  match l with
  | a :: (b :: l') =>
      match unhex a, unhex b with
      | Some x, Some y => let '(m, rest) := read_hex l' in (16 * x + y :: m, rest)
      | _, _ => ([], l)
      end
  | _ => ([], l)
  end.
(** A frame as other programs read it: the bytes between a star and a semicolon. *)
Definition read_line (l : list Z) : option (list Z) :=
  match l with
  | 42 :: l => match read_hex l with (m, 59 :: _) => Some m | _ => None end
  | _ => None
  end.

Lemma unhex_digit n : 0 <= n < 16 -> unhex (AdsbMain.hex_digit n) = Some n.
Proof. intros Hn. unfold AdsbMain.hex_digit, unhex. ztests; cbn; f_equal; lia. Qed.
Lemma read_hex_bytes m : bytes m -> forall rest, read_hex (flat_map (AdsbMain.hex 2) m ++ 59 :: rest) = (m, 59 :: rest).
Proof.
  induction 1 as [|x m Hx _ IH]; intros rest; [by destruct rest|].
  unfold is_u in Hx. assert (0 <= x / 16 < 16) by (split; [apply Z.div_pos; lia|apply Z.div_lt_upper_bound; lia]).
  cbn [flat_map AdsbMain.hex app read_hex]. rewrite (Z.mod_small (x / 16)), !unhex_digit by (try done; apply Z.mod_pos_bound; lia).
  rewrite IH. f_equal. f_equal. pose proof (Z.div_mod x 16). lia.
Qed.

(** What is printed for a frame reads back as the bytes of the frame, with and without the verbose
    lines. *)
Theorem adsb_text_reads_back st frame len m : bytes frame -> display st frame len = Some m ->
  read_line (AdsbMain.text st frame len) = Some m.
Proof.
  intros Hb Hd. assert (Hm : bytes m) by (unfold display in Hd; repeat case_match; simplify_eq; by apply Forall_take).
  unfold AdsbMain.text. rewrite Hd. change (Eeprom.str "*") with [42]. change (Eeprom.str ";") with [59]. cbn [app read_line].
  by rewrite read_hex_bytes.
Qed.
End AdsbProgram.
